(* ===== verification/_CoqProject ===== *)
-Q . S2P
Prelude.v
CString.v
ULib.v
USys.v
Mem.v
Printf.v
Grep.v
UProgs.v
Umalloc.v
UmallocProps.v
Sh.v
ShLang.v
ShProps.v
ProcDefs.v
Console.v
ConsoleProps.v
Queue.v
Proc.v
Sched.v
ProcInv.v
SchedInv.v
Trap.v
KProc.v
Ledger.v
System.v
SystemProps.v
ProcProps.v
Syscall.v
Pipe.v
Lock.v
Bio.v
Ide.v
IdeProps.v
Boot.v
BootProps.v
Mp.v
MpProps.v
Apic.v
ApicProps.v
BioSpec.v
BioProps.v
Log.v
LogSpec.v
LogProps.v
Fs.v
Dinode.v
FsSpec.v
FsFile.v
FsIo.v
File.v
FileSpec.v
FsProps.v
DirSpec.v
DirProps.v
Mkfs.v
MkfsProps.v
ImageProps.v
Sysfile.v
Kalloc.v
KallocSpec.v
Vm.v
VmSpec.v
VmUser.v
VmSpace.v
VmProps.v
Exec.v
