(* ===== verification/Prelude.v ===== *)
(** * A verification of xv6-improved

    The program is a small Unix for the 32-bit x86: a kernel with four scheduling policies chosen
    at compile time (round robin, first come first served, priorities, multi-level feedback
    queues), a logging file system, a shell and user programs, with the boot loader that starts
    it and the program that builds its disk image.  This library translates the C code into Rocq
    functions and proves theorems about them.  File and function names below are those of [src/].

    ** How the code is translated

    A C [int], [uint], [short] or [char] is an integer of type [Z], and the wrap-around of its
    width is written out ([u32], [i32], [u16], ... below).  A pointer into a fixed table is an
    index; where the code computes with addresses ([string.c], [umalloc.c], [kalloc.c], [vm.c],
    [mp.c], [bootmain.c]) memory is a function from addresses to bytes and a pointer is its
    address.  Kernel code is a computation [M S A] over a state [S]: it returns a value and a new
    state, calls [panic], faults (a null or stray access), or runs out of the fuel of a loop that
    is not structural.  [wp m Q s] says that [m] returns from [s] with [Q]: a theorem of this form
    excludes panics, faults and endless loops.  User programs are trees of system calls
    ([USys.v]).  Functions keep their names.  A loop is a [Fixpoint] named after its function.

    Locks and concurrency.  A critical section is one step.  [Lock.v], [Pipe.v], [Ide.v] and
    [System.v] interleave the steps of processors and processes; [Lock.v] justifies the critical
    sections themselves.  The file system runs one call at a time: a sleep lock that is found
    taken is held by the caller itself, and the wait, which would never end, is [NoFuel].

    Code outside [src/] (devices, the BIOS, the linker's symbols, the build host) is a type class
    or an argument.  What is relied on of a device is the laws of its class ([Crt], [Ata], [Rtc],
    [Ioapic]), each with an instance that shows that the laws can hold.

    ** The parts, and the files that model them

    - Foundations: [Prelude] (integers, the monad, [wp], lists), [CString] ([string.c]), [Mem]
      (words and fields of memory, [memlayout.h]).
    - User library and programs: [ULib], [USys] ([ulib.c], [user.h]), [Printf] ([printf.c]),
      [Umalloc], [UmallocProps] ([umalloc.c]), [Grep] ([grep.c]), [UProgs] (the other programs),
      [Sh], [ShLang], [ShProps] ([sh.c]).
    - Processes and scheduling: [ProcDefs] ([proc.h], [param.h]), [Queue] ([queue.c]), [Proc],
      [Sched] ([proc.c]), [Trap] (the clock interrupt), [ProcInv], [SchedInv] (the invariant),
      [KProc] (the operations that use memory and files, against the interface [ProcLaws]),
      [Ledger] (an instance of it), [System], [SystemProps], [ProcProps].
    - System calls and traps: [Syscall] ([syscall.c], [sysproc.c], [trap.c]).
    - Console, keyboard, serial line: [Console], [ConsoleProps] ([console.c], [kbd.c], [uart.c],
      and [procdump]).
    - Locks and pipes: [Lock] ([spinlock.c], [sleeplock.c]), [Pipe] ([pipe.c]).
    - Disk and buffers: [Bio], [BioSpec], [BioProps] ([bio.c], [memide.c]), [Ide], [IdeProps]
      ([ide.c]).
    - Log and file system: [Log], [LogSpec], [LogProps] ([log.c]), [Fs] ([fs.c]), [Dinode],
      [FsSpec], [FsFile], [FsIo], [FsProps] (blocks, inodes, contents), [DirSpec], [DirProps]
      (directories, path names), [File], [FileSpec] ([file.c]), [Sysfile] ([sysfile.c]).
    - The disk image: [Mkfs], [MkfsProps] ([mkfs.c]), [ImageProps] (the image and the kernel).
    - Memory: [Kalloc], [KallocSpec] ([kalloc.c]), [Vm], [VmSpec], [VmUser], [VmSpace], [VmProps]
      ([vm.c]), [Exec] ([exec.c]).
    - Starting up: [Boot], [BootProps] ([bootmain.c]), [Mp], [MpProps] ([mp.c]), [Apic],
      [ApicProps] ([lapic.c], [ioapic.c], [picirq.c]).

    Components meet at interfaces: the process operations reach memory, files and inodes through
    the class [ProcOps] with the laws [ProcLaws]; the file system reaches devices through
    [DevOps]; drivers reach hardware through [Ports], [BlockPorts], [LapicRegs], [IoapicRegs].

    ** What the theorems show

    - Processes ([SystemProps], [ProcProps]): in every reachable state of processors and processes
      every operation completes; the ready queues hold exactly the runnable processes; a process
      runs on one processor; the feedback queues refine lists; what [fork], [exit], [waitx] do.
    - Log ([LogProps]): a crash between any two disk writes leaves all of a transaction or none;
      recovery can itself be interrupted.
    - Buffer cache and drivers ([BioProps], [IdeProps]): the cache refines a disk, the IDE driver a
      first-in-first-out disk, whatever the order of callers, interrupts and wakeups.
    - Files and directories ([FsProps], [DirProps]): [filewrite] splices and [fileread] slices the
      contents; [dirlink] adds one entry; [namex] follows a path over the tree on the disk.
    - Image ([MkfsProps], [ImageProps]): [mkfs] builds a file system in the sense of the kernel's
      invariant, and the kernel booted on it finds every file with its bytes.
    - Memory ([VmProps], [UmallocProps]): pages have one owner, [copyuvm] copies and isolates,
      [freevm] gives everything back; [malloc] hands out disjoint blocks.
    - Shell and programs ([ShProps], [Grep], [Printf], [UProgs]): the parser accepts exactly a
      grammar, the child does what the command says, [grep] prints the lines of its language.
    - Pipes, locks, console ([Pipe], [Lock], [ConsoleProps]): a FIFO under interleaving without
      lost wakeups, mutual exclusion, a line editor.
    - System call arguments ([Syscall]): exactly the blocks and strings inside the process pass.
    - Starting up ([BootProps], [MpProps], [ApicProps]): the kernel is loaded, the processors are
      found, the interrupts are routed, the clock is read.

    Some lemmas show behaviour the code does not mean to have: [getpinfo_writes_past_end],
    [kill_zero_marks_free_slot], [fcfs_overflow_idle], [pipewrite_killed_forgets_wakeup],
    [grep_loses_split_line], [malloc_overflows], [cd_chops], [append_overwrites],
    [dirlink_self_deadlock], [ideintr_ignores_error], [mpinit_stuck].

    ** Bounds and fuel

    The tables have the sizes of [param.h].  The fuel of a kernel loop is computed from the sizes
    it runs over, and the theorems show that it suffices.  The polling loops of the drivers take
    the fuel [patience], which bounds how long the device may be busy; the loops of [mpinit] and
    [cmostime] and the loops of user programs that end only with their input take fuel as an
    argument, and the theorems say how much is enough.

    ** Simplifications

    [malloc] succeeds in the shell, as its code assumes.  The calls of the build host on the image
    succeed in [Mkfs].  The controller of [Ata] reports no errors ([ideintr_ignores_error] has one
    that does).  The messages of [cprintf] inside [vm.c] and [ioapic.c] are left out.  Saved
    registers are fields of the process record.

    ** Not modelled

    Assembly ([bootasm.S], [entry.S], [entryother.S], [swtch.S], [trapasm.S], [usys.S],
    [initcode.S]) and the scripts that generate it: the translation is of C; the register switch is
    the boundary between [enter] and [leave] of [Sched.v], and the trap frame is an argument of
    [trap].  [main.c]: the order of the initialisation calls and the start of the other processors,
    which wait for assembly to run.  [tvinit], [idtinit], [getcallerpcs], [consoleinit]: they fill
    hardware tables or record addresses for debugging.  The test programs ([usertests.c],
    [forktest.c], [stressfs.c], [test_sched.c]) and [defs.h], [types.h]: no code of the system. *)

From Stdlib Require Export ZArith Lia.
From stdpp Require Export base tactics gmap strings numbers list.

#[global] Open Scope Z_scope.

(** * Machine integers *)

(** C's [uint], [int], [ushort], [short], [uchar] and [char] on the 32-bit
    x86 target: mathematical integers with the wrap-around written out. *)
Definition u32 (z : Z) : Z := z mod 2 ^ 32.
Definition u16 (z : Z) : Z := z mod 2 ^ 16.
Definition u8 (z : Z) : Z := z mod 2 ^ 8.
Definition i32 (z : Z) : Z := (z + 2 ^ 31) mod 2 ^ 32 - 2 ^ 31.
Definition i16 (z : Z) : Z := (z + 2 ^ 15) mod 2 ^ 16 - 2 ^ 15.
Definition i8 (z : Z) : Z := (z + 2 ^ 7) mod 2 ^ 8 - 2 ^ 7.

Definition INT_MAX : Z := 2 ^ 31 - 1.
Definition UINT_MAX : Z := 2 ^ 32 - 1.

Lemma u32_small z : 0 <= z < 2 ^ 32 -> u32 z = z.
Proof. intros H. unfold u32. by apply Z.mod_small. Qed.

Lemma u32_range z : 0 <= u32 z < 2 ^ 32.
Proof. unfold u32. apply Z.mod_pos_bound. lia. Qed.

(** One lap around the 32-bit range, for the arithmetic solver. *)
Lemma u32_lap z :
  - 2 ^ 32 <= z < 2 * 2 ^ 32 ->
  (z < 0 /\ u32 z = z + 2 ^ 32) \/ (0 <= z < 2 ^ 32 /\ u32 z = z) \/ (2 ^ 32 <= z /\ u32 z = z - 2 ^ 32).
Proof.
  intros Hz. unfold u32. destruct (Z.ltb_spec z 0); [left|right; destruct (Z.ltb_spec z (2 ^ 32)); [left|right]].
  - split; [done|]. rewrite <- (Z.mod_add _ 1), Z.mod_small; lia.
  - split; [lia|]. apply Z.mod_small. lia.
  - split; [done|]. rewrite <- (Z.mod_add _ (-1)), Z.mod_small; lia.
Qed.

Ltac lap z :=
  let H := fresh in
  assert (- 2 ^ 32 <= z < 2 * 2 ^ 32) as H by lia;
  destruct (u32_lap z H) as [[? ?]|[[? ?]|[? ?]]]; clear H.

Lemma i32_small z : - 2 ^ 31 <= z < 2 ^ 31 -> i32 z = z.
Proof. intros H. unfold i32. rewrite Z.mod_small; lia. Qed.

Lemma i32_range z : - 2 ^ 31 <= i32 z < 2 ^ 31.
Proof. unfold i32. pose proof (Z.mod_pos_bound (z + 2 ^ 31) (2 ^ 32)). lia. Qed.

Lemma u32_i32 z : u32 (i32 z) = u32 z.
Proof. unfold u32, i32. rewrite Zminus_mod_idemp_l. f_equal. lia. Qed.

Lemma i32_u32 z : i32 (u32 z) = i32 z.
Proof. unfold i32, u32. by rewrite Zplus_mod_idemp_l. Qed.

Lemma i32_add_l a b : i32 (i32 a + b) = i32 (a + b).
Proof.
  rewrite <- (i32_u32 (i32 a + b)), <- (i32_u32 (a + b)). f_equal. unfold u32.
  rewrite <- (Zplus_mod_idemp_l (i32 a)), <- (Zplus_mod_idemp_l a).
  by rewrite (u32_i32 a : i32 a mod 2 ^ 32 = a mod 2 ^ 32).
Qed.

Lemma u8_small z : 0 <= z < 2 ^ 8 -> u8 z = z.
Proof. intros H. unfold u8. by apply Z.mod_small. Qed.

Lemma u8_range z : 0 <= u8 z < 256.
Proof. unfold u8. apply (Z.mod_pos_bound z 256). lia. Qed.

(** * Outcomes and the kernel monad *)

(** What running a piece of kernel code can end in: a value, a call of
    [panic], an access the C standard gives no meaning (a null or dangling
    pointer, an index outside its array), or the fuel of a loop that is not
    structural running out. *)
Inductive res (A : Type) : Type :=
| Ok (a : A)
| Panic (msg : string)
| Fault
| NoFuel.
Arguments Ok {A} a.
Arguments Panic {A} msg.
Arguments Fault {A}.
Arguments NoFuel {A}.

(** A computation over the state [S]. *)
Definition M (S A : Type) : Type := S -> res (A * S).

Definition ret {S A} (a : A) : M S A := fun s => Ok (a, s).
Definition bind {S A B} (m : M S A) (k : A -> M S B) : M S B :=
  fun s => match m s with
           | Ok (a, s') => k a s'
           | Panic msg => Panic msg
           | Fault => Fault
           | NoFuel => NoFuel
           end.
Definition panic {S A} (msg : string) : M S A := fun _ => Panic msg.
Definition fault {S A} : M S A := fun _ => Fault.
Definition nofuel {S A} : M S A := fun _ => NoFuel.
Definition get {S} : M S S := fun s => Ok (s, s).
Definition gets {S A} (f : S -> A) : M S A := fun s => Ok (f s, s).
Definition modify {S} (f : S -> S) : M S unit := fun s => Ok (tt, f s).

(** Dereference: [Some] is a valid object, [None] a null or dangling one. *)
Definition deref {S A} (o : option A) : M S A :=
  match o with Some a => ret a | None => fault end.
Definition when {S} (b : bool) (m : M S unit) : M S unit :=
  if b then m else ret tt.

(** Run a computation on a part of a larger state. *)
Definition zoom {S T A} (g : T -> S) (p : S -> T -> T) (m : M S A) : M T A :=
  fun t => match m (g t) with
           | Ok (a, s) => Ok (a, p s t)
           | Panic msg => Panic msg
           | Fault => Fault
           | NoFuel => NoFuel
           end.

Fixpoint for_each {S A} (l : list A) (f : A -> M S unit) : M S unit :=
  match l with
  | [] => ret tt
  | x :: l' => bind (f x) (fun _ => for_each l' f)
  end.

Declare Scope kernel_scope.
Delimit Scope kernel_scope with kernel.
Notation "'let!' x := m 'in' k" := (bind m (fun x => k))
  (at level 10, x pattern, m at level 200, k at level 200,
   format "'[v' 'let!'  x  :=  m  'in' '/' k ']'") : kernel_scope.
Notation "'do!' m ; k" := (bind m (fun _ => k))
  (at level 10, m at level 200, k at level 200,
   format "'[v' 'do!'  m ; '/' k ']'") : kernel_scope.
#[global] Open Scope kernel_scope.

(** ** Total correctness

    [wp m Q s]: from [s] the computation [m] returns (it neither panics, nor
    faults, nor runs out of fuel) and its value and final state satisfy [Q]. *)
Definition wp {S A} (m : M S A) (Q : A -> S -> Prop) (s : S) : Prop :=
  match m s with
  | Ok (a, s') => Q a s'
  | _ => False
  end.

Section wp.
Context {S : Type}.
Implicit Types s : S.

Lemma wp_Ok {A} (m : M S A) Q s :
  wp m Q s <-> exists a s', m s = Ok (a, s') /\ Q a s'.
Proof.
  unfold wp. destruct (m s) as [[a s']| | |]; split; try done.
  - intros ?. eauto.
  - intros (? & ? & [= <- <-] & ?). done.
  - intros (? & ? & ? & ?). done.
  - intros (? & ? & ? & ?). done.
  - intros (? & ? & ? & ?). done.
Qed.

Lemma wp_ret {A} (a : A) Q s : wp (ret a) Q s <-> Q a s.
Proof. done. Qed.

Lemma wp_bind {A B} (m : M S A) (k : A -> M S B) Q s :
  wp (bind m k) Q s <-> wp m (fun a => wp (k a) Q) s.
Proof. unfold wp, bind. by destruct (m s) as [[a s']| | |]. Qed.

Lemma wp_mono {A} (m : M S A) (P Q : A -> S -> Prop) s :
  wp m P s -> (forall a s', P a s' -> Q a s') -> wp m Q s.
Proof. unfold wp. destruct (m s) as [[a s']| | |]; eauto. Qed.

Lemma wp_get Q s : wp get Q s <-> Q s s.
Proof. done. Qed.

Lemma wp_gets {A} (f : S -> A) Q s : wp (gets f) Q s <-> Q (f s) s.
Proof. done. Qed.

Lemma wp_modify (f : S -> S) Q s : wp (modify f) Q s <-> Q tt (f s).
Proof. done. Qed.

Lemma wp_deref {A} (o : option A) Q s :
  wp (deref o) Q s <-> exists a, o = Some a /\ Q a s.
Proof.
  destruct o; cbn; split; try done.
  - intros ?. eauto.
  - intros (? & [= <-] & ?). done.
  - intros (? & ? & ?). done.
Qed.

Lemma wp_conj {A} (m : M S A) P Q s :
  wp m P s -> wp m Q s -> wp m (fun a s' => P a s' /\ Q a s') s.
Proof. unfold wp. by destruct (m s) as [[a s']| | |]. Qed.

(** A loop over a list keeps an invariant that each iteration keeps. *)
Lemma wp_for_each {A} (I : list A -> S -> Prop) (f : A -> M S unit) l s :
  I l s ->
  (forall x l' s', I (x :: l') s' -> wp (f x) (fun _ => I l') s') ->
  wp (for_each l f) (fun _ => I []) s.
Proof.
  intros HI Hstep. revert s HI. induction l as [|x l IH]; intros s HI.
  - done.
  - cbn. apply wp_bind. eapply wp_mono; [by apply Hstep|]. eauto.
Qed.

(** A counted loop. *)
Lemma wp_for_seq (I : nat -> S -> Prop) (f : nat -> M S unit) n s :
  I 0%nat s ->
  (forall j s', (j < n)%nat -> I j s' -> wp (f j) (fun _ => I (Datatypes.S j)) s') ->
  wp (for_each (seq 0 n) f) (fun _ => I n) s.
Proof.
  intros H0 Hstep. eapply wp_mono.
  - apply (wp_for_each (fun l s' => exists j, l = seq j (n - j) /\ (j <= n)%nat /\ I j s')).
    + exists 0%nat. rewrite Nat.sub_0_r. split; [done|]. split; [lia|done].
    + intros x l s' (j & Hl & Hj & HI). destruct (n - j)%nat as [|d] eqn:Hd; [done|].
      cbn in Hl. injection Hl as -> ->. eapply wp_mono; [by apply Hstep; [lia|]|].
      cbn beta. intros _ s2 HI2. exists (Datatypes.S j). split; [f_equal; lia|]. split; [lia|done].
  - cbn beta. intros _ s' (j & Hl & Hj & HI). destruct (n - j)%nat as [|d] eqn:Hd; [|done].
    by replace n with j by lia.
Qed.
End wp.

Lemma wp_zoom {S T A} (g : T -> S) (p : S -> T -> T) (m : M S A) Q t :
  wp (zoom g p m) Q t <-> wp m (fun a s => Q a (p s t)) (g t).
Proof. unfold wp, zoom. by destruct (m (g t)) as [[a s]| | |]. Qed.

(** Two runs of one computation agree. *)
Lemma wp_det {S A} (m : M S A) Q s a s' :
  wp m Q s -> m s = Ok (a, s') -> Q a s'.
Proof. unfold wp. intros H E. by rewrite E in H. Qed.

(** * Automation *)

Create HintDb kernel.
Create Rewrite HintDb kernel.
Create Rewrite HintDb wp.
#[export] Hint Rewrite @wp_ret @wp_bind @wp_get @wp_gets @wp_modify @wp_deref : wp.

(** Push [wp] through the straight-line part of a program. *)
Ltac wp_simpl := autorewrite with wp.
Ltac wp_steps := repeat (progress (wp_simpl; cbn beta iota zeta)).

(** Case on the scrutinee of the first [if] or [match] in the goal. *)
Ltac case_goal :=
  match goal with
  | |- context [match ?x with _ => _ end] =>
      lazymatch x with
      | context [match _ with _ => _ end] => fail
      | _ => let E := fresh "E" in destruct x eqn:E
      end
  end.
Ltac case_hyp H :=
  match type of H with
  | context [match ?x with _ => _ end] =>
      lazymatch x with
      | context [match _ with _ => _ end] => fail
      | _ => let E := fresh "E" in destruct x eqn:E
      end
  end.

(** Boolean comparisons of [Z] and [nat] in the context as propositions. *)
Ltac zb :=
  repeat match goal with
  | H : (_ && _)%bool = true |- _ => apply andb_true_iff in H; destruct H
  | H : (_ || _)%bool = false |- _ => apply orb_false_iff in H; destruct H
  | H : negb _ = true |- _ => apply negb_true_iff in H
  | H : negb _ = false |- _ => apply negb_false_iff in H
  | H : (_ =? _)%Z = true |- _ => apply Z.eqb_eq in H
  | H : (_ =? _)%Z = false |- _ => apply Z.eqb_neq in H
  | H : (_ <? _)%Z = true |- _ => apply Z.ltb_lt in H
  | H : (_ <? _)%Z = false |- _ => apply Z.ltb_ge in H
  | H : (_ <=? _)%Z = true |- _ => apply Z.leb_le in H
  | H : (_ <=? _)%Z = false |- _ => apply Z.leb_gt in H
  | H : (_ >? _)%Z = true |- _ => rewrite Z.gtb_ltb in H; apply Z.ltb_lt in H
  | H : (_ >? _)%Z = false |- _ => rewrite Z.gtb_ltb in H; apply Z.ltb_ge in H
  | H : (_ >=? _)%Z = true |- _ => rewrite Z.geb_leb in H; apply Z.leb_le in H
  | H : (_ >=? _)%Z = false |- _ => rewrite Z.geb_leb in H; apply Z.leb_gt in H
  | H : (_ =? _)%nat = true |- _ => apply Nat.eqb_eq in H
  | H : (_ =? _)%nat = false |- _ => apply Nat.eqb_neq in H
  | H : (_ <? _)%nat = true |- _ => apply Nat.ltb_lt in H
  | H : (_ <? _)%nat = false |- _ => apply Nat.ltb_ge in H
  | H : bool_decide _ = true |- _ => apply bool_decide_eq_true in H
  | H : bool_decide _ = false |- _ => apply bool_decide_eq_false in H
  end.

(** * Lists *)

Section lists.
Context {A : Type}.
Implicit Types l : list A.

(** Distinct indices below [n] are at most [n] many. *)
Lemma NoDup_bounded_length (ks : list nat) (n : nat) :
  NoDup ks -> (forall k, k ∈ ks -> (k < n)%nat) -> (length ks <= n)%nat.
Proof.
  intros Hnd Hlt. rewrite <- (length_seq n 0).
  apply submseteq_length, NoDup_submseteq; [done|].
  intros k Hk. apply elem_of_seq. specialize (Hlt k Hk). lia.
Qed.

(** Fewer than [n] indices leave one below [n] out. *)
Lemma pigeonhole_fresh (ks : list nat) (n : nat) :
  (length ks < n)%nat -> exists k, (k < n)%nat /\ k ∉ ks.
Proof.
  intros Hlen.
  destruct (decide (Exists (fun k => k ∉ ks) (seq 0 n))) as [He|Hne].
  - apply Exists_exists in He as (k & Hk & ?).
    apply elem_of_seq in Hk.
    exists k. split; [lia|done].
  - exfalso. assert (length (seq 0 n) <= length ks)%nat; [|rewrite length_seq in *; lia].
    apply submseteq_length, NoDup_submseteq; [apply NoDup_seq|].
    intros k Hk. destruct (decide (k ∈ ks)); [done|].
    exfalso. apply Hne, Exists_exists. by exists k.
Qed.

(** The first index, counted from [i], whose element satisfies [f]. *)
Fixpoint first_from (f : A -> bool) (l : list A) (i : nat) : option nat :=
  match l with
  | [] => None
  | x :: l' => if f x then Some i else first_from f l' (S i)
  end.

Lemma first_from_Some f l i k :
  first_from f l i = Some k <->
  exists j x, k = (i + j)%nat /\ l !! j = Some x /\ f x = true /\
    forall j' y, (j' < j)%nat -> l !! j' = Some y -> f y = false.
Proof.
  revert i. induction l as [|x l IH]; intros i; cbn.
  - split; [done|]. intros (j & y & _ & Hj & _). by rewrite lookup_nil in Hj.
  - destruct (f x) eqn:Hx.
    + split.
      * intros [= <-]. exists 0%nat, x. repeat split; [lia|done|]. intros; lia.
      * intros (j & y & -> & Hj & Hy & Hmin). destruct j as [|j].
        -- f_equal. lia.
        -- specialize (Hmin 0%nat x ltac:(lia) eq_refl). congruence.
    + rewrite IH. split.
      * intros (j & y & -> & Hj & Hy & Hmin). exists (S j), y.
        repeat split; [lia|done|done|]. intros [|j'] z Hlt Hz.
        -- by injection Hz as <-.
        -- apply (Hmin j' z); [lia|done].
      * intros (j & y & -> & Hj & Hy & Hmin). destruct j as [|j].
        -- injection Hj as <-. congruence.
        -- exists j, y. repeat split; [lia|done|done|]. intros j' z Hlt Hz.
           apply (Hmin (S j') z); [lia|done].
Qed.

Lemma first_from_None f l i :
  first_from f l i = None <-> forall j x, l !! j = Some x -> f x = false.
Proof.
  revert i. induction l as [|x l IH]; intros i; cbn.
  - split; [|done]. intros _ j y Hj. by rewrite lookup_nil in Hj.
  - destruct (f x) eqn:Hx.
    + split; [done|]. intros H. specialize (H 0%nat x eq_refl). congruence.
    + rewrite IH. split.
      * intros H [|j] y Hy; [by injection Hy as <-|eauto].
      * intros H j y Hy. by apply (H (S j) y).
Qed.

Lemma first_from_exists f l i j x :
  l !! j = Some x -> f x = true -> is_Some (first_from f l i).
Proof.
  intros Hj Hx. destruct (first_from f l i) eqn:E; [eauto|].
  rewrite first_from_None in E. specialize (E j x Hj). congruence.
Qed.
End lists.

Lemma list_alter_alter {A} (f g : A -> A) i (l : list A) :
  alter f i (alter g i l) = alter (fun x => f (g x)) i l.
Proof. revert i. induction l as [|x l IH]; intros [|i]; cbn; [done|done|done|f_equal; apply IH]. Qed.

(** Splitting one list out of a list of lists. *)
Lemma mjoin_lookup_perm {A} (css : list (list A)) k cs :
  css !! k = Some cs -> mjoin css ≡ₚ cs ++ mjoin (delete k css).
Proof.
  intros Hk. rewrite (delete_take_drop css k).
  rewrite <- (take_drop_middle css k cs Hk) at 1.
  rewrite !join_app. cbn. solve_Permutation.
Qed.

Lemma mjoin_insert_perm {A} (css : list (list A)) k cs :
  (k < length css)%nat -> mjoin (<[k := cs]> css) ≡ₚ cs ++ mjoin (delete k css).
Proof.
  intros Hk. rewrite (mjoin_lookup_perm (<[k := cs]> css) k cs).
  - assert (delete k (<[k := cs]> css) = delete k css) as ->; [|done].
    apply list_eq. intros i. destruct (decide (i < k)%nat).
    + rewrite !list_lookup_delete_lt by done. by rewrite list_lookup_insert_ne by lia.
    + rewrite !list_lookup_delete_ge by lia. by rewrite list_lookup_insert_ne by lia.
  - by apply list_lookup_insert_eq.
Qed.

(** The longest prefix satisfying [f], and the rest. *)
Fixpoint span {A} (f : A -> bool) (l : list A) : list A * list A :=
  match l with
  | [] => ([], [])
  | x :: l' => if f x then (x :: (span f l').1, (span f l').2) else ([], l)
  end.

Section span.
Context {A : Type}.
Implicit Types (f g : A -> bool) (l : list A).

Lemma span_app f l : (span f l).1 ++ (span f l).2 = l.
Proof. induction l as [|x l IH]; cbn; [done|]. destruct (f x); cbn; congruence. Qed.

Lemma span_ext f g l : (forall x, x ∈ l -> f x = g x) -> span f l = span g l.
Proof.
  induction l as [|x l IH]; cbn; [done|]. intros H. rewrite (H x) by left.
  destruct (g x); [|done]. rewrite IH; [done|]. intros y Hy. apply H. by right.
Qed.

(** When no element after one that fails [f] satisfies it, the prefix is
    the whole selection. *)
Lemma span_filter f l :
  (forall i j x y, (i < j)%nat -> l !! i = Some x -> l !! j = Some y ->
     f x = false -> f y = false) ->
  span f l = (List.filter f l, List.filter (fun x => negb (f x)) l).
Proof.
  induction l as [|x l IH]; cbn; [done|]. intros Hmono.
  destruct (f x) eqn:Hx; cbn.
  - rewrite IH; [done|]. intros i j y z Hij Hi Hj.
    apply (Hmono (S i) (S j)); [lia|done|done].
  - assert (forall y, y ∈ l -> f y = false) as Hall.
    { intros y [j Hj]%list_elem_of_lookup. by apply (Hmono 0%nat (S j) x y); [lia|..]. }
    clear IH Hmono. f_equal.
    + symmetry. induction l as [|y l IH]; cbn; [done|].
      rewrite Hall by left. apply IH. intros z Hz. apply Hall. by right.
    + f_equal. induction l as [|y l IH]; cbn; [done|].
      rewrite Hall by left. cbn. rewrite <- IH; [done|]. intros z Hz. apply Hall. by right.
Qed.
End span.

Lemma span_fmap {A B} (g : A -> B) (f : B -> bool) l :
  span f (g <$> l) = (g <$> (span (f ∘ g) l).1, g <$> (span (f ∘ g) l).2).
Proof. induction l as [|x l IH]; cbn; [done|]. rewrite IH. cbn. by destruct (f (g x)). Qed.

(** * Selecting a least element

    The scheduler policies scan the table for the first least key among the
    eligible elements; [k] is the least key so far. *)

Section select.
Context {A K : Type} (elig : A -> bool) (key : A -> K) (lt : K -> K -> bool).

Fixpoint sel_loop (l : list A) (i : nat) (k : K) (sel : option nat) : option nat :=
  match l with
  | [] => sel
  | x :: l =>
      if elig x && lt (key x) k then sel_loop l (S i) (key x) (Some i)
      else sel_loop l (S i) k sel
  end.

Hypothesis lt_irrefl : forall a, lt a a = false.
Hypothesis lt_trans : forall a b c, lt a b = true -> lt b c = true -> lt a c = true.
Hypothesis lt_le_trans : forall a b c, lt a b = true -> lt c b = false -> lt a c = true.

(** Index [j] of [l] holds the first least eligible key. *)
Definition least_at (l : list A) (j : nat) (x : A) : Prop :=
  l !! j = Some x /\ elig x = true /\
  forall j' y, l !! j' = Some y -> elig y = true ->
    lt (key y) (key x) = false /\ ((j' < j)%nat -> lt (key x) (key y) = true).

Lemma sel_loop_spec l i k sel :
  (sel_loop l i k sel = sel /\
    forall j x, l !! j = Some x -> elig x = true -> lt (key x) k = false) \/
  (exists j x, sel_loop l i k sel = Some (i + j)%nat /\
    lt (key x) k = true /\ least_at l j x).
Proof.
  revert i k sel. induction l as [|x l IH]; intros i k sel; cbn.
  { left. split; [done|]. intros j y Hj. by rewrite lookup_nil in Hj. }
  destruct (elig x) eqn:Ex; cbn; [destruct (lt (key x) k) eqn:Hk|].
  - right. destruct (IH (S i) (key x) (Some i)) as [[-> Hall]|(j & y & -> & Hy & Hj & Hey & Hmin)].
    + exists 0%nat, x. rewrite Nat.add_0_r. repeat split; try done.
      * destruct j' as [|j']; [|by eauto]. injection H as <-. apply lt_irrefl.
      * lia.
    + exists (S j), y. repeat split; [f_equal; lia|by eapply lt_trans|done|done| |].
      * destruct j' as [|j']; [|by eapply Hmin]. injection H as <-.
        destruct (lt (key x) (key y)) eqn:E; [|done].
        pose proof (lt_trans _ _ _ Hy E). by rewrite lt_irrefl in H.
      * intros Hlt. destruct j' as [|j']; [by injection H as <-|].
        eapply Hmin; [done|done|lia].
  - destruct (IH (S i) k sel) as [[-> Hall]|(j & y & -> & Hy & Hj & Hey & Hmin)].
    + left. split; [done|]. intros [|j] z Hz; [by injection Hz as <-|eauto].
    + right. exists (S j), y. repeat split; [f_equal; lia|done|done|done| |].
      * destruct j' as [|j']; [|by eapply Hmin]. injection H as <-.
        destruct (lt (key x) (key y)) eqn:E; [|done].
        by rewrite (lt_trans _ _ _ E Hy) in Hk.
      * intros Hlt. destruct j' as [|j'].
        -- injection H as <-. by eapply lt_le_trans.
        -- eapply Hmin; [done|done|lia].
  - destruct (IH (S i) k sel) as [[-> Hall]|(j & y & -> & Hy & Hj & Hey & Hmin)].
    + left. split; [done|]. intros [|j] z Hz Hez; [injection Hz as <-; congruence|eauto].
    + right. exists (S j), y. repeat split; [f_equal; lia|done|done|done| |].
      * destruct j' as [|j']; [|by eapply Hmin]. injection H as <-. congruence.
      * intros Hlt. destruct j' as [|j']; [injection H as <-; congruence|].
        eapply Hmin; [done|done|lia].
Qed.
End select.

Lemma list_alter_insert {A} (f : A -> A) i (l : list A) x :
  l !! i = Some x -> alter f i l = <[i := f x]> l.
Proof.
  revert i. induction l as [|y l IH]; intros [|i] Hi; cbn in *; try done.
  - by injection Hi as ->.
  - f_equal. by apply IH.
Qed.

(** Rewriting the elements of a list one index after the other. *)
Lemma insert_fmap_take {A} (g : A -> A) (l : list A) k x :
  l !! k = Some x ->
  <[k := g x]> ((g <$> take k l) ++ drop k l) = (g <$> take (S k) l) ++ drop (S k) l.
Proof.
  revert k. induction l as [|y l IH]; intros [|k] Hk; cbn in *; try done.
  - by injection Hk as ->.
  - f_equal. by apply IH.
Qed.
