(* ===== verification/CString.v ===== *)
(** The byte and string routines of the kernel ([string.c]).

    [Module CString] translates them as computations over a byte memory: a function from addresses
    to bytes, written with stdpp's function update.  A C string is a sequence of
    bytes up to the first zero; [cstr m a n] says that one of length [n] starts
    at [a].  The loops that stop at a zero byte take fuel, and the theorems show
    that a string shorter than the fuel is enough for them to return. *)

From stdpp Require Import functions.
From S2P Require Import Prelude.

(** Byte memory. *)
Abbreviation mem := (Z -> Z).

Module CString.

(** [rep stosb]: [cnt] bytes from [a] set to the low byte of [data]. *)
Fixpoint stosb (a data : Z) (cnt : nat) (m : mem) : mem :=
  match cnt with
  | O => m
  | S cnt => stosb (a + 1) data cnt (<[a := u8 data]> m)
  end.

(** [rep stosl]: [cnt] little-endian words from [a] set to [data]. *)
Fixpoint stosl (a data : Z) (cnt : nat) (m : mem) : mem :=
  match cnt with
  | O => m
  | S cnt =>
      stosl (a + 4) data cnt
        (<[a + 3 := u8 (Z.shiftr data 24)]>
          (<[a + 2 := u8 (Z.shiftr data 16)]>
            (<[a + 1 := u8 (Z.shiftr data 8)]> (<[a := u8 data]> m))))
  end.

Definition memset (dst c n : Z) (m : mem) : mem :=
  if (Z.rem (i32 dst) 4 =? 0) && (n mod 4 =? 0) then
    let c := Z.land c 255 in
    stosl dst
      (Z.lor (Z.lor (Z.lor (Z.shiftl c 24) (Z.shiftl c 16)) (Z.shiftl c 8)) c)
      (Z.to_nat (n / 4)) m
  else stosb dst c (Z.to_nat n) m.

Fixpoint memcmp_loop (s1 s2 : Z) (n : nat) (m : mem) : Z :=
  match n with
  | O => 0
  | S n =>
      if negb (m s1 =? m s2) then m s1 - m s2
      else memcmp_loop (s1 + 1) (s2 + 1) n m
  end.
Definition memcmp (v1 v2 n : Z) (m : mem) : Z := memcmp_loop v1 v2 (Z.to_nat n) m.

(** [while(n-- > 0) *--d = *--s;] *)
Fixpoint copy_down (d s : Z) (n : nat) (m : mem) : mem :=
  match n with
  | O => m
  | S n => copy_down (d - 1) (s - 1) n (<[d - 1 := m (s - 1)]> m)
  end.

(** [while(n-- > 0) *d++ = *s++;] *)
Fixpoint copy_up (d s : Z) (n : nat) (m : mem) : mem :=
  match n with
  | O => m
  | S n => copy_up (d + 1) (s + 1) n (<[d := m s]> m)
  end.

Definition memmove (dst src n : Z) (m : mem) : mem :=
  if (src <? dst) && (src + n >? dst) then
    copy_down (dst + n) (src + n) (Z.to_nat n) m
  else copy_up dst src (Z.to_nat n) m.

Definition memcpy (dst src n : Z) (m : mem) : mem := memmove dst src n m.

(** The loop of [strncmp] and its two exits. *)
Fixpoint strncmp_loop (p q : Z) (n : nat) (m : mem) : Z :=
  match n with
  | O => 0
  | S n' =>
      if negb (m p =? 0) && (m p =? m q) then strncmp_loop (p + 1) (q + 1) n' m
      else m p - m q
  end.
Definition strncmp (p q n : Z) (m : mem) : Z := strncmp_loop p q (Z.to_nat n) m.

(** [while(n-- > 0) *s++ = 0;] *)
Fixpoint zero_fill (s : Z) (n : nat) (m : mem) : mem :=
  match n with
  | O => m
  | S n => zero_fill (s + 1) n (<[s := 0]> m)
  end.

(** [while(n-- > 0 && ( *s++ = *t++ ) != 0);], then the fill. *)
Fixpoint strncpy_loop (s t : Z) (n : nat) (m : mem) : mem :=
  match n with
  | O => m
  | S n =>
      let b := m t in
      let m := <[s := b]> m in
      if b =? 0 then zero_fill (s + 1) n m else strncpy_loop (s + 1) (t + 1) n m
  end.
Definition strncpy (s t n : Z) (m : mem) : mem := strncpy_loop s t (Z.to_nat n) m.

(** [while(--n > 0 && ( *s++ = *t++ ) != 0);], then [*s = 0]; [n] counts the
    iterations the first test still allows. *)
Fixpoint safestrcpy_loop (s t : Z) (n : nat) (m : mem) : mem :=
  match n with
  | O => <[s := 0]> m
  | S n =>
      let b := m t in
      let m := <[s := b]> m in
      if b =? 0 then <[s + 1 := 0]> m else safestrcpy_loop (s + 1) (t + 1) n m
  end.
Definition safestrcpy (s t n : Z) (m : mem) : mem :=
  if n <=? 0 then m else safestrcpy_loop s t (Z.to_nat (n - 1)) m.

(** [for(n = 0; s[n]; n++);] *)
Fixpoint strlen_loop (fuel : nat) (s n : Z) (m : mem) : res Z :=
  match fuel with
  | O => NoFuel
  | S fuel => if m (s + n) =? 0 then Ok n else strlen_loop fuel s (i32 (n + 1)) m
  end.
Definition strlen (fuel : nat) (s : Z) (m : mem) : res Z := strlen_loop fuel s 0 m.

End CString.

(** * Functional correctness *)

Implicit Types m : mem.

(** The [n] bytes from [a]. *)
Definition bytes (m : mem) (a : Z) (n : nat) : list Z :=
  (fun i => m (a + Z.of_nat i)) <$> seq 0 n.

(** A string of length [n] starts at [a]. *)
Definition cstr (m : mem) (a : Z) (n : nat) : Prop :=
  m (a + Z.of_nat n) = 0 /\ forall i, (i < n)%nat -> m (a + Z.of_nat i) <> 0.

Lemma length_bytes m a n : length (bytes m a n) = n.
Proof. unfold bytes. by rewrite length_fmap, length_seq. Qed.

Lemma lookup_bytes m a n i :
  bytes m a n !! i = if decide (i < n)%nat then Some (m (a + Z.of_nat i)) else None.
Proof.
  unfold bytes. rewrite list_lookup_fmap. case_decide.
  - by rewrite lookup_seq_lt.
  - by rewrite lookup_seq_ge by lia.
Qed.

Lemma bytes_S m a n : bytes m a (S n) = m a :: bytes m (a + 1) n.
Proof.
  unfold bytes. cbn. rewrite Z.add_0_r. f_equal.
  rewrite <- fmap_S_seq, <- list_fmap_compose. apply list_fmap_ext.
  intros i x _. cbn. f_equal. lia.
Qed.

Ltac fn_cases :=
  repeat match goal with
  | |- context [(<[?a := ?v]> ?m) ?b] =>
      destruct (decide (a = b)); [subst; rewrite fn_lookup_insert
                                 |rewrite fn_lookup_insert_ne by done]
  end.

(** Decide the range conditions of the specifications below. *)
Ltac range := repeat (case_decide || (f_equal; lia) || lia || done).

Lemma stosb_spec a data cnt m b :
  CString.stosb a data cnt m b =
    if decide (a <= b < a + Z.of_nat cnt) then u8 data else m b.
Proof.
  revert a m. induction cnt as [|cnt IH]; intros a m; cbn.
  - by rewrite decide_False by lia.
  - rewrite IH. fn_cases; range.
Qed.

Lemma stosl_spec a data cnt m b :
  CString.stosl a data cnt m b =
    if decide (a <= b < a + 4 * Z.of_nat cnt)
    then u8 (Z.shiftr data (8 * ((b - a) mod 4))) else m b.
Proof.
  revert a m. induction cnt as [|cnt IH]; intros a m; cbn [CString.stosl].
  - by rewrite decide_False by lia.
  - rewrite IH. case_decide.
    { rewrite decide_True by lia. f_equal. f_equal. f_equal.
      replace (b - a) with (b - (a + 4) + 1 * 4) by lia. by rewrite Z_mod_plus_full. }
    fn_cases; case_decide; try lia; try done.
    all: match goal with |- context [(?x - ?y) mod 4] =>
      replace ((x - y) mod 4) with (x - y) by (rewrite Z.mod_small; lia) end.
    all: match goal with |- context [Z.shiftr _ (8 * ?x)] =>
      ring_simplify x end; done.
Qed.

Lemma memset_word c k :
  0 <= c < 256 -> 0 <= k < 4 ->
  u8 (Z.shiftr (Z.lor (Z.lor (Z.lor (Z.shiftl c 24) (Z.shiftl c 16)) (Z.shiftl c 8)) c)
        (8 * k)) = c.
Proof.
  assert (Forall (fun c => Forall (fun k =>
    u8 (Z.shiftr (Z.lor (Z.lor (Z.lor (Z.shiftl c 24) (Z.shiftl c 16)) (Z.shiftl c 8)) c)
        (8 * k)) = c) (seqZ 0 4)) (seqZ 0 256)) as H
    by (apply (bool_decide_unpack _); by vm_compute).
  intros Hc Hk. rewrite Forall_forall in H.
  specialize (H c (proj2 (elem_of_seqZ 0 256 c) Hc)). rewrite Forall_forall in H.
  by apply H, elem_of_seqZ.
Qed.

(** [memset]: the [n] bytes from [dst] become the low byte of [c], whichever
    of the two store instructions runs; no other byte changes. *)
Lemma memset_spec dst c n m b :
  0 <= n ->
  CString.memset dst c n m b = if decide (dst <= b < dst + n) then u8 c else m b.
Proof.
  intros Hn. unfold CString.memset.
  assert (Z.land c 255 = u8 c) as Hc by (unfold u8; by rewrite <- Z.land_ones by lia).
  destruct (_ && _) eqn:E.
  - zb. rewrite stosl_spec, Z2Nat.id by (apply Z.div_pos; lia).
    replace (4 * (n / 4)) with n by (pose proof (Z.div_mod n 4); lia).
    case_decide; [|done]. rewrite Hc. apply memset_word; [apply u8_range|].
    by apply Z.mod_pos_bound.
  - by rewrite stosb_spec, Z2Nat.id by lia.
Qed.

Lemma copy_up_spec d s n m b :
  d <= s \/ s + Z.of_nat n <= d ->
  CString.copy_up d s n m b =
    if decide (d <= b < d + Z.of_nat n) then m (s + (b - d)) else m b.
Proof.
  revert d s m. induction n as [|n IH]; intros d s m Hov; cbn [CString.copy_up].
  - by rewrite decide_False by lia.
  - rewrite IH by lia. case_decide.
    + rewrite decide_True by lia. rewrite fn_lookup_insert_ne by lia. f_equal. lia.
    + fn_cases; case_decide; try lia. f_equal. lia.
Qed.

Lemma copy_down_spec d s n m b :
  s <= d ->
  CString.copy_down d s n m b =
    if decide (d - Z.of_nat n <= b < d) then m (s + (b - d)) else m b.
Proof.
  revert d s m. induction n as [|n IH]; intros d s m Hov; cbn [CString.copy_down].
  - by rewrite decide_False by lia.
  - rewrite IH by lia. case_decide.
    + rewrite decide_True by lia. rewrite fn_lookup_insert_ne by lia. f_equal. lia.
    + fn_cases; case_decide; try lia. f_equal. lia.
Qed.

Lemma memmove_spec dst src n m b :
  0 <= n ->
  CString.memmove dst src n m b =
    if decide (dst <= b < dst + n) then m (src + (b - dst)) else m b.
Proof.
  intros Hn. unfold CString.memmove. destruct (_ && _) eqn:E.
  - zb. rewrite copy_down_spec, Z2Nat.id by lia. case_decide; case_decide; try lia.
    f_equal. lia.
  - apply andb_false_iff in E. rewrite copy_up_spec, Z2Nat.id; [done|lia|].
    destruct E; zb; lia.
Qed.

(** ** String routines on byte lists

    The other components hold names and buffers as byte lists.  These are the
    list readings of the routines they call; the lemmas below show that the
    routines compute them. *)

(** The string at the start of a byte list: the bytes before the first zero. *)
Definition cprefix (l : list Z) : list Z := (span (fun b => negb (b =? 0)) l).1.

Fixpoint lstrncmp (n : nat) (p q : list Z) : Z :=
  match n with
  | O => 0
  | S n =>
      let a := hd 0 p in
      let b := hd 0 q in
      if negb (a =? 0) && (a =? b) then lstrncmp n (tl p) (tl q) else a - b
  end.

Fixpoint lstrncpy (n : nat) (t : list Z) : list Z :=
  match n with
  | O => []
  | S n =>
      let b := hd 0 t in
      if b =? 0 then b :: replicate n 0 else b :: lstrncpy n (tl t)
  end.

Fixpoint lsafestrcpy (n : nat) (t old : list Z) : list Z :=
  match n with
  | O => 0 :: drop 1 old
  | S n =>
      let b := hd 0 t in
      if b =? 0 then b :: 0 :: drop 2 old else b :: lsafestrcpy n (tl t) (tl old)
  end.

Lemma strncmp_bytes p q n m :
  CString.strncmp_loop p q n m = lstrncmp n (bytes m p n) (bytes m q n).
Proof.
  revert p q. induction n as [|n IH]; intros p q; [done|].
  rewrite !bytes_S. cbn. case_match; [apply IH|done].
Qed.

(** [strncmp] answers 0 exactly on equal strings. *)
Lemma lstrncmp_0 n p q :
  length p = n -> length q = n ->
  lstrncmp n p q = 0 <-> cprefix p = cprefix q.
Proof.
  revert p q. induction n as [|n IH]; intros [|a p] [|b q] Hp Hq; try done.
  cbn in *. injection Hp as Hp. injection Hq as Hq. unfold cprefix in *. cbn.
  destruct (Z.eqb_spec a 0) as [->|Ha]; cbn.
  - destruct (Z.eqb_spec b 0) as [->|Hb]; cbn; [done|]. split; [lia|done].
  - destruct (Z.eqb_spec a b) as [->|Hab].
    + rewrite IH by done. destruct (Z.eqb_spec b 0) as [|_]; [lia|]. cbn.
      split; [congruence|]. by intros [= ?].
    + destruct (Z.eqb_spec b 0) as [->|Hb]; cbn; (split; [lia|]); [done|]. by intros [= ?].
Qed.

Lemma bytes_insert_out m a v s n :
  a < s \/ s + Z.of_nat n <= a -> bytes (<[a := v]> m) s n = bytes m s n.
Proof.
  intros H. apply list_eq. intros i. rewrite !lookup_bytes. case_decide; [|done].
  by rewrite fn_lookup_insert_ne by lia.
Qed.

Lemma bytes_ext m m' s n :
  (forall i, s <= i < s + Z.of_nat n -> m' i = m i) -> bytes m' s n = bytes m s n.
Proof.
  intros H. apply list_eq. intros i. rewrite !lookup_bytes. case_decide; [|done].
  by rewrite H by lia.
Qed.

Lemma zero_fill_spec s n m b :
  CString.zero_fill s n m b = if decide (s <= b < s + Z.of_nat n) then 0 else m b.
Proof.
  revert s m. induction n as [|n IH]; intros s m; cbn [CString.zero_fill].
  - by rewrite decide_False by lia.
  - rewrite IH. fn_cases; range.
Qed.

Lemma bytes_zero_fill s n m : bytes (CString.zero_fill s n m) s n = replicate n 0.
Proof.
  apply list_eq. intros i. rewrite lookup_bytes. case_decide.
  - rewrite zero_fill_spec, decide_True by lia. by rewrite lookup_replicate_2.
  - symmetry. apply lookup_ge_None. rewrite length_replicate. lia.
Qed.

Definition disjoint (a b : Z) (n : nat) : Prop :=
  a + Z.of_nat n <= b \/ b + Z.of_nat n <= a.

(** The bytes before the destination of [strncpy] stay. *)
Lemma strncpy_loop_out s t n m b :
  b < s \/ s + Z.of_nat n <= b -> CString.strncpy_loop s t n m b = m b.
Proof.
  revert s t m. induction n as [|n IH]; intros s t m Hb; cbn [CString.strncpy_loop]; [done|].
  case_match.
  - rewrite zero_fill_spec, decide_False by lia. by rewrite fn_lookup_insert_ne by lia.
  - rewrite IH by lia. by rewrite fn_lookup_insert_ne by lia.
Qed.

Lemma strncpy_bytes s t n m :
  disjoint s t n ->
  bytes (CString.strncpy_loop s t n m) s n = lstrncpy n (bytes m t n).
Proof.
  unfold disjoint. revert s t m. induction n as [|n IH]; intros s t m Hd; [done|].
  rewrite !bytes_S. cbn [CString.strncpy_loop lstrncpy hd tl]. case_match.
  - rewrite bytes_zero_fill, zero_fill_spec, decide_False by lia.
    by rewrite fn_lookup_insert.
  - rewrite strncpy_loop_out, fn_lookup_insert by lia. f_equal.
    rewrite IH by lia. by rewrite bytes_insert_out by lia.
Qed.

Lemma safestrcpy_loop_out s t n m b :
  b < s \/ s + Z.of_nat n < b -> CString.safestrcpy_loop s t n m b = m b.
Proof.
  revert s t m. induction n as [|n IH]; intros s t m Hb; cbn [CString.safestrcpy_loop].
  - by rewrite fn_lookup_insert_ne by lia.
  - case_match.
    + by rewrite !fn_lookup_insert_ne by lia.
    + rewrite IH by lia. by rewrite fn_lookup_insert_ne by lia.
Qed.

Lemma safestrcpy_bytes s t n m :
  disjoint s t (S n) ->
  bytes (CString.safestrcpy_loop s t n m) s (S n) =
    lsafestrcpy n (bytes m t n) (bytes m s (S n)).
Proof.
  unfold disjoint. revert s t m. induction n as [|n IH]; intros s t m Hd.
  - cbn. rewrite Z.add_0_r. by rewrite fn_lookup_insert.
  - rewrite (bytes_S _ t), (bytes_S _ s), (bytes_S m s). cbn [CString.safestrcpy_loop lsafestrcpy hd tl].
    case_match.
    + rewrite fn_lookup_insert_ne, fn_lookup_insert by lia. f_equal. cbn [drop].
      rewrite !(bytes_S _ (s + 1)), fn_lookup_insert. cbn [drop]. f_equal.
      by rewrite !bytes_insert_out by lia.
    + rewrite safestrcpy_loop_out, fn_lookup_insert by lia. f_equal.
      rewrite IH by lia. by rewrite !bytes_insert_out by lia.
Qed.

Lemma length_lsafestrcpy n t old :
  length old = S n -> length (lsafestrcpy n t old) = S n.
Proof.
  revert t old. induction n as [|n IH]; intros t old Hold; cbn.
  - rewrite length_drop. lia.
  - case_match; cbn.
    + rewrite length_drop. lia.
    + rewrite IH; [done|]. destruct old; cbn in *; lia.
Qed.

Lemma length_lstrncpy n t : length (lstrncpy n t) = n.
Proof.
  revert t. induction n as [|n IH]; intros t; cbn; [done|].
  case_match; cbn; [by rewrite length_replicate|by rewrite IH].
Qed.

(** [safestrcpy] leaves a terminated copy, cut to the buffer. *)
Lemma cprefix_lsafestrcpy n t old :
  (length old = S n)%nat -> (length t = n)%nat ->
  cprefix (lsafestrcpy n t old) = cprefix t /\
  (length (cprefix (lsafestrcpy n t old)) <= n)%nat.
Proof.
  revert t old. induction n as [|n IH]; intros [|b t] old Hold Ht; try done.
  cbn in *. destruct old as [|o old]; [done|]. destruct (b =? 0) eqn:Eb; unfold cprefix in *; cbn.
  - rewrite Eb. cbn. split; [done|lia].
  - rewrite Eb. cbn. destruct (IH t old) as [-> ?]; [cbn in *; lia..|]. split; [done|lia].
Qed.

Lemma cprefix_lstrncpy n t : (length t = n)%nat -> cprefix (lstrncpy n t) = cprefix t.
Proof.
  revert t. induction n as [|n IH]; intros [|b t] Ht; try done. cbn in *.
  destruct (b =? 0) eqn:Eb; unfold cprefix in *; cbn; rewrite Eb; cbn; [done|].
  f_equal. apply IH. lia.
Qed.

(** ** Unbounded scans *)

Lemma strlen_spec fuel s n m :
  cstr m s n -> (n < fuel)%nat -> Z.of_nat n < 2 ^ 31 -> CString.strlen fuel s m = Ok (Z.of_nat n).
Proof.
  intros [H0 Hnz] Hf Hb. unfold CString.strlen.
  assert (forall k fuel, (k <= n)%nat -> (n - k < fuel)%nat ->
    CString.strlen_loop fuel s (Z.of_nat k) m = Ok (Z.of_nat n)) as H.
  { intros k. remember (n - k)%nat as d eqn:Hd. revert k Hd.
    induction d as [|d IH]; intros k Hd [|fuel'] Hk Hlt; try lia; cbn.
    - replace k with n by lia. by rewrite H0.
    - destruct (Z.eqb_spec (m (s + Z.of_nat k)) 0) as [E|E]; [by apply Hnz in E; lia|].
      rewrite i32_small by lia. replace (Z.of_nat k + 1) with (Z.of_nat (S k)) by lia.
      apply IH; lia. }
  apply (H 0%nat); lia.
Qed.

#[global] Arguments lsafestrcpy : simpl never.
#[global] Arguments lstrncpy : simpl never.
#[global] Arguments lstrncmp : simpl never.
