(* ===== verification/ULib.v ===== *)
(** The user library's string routines ([ulib.c]), over the byte memory of [CString.v];
    [gets] and [stat], which make system calls, are in [USys.v]. *)

From stdpp Require Import functions.
From S2P Require Import Prelude CString.

Module ULib.

Fixpoint strcpy (fuel : nat) (s t : Z) (m : mem) : res mem :=
  match fuel with
  | O => NoFuel
  | S fuel =>
      let b := m t in
      let m := <[s := b]> m in
      if b =? 0 then Ok m else strcpy fuel (s + 1) (t + 1) m
  end.

Fixpoint strcmp (fuel : nat) (p q : Z) (m : mem) : res Z :=
  match fuel with
  | O => NoFuel
  | S fuel =>
      if negb (m p =? 0) && (m p =? m q) then strcmp fuel (p + 1) (q + 1) m
      else Ok (m p - m q)
  end.

Fixpoint strlen_loop (fuel : nat) (s n : Z) (m : mem) : res Z :=
  match fuel with
  | O => NoFuel
  | S fuel => if m (s + n) =? 0 then Ok n else strlen_loop fuel s (n + 1) m
  end.
Definition strlen (fuel : nat) (s : Z) (m : mem) : res Z := strlen_loop fuel s 0 m.

Definition memset (dst c n : Z) (m : mem) : mem := CString.stosb dst c (Z.to_nat n) m.

(** [None] is the null pointer. *)
Fixpoint strchr (fuel : nat) (s c : Z) (m : mem) : res (option Z) :=
  match fuel with
  | O => NoFuel
  | S fuel =>
      if m s =? 0 then Ok None
      else if m s =? c then Ok (Some s)
      else strchr fuel (s + 1) c m
  end.

(** The digits are bytes ['0'] to ['9'] (48 to 57). *)
Fixpoint atoi_loop (fuel : nat) (s n : Z) (m : mem) : res Z :=
  match fuel with
  | O => NoFuel
  | S fuel =>
      if (48 <=? m s) && (m s <=? 57) then
        atoi_loop fuel (s + 1) (i32 (n * 10 + m s - 48)) m
      else Ok n
  end.
Definition atoi (fuel : nat) (s : Z) (m : mem) : res Z := atoi_loop fuel s 0 m.

Definition memmove (vdst vsrc n : Z) (m : mem) : mem :=
  CString.copy_up vdst vsrc (Z.to_nat n) m.

End ULib.

(** * What they compute *)

Section ulib.
Import ULib.

(** Two strings compare by their first difference, 0 exactly when they are
    equal. *)
Lemma strcmp_spec fuel p q n m :
  cstr m p n -> (n < fuel)%nat ->
  exists k, (k <= n)%nat /\ bytes m p k = bytes m q k /\
    strcmp fuel p q m = Ok (m (p + Z.of_nat k) - m (q + Z.of_nat k)) /\
    (m (p + Z.of_nat k) = m (q + Z.of_nat k) -> k = n /\ m (q + Z.of_nat k) = 0).
Proof.
  revert p q n. induction fuel as [|fuel IH]; intros p q n [H0 Hb] Hf; [lia|]. cbn.
  destruct n as [|n].
  - rewrite Z.add_0_r in H0. rewrite H0. cbn. exists O. rewrite !Z.add_0_r, H0.
    split; [lia|]. split; [done|]. split; [done|]. intros <-. done.
  - assert (m p <> 0) as Hp.
    { specialize (Hb O ltac:(lia)). by rewrite Z.add_0_r in Hb. }
    destruct (Z.eqb_spec (m p) 0); [done|]. cbn. destruct (Z.eqb_spec (m p) (m q)) as [Heq|Hne].
    + destruct (IH (p + 1) (q + 1) n) as (k & Hk & Hbk & Hr & He).
      { split; [by rewrite <- H0; f_equal; lia|]. intros i Hi. specialize (Hb (S i) ltac:(lia)).
        by replace (p + 1 + Z.of_nat i) with (p + Z.of_nat (S i)) by lia. }
      { lia. }
      exists (S k). split; [lia|]. rewrite !bytes_S. split; [by f_equal|].
      replace (p + Z.of_nat (S k)) with (p + 1 + Z.of_nat k) by lia.
      replace (q + Z.of_nat (S k)) with (q + 1 + Z.of_nat k) by lia. split; [done|].
      intros ?. destruct He as [-> ?]; done.
    + exists O. rewrite !Z.add_0_r. split; [lia|]. split; [done|]. split; [done|]. lia.
Qed.
End ulib.
