(* ===== verification/USys.v ===== *)
(** User programs and the system calls they make ([user.h], the rest of [ulib.c]).

    A user program is a tree: it returns, exits, reads or writes outside an object, or
    makes a system call and goes on with the answer.  A loop that ends only with its
    input takes fuel; [Spent] is the fuel of such a loop running out.  [run] answers the calls by a function [h] of the
    state of the world, which is all a program knows of the kernel; the class [Streams]
    states what the programs that copy or filter bytes rely on. *)

From Stdlib Require Import Ascii.
From S2P Require Import Prelude.

(** ** Programs *)

(** The calls of [user.h].  A string or a buffer is the list of its bytes. *)
Inductive call :=
| SysFork | SysWait | SysWaitx | SysPipe | SysGetpid | SysUptime
| SysWrite (fd : Z) (buf : list Z) | SysRead (fd n : Z) | SysClose (fd : Z) | SysDup (fd : Z)
| SysKill (pid : Z) | SysSbrk (n : Z) | SysSleep (n : Z) | SysSet_priority (n : Z)
| SysExec (path : list Z) (argv : list (list Z)) | SysOpen (path : list Z) (mode : Z)
| SysMknod (path : list Z) (major minor : Z) | SysUnlink (path : list Z) | SysFstat (fd : Z)
| SysLink (old new : list Z) | SysMkdir (path : list Z) | SysChdir (path : list Z)
| SysGetpinfo (pid : Z).

(** The answer is the value in [%eax] and what the kernel stored through the pointers:
    the bytes of [read], the two descriptors of [pipe], the fields of [struct stat] or
    [struct proc_stat] in order, the two times of [waitx]. *)
Inductive prog (A : Type) : Type :=
| Ret (a : A)
| Exit
| Crash
| Spent
| Sys (c : call) (k : Z -> list Z -> prog A).
Arguments Ret {A} a.
Arguments Exit {A}.
Arguments Crash {A}.
Arguments Spent {A}.
Arguments Sys {A} c k.

Fixpoint pbind {A B} (p : prog A) (f : A -> prog B) : prog B :=
  match p with
  | Ret a => f a
  | Exit => Exit
  | Crash => Crash
  | Spent => Spent
  | Sys c k => Sys c (fun r d => pbind (k r d) f)
  end.

Declare Scope user_scope.
Delimit Scope user_scope with user.
Notation "'let*' x := m 'in' k" := (pbind m (fun x => k))
  (at level 10, x pattern, m at level 200, k at level 200,
   format "'[v' 'let*'  x  :=  m  'in' '/' k ']'") : user_scope.
Notation "'do*' m ; k" := (pbind m (fun _ => k))
  (at level 10, m at level 200, k at level 200,
   format "'[v' 'do*'  m ; '/' k ']'") : user_scope.
#[global] Open Scope user_scope.

(** A call of which the program uses the value only. *)
Definition sys (c : call) : prog Z := Sys c (fun r _ => Ret r).

Definition deref_u {A} (o : option A) : prog A :=
  match o with Some a => Ret a | None => Crash end.

(** ** Strings *)

(** The bytes of a string constant. *)
Fixpoint lit (s : string) : list Z :=
  match s with
  | EmptyString => []
  | String c s => Z.of_N (N_of_ascii c) :: lit s
  end.

(** The C string that starts at the beginning of [l]. *)
Fixpoint cstring (l : list Z) : list Z :=
  match l with
  | [] => []
  | c :: l => if c =? 0 then [] else c :: cstring l
  end.

Lemma cstring_zero u v : 0 ∉ u -> cstring (u ++ 0 :: v) = u.
Proof.
  induction u as [|c u IH]; intros H0; [done|]. apply not_elem_of_cons in H0 as [Hz H0]. cbn.
  destruct (Z.eqb_spec c 0); [done|]. by rewrite IH.
Qed.

Definition NL : Z := 10.

(** ** The rest of the user library *)

Module ULibSys.

Definition O_RDONLY : Z := 0x000.
Definition O_WRONLY : Z := 0x001.
Definition O_RDWR : Z := 0x002.
Definition O_CREATE : Z := 0x200.

(** A store into an array. *)
Definition put (i : nat) (c : Z) (buf : list Z) : prog (list Z) :=
  if (i <? length buf)%nat then Ret (<[i := c]> buf) else Crash.

(** The loop of [gets]; [n] is the number of iterations the test still allows. *)
Fixpoint gets_loop (n i : nat) (buf : list Z) : prog (nat * list Z) :=
  match n with
  | O => Ret (i, buf)
  | S n =>
      Sys (SysRead 0 1) (fun cc d =>
        if cc <? 1 then Ret (i, buf) else
        let* c := deref_u (d !! 0%nat) in
        let* buf := put i c buf in
        if (c =? 10) || (c =? 13) then Ret (S i, buf) else gets_loop n (S i) buf)
  end.
Definition gets (buf : list Z) (max : Z) : prog (list Z) :=
  let* (i, buf) := gets_loop (Z.to_nat (max - 1)) 0 buf in
  put i 0 buf.

(** [struct stat], with its value. *)
Definition stat (n : list Z) : prog (Z * list Z) :=
  let* fd := sys (SysOpen n O_RDONLY) in
  if fd <? 0 then Ret (-1, []) else
  Sys (SysFstat fd) (fun r st =>
    do* sys (SysClose fd);
    Ret (r, st)).

End ULibSys.

(** ** Running a program *)

Inductive outcome (A : Type) : Type :=
| Returned (a : A) | Exited | Crashed | Cut.
Arguments Returned {A} a.
Arguments Exited {A}.
Arguments Crashed {A}.
Arguments Cut {A}.

Definition handler (W : Type) : Type := call -> W -> (Z * list Z) * W.

Fixpoint run {W A} (h : handler W) (p : prog A) (w : W) : outcome A * W :=
  match p with
  | Ret a => (Returned a, w)
  | Exit => (Exited, w)
  | Crash => (Crashed, w)
  | Spent => (Cut, w)
  | Sys c k => let '((r, d), w) := h c w in run h (k r d) w
  end.

Lemma run_bind {W A B} (h : handler W) (p : prog A) (f : A -> prog B) w :
  run h (pbind p f) w =
  match run h p w with
  | (Returned a, w') => run h (f a) w'
  | (Exited, w') => (Exited, w')
  | (Crashed, w') => (Crashed, w')
  | (Cut, w') => (Cut, w')
  end.
Proof.
  revert w. induction p as [| | | |c k IH]; intros w; cbn; try done.
  destruct (h c w) as [[r d] w']. apply IH.
Qed.

Lemma run_sys {W A} (h : handler W) c (k : Z -> list Z -> prog A) w r d w' :
  h c w = ((r, d), w') -> run h (Sys c k) w = run h (k r d) w'.
Proof. intros E. cbn. by rewrite E. Qed.

(** ** What the filters rely on

    [unread fd w] is what is left to read on a descriptor that is [readable], [written fd w]
    what went out on one that is [writable].  A [read] takes a piece off the front, of any
    size the kernel likes; it is empty only at the end.  On a [regular] file the piece is as
    long as what was asked for, or all that is left.  A [write] takes all. *)
Class Streams {W : Type} (h : handler W) := {
  unread : Z -> W -> list Z;
  written : Z -> W -> list Z;
  readable : Z -> W -> Prop;
  writable : Z -> W -> Prop;
  regular : Z -> W -> Prop;
  read_law fd n w : readable fd w -> 0 < n ->
    exists bs w', h (SysRead fd n) w = ((Z.of_nat (length bs), bs), w') /\
      unread fd w = bs ++ unread fd w' /\ Z.of_nat (length bs) <= n /\
      (bs = [] -> unread fd w = []) /\
      (regular fd w -> Z.of_nat (length bs) = Z.min n (Z.of_nat (length (unread fd w)))) /\
      (forall f, written f w' = written f w) /\
      (forall f, (readable f w -> readable f w') /\ (writable f w -> writable f w') /\
        (regular f w -> regular f w'));
  write_law fd bs w : writable fd w ->
    exists w', h (SysWrite fd bs) w = ((Z.of_nat (length bs), []), w') /\
      written fd w' = written fd w ++ bs /\
      (forall f, f <> fd -> written f w' = written f w) /\
      (forall f, unread f w' = unread f w) /\
      (forall f, (readable f w -> readable f w') /\ (writable f w -> writable f w') /\
        (regular f w -> regular f w'))
}.

(** *** Output only *)

Section emits.
Context {W : Type} {h : handler W} `{!Streams h}.
Implicit Types w : W.

(** From [w] to [w'] the bytes [text] were written to [fd], and nothing else happened. *)
Record wrote (fd : Z) (text : list Z) (w w' : W) : Prop := {
  wr_out : written fd w' = written fd w ++ text;
  wr_other f : f <> fd -> written f w' = written f w;
  wr_in f : unread f w' = unread f w;
  wr_keep f : (readable f w -> readable f w') /\ (writable f w -> writable f w') /\
    (regular f w -> regular f w')
}.

Definition emits {A} (p : prog A) (a : A) (fd : Z) (text : list Z) : Prop :=
  forall w, writable fd w -> exists w', run h p w = (Returned a, w') /\ wrote fd text w w'.

Lemma emits_ret {A} (a : A) fd : emits (Ret a) a fd [].
Proof. intros w _. exists w. split; [done|]. split; [by rewrite app_nil_r|done..]. Qed.

Lemma emitted_trans fd t1 t2 w1 w2 w3 :
  wrote fd t1 w1 w2 -> wrote fd t2 w2 w3 -> wrote fd (t1 ++ t2) w1 w3.
Proof.
  intros [A1 A2 A3 A4] [B1 B2 B3 B4]. split.
  - by rewrite B1, A1, app_assoc.
  - intros f Hf. by rewrite B2, A2.
  - intros f. by rewrite B3, A3.
  - intros f. destruct (A4 f) as (? & ? & ?), (B4 f) as (? & ? & ?). auto.
Qed.

Lemma emits_bind {A B} (p : prog A) a (f : A -> prog B) b fd t1 t2 :
  emits p a fd t1 -> emits (f a) b fd t2 -> emits (pbind p f) b fd (t1 ++ t2).
Proof.
  intros Hp Hf w Hw. destruct (Hp w Hw) as (w1 & E1 & H1).
  destruct (Hf w1) as (w2 & E2 & H2); [by apply (wr_keep _ _ _ _ H1)|].
  exists w2. rewrite run_bind, E1. split; [done|]. by eapply emitted_trans.
Qed.

Lemma emits_write fd bs : emits (sys (SysWrite fd bs)) (Z.of_nat (length bs)) fd bs.
Proof.
  intros w Hw. destruct (write_law fd bs w Hw) as (w' & E & H1 & H2 & H3 & H4).
  exists w'. unfold sys. rewrite (run_sys _ _ _ _ _ _ _ E). split; [done|]. by split.
Qed.
End emits.

(** ** A world of byte streams

    Reads return at most [piece] bytes at a time. *)
Record world := mkworld { w_in : Z -> list Z; w_out : Z -> list Z }.

Definition streams (piece : Z) : handler world := fun c w =>
  match c with
  | SysRead fd n =>
      let k := Z.to_nat (Z.min n piece) in
      let bs := take k (w_in w fd) in
      ((Z.of_nat (length bs), bs),
       mkworld (fun f => if f =? fd then drop k (w_in w fd) else w_in w f) (w_out w))
  | SysWrite fd bs =>
      ((Z.of_nat (length bs), []),
       mkworld (w_in w) (fun f => if f =? fd then w_out w fd ++ bs else w_out w f))
  | SysClose _ => ((0, []), w)
  | _ => ((-1, []), w)
  end.

#[export, refine] Instance streams_Streams (piece : positive) : Streams (streams (Zpos piece)) := {
  unread fd w := w_in w fd;
  written fd w := w_out w fd;
  readable _ _ := True;
  writable _ _ := True;
  regular fd w := Z.of_nat (length (w_in w fd)) <= Zpos piece
}.
Proof.
  - intros fd n [i o] _ Hn. eexists _, _. split; [reflexivity|]. cbn [w_in w_out].
    rewrite Z.eqb_refl, take_drop, length_take. split; [done|]. split; [lia|]. split.
    { intros E. apply (f_equal length) in E. rewrite length_take in E. cbn in E.
      destruct (i fd); [done|]. cbn in E. lia. }
    split; [lia|]. split; [done|]. intros f. split; [done|]. split; [done|].
    destruct (Z.eqb_spec f fd) as [->|]; [|done]. rewrite length_drop. lia.
  - intros fd bs [i o] _. eexists. split; [reflexivity|]. cbn. rewrite Z.eqb_refl.
    split; [done|]. split; [|done]. intros f Hf. by destruct (Z.eqb_spec f fd).
Defined.
