(* ===== verification/Mem.v ===== *)
(** Little-endian 32-bit accesses to byte memory, and the address arithmetic of
    [mmu.h] and [memlayout.h]. *)

From stdpp Require Import functions.
From S2P Require Import Prelude CString.

(** ** Words *)

Definition load32 (m : mem) (a : Z) : Z :=
  m a + 2 ^ 8 * m (a + 1) + 2 ^ 16 * m (a + 2) + 2 ^ 24 * m (a + 3).
Definition store32 (a v : Z) (m : mem) : mem :=
  <[a + 3 := u8 (Z.shiftr v 24)]>
    (<[a + 2 := u8 (Z.shiftr v 16)]>
      (<[a + 1 := u8 (Z.shiftr v 8)]> (<[a := u8 v]> m))).

(** Every byte is one. *)
Definition bytes_ok (m : mem) : Prop := forall a, 0 <= m a < 256.

Lemma word_bytes v :
  u8 v + 2 ^ 8 * u8 (Z.shiftr v 8) + 2 ^ 16 * u8 (Z.shiftr v 16) + 2 ^ 24 * u8 (Z.shiftr v 24) = u32 v.
Proof.
  unfold u8, u32. rewrite !Z.shiftr_div_pow2 by lia.
  assert (v / 2 ^ 16 = v / 2 ^ 8 / 2 ^ 8) as -> by (by rewrite Z.div_div by lia).
  assert (v / 2 ^ 24 = v / 2 ^ 8 / 2 ^ 8 / 2 ^ 8) as -> by (by rewrite !Z.div_div by lia).
  rewrite (Z.mod_eq v (2 ^ 32)) by lia.
  assert (v / 2 ^ 32 = v / 2 ^ 8 / 2 ^ 8 / 2 ^ 8 / 2 ^ 8) as -> by (by rewrite !Z.div_div by lia).
  rewrite !(Z.mod_eq _ (2 ^ 8)) by lia. lia.
Qed.

Lemma load32_store32 a v m : load32 (store32 a v m) a = u32 v.
Proof.
  unfold load32, store32. repeat first [rewrite fn_lookup_insert | rewrite fn_lookup_insert_ne by lia].
  apply word_bytes.
Qed.

Lemma store32_other a v m b : ~ (a <= b < a + 4) -> store32 a v m b = m b.
Proof. intros Hb. unfold store32. by rewrite !fn_lookup_insert_ne by lia. Qed.

Lemma load32_other a v m b : b + 4 <= a \/ a + 4 <= b -> load32 (store32 a v m) b = load32 m b.
Proof. intros Hb. unfold load32. by rewrite !store32_other by lia. Qed.

Lemma load32_ext m m' a : (forall i, 0 <= i < 4 -> m (a + i) = m' (a + i)) -> load32 m a = load32 m' a.
Proof.
  intros H. unfold load32. pose proof (H 0 ltac:(lia)) as H0. rewrite !Z.add_0_r in H0.
  by rewrite H0, !H by lia.
Qed.

Lemma bytes_ok_store32 a v m : bytes_ok m -> bytes_ok (store32 a v m).
Proof.
  intros Hm b. unfold store32.
  repeat (match goal with |- context [<[?x := ?y]> ?f b] =>
    destruct (decide (x = b)) as [<-|]; [rewrite fn_lookup_insert|rewrite fn_lookup_insert_ne by done] end;
    [apply u8_range|]). apply Hm.
Qed.

Lemma load32_range m a : bytes_ok m -> 0 <= load32 m a < 2 ^ 32.
Proof.
  intros Hm. unfold load32. pose proof (Hm a). pose proof (Hm (a + 1)). pose proof (Hm (a + 2)).
  pose proof (Hm (a + 3)). lia.
Qed.

(** ** Addresses *)

Definition PGSIZE : Z := 4096.
Definition KERNBASE : Z := 0x80000000.
Definition PGROUNDUP (sz : Z) : Z := Z.land (u32 (sz + PGSIZE - 1)) (Z.lnot (PGSIZE - 1)).
Definition PGROUNDDOWN (a : Z) : Z := Z.land a (Z.lnot (PGSIZE - 1)).
Definition V2P (a : Z) : Z := u32 (a - KERNBASE).
Definition P2V (a : Z) : Z := u32 (a + KERNBASE).

Lemma land_lnot_pow2 a k : 0 <= k -> Z.land a (Z.lnot (2 ^ k - 1)) = a - a mod 2 ^ k.
Proof.
  intros Hk. rewrite <- Z.ldiff_land. replace (2 ^ k - 1) with (Z.ones k) by (rewrite Z.ones_equiv; lia).
  rewrite Z.ldiff_ones_r by done. rewrite Z.shiftl_mul_pow2, Z.shiftr_div_pow2 by done.
  pose proof (Z.div_mod a (2 ^ k)). pose proof (Z.pow_pos_nonneg 2 k). lia.
Qed.

Lemma PGROUNDDOWN_eq a : PGROUNDDOWN a = a - a mod PGSIZE.
Proof. unfold PGROUNDDOWN. change (PGSIZE - 1) with (2 ^ 12 - 1). by rewrite land_lnot_pow2. Qed.

Lemma PGROUNDUP_eq sz :
  0 <= sz <= 2 ^ 32 - PGSIZE -> PGROUNDUP sz = (sz + PGSIZE - 1) - (sz + PGSIZE - 1) mod PGSIZE.
Proof.
  intros Hsz. unfold PGROUNDUP. rewrite u32_small by (unfold PGSIZE in *; lia).
  change (PGSIZE - 1) with (2 ^ 12 - 1). by rewrite land_lnot_pow2.
Qed.

(** ** Little-endian fields of a buffer

    The buffer is a list of bytes; [get16], [get32] read the field at a byte offset
    and [put16], [put32] store it, [splice] is [memmove] into a buffer. *)

Definition byte_at (l : list Z) (o : nat) : Z := default 0 (l !! o).
Definition get16 (l : list Z) (o : nat) : Z := byte_at l o + 2 ^ 8 * byte_at l (o + 1).
Definition get32 (l : list Z) (o : nat) : Z :=
  byte_at l o + 2 ^ 8 * byte_at l (o + 1) + 2 ^ 16 * byte_at l (o + 2) + 2 ^ 24 * byte_at l (o + 3).
Definition put16 (o : nat) (v : Z) (l : list Z) : list Z :=
  <[(o + 1)%nat := u8 (Z.shiftr v 8)]> (<[o := u8 v]> l).
Definition put32 (o : nat) (v : Z) (l : list Z) : list Z :=
  <[(o + 3)%nat := u8 (Z.shiftr v 24)]> (<[(o + 2)%nat := u8 (Z.shiftr v 16)]>
    (<[(o + 1)%nat := u8 (Z.shiftr v 8)]> (<[o := u8 v]> l))).
Definition slice (o n : nat) (l : list Z) : list Z := take n (drop o l).
Definition splice (o : nat) (src l : list Z) : list Z := take o l ++ src ++ drop (o + length src) l.

Lemma length_put16 o v l : length (put16 o v l) = length l.
Proof. unfold put16. by rewrite !length_insert. Qed.
Lemma length_put32 o v l : length (put32 o v l) = length l.
Proof. unfold put32. by rewrite !length_insert. Qed.
Lemma length_splice o src l : (o + length src <= length l)%nat -> length (splice o src l) = length l.
Proof. intros H. unfold splice. rewrite !length_app, length_take, length_drop. lia. Qed.
Lemma length_slice o n l : (o + n <= length l)%nat -> length (slice o n l) = n.
Proof. intros H. unfold slice. rewrite length_take, length_drop. lia. Qed.

Lemma byte_at_insert (l : list Z) i v o :
  (i < length l)%nat -> byte_at (<[i := v]> l) o = if decide (i = o) then v else byte_at l o.
Proof.
  intros Hi. unfold byte_at. case_decide as H; [subst; by rewrite list_lookup_insert_eq|].
  by rewrite list_lookup_insert_ne.
Qed.

Lemma get32_put32 o v l : (o + 4 <= length l)%nat -> get32 (put32 o v l) o = u32 v.
Proof.
  intros Ho. unfold get32, put32. rewrite !byte_at_insert by (rewrite ?length_insert; lia).
  repeat case_decide; try lia. apply word_bytes.
Qed.
Lemma get32_put32_ne o v l o' :
  (o + 4 <= length l)%nat -> (o + 4 <= o' \/ o' + 4 <= o)%nat -> get32 (put32 o v l) o' = get32 l o'.
Proof.
  intros Ho Hne. unfold get32, put32. rewrite !byte_at_insert by (rewrite ?length_insert; lia).
  repeat case_decide; try lia.
Qed.
Lemma half_bytes v : u8 v + 2 ^ 8 * u8 (Z.shiftr v 8) = u16 v.
Proof.
  unfold u8, u16. rewrite Z.shiftr_div_pow2 by lia. rewrite (Z.mod_eq v (2 ^ 16)) by lia.
  assert (v / 2 ^ 16 = v / 2 ^ 8 / 2 ^ 8) as -> by (by rewrite Z.div_div by lia).
  rewrite !(Z.mod_eq _ (2 ^ 8)) by lia. lia.
Qed.
Lemma get16_put16 o v l : (o + 2 <= length l)%nat -> get16 (put16 o v l) o = u16 v.
Proof.
  intros Ho. unfold get16, put16. rewrite !byte_at_insert by (rewrite ?length_insert; lia).
  repeat case_decide; try lia. apply half_bytes.
Qed.
Lemma get16_put16_ne o v l o' :
  (o + 2 <= length l)%nat -> (o + 2 <= o' \/ o' + 2 <= o)%nat -> get16 (put16 o v l) o' = get16 l o'.
Proof.
  intros Ho Hne. unfold get16, put16. rewrite !byte_at_insert by (rewrite ?length_insert; lia).
  repeat case_decide; try lia.
Qed.
