(* ===== verification/Printf.v ===== *)
(** The user library's formatted output ([printf.c]) and what it prints. *)

From S2P Require Import Prelude CString Mem ULib USys.
Import ULibSys.

Module Printf.

(** The words of the argument list: a number, or a pointer to a string. *)
Inductive parg := PInt (z : Z) | PStr (s : option (list Z)).

Definition putc (fd c : Z) : prog unit := do* sys (SysWrite fd [u8 c]); Ret tt.

Definition digits : list Z := lit "0123456789ABCDEF".

(** [do buf[i++] = digits[x % base]; while((x /= base) != 0);] *)
Fixpoint digit_loop (fuel : nat) (x base : Z) (i : nat) (buf : list Z) : prog (nat * list Z) :=
  match fuel with
  | O => Spent
  | S fuel =>
      let* c := deref_u (digits !! Z.to_nat (x mod base)) in
      let* buf := put i c buf in
      let x := x / base in
      if x =? 0 then Ret (S i, buf) else digit_loop fuel x base (S i) buf
  end.

(** [while(--i >= 0) putc(fd, buf[i]);] *)
Fixpoint put_down (fd : Z) (i : nat) (buf : list Z) : prog unit :=
  match i with
  | O => Ret tt
  | S i => let* c := deref_u (buf !! i) in do* putc fd c; put_down fd i buf
  end.

(** [buf] holds whatever was on the stack. *)
Definition printint (junk : list Z) (fd xx base : Z) (sgn : bool) : prog unit :=
  let neg := sgn && (xx <? 0) in
  let x := if neg then u32 (- xx) else u32 xx in
  let* (i, buf) := digit_loop 33 x base 0 junk in
  let* (i, buf) := if neg then let* buf := put i 45 buf in Ret (S i, buf) else Ret (i, buf) in
  put_down fd i buf.

(** [while( *s != 0) putc(fd, *s++);] *)
Fixpoint puts (fd : Z) (s : list Z) : prog unit :=
  match s with
  | [] => Ret tt
  | c :: s => do* putc fd c; puts fd s
  end.

(** The loop of [printf]; [state] is whether the last character was a percent sign. *)
Fixpoint printf_loop (junk : list Z) (fd : Z) (fmt : list Z) (state : bool) (ap : list parg) : prog unit :=
  match fmt with
  | [] => Ret tt
  | c :: fmt =>
      let c := Z.land c 0xff in
      if negb state then
        if c =? 37 then printf_loop junk fd fmt true ap
        else do* putc fd c; printf_loop junk fd fmt false ap
      else if c =? 100 then
        match ap with
        | PInt z :: ap => do* printint junk fd (i32 z) 10 true; printf_loop junk fd fmt false ap
        | _ => Crash
        end
      else if (c =? 120) || (c =? 112) then
        match ap with
        | PInt z :: ap => do* printint junk fd (i32 z) 16 false; printf_loop junk fd fmt false ap
        | _ => Crash
        end
      else if c =? 115 then
        match ap with
        | PStr s :: ap => do* puts fd (default (lit "(null)") s); printf_loop junk fd fmt false ap
        | _ => Crash
        end
      else if c =? 99 then
        match ap with
        | PInt z :: ap => do* putc fd z; printf_loop junk fd fmt false ap
        | _ => Crash
        end
      else if c =? 37 then do* putc fd c; printf_loop junk fd fmt false ap
      else do* putc fd 37; do* putc fd c; printf_loop junk fd fmt false ap
  end.

Definition printf (fd : Z) (fmt : string) (ap : list parg) : prog unit :=
  printf_loop (replicate 16 0) fd (lit fmt) false ap.

End Printf.
#[global] Arguments Printf.printf fd fmt ap : simpl never.

(** * Numerals *)

(** [ds] are the digits of [x], the least significant first, without leading zeros. *)
Definition horner (base : Z) (ds : list Z) : Z := foldr (fun d a => d + base * a) 0 ds.
Record canon (base : Z) (ds : list Z) (x : Z) : Prop := {
  cn_digits : Forall (fun d => 0 <= d < base) ds;
  cn_value : horner base ds = x;
  cn_nonempty : ds <> [];
  cn_top : last ds = Some 0 -> ds = [0]
}.

Definition digit_char (d : Z) : Z := default 0 (Printf.digits !! Z.to_nat d).

(** The text of an [int]. *)
Definition numeral (neg : bool) (ds : list Z) : list Z :=
  (if neg then [45] else []) ++ reverse (digit_char <$> ds).

Section printf.
Import Printf.

Lemma splice_insert i (c : Z) l buf :
  (i + S (length l) <= length buf)%nat -> splice (S i) l (<[i := c]> buf) = splice i (c :: l) buf.
Proof.
  intros Hl. unfold splice.
  rewrite (take_S_r _ i c) by (apply list_lookup_insert_eq; lia).
  rewrite take_insert_ge, drop_insert_lt by lia. rewrite <- app_assoc. cbn.
  by rewrite Nat.add_succ_r.
Qed.

Lemma digit_at d : 0 <= d < 16 -> digits !! Z.to_nat d = Some (digit_char d) /\ 0 <= digit_char d < 256.
Proof.
  intros Hd. unfold digit_char.
  assert (d ∈ seqZ 0 16) as Hin by (apply elem_of_seqZ; lia). cbn in Hin.
  repeat (apply elem_of_cons in Hin as [->|Hin]; [done|]). by apply not_elem_of_nil in Hin.
Qed.

Lemma canon_cons base d ds x :
  0 <= d < base -> x <> 0 -> canon base ds x -> canon base (d :: ds) (d + base * x).
Proof.
  intros Hd Hx [D V N T]. split; [by constructor|by rewrite <- V|done|].
  destruct ds as [|e ds]; [done|]. cbn [last]. intros HT. specialize (T HT).
  rewrite T in V. cbn in V. lia.
Qed.

Lemma digit_loop_spec n fuel x base i buf :
  2 <= base <= 16 -> (0 < n <= fuel)%nat -> 0 <= x < base ^ Z.of_nat n -> (i + n <= length buf)%nat ->
  exists ds, digit_loop fuel x base i buf = Ret ((i + length ds)%nat, splice i (digit_char <$> ds) buf) /\
    canon base ds x /\ (length ds <= n)%nat.
Proof.
  intros Hb. revert fuel x i buf. induction n as [|n IH]; intros fuel x i buf Hn Hx Hi; [lia|].
  destruct fuel as [|fuel]; [lia|]. cbn [digit_loop].
  pose proof (Z.mod_pos_bound x base ltac:(lia)) as Hm.
  pose proof (Z.div_mod x base ltac:(lia)) as Hdm.
  rewrite (proj1 (digit_at (x mod base) ltac:(lia))). cbn [deref_u pbind]. unfold put.
  destruct (Nat.ltb_spec i (length buf)); [|lia]. cbn [pbind].
  destruct (Z.eqb_spec (x / base) 0) as [E|E].
  - exists [x mod base]. cbn [fmap list_fmap length]. split.
    + rewrite Nat.add_1_r. f_equal. f_equal. symmetry.
      rewrite <- splice_insert by (cbn; lia). unfold splice. cbn. by rewrite Nat.add_0_r, take_drop.
    + split; [|cbn; lia]. split; [by repeat constructor; lia|cbn; lia|done|]. cbn. intros [= ->]. done.
  - destruct (IH fuel (x / base) (S i) (<[i := digit_char (x mod base)]> buf)) as (ds & Er & Hc & Hl).
    + destruct n; [|lia]. exfalso. apply E. apply Z.div_small. lia.
    + split; [apply Z.div_pos; lia|]. apply Z.div_lt_upper_bound; [lia|].
      rewrite Nat2Z.inj_succ, Z.pow_succ_r in Hx by lia. lia.
    + rewrite length_insert. lia.
    + exists (x mod base :: ds). rewrite Er. cbn [fmap list_fmap length]. split.
      * f_equal. f_equal; [lia|]. apply splice_insert. rewrite length_fmap. lia.
      * split; [|lia]. rewrite Hdm at 2. rewrite Z.add_comm. by apply canon_cons.
Qed.

Context {W : Type} {h : handler W} `{!Streams h}.

Lemma emits_putc fd c : 0 <= c < 256 -> emits (putc fd c) tt fd [c].
Proof.
  intros Hc. unfold putc. rewrite u8_small by lia.
  rewrite <- (app_nil_r [c]). eapply emits_bind; [apply emits_write|apply emits_ret].
Qed.

Lemma emits_put_down fd i buf :
  (i <= length buf)%nat -> Forall (fun c => 0 <= c < 256) (take i buf) ->
  emits (put_down fd i buf) tt fd (reverse (take i buf)).
Proof.
  induction i as [|i IH]; intros Hi Hc; [apply emits_ret|]. cbn [put_down].
  destruct (lookup_lt_is_Some_2 buf i ltac:(lia)) as [c Ec]. rewrite Ec. cbn [deref_u pbind].
  rewrite (take_S_r _ _ _ Ec) in *. apply Forall_app in Hc as [Hc1 Hc2].
  rewrite reverse_snoc. apply (emits_bind _ tt _ _ _ [c]).
  - apply emits_putc. by inversion Hc2.
  - apply IH; [lia|done].
Qed.

Lemma emits_puts fd s : Forall (fun c => 0 <= c < 256) s -> emits (puts fd s) tt fd s.
Proof.
  induction s as [|c s IH]; intros Hs; [apply emits_ret|]. inversion Hs; subst. cbn [puts].
  apply (emits_bind _ tt _ _ _ [c]); [by apply emits_putc|by apply IH].
Qed.

Lemma Forall_digit_char base ds :
  base <= 16 -> Forall (fun d => 0 <= d < base) ds -> Forall (fun c => 0 <= c < 256) (digit_char <$> ds).
Proof. intros Hb Hd. apply Forall_fmap. eapply Forall_impl; [done|]. cbn. intros d ?. apply digit_at. lia. Qed.

(** What [printint] prints: the digits of the number, as a signed or an unsigned word. *)
Lemma emits_printint junk fd xx base sgn :
  length junk = 16%nat -> base = 10 \/ base = 16 -> - 2 ^ 31 <= xx < 2 ^ 31 ->
  let neg := sgn && (xx <? 0) in
  exists ds, canon base ds (if neg then - xx else u32 xx) /\ (length ds <= 10)%nat /\
    emits (printint junk fd xx base sgn) tt fd (numeral neg ds).
Proof.
  intros Hj Hb Hx neg. unfold printint. fold neg.
  set (x := if neg then u32 (- xx) else u32 xx).
  assert (0 <= x < 2 ^ 32) as Hxr by (subst x; destruct neg; apply u32_range).
  destruct (digit_loop_spec 10 33 x base 0 junk) as (ds & E & Hc & Hl); [lia|lia| |rewrite Hj; lia|].
  { split; [lia|]. destruct Hb as [-> | ->]; [change (x < 10000000000)|change (x < 1099511627776)]; lia. }
  exists ds. split.
  { subst x neg. destruct sgn; [|done]. cbn [andb] in *. destruct (Z.ltb_spec xx 0); [|done].
    by rewrite u32_small in Hc by lia. }
  split; [done|]. rewrite E. cbn [pbind Nat.add].
  pose proof (Forall_digit_char base ds ltac:(lia) (cn_digits _ _ _ Hc)) as Hd.
  assert (splice 0 (digit_char <$> ds) junk = (digit_char <$> ds) ++ drop (length ds) junk) as Hs
    by (unfold splice; cbn; by rewrite length_fmap).
  rewrite Hs. assert (length ds < 16)%nat by lia. unfold numeral.
  destruct neg; cbn [pbind].
  - unfold put. rewrite length_app, length_fmap, length_drop.
    destruct (Nat.ltb_spec (length ds) (length ds + (length junk - length ds))); [|lia]. cbn [pbind].
    rewrite (insert_app_r_alt _ _ (length ds)) by (rewrite length_fmap; lia).
    rewrite length_fmap, Nat.sub_diag. destruct (drop (length ds) junk) as [|c l] eqn:Ed.
    { apply (f_equal length) in Ed. rewrite length_drop in Ed. cbn in Ed. lia. }
    cbn [insert list_insert].
    assert (take (S (length ds)) ((digit_char <$> ds) ++ 45 :: l) = (digit_char <$> ds) ++ [45]) as Ht.
    { rewrite take_app_ge by (rewrite length_fmap; lia). rewrite length_fmap.
      by replace (S (length ds) - length ds)%nat with 1%nat by lia. }
    replace ([45] ++ reverse (digit_char <$> ds)) with (reverse (take (S (length ds)) ((digit_char <$> ds) ++ 45 :: l)))
      by (by rewrite Ht, reverse_snoc).
    apply emits_put_down; [rewrite length_app, length_fmap; cbn; lia|].
    rewrite Ht. apply Forall_app. split; [done|]. repeat constructor; lia.
  - assert (take (length ds) ((digit_char <$> ds) ++ drop (length ds) junk) = digit_char <$> ds) as Ht
      by (by rewrite take_app_length' by (by rewrite length_fmap)).
    change ([] ++ reverse (digit_char <$> ds)) with (reverse (digit_char <$> ds)).
    rewrite <- Ht at 2. apply emits_put_down; [rewrite length_app, length_fmap; lia|].
    by rewrite Ht.
Qed.

(** Most significant digit first, as [atoi] reads it. *)
Lemma horner_reverse ds n :
  fold_left (fun n d => n * 10 + d) (reverse ds) n = n * 10 ^ Z.of_nat (length ds) + horner 10 ds.
Proof.
  revert n. induction ds as [|d ds IH]; intros n; [cbn; lia|].
  rewrite reverse_cons, fold_left_app, IH. cbn [fold_left length horner foldr].
  rewrite Nat2Z.inj_succ, Z.pow_succ_r by lia. fold (horner 10 ds). lia.
Qed.

Lemma fold_digits_ge l n :
  0 <= n -> Forall (fun d => 0 <= d < 10) l -> n <= fold_left (fun n d => n * 10 + d) l n.
Proof.
  revert n. induction l as [|d l IH]; intros n Hn Hl; [cbn; lia|]. inversion Hl; subst. cbn [fold_left].
  etrans; [|apply IH; [lia|done]]. lia.
Qed.

(** [atoi] on decimal digits, when the number they denote is an [int]. *)
Lemma atoi_loop_digits l fuel a n (m : mem) :
  Forall (fun d => 0 <= d < 10) l -> (length l < fuel)%nat -> 0 <= n ->
  bytes m a (length l) = digit_char <$> l ->
  ~ (48 <= m (a + Z.of_nat (length l)) <= 57) ->
  fold_left (fun n d => n * 10 + d) l n < 2 ^ 31 ->
  ULib.atoi_loop fuel a n m = Ok (fold_left (fun n d => n * 10 + d) l n).
Proof.
  revert fuel a n. induction l as [|d l IH]; intros fuel a n Hd Hf Hn Hm He Hlt.
  - destruct fuel; [cbn in Hf; lia|]. cbn in *. rewrite Z.add_0_r in He.
    destruct (Z.leb_spec 48 (m a)), (Z.leb_spec (m a) 57); cbn; done || lia.
  - destruct fuel; [cbn in Hf; lia|]. inversion Hd; subst. cbn [length] in *. rewrite bytes_S in Hm.
    injection Hm as Ha Hm. cbn [ULib.atoi_loop fold_left] in *.
    pose proof (fold_digits_ge l (n * 10 + d) ltac:(lia) ltac:(done)).
    assert (m a = 48 + d) as Hma.
    { rewrite Ha. assert (d ∈ seqZ 0 10) as Hin by (apply elem_of_seqZ; lia). cbn in Hin.
      repeat (apply elem_of_cons in Hin as [->|Hin]; [done|]). by apply not_elem_of_nil in Hin. }
    rewrite Hma. destruct (Z.leb_spec 48 (48 + d)), (Z.leb_spec (48 + d) 57); cbn [andb]; try lia.
    replace (n * 10 + (48 + d) - 48) with (n * 10 + d) by lia. rewrite i32_small by lia.
    apply IH; try done; [lia|lia|]. by replace (a + 1 + Z.of_nat (length l)) with (a + Z.of_nat (S (length l))) by lia.
Qed.
End printf.

(** [printf] of an [int] prints its decimal numeral, for every [int], the least one
    included: a sign when it is negative, digits without leading zeros whose value is the
    number, in at most eleven bytes.  [atoi] reads a numeral that is not negative back as
    the number. *)
Theorem printf_int_roundtrip {W} (h : handler W) `{!Streams h} fd x w :
  - 2 ^ 31 <= x < 2 ^ 31 -> writable fd w ->
  exists ds w', run h (Printf.printf fd "%d" [Printf.PInt x]) w = (Returned tt, w') /\
    wrote fd (numeral (x <? 0) ds) w w' /\ canon 10 ds (Z.abs x) /\ (length ds <= 10)%nat /\
    forall m a fuel, 0 <= x -> (10 < fuel)%nat ->
      bytes m a (length ds) = numeral (x <? 0) ds -> ~ (48 <= m (a + Z.of_nat (length ds)) <= 57) ->
      ULib.atoi fuel a m = Ok x.
Proof.
  intros Hx Hw.
  destruct (emits_printint (replicate 16 0) fd x 10 true eq_refl ltac:(by left) Hx) as (ds & Hc & Hl & He).
  cbn [andb] in *. assert (canon 10 ds (Z.abs x)) as Hc'.
  { destruct (Z.ltb_spec x 0); [by rewrite Z.abs_neq by lia|].
    rewrite u32_small in Hc by lia. by rewrite Z.abs_eq by lia. }
  destruct (He w Hw) as (w' & E & Hwr). exists ds, w'. split.
  { unfold Printf.printf. cbn [lit Printf.printf_loop]. rewrite i32_small by lia.
    change (run h (pbind (Printf.printint (replicate 16 0) fd x 10 true) (fun _ => Ret tt)) w = (Returned tt, w')).
    by rewrite run_bind, E. }
  split; [done|]. split; [done|]. split; [done|].
  intros m a fuel H0 Hf Hm He'. unfold ULib.atoi.
  assert (numeral (x <? 0) ds = digit_char <$> reverse ds) as Hn.
  { destruct (Z.ltb_spec x 0); [lia|]. unfold numeral. cbn [app]. by rewrite fmap_reverse. }
  rewrite Hn in Hm. pose proof (horner_reverse ds 0) as Hr. rewrite (cn_value _ _ _ Hc') in Hr.
  rewrite (atoi_loop_digits (reverse ds)); rewrite ?length_reverse; try done.
  - f_equal. lia.
  - apply Forall_reverse, (cn_digits _ _ _ Hc').
  - lia.
  - lia.
Qed.

Lemma printf_int_roundtrip_witness :
  exists ds w', run (streams 1) (Printf.printf 1 "%d" [Printf.PInt (- 2 ^ 31)]) (mkworld (fun _ => []) (fun _ => [])) = (Returned tt, w') /\
    w_out w' 1 = numeral true ds /\ horner 10 ds = 2 ^ 31.
Proof.
  destruct (printf_int_roundtrip (streams 1) 1 (- 2 ^ 31) (mkworld (fun _ => []) (fun _ => [])))
    as (ds & w' & E & Hw & Hc & _); [lia|exact I|].
  exists ds, w'. split; [exact E|]. split; [exact (wr_out _ _ _ _ Hw)|exact (cn_value _ _ _ Hc)].
Defined.
