(* ===== verification/Grep.v ===== *)
(** [grep.c]: the matcher of regular expressions, which is shown to decide the language
    that an expression denotes, and the filter around it. *)

From S2P Require Import Prelude CString Mem ULib USys Printf.
Import ULibSys.

Module Grep.

Definition CARET : Z := 94.
Definition DOLLAR : Z := 36.
Definition DOT : Z := 46.
Definition STAR : Z := 42.

(** A pointer into a string is the rest of the string; its end is the zero byte. *)

(** [matchstar(c, re, text)]; [here] is [matchhere(re, .)]. *)
Fixpoint matchstar (here : list Z -> bool) (c : Z) (text : list Z) : bool :=
  if here text then true
  else match text with
       | [] => false
       | t :: text => if (t =? c) || (c =? DOT) then matchstar here c text else false
       end.

Fixpoint matchhere (re text : list Z) {struct re} : bool :=
  match re with
  | [] => true
  | c :: re1 =>
      let next := match text with
                  | [] => false
                  | t :: text => if (c =? DOT) || (c =? t) then matchhere re1 text else false
                  end in
      match re1 with
      | [] => if c =? DOLLAR then match text with [] => true | _ => false end else next
      | d :: re2 => if d =? STAR then matchstar (matchhere re2) c text else next
      end
  end.

(** The loop of [match], which looks at the empty string too. *)
Fixpoint match_loop (re text : list Z) : bool :=
  if matchhere re text then true
  else match text with [] => false | _ :: text => match_loop re text end.

(** [match] *)
Definition match_re (re text : list Z) : bool :=
  match re with
  | c :: re1 => if c =? CARET then matchhere re1 text else match_loop re text
  | [] => match_loop re text
  end.

(** ** The filter *)

Definition BUFSZ : nat := 1024.

(** [strchr] from index [i] of an array of which [l] is the rest. *)
Fixpoint strchr (l : list Z) (c : Z) (i : nat) : prog (option nat) :=
  match l with
  | [] => Crash
  | x :: l => if x =? 0 then Ret None else if x =? c then Ret (Some i) else strchr l c (S i)
  end.

(** The inner loop of [grep]: the lines of the buffer from index [p]. *)
Fixpoint grep_lines (fuel : nat) (pattern : list Z) (p : nat) (buf : list Z) : prog (nat * list Z) :=
  match fuel with
  | O => Spent
  | S fuel =>
      let* r := strchr (drop p buf) NL p in
      match r with
      | None => Ret (p, buf)
      | Some q =>
          let* buf := put q 0 buf in
          let* buf :=
            (if match_re pattern (cstring (drop p buf)) then
               let* buf := put q NL buf in
               do* sys (SysWrite 1 (slice p (q + 1 - p) buf));
               Ret buf
             else Ret buf) in
          grep_lines fuel pattern (q + 1) buf
      end
  end.

(** What [read] stores: [d] at index [m]. *)
Definition read_into (m : nat) (d buf : list Z) : prog (list Z) :=
  if (m + length d <=? length buf)%nat then Ret (splice m d buf) else Crash.

Fixpoint grep_loop (fuel : nat) (pattern : list Z) (fd : Z) (m : nat) (buf : list Z) : prog unit :=
  match fuel with
  | O => Spent
  | S fuel =>
      Sys (SysRead fd (Z.of_nat BUFSZ - Z.of_nat m - 1)) (fun n d =>
        if n <=? 0 then Ret tt else
        let* buf := read_into m d buf in
        let m := (m + Z.to_nat n)%nat in
        let* buf := put m 0 buf in
        let* (p, buf) := grep_lines (S BUFSZ) pattern 0 buf in
        let m := if (p =? 0)%nat then O else m in
        if (0 <? m)%nat then
          let m := (m - p)%nat in
          grep_loop fuel pattern fd m (splice 0 (slice p m buf) buf)
        else grep_loop fuel pattern fd m buf)
  end.

(** [buf] is a global array. *)
Definition grep (fuel : nat) (buf pattern : list Z) (fd : Z) : prog unit :=
  grep_loop fuel pattern fd 0 buf.

Fixpoint main_loop (fuel : nat) (buf pattern : list Z) (files : list (list Z)) : prog unit :=
  match files with
  | [] => Exit
  | f :: files =>
      let* fd := sys (SysOpen f 0) in
      if fd <? 0 then
        do* Printf.printf 1 "grep: cannot open %s
" [Printf.PStr (Some f)];
        Exit
      else
        do* grep fuel buf pattern fd;
        do* sys (SysClose fd);
        main_loop fuel buf pattern files
  end.

Definition main (fuel : nat) (buf : list Z) (argv : list (list Z)) : prog unit :=
  match argv with
  | [] | [_] =>
      do* Printf.printf 2 "usage: grep pattern [file ...]
" [];
      Exit
  | [_; pattern] => do* grep fuel buf pattern 0; Exit
  | _ :: pattern :: files => main_loop fuel buf pattern files
  end.

End Grep.

(** * The language of an expression *)

Module Regex.
Import Grep.

Inductive item := One (c : Z) | Many (c : Z).

(** The items of an expression and whether it ends in the anchor. *)
Fixpoint compile (re : list Z) : list item * bool :=
  match re with
  | [] => ([], false)
  | c :: re1 =>
      match re1 with
      | [] => if c =? DOLLAR then ([], true) else ([One c], false)
      | d :: re2 =>
          if d =? STAR then let (l, e) := compile re2 in (Many c :: l, e)
          else let (l, e) := compile re1 in (One c :: l, e)
      end
  end.

(** The characters an item stands for. *)
Definition cls (c t : Z) : Prop := c = DOT \/ c = t.

(** The words of a sequence of items. *)
Fixpoint lang (l : list item) (w : list Z) : Prop :=
  match l with
  | [] => w = []
  | One c :: l => exists t v, w = t :: v /\ cls c t /\ lang l v
  | Many c :: l => exists u v, w = u ++ v /\ Forall (cls c) u /\ lang l v
  end.

(** [text] starts with a word of the expression, which is all of it under the anchor. *)
Definition starts (re text : list Z) : Prop :=
  exists w rest, text = w ++ rest /\ lang (compile re).1 w /\ ((compile re).2 = true -> rest = []).

(** [text] has a word of the expression somewhere, or at its start under the caret. *)
Definition occurs (re text : list Z) : Prop :=
  match re with
  | c :: re1 => if c =? CARET then starts re1 text else exists pre suf, text = pre ++ suf /\ starts re suf
  | [] => exists pre suf, text = pre ++ suf /\ starts re suf
  end.
End Regex.

Section matcher.
Import Grep Regex.

Lemma matchstar_spec here c text :
  matchstar here c text = true <->
  exists u v, text = u ++ v /\ Forall (cls c) u /\ here v = true.
Proof.
  induction text as [|t text IH]; cbn [matchstar].
  - destruct (here []) eqn:E.
    + split; [|done]. intros _. by exists [], [].
    + split; [done|]. intros (u & v & Huv & _ & Hv). symmetry in Huv.
      apply app_eq_nil in Huv as [-> ->]. congruence.
  - destruct (here (t :: text)) eqn:E.
    { split; [|done]. intros _. by exists [], (t :: text). }
    destruct ((t =? c) || (c =? DOT)) eqn:Et.
    + assert (cls c t) as Hc by (apply orb_true_iff in Et as [?|?]; zb; [by right|by left]).
      rewrite IH. split.
      * intros (u & v & -> & Hu & Hv). exists (t :: u), v. split; [done|]. split; [by constructor|done].
      * intros (u & v & Huv & Hu & Hv). destruct u as [|t' u]; cbn in Huv; [congruence|].
        injection Huv as -> ->. inversion Hu. by exists u, v.
    + split; [done|]. intros (u & v & Huv & Hu & Hv). destruct u as [|t' u]; cbn in Huv; [congruence|].
      injection Huv as -> ->. inversion Hu as [|? ? [Hd|Hd] _]; subst; zb; done.
Qed.

(** One character of the expression. *)
Lemma starts_one c re text :
  compile (c :: re) = (One c :: (compile re).1, (compile re).2) ->
  starts (c :: re) text <-> exists t v, text = t :: v /\ cls c t /\ starts re v.
Proof.
  intros E. unfold starts. rewrite E. cbn [fst snd lang]. split.
  - intros (w & rest & -> & (t & v & -> & Ht & Hv) & Ha). exists t, (v ++ rest).
    split; [done|]. split; [done|]. by exists v, rest.
  - intros (t & v & -> & Ht & (w & rest & -> & Hw & Ha)). exists (t :: w), rest.
    split; [done|]. split; [|done]. by exists t, w.
Qed.

Lemma starts_many c re text :
  compile (c :: STAR :: re) = (Many c :: (compile re).1, (compile re).2) ->
  starts (c :: STAR :: re) text <-> exists u v, text = u ++ v /\ Forall (cls c) u /\ starts re v.
Proof.
  intros E. unfold starts. rewrite E. cbn [fst snd lang]. split.
  - intros (w & rest & -> & (u & v & -> & Hu & Hv) & Ha). exists u, (v ++ rest).
    rewrite app_assoc. split; [done|]. split; [done|]. by exists v, rest.
  - intros (u & v & -> & Hu & (w & rest & -> & Hw & Ha)). exists (u ++ w), rest.
    rewrite app_assoc. split; [done|]. split; [|done]. by exists u, w.
Qed.

Lemma next_spec c (here : list Z -> bool) (P : list Z -> Prop) text :
  (forall v, here v = true <-> P v) ->
  match text with
  | [] => false
  | t :: text => if (c =? DOT) || (c =? t) then here text else false
  end = true <-> exists t v, text = t :: v /\ cls c t /\ P v.
Proof.
  intros HP. destruct text as [|t text].
  - split; [done|]. by intros (? & ? & ? & _).
  - destruct ((c =? DOT) || (c =? t)) eqn:E.
    + rewrite HP. split; [|by intros (? & ? & [= -> ->] & _ & ?)].
      intros Hh. exists t, text. split; [done|]. split; [|done].
      apply orb_true_iff in E as [?|?]; zb; [by left|by right].
    + split; [done|]. intros (? & ? & [= -> ->] & [?|?] & _); zb; done.
Qed.

(** [matchhere] decides whether the text starts with a word of the expression. *)
Lemma matchhere_spec re text : matchhere re text = true <-> starts re text.
Proof.
  remember (length re) as n eqn:Hn. revert re Hn text.
  induction n as [n IH] using lt_wf_ind. intros [|c re1] Hn text.
  - split; [|done]. intros _. by exists [], text.
  - destruct re1 as [|d re2].
    + cbn [matchhere]. destruct (Z.eqb_spec c DOLLAR) as [->|Hc].
      * unfold starts. cbn. split.
        -- destruct text; [|done]. intros _. by exists [], [].
        -- intros (w & rest & -> & -> & Hr). by rewrite Hr.
      * rewrite starts_one by (cbn; by destruct (Z.eqb_spec c DOLLAR)).
        apply (next_spec c (fun _ => true)). intros v. split; [|done]. intros _. by exists [], v.
    + cbn [matchhere]. destruct (Z.eqb_spec d STAR) as [->|Hd].
      * rewrite starts_many by (cbn; by destruct (compile re2)). rewrite matchstar_spec.
        split; intros (u & v & -> & Hu & Hv); exists u, v; (split; [done|]); (split; [done|]);
          by eapply IH; [|done|]; [cbn in *; lia|].
      * rewrite starts_one.
        2: { cbn. destruct (Z.eqb_spec d STAR); [done|]. destruct re2; [by destruct (d =? DOLLAR)|].
             by destruct (_ =? STAR); destruct (compile _). }
        apply (next_spec c (matchhere (d :: re2))). intros v. eapply IH; [|done]. cbn in *; lia.
Qed.

Lemma match_loop_spec re text :
  match_loop re text = true <-> exists pre suf, text = pre ++ suf /\ starts re suf.
Proof.
  induction text as [|t text IH]; cbn [match_loop]; destruct (matchhere re _) eqn:E.
  - split; [|done]. intros _. exists [], []. by rewrite <- matchhere_spec.
  - split; [done|]. intros (pre & suf & Hp & Hs). symmetry in Hp. apply app_eq_nil in Hp as [-> ->].
    apply matchhere_spec in Hs. congruence.
  - split; [|done]. intros _. exists [], (t :: text). by rewrite <- matchhere_spec.
  - rewrite IH. split.
    + intros (pre & suf & -> & Hs). by exists (t :: pre), suf.
    + intros (pre & suf & Hp & Hs). destruct pre as [|t' pre]; cbn in Hp.
      * subst suf. apply matchhere_spec in Hs. congruence.
      * injection Hp as -> ->. by exists pre, suf.
Qed.
End matcher.

(** C27: The matcher of [grep] decides the language of its regular expressions: a text
    matches exactly when it contains a word of the expression (at its start when the
    expression begins with a caret, up to its end when it ends in a dollar sign), where a
    character stands for itself, a dot for any character, and a star for any number of
    repetitions of the character before it.  The backtracking search is equivalent to this
    declarative meaning on every expression and text. *)
Theorem match_decides (re text : list Z) : Grep.match_re re text = true <-> Regex.occurs re text.
Proof.
  destruct re as [|c re]; cbn [Grep.match_re Regex.occurs].
  - apply match_loop_spec.
  - destruct (c =? Grep.CARET); [apply matchhere_spec|apply match_loop_spec].
Qed.

(** * The filter *)

(** The lines of a text that are ended by a newline, and what follows the last one. *)
Fixpoint cut (l : list Z) : list (list Z) * list Z :=
  match l with
  | [] => ([], [])
  | c :: l =>
      if c =? NL then ([] :: (cut l).1, (cut l).2)
      else match (cut l).1 with
           | [] => ([], c :: (cut l).2)
           | x :: xs => ((c :: x) :: xs, (cut l).2)
           end
  end.

(** The lines that match, with their newlines. *)
Definition select (pattern : list Z) (ls : list (list Z)) : list Z :=
  mjoin ((fun l => if Grep.match_re pattern l then l ++ [NL] else []) <$> ls).

Section cut.
Implicit Types l u v : list Z.

Lemma cut_none u : NL ∉ u -> cut u = ([], u).
Proof.
  induction u as [|c u IH]; intros Hu; [done|]. apply not_elem_of_cons in Hu as [Hc Hu].
  cbn. rewrite IH by done. by destruct (Z.eqb_spec c NL).
Qed.

Lemma cut_line u v : NL ∉ u -> cut (u ++ NL :: v) = (u :: (cut v).1, (cut v).2).
Proof.
  induction u as [|c u IH]; intros Hu; [done|]. apply not_elem_of_cons in Hu as [Hc Hu].
  cbn. rewrite IH by done. by destruct (Z.eqb_spec c NL).
Qed.

(** A text has a first line or no newline at all. *)
Lemma line_or_none l : (NL ∉ l) \/ exists u v, l = u ++ NL :: v /\ NL ∉ u.
Proof.
  destruct (decide (NL ∈ l)) as [H|H]; [right|by left].
  apply list_elem_of_split_l in H as (u & v & -> & Hu). by exists u, v.
Qed.

Lemma cut_rest_none l : NL ∉ (cut l).2.
Proof.
  induction l as [|c l IH]; cbn; [apply not_elem_of_nil|]. destruct (Z.eqb_spec c NL) as [|Hc]; [done|].
  destruct (cut l).1; [|done]. cbn. by apply not_elem_of_cons.
Qed.

Lemma cut_app l v :
  cut (l ++ v) = ((cut l).1 ++ (cut ((cut l).2 ++ v)).1, (cut ((cut l).2 ++ v)).2).
Proof.
  remember (length l) as n eqn:Hn. revert l Hn. induction n as [n IH] using lt_wf_ind. intros l Hn.
  destruct (line_or_none l) as [H|(u & w & -> & Hu)].
  - rewrite (cut_none l H). cbn. by destruct (cut (l ++ v)).
  - rewrite (cut_line u w Hu), <- app_assoc, <- app_comm_cons, cut_line by done. cbn.
    by rewrite (IH (length w)) by (rewrite ?length_app in Hn; cbn in Hn; lia || done).
Qed.

Lemma cut_nil_iff l : (cut l).1 = [] <-> NL ∉ l.
Proof.
  split; [|by intros H; rewrite (cut_none l H)]. intros H.
  destruct (line_or_none l) as [?|(u & v & -> & Hu)]; [done|]. by rewrite (cut_line u v Hu) in H.
Qed.

Lemma cut_2_length l : (length (cut l).2 <= length l)%nat.
Proof.
  induction l as [|c l IH]; cbn; [lia|]. destruct (c =? NL); cbn; [lia|]. destruct (cut l).1; cbn; lia.
Qed.

Lemma cut_2_shorter l : NL ∈ l -> (length (cut l).2 < length l)%nat.
Proof.
  intros Hin. destruct (line_or_none l) as [?|(u & v & -> & Hu)]; [done|].
  rewrite (cut_line u v Hu), length_app. cbn. pose proof (cut_2_length v). lia.
Qed.

Lemma select_cut_app pattern l v :
  select pattern (cut (l ++ v)).1 = select pattern (cut l).1 ++ select pattern (cut ((cut l).2 ++ v)).1.
Proof. rewrite cut_app. cbn [fst]. unfold select. by rewrite fmap_app, join_app. Qed.

Lemma cut_2_suffix l : exists pre, l = pre ++ (cut l).2.
Proof.
  induction l as [|c l [pre IH]]; cbn; [by exists []|]. destruct (Z.eqb_spec c NL).
  - exists (c :: pre). cbn. by rewrite <- IH.
  - destruct (cut l).1 eqn:E; cbn.
    + apply cut_nil_iff in E. exists []. cbn. by rewrite cut_none by done.
    + exists (c :: pre). cbn. by rewrite <- IH.
Qed.
End cut.

Section filter.
Import Grep.

Lemma strchr_none u junk i : NL ∉ u -> 0 ∉ u -> strchr (u ++ 0 :: junk) NL i = Ret None.
Proof.
  revert i. induction u as [|c u IH]; intros i Hu H0; [done|]. apply not_elem_of_cons in Hu as [Hc Hu].
  apply not_elem_of_cons in H0 as [Hz H0]. cbn.
  destruct (Z.eqb_spec c 0); [done|]. destruct (Z.eqb_spec c NL); [done|]. by apply IH.
Qed.

Lemma strchr_line u v i : NL ∉ u -> 0 ∉ u -> strchr (u ++ NL :: v) NL i = Ret (Some (i + length u)%nat).
Proof.
  revert i. induction u as [|c u IH]; intros i Hu H0; [cbn; by rewrite Nat.add_0_r|].
  apply not_elem_of_cons in Hu as [Hc Hu]. apply not_elem_of_cons in H0 as [Hz H0]. cbn.
  destruct (Z.eqb_spec c 0); [done|]. destruct (Z.eqb_spec c NL); [done|].
  rewrite IH by done. by rewrite <- Nat.add_succ_comm.
Qed.

Lemma put_app pre (c d : Z) post : put (length pre) c (pre ++ d :: post) = Ret (pre ++ c :: post).
Proof.
  unfold put. rewrite length_app. cbn [length]. destruct (Nat.ltb_spec (length pre) (length pre + S (length post))); [|lia].
  rewrite insert_app_r_alt by lia. by rewrite Nat.sub_diag.
Qed.

Context {W : Type} {h : handler W} `{!Streams h}.

(** The lines of the buffer: those that match are written, what follows the last one
    stays in the buffer, at the index that is returned. *)
Lemma grep_lines_spec pattern data fuel pre junk :
  0 ∉ data -> (length data < fuel)%nat ->
  exists pre', emits (grep_lines fuel pattern (length pre) (pre ++ data ++ 0 :: junk))
      (length pre', pre' ++ (cut data).2 ++ 0 :: junk) 1 (select pattern (cut data).1) /\
    (length pre' + length (cut data).2 = length pre + length data)%nat.
Proof.
  remember (length data) as n eqn:Hn. revert data fuel pre Hn.
  induction n as [n IH] using lt_wf_ind. intros data fuel pre Hn H0 Hf.
  destruct fuel as [|fuel]; [lia|]. cbn [grep_lines]. rewrite drop_app_length.
  destruct (line_or_none data) as [H|(u & v & -> & Hu)].
  - rewrite (cut_none data H), strchr_none by done. cbn [pbind]. exists pre. split; [apply emits_ret|cbn; lia].
  - rewrite (cut_line u v Hu). cbn [fst snd]. apply not_elem_of_app in H0 as [Hu0 Hv0].
    apply not_elem_of_cons in Hv0 as [_ Hv0]. rewrite length_app in Hn. cbn [length] in Hn.
    rewrite <- (app_assoc u), <- app_comm_cons, strchr_line by done. cbn [pbind].
    rewrite <- length_app, (app_assoc pre), put_app. cbn [pbind].
    rewrite <- (app_assoc pre), drop_app_length, cstring_zero by done.
    destruct (IH (length v) ltac:(lia) v fuel (pre ++ u ++ [if match_re pattern u then NL else 0]) eq_refl Hv0 ltac:(lia))
      as (pre' & He & Hl).
    exists pre'. split; [|rewrite !length_app in *; cbn in *; lia].
    change (select pattern (u :: (cut v).1)) with
      ((if match_re pattern u then u ++ [NL] else []) ++ select pattern (cut v).1).
    eapply (emits_bind _ (pre ++ u ++ (if match_re pattern u then NL else 0) :: v ++ 0 :: junk)).
    + destruct (match_re pattern u); [|apply emits_ret].
      rewrite (app_assoc pre), put_app. cbn [pbind].
      rewrite <- (app_nil_r (u ++ [NL])). eapply emits_bind; [|rewrite <- app_assoc; apply emits_ret].
      assert (slice (length pre) (length (pre ++ u) + 1 - length pre) ((pre ++ u) ++ NL :: v ++ 0 :: junk) = u ++ [NL]) as ->.
      { unfold slice. rewrite <- app_assoc, drop_app_length, length_app.
        replace (length pre + length u + 1 - length pre)%nat with (length (u ++ [NL])) by (rewrite length_app; cbn; lia).
        replace (u ++ NL :: v ++ 0 :: junk) with ((u ++ [NL]) ++ v ++ 0 :: junk) by (by rewrite <- app_assoc).
        by rewrite take_app_length. }
      apply emits_write.
    + replace (length (pre ++ u) + 1)%nat with (length (pre ++ u ++ [if match_re pattern u then NL else 0]))
        by (rewrite !length_app; cbn; lia).
      replace (pre ++ u ++ (if match_re pattern u then NL else 0) :: v ++ 0 :: junk)
        with ((pre ++ u ++ [if match_re pattern u then NL else 0]) ++ v ++ 0 :: junk) by (by rewrite <- !app_assoc).
      exact He.
Qed.

(** The buffer after [read] and the store of the terminating zero. *)
Lemma read_into_put r bs buf :
  (length r + length bs < length buf)%nat -> take (length r) buf = r ->
  exists junk, read_into (length r) bs buf = Ret (splice (length r) bs buf) /\
    put (length r + length bs) 0 (splice (length r) bs buf) = Ret ((r ++ bs) ++ 0 :: junk) /\
    length ((r ++ bs) ++ 0 :: junk) = length buf.
Proof.
  intros Hl Hr. unfold read_into.
  destruct (Nat.leb_spec (length r + length bs) (length buf)); [|lia].
  unfold splice. rewrite Hr. destruct (drop (length r + length bs) buf) as [|d junk] eqn:E.
  { apply (f_equal length) in E. rewrite length_drop in E. cbn in E. lia. }
  exists junk. split; [done|]. rewrite app_assoc, <- length_app. split; [apply put_app|].
  apply (f_equal length) in E. rewrite length_drop in E. cbn [length] in E.
  rewrite !length_app. cbn. lia.
Qed.

(** Nothing is lost when a buffer without a newline is thrown away: there is no newline
    behind it either, or its line would be too long. *)
Lemma cut_discard r bs rest' n :
  Forall (fun l => (length l < n)%nat) (cut (r ++ bs ++ rest')).1 ->
  NL ∉ r ++ bs -> rest' = [] \/ (length (r ++ bs) >= n)%nat ->
  (cut (r ++ bs ++ rest')).1 = [] /\ (cut rest').1 = [].
Proof.
  intros Hall Hn Hlong. rewrite app_assoc in *.
  assert (NL ∉ rest') as Hr.
  { destruct Hlong as [->|Hlong]; [apply not_elem_of_nil|].
    destruct (line_or_none rest') as [?|(u & v & -> & Hu)]; [done|].
    rewrite (app_assoc (r ++ bs)), cut_line in Hall by (by apply not_elem_of_app).
    apply Forall_cons in Hall as [Hb _]. rewrite !length_app in *. lia. }
  split; apply cut_nil_iff; [by apply not_elem_of_app|done].
Qed.

Definition shifted (m : nat) (p : nat) (buf : list Z) : list Z := splice 0 (slice p m buf) buf.
Lemma shifted_take pre r junk :
  take (length r) (shifted (length r) (length pre) (pre ++ r ++ 0 :: junk)) = r /\
  length (shifted (length r) (length pre) (pre ++ r ++ 0 :: junk)) = length (pre ++ r ++ 0 :: junk).
Proof.
  unfold shifted. assert (slice (length pre) (length r) (pre ++ r ++ 0 :: junk) = r) as ->.
  { unfold slice. by rewrite drop_app_length, take_app_length. }
  split; [unfold splice; rewrite take_0, app_nil_l; by rewrite take_app_length|].
  apply length_splice. rewrite !length_app. cbn. lia.
Qed.

Lemma grep_loop_spec pattern fd fuel r buf w :
  length buf = BUFSZ -> take (length r) buf = r -> (length r < 1023)%nat ->
  readable fd w -> writable 1 w -> regular fd w ->
  NL ∉ r -> 0 ∉ r ++ unread fd w ->
  Forall (fun l => (length l < 1023)%nat) (cut (r ++ unread fd w)).1 ->
  (length (unread fd w) < fuel)%nat ->
  exists w', run h (grep_loop fuel pattern fd (length r) buf) w = (Returned tt, w') /\
    written 1 w' = written 1 w ++ select pattern (cut (r ++ unread fd w)).1 /\ unread fd w' = [].
Proof.
  revert r buf w. induction fuel as [|fuel IH]; intros r buf w Hb Hr Hrl Hrd Hwr Hrg HN H0 Hall Hf; [lia|].
  cbn [grep_loop].
  destruct (read_law fd (Z.of_nat BUFSZ - Z.of_nat (length r) - 1) w Hrd) as
    (bs & w1 & E & Hun & Hle & Hend & Hreg & Hout & Hkeep); [unfold BUFSZ; lia|].
  rewrite (run_sys _ _ _ _ _ _ _ E). specialize (Hreg Hrg).
  destruct (Hkeep fd) as (Hrd1 & _ & Hrg1), (Hkeep 1) as (_ & Hwr1 & _). clear E Hkeep.
  destruct bs as [|b bs0] eqn:Ebs.
  { cbn. exists w1. split; [done|]. specialize (Hend eq_refl). rewrite Hend in *. rewrite app_nil_r, cut_none by done.
    cbn. rewrite app_nil_r. split; [apply Hout|]. by destruct (unread fd w1). }
  rewrite <- Ebs in *. assert (0 < length bs)%nat as Hpos by (subst bs; cbn; lia). clear Ebs bs0 b Hend.
  destruct (Z.leb_spec (Z.of_nat (length bs)) 0); [lia|].
  destruct (read_into_put r bs buf) as (junk & -> & Hput & Hlen); [rewrite Hb; unfold BUFSZ in *; lia|done|].
  cbn [pbind]. rewrite Nat2Z.id, Hput. cbn [pbind]. rewrite Hun, app_assoc in H0. apply not_elem_of_app in H0 as [Hd0 Hu0].
  destruct (grep_lines_spec pattern (r ++ bs) (S BUFSZ) [] junk Hd0) as (pre & He & Hpl).
  { rewrite length_app. unfold BUFSZ in *. lia. }
  rewrite run_bind. destruct (He w1 (Hwr1 Hwr)) as (w2 & E2 & [O1 O2 O3 O4]). cbn [app length] in E2. rewrite E2. clear He E2.
  destruct (O4 fd) as (Hrd2 & _ & Hrg2), (O4 1) as (_ & Hwr2 & _). cbn iota beta.
  rewrite Hun in Hall. cbn [length Nat.add] in Hpl.
  destruct (decide (NL ∈ r ++ bs)) as [Hin|Hnin].
  - assert (length pre <> 0)%nat as Hp.
    { pose proof (cut_2_shorter _ Hin). lia. }
    destruct (Nat.eqb_spec (length pre) 0); [done|]. rewrite length_app in Hpl.
    destruct (Nat.ltb_spec 0 (length r + length bs)); [|lia].
    replace (length r + length bs - length pre)%nat with (length (cut (r ++ bs)).2) by lia.
    destruct (shifted_take pre (cut (r ++ bs)).2 junk) as [S1 S2].
    destruct (IH (cut (r ++ bs)).2 (shifted (length (cut (r ++ bs)).2) (length pre) (pre ++ (cut (r ++ bs)).2 ++ 0 :: junk)) w2)
      as (w3 & E3 & Ho3 & Hu3); try done; auto.
    + rewrite S2, <- Hb, <- Hlen, !length_app. cbn. lia.
    + rewrite !length_app in *. cbn in *. unfold BUFSZ in *. lia.
    + apply cut_rest_none.
    + rewrite O3. apply not_elem_of_app. split; [|done]. intros Hz. apply Hd0.
      destruct (cut_2_suffix (r ++ bs)) as [q ->]. apply elem_of_app. by right.
    + rewrite O3. rewrite app_assoc, cut_app in Hall. cbn [fst] in Hall. by apply Forall_app in Hall as [_ ?].
    + rewrite O3. rewrite Hun, length_app in Hf. lia.
    + exists w3. split; [exact E3|]. split; [|done].
      by rewrite Ho3, O1, Hout, O3, Hun, (app_assoc r), (select_cut_app _ (r ++ bs)), app_assoc.
  - rewrite (cut_none _ Hnin) in *. cbn [fst snd] in *. assert (length pre = 0)%nat as -> by lia.
    cbn [Nat.eqb Nat.ltb Nat.leb].
    destruct (cut_discard r bs (unread fd w1) 1023 Hall Hnin) as [D1 D2].
    { rewrite length_app. rewrite Hun, length_app in Hreg. destruct (unread fd w1); [by left|right].
      cbn in Hreg. unfold BUFSZ in *. lia. }
    destruct (IH [] (pre ++ (r ++ bs) ++ 0 :: junk) w2) as (w3 & E3 & Ho3 & Hu3); try done; auto.
    + rewrite <- Hb, <- Hlen, !length_app in *. cbn in *. lia.
    + cbn. lia.
    + apply not_elem_of_nil.
    + cbn. by rewrite O3.
    + cbn. by rewrite O3, D2.
    + rewrite O3. rewrite Hun, length_app in Hf. lia.
    + exists w3. split; [exact E3|]. split; [|done].
      rewrite Ho3, O1, Hout, O3, Hun, D1. cbn [app]. by rewrite D2, !app_nil_r.
Qed.
End filter.

(** C31: [grep] on a regular file prints exactly the lines that match, in order and with
    their newlines, and reads the file to its end: the lines that are cut by the end of
    its buffer are put together again, for every file without zero bytes whose lines fit
    the buffer.  (A last line without a newline is not a line.) *)
Theorem grep_prints_matches {W} (h : handler W) `{!Streams h} pattern fd buf w fuel :
  length buf = Grep.BUFSZ -> readable fd w -> regular fd w -> writable 1 w ->
  0 ∉ unread fd w -> Forall (fun l => (length l < 1023)%nat) (cut (unread fd w)).1 ->
  (length (unread fd w) < fuel)%nat ->
  exists w', run h (Grep.grep fuel buf pattern fd) w = (Returned tt, w') /\
    written 1 w' = written 1 w ++ select pattern (cut (unread fd w)).1 /\ unread fd w' = [].
Proof.
  intros Hb Hrd Hrg Hwr H0 Hall Hf.
  apply (grep_loop_spec pattern fd fuel [] buf w Hb eq_refl ltac:(cbn; lia) Hrd Hwr Hrg); [|done..].
  apply not_elem_of_nil.
Qed.

Definition grep_demo : world :=
  mkworld (fun fd => if fd =? 3 then lit "abc
xyz
bd" else []) (fun _ => []).

Lemma grep_prints_matches_witness :
  exists w', run (streams 4096) (Grep.grep 20 (replicate 1024 0) (lit "b.$") 3) grep_demo = (Returned tt, w') /\
    w_out w' 1 = lit "abc
" /\ w_in w' 3 = [].
Proof.
  destruct (grep_prints_matches (streams 4096) (lit "b.$") 3 (replicate 1024 0) grep_demo 20)
    as (w' & E & Ho & Hu); [by vm_compute|exact I|by vm_compute|exact I| | |cbn; lia|].
  - apply (bool_decide_eq_true_1 (0 ∉ _)). by vm_compute.
  - repeat constructor; cbn; lia.
  - exists w'. split; [exact E|]. split; [|exact Hu]. etransitivity; [exact Ho|]. by vm_compute.
Defined.

(** From a pipe a line may come in two pieces.  The first one fills the buffer without a
    newline and is thrown away, and the line is not found. *)
Lemma grep_loses_split_line :
  let w := mkworld (fun fd => if fd =? 0 then lit "ab
" else []) (fun _ => []) in
  Grep.match_re (lit "a") (lit "ab") = true /\
  w_out (run (streams 1) (Grep.grep 20 (replicate 1024 0) (lit "a") 0) w).2 1 = [] /\
  w_out (run (streams 3) (Grep.grep 20 (replicate 1024 0) (lit "a") 0) w).2 1 = lit "ab
".
Proof. by vm_compute. Qed.
