(* ===== verification/UProgs.v ===== *)
(** The small user programs: [cat.c], [wc.c], [echo.c], [kill.c], [ln.c], [mkdir.c], [rm.c],
    [ps.c], [time.c], [ls.c], [init.c] and [zombie.c], each a module with its [main]; [argv]
    is the list of the argument strings.  Theorems about [cat] and [wc]. *)

From S2P Require Import Prelude CString Mem ULib USys Printf.
Import ULibSys Printf.

(** [atoi] on the bytes of a string. *)
Fixpoint atoi_digits (s : list Z) (n : Z) : Z :=
  match s with
  | [] => n
  | c :: s => if (48 <=? c) && (c <=? 57) then atoi_digits s (i32 (n * 10 + c - 48)) else n
  end.
Definition atoi (s : list Z) : Z := atoi_digits s 0.

Definition nth_arg (argv : list (list Z)) (i : nat) : prog (list Z) := deref_u (argv !! i).

Module Cat.

Fixpoint cat (fuel : nat) (fd : Z) : prog unit :=
  match fuel with
  | O => Spent
  | S fuel =>
      Sys (SysRead fd 512) (fun n buf =>
        if n >? 0 then
          let* r := sys (SysWrite 1 (take (Z.to_nat n) buf)) in
          if negb (r =? n) then
            do* printf 1 "cat: write error
" [];
            Exit
          else cat fuel fd
        else if n <? 0 then
          do* printf 1 "cat: read error
" [];
          Exit
        else Ret tt)
  end.

Fixpoint main_loop (fuel : nat) (files : list (list Z)) : prog unit :=
  match files with
  | [] => Exit
  | f :: files =>
      let* fd := sys (SysOpen f 0) in
      if fd <? 0 then
        do* printf 1 "cat: cannot open %s
" [PStr (Some f)];
        Exit
      else
        do* cat fuel fd;
        do* sys (SysClose fd);
        main_loop fuel files
  end.
Definition main (fuel : nat) (argv : list (list Z)) : prog unit :=
  match argv with
  | [] | [_] => do* cat fuel 0; Exit
  | _ :: files => main_loop fuel files
  end.

End Cat.

Module Wc.

Record counts := mkcounts { wc_l : Z; wc_w : Z; wc_c : Z; inword : bool }.

(** [strchr] of the constant, which does not find a zero byte. *)
Definition spaces : list Z := [32; 13; 9; 10; 11].
Definition is_space (c : Z) : bool := bool_decide (c ∈ spaces).

(** The body of the inner loop. *)
Definition count1 (s : counts) (b : Z) : counts :=
  let c := i32 (wc_c s + 1) in
  let l := if b =? NL then i32 (wc_l s + 1) else wc_l s in
  if is_space b then mkcounts l (wc_w s) c false
  else if negb (inword s) then mkcounts l (i32 (wc_w s + 1)) c true
  else mkcounts l (wc_w s) c true.

Fixpoint wc_loop (fuel : nat) (fd : Z) (s : counts) : prog counts :=
  match fuel with
  | O => Spent
  | S fuel =>
      Sys (SysRead fd 512) (fun n buf =>
        if n >? 0 then wc_loop fuel fd (fold_left count1 (take (Z.to_nat n) buf) s)
        else if n <? 0 then
          do* printf 1 "wc: read error
" [];
          Exit
        else Ret s)
  end.

Definition wc (fuel : nat) (fd : Z) (name : list Z) : prog unit :=
  let* s := wc_loop fuel fd (mkcounts 0 0 0 false) in
  printf 1 "%d %d %d %s
" [PInt (wc_l s); PInt (wc_w s); PInt (wc_c s); PStr (Some name)].

Fixpoint main_loop (fuel : nat) (files : list (list Z)) : prog unit :=
  match files with
  | [] => Exit
  | f :: files =>
      let* fd := sys (SysOpen f 0) in
      if fd <? 0 then
        do* printf 1 "wc: cannot open %s
" [PStr (Some f)];
        Exit
      else
        do* wc fuel fd f;
        do* sys (SysClose fd);
        main_loop fuel files
  end.
Definition main (fuel : nat) (argv : list (list Z)) : prog unit :=
  match argv with
  | [] | [_] => do* wc fuel 0 []; Exit
  | _ :: files => main_loop fuel files
  end.

End Wc.

Module Echo.
Fixpoint main_loop (args : list (list Z)) : prog unit :=
  match args with
  | [] => Exit
  | a :: args =>
      do* printf 1 "%s%s" [PStr (Some a); PStr (Some (match args with [] => lit "
" | _ => lit " " end))];
      main_loop args
  end.
Definition main (argv : list (list Z)) : prog unit := main_loop (tail argv).
End Echo.

Module Kill.
Fixpoint main_loop (args : list (list Z)) : prog unit :=
  match args with
  | [] => Exit
  | a :: args => do* sys (SysKill (atoi a)); main_loop args
  end.
Definition main (argv : list (list Z)) : prog unit :=
  if (length argv <? 2)%nat then
    do* printf 2 "usage: kill pid...
" [];
    Exit
  else main_loop (tail argv).
End Kill.

Module Ln.
Definition main (argv : list (list Z)) : prog unit :=
  if negb (length argv =? 3)%nat then
    do* printf 2 "Usage: ln old new
" [];
    Exit
  else
    let* a := nth_arg argv 1 in
    let* b := nth_arg argv 2 in
    let* r := sys (SysLink a b) in
    do* (if r <? 0 then printf 2 "link %s %s: failed
" [PStr (Some a); PStr (Some b)] else Ret tt);
    Exit.
End Ln.

Module Mkdir.
Fixpoint main_loop (args : list (list Z)) : prog unit :=
  match args with
  | [] => Exit
  | a :: args =>
      let* r := sys (SysMkdir a) in
      if r <? 0 then
        do* printf 2 "mkdir: %s failed to create
" [PStr (Some a)];
        Exit
      else main_loop args
  end.
Definition main (argv : list (list Z)) : prog unit :=
  if (length argv <? 2)%nat then
    do* printf 2 "Usage: mkdir files...
" [];
    Exit
  else main_loop (tail argv).
End Mkdir.

Module Rm.
Fixpoint main_loop (args : list (list Z)) : prog unit :=
  match args with
  | [] => Exit
  | a :: args =>
      let* r := sys (SysUnlink a) in
      if r <? 0 then
        do* printf 2 "rm: %s failed to delete
" [PStr (Some a)];
        Exit
      else main_loop args
  end.
Definition main (argv : list (list Z)) : prog unit :=
  if (length argv <? 2)%nat then
    do* printf 2 "Usage: rm files...
" [];
    Exit
  else main_loop (tail argv).
End Rm.

Module Ps.
Definition bad_arguments : prog unit :=
  do* printf 2 "ps: Fatal error: Invalid arguments. Please specify the pid of the process
" [];
  Exit.
Definition main (argv : list (list Z)) : prog unit :=
  if negb (length argv =? 2)%nat then bad_arguments else
  let* a := nth_arg argv 1 in
  let pid := atoi a in
  if pid <=? 0 then bad_arguments else
  Sys (SysGetpinfo pid) (fun r p =>
    if r <? 0 then
      do* printf 2 "ps: Error: Process with pid %d does not exist.
" [PInt pid];
      Exit
    else
      do* printf 1 "Process information for process with pid %d:
Total running time: %d ticks
Number of scheduler selections: %d
Current queue: %d
Number of running ticks per queue: %d %d %d %d %d

" (PInt <$> p);
      Exit).
End Ps.

Module Time.
Definition unable : prog unit :=
  do* printf 2 "time: Fatal error: Unable to run command
" [];
  Exit.
(** A child whose [exec] returns a value that is not negative falls off the end of [main]. *)
Definition main (argv : list (list Z)) : prog unit :=
  if (length argv <=? 1)%nat then
    do* printf 2 "time: Fatal error: No command to time
" [];
    Exit
  else
    let* cmd := nth_arg argv 1 in
    let* pid := sys SysFork in
    if pid <? 0 then unable
    else if pid =? 0 then
      do* printf 1 "Timing %s
" [PStr (Some cmd)];
      let* r := sys (SysExec cmd (tail argv)) in
      if r <? 0 then unable else Ret tt
    else
      Sys SysWaitx (fun wid d =>
        let* wtime := deref_u (d !! 0%nat) in
        let* rtime := deref_u (d !! 1%nat) in
        do* printf 1 "Time report for %s
Process ID: %d
Waiting time: %d
Running time: %d

" [PStr (Some cmd); PInt wid; PInt wtime; PInt rtime];
        Exit).
End Time.

Module Ls.

Definition DIRSIZ : nat := 14.
Definition T_DIR : Z := 1.
Definition T_FILE : Z := 2.
Definition SLASH : Z := 47.

(** What follows the last slash, blank-padded to [DIRSIZ] characters. *)
Definition fmtname (path : list Z) : list Z :=
  let p := reverse (span (fun c => negb (c =? SLASH)) (reverse path)).1 in
  if (DIRSIZ <=? length p)%nat then p else p ++ replicate (DIRSIZ - length p) 32.

(** [st.type], [st.ino], [st.size] *)
Definition st_field (st : list Z) (i : nat) : prog Z := deref_u (st !! i).
Definition show (name st : list Z) : prog unit :=
  let* type := st_field st 0 in
  let* ino := st_field st 2 in
  let* size := st_field st 4 in
  printf 1 "%s %d %d %d
" [PStr (Some name); PInt type; PInt ino; PInt size].

(** The loop over the directory entries, 16 bytes each. *)
Fixpoint entries (fuel : nat) (fd : Z) (path : list Z) : prog unit :=
  match fuel with
  | O => Spent
  | S fuel =>
      Sys (SysRead fd 16) (fun n de =>
        if negb (n =? 16) then Ret tt else
        if get16 de 0 =? 0 then entries fuel fd path else
        let buf := path ++ SLASH :: cstring (slice 2 DIRSIZ de) in
        let* (r, st) := stat buf in
        if r <? 0 then
          do* printf 1 "ls: cannot stat %s
" [PStr (Some buf)];
          entries fuel fd path
        else
          do* show (fmtname buf) st;
          entries fuel fd path)
  end.

Definition ls (fuel : nat) (path : list Z) : prog unit :=
  let* fd := sys (SysOpen path 0) in
  if fd <? 0 then printf 2 "ls: cannot open %s
" [PStr (Some path)] else
  Sys (SysFstat fd) (fun r st =>
    if r <? 0 then
      do* printf 2 "ls: cannot stat %s
" [PStr (Some path)];
      do* sys (SysClose fd);
      Ret tt
    else
      let* type := st_field st 0 in
      do* (if type =? T_FILE then show (fmtname path) st
           else if type =? T_DIR then
             if (512 <? length path + 1 + DIRSIZ + 1)%nat then printf 1 "ls: path too long
" []
             else entries fuel fd path
           else Ret tt);
      do* sys (SysClose fd);
      Ret tt).

Fixpoint main_loop (fuel : nat) (args : list (list Z)) : prog unit :=
  match args with
  | [] => Exit
  | a :: args => do* ls fuel a; main_loop fuel args
  end.
Definition main (fuel : nat) (argv : list (list Z)) : prog unit :=
  if (length argv <? 2)%nat then do* ls fuel (lit "."); Exit else main_loop fuel (tail argv).

End Ls.

Module Init.

(** [while((wpid=wait()) >= 0 && wpid != pid) printf(1, "zombie!\n");] *)
Fixpoint reap (fuel : nat) (pid : Z) : prog unit :=
  match fuel with
  | O => Spent
  | S fuel =>
      let* wpid := sys SysWait in
      if (wpid >=? 0) && negb (wpid =? pid) then
        do* printf 1 "zombie!
" [];
        reap fuel pid
      else Ret tt
  end.

Fixpoint respawn (fuel : nat) : prog unit :=
  match fuel with
  | O => Spent
  | S fuel =>
      do* printf 1 "init: starting sh
" [];
      let* pid := sys SysFork in
      if pid <? 0 then
        do* printf 1 "init: fork failed
" [];
        Exit
      else if pid =? 0 then
        do* sys (SysExec (lit "sh") [lit "sh"]);
        do* printf 1 "init: exec sh failed
" [];
        Exit
      else
        do* reap fuel pid;
        respawn fuel
  end.

Definition main (fuel : nat) : prog unit :=
  let* fd := sys (SysOpen (lit "console") O_RDWR) in
  do* (if fd <? 0 then
         do* sys (SysMknod (lit "console") 1 1);
         sys (SysOpen (lit "console") O_RDWR)
       else Ret fd);
  do* sys (SysDup 0);
  do* sys (SysDup 0);
  respawn fuel.

End Init.

Module Zombie.
Definition main : prog unit :=
  let* r := sys SysFork in
  do* (if r >? 0 then sys (SysSleep 5) else Ret 0);
  Exit.
End Zombie.

(** * What [cat] and [wc] do *)

Section programs.
Context {W : Type} {h : handler W} `{!Streams h}.
Implicit Types w : W.

Lemma cat_spec fuel fd w :
  readable fd w -> writable 1 w -> (length (unread fd w) < fuel)%nat ->
  exists w', run h (Cat.cat fuel fd) w = (Returned tt, w') /\
    written 1 w' = written 1 w ++ unread fd w /\ unread fd w' = [] /\
    (forall f, f <> 1 -> written f w' = written f w).
Proof.
  revert w. induction fuel as [|fuel IH]; intros w Hr Hw Hf; [lia|]. cbn [Cat.cat].
  destruct (read_law fd 512 w Hr) as (bs & w1 & E & Hun & Hle & Hend & _ & Hout & Hk); [lia|].
  rewrite (run_sys _ _ _ _ _ _ _ E). destruct bs as [|b bs].
  - cbn. specialize (Hend eq_refl). rewrite Hend in *. exists w1. rewrite app_nil_r.
    split; [done|]. split; [apply Hout|]. split; [by destruct (unread fd w1)|]. intros f _. apply Hout.
  - set (l := b :: bs) in *. assert (0 < length l)%nat by (subst l; cbn; lia).
    destruct (Z.gtb_spec (Z.of_nat (length l)) 0); [|lia]. rewrite run_bind.
    rewrite Nat2Z.id, firstn_all. destruct (Hk 1) as (_ & Hw1 & _), (Hk fd) as (Hr1 & _ & _).
    destruct (emits_write 1 l w1 (Hw1 Hw)) as (w2 & E2 & [O1 O2 O3 O4]). rewrite E2, Z.eqb_refl.
    cbn [negb]. destruct (IH w2) as (w3 & E3 & P1 & P2 & P3).
    + by apply O4, Hr1.
    + by apply O4, Hw1.
    + rewrite O3. rewrite Hun, length_app in Hf. lia.
    + exists w3. split; [exact E3|]. rewrite P1, O1, O3, Hout, Hun, <- app_assoc. split; [done|].
      split; [done|]. intros f Hf1. by rewrite P3, O2, Hout by done.
Qed.

(** The counts are those of the whole input, whatever pieces it comes in. *)
Lemma wc_loop_spec fuel fd s w :
  readable fd w -> (length (unread fd w) < fuel)%nat ->
  exists w', run h (Wc.wc_loop fuel fd s) w = (Returned (fold_left Wc.count1 (unread fd w) s), w') /\
    unread fd w' = [] /\ (forall f, written f w' = written f w) /\ (forall f, writable f w -> writable f w').
Proof.
  revert s w. induction fuel as [|fuel IH]; intros s w Hr Hf; [lia|]. cbn [Wc.wc_loop].
  destruct (read_law fd 512 w Hr) as (bs & w1 & E & Hun & Hle & Hend & _ & Hout & Hk); [lia|].
  rewrite (run_sys _ _ _ _ _ _ _ E). destruct bs as [|b bs].
  - specialize (Hend eq_refl). rewrite Hend in *. exists w1. cbn.
    split; [done|]. split; [by destruct (unread fd w1)|]. split; [done|]. intros f. apply Hk.
  - set (l := b :: bs) in *. assert (0 < length l)%nat by (subst l; cbn; lia).
    destruct (Z.gtb_spec (Z.of_nat (length l)) 0); [|lia]. rewrite Nat2Z.id, firstn_all.
    destruct (IH (fold_left Wc.count1 l s) w1) as (w2 & E2 & P1 & P2 & P3).
    + by apply Hk.
    + rewrite Hun, length_app in Hf. lia.
    + exists w2. rewrite Hun, fold_left_app. split; [exact E2|]. split; [done|].
      split; [intros f; by rewrite P2|]. intros f Hw. by apply P3, Hk.
Qed.
End programs.

(** The words of a text: its maximal runs of characters that are not spaces. *)
Fixpoint words (inside : bool) (l : list Z) : Z :=
  match l with
  | [] => 0
  | c :: l => if Wc.is_space c then words false l else (if inside then 0 else 1) + words true l
  end.
Definition newlines (l : list Z) : Z := Z.of_nat (length (List.filter (fun c => c =? NL) l)).

Lemma words_bound b l : 0 <= words b l <= Z.of_nat (length l).
Proof.
  revert b. induction l as [|c l IH]; intros b; cbn [words length]; [lia|].
  destruct (Wc.is_space c); [pose proof (IH false)|pose proof (IH true); destruct b]; lia.
Qed.
Lemma newlines_bound l : 0 <= newlines l <= Z.of_nat (length l).
Proof. unfold newlines. pose proof (List.filter_length_le (fun c => c =? NL) l). lia. Qed.

(** The counters of [wc] on a text that they can count. *)
Lemma count1_spec l s :
  0 <= Wc.wc_l s -> 0 <= Wc.wc_w s -> 0 <= Wc.wc_c s ->
  Wc.wc_l s + Z.of_nat (length l) < 2 ^ 31 -> Wc.wc_w s + Z.of_nat (length l) < 2 ^ 31 ->
  Wc.wc_c s + Z.of_nat (length l) < 2 ^ 31 ->
  let s' := fold_left Wc.count1 l s in
  Wc.wc_l s' = Wc.wc_l s + newlines l /\ Wc.wc_w s' = Wc.wc_w s + words (Wc.inword s) l /\
  Wc.wc_c s' = Wc.wc_c s + Z.of_nat (length l).
Proof.
  revert s. induction l as [|c l IH]; intros [sl sw sc si]; [unfold newlines; cbn; lia|].
  cbn [Wc.wc_l Wc.wc_w Wc.wc_c Wc.inword fold_left length words].
  intros Hl0 Hw0 Hc0 Hl Hw Hc.
  assert (newlines (c :: l) = (if c =? NL then 1 else 0) + newlines l) as ->.
  { unfold newlines. cbn [List.filter]. destruct (c =? NL); cbn [length]; lia. }
  unfold Wc.count1 at 2 4 6. cbn [Wc.wc_l Wc.wc_w Wc.wc_c Wc.inword]. rewrite !i32_small by lia.
  destruct (Wc.is_space c), (c =? NL), si; cbn [negb];
    (edestruct IH as (I1 & I2 & I3); [..|cbn zeta in I1, I2, I3; rewrite I1, I2, I3];
      cbn [Wc.wc_l Wc.wc_w Wc.wc_c Wc.inword]; lia).
Qed.

Section report.
Context {W : Type} {h : handler W} `{!Streams h}.

(** [%d] of a number that is not negative, and the rest of the format. *)
Lemma emits_d fd x fmt ap text :
  0 <= x < 2 ^ 31 ->
  emits (printf_loop (replicate 16 0) fd fmt false ap) tt fd text ->
  exists ds, canon 10 ds x /\
    emits (printf_loop (replicate 16 0) fd (37 :: 100 :: fmt) false (PInt x :: ap)) tt fd (numeral false ds ++ text).
Proof.
  intros Hx Hrest.
  destruct (emits_printint (replicate 16 0) fd x 10 true eq_refl ltac:(by left) ltac:(lia)) as (ds & Hc & _ & He).
  cbn [andb] in *. destruct (Z.ltb_spec x 0); [lia|]. rewrite u32_small in Hc by lia.
  exists ds. split; [done|].
  change (emits (pbind (printint (replicate 16 0) fd (i32 x) 10 true)
    (fun _ => printf_loop (replicate 16 0) fd fmt false ap)) tt fd (numeral false ds ++ text)).
  rewrite i32_small by lia. by eapply emits_bind.
Qed.

(** A character of the format that stands for itself. *)
Lemma emits_char fd c fmt ap text :
  0 <= c < 256 -> c <> 37 ->
  emits (printf_loop (replicate 16 0) fd fmt false ap) tt fd text ->
  emits (printf_loop (replicate 16 0) fd (c :: fmt) false ap) tt fd (c :: text).
Proof.
  intros Hc H37 Hrest. cbn [printf_loop negb].
  rewrite (Z.land_ones c 8 ltac:(lia) : Z.land c 0xff = c mod 2 ^ 8), Z.mod_small by lia.
  destruct (Z.eqb_spec c 37); [done|]. apply (emits_bind _ tt _ _ _ [c]); [by apply emits_putc|done].
Qed.

Lemma emits_s fd s fmt ap text :
  Forall (fun c => 0 <= c < 256) s ->
  emits (printf_loop (replicate 16 0) fd fmt false ap) tt fd text ->
  emits (printf_loop (replicate 16 0) fd (37 :: 115 :: fmt) false (PStr (Some s) :: ap)) tt fd (s ++ text).
Proof.
  intros Hs Hrest.
  change (emits (pbind (puts fd s) (fun _ => printf_loop (replicate 16 0) fd fmt false ap)) tt fd (s ++ text)).
  eapply emits_bind; [by apply emits_puts|done].
Qed.

Lemma emits_wc fd name l w c :
  0 <= l < 2 ^ 31 -> 0 <= w < 2 ^ 31 -> 0 <= c < 2 ^ 31 -> Forall (fun c => 0 <= c < 256) name ->
  exists dl dw dc, canon 10 dl l /\ canon 10 dw w /\ canon 10 dc c /\
    emits (printf fd "%d %d %d %s
" [PInt l; PInt w; PInt c; PStr (Some name)]) tt fd
      (numeral false dl ++ 32 :: numeral false dw ++ 32 :: numeral false dc ++ 32 :: name ++ [10]).
Proof.
  intros Hl Hw Hc Hn.
  assert (emits (printf_loop (replicate 16 0) fd [10] false []) tt fd [10]) as H0.
  { apply emits_char; [lia|done|]. apply emits_ret. }
  apply (emits_s fd name [10] [] [10] Hn) in H0. apply (emits_char fd 32) in H0; [|lia|done].
  destruct (emits_d fd c _ _ _ Hc H0) as (dc & Hdc & H1). apply (emits_char fd 32) in H1; [|lia|done].
  destruct (emits_d fd w _ _ _ Hw H1) as (dw & Hdw & H2). apply (emits_char fd 32) in H2; [|lia|done].
  destruct (emits_d fd l _ _ _ Hl H2) as (dl & Hdl & H3). by exists dl, dw, dc.
Qed.
End report.

(** [wc] prints the number of newlines, of words and of bytes of its input, whatever
    the sizes of the pieces in which [read] delivers it: a word that is split between two
    reads counts once. *)
Theorem wc_counts {W} (h : handler W) `{!Streams h} fd name w fuel :
  readable fd w -> writable 1 w -> Forall (fun c => 0 <= c < 256) name ->
  (length (unread fd w) < fuel)%nat -> Z.of_nat (length (unread fd w)) < 2 ^ 31 ->
  exists w' dl dw dc, run h (Wc.wc fuel fd name) w = (Returned tt, w') /\ unread fd w' = [] /\
    written 1 w' = written 1 w ++
      numeral false dl ++ 32 :: numeral false dw ++ 32 :: numeral false dc ++ 32 :: name ++ [10] /\
    canon 10 dl (newlines (unread fd w)) /\ canon 10 dw (words false (unread fd w)) /\
    canon 10 dc (Z.of_nat (length (unread fd w))).
Proof.
  intros Hr Hw Hn Hf Hlen. unfold Wc.wc. rewrite run_bind.
  destruct (wc_loop_spec fuel fd (Wc.mkcounts 0 0 0 false) w Hr Hf) as (w1 & -> & Hu & Ho & Hk).
  destruct (count1_spec (unread fd w) (Wc.mkcounts 0 0 0 false)) as (-> & -> & ->); try (cbn; lia).
  cbn [Wc.wc_l Wc.wc_w Wc.wc_c Wc.inword]. rewrite !Z.add_0_l.
  pose proof (words_bound false (unread fd w)). pose proof (newlines_bound (unread fd w)).
  destruct (emits_wc 1 name (newlines (unread fd w)) (words false (unread fd w)) (Z.of_nat (length (unread fd w))))
    as (dl & dw & dc & Hdl & Hdw & Hdc & He); [lia..|done|].
  destruct (He w1 (Hk 1 Hw)) as (w2 & E & [O1 O2 O3 O4]). exists w2, dl, dw, dc.
  split; [done|]. rewrite O3, O1, Ho. done.
Qed.

Lemma wc_counts_witness :
  exists w' dl dw dc, run (streams 3) (Wc.wc 20 0 (lit "f")) (mkworld (fun _ => lit "ab cde
fg") (fun _ => [])) = (Returned tt, w') /\
    horner 10 dl = 1 /\ horner 10 dw = 3 /\ horner 10 dc = 9 /\
    w_out w' 1 = numeral false dl ++ 32 :: numeral false dw ++ 32 :: numeral false dc ++ 32 :: lit "f" ++ [10].
Proof.
  destruct (wc_counts (streams 3) 0 (lit "f") (mkworld (fun _ => lit "ab cde
fg") (fun _ => [])) 20) as (w' & dl & dw & dc & E & _ & Ho & Hl & Hw & Hc);
    [exact I|exact I|repeat constructor; lia|cbn; lia|cbn; lia|].
  exists w', dl, dw, dc. split; [exact E|]. split; [exact (cn_value _ _ _ Hl)|].
  split; [exact (cn_value _ _ _ Hw)|]. split; [exact (cn_value _ _ _ Hc)|exact Ho].
Defined.
