(* ===== verification/Umalloc.v ===== *)
(** The user library's memory allocator ([umalloc.c]) over the byte memory of the process:
    [malloc], [free] and [morecore], and the heap they keep.

    A header is 8 bytes, the link and then the size in units of a header.  The blocks of
    the free list form a ring in the order of their addresses that starts at the static
    header [base]. *)

From stdpp Require Import functions sorting.
From S2P Require Import Prelude CString Mem.

(** The memory of the process, [freep], and the end of the memory. *)
Record ust := mkust { um : mem; ufreep : Z; ubrk : Z }.

Module Umalloc.
Section umalloc.

(** The address of [base], and whether the kernel grants [n] more bytes at a break. *)
Context (base : Z) (grow : Z -> Z -> bool).

Definition ptr (p : Z) : M ust Z := gets (fun s => load32 (um s) p).
Definition size (p : Z) : M ust Z := gets (fun s => load32 (um s) (p + 4)).
Definition set_ptr (p v : Z) : M ust unit := modify (fun s => mkust (store32 p v (um s)) (ufreep s) (ubrk s)).
Definition set_size (p v : Z) : M ust unit := modify (fun s => mkust (store32 (p + 4) v (um s)) (ufreep s) (ubrk s)).
Definition set_freep (p : Z) : M ust unit := modify (fun s => mkust (um s) p (ubrk s)).
(** [p + n] on headers. *)
Definition hdr (p n : Z) : Z := u32 (p + 8 * n).

(** The system call as the kernel answers it: the old break, or -1. *)
Definition sbrk (n : Z) : M ust Z :=
  let! b := gets ubrk in
  if (b + n <? KERNBASE) && (0 <=? b + n) && grow b n then
    do! modify (fun s => mkust (um s) (ufreep s) (b + n)); ret b
  else ret (u32 (-1)).

(** The loop of [free], which finds the header after which [bp] belongs. *)
Fixpoint free_loop (fuel : nat) (bp p : Z) : M ust Z :=
  match fuel with
  | O => nofuel
  | S fuel =>
      let! n := ptr p in
      if (bp >? p) && (bp <? n) then ret p
      else if (p >=? n) && ((bp >? p) || (bp <? n)) then ret p
      else free_loop fuel bp n
  end.

(** [free] after its loop: joining the block to its upper and to its lower neighbour. *)
Definition join_upper (bp p : Z) : M ust unit :=
  let! bsize := size bp in
  let! n := ptr p in
  if hdr bp bsize =? n then
    let! nsize := size n in
    do! set_size bp (u32 (bsize + nsize));
    let! nn := ptr n in
    set_ptr bp nn
  else set_ptr bp n.
Definition join_lower (bp p : Z) : M ust unit :=
  let! psize := size p in
  if hdr p psize =? bp then
    let! bsize := size bp in
    do! set_size p (u32 (psize + bsize));
    let! bn := ptr bp in
    set_ptr p bn
  else set_ptr p bp.

Definition free (fuel : nat) (ap : Z) : M ust unit :=
  let bp := hdr ap (-1) in
  let! fp := gets ufreep in
  let! p := free_loop fuel bp fp in
  do! join_upper bp p;
  do! join_lower bp p;
  set_freep p.

Definition morecore (fuel : nat) (nu : Z) : M ust Z :=
  let nu := if nu <? 4096 then 4096 else nu in
  let! p := sbrk (i32 (nu * 8)) in
  if p =? u32 (-1) then ret 0 else
  do! set_size p nu;
  do! free fuel (hdr p 1);
  gets ufreep.

(** Taking [nunits] units off the block at [p], whose size is [sz]. *)
Definition take_units (nunits prevp p sz : Z) : M ust Z :=
  let! r :=
    (if sz =? nunits then
       let! n := ptr p in
       do! set_ptr prevp n;
       ret p
     else
       do! set_size p (u32 (sz - nunits));
       let p := hdr p (u32 (sz - nunits)) in
       do! set_size p nunits;
       ret p) in
  do! set_freep prevp;
  ret (hdr r 1).

(** The loop of [malloc]. *)
Fixpoint malloc_loop (fuel : nat) (nunits prevp p : Z) : M ust Z :=
  match fuel with
  | O => nofuel
  | S fuel =>
      let! sz := size p in
      if sz >=? nunits then take_units nunits prevp p sz
      else
        let! fp := gets ufreep in
        if p =? fp then
          let! p := morecore fuel nunits in
          if p =? 0 then ret 0 else
          let! n := ptr p in
          malloc_loop fuel nunits p n
        else
          let! n := ptr p in
          malloc_loop fuel nunits p n
  end.

Definition nunits_of (nbytes : Z) : Z := u32 (u32 (nbytes + 8 - 1) / 8 + 1).

Definition malloc (fuel : nat) (nbytes : Z) : M ust Z :=
  let nunits := nunits_of nbytes in
  let! fp := gets ufreep in
  do! when (fp =? 0)
        (do! set_ptr base base;
         do! set_freep base;
         set_size base 0);
  let! prevp := gets ufreep in
  let! p := ptr prevp in
  malloc_loop fuel nunits prevp p.

End umalloc.
End Umalloc.
Import Umalloc.

(** * The heap *)

(** The headers from [v] on, up to a link to [z]. *)
Fixpoint seg (m : mem) (v : Z) (l : list Z) (z : Z) : Prop :=
  match l with
  | [] => v = z
  | x :: l => v = x /\ seg m (load32 m x) l z
  end.

Section seg.
Implicit Types (m : mem) (l : list Z).

Lemma seg_app m v l1 l2 z : seg m v (l1 ++ l2) z <-> exists y, seg m v l1 y /\ seg m y l2 z.
Proof.
  revert v. induction l1 as [|x l1 IH]; intros v; cbn.
  - split; [eauto|]. by intros (y & -> & ?).
  - rewrite IH. naive_solver.
Qed.

(** Going around the ring from one of its headers. *)
Lemma seg_rotate m z l1 x l2 :
  seg m z (l1 ++ x :: l2) z -> seg m (load32 m x) (l2 ++ l1) x /\ seg m x (x :: l2 ++ l1) x.
Proof.
  intros (y & H1 & [-> H2])%seg_app. split; [|split; [done|]]; apply seg_app; by exists z.
Qed.

(** A store elsewhere. *)
Lemma seg_store m v l z a w :
  Forall (fun x => x + 4 <= a \/ a + 4 <= x) l -> seg m v l z -> seg (store32 a w m) v l z.
Proof.
  revert v. induction l as [|x l IH]; intros v Hl; [done|]. inversion Hl; subst. intros [-> H].
  split; [done|]. rewrite load32_other by lia. by apply IH.
Qed.
End seg.

(** A block is its address and its size in units. *)
Definition gap (x y : Z * Z) : Prop := x.1 + 8 * x.2 < y.1.
Definition disj (x y : Z * Z) : Prop := x.1 + 8 * x.2 <= y.1 \/ y.1 + 8 * y.2 <= x.1.
Fixpoint disjoint_all (bs : list (Z * Z)) : Prop :=
  match bs with
  | [] => True
  | b :: bs => Forall (disj b) bs /\ disjoint_all bs
  end.

#[export] Instance disj_sym : Symmetric disj.
Proof. intros x y. unfold disj. lia. Qed.

#[export] Instance disjoint_all_proper : Proper ((≡ₚ) ==> iff) disjoint_all.
Proof.
  assert (forall l1 l2, l1 ≡ₚ l2 -> disjoint_all l1 -> disjoint_all l2) as H.
  { induction 1 as [|x l1 l2 Hp IH|x y l|l1 l2 l3 _ IH1 _ IH2]; cbn; try tauto.
    - intros [Hf ?]. split; [by eapply Permutation_Forall|tauto].
    - intros [Hf [Hg ?]]. inversion Hf; subst. repeat split; try done. constructor; [by symmetry|done]. }
  intros l1 l2 Hp. split; by apply H.
Qed.

(** The heap of a process that has called [malloc]: the ring [nl] of the free blocks after
    [base], in the order of their addresses with no two of them touching, and the blocks
    [al] that are allocated; all are apart, between [lo] and the break, and carry their
    sizes. *)
Record heap (base lo : Z) (fl al : list (Z * Z)) (s : ust) : Prop := {
  hp_ring : seg (um s) base (base :: fl.*1) base;
  hp_base : load32 (um s) (base + 4) = 0;
  hp_size : Forall (fun b => load32 (um s) (b.1 + 4) = b.2) (fl ++ al);
  hp_sorted : StronglySorted gap fl;
  hp_block : Forall (fun b => 1 <= b.2 /\ lo <= b.1 /\ b.1 + 8 * b.2 <= ubrk s) (fl ++ al);
  hp_disj : disjoint_all (fl ++ al);
  hp_freep : ufreep s ∈ base :: fl.*1;
  hp_lo : 0 < base /\ base + 8 <= lo /\ lo <= ubrk s < KERNBASE
}.

(** The allocated blocks are left as they are. *)
Definition same_on (bs : list (Z * Z)) (m m' : mem) : Prop :=
  Forall (fun b => forall x, b.1 <= x < b.1 + 8 * b.2 -> m' x = m x) bs.

Lemma same_on_refl bs m : same_on bs m m.
Proof. apply Forall_forall. done. Qed.
Lemma same_on_trans bs m1 m2 m3 : same_on bs m1 m2 -> same_on bs m2 m3 -> same_on bs m1 m3.
Proof.
  unfold same_on. rewrite !Forall_forall. intros H1 H2 b Hb x Hx. by rewrite (H2 b Hb), (H1 b Hb).
Qed.

(** Headers that do not meet the header at [a], and blocks that do not. *)
Definition off (a x : Z) : Prop := x + 8 <= a \/ a + 8 <= x.
Definition clear_of (a : Z) (bs : list (Z * Z)) : Prop :=
  Forall (fun b => a + 8 <= b.1 \/ b.1 + 8 * b.2 <= a) bs.

(** A store into one of the two words of the header at [a]. *)
Definition in_header (a w : Z) : Prop := w = a \/ w = a + 4.

Lemma same_on_store bs m a w v : clear_of a bs -> in_header a w -> same_on bs m (store32 w v m).
Proof.
  unfold clear_of, same_on, in_header. rewrite !Forall_forall. intros H Hw b Hb x Hx.
  apply store32_other. destruct (H b Hb); lia.
Qed.

Lemma seg_header m v l z a w u :
  Forall (off a) l -> in_header a w -> seg m v l z -> seg (store32 w u m) v l z.
Proof.
  intros H Hw. apply seg_store. eapply Forall_impl; [exact H|]. unfold off, in_header in *. cbn. lia.
Qed.

Lemma size_header m bs a w u :
  Forall (off a) bs.*1 -> in_header a w ->
  Forall (fun b => load32 m (b.1 + 4) = b.2) bs ->
  Forall (fun b => load32 (store32 w u m) (b.1 + 4) = b.2) bs.
Proof.
  rewrite Forall_fmap, !Forall_forall. intros H Hw Hb b Hin. specialize (H b Hin). cbn in H.
  rewrite load32_other; [by apply Hb|]. unfold off, in_header in *. lia.
Qed.

(** A store into the link of a header. *)
Lemma size_link m bs a u :
  Forall (fun x => x = a \/ off a x) bs.*1 ->
  Forall (fun b => load32 m (b.1 + 4) = b.2) bs ->
  Forall (fun b => load32 (store32 a u m) (b.1 + 4) = b.2) bs.
Proof.
  rewrite Forall_fmap, !Forall_forall. intros H Hb b Hin. specialize (H b Hin). cbn in H.
  rewrite load32_other; [by apply Hb|]. unfold off in *. lia.
Qed.

Lemma wp_ptr p Q s : wp (ptr p) Q s <-> Q (load32 (um s) p) s.
Proof. done. Qed.
Lemma wp_size p Q s : wp (size p) Q s <-> Q (load32 (um s) (p + 4)) s.
Proof. done. Qed.
Lemma wp_set_ptr p v Q s : wp (set_ptr p v) Q s <-> Q tt (mkust (store32 p v (um s)) (ufreep s) (ubrk s)).
Proof. done. Qed.
Lemma wp_set_size p v Q s : wp (set_size p v) Q s <-> Q tt (mkust (store32 (p + 4) v (um s)) (ufreep s) (ubrk s)).
Proof. done. Qed.
#[export] Hint Rewrite wp_ptr wp_size wp_set_ptr wp_set_size : wp.

Section walk.
Context (m : mem) (bp : Z).

Definition stops (x : Z) : bool :=
  let n := load32 m x in
  ((bp >? x) && (bp <? n)) || ((x >=? n) && ((bp >? x) || (bp <? n))).

Lemma free_loop_walk R fuel v k fp br :
  seg m v R k -> Forall (fun x => stops x = false) R -> stops k = true -> (length R < fuel)%nat ->
  wp (free_loop fuel bp v) (fun r s' => r = k /\ s' = mkust m fp br) (mkust m fp br).
Proof.
  revert fuel v. induction R as [|x R IH]; intros fuel v Hs Hr Hk Hf; destruct fuel as [|fuel]; try (cbn in Hf; lia);
    cbn [free_loop]; wp_steps; unfold ptr; wp_steps; cbn [um].
  - cbn in Hs. subst v. unfold stops in Hk. destruct ((bp >? k) && (bp <? load32 m k)); [done|].
    cbn [orb] in Hk. by rewrite Hk.
  - destruct Hs as [-> Hs]. inversion Hr as [|? ? Hx Hr']; subst. unfold stops in Hx.
    apply orb_false_iff in Hx as [-> ->]. apply IH; [done|done|done|cbn in Hf; lia].
Qed.

Lemma seg_next v A x B z : seg m v (A ++ x :: B) z -> load32 m x = hd z B.
Proof. intros (y & _ & [_ H])%seg_app. destruct B; cbn in *; [done|apply H]. Qed.

(** The search stops exactly at the last header below [bp]. *)
Lemma stops_spec z N1 k N2 x :
  seg m z (N1 ++ k :: N2) z -> hd k N1 = z -> StronglySorted Z.lt (N1 ++ k :: N2) ->
  k < bp -> Forall (fun y => bp < y) N2 -> x ∈ N1 ++ k :: N2 ->
  stops x = bool_decide (x = k).
Proof.
  intros Hs Hz Hsort Hk H2 Hx. unfold stops.
  assert (z <= k) as Hzk.
  { destruct N1 as [|y N1]; cbn in Hz; [lia|subst y]. apply StronglySorted_inv in Hsort as [Hs' Hall].
    rewrite Forall_app, Forall_cons in Hall. lia. }
  apply elem_of_app in Hx as [Hx|Hx]; [|apply elem_of_cons in Hx as [->|Hx]].
  - apply list_elem_of_split in Hx as (A & B & ->). rewrite <- app_assoc in *. cbn [app] in *.
    rewrite (seg_next _ _ _ _ _ Hs). apply StronglySorted_app in Hsort as (_ & _ & Hsort).
    apply StronglySorted_inv in Hsort as [Hs' Hall]. rewrite Forall_app, Forall_cons in Hall.
    destruct Hall as (HB & Hxk & _). assert (x < hd z (B ++ k :: N2) <= k) as Hn.
    { destruct B as [|y B]; cbn; [lia|]. apply Forall_cons in HB as [? _].
      apply StronglySorted_inv in Hs' as [_ Hy]. rewrite Forall_app, Forall_cons in Hy. lia. }
    rewrite bool_decide_eq_false_2 by lia. lia.
  - rewrite (seg_next _ _ _ _ _ Hs), bool_decide_eq_true_2 by done.
    destruct N2 as [|y N2]; cbn; [lia|]. apply Forall_cons in H2 as [? _]. lia.
  - assert (bp < x) as Hbx by (rewrite Forall_forall in H2; by apply H2).
    apply list_elem_of_split in Hx as (A & B & ->). rewrite app_comm_cons, app_assoc in *.
    rewrite (seg_next _ _ _ _ _ Hs). apply StronglySorted_app in Hsort as (_ & _ & Hsort).
    apply StronglySorted_inv in Hsort as [Hs' Hall]. rewrite bool_decide_eq_false_2 by lia.
    destruct B as [|y B]; cbn; [lia|]. apply Forall_cons in Hall as [? _]. lia.
Qed.

Lemma free_loop_spec fuel z N1 k N2 fp br :
  seg m z (N1 ++ k :: N2) z -> hd k N1 = z -> StronglySorted Z.lt (N1 ++ k :: N2) ->
  k < bp -> Forall (fun y => bp < y) N2 -> fp ∈ N1 ++ k :: N2 -> (length (N1 ++ k :: N2) < fuel)%nat ->
  wp (free_loop fuel bp fp) (fun r s' => r = k /\ s' = mkust m fp br) (mkust m fp br).
Proof.
  intros Hs Hz Hsort Hk H2 Hfp Hf.
  assert (forall x, x ∈ N1 ++ k :: N2 -> stops x = bool_decide (x = k)) as Hstop by (intros x; by eapply stops_spec).
  assert (k ∈ N1 ++ k :: N2) as Hkin by (apply elem_of_app; right; left).
  pose proof Hfp as (A & B & HAB)%list_elem_of_split. rewrite HAB in Hs. apply seg_rotate in Hs as [_ Hs].
  assert (fp :: B ++ A ≡ₚ N1 ++ k :: N2) as Hp by (rewrite HAB; solve_Permutation).
  assert (k ∈ fp :: B ++ A) as Hk' by (by rewrite Hp).
  apply list_elem_of_split_l in Hk' as (R & R' & HR & Hnk). rewrite HR in Hs, Hp.
  apply seg_app in Hs as (y & Hs & [-> _]).
  eapply free_loop_walk; [done| | |].
  - apply Forall_forall. intros x Hx. rewrite Hstop, bool_decide_eq_false_2; [done|by intros ->|].
    rewrite <- Hp. apply elem_of_app. by left.
  - rewrite Hstop by done. by apply bool_decide_eq_true_2.
  - apply Permutation_length in Hp. rewrite length_app in Hp. cbn in Hp. lia.
Qed.
End walk.

(** ** Joining *)

(** A heap with the block [b] between the free blocks [f1] below it, whose last link goes
    to [u], and [f2] above it, which start at [v]. *)
Record mid (base lo br u v : Z) (b : Z * Z) (f1 f2 al : list (Z * Z)) (m : mem) : Prop := {
  md_low : seg m base (base :: f1.*1) u;
  md_high : seg m v f2.*1 base;
  md_base : load32 m (base + 4) = 0;
  md_size : Forall (fun b => load32 m (b.1 + 4) = b.2) (b :: f1 ++ f2 ++ al);
  md_sorted : StronglySorted gap (f1 ++ f2);
  md_below : Forall (fun x => x.1 + 8 * x.2 <= b.1) f1;
  md_above : Forall (fun y => b.1 + 8 * b.2 <= y.1) f2;
  md_block : Forall (fun b => 1 <= b.2 /\ lo <= b.1 /\ b.1 + 8 * b.2 <= br) (b :: f1 ++ f2 ++ al);
  md_disj : disjoint_all (b :: f1 ++ f2 ++ al);
  md_lo : 0 < base /\ base + 8 <= lo /\ lo <= br < KERNBASE
}.

Section joining.
Context (base lo br : Z).
Implicit Types (f fl al : list (Z * Z)) (b c : Z * Z).

Definition spaced : list Z -> Prop := StronglySorted (fun x y => x + 8 <= y).

Lemma spaced_free fl :
  Forall (fun b => 1 <= b.2) fl -> StronglySorted gap fl -> spaced fl.*1.
Proof.
  induction fl as [|x fl IH]; intros Hb Hs; [constructor|]. apply StronglySorted_inv in Hs as [Hs Hx].
  apply Forall_cons in Hb as [Hx1 Hb]. constructor; [by apply IH|]. apply Forall_fmap.
  eapply Forall_impl; [exact Hx|]. unfold gap. cbn. lia.
Qed.

(** All the headers of the ring with [b] in its place. *)
Lemma mid_spaced u v b f1 f2 al m :
  mid base lo br u v b f1 f2 al m -> spaced (base :: f1.*1 ++ b.1 :: f2.*1).
Proof.
  intros [_ _ _ _ Hs Hbe Hab Hbl _ Hlo]. apply Forall_cons in Hbl as [Hb Hbl].
  rewrite !Forall_app in Hbl. destruct Hbl as (H1 & H2 & _).
  apply StronglySorted_app in Hs as (Hx & Hs1 & Hs2).
  assert (forall l, Forall (fun b => 1 <= b.2 /\ lo <= b.1 /\ b.1 + 8 * b.2 <= br) l -> Forall (fun b => 1 <= b.2) l) as Hw.
  { intros l Hl. eapply Forall_impl; [exact Hl|]. tauto. }
  constructor.
  - apply StronglySorted_app. split; [|split; [apply spaced_free; auto|]].
    + intros x y Hx1 Hy. apply list_elem_of_fmap in Hx1 as (x' & -> & Hx1).
      rewrite Forall_forall in Hbe, H1, Hab. specialize (Hbe x' Hx1). specialize (H1 x' Hx1).
      apply elem_of_cons in Hy as [->|Hy]; [lia|]. apply list_elem_of_fmap in Hy as (y' & -> & Hy).
      specialize (Hab y' Hy). lia.
    + constructor; [apply spaced_free; auto|]. apply Forall_fmap. eapply Forall_impl; [exact Hab|]. cbn. lia.
  - apply Forall_app. split; [apply Forall_fmap; eapply Forall_impl; [exact H1|cbn; lia]|].
    constructor; [lia|]. apply Forall_fmap. eapply Forall_impl; [exact H2|]. cbn. lia.
Qed.

(** In a spaced list a header is off all the others. *)
Lemma spaced_off l1 x l2 : spaced (l1 ++ x :: l2) -> Forall (off x) l1 /\ Forall (off x) l2.
Proof.
  intros (H1 & _ & H2)%StronglySorted_app. apply StronglySorted_inv in H2 as [_ H2]. split.
  - apply Forall_forall. intros y Hy. specialize (H1 y x Hy ltac:(by left)). unfold off. lia.
  - eapply Forall_impl; [exact H2|]. unfold off. lia.
Qed.

(** The header of a block is clear of the blocks that the block is apart from. *)
Lemma disj_clear b al : 1 <= b.2 -> Forall (disj b) al -> clear_of b.1 al.
Proof. intros Hb H. eapply Forall_impl; [exact H|]. unfold disj. cbn. lia. Qed.

Lemma off_clear a bs : Forall (fun b => 1 <= b.2) bs -> clear_of a bs -> Forall (off a) bs.*1.
Proof.
  unfold clear_of. rewrite Forall_fmap, !Forall_forall. intros H1 H b Hb. specialize (H b Hb).
  specialize (H1 b Hb). unfold off. cbn. lia.
Qed.

(** What the stores of the joins leave alone. *)
Lemma mid_clear u v b f1 f2 al m x :
  mid base lo br u v b f1 f2 al m -> x ∈ base :: f1.*1 ++ b.1 :: f2.*1 ->
  clear_of x al /\ Forall (off x) al.*1.
Proof.
  intros Hm Hx. destruct Hm as [_ _ _ _ _ _ _ Hbl Hd Hlo].
  assert (Forall (fun b => 1 <= b.2) al) as H1.
  { apply Forall_cons in Hbl as [_ Hbl]. rewrite !Forall_app in Hbl. destruct Hbl as (_ & _ & Hbl).
    eapply Forall_impl; [exact Hbl|]. tauto. }
  assert (clear_of x al) as Hc; [|split; [done|by apply off_clear]].
  apply elem_of_cons in Hx as [->|Hx].
  { apply Forall_cons in Hbl as [_ Hbl]. rewrite !Forall_app in Hbl. destruct Hbl as (_ & _ & Hbl).
    eapply Forall_impl; [exact Hbl|]. cbn. lia. }
  assert (exists c, x = c.1 /\ c ∈ b :: f1 ++ f2) as (c & -> & Hcin).
  { apply elem_of_app in Hx as [Hx|Hx]; [|apply elem_of_cons in Hx as [->|Hx]].
    - apply list_elem_of_fmap in Hx as (c & -> & Hc). exists c. set_solver.
    - exists b. set_solver.
    - apply list_elem_of_fmap in Hx as (c & -> & Hc). exists c. set_solver. }
  apply list_elem_of_split in Hcin as (l1 & l2 & Hl).
  assert (b :: f1 ++ f2 ++ al ≡ₚ c :: l1 ++ l2 ++ al) as Hp.
  { rewrite (app_assoc f1), app_comm_cons, Hl. solve_Permutation. }
  rewrite Hp in Hd. destruct Hd as [Hd _]. rewrite !Forall_app in Hd. destruct Hd as (_ & _ & Hd).
  apply disj_clear; [|done]. rewrite Hp in Hbl. apply Forall_cons in Hbl as [Hbl _]. lia.
Qed.

(** The free blocks [f] weigh this many units. *)
Definition units (f : list (Z * Z)) : Z := foldr (fun b n => b.2 + n) 0 f.

Lemma units_cons b f : units (b :: f) = b.2 + units f.
Proof. done. Qed.
Lemma units_app f g : units (f ++ g) = units f + units g.
Proof. induction f as [|b f IH]; cbn; [done|]. fold (units (f ++ g)) (units f). lia. Qed.

Lemma nil_or_snoc {A} (l : list A) : l = [] \/ exists l' x, l = l' ++ [x].
Proof. destruct l as [|x l'] using rev_ind; [by left|right; eauto]. Qed.

Lemma mid_store u v b f1 f2 al m w z :
  mid base lo br u v b f1 f2 al m -> in_header b.1 w ->
  seg (store32 w z m) base (base :: f1.*1) u /\ seg (store32 w z m) v f2.*1 base /\
  load32 (store32 w z m) (base + 4) = 0 /\
  Forall (fun b => load32 (store32 w z m) (b.1 + 4) = b.2) (f1 ++ f2 ++ al) /\ same_on al m (store32 w z m).
Proof.
  intros Hm Hw. pose proof (mid_spaced _ _ _ _ _ _ _ Hm) as Hsp.
  destruct (mid_clear _ _ _ _ _ _ _ b.1 Hm) as [Hc Ho]; [set_solver|].
  rewrite app_comm_cons in Hsp. destruct (spaced_off _ _ _ Hsp) as [Ho1 Ho2].
  destruct Hm as [Hlow Hhigh Hbase Hsize _ _ _ _ _ _].
  split; [by eapply seg_header|]. split; [by eapply seg_header|].
  apply Forall_cons in Ho1 as [Hob Ho1]. split.
  { rewrite load32_other; [done|]. unfold off, in_header in *. lia. }
  apply Forall_cons in Hsize as [_ Hsize]. split; [|by eapply same_on_store].
  eapply size_header; [|done|done]. rewrite !fmap_app, !Forall_app. done.
Qed.

Lemma mid_range u v b f1 f2 al m : mid base lo br u v b f1 f2 al m ->
  0 < base /\ base + 8 <= b.1 /\ 1 <= b.2 /\ b.1 + 8 * b.2 < 2 ^ 31.
Proof.
  intros [_ _ _ _ _ _ _ Hbl _ Hlo]. apply Forall_cons in Hbl as [Hb _]. unfold KERNBASE in Hlo. lia.
Qed.

(** The header above. *)
Lemma mid_next u v b f1 f2 al m : mid base lo br u v b f1 f2 al m -> v = hd base f2.*1 /\ 0 <= v < 2 ^ 31.
Proof.
  intros Hm. pose proof (mid_range _ _ _ _ _ _ _ Hm) as Hr.
  destruct Hm as [_ Hhigh _ _ _ _ _ Hbl _ Hlo]. unfold KERNBASE in Hlo.
  destruct f2 as [|c f2]; [cbn in *; lia|]. destruct Hhigh as [-> _].
  rewrite Forall_cons, !Forall_app, Forall_cons in Hbl. cbn. lia.
Qed.

Lemma mid_link u v b f1 f2 al m :
  mid base lo br u v b f1 f2 al m ->
  mid base lo br u v b f1 f2 al (store32 b.1 v m) /\ load32 (store32 b.1 v m) b.1 = v /\
  same_on al m (store32 b.1 v m).
Proof.
  intros Hm. pose proof (mid_next _ _ _ _ _ _ _ Hm) as [_ Hn].
  destruct (mid_store _ _ _ _ _ _ _ b.1 v Hm) as (S1 & S2 & S3 & S4 & S5); [by left|].
  rewrite load32_store32, u32_small by lia.
  split; [|done]. destruct Hm. split; try done.
  constructor; [|done]. rewrite load32_other by lia. by inversion md_size0.
Qed.

(** The block takes in its upper neighbour. *)
Lemma mid_absorb u v b c f1 f2 al m :
  mid base lo br u v b f1 (c :: f2) al m -> b.1 + 8 * b.2 = c.1 ->
  mid base lo br u (load32 m c.1) (b.1, b.2 + c.2) f1 f2 al (store32 (b.1 + 4) (b.2 + c.2) m) /\
  same_on al m (store32 (b.1 + 4) (b.2 + c.2) m) /\ c.2 = load32 m (c.1 + 4) /\
  load32 (store32 (b.1 + 4) (b.2 + c.2) m) c.1 = load32 m c.1 /\ b.2 + c.2 < 2 ^ 31.
Proof.
  intros Hm Hbc. pose proof (mid_range _ _ _ _ _ _ _ Hm) as Hr.
  destruct (mid_store _ _ _ _ _ _ _ (b.1 + 4) (b.2 + c.2) Hm) as (S1 & S2 & S3 & S4 & S5); [by right|].
  destruct Hm as [Hlow Hhigh Hbase Hsize Hsort Hbelow Habove Hblock Hdisj Hlo].
  assert (b :: f1 ++ (c :: f2) ++ al ≡ₚ b :: c :: f1 ++ f2 ++ al) as Hp by solve_Permutation.
  rewrite Hp in Hsize, Hblock, Hdisj. apply Forall_cons in Hsize as [Hsb Hsize]. apply Forall_cons in Hsize as [Hsc Hsize].
  apply Forall_cons in Hblock as [Hbb Hblock]. apply Forall_cons in Hblock as [Hbc' Hblock].
  destruct Hdisj as (Hd1 & Hd2 & Hd3). apply Forall_cons in Hd1 as [Hd0 Hd1].
  apply StronglySorted_app in Hsort as (Hx & Hs1 & Hs2). apply StronglySorted_inv in Hs2 as [Hs2 Hcf].
  assert (load32 (store32 (b.1 + 4) (b.2 + c.2) m) c.1 = load32 m c.1) as Hlc by (apply load32_other; lia).
  split; [|split; [done|split; [done|split; [done|unfold KERNBASE in *; lia]]]].
  split; try done.
  - cbn in S2. destruct S2 as [_ S2]. by rewrite Hlc in S2.
  - constructor; [cbn [fst snd]; rewrite load32_store32, u32_small; [done|unfold KERNBASE in *; lia]|].
    assert (f1 ++ (c :: f2) ++ al ≡ₚ c :: f1 ++ f2 ++ al) as Hp' by solve_Permutation.
    rewrite Hp' in S4. by inversion S4.
  - apply StronglySorted_app. split; [|done]. intros x y Hx1 Hy. apply Hx; [done|by right].
  - eapply Forall_impl; [exact Hcf|]. unfold gap. cbn. lia.
  - constructor; [cbn; lia|done].
  - split; [|done]. apply Forall_forall. intros x Hxin. rewrite Forall_forall in Hd1, Hd2.
    specialize (Hd1 x Hxin). specialize (Hd2 x Hxin). unfold disj in *. cbn.
    rewrite Forall_forall in Hblock. specialize (Hblock x Hxin). lia.
Qed.

Lemma gap_above b c f2 :
  1 <= c.2 -> StronglySorted gap (c :: f2) -> b.1 + 8 * b.2 < c.1 -> Forall (gap b) (c :: f2).
Proof.
  intros Hc Hs Hbc. apply StronglySorted_inv in Hs as [_ Hs]. constructor; [done|].
  eapply Forall_impl; [exact Hs|]. unfold gap. lia.
Qed.

Definition joined_upper u b f1 f2 al m fp (s' : ust) : Prop :=
  exists b' f2', mid base lo br u (load32 (um s') b.1) b' f1 f2' al (um s') /\
    b'.1 = b.1 /\ b.2 <= b'.2 /\ Forall (gap b') f2' /\ b'.2 + units f2' = b.2 + units f2 /\
    (length f2' <= length f2)%nat /\ same_on al m (um s') /\ ufreep s' = fp /\ ubrk s' = br.

Lemma join_upper_spec u b f1 f2 al m fp k :
  mid base lo br u (load32 m k) b f1 f2 al m ->
  wp (join_upper b.1 k) (fun _ s' => joined_upper u b f1 f2 al m fp s') (mkust m fp br).
Proof.
  intros Hm. pose proof (mid_range _ _ _ _ _ _ _ Hm) as Hr. unfold join_upper. wp_steps. cbn [um].
  assert (load32 m (b.1 + 4) = b.2) as -> by (destruct Hm; by inversion md_size0).
  unfold hdr at 1. rewrite u32_small by lia.
  pose proof (mid_next _ _ _ _ _ _ _ Hm) as [Hk _].
  destruct (mid_link _ _ _ _ _ _ _ Hm) as (Hml & Hlk & Hls).
  destruct (Z.eqb_spec (b.1 + 8 * b.2) (load32 m k)) as [E|E]; wp_steps; cbn [um ufreep ubrk].
  - destruct f2 as [|c f2]; cbn in Hk; [lia|]. rewrite Hk in *.
    destruct (mid_absorb _ _ _ _ _ _ _ _ Hm E) as (Hm1 & Hs1 & Hc2 & Hl & Hlt).
    rewrite <- Hc2, u32_small by (destruct Hm; rewrite Forall_cons, !Forall_app, Forall_cons in md_block0; lia).
    rewrite Hl. destruct (mid_link _ _ _ _ _ _ _ Hm1) as (Hm2 & Hl2 & Hs2). cbn [fst] in Hm2, Hl2, Hs2.
    exists (b.1, b.2 + c.2), f2. cbn [um]. rewrite Hl2. split; [done|]. split; [done|].
    split; [destruct Hm; rewrite Forall_cons, !Forall_app, Forall_cons in md_block0; cbn; lia|]. split.
    { destruct Hm. apply StronglySorted_app in md_sorted0 as (_ & _ & Hs). apply StronglySorted_inv in Hs as [_ Hs].
      eapply Forall_impl; [exact Hs|]. unfold gap. cbn. lia. }
    change (units (c :: f2)) with (c.2 + units f2). cbn [snd length]. split; [lia|]. split; [lia|].
    split; [by eapply same_on_trans|done].
  - exists b, f2. cbn [um]. rewrite Hlk. split; [done|]. split; [done|]. split; [done|]. split; [|done].
    destruct f2 as [|c f2]; [constructor|]. cbn in Hk. destruct Hm.
    apply StronglySorted_app in md_sorted0 as (_ & _ & Hs').
    rewrite Forall_cons, !Forall_app, Forall_cons in md_block0.
    apply gap_above; [lia|done|]. apply Forall_cons in md_above0 as [? _]. lia.
Qed.

(** The ring is closed again. *)
Lemma mid_heap b f1 f2 al m fp :
  mid base lo br b.1 (load32 m b.1) b f1 f2 al m -> Forall (gap b) f2 -> Forall (fun x => gap x b) f1 ->
  fp ∈ base :: (f1 ++ b :: f2).*1 ->
  heap base lo (f1 ++ b :: f2) al (mkust m fp br).
Proof.
  intros [Hlow Hhigh Hbase Hsize Hsort Hbelow Habove Hblock Hdisj Hlo] Hg2 Hg1 Hfp.
  assert ((f1 ++ b :: f2) ++ al ≡ₚ b :: f1 ++ f2 ++ al) as Hp by solve_Permutation.
  apply StronglySorted_app in Hsort as (Hx & Hs1 & Hs2).
  split; cbn [um ufreep ubrk]; rewrite ?Hp; try done.
  - rewrite fmap_app. rewrite app_comm_cons. apply seg_app. exists b.1. split; [done|]. by split.
  - apply StronglySorted_app. split; [|split; [done|by constructor]].
    intros x y Hx1 Hy. apply elem_of_cons in Hy as [->|Hy]; [|by apply Hx].
    rewrite Forall_forall in Hg1. by apply Hg1.
Qed.

Definition joined b f1 f2 al m (s' : ust) : Prop :=
  exists fl, heap base lo fl al s' /\ same_on al m (um s') /\ ubrk s' = br /\
    units fl = units f1 + b.2 + units f2 /\ (length fl <= S (length f1 + length f2))%nat /\
    exists c, c ∈ fl /\ b.2 <= c.2.

(** The block above all others of the ring, which is empty below it. *)
Lemma mid_set_base u v b f2 al m :
  mid base lo br u v b [] f2 al m ->
  mid base lo br b.1 v b [] f2 al (store32 base b.1 m) /\ same_on al m (store32 base b.1 m) /\
  load32 (store32 base b.1 m) b.1 = load32 m b.1.
Proof.
  intros Hm. pose proof (mid_range _ _ _ _ _ _ _ Hm) as Hr.
  destruct (mid_clear _ _ _ _ _ _ _ base Hm) as [Hc Ho]; [by left|].
  pose proof (mid_spaced _ _ _ _ _ _ _ Hm) as Hsp. apply (spaced_off []) in Hsp as [_ Hsp].
  apply Forall_cons in Hsp as [Hob Hof]. destruct Hm as [Hlow Hhigh Hbase Hsize Hsort Hbelow Habove Hblock Hdisj Hlo].
  split; [|split; [eapply same_on_store; [done|by left]|apply load32_other; lia]].
  split; try done.
  - split; [done|]. cbn. rewrite load32_store32, u32_small by lia. done.
  - eapply seg_header; [done|by left|done].
  - rewrite load32_other by lia. done.
  - eapply size_header; [|by left|done]. change ((b :: [] ++ f2 ++ al).*1) with (b.1 :: (f2 ++ al).*1).
    constructor; [done|]. rewrite fmap_app. by apply Forall_app.
Qed.

(** Seen from the lower neighbour. *)
Lemma mid_view u b d f1 f2 al m :
  mid base lo br u (load32 m b.1) b (f1 ++ [d]) f2 al m -> Forall (gap b) f2 ->
  mid base lo br d.1 b.1 d f1 (b :: f2) al m /\ load32 m (b.1 + 4) = b.2 /\ load32 m (d.1 + 4) = d.2.
Proof.
  intros [Hlow Hhigh Hbase Hsize Hsort Hbelow Habove Hblock Hdisj Hlo] Hg.
  assert (b :: (f1 ++ [d]) ++ f2 ++ al ≡ₚ d :: f1 ++ (b :: f2) ++ al) as Hp by solve_Permutation.
  rewrite Hp in Hsize, Hblock, Hdisj. rewrite <- app_assoc in Hsort.
  apply StronglySorted_app in Hsort as (Hx & Hs1 & Hs2). apply StronglySorted_inv in Hs2 as [Hs2 Hd].
  apply Forall_app in Hbelow as [Hb1 Hb2]. apply Forall_cons in Hb2 as [Hb2 _].
  assert (1 <= b.2 /\ 1 <= d.2) as Hone.
  { rewrite Forall_cons, !Forall_app, Forall_cons in Hblock. lia. }
  split; [split; try done|].
  - rewrite fmap_app, app_comm_cons in Hlow. apply seg_app in Hlow as (y & Hl & [-> _]). done.
  - apply StronglySorted_app. split; [|split; [done|]].
    + intros x y Hx1 Hy. apply elem_of_cons in Hy as [->|Hy]; [|apply Hx; [done|by right]].
      pose proof (Hx x d Hx1 ltac:(by left)) as Hxd. unfold gap in *. lia.
    + by constructor.
  - apply Forall_forall. intros x Hx1. pose proof (Hx x d Hx1 ltac:(by left)) as Hxd. unfold gap in *. lia.
  - constructor; [done|]. eapply Forall_impl; [exact Hd|]. unfold gap. cbn. lia.
  - rewrite Forall_cons, !Forall_app, Forall_cons in Hsize. tauto.
Qed.

Lemma join_lower_spec u b f1 f2 al m fp N k :
  mid base lo br u (load32 m b.1) b f1 f2 al m -> Forall (gap b) f2 -> base :: f1.*1 = N ++ [k] ->
  wp (do! join_lower b.1 k; set_freep k) (fun _ s' => joined b f1 f2 al m s') (mkust m fp br).
Proof.
  intros Hm Hg HN. pose proof (mid_range _ _ _ _ _ _ _ Hm) as Hr. unfold join_lower, set_freep. wp_steps. cbn [um].
  destruct (@nil_or_snoc _ f1) as [->|(f1' & d & ->)].
  - apply (f_equal last) in HN. rewrite last_snoc in HN. injection HN as <-.
    rewrite (md_base _ _ _ _ _ _ _ _ _ _ Hm). unfold hdr. rewrite Z.mul_0_r, Z.add_0_r, u32_small by lia.
    destruct (Z.eqb_spec base b.1); [lia|]. wp_steps. cbn [um ufreep ubrk].
    destruct (mid_set_base _ _ _ _ _ _ Hm) as (Hm' & Hs & Hl). exists (b :: f2).
    split; [apply (mid_heap b []); [by rewrite Hl|done|constructor|by left]|].
    split; [done|]. split; [done|]. split; [done|]. split; [cbn; lia|]. exists b. split; [by left|lia].
  - rewrite fmap_app, app_comm_cons in HN. apply app_inj_2 in HN as [_ HN]; [|done]. injection HN as <-.
    destruct (mid_view _ _ _ _ _ _ _ Hm Hg) as (Hv & Hsb & Hsd). pose proof (mid_range _ _ _ _ _ _ _ Hv) as Hrd.
    rewrite Hsd. unfold hdr. rewrite u32_small by lia.
    pose proof (md_sorted _ _ _ _ _ _ _ _ _ _ Hv) as Hsv. apply StronglySorted_app in Hsv as (Hx & _ & _).
    assert (Forall (fun x => gap x d) f1') as Hd1.
    { destruct Hm. rewrite <- app_assoc in md_sorted0. apply StronglySorted_app in md_sorted0 as (Hx' & _ & _).
      apply Forall_forall. intros x Hx1. apply Hx'; [done|by left]. }
    pose proof (md_above _ _ _ _ _ _ _ _ _ _ Hv) as Hab. apply Forall_cons in Hab as [Hab _].
    destruct (Z.eqb_spec (d.1 + 8 * d.2) b.1) as [E|E]; wp_steps; cbn [um ufreep ubrk].
    + destruct (mid_absorb _ _ _ _ _ _ _ _ Hv E) as (Hm1 & Hs1 & _ & Hl & Hlt). rewrite Hsb, u32_small, Hl by lia.
      destruct (mid_link _ _ _ _ _ _ _ Hm1) as (Hm2 & Hl2 & Hs2). cbn [fst] in Hm2, Hl2, Hs2.
      exists (f1' ++ (d.1, d.2 + b.2) :: f2). split.
      * apply mid_heap; [cbn [fst]; by rewrite Hl2| | |].
        -- eapply Forall_impl; [exact Hg|]. unfold gap. cbn. lia.
        -- done.
        -- right. rewrite fmap_app. apply elem_of_app. right. by left.
      * split; [by eapply same_on_trans|]. split; [done|]. rewrite !units_app, !units_cons. change (units []) with 0.
        rewrite !length_app. cbn [length snd]. split; [lia|]. split; [lia|].
        exists (d.1, d.2 + b.2). split; [apply elem_of_app; right; by left|cbn; lia].
    + destruct (mid_link _ _ _ _ _ _ _ Hv) as (Hm2 & Hl2 & Hs2).
      exists (f1' ++ d :: b :: f2). split.
      * apply mid_heap; [by rewrite Hl2| |done|].
        -- constructor; [unfold gap; lia|]. eapply Forall_impl; [exact Hg|]. unfold gap. lia.
        -- right. rewrite fmap_app. apply elem_of_app. right. by left.
      * split; [done|]. split; [done|]. rewrite !units_app, !units_cons. change (units []) with 0.
        rewrite !length_app. cbn [length snd]. split; [lia|]. split; [lia|].
        exists b. split; [apply elem_of_app; right; right; by left|lia].
Qed.

(** ** [free] *)

(** Where a block belongs among the free blocks. *)
Lemma split_below b fl :
  1 <= b.2 -> StronglySorted gap fl -> Forall (disj b) fl -> Forall (fun x => 1 <= x.2) fl ->
  exists f1 f2, fl = f1 ++ f2 /\ Forall (fun x => x.1 + 8 * x.2 <= b.1) f1 /\
    Forall (fun y => b.1 + 8 * b.2 <= y.1) f2.
Proof.
  intros Hb. induction fl as [|x fl IH]; intros Hs Hd H1; [by exists [], []|].
  apply StronglySorted_inv in Hs as [Hs Hx]. apply Forall_cons in Hd as [Hdx Hd]. apply Forall_cons in H1 as [Hx1 H1].
  destruct Hdx as [Hdx|Hdx].
  - exists [], (x :: fl). split; [done|]. split; [constructor|]. constructor; [done|].
    eapply Forall_impl; [exact Hx|]. unfold gap. cbn. lia.
  - destruct IH as (f1 & f2 & -> & Hf1 & Hf2); [done..|]. exists (x :: f1), f2.
    split; [done|]. split; [by constructor|done].
Qed.

Lemma heap_mid b fl al s :
  heap base lo fl (b :: al) s -> ubrk s = br ->
  exists f1 f2 N k, fl = f1 ++ f2 /\ base :: f1.*1 = N ++ [k] /\
    mid base lo br (load32 (um s) k) (load32 (um s) k) b f1 f2 al (um s).
Proof.
  intros [Hring Hbase Hsize Hsort Hblock Hdisj Hfp Hlo] <-.
  assert (fl ++ b :: al ≡ₚ b :: fl ++ al) as Hp by solve_Permutation. rewrite Hp in Hsize, Hblock, Hdisj.
  assert (1 <= b.2 /\ Forall (fun x => 1 <= x.2) fl) as [Hb1 Hf1].
  { rewrite Forall_cons, Forall_app in Hblock. destruct Hblock as (Hb & Hf & _). split; [lia|].
    eapply Forall_impl; [exact Hf|]. tauto. }
  destruct (split_below b fl) as (f1 & f2 & -> & Hbe & Hab); [done|done| |done|].
  { destruct Hdisj as [Hd _]. by apply Forall_app in Hd as [? _]. }
  destruct (nil_or_snoc (base :: f1.*1)) as [?|(N & k & HN)]; [done|].
  exists f1, f2, N, k. split; [done|]. split; [done|]. rewrite <- !app_assoc in *.
  rewrite fmap_app, app_comm_cons, HN, <- app_assoc in Hring.
  apply seg_app in Hring as (y & H1 & [-> H2]). split; try done.
  rewrite HN. apply seg_app. exists k. by split.
Qed.

Lemma spaced_lt l : spaced l -> StronglySorted Z.lt l.
Proof. induction 1 as [|x l _ IH Hx]; constructor; [done|]. eapply Forall_impl; [exact Hx|]. cbn. lia. Qed.
End joining.

Definition freed (base lo : Z) (b : Z * Z) (fl al : list (Z * Z)) (s s' : ust) : Prop :=
  exists fl', heap base lo fl' al s' /\ same_on al (um s) (um s') /\ ubrk s' = ubrk s /\
    units fl' = units fl + b.2 /\ (length fl' <= S (length fl))%nat /\ exists c, c ∈ fl' /\ b.2 <= c.2.

Lemma free_spec base lo (b : Z * Z) fl al s fuel :
  heap base lo fl (b :: al) s -> (S (length fl) < fuel)%nat ->
  wp (free fuel (b.1 + 8)) (fun _ s' => freed base lo b fl al s s') s.
Proof.
  intros Hh Hf. destruct (heap_mid base lo (ubrk s) b fl al s Hh eq_refl) as (f1 & f2 & N & k & -> & HN & Hm).
  pose proof (mid_range _ _ _ _ _ _ _ _ _ _ Hm) as Hr. pose proof (mid_spaced _ _ _ _ _ _ _ _ _ _ Hm) as Hsp.
  unfold free. assert (hdr (b.1 + 8) (-1) = b.1) as -> by (unfold hdr; rewrite u32_small; lia).
  wp_steps. destruct s as [m fp br]. cbn [um ufreep ubrk] in *.
  assert (base :: (f1 ++ f2).*1 = N ++ k :: f2.*1) as Hnodes by (by rewrite fmap_app, app_comm_cons, HN, <- app_assoc).
  rewrite app_comm_cons, HN, <- app_assoc in Hsp.
  eapply wp_mono.
  { apply (free_loop_spec m b.1 fuel base N k f2.*1 fp br).
    - rewrite <- Hnodes. apply Hh.
    - destruct N; [by injection HN as ->|by injection HN as ->].
    - apply spaced_lt in Hsp. apply StronglySorted_app in Hsp as (Hx & Hs1 & Hs2).
      apply StronglySorted_inv in Hs2 as [Hs2 Hk]. apply StronglySorted_inv in Hs2 as [Hs2 _].
      apply StronglySorted_app. split; [intros x y ? ?; apply Hx; [done|set_solver]|]. split; [done|].
      constructor; [done|]. by inversion Hk.
    - apply StronglySorted_app in Hsp as (_ & _ & Hs2). apply StronglySorted_inv in Hs2 as [_ Hk].
      apply Forall_cons in Hk. lia.
    - apply StronglySorted_app in Hsp as (_ & _ & Hs2). apply StronglySorted_inv in Hs2 as [Hs2 _].
      apply StronglySorted_inv in Hs2 as [_ Hs2]. eapply Forall_impl; [exact Hs2|]. cbn. lia.
    - rewrite <- Hnodes. apply Hh.
    - rewrite <- Hnodes. cbn. rewrite length_fmap. lia. }
  cbn beta. intros ? ? [-> ->]. apply wp_bind. eapply wp_mono; [by apply join_upper_spec|]. cbn beta.
  intros _ [m1 fp1 br1] (b' & f2' & Hm1 & Hb' & Hle & Hg & Hu & Hl & Hs & Hfp & Hbr). cbn [um ufreep ubrk] in *. subst fp1 br1.
  rewrite <- Hb' in *. eapply wp_mono; [by eapply join_lower_spec|]. cbn beta.
  intros _ s2 (fl' & Hh' & Hs' & Hbr & Hu' & Hl' & c & Hc & Hcl). exists fl'. split; [done|].
  split; [by eapply same_on_trans|]. split; [done|]. rewrite units_app, length_app in *. cbn [um].
  split; [lia|]. split; [lia|]. exists c. split; [done|lia].
Qed.

(** ** [malloc] *)

Section taking.
Context (base lo : Z).
Implicit Types (fl al g : list (Z * Z)) (c : Z * Z) (s : ust).

Lemma heap_spaced fl al s : heap base lo fl al s -> spaced (base :: fl.*1).
Proof.
  intros [_ _ _ Hs Hb _ _ Hlo]. apply Forall_app in Hb as [Hb _]. constructor.
  - apply spaced_free; [|done]. eapply Forall_impl; [exact Hb|]. tauto.
  - apply Forall_fmap. eapply Forall_impl; [exact Hb|]. cbn. lia.
Qed.

(** A header of the ring is clear of the allocated blocks. *)
Lemma heap_clear fl al s x : heap base lo fl al s -> x ∈ base :: fl.*1 -> clear_of x al /\ Forall (off x) al.*1.
Proof.
  intros [_ _ _ _ Hb Hd _ Hlo] Hx. apply Forall_app in Hb as [Hbf Hba].
  assert (clear_of x al) as Hc.
  { apply elem_of_cons in Hx as [->|Hx]; [eapply Forall_impl; [exact Hba|]; cbn; lia|].
    apply list_elem_of_fmap in Hx as (c & -> & Hc). pose proof Hc as Hc'.
    apply list_elem_of_split in Hc as (g1 & g2 & ->).
    assert ((g1 ++ c :: g2) ++ al ≡ₚ c :: g1 ++ g2 ++ al) as Hp by solve_Permutation. rewrite Hp in Hd.
    destruct Hd as [Hd _]. rewrite !Forall_app in Hd. apply disj_clear; [|tauto].
    rewrite Forall_forall in Hbf. specialize (Hbf c Hc'). lia. }
  split; [done|]. apply off_clear; [|done]. eapply Forall_impl; [exact Hba|]. tauto.
Qed.

Definition took (n : Z) fl al s (r : Z) (s' : ust) : Prop :=
  exists q fl', r = q + 8 /\ heap base lo fl' ((q, n) :: al) s' /\ same_on al (um s) (um s') /\
    ubrk s' = ubrk s /\ units fl' + n = units fl /\ (length fl' <= length fl)%nat.

(** The whole block. *)
Lemma take_exact c g1 g2 al m fp br N prevp :
  heap base lo (g1 ++ c :: g2) al (mkust m fp br) -> base :: g1.*1 = N ++ [prevp] ->
  heap base lo (g1 ++ g2) (c :: al) (mkust (store32 prevp (load32 m c.1) m) prevp br) /\
  same_on al m (store32 prevp (load32 m c.1) m).
Proof.
  intros Hh HN. pose proof (heap_spaced _ _ _ Hh) as Hsp.
  assert (base :: (g1 ++ c :: g2).*1 = N ++ prevp :: c.1 :: g2.*1) as Hnodes.
  { rewrite fmap_app, app_comm_cons, HN, <- app_assoc. done. }
  destruct (heap_clear _ _ _ prevp Hh) as [Hcl Hof]; [rewrite Hnodes; set_solver|].
  split; [|eapply same_on_store; [done|by left]].
  destruct Hh as [Hring Hbase Hsize Hsort Hblock Hdisj Hfp Hlo]. cbn [um ufreep ubrk] in *.
  rewrite Hnodes in Hsp, Hring. destruct (spaced_off _ _ _ Hsp) as [Ho1 Ho2]. apply Forall_cons in Ho2 as [Hoc Ho2].
  apply seg_app in Hring as (y & Hr1 & [-> [Hpc Hr2]]).
  assert (0 <= load32 m c.1 < 2 ^ 32) as Hlc.
  { rewrite Forall_app, Forall_app, Forall_cons in Hblock. destruct Hblock as ((_ & _ & Hg2) & _). unfold KERNBASE in Hlo.
    destruct g2 as [|d g2]; cbn in Hr2; [lia|]. apply Forall_cons in Hg2 as [? _]. lia. }
  assert ((g1 ++ c :: g2) ++ al ≡ₚ (g1 ++ g2) ++ c :: al) as Hp by solve_Permutation. rewrite Hp in Hsize, Hblock, Hdisj.
  assert (base :: (g1 ++ g2).*1 = N ++ prevp :: g2.*1) as Hnodes'.
  { rewrite fmap_app, app_comm_cons, HN, <- app_assoc. done. }
  apply StronglySorted_app in Hsort as (Hx & Hs1 & Hs2). apply StronglySorted_inv in Hs2 as [Hs2 Hc2].
  split; cbn [um ufreep ubrk]; try done.
  - rewrite Hnodes'. apply seg_app. exists prevp. split; [eapply seg_header; [exact Ho1|by left|done]|].
    split; [done|]. rewrite load32_store32, u32_small by done. eapply seg_header; [exact Ho2|by left|done].
  - destruct (decide (prevp = base)) as [->|Hne]; [by rewrite load32_other by lia|].
    destruct N as [|b0 N]; [by injection HN as ->|]. injection HN as <- _. apply Forall_cons in Ho1 as [Hob _].
    rewrite load32_other; [done|]. unfold off in Hob. lia.
  - apply size_link; [|done]. rewrite fmap_app, fmap_cons. apply Forall_app. split.
    + assert (Forall (fun x => x = prevp \/ off prevp x) (base :: (g1 ++ g2).*1)) as Hall.
      { rewrite Hnodes'. apply Forall_app. split; [eapply Forall_impl; [exact Ho1|]; tauto|].
        constructor; [by left|]. eapply Forall_impl; [exact Ho2|]. tauto. }
      by apply Forall_cons in Hall as [_ ?].
    + constructor; [by right|]. eapply Forall_impl; [exact Hof|]. tauto.
  - apply StronglySorted_app. split; [|done]. intros x y0 ? ?. apply Hx; [done|by right].
  - rewrite Hnodes'. set_solver.
Qed.

(** A part of the block, its upper end. *)
Lemma take_part c g1 g2 al m fp br prevp n :
  heap base lo (g1 ++ c :: g2) al (mkust m fp br) -> prevp ∈ base :: g1.*1 -> 1 <= n < c.2 ->
  let q := c.1 + 8 * (c.2 - n) in
  let m' := store32 (q + 4) n (store32 (c.1 + 4) (c.2 - n) m) in
  heap base lo (g1 ++ (c.1, c.2 - n) :: g2) ((q, n) :: al) (mkust m' prevp br) /\ same_on al m m'.
Proof.
  intros Hh Hprev Hn q m'. pose proof (heap_spaced _ _ _ Hh) as Hsp.
  destruct (heap_clear _ _ _ c.1 Hh) as [Hcl Hof]; [rewrite fmap_app; set_solver|].
  destruct Hh as [Hring Hbase Hsize Hsort Hblock Hdisj Hfp Hlo]. cbn [um ufreep ubrk] in *.
  assert ((g1 ++ c :: g2) ++ al ≡ₚ c :: g1 ++ g2 ++ al) as Hp by solve_Permutation.
  rewrite Hp in Hsize, Hblock, Hdisj. destruct Hdisj as [Hd1 Hd2].
  apply Forall_cons in Hsize as [_ Hsize]. apply Forall_cons in Hblock as [Hbc Hblock].
  assert ((g1 ++ (c.1, c.2 - n) :: g2) ++ (q, n) :: al ≡ₚ (c.1, c.2 - n) :: (q, n) :: g1 ++ g2 ++ al) as Hp'
    by solve_Permutation.
  apply StronglySorted_app in Hsort as (Hx & Hs1 & Hs2). apply StronglySorted_inv in Hs2 as [Hs2 Hc2].
  (* the stores are inside the block *)
  assert (forall x, x ∈ (g1 ++ g2 ++ al) -> off c.1 x.1 /\ off q x.1 /\ disj (c.1, c.2 - n) x /\ disj (q, n) x) as Hoff.
  { intros x Hin. rewrite Forall_forall in Hd1, Hblock. specialize (Hd1 x Hin). specialize (Hblock x Hin).
    unfold off, disj, q in *. cbn. lia. }
  assert (same_on al m m') as Hsame.
  { eapply same_on_trans; (eapply same_on_store; [|by right]); [done|].
    apply Forall_forall. intros x Hin. rewrite Forall_forall in Hd1. specialize (Hd1 x ltac:(set_solver)).
    unfold disj, q in *. lia. }
  split; [|done]. split; cbn [um ufreep ubrk]; rewrite ?Hp'; try done.
  - rewrite fmap_app, fmap_cons. cbn [fst]. rewrite fmap_app, fmap_cons in Hring.
    assert (forall x, x ∈ base :: g1.*1 ++ c.1 :: g2.*1 -> x = c.1 \/ off c.1 x /\ off q x) as Hn0.
    { intros x Hin. apply elem_of_cons in Hin as [->|Hin]; [right; unfold off, q; lia|].
      apply elem_of_app in Hin as [Hin|Hin]; [|apply elem_of_cons in Hin as [->|Hin]; [by left|]]; right;
        apply list_elem_of_fmap in Hin as (y & -> & Hin); destruct (Hoff y ltac:(set_solver)) as (? & ? & _); done. }
    apply seg_store; [|apply seg_store; [|done]]; apply Forall_forall; intros x Hin;
      specialize (Hn0 x Hin); unfold off, q in *; lia.
  - unfold m', q. rewrite !load32_other by lia. done.
  - constructor; [|constructor].
    + unfold m', q. cbn [fst snd]. rewrite load32_other by lia. rewrite load32_store32, u32_small; [done|unfold KERNBASE in *; lia].
    + unfold m'. cbn [fst snd]. rewrite load32_store32, u32_small; [done|unfold KERNBASE in *; lia].
    + eapply size_header; [|by right|eapply size_header; [|by right|done]];
        apply Forall_fmap, Forall_forall; intros x Hin; cbn; by apply Hoff.
  - apply StronglySorted_app. split; [|split; [done|]].
    + intros x y Hx1 Hy. apply elem_of_cons in Hy as [->|Hy]; [|apply Hx; [done|by right]].
      specialize (Hx x c Hx1 ltac:(by left)). unfold gap in *. cbn. lia.
    + constructor; [done|]. eapply Forall_impl; [exact Hc2|]. unfold gap. cbn. lia.
  - constructor; [cbn; lia|]. constructor; [unfold q; cbn; lia|done].
  - split; [|split; [|done]].
    + constructor; [unfold disj, q; cbn; lia|]. apply Forall_forall. intros x Hin. by apply Hoff.
    + apply Forall_forall. intros x Hin. by apply Hoff.
  - rewrite fmap_app. set_solver.
Qed.

Lemma take_spec c g1 g2 al m fp br N prevp n :
  heap base lo (g1 ++ c :: g2) al (mkust m fp br) -> base :: g1.*1 = N ++ [prevp] -> 1 <= n <= c.2 ->
  wp (take_units n prevp c.1 c.2) (fun r s' => took n (g1 ++ c :: g2) al (mkust m fp br) r s') (mkust m fp br).
Proof.
  intros Hh HN Hn. assert (1 <= c.2 /\ lo <= c.1 /\ c.1 + 8 * c.2 <= br /\ 0 < lo /\ br < 2 ^ 31) as Hc.
  { destruct Hh. cbn in *. rewrite !Forall_app, Forall_cons in hp_block0. unfold KERNBASE in *. lia. }
  unfold take_units, set_freep. wp_steps. destruct (Z.eqb_spec c.2 n) as [<-|Hne]; wp_steps; cbn [um ufreep ubrk].
  - destruct (take_exact _ _ _ _ _ _ _ _ _ Hh HN) as [Hh' Hs]. exists c.1, (g1 ++ g2).
    unfold hdr. rewrite u32_small by lia. split; [done|]. destruct c as [a u]. split; [done|]. split; [done|].
    split; [done|]. rewrite !units_app, !units_cons, !length_app. cbn. lia.
  - rewrite (u32_small (c.2 - n)) by lia. unfold hdr. rewrite !(u32_small (c.1 + 8 * (c.2 - n))) by lia.
    destruct (take_part _ _ _ _ _ _ _ prevp n Hh) as [Hh' Hs]; [rewrite HN; set_solver|lia|].
    eexists _, _. rewrite u32_small by lia. split; [reflexivity|]. split; [exact Hh'|].
    split; [done|]. split; [done|]. rewrite !units_app, !units_cons, !length_app. cbn. lia.
Qed.

Lemma NoDup_split_inj {A} (x : A) l1 l2 k1 k2 :
  NoDup (l1 ++ x :: l2) -> l1 ++ x :: l2 = k1 ++ x :: k2 -> l1 = k1.
Proof.
  revert k1. induction l1 as [|y l1 IH]; intros [|z k1] Hnd E; try done.
  - injection E as <- ->. apply NoDup_cons in Hnd as [Hx _]. set_solver.
  - injection E as -> _. apply NoDup_cons in Hnd as [Hx _]. set_solver.
  - injection E as -> E. apply NoDup_cons in Hnd as [_ Hnd]. f_equal. by apply IH.
Qed.

Lemma spaced_NoDup l : spaced l -> NoDup l.
Proof.
  induction 1 as [|x l _ IH Hx]; constructor; [|done]. intros Hin. rewrite Forall_forall in Hx.
  specialize (Hx x Hin). lia.
Qed.

(** The header before a free block is found by its link. *)
Lemma heap_pred fl al s prevp c :
  heap base lo fl al s -> prevp ∈ base :: fl.*1 -> c ∈ fl -> load32 (um s) prevp = c.1 ->
  exists g1 g2 N, fl = g1 ++ c :: g2 /\ base :: g1.*1 = N ++ [prevp].
Proof.
  intros Hh Hprev Hc Hl. pose proof (heap_spaced _ _ _ Hh) as Hsp.
  apply list_elem_of_split in Hc as (g1 & g2 & ->). exists g1, g2.
  apply list_elem_of_split in Hprev as (N & B & HN). exists N. split; [done|].
  pose proof (hp_ring _ _ _ _ _ Hh) as Hring. rewrite HN in Hring. pose proof (seg_next _ _ _ _ _ _ Hring) as Hnx.
  rewrite Hl in Hnx. destruct B as [|x B]; cbn in Hnx.
  { exfalso. destruct Hh as [_ _ _ _ Hb _ _ Hlo]. rewrite !Forall_app, Forall_cons in Hb. lia. }
  subst x. rewrite fmap_app, fmap_cons, app_comm_cons in HN, Hsp.
  eapply (NoDup_split_inj c.1); [by apply spaced_NoDup|]. rewrite HN. by rewrite <- app_assoc.
Qed.

(** The sizes that the search sees. *)
Lemma heap_node fl al s p :
  heap base lo fl al s -> p ∈ base :: fl.*1 ->
  (p = base /\ load32 (um s) (p + 4) = 0) \/ exists c, c ∈ fl /\ p = c.1 /\ load32 (um s) (p + 4) = c.2.
Proof.
  intros Hh Hp. apply elem_of_cons in Hp as [->|Hp]; [left; split; [done|apply Hh]|right].
  apply list_elem_of_fmap in Hp as (c & -> & Hc). exists c. split; [done|]. split; [done|].
  pose proof (hp_size _ _ _ _ _ Hh) as Hs. apply Forall_app in Hs as [Hs _]. rewrite Forall_forall in Hs. by apply Hs.
Qed.

(** A block that is large enough is taken. *)
Lemma take_hit n fl al s prevp p :
  heap base lo fl al s -> prevp ∈ base :: fl.*1 -> p ∈ base :: fl.*1 -> load32 (um s) prevp = p ->
  1 <= n <= load32 (um s) (p + 4) ->
  wp (take_units n prevp p (load32 (um s) (p + 4))) (fun r s' => took n fl al s r s') s.
Proof.
  intros Hh Hprev Hp Hl Hn. destruct (heap_node _ _ _ p Hh Hp) as [[-> Hz]|(c & Hc & -> & Hsz)]; [lia|].
  destruct (heap_pred _ _ _ prevp c Hh Hprev Hc Hl) as (g1 & g2 & N & -> & HN). rewrite Hsz in *.
  destruct s as [m fp br]. by eapply take_spec.
Qed.

(** One way around the ring: a block that is large enough is found, or there is none. *)
Lemma malloc_scan grow n fl al m fp br Q rest fuel prevp p :
  heap base lo fl al (mkust m fp br) -> 1 <= n ->
  seg m p rest fp -> Forall (fun x => x ∈ base :: fl.*1 /\ x <> fp) rest ->
  prevp ∈ base :: fl.*1 -> load32 m prevp = p -> (length rest < fuel)%nat ->
  (forall r s', took n fl al (mkust m fp br) r s' -> Q r s') ->
  (Forall (fun x => load32 m (x + 4) < n) (rest ++ [fp]) -> forall fuel', (fuel <= fuel' + S (length rest))%nat ->
    wp (let! p := morecore grow fuel' n in
        if p =? 0 then ret 0 else let! nx := ptr p in malloc_loop grow fuel' n p nx) Q (mkust m fp br)) ->
  wp (malloc_loop grow fuel n prevp p) Q (mkust m fp br).
Proof.
  intros Hh Hn. revert fuel prevp p. induction rest as [|x rest IH]; intros fuel prevp p Hseg Hrest Hprev Hl Hf Hfound Hnone;
    (destruct fuel as [|fuel]; [lia|]); cbn [malloc_loop]; wp_steps; cbn [um];
    destruct (load32 m (p + 4) >=? n) eqn:Esz; zb.
  - cbn in Hseg. subst fp. eapply wp_mono; [apply (take_hit n fl al (mkust m p br)); [exact Hh|done|apply Hh|done|cbn; lia]|apply Hfound].
  - cbn in Hseg. subst fp. wp_steps. cbn [ufreep]. rewrite Z.eqb_refl. apply Hnone; [by repeat constructor|cbn; lia].
  - destruct Hseg as [-> Hseg]. apply Forall_cons in Hrest as [[Hx Hxfp] Hrest].
    eapply wp_mono; [apply (take_hit n fl al (mkust m fp br)); [exact Hh|done|done|done|cbn; lia]|apply Hfound].
  - destruct Hseg as [-> Hseg]. apply Forall_cons in Hrest as [[Hx Hxfp] Hrest]. wp_steps. cbn [ufreep].
    destruct (Z.eqb_spec x fp); [done|]. wp_steps. cbn [um]. apply IH; try done; [cbn in Hf; lia|].
    intros Hall fuel' Hf'. apply Hnone; [by constructor|cbn; lia].
Qed.

(** From [freep] all the way around. *)
Lemma malloc_around grow n fl al m fp br Q fuel :
  heap base lo fl al (mkust m fp br) -> 1 <= n -> (S (length fl) < fuel)%nat ->
  (forall r s', took n fl al (mkust m fp br) r s' -> Q r s') ->
  (Forall (fun c => c.2 < n) fl -> forall fuel', (fuel <= fuel' + S (length fl))%nat ->
    wp (let! p := morecore grow fuel' n in
        if p =? 0 then ret 0 else let! nx := ptr p in malloc_loop grow fuel' n p nx) Q (mkust m fp br)) ->
  wp (malloc_loop grow fuel n fp (load32 m fp)) Q (mkust m fp br).
Proof.
  intros Hh Hn Hf Hfound Hnone. pose proof (hp_freep _ _ _ _ _ Hh) as Hfp. cbn in Hfp.
  pose proof (spaced_NoDup _ (heap_spaced _ _ _ Hh)) as Hnd.
  pose proof Hfp as (A & B & HAB)%list_elem_of_split.
  assert (base :: fl.*1 ≡ₚ fp :: B ++ A) as Hp by (rewrite HAB; solve_Permutation).
  assert (length (B ++ A) = length fl) as Hlen.
  { apply Permutation_length in Hp. cbn in Hp. rewrite length_fmap in Hp. lia. }
  eapply (malloc_scan grow n fl al m fp br Q (B ++ A)); try done.
  - pose proof (hp_ring _ _ _ _ _ Hh) as Hr. cbn [um] in Hr. rewrite HAB in Hr. by apply seg_rotate in Hr as [? _].
  - apply Forall_forall. intros x Hx. split; [rewrite Hp; by right|]. intros ->. rewrite Hp in Hnd.
    by apply NoDup_cons in Hnd as [? _].
  - lia.
  - intros Hall fuel' Hf'. apply Hnone; [|lia]. apply Forall_forall. intros c Hc.
    assert (c.1 ∈ (B ++ A) ++ [fp]) as Hin.
    { assert (c.1 ∈ base :: fl.*1) as Hc1 by (right; apply list_elem_of_fmap; eauto). rewrite Hp in Hc1. set_solver. }
    rewrite Forall_forall in Hall. specialize (Hall _ Hin). pose proof (hp_size _ _ _ _ _ Hh) as Hs.
    apply Forall_app in Hs as [Hs _]. rewrite Forall_forall in Hs. specialize (Hs c Hc). cbn in Hs. lia.
Qed.

(** The memory the kernel grants is a block above all others. *)
Lemma heap_extend fl al m fp br nu :
  heap base lo fl al (mkust m fp br) -> 1 <= nu -> br + 8 * nu < KERNBASE ->
  heap base lo fl ((br, nu) :: al) (mkust (store32 (br + 4) nu m) fp (br + 8 * nu)) /\
  same_on al m (store32 (br + 4) nu m).
Proof.
  intros [Hring Hbase Hsize Hsort Hblock Hdisj Hfp Hlo] Hnu Hbr. cbn [um ufreep ubrk] in *.
  assert (fl ++ (br, nu) :: al ≡ₚ (br, nu) :: fl ++ al) as Hp by solve_Permutation.
  assert (clear_of br (fl ++ al)) as Hcl by (eapply Forall_impl; [exact Hblock|]; cbn; lia).
  assert (Forall (off br) (fl ++ al).*1) as Hoff.
  { apply off_clear; [|done]. eapply Forall_impl; [exact Hblock|]. tauto. }
  split; [|eapply same_on_store; [by apply Forall_app in Hcl as [_ ?]|by right]].
  split; cbn [um ufreep ubrk]; rewrite ?Hp; try done.
  - eapply seg_header; [|by right|done]. constructor; [unfold off; lia|]. rewrite fmap_app in Hoff. by apply Forall_app in Hoff as [? _].
  - rewrite load32_other by lia. done.
  - constructor; [cbn; rewrite load32_store32, u32_small; [done|unfold KERNBASE in *; lia]|].
    eapply size_header; [done|by right|done].
  - constructor; [cbn; lia|]. eapply Forall_impl; [exact Hblock|]. cbn. lia.
  - split; [|done]. eapply Forall_impl; [exact Hblock|]. unfold disj. cbn. lia.
  - lia.
Qed.

(** What [malloc] does: a null pointer and no change, or a block of its own. *)
Definition malloced (n : Z) al s (r : Z) (s' : ust) : Prop :=
  (r = 0 /\ s' = s) \/
  exists q fl', r = q + 8 /\ heap base lo fl' ((q, n) :: al) s' /\ same_on al (um s) (um s') /\ ubrk s <= ubrk s'.

Lemma morecore_spec grow n fl al m fp br Q fuel :
  heap base lo fl al (mkust m fp br) -> 1 <= n < 2 ^ 28 -> (length fl + 3 < fuel)%nat ->
  (forall r s', malloced n al (mkust m fp br) r s' -> Q r s') ->
  wp (let! p := morecore grow fuel n in
      if p =? 0 then ret 0 else let! nx := ptr p in malloc_loop grow fuel n p nx) Q (mkust m fp br).
Proof.
  intros Hh Hn Hf HQ. unfold morecore. set (nu := if n <? 4096 then 4096 else n).
  assert (n <= nu /\ 4096 <= nu < 2 ^ 28) as Hnu by (subst nu; destruct (Z.ltb_spec n 4096); lia).
  pose proof (hp_lo _ _ _ _ _ Hh) as Hlo. cbn in Hlo.
  rewrite i32_small by lia. unfold sbrk. wp_steps. cbn [ubrk].
  destruct ((br + nu * 8 <? KERNBASE) && (0 <=? br + nu * 8) && grow br (nu * 8)) eqn:E; wp_steps.
  2: { change (u32 (-1) =? u32 (-1)) with true. cbn iota. wp_steps. change (0 =? 0) with true. cbn iota. wp_steps. apply HQ. by left. }
  zb. cbn [um ufreep ubrk]. unfold KERNBASE in *.
  destruct (Z.eqb_spec br (u32 (-1))) as [Hbad|_]; [unfold u32 in Hbad; change ((-1) mod 2 ^ 32) with 4294967295 in Hbad; lia|].
  wp_steps. cbn [um ufreep ubrk].
  destruct (heap_extend fl al m fp br nu Hh) as [Hh1 Hs1]; [lia|unfold KERNBASE; lia|].
  unfold hdr at 1. rewrite u32_small by lia. replace (br + nu * 8) with (br + 8 * nu) by lia.
  eapply wp_mono; [apply (free_spec base lo (br, nu) fl al); [exact Hh1|cbn; lia]|]. cbn beta.
  intros _ [m2 fp2 br2] (fl2 & Hh2 & Hs2 & Hb2 & Hu2 & Hl2 & c & Hc & Hcn). cbn [um ubrk snd] in *. wp_steps. cbn [ufreep].
  assert (fp2 <> 0) as Hfp2.
  { pose proof (hp_freep _ _ _ _ _ Hh2) as Hin. cbn in Hin. pose proof (hp_block _ _ _ _ _ Hh2) as Hbl.
    apply Forall_app in Hbl as [Hbl _]. apply elem_of_cons in Hin as [->|Hin]; [lia|].
    apply list_elem_of_fmap in Hin as (d & -> & Hd). rewrite Forall_forall in Hbl. specialize (Hbl d Hd). lia. }
  destruct (Z.eqb_spec fp2 0); [done|]. wp_steps. cbn [um].
  eapply malloc_around; [exact Hh2|lia|lia| |].
  - intros r s' (q & fl3 & -> & Hh3 & Hs3 & Hb3 & _ & _). apply HQ. right. exists q, fl3. split; [done|]. split; [done|].
    cbn [um ubrk] in *. split; [|lia]. eapply same_on_trans; [exact Hs1|]. by eapply same_on_trans.
  - intros Hall. rewrite Forall_forall in Hall. specialize (Hall c Hc). lia.
Qed.

Lemma malloc_loop_spec grow n fl al m fp br fuel :
  heap base lo fl al (mkust m fp br) -> 1 <= n < 2 ^ 28 -> (2 * length fl + 6 < fuel)%nat ->
  wp (malloc_loop grow fuel n fp (load32 m fp)) (malloced n al (mkust m fp br)) (mkust m fp br).
Proof.
  intros Hh Hn Hf. eapply malloc_around; [exact Hh|lia|lia| |].
  - intros r s' (q & fl3 & -> & Hh3 & Hs3 & Hb3 & _ & _). right. exists q, fl3. split; [done|]. split; [done|].
    cbn in *. split; [done|lia].
  - intros _ fuel' Hf'. by eapply morecore_spec; [exact Hh|lia|lia|].
Qed.
End taking.
