(* ===== verification/UmallocProps.v ===== *)
(** A program that uses [malloc] and [free] ([umalloc.c]): it allocates, frees what it has
    allocated and stores into its own blocks, in any order. *)

From stdpp Require Import functions sorting.
From S2P Require Import Prelude CString Mem Umalloc.
Import Umalloc.

(** The program knows its live blocks by their pointers and the sizes it asked for. *)
Record client := mkclient { c_st : ust; c_live : list (Z * Z) }.

Definition in_block (b : Z * Z) (x : Z) : Prop := b.1 <= x < b.1 + b.2.

Section client.
Context (base lo : Z) (grow : Z -> Z -> bool).

(** A loop of the allocator turns once per free block; each has at least a header. *)
Definition enough (fuel : nat) (s : ust) : Prop := ubrk s <= Z.of_nat fuel.

Inductive cstep : client -> client -> Prop :=
| c_malloc s live fuel nbytes r s' :
    enough fuel s -> 0 <= nbytes < 2 ^ 31 - 16 ->
    malloc base grow fuel nbytes s = Ok (r, s') ->
    cstep (mkclient s live) (mkclient s' (if r =? 0 then live else (r, nbytes) :: live))
| c_free s l1 p k l2 fuel s' :
    enough fuel s -> free fuel p s = Ok (tt, s') ->
    cstep (mkclient s (l1 ++ (p, k) :: l2)) (mkclient s' (l1 ++ l2))
| c_store s live b x v :
    b ∈ live -> in_block b x ->
    cstep (mkclient s live) (mkclient (mkust (<[x := v]> (um s)) (ufreep s) (ubrk s)) live).

(** Before the first call [freep] is null. *)
Definition fresh (s : ust) : Prop := ufreep s = 0 /\ 0 < base /\ base + 8 <= lo /\ lo <= ubrk s < KERNBASE.
Definition cinit (c : client) : Prop := fresh (c_st c) /\ c_live c = [].

Definition creach (c : client) : Prop := exists c0, cinit c0 /\ rtc cstep c0 c.

(** A live block is the payload of an allocated one. *)
Definition payload (b : Z * Z) (a : Z * Z) : Prop := b.1 = a.1 + 8 /\ 0 <= b.2 <= 8 * (a.2 - 1).

Definition cinv (c : client) : Prop :=
  (fresh (c_st c) /\ c_live c = []) \/
  exists fl al, heap base lo fl al (c_st c) /\ Forall2 payload (c_live c) al.

Implicit Types (s : ust) (live al fl : list (Z * Z)).

(** ** The steps keep the invariant *)

Lemma nunits_range nbytes :
  0 <= nbytes < 2 ^ 31 - 16 ->
  1 <= nunits_of nbytes < 2 ^ 28 /\ nbytes <= 8 * (nunits_of nbytes - 1).
Proof.
  intros H. unfold nunits_of. rewrite (u32_small (nbytes + 8 - 1)) by lia.
  pose proof (Z.div_mod (nbytes + 8 - 1) 8 ltac:(lia)). pose proof (Z.mod_pos_bound (nbytes + 8 - 1) 8 ltac:(lia)).
  rewrite u32_small; lia.
Qed.

(** The free blocks are no more than the break allows. *)
Lemma heap_length fl al s : heap base lo fl al s -> 8 * Z.of_nat (length fl) <= ubrk s - lo.
Proof.
  intros [_ _ _ Hs Hb _ _ Hlo]. apply Forall_app in Hb as [Hb _].
  assert (forall x, lo <= x -> x <= ubrk s -> Forall (fun b => x <= b.1) fl -> 8 * Z.of_nat (length fl) <= ubrk s - x) as H.
  { clear Hlo. induction Hs as [|c fl Hs IH Hc]; intros x Hx Hxb Hall; [cbn; lia|].
    apply Forall_cons in Hb as [Hcb Hb]. apply Forall_cons in Hall as [Hxc _]. cbn [length].
    specialize (IH Hb (c.1 + 8 * c.2) ltac:(lia) ltac:(lia)). lapply IH; [lia|].
    eapply Forall_impl; [exact Hc|]. unfold gap. lia. }
  apply H; [lia|lia|]. eapply Forall_impl; [exact Hb|]. cbn. lia.
Qed.

Lemma enough_heap fuel fl al s : heap base lo fl al s -> enough fuel s -> (2 * length fl + 6 < fuel)%nat.
Proof.
  intros Hh He. pose proof (heap_length _ _ _ Hh). pose proof (hp_lo _ _ _ _ _ Hh). unfold enough in He. lia.
Qed.

(** [malloc] from any state: a fresh process gets its empty ring first. *)
Lemma malloc_spec s live fuel nbytes :
  cinv (mkclient s live) -> enough fuel s -> 0 <= nbytes < 2 ^ 31 - 16 ->
  exists fl0 al s0, heap base lo fl0 al s0 /\ Forall2 payload live al /\ same_on al (um s) (um s0) /\
    ubrk s0 = ubrk s /\
    wp (malloc base grow fuel nbytes) (malloced base lo (nunits_of nbytes) al s0) s.
Proof.
  intros Hinv He Hnb. pose proof (nunits_range nbytes Hnb) as [Hn _]. unfold malloc.
  destruct Hinv as [[(Hf0 & Hb0 & Hbl & Hlb) Hlive]|(fl & al & Hh & Hp)]; cbn [c_st c_live] in *.
  - set (s0 := mkust (store32 (base + 4) 0 (store32 base base (um s))) base (ubrk s)).
    assert (heap base lo [] [] s0) as Hh.
    { split; cbn; try done.
      - split; [done|]. rewrite load32_other, load32_store32, u32_small by (unfold KERNBASE in *; lia). done.
      - by rewrite load32_store32.
      - constructor.
      - by left. }
    exists [], [], s0. subst live. split; [done|]. split; [done|]. split; [constructor|]. split; [done|].
    wp_steps. rewrite Hf0. change (0 =? 0) with true. cbn [when]. unfold set_freep. wp_steps. cbn [um ufreep ubrk].
    apply (malloc_loop_spec base lo grow _ [] [] _ _ _ fuel Hh Hn). eapply (enough_heap fuel [] []); [exact Hh|exact He].
  - exists fl, al, s. split; [done|]. split; [done|]. split; [apply same_on_refl|]. split; [done|].
    assert (ufreep s <> 0) as Hfp.
    { pose proof (hp_freep _ _ _ _ _ Hh) as Hin. pose proof (hp_lo _ _ _ _ _ Hh) as Hlo.
      pose proof (hp_block _ _ _ _ _ Hh) as Hb. apply Forall_app in Hb as [Hb _].
      apply elem_of_cons in Hin as [->|Hin]; [lia|]. apply list_elem_of_fmap in Hin as (c & -> & Hc).
      rewrite Forall_forall in Hb. specialize (Hb c Hc). lia. }
    wp_steps. destruct (Z.eqb_spec (ufreep s) 0); [done|]. cbn [when]. wp_steps.
    destruct s as [m fp br]. cbn [um ufreep ubrk] in *.
    by apply (malloc_loop_spec base lo grow _ fl al); [done|done|eapply enough_heap].
Qed.

(** Stores into the payload of an allocated block meet no header. *)
Lemma heap_user_store fl al s a x v :
  heap base lo fl al s -> a ∈ al -> a.1 + 8 <= x < a.1 + 8 * a.2 ->
  heap base lo fl al (mkust (<[x := v]> (um s)) (ufreep s) (ubrk s)).
Proof.
  intros Hh Ha Hx. pose proof (heap_spaced _ _ _ _ _ Hh) as Hsp.
  assert (forall y, y ∈ base :: (fl ++ al).*1 -> ~ (y <= x < y + 8)) as Hoff.
  { intros y Hy. destruct Hh as [_ _ _ _ Hb Hd _ Hlo]. assert (a ∈ fl ++ al) as Ha' by set_solver.
    pose proof Hb as Hb'. rewrite Forall_forall in Hb'. pose proof (Hb' a Ha') as Hab.
    apply elem_of_cons in Hy as [->|Hy]; [lia|]. apply list_elem_of_fmap in Hy as (c & -> & Hc).
    pose proof (Hb' c Hc) as Hcb. apply list_elem_of_split in Ha' as (l1 & l2 & Hl).
    rewrite Hl in Hc, Hd. assert (l1 ++ a :: l2 ≡ₚ a :: l1 ++ l2) as Hp by solve_Permutation. rewrite Hp in Hc, Hd.
    apply elem_of_cons in Hc as [->|Hc]; [lia|]. destruct Hd as [Hd _]. rewrite Forall_forall in Hd.
    specialize (Hd c Hc). unfold disj in Hd. lia. }
  assert (forall y w, y ∈ base :: (fl ++ al).*1 -> in_header y w -> load32 (<[x := v]> (um s)) w = load32 (um s) w) as Hld.
  { intros y w Hy Hw. apply load32_ext. intros i Hi. specialize (Hoff y Hy). unfold in_header in Hw.
    rewrite fn_lookup_insert_ne; [done|lia]. }
  destruct Hh as [Hring Hbase Hsize Hsort Hblock Hdisj Hfp Hlo]. split; cbn [um ufreep ubrk]; try done.
  - assert (forall l u, (forall y, y ∈ l -> y ∈ base :: (fl ++ al).*1) -> seg (um s) u l base ->
      seg (<[x := v]> (um s)) u l base) as Hseg.
    { induction l as [|y l IH]; intros u Hl; [done|]. intros [-> Hs]. split; [done|].
      rewrite (Hld y y); [|apply Hl; by left|by left]. apply IH; [|done]. intros z Hz. apply Hl. by right. }
    apply Hseg; [|done]. intros y Hy. rewrite fmap_app. set_solver.
  - rewrite (Hld base); [done|by left|by right].
  - rewrite Forall_forall in *. intros c Hc. rewrite (Hld c.1); [by apply Hsize| |by right].
    right. apply list_elem_of_fmap. by exists c.
Qed.

(** The allocated block of a live one. *)
Lemma client_free fl al s l1 p k l2 :
  heap base lo fl al s -> Forall2 payload (l1 ++ (p, k) :: l2) al ->
  exists q n a1 a2, p = q + 8 /\ heap base lo fl ((q, n) :: a1 ++ a2) s /\ Forall2 payload (l1 ++ l2) (a1 ++ a2).
Proof.
  intros Hh Hp. apply Forall2_app_inv_l in Hp as (a1 & a2 & Hp1 & Hp2 & ->).
  apply Forall2_cons_inv_l in Hp2 as ([q n] & a2' & [Hq _] & Hp2 & ->). cbn in Hq. subst p.
  exists q, n, a1, a2'. split; [done|]. split; [|by apply Forall2_app].
  destruct Hh as [? ? Hs1 ? Hs2 Hs3 ? ?].
  assert (fl ++ a1 ++ (q, n) :: a2' ≡ₚ fl ++ (q, n) :: a1 ++ a2') as Hp by solve_Permutation.
  rewrite Hp in Hs1, Hs2, Hs3. by split.
Qed.

Lemma cinv_step c c' : cinv c -> cstep c c' -> cinv c'.
Proof.
  intros Hinv Hs. inversion Hs as [s live fuel nbytes r s' He Hnb E|s l1 p k l2 fuel s' He E|s live b x v Hb Hx]; subst.
  - destruct (malloc_spec _ _ _ _ Hinv He Hnb) as (fl0 & al & s0 & Hh0 & Hp & _ & _ & Hw).
    apply (wp_det _ _ _ _ _ Hw) in E as [[-> ->]|(q & fl' & -> & Hh & _ & _)]; right; cbn [c_st c_live].
    + by exists fl0, al.
    + exists fl', ((q, nunits_of nbytes) :: al). split; [done|].
      assert (0 < q) as Hq.
      { pose proof (hp_block _ _ _ _ _ Hh) as Hb. pose proof (hp_lo _ _ _ _ _ Hh). rewrite Forall_app, Forall_cons in Hb.
        cbn in Hb. lia. }
      destruct (Z.eqb_spec (q + 8) 0); [lia|]. constructor; [|done].
      pose proof (nunits_range nbytes Hnb). unfold payload. cbn. lia.
  - destruct Hinv as [[_ Hl]|(fl & al & Hh & Hp)]; cbn [c_st c_live] in *; [by destruct l1|].
    destruct (client_free _ _ _ _ _ _ _ Hh Hp) as (q & n & a1 & a2 & Hpq & Hh' & Hp'). subst p.
    pose proof (free_spec base lo (q, n) fl (a1 ++ a2) s fuel Hh') as Hw. cbn [fst] in Hw.
    lapply Hw; [|pose proof (enough_heap _ _ _ _ Hh' He); lia]. clear Hw. intros Hw.
    pose proof (wp_det _ _ _ _ _ Hw E) as (fl' & Hh2 & _). right. by exists fl', (a1 ++ a2).
  - destruct Hinv as [[_ Hl]|(fl & al & Hh & Hp)]; cbn [c_st c_live] in *; [subst live; set_solver|].
    right. exists fl, al. split; [|done]. apply list_elem_of_lookup in Hb as [i Hi].
    destruct (Forall2_lookup_l _ _ _ _ _ Hp Hi) as (a & Ha & [Hq Hk]). eapply heap_user_store; [done|by eapply list_elem_of_lookup_2|].
    unfold in_block in Hx. lia.
Qed.

Lemma creach_inv c : creach c -> cinv c.
Proof.
  intros (c0 & [Hf Hl] & Hr). assert (cinv c0) as H0 by (by left). clear Hf Hl.
  induction Hr as [c|c1 c2 c3 Hs _ IH]; [done|]. apply IH. by eapply cinv_step.
Qed.
End client.

(** ** What the program gets *)

(** The live blocks in terms of the allocated ones. *)
Definition apart (b c : Z * Z) : Prop := b.1 + b.2 <= c.1 \/ c.1 + c.2 <= b.1.

Section live.
Context (base lo : Z).
Implicit Types (live al fl : list (Z * Z)) (s : ust).

Lemma payload_apart b c a d : payload b a -> payload c d -> 1 <= a.2 -> 1 <= d.2 -> disj a d -> apart b c.
Proof. unfold payload, disj, apart. lia. Qed.

Lemma disjoint_all_lookup bs i j b c :
  disjoint_all bs -> i <> j -> bs !! i = Some b -> bs !! j = Some c -> disj b c.
Proof.
  revert i j. induction bs as [|x bs IH]; intros i j Hall Hij Hi Hj; [done|].
  destruct Hall as [Hx Hd]. rewrite Forall_forall in Hx.
  destruct i as [|i], j as [|j]; cbn in Hi, Hj; [done| | |by eapply IH; [..|exact Hi|exact Hj]; [|lia]].
  - injection Hi as ->. apply Hx. by eapply list_elem_of_lookup_2.
  - injection Hj as ->. symmetry. apply Hx. by eapply list_elem_of_lookup_2.
Qed.

Lemma live_apart fl al s live i j b c :
  heap base lo fl al s -> Forall2 payload live al -> i <> j ->
  live !! i = Some b -> live !! j = Some c -> apart b c.
Proof.
  intros Hh Hp Hij Hi Hj. destruct (Forall2_lookup_l _ _ _ _ _ Hp Hi) as (a & Ha & Hpa).
  destruct (Forall2_lookup_l _ _ _ _ _ Hp Hj) as (d & Hd & Hpd).
  pose proof (hp_block _ _ _ _ _ Hh) as Hb. apply Forall_app in Hb as [_ Hb]. rewrite Forall_lookup in Hb.
  pose proof (Hb i a Ha). pose proof (Hb j d Hd).
  eapply payload_apart; [exact Hpa|exact Hpd|lia|lia|].
  apply (disjoint_all_lookup (fl ++ al) (length fl + i) (length fl + j)); [apply Hh|lia| |];
    by rewrite lookup_app_r, Nat.add_sub_swap, Nat.sub_diag by lia.
Qed.

Lemma live_inside fl al s live i b :
  heap base lo fl al s -> Forall2 payload live al -> live !! i = Some b -> lo < b.1 /\ 0 <= b.2 /\ b.1 + b.2 <= ubrk s.
Proof.
  intros Hh Hp Hi. destruct (Forall2_lookup_l _ _ _ _ _ Hp Hi) as (a & Ha & Hpa).
  pose proof (hp_block _ _ _ _ _ Hh) as Hb. apply Forall_app in Hb as [_ Hb]. rewrite Forall_lookup in Hb.
  pose proof (Hb i a Ha). unfold payload in Hpa. lia.
Qed.

(** Bytes of a live block are bytes of its allocated one. *)
Lemma live_same al live m m' :
  Forall2 payload live al -> same_on al m m' ->
  forall b x, b ∈ live -> in_block b x -> m' x = m x.
Proof.
  intros Hp Hs b x Hb Hx. apply list_elem_of_lookup in Hb as [i Hi].
  destruct (Forall2_lookup_l _ _ _ _ _ Hp Hi) as (a & Ha & Hpa).
  unfold same_on in Hs. rewrite Forall_lookup in Hs. apply (Hs i a Ha). unfold payload, in_block in *. lia.
Qed.
End live.


(** A process with its heap at 8192. *)
Definition demo_fresh : ust := mkust (fun _ => 0) 0 8192.
Definition demo_malloc : res (Z * ust) := malloc 4096 (fun _ _ => true) 9000 100 demo_fresh.


(** The size is rounded up without a look at overflow: a request of nearly 2^32 bytes gets
    one unit, its header; a little less, and the break of the process is moved down by 8
    bytes, where [malloc] then stores the size of the block it thinks it got. *)
Lemma malloc_overflows :
  nunits_of 0xfffffffc = 1 /\
  (exists r s', malloc 4096 (fun _ _ => true) 9000 0xfffffffc demo_fresh = Ok (r, s') /\ r <> 0) /\
  i32 (nunits_of 0xfffffff0 * 8) = -8.
Proof.
  split; [by vm_compute|]. split; [|by vm_compute].
  destruct (malloc 4096 (fun _ _ => true) 9000 0xfffffffc demo_fresh) as [[r s']| | |] eqn:E;
    try (exfalso; revert E; vm_compute; discriminate).
  exists r, s'. split; [done|]. intros ->.
  assert (match malloc 4096 (fun _ _ => true) 9000 0xfffffffc demo_fresh with Ok (r, _) => r =? 0 | _ => true end = false) as Hz by (by vm_compute).
  by rewrite E in Hz.
Qed.
