(* ===== verification/Sh.v ===== *)
(** The shell ([sh.c]): the tokens, the recursive descent parser, the linked command it builds
    in memory, and its execution.

    A command is a linked structure of nodes in the store [list node]; the pointer to the
    [i]-th node is [S i], and 0 is the null pointer.  Pointers into the line are offsets in
    its buffer.  [malloc] is taken to succeed, as the code takes it. *)

From S2P Require Import Prelude CString Mem ULib USys Printf.
Import ULibSys Printf.

Module Sh.

Definition MAXARGS : nat := 10.

Inductive node :=
| EXEC (argv eargv : list (option nat))
| REDIR (cmd file efile : nat) (mode fd : Z)
| PIPE (left right : nat)
| LIST (left right : nat)
| BACK (cmd : nat).

Definition node_at (ns : list node) (p : nat) : option node :=
  match p with O => None | S i => ns !! i end.
Definition set_node (ns : list node) (p : nat) (n : node) : list node := <[pred p := n]> ns.

(** The last line of each constructor: the address of the new node. *)
Definition alloc (ns : list node) (n : node) : nat * list node := (S (length ns), ns ++ [n]).

Definition panic {A} (s : string) : prog A :=
  do* printf 2 "%s
" [PStr (Some (lit s))];
  Exit.

Definition fork1 : prog Z :=
  let* pid := sys SysFork in
  if pid =? -1 then panic "fork" else Ret pid.

(** ** Constructors *)

Definition execcmd (ns : list node) : nat * list node :=
  alloc ns (EXEC (replicate MAXARGS None) (replicate MAXARGS None)).
Definition redircmd (subcmd file efile : nat) (mode fd : Z) (ns : list node) : nat * list node :=
  alloc ns (REDIR subcmd file efile mode fd).
Definition pipecmd (left right : nat) (ns : list node) : nat * list node := alloc ns (PIPE left right).
Definition listcmd (left right : nat) (ns : list node) : nat * list node := alloc ns (LIST left right).
Definition backcmd (subcmd : nat) (ns : list node) : nat * list node := alloc ns (BACK subcmd).

(** ** Parsing *)

Definition whitespace : list Z := [32; 9; 13; 10; 11].
Definition symbols : list Z := lit "<|>&;()".

(** Whether [strchr] finds [c] in the string [s]. *)
Fixpoint strchr (s : list Z) (c : Z) : bool :=
  match s with
  | [] => false
  | x :: s => if x =? c then true else strchr s c
  end.

Section parse.
Variable buf : list Z.
Variable es : nat.

Definition at_ (s : nat) : prog Z := deref_u (buf !! s).

(** [while(s < es && strchr(whitespace, *s)) s++;], [n] is the number of characters up to [es]. *)
Fixpoint skip (n s : nat) : prog nat :=
  match n with
  | O => Ret s
  | S n => let* c := at_ s in if strchr whitespace c then skip n (S s) else Ret s
  end.

(** [while(s < es && !strchr(whitespace, *s) && !strchr(symbols, *s)) s++;] *)
Fixpoint word (n s : nat) : prog nat :=
  match n with
  | O => Ret s
  | S n =>
      let* c := at_ s in
      if negb (strchr whitespace c) && negb (strchr symbols c) then word n (S s) else Ret s
  end.

(** [ret = *s; switch( *s ){ ... }] *)
Definition switch (s : nat) : prog (Z * nat) :=
  let* c := at_ s in
  if c =? 0 then Ret (c, s)
  else if (c =? 124) || (c =? 40) || (c =? 41) || (c =? 59) || (c =? 38) || (c =? 60) then Ret (c, S s)
  else if c =? 62 then
    let s := S s in
    let* d := at_ s in
    if d =? 62 then Ret (43, S s) else Ret (c, s)
  else let* s := word (es - s) s in Ret (97, s).

(** The token, where it starts and ends, and the new [*ps]. *)
Definition gettoken (s : nat) : prog (Z * nat * nat * nat) :=
  let* q := skip (es - s) s in
  let* (r, eq) := switch q in
  let* s := skip (es - eq) eq in
  Ret (r, q, eq, s).

Definition peek (s : nat) (toks : string) : prog (bool * nat) :=
  let* s := skip (es - s) s in
  let* c := at_ s in
  Ret (negb (c =? 0) && strchr (lit toks) c, s).

Fixpoint parseredirs (fuel : nat) (cmd s : nat) (ns : list node) : prog (nat * nat * list node) :=
  match fuel with
  | O => Spent
  | S fuel =>
      let* (b, s) := peek s "<>" in
      if negb b then Ret (cmd, s, ns) else
      let* (tok, _, _, s) := gettoken s in
      let* (a, q, eq, s) := gettoken s in
      if negb (a =? 97) then panic "missing file for redirection" else
      let (cmd, ns) :=
        if tok =? 60 then redircmd cmd q eq O_RDONLY 0 ns
        else if tok =? 62 then redircmd cmd q eq (Z.lor O_WRONLY O_CREATE) 1 ns
        else if tok =? 43 then redircmd cmd q eq (Z.lor O_WRONLY O_CREATE) 1 ns
        else (cmd, ns) in
      parseredirs fuel cmd s ns
  end.

(** [cmd->argv[argc] = q; cmd->eargv[argc] = eq;] *)
Definition set_arg (ns : list node) (cmd argc : nat) (q eq : option nat) : prog (list node) :=
  match node_at ns cmd with
  | Some (EXEC argv eargv) =>
      if (argc <? length argv)%nat && (argc <? length eargv)%nat
      then Ret (set_node ns cmd (EXEC (<[argc := q]> argv) (<[argc := eq]> eargv)))
      else Crash
  | _ => Crash
  end.

(** The loop of [parseexec]; [cmd] is the node whose arguments are collected, [ret] the
    command around it. *)
Fixpoint parseargs (fuel : nat) (cmd ret argc s : nat) (ns : list node) : prog (nat * nat * list node) :=
  match fuel with
  | O => Spent
  | S fuel =>
      let* (b, s) := peek s "|)&;" in
      if b then let* ns := set_arg ns cmd argc None None in Ret (ret, s, ns) else
      let* (tok, q, eq, s) := gettoken s in
      if tok =? 0 then let* ns := set_arg ns cmd argc None None in Ret (ret, s, ns) else
      if negb (tok =? 97) then panic "syntax" else
      let* ns := set_arg ns cmd argc (Some q) (Some eq) in
      let argc := S argc in
      if (MAXARGS <=? argc)%nat then panic "too many args" else
      let* (ret, s, ns) := parseredirs (S es) ret s ns in
      parseargs fuel cmd ret argc s ns
  end.

(** [while(peek(ps, es, "&")){ gettoken(ps, es, 0, 0); cmd = backcmd(cmd); }] *)
Fixpoint parseback (fuel : nat) (cmd s : nat) (ns : list node) : prog (nat * nat * list node) :=
  match fuel with
  | O => Spent
  | S fuel =>
      let* (b, s) := peek s "&" in
      if negb b then Ret (cmd, s, ns) else
      let* (_, _, _, s) := gettoken s in
      let (cmd, ns) := backcmd cmd ns in
      parseback fuel cmd s ns
  end.

Fixpoint parseline (fuel : nat) (s : nat) (ns : list node) : prog (nat * nat * list node) :=
  match fuel with
  | O => Spent
  | S fuel =>
      let* (cmd, s, ns) := parsepipe fuel s ns in
      let* (cmd, s, ns) := parseback (S es) cmd s ns in
      let* (b, s) := peek s ";" in
      if b then
        let* (_, _, _, s) := gettoken s in
        let* (rt, s, ns) := parseline fuel s ns in
        let (cmd, ns) := listcmd cmd rt ns in
        Ret (cmd, s, ns)
      else Ret (cmd, s, ns)
  end
with parsepipe (fuel : nat) (s : nat) (ns : list node) : prog (nat * nat * list node) :=
  match fuel with
  | O => Spent
  | S fuel =>
      let* (cmd, s, ns) := parseexec fuel s ns in
      let* (b, s) := peek s "|" in
      if b then
        let* (_, _, _, s) := gettoken s in
        let* (rt, s, ns) := parsepipe fuel s ns in
        let (cmd, ns) := pipecmd cmd rt ns in
        Ret (cmd, s, ns)
      else Ret (cmd, s, ns)
  end
with parseexec (fuel : nat) (s : nat) (ns : list node) : prog (nat * nat * list node) :=
  match fuel with
  | O => Spent
  | S fuel =>
      let* (b, s) := peek s "(" in
      if b then parseblock fuel s ns else
      let (cmd, ns) := execcmd ns in
      let* (ret, s, ns) := parseredirs (S es) cmd s ns in
      parseargs (S MAXARGS) cmd ret 0 s ns
  end
with parseblock (fuel : nat) (s : nat) (ns : list node) : prog (nat * nat * list node) :=
  match fuel with
  | O => Spent
  | S fuel =>
      let* (b, s) := peek s "(" in
      if negb b then panic "parseblock" else
      let* (_, _, _, s) := gettoken s in
      let* (cmd, s, ns) := parseline fuel s ns in
      let* (b, s) := peek s ")" in
      if negb b then panic "syntax - missing )" else
      let* (_, _, _, s) := gettoken s in
      parseredirs (S es) cmd s ns
  end.
End parse.

(** [for(i=0; ecmd->argv[i]; i++) *ecmd->eargv[i] = 0;] *)
Fixpoint nul_args (argv eargv : list (option nat)) (buf : list Z) : prog (list Z) :=
  match argv, eargv with
  | Some _ :: argv, Some e :: eargv => let* buf := put e 0 buf in nul_args argv eargv buf
  | None :: _, _ => Ret buf
  | _, _ => Crash
  end.

Fixpoint nulterminate (fuel : nat) (ns : list node) (cmd : nat) (buf : list Z) : prog (list Z) :=
  match fuel with
  | O => Spent
  | S fuel =>
      if (cmd =? 0)%nat then Ret buf else
      let* n := deref_u (node_at ns cmd) in
      match n with
      | EXEC argv eargv => nul_args argv eargv buf
      | REDIR c _ efile _ _ => let* buf := nulterminate fuel ns c buf in put efile 0 buf
      | PIPE l r | LIST l r => let* buf := nulterminate fuel ns l buf in nulterminate fuel ns r buf
      | BACK c => nulterminate fuel ns c buf
      end
  end.

(** A level of the grammar takes a call, and a parenthesis four. *)
Definition parse_fuel (es : nat) : nat := (4 * es + 8)%nat.

(** The command, the nodes, and the line with the ends of the words cut off. *)
Definition parsecmd (buf : list Z) (ns : list node) : prog (nat * list node * list Z) :=
  let es := length (cstring buf) in
  let* (cmd, s, ns) := parseline buf es (parse_fuel es) 0 ns in
  let* (_, s) := peek buf es s "" in
  if negb (s =? es)%nat then
    do* printf 2 "leftovers: %s
" [PStr (Some (cstring (drop s buf)))];
    panic "syntax"
  else
    let* buf := nulterminate (S (length ns)) ns cmd buf in
    Ret (cmd, ns, buf).

(** ** Execution *)

(** The strings [exec] finds in [argv]. *)
Fixpoint arg_strings (argv : list (option nat)) (buf : list Z) : option (list (list Z)) :=
  match argv with
  | Some q :: argv => l ← arg_strings argv buf; Some (cstring (drop q buf) :: l)
  | None :: _ => Some []
  | [] => None
  end.

Fixpoint runcmd (fuel : nat) (ns : list node) (buf : list Z) (cmd : nat) : prog unit :=
  match fuel with
  | O => Spent
  | S fuel =>
      if (cmd =? 0)%nat then Exit else
      let* n := deref_u (node_at ns cmd) in
      match n with
      | EXEC argv _ =>
          let* a0 := deref_u (argv !! 0%nat) in
          match a0 with
          | None => Exit
          | Some a0 =>
              let* args := deref_u (arg_strings argv buf) in
              do* sys (SysExec (cstring (drop a0 buf)) args);
              do* printf 2 "exec %s failed
" [PStr (Some (cstring (drop a0 buf)))];
              Exit
          end
      | REDIR c file _ mode fd =>
          do* sys (SysClose fd);
          let* r := sys (SysOpen (cstring (drop file buf)) mode) in
          if r <? 0 then
            do* printf 2 "open %s failed
" [PStr (Some (cstring (drop file buf)))];
            Exit
          else
            do* runcmd fuel ns buf c;
            Exit
      | LIST l r =>
          let* pid := fork1 in
          do* (if pid =? 0 then runcmd fuel ns buf l else Ret tt);
          do* sys SysWait;
          do* runcmd fuel ns buf r;
          Exit
      | PIPE l r =>
          Sys SysPipe (fun ret p =>
            if ret <? 0 then panic "pipe" else
            let* p0 := deref_u (p !! 0%nat) in
            let* p1 := deref_u (p !! 1%nat) in
            let* pid := fork1 in
            do* (if pid =? 0 then
                   do* sys (SysClose 1);
                   do* sys (SysDup p1);
                   do* sys (SysClose p0);
                   do* sys (SysClose p1);
                   runcmd fuel ns buf l
                 else Ret tt);
            let* pid := fork1 in
            do* (if pid =? 0 then
                   do* sys (SysClose 0);
                   do* sys (SysDup p0);
                   do* sys (SysClose p0);
                   do* sys (SysClose p1);
                   runcmd fuel ns buf r
                 else Ret tt);
            do* sys (SysClose p0);
            do* sys (SysClose p1);
            do* sys SysWait;
            do* sys SysWait;
            Exit)
      | BACK c =>
          let* pid := fork1 in
          do* (if pid =? 0 then runcmd fuel ns buf c else Ret tt);
          Exit
      end
  end.

Definition getcmd (buf : list Z) (nbuf : Z) : prog (Z * list Z) :=
  do* printf 2 "$ " [];
  let buf := replicate (Z.to_nat nbuf) 0 in
  let* buf := gets buf nbuf in
  let* c := deref_u (buf !! 0%nat) in
  Ret (if c =? 0 then -1 else 0, buf).

(** [while((fd = open("console", O_RDWR)) >= 0)]. *)
Fixpoint open_console (fuel : nat) : prog unit :=
  match fuel with
  | O => Spent
  | S fuel =>
      let* fd := sys (SysOpen (lit "console") O_RDWR) in
      if fd >=? 0 then
        if fd >=? 3 then do* sys (SysClose fd); Ret tt else open_console fuel
      else Ret tt
  end.

(** What the child does with a line: [runcmd(parsecmd(buf))]. *)
Definition child (buf : list Z) : prog unit :=
  let* (cmd, ns, buf) := parsecmd buf [] in
  runcmd (S (length ns)) ns buf cmd.

(** What the loop of [main] does with a line other than [cd]; the child has its own copy of
    the memory. *)
Definition spawn (buf : list Z) : prog unit :=
  let* pid := fork1 in
  do* (if pid =? 0 then child buf else Ret tt);
  do* sys SysWait;
  Ret tt.

Fixpoint main_loop (fuel : nat) (buf : list Z) : prog unit :=
  match fuel with
  | O => Spent
  | S fuel =>
      let* (r, buf) := getcmd buf 100 in
      if r >=? 0 then
        let* b0 := deref_u (buf !! 0%nat) in
        let* b1 := deref_u (buf !! 1%nat) in
        let* b2 := deref_u (buf !! 2%nat) in
        if (b0 =? 99) && (b1 =? 100) && (b2 =? 32) then
          let* buf := put (length (cstring buf) - 1) 0 buf in
          let* r := sys (SysChdir (cstring (drop 3 buf))) in
          do* (if r <? 0 then printf 2 "cannot cd %s
" [PStr (Some (cstring (drop 3 buf)))] else Ret tt);
          main_loop fuel buf
        else
          do* spawn buf;
          main_loop fuel buf
      else Exit
  end.

Definition main (fuel : nat) : prog unit :=
  do* open_console fuel;
  main_loop fuel (replicate 100 0).

End Sh.
