(* ===== verification/ShLang.v ===== *)
(** The language of the shell: its tokens, its grammar, and a recursive descent over tokens
    that finds exactly the commands of the grammar. *)

From S2P Require Import Prelude CString Mem ULib USys Printf Sh.
Import ULibSys Printf Sh.

(** * The language *)

Definition blank (c : Z) : bool := strchr whitespace c.
Definition symbol (c : Z) : bool := strchr symbols c.
Definition wordchar (c : Z) : bool := negb (c =? 0) && negb (blank c) && negb (symbol c).
#[global] Arguments blank : simpl never.
#[global] Arguments symbol : simpl never.
#[global] Arguments wordchar : simpl never.

Inductive token := Sym (c : Z) | App | Word (w : list Z).

(** A word is as long as possible, and so is [>>]. *)
Fixpoint lex (l : list Z) : list token :=
  match l with
  | [] => []
  | c :: l' =>
      if blank c then lex l'
      else if symbol c then
        match l' with
        | d :: l'' => if (c =? 62) && (d =? 62) then App :: lex l'' else Sym c :: lex l'
        | [] => [Sym c]
        end
      else
        match lex l' with
        | Word w :: ts => match l' with
                          | d :: _ => if wordchar d then Word (c :: w) :: ts else Word [c] :: Word w :: ts
                          | [] => []
                          end
        | ts => Word [c] :: ts
        end
  end.

Inductive direction := From | Onto | After.
Definition redir : Type := direction * list Z.
Inductive item := Arg (w : list Z) | Rd (r : redir).

Inductive syntax :=
| Simple (items : list item)
| Block (l : syntax) (rs : list redir)
| Pipe (l r : syntax)
| Back (l : syntax)
| Seq (l r : syntax).

Definition dir_token (d : direction) : token :=
  match d with From => Sym 60 | Onto => Sym 62 | After => App end.
Definition redir_tokens (r : redir) : list token := [dir_token r.1; Word r.2].
Definition item_tokens (i : item) : list token :=
  match i with Arg w => [Word w] | Rd r => redir_tokens r end.

Fixpoint spell (c : syntax) : list token :=
  match c with
  | Simple items => items ≫= item_tokens
  | Block l rs => Sym 40 :: spell l ++ Sym 41 :: (rs ≫= redir_tokens)
  | Pipe l r => spell l ++ Sym 124 :: spell r
  | Back l => spell l ++ [Sym 38]
  | Seq l r => spell l ++ Sym 59 :: spell r
  end.

Definition args (items : list item) : list (list Z) := items ≫= (fun i => match i with Arg w => [w] | Rd _ => [] end).
Definition redirs (items : list item) : list redir := items ≫= (fun i => match i with Arg _ => [] | Rd r => [r] end).

(** How tightly a construct binds, and the commands the grammar has. *)
Definition level (c : syntax) : nat :=
  match c with Simple _ | Block _ _ => 0 | Pipe _ _ => 1 | Back _ => 2 | Seq _ _ => 3 end.
Fixpoint grammatical (c : syntax) : bool :=
  match c with
  | Simple items => (length (args items) <? MAXARGS)%nat
  | Block l _ => grammatical l
  | Pipe l r => grammatical l && (level l =? 0)%nat && grammatical r && (level r <=? 1)%nat
  | Back l => grammatical l && (level l <=? 2)%nat
  | Seq l r => grammatical l && (level l <=? 2)%nat && grammatical r
  end.

(** The commands. *)
Inductive command :=
| Exec (argv : list (list Z))
| Redirect (c : command) (file : list Z) (mode fd : Z)
| PipeC (l r : command)
| ListC (l r : command)
| BackC (c : command).

Definition redirect (c : command) (r : redir) : command :=
  match r with
  | (From, f) => Redirect c f O_RDONLY 0
  | (_, f) => Redirect c f (Z.lor O_WRONLY O_CREATE) 1
  end.

Fixpoint meaning (c : syntax) : command :=
  match c with
  | Simple items => foldl redirect (Exec (args items)) (redirs items)
  | Block l rs => foldl redirect (meaning l) rs
  | Pipe l r => PipeC (meaning l) (meaning r)
  | Back l => BackC (meaning l)
  | Seq l r => ListC (meaning l) (meaning r)
  end.

(** * Descent on tokens *)

Fixpoint rd_redirs (ts : list token) : option (list redir * list token) :=
  match ts with
  | [] => Some ([], [])
  | t :: ts1 =>
      match t with
      | Word _ => Some ([], ts)
      | Sym c =>
          if (c =? 60) || (c =? 62) then
            match ts1 with
            | Word w :: ts2 => r ← rd_redirs ts2; Some ((if c =? 60 then From else Onto, w) :: r.1, r.2)
            | _ => None
            end
          else Some ([], ts)
      | App =>
          match ts1 with
          | Word w :: ts2 => r ← rd_redirs ts2; Some ((After, w) :: r.1, r.2)
          | _ => None
          end
      end
  end.

(** The arguments of a simple command, [room] of which may still come. *)
Fixpoint rd_args (room : nat) (ts : list token) : option (list item * list token) :=
  match ts with
  | [] => Some ([], [])
  | Sym c :: _ => if strchr (lit "|)&;") c then Some ([], ts) else None
  | App :: _ => None
  | Word w :: ts =>
      match room with
      | O => None
      | S room => r1 ← rd_redirs ts; r2 ← rd_args room r1.2; Some (Arg w :: (Rd <$> r1.1) ++ r2.1, r2.2)
      end
  end.

Definition rd_items (room : nat) (ts : list token) : option (list item * list token) :=
  r1 ← rd_redirs ts; r2 ← rd_args room r1.2; Some ((Rd <$> r1.1) ++ r2.1, r2.2).

Fixpoint rd_back (c : syntax) (ts : list token) : syntax * list token :=
  match ts with
  | Sym x :: ts1 => if x =? 38 then rd_back (Back c) ts1 else (c, ts)
  | _ => (c, ts)
  end.

Definition begins (x : Z) (ts : list token) : bool :=
  match ts with Sym c :: _ => c =? x | _ => false end.

Fixpoint rd_line (fuel : nat) (ts : list token) : option (syntax * list token) :=
  match fuel with
  | O => None
  | S fuel =>
      r1 ← rd_pipe fuel ts;
      let r2 := rd_back r1.1 r1.2 in
      if begins 59 r2.2 then r3 ← rd_line fuel (tail r2.2); Some (Seq r2.1 r3.1, r3.2) else Some r2
  end
with rd_pipe (fuel : nat) (ts : list token) : option (syntax * list token) :=
  match fuel with
  | O => None
  | S fuel =>
      r1 ← rd_exec fuel ts;
      if begins 124 r1.2 then r3 ← rd_pipe fuel (tail r1.2); Some (Pipe r1.1 r3.1, r3.2) else Some r1
  end
with rd_exec (fuel : nat) (ts : list token) : option (syntax * list token) :=
  match fuel with
  | O => None
  | S fuel =>
      if begins 40 ts then rd_block fuel ts else
      r1 ← rd_items (pred MAXARGS) ts; Some (Simple r1.1, r1.2)
  end
with rd_block (fuel : nat) (ts : list token) : option (syntax * list token) :=
  match fuel with
  | O => None
  | S fuel =>
      if begins 40 ts then
        r1 ← rd_line fuel (tail ts);
        if begins 41 r1.2 then r2 ← rd_redirs (tail r1.2); Some (Block r1.1 r2.1, r2.2) else None
      else None
  end.

Lemma items_rd (rs : list redir) : (Rd <$> rs) ≫= item_tokens = rs ≫= redir_tokens.
Proof. by induction rs as [|r rs IH]; cbn; [|rewrite IH]. Qed.
Lemma args_app l1 l2 : args (l1 ++ l2) = args l1 ++ args l2.
Proof. apply bind_app. Qed.
Lemma args_rd rs : args (Rd <$> rs) = [].
Proof. by induction rs. Qed.
Lemma redirs_app l1 l2 : redirs (l1 ++ l2) = redirs l1 ++ redirs l2.
Proof. apply bind_app. Qed.
Lemma redirs_rd rs : redirs (Rd <$> rs) = rs.
Proof. induction rs as [|r rs IH]; [done|]. cbn. by f_equal. Qed.

(** ** It finds only what the grammar has *)

Lemma rd_redirs_sound ts rs rest : rd_redirs ts = Some (rs, rest) -> ts = (rs ≫= redir_tokens) ++ rest.
Proof.
  revert rs rest. induction ts as [ts IH] using (induction_ltof1 _ length). unfold ltof in IH.
  intros rs rest. destruct ts as [|t ts]; [by intros [= <- <-]|]. cbn [rd_redirs].
  destruct t as [c| |w]; [|..]; [destruct ((c =? 60) || (c =? 62)) eqn:Ec; [|by intros [= <- <-]]|..|by intros [= <- <-]];
    (destruct ts as [|[| |w] ts]; [done..|]); destruct (rd_redirs ts) as [[rs1 rest1]|] eqn:E; try done; cbn;
    intros [= <- <-]; rewrite (IH ts ltac:(cbn; lia) _ _ E); cbn; [|done].
  f_equal. unfold dir_token. cbn. destruct (Z.eqb_spec c 60); [by subst|]. destruct (Z.eqb_spec c 62); by subst.
Qed.

Lemma rd_args_sound room ts items rest :
  rd_args room ts = Some (items, rest) -> ts = (items ≫= item_tokens) ++ rest /\ (length (args items) <= room)%nat.
Proof.
  revert ts items rest. induction room as [|room IH]; intros [|[c| |w] ts] items rest; cbn [rd_args]; try done;
    try (intros [= <- <-]; cbn; split; [done|lia]).
  1, 2: destruct (strchr _ c); [intros [= <- <-]; cbn; split; [done|lia]|done].
  destruct (rd_redirs ts) as [[rs r1]|] eqn:E1; [|done]. cbn. destruct (rd_args room r1) as [[its r2]|] eqn:E2; [|done].
  cbn. intros [= <- <-]. destruct (IH _ _ _ E2) as [-> Hl]. rewrite (rd_redirs_sound _ _ _ E1). split.
  - cbn. by rewrite bind_app, items_rd, app_assoc.
  - change (args (Arg w :: (Rd <$> rs) ++ its)) with (w :: args ((Rd <$> rs) ++ its)).
    rewrite args_app, args_rd. cbn. lia.
Qed.

Lemma rd_items_sound room ts items rest :
  rd_items room ts = Some (items, rest) -> ts = (items ≫= item_tokens) ++ rest /\ (length (args items) <= room)%nat.
Proof.
  unfold rd_items. destruct (rd_redirs ts) as [[rs r1]|] eqn:E1; [|done]. cbn.
  destruct (rd_args room r1) as [[its r2]|] eqn:E2; [|done]. cbn. intros [= <- <-].
  destruct (rd_args_sound _ _ _ _ E2) as [-> Hl]. rewrite (rd_redirs_sound _ _ _ E1), args_app, args_rd. split; [|done].
  by rewrite bind_app, items_rd, app_assoc.
Qed.

Lemma rd_back_sound c ts : let r := rd_back c ts in
  grammatical c -> (level c <= 2)%nat -> spell c ++ ts = spell r.1 ++ r.2 /\ grammatical r.1 /\ (level r.1 <= 2)%nat.
Proof.
  cbn zeta. revert c. induction ts as [|[x| |w] ts IH]; intros c Hg Hl; cbn [rd_back]; try done.
  destruct (Z.eqb_spec x 38) as [->|]; [|done].
  destruct (IH (Back c)) as (<- & H1 & H2); [|cbn; lia|split; [|done]].
  - cbn. apply Is_true_true. rewrite (Is_true_true_1 _ Hg). by apply Nat.leb_le.
  - cbn. by rewrite <- app_assoc.
Qed.

Lemma begins_cons x ts : begins x ts -> ts = Sym x :: tail ts.
Proof. destruct ts as [|[c| |w] ts]; cbn; try done. intros E. apply Is_true_true in E. zb. by subst. Qed.

Lemma rd_sound fuel ts c rest :
  (rd_line fuel ts = Some (c, rest) -> ts = spell c ++ rest /\ grammatical c) /\
  (rd_pipe fuel ts = Some (c, rest) -> ts = spell c ++ rest /\ grammatical c /\ (level c <= 1)%nat) /\
  (rd_exec fuel ts = Some (c, rest) -> ts = spell c ++ rest /\ grammatical c /\ level c = 0%nat) /\
  (rd_block fuel ts = Some (c, rest) -> ts = spell c ++ rest /\ grammatical c /\ level c = 0%nat).
Proof.
  revert ts c rest. induction fuel as [|fuel IH]; intros ts c rest; [done|].
  cbn [rd_line rd_pipe rd_exec rd_block]. split; [|split; [|split]].
  - destruct (rd_pipe fuel ts) as [[c1 t1]|] eqn:E1; [|done]. cbn. apply IH in E1 as (-> & G1 & L1).
    pose proof (rd_back_sound c1 t1 G1 ltac:(lia)) as (Hs & G2 & L2). rewrite Hs.
    destruct (rd_back c1 t1) as [c2 t2]. cbn [fst snd] in *. destruct (begins 59 t2) eqn:Eb; [|by intros [= <- <-]].
    apply Is_true_true, begins_cons in Eb. destruct (rd_line fuel (tail t2)) as [[c3 t3]|] eqn:E3; [|done]. cbn.
    intros [= <- <-]. apply IH in E3 as (E3 & G3). rewrite Eb, E3. cbn. rewrite <- app_assoc. split; [done|].
    repeat (apply andb_True; split); try done. apply Is_true_true. by apply Nat.leb_le.
  - destruct (rd_exec fuel ts) as [[c1 t1]|] eqn:E1; [|done]. cbn. apply IH in E1 as (-> & G1 & L1).
    destruct (begins 124 t1) eqn:Eb; [|intros [= <- <-]; rewrite L1; auto with lia].
    apply Is_true_true, begins_cons in Eb. destruct (rd_pipe fuel (tail t1)) as [[c3 t3]|] eqn:E3; [|done]. cbn.
    intros [= <- <-]. apply IH in E3 as (E3 & G3 & L3). rewrite Eb, E3. cbn. rewrite <- app_assoc. split; [done|].
    split; [|done]. repeat (apply andb_True; split); try done; apply Is_true_true; [by rewrite L1|by apply Nat.leb_le].
  - destruct (begins 40 ts); [by apply IH|]. destruct (rd_items _ ts) as [[its t1]|] eqn:E1; [|done]. cbn.
    intros [= <- <-]. apply rd_items_sound in E1 as [-> Hl]. cbn. split; [done|]. split; [|done].
    apply Is_true_true. apply Nat.leb_le. unfold MAXARGS in Hl. lia.
  - destruct (begins 40 ts) eqn:Eb; [|done]. apply Is_true_true, begins_cons in Eb.
    destruct (rd_line fuel (tail ts)) as [[c1 t1]|] eqn:E1; [|done]. cbn. apply IH in E1 as (E1 & G1).
    destruct (begins 41 t1) eqn:Eb1; [|done]. apply Is_true_true, begins_cons in Eb1.
    destruct (rd_redirs (tail t1)) as [[rs t2]|] eqn:E2; [|done]. cbn. intros [= <- <-]. apply rd_redirs_sound in E2.
    rewrite Eb, E1, Eb1, E2. cbn. rewrite <- app_assoc. done.
Qed.

(** ** It finds all of it *)

(** What may follow a simple command, and what a redirection does not start with. *)
Definition stops (ts : list token) : bool :=
  match ts with [] => true | Sym c :: _ => strchr (lit "|)&;") c | _ => false end.

Lemma rd_redirs_stop ts : stops ts -> rd_redirs ts = Some ([], ts).
Proof.
  destruct ts as [|[c| |w] ts]; cbn; try done. destruct (Z.eqb_spec c 60); [by subst|]. destruct (Z.eqb_spec c 62); [by subst|]. done.
Qed.

Lemma rd_redirs_cons r ts : rd_redirs (redir_tokens r ++ ts) = (x ← rd_redirs ts; Some (r :: x.1, x.2)).
Proof. destruct r as [[] w]; done. Qed.

Lemma rd_redirs_complete rs rest : stops rest -> rd_redirs ((rs ≫= redir_tokens) ++ rest) = Some (rs, rest).
Proof.
  intros Hs. induction rs as [|r rs IH]; [by apply rd_redirs_stop|].
  change ((r :: rs) ≫= redir_tokens) with (redir_tokens r ++ (rs ≫= redir_tokens)).
  rewrite <- app_assoc, rd_redirs_cons, IH. done.
Qed.

Lemma rd_items_complete items room rest :
  stops rest -> (length (args items) <= room)%nat -> rd_items room ((items ≫= item_tokens) ++ rest) = Some (items, rest).
Proof.
  intros Hs. revert room. induction items as [|i items IH]; intros room Hl.
  - cbn [mbind list_bind app]. unfold rd_items. rewrite rd_redirs_stop by done. cbn.
    destruct rest as [|[c| |w] rest]; cbn in Hs; try done; destruct room; cbn; try done; apply Is_true_true in Hs; by rewrite Hs.
  - change ((i :: items) ≫= item_tokens) with (item_tokens i ++ (items ≫= item_tokens)). rewrite <- app_assoc.
    destruct i as [w|r].
    + change (args (Arg w :: items)) with (w :: args items) in Hl. cbn [length] in Hl. destruct room as [|room]; [lia|].
      specialize (IH room ltac:(lia)). unfold rd_items in *. cbn. destruct (rd_redirs _) as [r1|]; [|done]. cbn in *.
      destruct (rd_args room r1.2) as [r2|]; [|done]. cbn in *. injection IH as IH1 IH2. by rewrite IH1, IH2.
    + specialize (IH room Hl). unfold rd_items in *. cbn [item_tokens]. rewrite rd_redirs_cons.
      destruct (rd_redirs _) as [r1|]; [|done]. cbn in *. destruct (rd_args room r1.2) as [r2|]; [|done]. cbn in *.
      injection IH as IH1 IH2. by rewrite IH1, IH2.
Qed.

(** A command at the level of [&] is one of the level of pipes in the background, any number
    of times. *)
Lemma backs_of c : grammatical c -> (level c <= 2)%nat ->
  exists c0 n, grammatical c0 /\ (level c0 <= 1)%nat /\ spell c = spell c0 ++ replicate n (Sym 38) /\
    forall ts, rd_back c0 (replicate n (Sym 38) ++ ts) = rd_back c ts.
Proof.
  induction c as [its|l _ rs|l _ r _|l IH|l _ r _]; intros Hg Hl; cbn in Hl; try lia.
  1-3: by eexists _, 0%nat; split; [exact Hg|]; split; [cbn; lia|]; split; [by rewrite app_nil_r|done].
  cbn in Hg. apply andb_True in Hg as [Hg Hlv]. apply Is_true_true, Nat.leb_le in Hlv.
  destruct (IH Hg Hlv) as (c0 & n & G & L & E & R). exists c0, (S n). split; [done|]. split; [done|]. rewrite replicate_S_end. split.
  - cbn [spell]. by rewrite E, app_assoc.
  - intros ts. rewrite <- app_assoc. by rewrite R.
Qed.

Lemma rd_back_stop c ts : negb (begins 38 ts) -> rd_back c ts = (c, ts).
Proof. destruct ts as [|[x| |w] ts]; try done. cbn. by destruct (x =? 38). Qed.

Lemma rd_complete fuel c rest :
  grammatical c ->
  ((4 * length (spell c) + 4 <= fuel)%nat -> match rest with [] => true | _ => begins 41 rest end ->
    rd_line fuel (spell c ++ rest) = Some (c, rest)) /\
  ((4 * length (spell c) + 3 <= fuel)%nat -> (level c <= 1)%nat -> stops rest -> negb (begins 124 rest) ->
    rd_pipe fuel (spell c ++ rest) = Some (c, rest)) /\
  ((4 * length (spell c) + 2 <= fuel)%nat -> level c = 0%nat -> stops rest -> rd_exec fuel (spell c ++ rest) = Some (c, rest)) /\
  ((4 * length (spell c) + 1 <= fuel)%nat -> (exists l rs, c = Block l rs) -> stops rest ->
    rd_block fuel (spell c ++ rest) = Some (c, rest)).
Proof.
  revert c rest. induction fuel as [|fuel IH]; intros c rest Hg.
  { split; [lia|]. split; [lia|]. split; lia. }
  cbn [rd_line rd_pipe rd_exec rd_block]. split; [|split; [|split]].
  - intros Hf Hr. assert (stops rest /\ begins 38 rest = false /\ begins 124 rest = false /\ begins 59 rest = false) as (S1 & S2 & S3 & S4).
    { destruct rest as [|[x| |w] rest]; try done. cbn in Hr. apply Is_true_true, Z.eqb_eq in Hr as ->. done. }
    destruct (decide (level c <= 2)%nat) as [Hl|Hl].
    + destruct (backs_of c Hg Hl) as (c0 & n & G0 & L0 & E0 & R0). rewrite E0, <- app_assoc. rewrite E0, length_app in Hf.
      rewrite (proj1 (proj2 (IH c0 _ G0))); [|lia|done|destruct n; done|destruct n; [cbn [replicate app]; by rewrite S3|done]].
      cbn. rewrite R0, rd_back_stop by by rewrite S2. cbn. by rewrite S4.
    + destruct c as [| | | |l r]; cbn in Hl; try lia. cbn in Hg. apply andb_True in Hg as [Hg Hgr]. apply andb_True in Hg as [Hgl Hll].
      apply Is_true_true, Nat.leb_le in Hll. destruct (backs_of l Hgl Hll) as (c0 & n & G0 & L0 & E0 & R0).
      cbn [spell] in *. rewrite E0, <- !app_assoc. rewrite E0, !length_app in Hf. cbn in Hf.
      rewrite (proj1 (proj2 (IH c0 _ G0))); [|lia|done|destruct n; done|destruct n; done].
      cbn. rewrite R0, rd_back_stop by done. cbn. rewrite (proj1 (IH r rest Hgr)) by (done || lia). done.
  - intros Hf Hl Hs Hb. destruct (decide (level c = 0)%nat) as [L0|L0].
    + rewrite (proj1 (proj2 (proj2 (IH c rest Hg)))) by (done || lia). cbn. apply negb_True in Hb. by destruct (begins 124 rest).
    + destruct c as [| |l r| |]; cbn in Hl, L0; try lia. cbn in Hg. apply andb_True in Hg as [Hg Hlr]. apply andb_True in Hg as [Hg Hgr].
      apply andb_True in Hg as [Hgl Hll]. apply Is_true_true, Nat.eqb_eq in Hll. apply Is_true_true, Nat.leb_le in Hlr.
      cbn [spell] in *. rewrite <- app_assoc. rewrite length_app in Hf. cbn in Hf.
      rewrite (proj1 (proj2 (proj2 (IH l _ Hgl)))) by (done || lia). cbn.
      rewrite (proj1 (proj2 (IH r rest Hgr))) by (done || lia). done.
  - intros Hf L0 Hs. destruct c as [its|l rs| | |]; cbn in L0; try done.
    + assert (begins 40 (spell (Simple its) ++ rest) = false) as ->.
      { destruct its as [|[w|[[] w]] its]; try done. cbn. destruct rest as [|[x| |w] rest]; try done. cbn in *.
        destruct (Z.eqb_spec x 40); [by subst|done]. }
      cbn [spell]. cbn in Hg. apply Is_true_true, Nat.leb_le in Hg. rewrite rd_items_complete by (done || (cbn; lia)). done.
    + cbn [spell app begins Z.eqb Pos.eqb]. apply (IH (Block l rs) rest Hg); [lia|eauto|done].
  - intros Hf (l & rs & ->) Hs. cbn [spell app begins Z.eqb Pos.eqb tail] in *. rewrite <- app_assoc.
    cbn [length] in Hf. rewrite length_app in Hf. cbn in Hg. rewrite (proj1 (IH l _ Hg)) by (done || lia). cbn.
    by rewrite rd_redirs_complete.
Qed.
