(* ===== verification/ShProps.v ===== *)
(** What the shell understands: the lines [parsecmd] accepts are exactly those of a grammar,
    the command in memory is the one the line spells, and the child that runs it does what the
    command says and ends. *)

From S2P Require Import Prelude CString Mem ULib USys Printf Sh ShLang.
Import ULibSys Printf Sh.

(** * The parser on a line *)

(** Whatever the kernel answers, the program comes to its [exit].  [fits] is what the answers
    owe to their type: [pipe] stores two descriptors. *)
Definition fits (c : call) (r : Z) (d : list Z) : Prop :=
  match c with SysPipe => r < 0 \/ length d = 2%nat | _ => True end.
Fixpoint ends {A} (Q : A -> Prop) (p : prog A) : Prop :=
  match p with
  | Ret a => Q a
  | Exit => True
  | Crash | Spent => False
  | Sys c k => forall r d, fits c r d -> ends Q (k r d)
  end.
Definition exits {A} (p : prog A) : Prop := ends (fun _ => False) p.

Lemma ends_bind {A B} (Q : A -> Prop) (R : B -> Prop) (p : prog A) f :
  ends Q p -> (forall a, Q a -> ends R (f a)) -> ends R (pbind p f).
Proof. induction p; cbn; auto. Qed.
Lemma exits_bind {A B} (p : prog A) (f : A -> prog B) : exits p -> exits (pbind p f).
Proof. intros H. by eapply ends_bind. Qed.

Lemma ends_putc fd c : ends (fun _ => True) (putc fd c).
Proof. done. Qed.
Lemma ends_puts fd s : ends (fun _ => True) (puts fd s).
Proof. induction s as [|c s IH]; [done|]. cbn. auto. Qed.

(** The formats of the shell: characters and strings. *)
Fixpoint plain_format (fmt : list Z) (state : bool) (ap : list parg) : bool :=
  match fmt with
  | [] => true
  | c :: fmt =>
      if negb state then plain_format fmt (Z.land c 0xff =? 37) ap
      else (Z.land c 0xff =? 115) && match ap with PStr _ :: ap => plain_format fmt false ap | _ => false end
  end.

Lemma ends_printf_loop junk fd fmt state ap :
  plain_format fmt state ap -> ends (fun _ => True) (printf_loop junk fd fmt state ap).
Proof.
  revert state ap. induction fmt as [|c fmt IH]; intros state ap Hp; [done|]. cbn [plain_format printf_loop] in *.
  cbn zeta. destruct state; cbn [negb] in *.
  - apply andb_True in Hp as [Hc Hp]. apply Is_true_true, Z.eqb_eq in Hc. rewrite Hc. cbn.
    destruct ap as [|[z|s] ap]; try done. eapply ends_bind; [apply ends_puts|]. intros _ _. by apply IH.
  - destruct (Z.land c 255 =? 37) eqn:E; [by apply IH|]. eapply ends_bind; [apply ends_putc|]. intros _ _. by apply IH.
Qed.

Lemma ends_printf {A} (Q : A -> Prop) fd fmt ap k :
  plain_format (lit fmt) false ap -> ends Q k -> ends Q (do* printf fd fmt ap; k).
Proof. intros Hp Hk. eapply ends_bind; [by apply ends_printf_loop|]. done. Qed.

Lemma exits_panic {A} s : exits (panic s : prog A).
Proof. by apply ends_printf. Qed.

(** ** Commands in memory *)

(** An argument array with [l] in front. *)
Definition slots (l : list nat) : list (option nat) := (Some <$> l) ++ replicate (MAXARGS - length l) None.

Lemma slots_set l q : (length l < MAXARGS)%nat -> <[length l := Some q]> (slots l) = slots (l ++ [q]).
Proof.
  intros Hl. unfold slots. rewrite fmap_app, <- (length_fmap Some l), insert_app_r_alt, Nat.sub_diag by done.
  rewrite length_fmap, length_app. cbn [length]. destruct (MAXARGS - length l)%nat as [|n] eqn:E; [lia|].
  replace (MAXARGS - (length l + 1))%nat with n by lia. by rewrite <- app_assoc.
Qed.
Lemma slots_end l : <[length l := None]> (slots l) = slots l.
Proof.
  apply list_insert_id'. intros Hl. unfold slots in *. rewrite length_app, length_fmap, length_replicate in Hl.
  rewrite lookup_app_r, length_fmap, Nat.sub_diag by (by rewrite length_fmap). apply lookup_replicate_2. lia.
Qed.
Lemma length_slots l : (length l <= MAXARGS)%nat -> length (slots l) = MAXARGS.
Proof. intros Hl. unfold slots. rewrite length_app, length_fmap, length_replicate. lia. Qed.

Section rep.
Variable W : nat -> nat -> list Z -> Prop.

(** The nodes that hold a command, below [p]; [W q e w] is what it means that the word [w]
    is between the pointers [q] and [e]. *)
Inductive rep (ns : list node) : nat -> command -> Prop :=
| rep_exec p qs ws :
    node_at ns p = Some (EXEC (slots qs.*1) (slots qs.*2)) -> (length qs < MAXARGS)%nat ->
    Forall2 (fun q w => W q.1 q.2 w) qs ws -> rep ns p (Exec ws)
| rep_redir p q f e mode fd c w :
    node_at ns p = Some (REDIR q f e mode fd) -> (q < p)%nat -> W f e w -> rep ns q c ->
    rep ns p (Redirect c w mode fd)
| rep_pipe p l r cl cr :
    node_at ns p = Some (PIPE l r) -> (l < p)%nat -> (r < p)%nat -> rep ns l cl -> rep ns r cr -> rep ns p (PipeC cl cr)
| rep_list p l r cl cr :
    node_at ns p = Some (LIST l r) -> (l < p)%nat -> (r < p)%nat -> rep ns l cl -> rep ns r cr -> rep ns p (ListC cl cr)
| rep_back p q c :
    node_at ns p = Some (BACK q) -> (q < p)%nat -> rep ns q c -> rep ns p (BackC c).

(** [p] is the command at [base] with redirections around it. *)
Inductive over (ns : list node) (base : nat) : nat -> list redir -> Prop :=
| over_base : over ns base base []
| over_redir p q f e mode fd r rs :
    node_at ns p = Some (REDIR q f e mode fd) -> (q < p)%nat -> W f e r.2 ->
    (forall c, redirect c r = Redirect c r.2 mode fd) -> over ns base q rs -> over ns base p (rs ++ [r]).

Lemma over_le ns base p rs : over ns base p rs -> (base <= p)%nat.
Proof. induction 1; lia. Qed.

Lemma node_at_le ns p n : node_at ns p = Some n -> (0 < p <= length ns)%nat.
Proof. destruct p as [|i]; [done|]. cbn. intros E. apply lookup_lt_Some in E. lia. Qed.
Lemma over_bound ns base p rs : over ns base p rs -> (base <= length ns)%nat -> (p <= length ns)%nat.
Proof. destruct 1 as [|p q f e mode fd r rs Hn]; [done|]. apply node_at_le in Hn. lia. Qed.

Lemma over_rep ns base p rs c : over ns base p rs -> rep ns base c -> rep ns p (foldl redirect c rs).
Proof.
  induction 1 as [|p q f e mode fd r rs Hn Hlt Hw Hr Ho IH]; intros Hc; [done|]. rewrite foldl_app. cbn. rewrite Hr.
  econstructor; eauto.
Qed.

Lemma over_app ns base p q rs1 rs2 : over ns base p rs1 -> over ns p q rs2 -> over ns base q (rs1 ++ rs2).
Proof.
  intros H1. induction 1 as [|q q' f e mode fd r rs Hn Hlt Hw Hr Ho IH]; [by rewrite app_nil_r|].
  rewrite app_assoc. econstructor; eauto.
Qed.

(** Both only look at nodes that are there. *)
Lemma node_at_prefix ns ns' p n : ns `prefix_of` ns' -> node_at ns p = Some n -> node_at ns' p = Some n.
Proof. intros Hp. destruct p as [|i]; [done|]. cbn. intros E. by eapply prefix_lookup_Some. Qed.
Lemma rep_prefix ns ns' p c : ns `prefix_of` ns' -> rep ns p c -> rep ns' p c.
Proof. intros Hp. induction 1; econstructor; eauto using node_at_prefix. Qed.
Lemma over_prefix ns ns' base p rs : ns `prefix_of` ns' -> over ns base p rs -> over ns' base p rs.
Proof. intros Hp. induction 1; econstructor; eauto using node_at_prefix. Qed.
Lemma over_set ns base p rs n : (0 < base)%nat -> over ns base p rs -> over (set_node ns base n) base p rs.
Proof.
  intros Hb.   induction 1 as [|p q f e mode fd r rs Hn Hlt Hw Hr Ho IH]; [constructor|]. pose proof (over_le _ _ _ _ Ho).
  econstructor; [|done..]. destruct p as [|i]; [lia|]. cbn in *. unfold set_node. rewrite list_lookup_insert_ne; [done|lia].
Qed.

Lemma node_at_new ns n : node_at (ns ++ [n]) (S (length ns)) = Some n.
Proof. cbn. by apply list_lookup_middle. Qed.
Lemma rep_bound ns p c : rep ns p c -> (0 < p <= length ns)%nat.
Proof. destruct 1; eauto using node_at_le. Qed.
End rep.

(** ** Tokens *)

Definition starts_word (l : list Z) : bool := match l with [] => false | c :: _ => wordchar c end.

Lemma wordchar_not c : wordchar c -> c <> 0 /\ blank c = false /\ symbol c = false.
Proof.
  intros H. unfold wordchar in H. apply andb_True in H as [H Hs]. apply andb_True in H as [Hz Hb].
  destruct (Z.eqb_spec c 0); [done|]. by destruct (blank c), (symbol c).
Qed.

Definition single (c : Z) : bool := (c =? 124) || (c =? 40) || (c =? 41) || (c =? 59) || (c =? 38) || (c =? 60).
Lemma symbol_cases c : symbol c = single c || (c =? 62).
Proof.
  unfold symbol, single. change symbols with [60; 124; 62; 38; 59; 40; 41]. cbn [strchr].
  rewrite (Z.eqb_sym 60 c), (Z.eqb_sym 124 c), (Z.eqb_sym 62 c), (Z.eqb_sym 38 c), (Z.eqb_sym 59 c), (Z.eqb_sym 40 c), (Z.eqb_sym 41 c).
  by destruct (c =? 60), (c =? 124), (c =? 62), (c =? 38), (c =? 59), (c =? 40), (c =? 41).
Qed.

Lemma lex_word w l : w <> [] -> Forall wordchar w -> starts_word l = false -> lex (w ++ l) = Word w :: lex l.
Proof.
  intros Hne Hw Hl. induction w as [|c w IH]; [done|]. clear Hne. apply Forall_cons in Hw as [Hc Hw].
  destruct (wordchar_not c Hc) as (_ & Hb & Hs). cbn [app lex]. rewrite Hb, Hs.
  destruct w as [|d w].
  - cbn [app]. destruct l as [|d l]; [done|]. cbn in Hl. rewrite Hl. by destruct (lex (d :: l)) as [|[]].
  - rewrite IH by done. cbn [app]. apply Forall_cons in Hw as [Hd _]. apply Is_true_true in Hd. by rewrite Hd.
Qed.

(** The symbols among the tokens. *)
Lemma lex_symbols l : Forall (fun t => forall c, t = Sym c -> symbol c) (lex l).
Proof.
  induction l as [l IH] using (induction_ltof1 _ length). unfold ltof in IH. destruct l as [|c l]; [constructor|].
  cbn [lex]. destruct (blank c); [apply IH; cbn; lia|]. destruct (symbol c) eqn:Es.
  - destruct l as [|d l]; [constructor; [|constructor]; intros x [= <-]; by rewrite Es|].
    destruct (_ && _); constructor; try (apply IH; cbn; lia); [done|]. intros x [= <-]. by rewrite Es.
  - specialize (IH l ltac:(cbn; lia)). destruct (lex l) as [|[x| |w] ts]; try (constructor; [done|]; done).
    destruct l as [|d l]; [constructor|]. apply Forall_cons in IH as [_ IH]. destruct (wordchar d); repeat constructor; done.
Qed.

Section line.
Variable text junk : list Z.
Hypothesis text_nz : 0 ∉ text.

Let buf : list Z := text ++ 0 :: junk.
Let es : nat := length text.

Definition tokens (s : nat) : list token := lex (drop s text).

(** A word of the line, from [q] up to [e]. *)
Record is_word (q e : nat) (w : list Z) : Prop := {
  iw_end : (q + length w = e)%nat /\ (e <= es)%nat;
  iw_text : take (length w) (drop q text) = w;
  iw_chars : Forall wordchar w;
  iw_stop : exists c, buf !! e = Some c /\ wordchar c = false
}.

Lemma at_text s c l : drop s text = c :: l -> at_ buf s = Ret c.
Proof.
  intros E. unfold at_, buf. assert (text !! s = Some c) as Hc by (rewrite <- (Nat.add_0_r s), <- lookup_drop, E; done).
  by rewrite (lookup_app_l_Some _ _ _ _ Hc).
Qed.
Lemma at_end s : drop s text = [] -> (s <= es)%nat -> at_ buf s = Ret 0 /\ s = es.
Proof.
  intros E Hs. apply (f_equal length) in E. rewrite length_drop in E. cbn in E.
  assert (s = es) as -> by (unfold es in *; lia). split; [|done]. unfold at_, buf. by rewrite list_lookup_middle.
Qed.
Lemma drop_cons s c l : drop s text = c :: l -> (s < es)%nat /\ drop (S s) text = l /\ c <> 0 /\ (es - s = S (length l))%nat.
Proof.
  intros E. pose proof (f_equal length E) as El. rewrite length_drop in El. cbn in El. unfold es.
  split; [lia|]. split.
  - replace (S s) with (s + 1)%nat by lia. rewrite <- drop_drop, E. done.
  - split; [|lia]. intros ->. apply text_nz. apply list_elem_of_lookup. exists s.
    rewrite <- (Nat.add_0_r s), <- lookup_drop, E. done.
Qed.

Definition nonblank (l : list Z) : bool := match l with [] => true | c :: _ => negb (blank c) end.

Lemma skip_spec s : (s <= es)%nat ->
  exists s', skip buf (es - s) s = Ret s' /\ (s <= s' <= es)%nat /\ tokens s' = tokens s /\ nonblank (drop s' text).
Proof.
  intros Hs. remember (drop s text) as l eqn:E. symmetry in E. revert s E Hs.
  induction l as [|c l IH]; intros s E Hs.
  - destruct (at_end s E Hs) as [_ ->]. exists es. rewrite Nat.sub_diag, E. split; [done|]. split; [lia|done].
  - destruct (drop_cons s c l E) as (Hlt & E' & _ & ->). cbn [skip]. rewrite (at_text s c l E). cbn [pbind].
    fold (blank c). destruct (blank c) eqn:Eb.
    + destruct (IH (S s) E') as (s' & E1 & Hr & Ht & Hn); [lia|]. exists s'.
      destruct (drop_cons s c l E) as (_ & _ & _ & Hlen). replace (length l) with (es - S s)%nat by lia.
      split; [done|]. split; [lia|]. split; [|done]. rewrite Ht. unfold tokens. rewrite E, E'. cbn. by rewrite Eb.
    + exists s. split; [done|]. split; [lia|]. split; [done|]. rewrite E. cbn. by rewrite Eb.
Qed.

Lemma word_spec s : (s <= es)%nat ->
  exists w, word buf (es - s) s = Ret (s + length w)%nat /\ (s + length w <= es)%nat /\ take (length w) (drop s text) = w /\
    Forall wordchar w /\ starts_word (drop (s + length w) text) = false.
Proof.
  intros Hs. remember (drop s text) as l eqn:E. symmetry in E. revert s E Hs.
  induction l as [|c l IH]; intros s E Hs.
  - destruct (at_end s E Hs) as [_ ->]. exists []. cbn [length]. rewrite Nat.sub_diag, Nat.add_0_r, E. split; [done|]. split; [lia|done].
  - destruct (drop_cons s c l E) as (Hlt & E' & Hz & Hlen). rewrite Hlen. cbn [word]. rewrite (at_text s c l E). cbn [pbind].
    fold (blank c) (symbol c). assert (negb (blank c) && negb (symbol c) = wordchar c) as ->.
    { unfold wordchar. by apply Z.eqb_neq in Hz as ->. }
    destruct (wordchar c) eqn:Ew.
    + destruct (IH (S s) E') as (w & E1 & Hr & Ht & Hn & Hst); [lia|]. exists (c :: w). cbn [length].
      rewrite Nat.add_succ_r. replace (length l) with (es - S s)%nat by lia.
      split; [done|]. split; [lia|]. split; [cbn; by f_equal|]. split; [constructor; [by rewrite Ew|done]|done].
    + exists []. rewrite Nat.add_0_r, E. split; [done|]. split; [lia|]. split; [done|]. split; [done|]. done.
Qed.

Lemma drop_split n s w l : drop s text = w ++ l -> n = length w -> drop (s + n) text = l.
Proof. intros E ->. rewrite <- drop_drop, E. apply drop_app_length. Qed.

Lemma stop_at e : (e <= es)%nat -> starts_word (drop e text) = false -> exists c, buf !! e = Some c /\ wordchar c = false.
Proof.
  intros He Hs. destruct (drop e text) as [|c l] eqn:E.
  - destruct (at_end e E He) as [_ ->]. exists 0. split; [|done]. by apply list_lookup_middle.
  - exists c. split; [|done]. pose proof (at_text e c l E) as Ha. unfold at_ in Ha. by destruct (buf !! e); inversion Ha.
Qed.

(** What [gettoken] returns for a token. *)
Definition code (t : token) : Z := match t with Sym c => c | App => 43 | Word _ => 97 end.

Lemma switch_spec s : (s <= es)%nat -> nonblank (drop s text) ->
  exists r e, switch buf es s = Ret (r, e) /\ (e <= es)%nat /\
  match tokens s with
  | [] => r = 0 /\ s = es /\ e = es
  | t :: ts => r = code t /\ (s < e)%nat /\ tokens e = ts /\ forall w, t = Word w -> is_word s e w
  end.
Proof.
  intros Hs Hb. unfold switch, tokens at 1. destruct (drop s text) as [|c l] eqn:E.
  { destruct (at_end s E Hs) as [-> ->]. exists 0, es. done. }
  destruct (drop_cons s c l E) as (Hlt & E' & Hz & _). rewrite (at_text s c l E). cbn [pbind].
  apply Z.eqb_neq in Hz as Hz'. rewrite Hz'. cbn in Hb. apply negb_True in Hb. destruct (blank c) eqn:Ebl; [done|].
  fold (single c). destruct (single c) eqn:Es.
  { cbn [lex]. rewrite Ebl, symbol_cases, Es. exists c, (S s). split; [done|]. split; [lia|]. unfold tokens. rewrite E'.
    assert ((c =? 62) = false) as -> by (by destruct (Z.eqb_spec c 62); [subst|]). cbn [andb].
    destruct l as [|d l]; (split; [done|]); (split; [lia|]); done. }
  destruct (Z.eqb_spec c 62) as [->|Hg].
  - cbn [lex]. rewrite Ebl, symbol_cases. destruct l as [|d l].
    + destruct (at_end (S s) E' ltac:(lia)) as [-> Hes]. cbn. exists 62, (S s). split; [done|]. split; [lia|]. split; [done|].
      split; [lia|]. unfold tokens. by rewrite E'.
    + rewrite (at_text _ _ _ E'). cbn [pbind andb]. destruct (drop_cons _ _ _ E') as (Hlt' & E'' & _).
      destruct (d =? 62) eqn:Ed; [exists 43, (S (S s))|exists 62, (S s)]; (split; [done|]); (split; [lia|]); (split; [done|]);
        (split; [lia|]); unfold tokens; by rewrite ?E'', ?E'.
  - destruct (word_spec s Hs) as (w & Ew & Hwe & Ht & Hw & Hst). rewrite Ew. cbn [pbind]. exists 97, (s + length w)%nat.
    split; [done|]. split; [lia|].
    assert (w <> []) as Hne.
    { intros ->. cbn in Hst. rewrite Nat.add_0_r, E in Hst. cbn in Hst. unfold wordchar in Hst. rewrite Hz', Ebl in Hst.
      cbn in Hst. rewrite symbol_cases, Es in Hst. apply Z.eqb_neq in Hg. by rewrite Hg in Hst. }
    assert (c :: l = w ++ drop (s + length w) text) as -> by (rewrite <- E, <- Ht at 1; by rewrite <- drop_drop, take_drop).
    rewrite lex_word by done. split; [done|]. split; [destruct w; [done|cbn; lia]|]. split; [done|].
    intros w' [= <-]. split; [done|done|done|by apply stop_at].
Qed.

Lemma gettoken_spec s : (s <= es)%nat ->
  exists q e s', (s <= s' <= es)%nat /\
  match tokens s with
  | [] => gettoken buf es s = Ret (0, q, e, s') /\ tokens s' = []
  | t :: ts => gettoken buf es s = Ret (code t, q, e, s') /\ (s < s')%nat /\ tokens s' = ts /\
      (forall w, t = Word w -> is_word q e w) /\ (forall c, t = Sym c -> symbol c)
  end.
Proof.
  intros Hs. unfold gettoken. destruct (skip_spec s Hs) as (s1 & -> & H1 & <- & Hb). cbn [pbind].
  destruct (switch_spec s1 ltac:(lia) Hb) as (r & e & -> & He & Hm). cbn [pbind].
  destruct (skip_spec e He) as (s2 & -> & H2 & Ht & _). cbn [pbind]. exists s1, e, s2.
  destruct (tokens s1) as [|t ts] eqn:Et; [destruct Hm as (-> & -> & ->)|destruct Hm as (-> & Hlt & <- & Hw)].
  - split; [lia|]. split; [done|]. rewrite Ht. unfold tokens, es. by rewrite drop_all.
  - split; [lia|]. split; [done|]. split; [lia|]. split; [done|]. split; [done|].
    pose proof (lex_symbols (drop s1 text)) as Hsym. change (lex (drop s1 text)) with (tokens s1) in Hsym. rewrite Et in Hsym.
    by apply Forall_cons in Hsym as [Hsym _].
Qed.

(** The token list begins with one of the symbols. *)
Definition begins_in (toks : list Z) (ts : list token) : bool :=
  match ts with
  | Sym c :: _ => strchr toks c
  | App :: _ => strchr toks 62
  | _ => false
  end.

Lemma strchr_sub toks c : Forall symbol toks -> strchr toks c -> symbol c.
Proof.
  induction 1 as [|x toks Hx _ IH]; [done|]. cbn. destruct (Z.eqb_spec x c) as [->|]; auto.
Qed.

Lemma peek_spec s toks : (s <= es)%nat -> Forall symbol (lit toks) ->
  exists s', peek buf es s toks = Ret (begins_in (lit toks) (tokens s), s') /\ (s <= s' <= es)%nat /\ tokens s' = tokens s /\
    (tokens s = [] <-> s' = es).
Proof.
  intros Hs Htk. unfold peek. destruct (skip_spec s Hs) as (s1 & -> & H1 & <- & Hb). cbn [pbind]. exists s1.
  assert (tokens es = []) as Hes by (unfold tokens, es; by rewrite drop_all).
  destruct (drop s1 text) as [|c l] eqn:E.
  { destruct (at_end s1 E ltac:(lia)) as [-> ->]. cbn [pbind]. rewrite Hes. done. }
  destruct (drop_cons s1 c l E) as (Hlt & E' & Hz & _). rewrite (at_text s1 c l E). cbn [pbind].
  apply Z.eqb_neq in Hz as ->. cbn [negb andb].
  cbn in Hb. apply negb_True in Hb. destruct (blank c) eqn:Ebl; [done|].
  assert (tokens s1 = lex (c :: l)) as Ht by (unfold tokens; by rewrite E). cbn [lex] in Ht. rewrite Ebl in Ht.
  assert (tokens s1 <> [] /\ begins_in (lit toks) (tokens s1) = strchr (lit toks) c) as [Hne ->].
  { rewrite Ht. destruct (symbol c) eqn:Es.
    - destruct l as [|d l]; [done|]. destruct (Z.eqb_spec c 62) as [->|]; [|done]. cbn [andb]. by destruct (d =? 62).
    - assert (strchr (lit toks) c = false) as ->.
      { destruct (strchr (lit toks) c) eqn:Et; [|done]. apply Is_true_true, (strchr_sub _ _ Htk), Is_true_true in Et. congruence. }
      destruct (lex l) as [|[] ts] eqn:El; try done. destruct l as [|d l]; [done|]. by destruct (wordchar d). }
  split; [done|]. split; [lia|]. split; [done|]. split; [done|]. intros ->. done.
Qed.

(** A call of [parseredirs] whose outcome is [r]. *)
Definition redirected (cmd s : nat) (ns : list node) (p : prog (nat * nat * list node)) (r : option (list redir * list token)) : Prop :=
  match r with
  | Some (rs, rest) => exists cmd' s' ns', p = Ret (cmd', s', ns') /\ (s <= s' <= es)%nat /\
      tokens s' = rest /\ ns `prefix_of` ns' /\ over is_word ns' cmd cmd' rs
  | None => exits p
  end.

Lemma redirected_cons cmd q e d w s s' ns ns1 p r mode fd :
  (cmd <= length ns)%nat -> (s <= s')%nat -> ns1 = ns ++ [REDIR cmd q e mode fd] ->
  (forall c, redirect c (d, w) = Redirect c w mode fd) -> is_word q e w ->
  redirected (S (length ns)) s' ns1 p r -> redirected cmd s ns p (x ← r; Some ((d, w) :: x.1, x.2)).
Proof.
  intros Hc Hs -> Hd Hw. destruct r as [[rs rest]|]; [|done]. cbn. intros (cmd' & s2 & ns2 & -> & Hs2 & Ht & Hp & Ho).
  exists cmd', s2, ns2. split; [done|]. split; [lia|]. split; [done|]. split; [by etrans; [apply prefix_app_r|]|].
  apply (over_app _ _ _ (S (length ns)) _ [(d, w)]); [|done].
  apply (over_redir _ _ _ _ cmd q e mode fd (d, w) []); [|lia|done|done|constructor].
  eapply node_at_prefix; [exact Hp|]. apply node_at_new.
Qed.

(** Fuel of a loop that moves on in the line: more than what is left of it. *)
Lemma parseredirs_spec fuel cmd s ns :
  (s <= es)%nat -> (es - s < fuel)%nat -> (cmd <= length ns)%nat ->
  redirected cmd s ns (parseredirs buf es fuel cmd s ns) (rd_redirs (tokens s)).
Proof.
  revert cmd s ns. induction fuel as [|fuel IH]; intros cmd s ns Hs Hf Hc; [lia|]. cbn [parseredirs].
  destruct (peek_spec s "<>" Hs) as (s1 & -> & H1 & Ht1 & _); [by repeat constructor|]. cbn [pbind]. rewrite <- Ht1.
  assert (redirected cmd s ns (Ret (cmd, s1, ns)) (Some ([], tokens s1))) as Hstop.
  { exists cmd, s1, ns. split; [done|]. split; [lia|]. split; [done|]. split; [done|constructor]. }
  destruct (gettoken_spec s1) as (q1 & e1 & s2 & H2 & Hg1); [lia|].
  destruct (tokens s1) as [|t ts] eqn:Ets1; [exact Hstop|]. destruct Hg1 as (-> & Hlt1 & Ht2 & _). cbn [pbind].
  destruct (gettoken_spec s2) as (q & e & s3 & H3 & Hg2); [lia|]. rewrite Ht2 in Hg2.
  assert (forall d, t = dir_token d -> redirected cmd s ns
    (let* (a, q, eq, s) := gettoken buf es s2 in
      if negb (a =? 97) then panic "missing file for redirection" else
      let (cmd, ns) :=
        if code t =? 60 then redircmd cmd q eq O_RDONLY 0 ns
        else if code t =? 62 then redircmd cmd q eq (Z.lor O_WRONLY O_CREATE) 1 ns
        else if code t =? 43 then redircmd cmd q eq (Z.lor O_WRONLY O_CREATE) 1 ns
        else (cmd, ns) in
      parseredirs buf es fuel cmd s ns)
    match ts with Word w :: ts2 => r ← rd_redirs ts2; Some ((d, w) :: r.1, r.2) | _ => None end) as Hd.
  { intros d ->. destruct ts as [|t2 ts2]; [destruct Hg2 as [-> _]; apply exits_panic|].
    destruct Hg2 as (-> & Hlt2 & Ht3 & Hw & Hsy). cbn [pbind].
    destruct t2 as [c| |w]; cbn [code]; [|apply exits_panic|].
    - destruct (Z.eqb_spec c 97) as [->|]; [by destruct (Hsy 97 eq_refl)|]. apply exits_panic.
    - specialize (Hw w eq_refl). rewrite <- Ht3. destruct d; cbn [code dir_token Z.eqb Pos.eqb negb];
        (eapply redirected_cons; [done| |done|done|exact Hw|apply IH]; rewrite ?length_app; cbn; lia). }
  destruct t as [c| |w]; [|exact (Hd After eq_refl)|exact Hstop].
  change (begins_in (lit "<>") (Sym c :: ts)) with (strchr [60; 62] c). cbn [rd_redirs strchr].
  rewrite (Z.eqb_sym 60), (Z.eqb_sym 62).
  destruct (Z.eqb_spec c 60) as [->|]; [exact (Hd From eq_refl)|]. destruct (Z.eqb_spec c 62) as [->|]; [exact (Hd Onto eq_refl)|].
  exact Hstop.
Qed.

(** A call of a parsing function whose outcome is [r]. *)
Definition builds (s : nat) (ns : list node) (p : prog (nat * nat * list node)) (r : option (command * list token)) : Prop :=
  match r with
  | Some (c, rest) => exists cmd s' ns', p = Ret (cmd, s', ns') /\ (s <= s' <= es)%nat /\
      tokens s' = rest /\ ns `prefix_of` ns' /\ rep is_word ns' cmd c
  | None => exits p
  end.

(** The state of the loop over the arguments. *)
Record collecting (ns0 : list node) (ret : nat) (ns : list node) (ws : list (list Z)) (rs : list redir) : Prop := {
  co_node : exists qs, node_at ns (S (length ns0)) = Some (EXEC (slots qs.*1) (slots qs.*2)) /\
    Forall2 (fun q w => is_word q.1 q.2 w) qs ws;
  co_over : over is_word ns (S (length ns0)) ret rs;
  co_prefix : ns0 `prefix_of` ns
}.

Lemma set_arg_end ns0 ret ns ws rs :
  collecting ns0 ret ns ws rs -> (length ws < MAXARGS)%nat ->
  set_arg ns (S (length ns0)) (length ws) None None = Ret ns /\ rep is_word ns ret (foldl redirect (Exec ws) rs).
Proof.
  intros [(qs & Hn & Hq) Ho Hp] Hl. pose proof (Forall2_length _ _ _ Hq) as Hlen. split.
  - unfold set_arg. rewrite Hn. rewrite !length_slots by (rewrite length_fmap; lia).
    destruct (Nat.ltb_spec (length ws) MAXARGS); [|lia]. cbn [andb].
    pose proof (slots_end qs.*1) as E1. pose proof (slots_end qs.*2) as E2. rewrite length_fmap, Hlen in E1, E2. rewrite E1, E2.
    f_equal. unfold set_node. by apply list_insert_id.
  - eapply over_rep; [done|]. econstructor; [exact Hn|lia|done].
Qed.

Lemma set_arg_word ns0 ret ns ws rs q e w :
  collecting ns0 ret ns ws rs -> (length ws < MAXARGS)%nat -> is_word q e w ->
  exists ns', set_arg ns (S (length ns0)) (length ws) (Some q) (Some e) = Ret ns' /\ length ns' = length ns /\
    collecting ns0 ret ns' (ws ++ [w]) rs.
Proof.
  intros [(qs & Hn & Hq) Ho Hp] Hl Hw. pose proof (Forall2_length _ _ _ Hq) as Hlen.
  unfold set_arg. rewrite Hn. rewrite !length_slots by (rewrite length_fmap; lia).
  destruct (Nat.ltb_spec (length ws) MAXARGS); [|lia]. cbn [andb].
  pose proof (slots_set qs.*1 q) as E1. pose proof (slots_set qs.*2 e) as E2. rewrite length_fmap, Hlen in E1, E2.
  rewrite E1, E2 by done. eexists. split; [reflexivity|]. split; [apply length_insert|]. pose proof (node_at_le _ _ _ Hn) as Hle. split.
  - exists (qs ++ [(q, e)]). split; [|apply Forall2_app; [done|by constructor]].
    cbn. rewrite list_lookup_insert_eq by lia. by rewrite !fmap_app.
  - apply over_set; [lia|done].
  - destruct Hp as [k ->]. unfold set_node. cbn. rewrite insert_app_r_alt by lia. apply prefix_app_r. done.
Qed.

Lemma redirected_collecting ns0 ret s ns ws rs p rs' rest :
  collecting ns0 ret ns ws rs -> redirected ret s ns p (Some (rs', rest)) ->
  exists ret' s' ns', p = Ret (ret', s', ns') /\ (s <= s' <= es)%nat /\ tokens s' = rest /\ (ret' <= length ns')%nat /\
    collecting ns0 ret' ns' ws (rs ++ rs').
Proof.
  intros [(qs & Hn & Hq) Ho Hp] (ret' & s' & ns' & -> & Hs & Ht & Hpre & Ho').
  pose proof (over_prefix _ _ _ _ _ _ Hpre Ho) as Ho2. pose proof (over_app _ _ _ _ _ _ _ Ho2 Ho') as Ho3.
  pose proof (node_at_prefix _ _ _ _ Hpre Hn) as Hn'. exists ret', s', ns'. split; [done|]. split; [done|]. split; [done|]. split.
  - eapply over_bound; [exact Ho3|]. apply node_at_le in Hn'. lia.
  - split; [eauto|done|by etrans].
Qed.

Lemma parseargs_spec fuel ns0 ret s ns ws rs :
  collecting ns0 ret ns ws rs -> (length ws + fuel = S MAXARGS)%nat -> (length ws < MAXARGS)%nat -> (s <= es)%nat -> (ret <= length ns)%nat ->
  builds s ns0 (parseargs buf es fuel (S (length ns0)) ret (length ws) s ns)
    (r ← rd_args (pred MAXARGS - length ws) (tokens s); Some (foldl redirect (Exec (ws ++ args r.1)) (rs ++ redirs r.1), r.2)).
Proof.
  revert ret s ns ws rs. induction fuel as [|fuel IH]; intros ret s ns ws rs Hco Hf Hl Hs Hret; [lia|]. cbn [parseargs].
  destruct (peek_spec s "|)&;" Hs) as (s1 & -> & H1 & Ht1 & _); [by repeat constructor|]. cbn [pbind]. rewrite <- Ht1.
  destruct (set_arg_end _ _ _ _ _ Hco Hl) as [Eend Hrep].
  assert (forall s2, (s <= s2 <= es)%nat -> builds s ns0 (let* ns := set_arg ns (S (length ns0)) (length ws) None None in Ret (ret, s2, ns))
    (Some (foldl redirect (Exec (ws ++ args [])) (rs ++ redirs []), tokens s2))) as Hstop.
  { intros s2 Hs2. rewrite Eend. exists ret, s2, ns. split; [done|]. split; [lia|]. split; [done|]. split; [apply Hco|].
    cbn. by rewrite !app_nil_r. }
  destruct (gettoken_spec s1) as (q & e & s2 & H2 & Hg); [lia|].
  destruct (tokens s1) as [|[c| |w] ts] eqn:Ets.
  - destruct Hg as [-> Ht2]. cbn [pbind]. assert (forall n, rd_args n [] = Some ([], [])) as -> by (by intros []). cbn. rewrite <- Ht2.
    apply Hstop. lia.
  - destruct Hg as (-> & _ & _ & _ & Hsy). rewrite <- Ets in *. specialize (Hstop s1 ltac:(lia)). rewrite Ets in *.
    change (begins_in ?x (Sym c :: ts)) with (strchr x c).
    assert (forall n, rd_args n (Sym c :: ts) = if strchr (lit "|)&;") c then Some ([], Sym c :: ts) else None) as -> by (by intros []).
    destruct (strchr (lit "|)&;") c); [exact Hstop|]. cbn [pbind code]. specialize (Hsy c eq_refl).
    destruct (Z.eqb_spec c 0); [by subst|]. destruct (Z.eqb_spec c 97); [by subst|]. apply exits_panic.
  - destruct Hg as (-> & _). assert (forall n, rd_args n (App :: ts) = None) as -> by (by intros []). apply exits_panic.
  - destruct Hg as (-> & Hlt & Ht2 & Hw & _). cbn [begins_in pbind code Z.eqb Pos.eqb negb].
    destruct (set_arg_word _ _ _ _ _ q e w Hco Hl (Hw w eq_refl)) as (ns1 & -> & Hl1 & Hco1). cbn [pbind].
    assert (length (ws ++ [w]) = S (length ws)) as Hlw by (rewrite length_app; cbn; lia). unfold MAXARGS in *.
    destruct (Nat.leb_spec 10 (S (length ws))) as [Hmax|Hmax].
    { replace (pred 10 - length ws)%nat with 0%nat by lia. apply exits_panic. }
    replace (pred 10 - length ws)%nat with (S (pred 10 - length (ws ++ [w])))%nat by lia. cbn [rd_args].
    pose proof (parseredirs_spec (S es) ret s2 ns1 ltac:(lia) ltac:(lia) ltac:(lia)) as Hr. rewrite Ht2 in Hr.
    destruct (rd_redirs ts) as [[rs' rest]|]; [|by apply exits_bind]. cbn [mbind option_bind fst snd].
    destruct (redirected_collecting _ _ _ _ _ _ _ _ _ Hco1 Hr) as (ret' & s3 & ns2 & -> & Hs3 & <- & Hret' & Hco2). cbn [pbind].
    specialize (IH ret' s3 ns2 (ws ++ [w]) (rs ++ rs') Hco2 ltac:(lia) ltac:(lia) ltac:(lia) Hret').
    rewrite Hlw in IH. rewrite Hlw. destruct (rd_args (pred 10 - S (length ws)) (tokens s3)) as [[its r2]|]; [|exact IH].
    destruct IH as (cmd & s4 & ns4 & -> & Hs4 & Ht4 & Hp4 & Hrep4). exists cmd, s4, ns4.
    split; [done|]. split; [lia|]. split; [done|]. split; [done|]. cbn in *.
    change (args (Arg w :: ?l)) with (w :: args l). change (redirs (Arg w :: ?l)) with (redirs l).
    rewrite args_app, args_rd, redirs_app, redirs_rd. rewrite <- !app_assoc in Hrep4. exact Hrep4.
Qed.

Lemma parseback_spec fuel cmd s ns c :
  (s <= es)%nat -> (es - s < fuel)%nat -> rep is_word ns cmd (meaning c) ->
  let r := rd_back c (tokens s) in
  builds s ns (parseback buf es fuel cmd s ns) (Some (meaning r.1, r.2)).
Proof.
  cbn zeta. revert cmd s ns c. induction fuel as [|fuel IH]; intros cmd s ns c Hs Hf Hrep; [lia|]. cbn [parseback].
  destruct (peek_spec s "&" Hs) as (s1 & -> & H1 & Ht1 & _); [by repeat constructor|]. cbn [pbind]. rewrite <- Ht1.
  assert (builds s ns (Ret (cmd, s1, ns)) (Some (meaning c, tokens s1))) as Hstop.
  { exists cmd, s1, ns. split; [done|]. split; [lia|]. done. }
  destruct (gettoken_spec s1) as (q & e & s2 & H2 & Hg); [lia|].
  destruct (tokens s1) as [|[x| |w] ts] eqn:Ets; try exact Hstop.
  change (begins_in (lit "&") (Sym x :: ts)) with (strchr [38] x). cbn [strchr rd_back]. rewrite (Z.eqb_sym 38).
  destruct (x =? 38); [|exact Hstop]. destruct Hg as (-> & Hlt & <- & _). cbn.
  destruct (IH (S (length ns)) s2 (ns ++ [BACK cmd]) (Back c)) as (cmd' & s3 & ns3 & -> & Hs3 & Ht3 & Hp3 & Hr3); [lia|lia| |].
  - cbn. apply rep_back with cmd; [apply node_at_new|apply rep_bound in Hrep; lia|]. eapply rep_prefix; [|done]. by apply prefix_app_r.
  - exists cmd', s3, ns3. split; [done|]. split; [lia|]. split; [done|]. split; [|done]. etrans; [|done]. by apply prefix_app_r.
Qed.

Definition means (r : option (syntax * list token)) : option (command * list token) :=
  x ← r; Some (meaning x.1, x.2).

(** A separator, if it is there, is taken off. *)
Lemma separator s toks x : (s <= es)%nat -> lit toks = [x] -> symbol x -> x <> 62 ->
  exists s1, peek buf es s toks = Ret (begins x (tokens s), s1) /\ (s <= s1 <= es)%nat /\ tokens s1 = tokens s /\
    (begins x (tokens s) = true -> exists q e s2, gettoken buf es s1 = Ret (x, q, e, s2) /\ (s1 < s2 <= es)%nat /\ tokens s2 = tail (tokens s)).
Proof.
  intros Hs El Hx Hne. destruct (peek_spec s toks Hs) as (s1 & -> & H1 & Ht1 & _); [rewrite El; by repeat constructor|].
  exists s1. rewrite El. assert (begins_in [x] (tokens s) = begins x (tokens s)) as ->.
  { destruct (tokens s) as [|[c| |w] ts]; try done; cbn; [rewrite Z.eqb_sym; by destruct (c =? x)|]. apply Z.eqb_neq in Hne. by rewrite Hne. }
  split; [done|]. split; [lia|]. split; [done|]. intros Hb. apply Is_true_true, begins_cons in Hb.
  destruct (gettoken_spec s1) as (q & e & s2 & H2 & Hg); [lia|]. rewrite Ht1, Hb in Hg. destruct Hg as (-> & Hlt & Ht2 & _).
  exists q, e, s2. split; [done|]. split; [lia|done].
Qed.

(** The node on top of two commands. *)
Lemma builds_top s s2 s3 ns ns1 ns3 l r cl cr c n rest :
  (s <= s2)%nat -> (s2 <= s3 <= es)%nat -> ns `prefix_of` ns1 -> ns1 `prefix_of` ns3 -> rep is_word ns1 l cl -> rep is_word ns3 r cr ->
  tokens s3 = rest ->
  (forall ns' p, node_at ns' p = Some n -> (l < p)%nat -> (r < p)%nat -> rep is_word ns' l cl -> rep is_word ns' r cr -> rep is_word ns' p c) ->
  builds s ns (let (cmd, ns) := alloc ns3 n in Ret (cmd, s3, ns)) (Some (c, rest)).
Proof.
  intros H1 H2 Hp1 Hp3 Hl Hr Ht Hn. exists (S (length ns3)), s3, (ns3 ++ [n]). split; [done|]. split; [lia|]. split; [done|].
  assert (ns3 `prefix_of` ns3 ++ [n]) as Hp by by apply prefix_app_r. split; [by etrans; [|etrans]|].
  pose proof (rep_bound _ _ _ _ (rep_prefix _ _ _ _ _ Hp3 Hl)). pose proof (rep_bound _ _ _ _ Hr).
  apply Hn; [apply node_at_new|lia|lia|eapply rep_prefix; [|exact Hl]; by etrans|by eapply rep_prefix].
Qed.

(** The four functions with a given amount of fuel. *)
Definition correct (extra : nat) (parse : nat -> list node -> prog (nat * nat * list node))
    (rd : list token -> option (syntax * list token)) (fuel : nat) : Prop :=
  forall s ns, (s <= es)%nat -> (4 * (es - s) + extra <= fuel)%nat -> builds s ns (parse s ns) (means (rd (tokens s))).

Ltac step_fix :=
  cbn [parseline parsepipe parseexec parseblock rd_line rd_pipe rd_exec rd_block];
  fold (parseline buf es) (parsepipe buf es) (parseexec buf es) (parseblock buf es) rd_line rd_pipe rd_exec rd_block.

Lemma parseline_step fuel :
  correct 4 (parseline buf es fuel) (rd_line fuel) fuel -> correct 3 (parsepipe buf es fuel) (rd_pipe fuel) fuel ->
  correct 4 (parseline buf es (S fuel)) (rd_line (S fuel)) (S fuel).
Proof.
  intros IHl IHp s ns Hs Hf. step_fix. specialize (IHp s ns Hs ltac:(lia)).
  destruct (rd_pipe fuel (tokens s)) as [[c1 t1]|]; [|by apply exits_bind].
  unfold means in IHp; cbn in IHp. destruct IHp as (cmd1 & s1 & ns1 & -> & Hs1 & <- & Hp1 & Hr1). cbn [pbind mbind option_bind fst snd].
  pose proof (parseback_spec (S es) cmd1 s1 ns1 c1 ltac:(lia) ltac:(lia) Hr1) as H2. cbn zeta in H2.
  destruct (rd_back c1 (tokens s1)) as [c2 t2]. cbn [fst snd] in *.
  destruct H2 as (cmd2 & s2 & ns2 & -> & Hs2 & <- & Hp2 & Hr2). cbn [pbind].
  destruct (separator s2 ";" 59) as (s3 & -> & Hs3 & Ht3 & Hsep); [lia|done|done|done|]. cbn [pbind].
  destruct (begins 59 (tokens s2)) eqn:Eb.
  - destruct (Hsep eq_refl) as (q & e & s4 & -> & Hs4 & Ht4). cbn [pbind].
    specialize (IHl s4 ns2 ltac:(lia) ltac:(lia)). rewrite Ht4 in IHl.
    destruct (rd_line fuel (tail (tokens s2))) as [[c5 t5]|]; [|by apply exits_bind].
    unfold means in IHl; cbn in IHl. destruct IHl as (cmd5 & s5 & ns5 & -> & Hs5 & Ht5 & Hp5 & Hr5). cbn [pbind]. unfold listcmd.
    apply (builds_top s s4 s5 ns ns2 ns5 cmd2 cmd5 (meaning c2) (meaning c5)); try done; [lia|by etrans|].
    intros. by eapply rep_list.
  - exists cmd2, s3, ns2. split; [done|]. split; [lia|]. split; [done|]. split; [by etrans|done].
Qed.

Lemma parsepipe_step fuel :
  correct 3 (parsepipe buf es fuel) (rd_pipe fuel) fuel -> correct 2 (parseexec buf es fuel) (rd_exec fuel) fuel ->
  correct 3 (parsepipe buf es (S fuel)) (rd_pipe (S fuel)) (S fuel).
Proof.
  intros IHp IHe s ns Hs Hf. step_fix. specialize (IHe s ns Hs ltac:(lia)).
  destruct (rd_exec fuel (tokens s)) as [[c1 t1]|]; [|by apply exits_bind].
  unfold means in IHe; cbn in IHe. destruct IHe as (cmd1 & s1 & ns1 & -> & Hs1 & <- & Hp1 & Hr1). cbn [pbind mbind option_bind fst snd].
  destruct (separator s1 "|" 124) as (s3 & -> & Hs3 & Ht3 & Hsep); [lia|done|done|done|]. cbn [pbind].
  destruct (begins 124 (tokens s1)) eqn:Eb.
  - destruct (Hsep eq_refl) as (q & e & s4 & -> & Hs4 & Ht4). cbn [pbind].
    specialize (IHp s4 ns1 ltac:(lia) ltac:(lia)). rewrite Ht4 in IHp.
    destruct (rd_pipe fuel (tail (tokens s1))) as [[c5 t5]|]; [|by apply exits_bind].
    unfold means in IHp; cbn in IHp. destruct IHp as (cmd5 & s5 & ns5 & -> & Hs5 & Ht5 & Hp5 & Hr5). cbn [pbind]. unfold pipecmd.
    apply (builds_top s s4 s5 ns ns1 ns5 cmd1 cmd5 (meaning c1) (meaning c5)); try done; [lia|].
    intros. by eapply rep_pipe.
  - exists cmd1, s3, ns1. split; [done|]. split; [lia|]. done.
Qed.

Lemma parseexec_step fuel :
  correct 1 (parseblock buf es fuel) (rd_block fuel) fuel -> correct 2 (parseexec buf es (S fuel)) (rd_exec (S fuel)) (S fuel).
Proof.
  intros IHb s ns Hs Hf. step_fix.
  destruct (separator s "(" 40) as (s1 & -> & Hs1 & Ht1 & _); [lia|done|done|done|]. cbn [pbind]. rewrite <- Ht1.
  destruct (begins 40 (tokens s1)).
  { specialize (IHb s1 ns ltac:(lia) ltac:(lia)). destruct (rd_block fuel (tokens s1)) as [[c t]|]; [|done].
    unfold means in IHb; cbn in IHb. destruct IHb as (cmd & s2 & ns2 & -> & Hs2 & Hrest). exists cmd, s2, ns2. split; [done|]. split; [lia|done]. }
  unfold execcmd, alloc. cbn [pbind]. set (ns1 := ns ++ [EXEC _ _]).
  assert (collecting ns (S (length ns)) ns1 [] []) as Hco.
  { split; [exists []; split; [apply node_at_new|constructor]|constructor|by apply prefix_app_r]. }
  pose proof (parseredirs_spec (S es) (S (length ns)) s1 ns1 ltac:(lia) ltac:(lia)) as Hr. unfold rd_items.
  assert (length ns1 = S (length ns)) as Hl1 by (subst ns1; rewrite length_app; cbn; lia). specialize (Hr ltac:(lia)).
  destruct (rd_redirs (tokens s1)) as [[rs t]|]; [|by apply exits_bind].
  destruct (redirected_collecting _ _ _ _ _ _ _ _ _ Hco Hr) as (ret & s2 & ns2 & -> & Hs2 & <- & Hret & Hco2).
  cbn [pbind mbind option_bind fst snd].
  pose proof (parseargs_spec (S MAXARGS) ns ret s2 ns2 [] rs Hco2 eq_refl ltac:(unfold MAXARGS; cbn; lia) ltac:(lia) Hret) as Ha.
  cbn [length] in Ha. change (pred MAXARGS - 0)%nat with (pred MAXARGS) in Ha.
  destruct (rd_args (pred MAXARGS) (tokens s2)) as [[its t]|]; [|exact Ha].
  destruct Ha as (cmd & s3 & ns3 & -> & Hs3 & Ht3 & Hp3 & Hr3). exists cmd, s3, ns3. cbn in *.
  split; [done|]. split; [lia|]. split; [done|]. split; [done|]. by rewrite args_app, args_rd, redirs_app, redirs_rd.
Qed.

Lemma parseblock_step fuel :
  correct 4 (parseline buf es fuel) (rd_line fuel) fuel -> correct 1 (parseblock buf es (S fuel)) (rd_block (S fuel)) (S fuel).
Proof.
  intros IHl s ns Hs Hf. step_fix.
  destruct (separator s "(" 40) as (s1 & -> & Hs1 & Ht1 & Hsep); [lia|done|done|done|]. cbn [pbind].
  destruct (begins 40 (tokens s)); [|apply exits_panic]. destruct (Hsep eq_refl) as (q & e & s2 & -> & Hs2 & <-). cbn [pbind negb].
  specialize (IHl s2 ns ltac:(lia) ltac:(lia)). destruct (rd_line fuel (tokens s2)) as [[c1 t1]|]; [|by apply exits_bind].
  unfold means in IHl; cbn in IHl. destruct IHl as (cmd1 & s3 & ns3 & -> & Hs3 & <- & Hp3 & Hr3). cbn [pbind mbind option_bind fst snd].
  destruct (separator s3 ")" 41) as (s4 & -> & Hs4 & Ht4 & Hsep4); [lia|done|done|done|]. cbn [pbind].
  destruct (begins 41 (tokens s3)); [|apply exits_panic]. destruct (Hsep4 eq_refl) as (q5 & e5 & s5 & -> & Hs5 & <-). cbn [pbind negb].
  pose proof (rep_bound _ _ _ _ Hr3) as Hb3.
  pose proof (parseredirs_spec (S es) cmd1 s5 ns3 ltac:(lia) ltac:(lia) ltac:(lia)) as Hr.
  destruct (rd_redirs (tokens s5)) as [[rs t]|]; [|exact Hr]. destruct Hr as (cmd & s6 & ns6 & -> & Hs6 & Ht6 & Hp6 & Ho6).
  exists cmd, s6, ns6. split; [done|]. split; [lia|]. split; [done|]. split; [by etrans|].
  eapply over_rep; [done|]. by eapply rep_prefix.
Qed.

Lemma parse_correct fuel :
  correct 4 (parseline buf es fuel) (rd_line fuel) fuel /\ correct 3 (parsepipe buf es fuel) (rd_pipe fuel) fuel /\
  correct 2 (parseexec buf es fuel) (rd_exec fuel) fuel /\ correct 1 (parseblock buf es fuel) (rd_block fuel) fuel.
Proof.
  induction fuel as [|fuel (IHl & IHp & IHe & IHb)].
  - split; [|split; [|split]]; intros s ns Hs Hf; lia.
  - auto using parseline_step, parsepipe_step, parseexec_step, parseblock_step.
Qed.

(** ** Cutting off the words *)

(** A line in which some of the characters behind words are zero already. *)
Definition cut (b : list Z) : Prop :=
  length b = length buf /\ forall i c, buf !! i = Some c -> b !! i = Some c \/ (b !! i = Some 0 /\ wordchar c = false).
Definition ended (b : list Z) (q e : nat) (w : list Z) : Prop := is_word q e w /\ b !! e = Some 0.
Definition more (b b' : list Z) : Prop := forall i, b !! i = Some 0 -> b' !! i = Some 0.

Lemma put_cut q e w b : is_word q e w -> cut b ->
  exists b', put e 0 b = Ret b' /\ cut b' /\ more b b' /\ ended b' q e w.
Proof.
  intros Hw [Hl Hb]. destruct (iw_stop _ _ _ Hw) as (x & Hx & Hnw). apply lookup_lt_Some in Hx as He.
  exists (<[e := 0]> b). unfold put. destruct (Nat.ltb_spec e (length b)); [|lia]. split; [done|]. split; [|split].
  - split; [by rewrite length_insert|]. intros i c Hi. destruct (decide (i = e)) as [->|].
    + right. rewrite list_lookup_insert_eq by done. by simplify_eq.
    + rewrite list_lookup_insert_ne by done. auto.
  - intros i Hi. destruct (decide (i = e)) as [->|]; [by apply list_lookup_insert_eq|by rewrite list_lookup_insert_ne].
  - split; [done|]. by apply list_lookup_insert_eq.
Qed.

Lemma rep_weaken (W1 W2 : nat -> nat -> list Z -> Prop) ns p c :
  (forall q e w, W1 q e w -> W2 q e w) -> rep W1 ns p c -> rep W2 ns p c.
Proof. intros HW. induction 1; econstructor; eauto. eapply Forall2_impl; [done|]. auto. Qed.
Lemma ended_more b b' q e w : more b b' -> ended b q e w -> ended b' q e w.
Proof. intros Hm [Hw He]. split; auto. Qed.
Lemma more_trans b1 b2 b3 : more b1 b2 -> more b2 b3 -> more b1 b3.
Proof. unfold more. auto. Qed.
Lemma rep_more b b' ns p c : more b b' -> rep (ended b) ns p c -> rep (ended b') ns p c.
Proof. intros Hm. apply rep_weaken. intros q e w. by apply ended_more. Qed.

Lemma nul_args_spec qs ws n m b :
  Forall2 (fun q w => is_word q.1 q.2 w) qs ws -> cut b ->
  exists b', nul_args ((Some <$> qs.*1) ++ replicate (S n) None) ((Some <$> qs.*2) ++ m) b = Ret b' /\ cut b' /\ more b b' /\
    Forall2 (fun q w => ended b' q.1 q.2 w) qs ws.
Proof.
  intros H. revert b. induction H as [|[q e] w qs ws Hw _ IH]; intros b Hb.
  { exists b. split; [done|]. split; [done|]. split; [by intros i|constructor]. }
  destruct (put_cut q e w b Hw Hb) as (b1 & E1 & Hb1 & Hm1 & He1). cbn. rewrite E1. cbn [pbind].
  destruct (IH b1 Hb1) as (b2 & E2 & Hb2 & Hm2 & Hf). exists b2. split; [exact E2|]. split; [done|].
  split; [by eapply more_trans|]. constructor; [by eapply ended_more|done].
Qed.

Lemma nulterminate_spec ns p c fuel b :
  rep is_word ns p c -> (p < fuel)%nat -> cut b ->
  exists b', nulterminate fuel ns p b = Ret b' /\ cut b' /\ more b b' /\ rep (ended b') ns p c.
Proof.
  intros H. revert fuel b. induction H as [p qs ws Hn Hl Hq|p q f e mode fd c w Hn Hlt Hw _ IH
    |p l r cl cr Hn Hl Hr _ IHl _ IHr|p l r cl cr Hn Hl Hr _ IHl _ IHr|p q c Hn Hlt _ IH]; intros fuel b Hf Hb;
    (destruct fuel as [|fuel]; [lia|]); cbn [nulterminate]; pose proof (node_at_le _ _ _ Hn) as Hp;
    (destruct (Nat.eqb_spec p 0) as [|_]; [lia|]); rewrite Hn; cbn [deref_u pbind].
  - unfold slots. rewrite length_fmap. destruct (MAXARGS - length qs)%nat as [|n] eqn:En; [lia|].
    destruct (nul_args_spec qs ws n (replicate (MAXARGS - length qs.*2) None) b Hq Hb) as (b' & E & Hb' & Hm & Hf').
    exists b'. split; [done|]. split; [done|]. split; [done|]. by econstructor.
  - destruct (IH fuel b ltac:(lia) Hb) as (b1 & -> & Hb1 & Hm1 & Hr1). cbn [pbind].
    destruct (put_cut _ _ _ b1 Hw Hb1) as (b2 & -> & Hb2 & Hm2 & He2). exists b2. split; [done|]. split; [done|].
    split; [by eapply more_trans|]. econstructor; [done|done|done|]. by eapply rep_more.
  - destruct (IHl fuel b ltac:(lia) Hb) as (b1 & -> & Hb1 & Hm1 & Hr1). cbn [pbind].
    destruct (IHr fuel b1 ltac:(lia) Hb1) as (b2 & -> & Hb2 & Hm2 & Hr2). exists b2. split; [done|]. split; [done|].
    split; [by eapply more_trans|]. eapply rep_pipe; try done. by eapply rep_more.
  - destruct (IHl fuel b ltac:(lia) Hb) as (b1 & -> & Hb1 & Hm1 & Hr1). cbn [pbind].
    destruct (IHr fuel b1 ltac:(lia) Hb1) as (b2 & -> & Hb2 & Hm2 & Hr2). exists b2. split; [done|]. split; [done|].
    split; [by eapply more_trans|]. eapply rep_list; try done. by eapply rep_more.
  - destruct (IH fuel b ltac:(lia) Hb) as (b1 & -> & Hb1 & Hm1 & Hr1). exists b1. split; [done|]. split; [done|]. split; [done|].
    by eapply rep_back.
Qed.

(** The C string of a word that was cut off. *)
Lemma ended_string b q e w : cut b -> ended b q e w -> cstring (drop q b) = w.
Proof.
  intros [Hl Hb] [Hw He]. destruct (iw_end _ _ _ Hw) as [<- Hle]. pose proof (iw_text _ _ _ Hw) as Ht. pose proof (iw_chars _ _ _ Hw) as Hc.
  rewrite <- (take_drop (length w) (drop q b)), drop_drop, (drop_S _ 0 _ He).
  assert (take (length w) (drop q b) = w) as ->.
  { apply list_eq. intros i. destruct (decide (i < length w)%nat) as [Hi|Hi].
    - destruct (lookup_lt_is_Some_2 w i Hi) as [c Hwi]. rewrite lookup_take_lt, lookup_drop by done. rewrite Hwi.
      rewrite <- Ht in Hwi. rewrite lookup_take_lt, lookup_drop in Hwi by done.
      destruct (Hb (q + i)%nat c) as [?|[_ Hnw]]; [by apply lookup_app_l_Some|done|].
      rewrite <- lookup_drop, <- (lookup_take_lt _ _ _ Hi), Ht in Hwi. rewrite Forall_lookup in Hc. specialize (Hc i c Hwi). by rewrite Hnw in Hc.
    - rewrite !lookup_ge_None_2; [done|lia|rewrite length_take; lia]. }
  apply cstring_zero. intros H0. rewrite Forall_forall in Hc. specialize (Hc 0 H0). done.
Qed.

(** The word at [q] as the program that is run will read it. *)
Definition reads (b : list Z) (q e : nat) (w : list Z) : Prop := cstring (drop q b) = w.

Lemma parsecmd_spec :
  match rd_line (parse_fuel es) (lex text) with
  | Some (c, []) => exists cmd ns b, parsecmd buf [] = Ret (cmd, ns, b) /\ rep (reads b) ns cmd (meaning c)
  | _ => exits (parsecmd buf [])
  end.
Proof.
  unfold parsecmd. assert (length (cstring buf) = es) as -> by (unfold buf; by rewrite cstring_zero).
  pose proof (proj1 (parse_correct (parse_fuel es)) 0%nat [] ltac:(lia) ltac:(unfold parse_fuel; lia)) as Hp.
  change (tokens 0) with (lex text) in Hp. destruct (rd_line (parse_fuel es) (lex text)) as [[c rest]|]; [|by apply exits_bind].
  destruct Hp as (cmd & s & ns & -> & Hs & Ht & _ & Hr). cbn in Ht. cbn [pbind].
  destruct (peek_spec s "" ltac:(lia)) as (s1 & -> & Hs1 & _ & Hend); [constructor|]. cbn [pbind]. rewrite Ht in Hend.
  destruct rest as [|t rest].
  - rewrite (proj1 Hend eq_refl), Nat.eqb_refl. cbn [negb].
    destruct (nulterminate_spec ns cmd (meaning c) (S (length ns)) buf) as (b & -> & Hcut & _ & Hr'); [exact Hr| | |].
    + apply rep_bound in Hr. cbn in Hr. lia.
    + split; [done|auto].
    + exists cmd, ns, b. split; [done|]. eapply rep_weaken; [|exact Hr']. intros q e w He. by eapply ended_string.
  - destruct (Nat.eqb_spec s1 es) as [E|E]; [by apply Hend in E|]. cbn [negb]. apply ends_printf; [done|]. apply exits_panic.
Qed.
End line.

(** * Running a command *)

Definition failed (what : string) (file : list Z) : prog unit :=
  do* printf 2 what [PStr (Some file)];
  Exit.

(** What a process that runs the command does. *)
Fixpoint perform (c : command) : prog unit :=
  match c with
  | Exec [] => Exit
  | Exec (a0 :: argv) =>
      do* sys (SysExec a0 (a0 :: argv));
      failed "exec %s failed
" a0
  | Redirect c file mode fd =>
      do* sys (SysClose fd);
      let* r := sys (SysOpen file mode) in
      if r <? 0 then failed "open %s failed
" file else do* perform c; Exit
  | ListC l r =>
      let* pid := fork1 in
      do* (if pid =? 0 then perform l else Ret tt);
      do* sys SysWait;
      do* perform r;
      Exit
  | PipeC l r =>
      Sys SysPipe (fun ret p =>
        if ret <? 0 then panic "pipe" else
        let* p0 := deref_u (p !! 0%nat) in
        let* p1 := deref_u (p !! 1%nat) in
        let end_of (fd p : Z) (c : command) :=
          do* sys (SysClose fd);
          do* sys (SysDup p);
          do* sys (SysClose p0);
          do* sys (SysClose p1);
          perform c in
        let* pid := fork1 in
        do* (if pid =? 0 then end_of 1 p1 l else Ret tt);
        let* pid := fork1 in
        do* (if pid =? 0 then end_of 0 p0 r else Ret tt);
        do* sys (SysClose p0);
        do* sys (SysClose p1);
        do* sys SysWait;
        do* sys SysWait;
        Exit)
  | BackC c =>
      let* pid := fork1 in
      do* (if pid =? 0 then perform c else Ret tt);
      Exit
  end.

Lemma arg_strings_slots b (qs : list (nat * nat)) ws n :
  Forall2 (fun q w => reads b q.1 q.2 w) qs ws -> arg_strings ((Some <$> qs.*1) ++ replicate (S n) None) b = Some ws.
Proof. induction 1 as [|[q e] w qs ws Hw _ IH]; [done|]. cbn in *. rewrite IH. cbn. by rewrite Hw. Qed.

Lemma runcmd_perform b ns p c fuel : rep (reads b) ns p c -> (p < fuel)%nat -> runcmd fuel ns b p = perform c.
Proof.
  intros H. revert fuel. induction H as [p qs ws Hn Hl Hq|p q f e mode fd c w Hn Hlt Hw _ IH
    |p l r cl cr Hn Hl Hr _ IHl _ IHr|p l r cl cr Hn Hl Hr _ IHl _ IHr|p q c Hn Hlt _ IH]; intros fuel Hf;
    (destruct fuel as [|fuel]; [lia|]); cbn [runcmd perform]; pose proof (node_at_le _ _ _ Hn) as Hp;
    (destruct (Nat.eqb_spec p 0) as [|_]; [lia|]); rewrite Hn; cbn [deref_u pbind]; unfold failed.
  - unfold slots. rewrite length_fmap. destruct (MAXARGS - length qs)%nat as [|n] eqn:En; [lia|].
    pose proof (arg_strings_slots b qs ws n Hq) as Ha. destruct Hq as [|[q e] w qs ws Hw Hq]; [done|].
    rewrite Ha. unfold reads in Hw. cbn [fst] in Hw.
    change (((Some <$> ((q, e) :: qs).*1) ++ replicate (S n) None) !! 0%nat) with (Some (Some q)). cbn [deref_u pbind].
    rewrite Hw. reflexivity.
  - specialize (IH fuel ltac:(lia)). unfold reads in Hw. subst w. rewrite IH. reflexivity.
  - rewrite (IHl fuel), (IHr fuel) by lia. reflexivity.
  - rewrite (IHl fuel), (IHr fuel) by lia. reflexivity.
  - rewrite (IH fuel) by lia. reflexivity.
Qed.

Lemma exits_fork {A} (k : Z -> prog A) : (forall pid, exits (k pid)) -> exits (let* pid := fork1 in k pid).
Proof. intros Hk. cbn. intros r d _. destruct (r =? -1); [apply exits_bind, exits_panic|apply Hk]. Qed.

Lemma exits_sys {A} c (k : Z -> prog A) : (forall r, exits (k r)) -> exits (let* r := sys c in k r).
Proof. intros Hk r d _. apply Hk. Qed.

Lemma exits_perform c : exits (perform c).
Proof.
  induction c as [[|a0 argv]|c IH file mode fd|l IHl r IHr|l IHl r IHr|c IH]; cbn [perform].
  - done.
  - apply exits_sys. intros _. by apply ends_printf.
  - apply exits_sys. intros _. apply exits_sys. intros x. destruct (x <? 0); [by apply ends_printf|by apply exits_bind].
  - intros x d Hfit. destruct (Z.ltb_spec x 0); [apply exits_panic|]. destruct Hfit as [|Hd]; [lia|].
    destruct d as [|p0 [|p1 [|]]]; try done. cbn [deref_u pbind lookup list_lookup]. cbn zeta.
    apply exits_fork. intros pid. destruct (pid =? 0).
    { apply exits_bind. do 4 (apply exits_sys; intros _). exact IHl. }
    cbn [pbind]. apply exits_fork. intros pid'. destruct (pid' =? 0).
    { apply exits_bind. do 4 (apply exits_sys; intros _). exact IHr. }
    cbn [pbind]. do 4 (apply exits_sys; intros _). done.
  - apply exits_fork. intros pid. destruct (pid =? 0); [by apply exits_bind|]. cbn [pbind]. apply exits_sys. intros _. by apply exits_bind.
  - apply exits_fork. intros pid. destruct (pid =? 0); [by apply exits_bind|]. done.
Qed.

(** ** The shell *)

Lemma cstring_split buf : 0 ∈ buf -> exists junk, buf = cstring buf ++ 0 :: junk /\ 0 ∉ cstring buf.
Proof.
  induction buf as [|c buf IH]; intros H0; [by apply not_elem_of_nil in H0|]. cbn.
  destruct (Z.eqb_spec c 0) as [->|Hc]; [exists buf; split; [done|apply not_elem_of_nil]|].
  apply elem_of_cons in H0 as [|H0]; [done|]. destruct (IH H0) as (junk & E & Hn). exists junk. cbn. split; [by f_equal|].
  by apply not_elem_of_cons.
Qed.

Lemma lex_length l : (length (lex l) <= length l)%nat.
Proof.
  induction l as [l IH] using (induction_ltof1 _ length). unfold ltof in IH. destruct l as [|c l]; [done|]. cbn [lex length].
  destruct (blank c); [specialize (IH l ltac:(cbn; lia)); lia|]. destruct (symbol c).
  - destruct l as [|d l]; [cbn; lia|]. destruct (_ && _); cbn [length]; [specialize (IH l ltac:(cbn; lia))|specialize (IH (d :: l) ltac:(cbn; lia)); cbn [length] in IH |- *]; cbn [length]; lia.
  - specialize (IH l ltac:(cbn; lia)). destruct (lex l) as [|[x| |w] ts]; cbn [length] in *; try lia.
    destruct l as [|d l]; [cbn in *; lia|]. destruct (wordchar d); cbn [length] in *; lia.
Qed.

(** The line of a command is found, and a line that is found is one of a command. *)
Lemma rd_line_spell text c : grammatical c -> lex text = spell c -> rd_line (parse_fuel (length text)) (lex text) = Some (c, []).
Proof.
  intros Hg E. pose proof (lex_length text) as Hl. rewrite E in *. rewrite <- (app_nil_r (spell c)).
  apply (proj1 (rd_complete _ c [] Hg)); [unfold parse_fuel; lia|done].
Qed.

(** C6: The parser accepts exactly the shell's language.  For every line, if its tokens
    spell a command of the grammar then [parsecmd] returns, in fresh nodes, exactly that
    command, with every argument and file name a C string of the line; and if they spell none
    (or a simple command has ten arguments) it prints a message and exits.  It always
    terminates and never reads or writes outside the line or an argument array. *)
Theorem parsecmd_accepts buf :
  0 ∈ buf ->
  (forall c, grammatical c -> lex (cstring buf) = spell c ->
    exists cmd ns b, parsecmd buf [] = Ret (cmd, ns, b) /\ rep (reads b) ns cmd (meaning c)) /\
  ((forall c, grammatical c -> lex (cstring buf) <> spell c) -> exits (parsecmd buf [])).
Proof.
  intros H0. destruct (cstring_split buf H0) as (junk & E & Hn). pose proof (parsecmd_spec (cstring buf) junk Hn) as Hp.
  rewrite <- E in Hp. split.
  - intros c Hg Hl. by rewrite (rd_line_spell _ c Hg Hl) in Hp.
  - intros Hno. destruct (rd_line _ _) as [[c [|t rest]]|] eqn:Er; [|done..].
    apply rd_sound in Er as [Es Hg]. rewrite app_nil_r in Es. by destruct (Hno c Hg).
Qed.

Lemma parsecmd_accepts_witness :
  exists cmd ns b, parsecmd (lit "ls a | wc >f &
" ++ [0; 7]) [] = Ret (cmd, ns, b) /\
    rep (reads b) ns cmd (BackC (PipeC (Exec [lit "ls"; lit "a"]) (Redirect (Exec [lit "wc"]) (lit "f") 513 1))).
Proof.
  destruct (parsecmd_accepts (lit "ls a | wc >f &
" ++ [0; 7])) as [Hyes _].
  - apply (bool_decide_eq_true_1 (0 ∈ _)). by vm_compute.
  - apply (Hyes (Back (Pipe (Simple [Arg (lit "ls"); Arg (lit "a")]) (Simple [Arg (lit "wc"); Rd (Onto, lit "f")])))); by vm_compute.
Defined.



(** [cd] takes the last character of the line to be its newline: when the input ends without
    one, the last letter of the directory is lost. *)
Lemma cd_chops :
  let w := mkworld (fun fd => if fd =? 0 then lit "cd ab" else []) (fun _ => []) in
  w_out (run (streams 1) (main_loop 3 (replicate 100 0)) w).2 2 = lit "$ cannot cd a
$ ".
Proof. by vm_compute. Qed.

(** [>>] is opened like [>], at offset 0. *)
Lemma append_overwrites c f : redirect c (After, f) = redirect c (Onto, f).
Proof. done. Qed.
