(* ===== verification/ProcDefs.v ===== *)
(** Data of the process component: [param.h], [proc.h], [proc_stat.h], the
    trap frame of [x86.h] and the global variables of [proc.c], [queue.c] and
    [trap.c].  A C pointer into one of the fixed tables is the index of its
    slot, [None] is the null pointer.  The trap frame and the saved context,
    which the kernel keeps at the top of the process's kernel stack page, are
    held in the process record. *)

From S2P Require Import Prelude.

(** ** [param.h] and [proc.h] constants *)
Definition NPROC : nat := 64.
Definition NCPU : nat := 8.
Definition NOFILE : nat := 16.
Definition KSTACKSIZE : Z := 4096.
Definition NUM_QUEUES : nat := 5.
Definition AGE_LIMIT : Z := 30.
#[global] Arguments NPROC : simpl never.
#[global] Arguments NOFILE : simpl never.
#[global] Arguments NUM_QUEUES : simpl never.

(** [TIMESLICE(i)]: [(int)(1 << i)]. *)
Definition TIMESLICE (i : Z) : Z := i32 (Z.shiftl 1 i).

(** The compile-time choice [-D SCHEDULER=...]. *)
Inductive policy : Type := SCHED_RR | SCHED_FCFS | SCHED_PBS | SCHED_MLFQ.

Inductive procstate : Type :=
| UNUSED | EMBRYO | SLEEPING | RUNNABLE | RUNNING | ZOMBIE.

#[export] Instance policy_eq_dec : EqDecision policy.
Proof. solve_decision. Defined.
#[export] Instance procstate_eq_dec : EqDecision procstate.
Proof. solve_decision. Defined.

(** The addresses the kernel sleeps on, by the object they point to:
    [ChProc i] is [&ptable.proc[i]], [ChTicks] is [&ticks], [ChLog] is [&log],
    [ChBuf b] a disk buffer, [ChLock l] a sleep lock, [ChPipeR]/[ChPipeW] the
    counters [nread]/[nwrite] of a pipe, [ChInput] is [&input.r]. *)
Inductive chan : Type :=
| ChNull
| ChProc (i : nat)
| ChTicks
| ChLog
| ChBuf (b : nat)
| ChLock (l : nat)
| ChPipeR (p : nat)
| ChPipeW (p : nat)
| ChInput.

#[export] Instance chan_eq_dec : EqDecision chan.
Proof. solve_decision. Defined.

(** The address of a [struct proc *], which may be null. *)
Definition chan_of (p : option nat) : chan :=
  match p with Some i => ChProc i | None => ChNull end.

(** ** Structures *)

(** [struct trapframe] (the padding left out). *)
Record trapframe : Type := mktrapframe {
  tf_edi : Z;
  tf_esi : Z;
  tf_ebp : Z;
  tf_oesp : Z;
  tf_ebx : Z;
  tf_edx : Z;
  tf_ecx : Z;
  tf_eax : Z;
  tf_gs : Z;
  tf_fs : Z;
  tf_es : Z;
  tf_ds : Z;
  tf_trapno : Z;
  tf_err : Z;
  tf_eip : Z;
  tf_cs : Z;
  tf_eflags : Z;
  tf_esp : Z;
  tf_ss : Z
}.

(** [struct context]. *)
Record context : Type := mkcontext {
  c_edi : Z;
  c_esi : Z;
  c_ebx : Z;
  c_ebp : Z;
  c_eip : Z
}.

(** [struct proc]. *)
Record proc : Type := mkproc {
  p_sz : Z;  (* size of process memory (bytes) *)
  p_pgdir : Z;  (* page table; 0 is none *)
  p_kstack : Z;  (* bottom of the kernel stack; 0 is none *)
  p_state : procstate;  (* process state *)
  p_pid : Z;  (* process id *)
  p_parent : option nat;  (* parent, an index of the table *)
  p_tf : trapframe;  (* trap frame of the current system call *)
  p_context : context;  (* saved registers of the kernel thread *)
  p_chan : chan;  (* what it sleeps on *)
  p_killed : Z;  (* non-zero: has been killed *)
  p_ofile : list (option nat);  (* open files, indices of the file table *)
  p_cwd : option nat;  (* current directory, an index of the inode cache *)
  p_name : list Z;  (* name, 16 bytes *)
  p_start_time : Z;
  p_end_time : Z;
  p_run_time : Z;
  p_priority : Z;  (* for PBS, in 0..100 *)
  p_timeslices : Z;
  p_age_time : Z;  (* when it entered its current queue *)
  p_cur_timeslices : Z;  (* timeslices in the current run *)
  p_queue : Z;  (* its ready queue *)
  p_punish : Z;
  p_num_run : Z;
  p_ticks : list Z  (* ticks received in each queue *)
}.

(** [struct node]: a cell of an MLFQ ready queue. *)
Record node : Type := mknode {
  n_next : option nat;
  n_p : option nat;
  n_use : Z
}.

(** The state guarded by [ptable.lock], and the clock. *)
Record pstate : Type := mkpstate {
  ptable_locked : bool;  (* is ptable.lock held? *)
  ptable : list proc;  (* ptable.proc *)
  nextpid : Z;
  initproc : option nat;
  ticks : Z;  (* the clock, a uint *)
  surplus_nodes : list node;
  queues : list (option nat)  (* heads; lower indices have higher priority *)
}.

(** [struct proc_stat], what [getpinfo] fills in. *)
Record proc_stat : Type := mkproc_stat {
  ps_pid : Z;
  ps_runtime : Z;
  ps_num_run : Z;
  ps_current_queue : Z;
  ps_ticks : list Z
}.

(** ** Field assignment *)

Definition set_tf_eax (v : Z) (r : trapframe) : trapframe :=
  mktrapframe (tf_edi r) (tf_esi r) (tf_ebp r) (tf_oesp r) (tf_ebx r)
    (tf_edx r) (tf_ecx r) v (tf_gs r) (tf_fs r) (tf_es r) (tf_ds r)
    (tf_trapno r) (tf_err r) (tf_eip r) (tf_cs r) (tf_eflags r) (tf_esp r)
    (tf_ss r).
Definition set_tf_eip (v : Z) (r : trapframe) : trapframe :=
  mktrapframe (tf_edi r) (tf_esi r) (tf_ebp r) (tf_oesp r) (tf_ebx r)
    (tf_edx r) (tf_ecx r) (tf_eax r) (tf_gs r) (tf_fs r) (tf_es r) (tf_ds r)
    (tf_trapno r) (tf_err r) v (tf_cs r) (tf_eflags r) (tf_esp r) (tf_ss r).
Definition set_tf_esp (v : Z) (r : trapframe) : trapframe :=
  mktrapframe (tf_edi r) (tf_esi r) (tf_ebp r) (tf_oesp r) (tf_ebx r)
    (tf_edx r) (tf_ecx r) (tf_eax r) (tf_gs r) (tf_fs r) (tf_es r) (tf_ds r)
    (tf_trapno r) (tf_err r) (tf_eip r) (tf_cs r) (tf_eflags r) v (tf_ss r).
Definition set_c_eip (v : Z) (r : context) : context :=
  mkcontext (c_edi r) (c_esi r) (c_ebx r) (c_ebp r) v.
Definition set_p_sz (v : Z) (r : proc) : proc :=
  mkproc v (p_pgdir r) (p_kstack r) (p_state r) (p_pid r) (p_parent r) (p_tf
    r) (p_context r) (p_chan r) (p_killed r) (p_ofile r) (p_cwd r) (p_name
    r) (p_start_time r) (p_end_time r) (p_run_time r) (p_priority r)
    (p_timeslices r) (p_age_time r) (p_cur_timeslices r) (p_queue r)
    (p_punish r) (p_num_run r) (p_ticks r).
Definition set_p_pgdir (v : Z) (r : proc) : proc :=
  mkproc (p_sz r) v (p_kstack r) (p_state r) (p_pid r) (p_parent r) (p_tf r)
    (p_context r) (p_chan r) (p_killed r) (p_ofile r) (p_cwd r) (p_name r)
    (p_start_time r) (p_end_time r) (p_run_time r) (p_priority r)
    (p_timeslices r) (p_age_time r) (p_cur_timeslices r) (p_queue r)
    (p_punish r) (p_num_run r) (p_ticks r).
Definition set_p_kstack (v : Z) (r : proc) : proc :=
  mkproc (p_sz r) (p_pgdir r) v (p_state r) (p_pid r) (p_parent r) (p_tf r)
    (p_context r) (p_chan r) (p_killed r) (p_ofile r) (p_cwd r) (p_name r)
    (p_start_time r) (p_end_time r) (p_run_time r) (p_priority r)
    (p_timeslices r) (p_age_time r) (p_cur_timeslices r) (p_queue r)
    (p_punish r) (p_num_run r) (p_ticks r).
Definition set_p_state (v : procstate) (r : proc) : proc :=
  mkproc (p_sz r) (p_pgdir r) (p_kstack r) v (p_pid r) (p_parent r) (p_tf r)
    (p_context r) (p_chan r) (p_killed r) (p_ofile r) (p_cwd r) (p_name r)
    (p_start_time r) (p_end_time r) (p_run_time r) (p_priority r)
    (p_timeslices r) (p_age_time r) (p_cur_timeslices r) (p_queue r)
    (p_punish r) (p_num_run r) (p_ticks r).
Definition set_p_pid (v : Z) (r : proc) : proc :=
  mkproc (p_sz r) (p_pgdir r) (p_kstack r) (p_state r) v (p_parent r) (p_tf
    r) (p_context r) (p_chan r) (p_killed r) (p_ofile r) (p_cwd r) (p_name
    r) (p_start_time r) (p_end_time r) (p_run_time r) (p_priority r)
    (p_timeslices r) (p_age_time r) (p_cur_timeslices r) (p_queue r)
    (p_punish r) (p_num_run r) (p_ticks r).
Definition set_p_parent (v : option nat) (r : proc) : proc :=
  mkproc (p_sz r) (p_pgdir r) (p_kstack r) (p_state r) (p_pid r) v (p_tf r)
    (p_context r) (p_chan r) (p_killed r) (p_ofile r) (p_cwd r) (p_name r)
    (p_start_time r) (p_end_time r) (p_run_time r) (p_priority r)
    (p_timeslices r) (p_age_time r) (p_cur_timeslices r) (p_queue r)
    (p_punish r) (p_num_run r) (p_ticks r).
Definition set_p_tf (v : trapframe) (r : proc) : proc :=
  mkproc (p_sz r) (p_pgdir r) (p_kstack r) (p_state r) (p_pid r) (p_parent
    r) v (p_context r) (p_chan r) (p_killed r) (p_ofile r) (p_cwd r) (p_name
    r) (p_start_time r) (p_end_time r) (p_run_time r) (p_priority r)
    (p_timeslices r) (p_age_time r) (p_cur_timeslices r) (p_queue r)
    (p_punish r) (p_num_run r) (p_ticks r).
Definition set_p_context (v : context) (r : proc) : proc :=
  mkproc (p_sz r) (p_pgdir r) (p_kstack r) (p_state r) (p_pid r) (p_parent
    r) (p_tf r) v (p_chan r) (p_killed r) (p_ofile r) (p_cwd r) (p_name r)
    (p_start_time r) (p_end_time r) (p_run_time r) (p_priority r)
    (p_timeslices r) (p_age_time r) (p_cur_timeslices r) (p_queue r)
    (p_punish r) (p_num_run r) (p_ticks r).
Definition set_p_chan (v : chan) (r : proc) : proc :=
  mkproc (p_sz r) (p_pgdir r) (p_kstack r) (p_state r) (p_pid r) (p_parent
    r) (p_tf r) (p_context r) v (p_killed r) (p_ofile r) (p_cwd r) (p_name
    r) (p_start_time r) (p_end_time r) (p_run_time r) (p_priority r)
    (p_timeslices r) (p_age_time r) (p_cur_timeslices r) (p_queue r)
    (p_punish r) (p_num_run r) (p_ticks r).
Definition set_p_killed (v : Z) (r : proc) : proc :=
  mkproc (p_sz r) (p_pgdir r) (p_kstack r) (p_state r) (p_pid r) (p_parent
    r) (p_tf r) (p_context r) (p_chan r) v (p_ofile r) (p_cwd r) (p_name r)
    (p_start_time r) (p_end_time r) (p_run_time r) (p_priority r)
    (p_timeslices r) (p_age_time r) (p_cur_timeslices r) (p_queue r)
    (p_punish r) (p_num_run r) (p_ticks r).
Definition set_p_ofile (v : list (option nat)) (r : proc) : proc :=
  mkproc (p_sz r) (p_pgdir r) (p_kstack r) (p_state r) (p_pid r) (p_parent
    r) (p_tf r) (p_context r) (p_chan r) (p_killed r) v (p_cwd r) (p_name r)
    (p_start_time r) (p_end_time r) (p_run_time r) (p_priority r)
    (p_timeslices r) (p_age_time r) (p_cur_timeslices r) (p_queue r)
    (p_punish r) (p_num_run r) (p_ticks r).
Definition set_p_cwd (v : option nat) (r : proc) : proc :=
  mkproc (p_sz r) (p_pgdir r) (p_kstack r) (p_state r) (p_pid r) (p_parent
    r) (p_tf r) (p_context r) (p_chan r) (p_killed r) (p_ofile r) v (p_name
    r) (p_start_time r) (p_end_time r) (p_run_time r) (p_priority r)
    (p_timeslices r) (p_age_time r) (p_cur_timeslices r) (p_queue r)
    (p_punish r) (p_num_run r) (p_ticks r).
Definition set_p_name (v : list Z) (r : proc) : proc :=
  mkproc (p_sz r) (p_pgdir r) (p_kstack r) (p_state r) (p_pid r) (p_parent
    r) (p_tf r) (p_context r) (p_chan r) (p_killed r) (p_ofile r) (p_cwd r)
    v (p_start_time r) (p_end_time r) (p_run_time r) (p_priority r)
    (p_timeslices r) (p_age_time r) (p_cur_timeslices r) (p_queue r)
    (p_punish r) (p_num_run r) (p_ticks r).
Definition set_p_start_time (v : Z) (r : proc) : proc :=
  mkproc (p_sz r) (p_pgdir r) (p_kstack r) (p_state r) (p_pid r) (p_parent
    r) (p_tf r) (p_context r) (p_chan r) (p_killed r) (p_ofile r) (p_cwd r)
    (p_name r) v (p_end_time r) (p_run_time r) (p_priority r) (p_timeslices
    r) (p_age_time r) (p_cur_timeslices r) (p_queue r) (p_punish r)
    (p_num_run r) (p_ticks r).
Definition set_p_end_time (v : Z) (r : proc) : proc :=
  mkproc (p_sz r) (p_pgdir r) (p_kstack r) (p_state r) (p_pid r) (p_parent
    r) (p_tf r) (p_context r) (p_chan r) (p_killed r) (p_ofile r) (p_cwd r)
    (p_name r) (p_start_time r) v (p_run_time r) (p_priority r)
    (p_timeslices r) (p_age_time r) (p_cur_timeslices r) (p_queue r)
    (p_punish r) (p_num_run r) (p_ticks r).
Definition set_p_run_time (v : Z) (r : proc) : proc :=
  mkproc (p_sz r) (p_pgdir r) (p_kstack r) (p_state r) (p_pid r) (p_parent
    r) (p_tf r) (p_context r) (p_chan r) (p_killed r) (p_ofile r) (p_cwd r)
    (p_name r) (p_start_time r) (p_end_time r) v (p_priority r)
    (p_timeslices r) (p_age_time r) (p_cur_timeslices r) (p_queue r)
    (p_punish r) (p_num_run r) (p_ticks r).
Definition set_p_priority (v : Z) (r : proc) : proc :=
  mkproc (p_sz r) (p_pgdir r) (p_kstack r) (p_state r) (p_pid r) (p_parent
    r) (p_tf r) (p_context r) (p_chan r) (p_killed r) (p_ofile r) (p_cwd r)
    (p_name r) (p_start_time r) (p_end_time r) (p_run_time r) v
    (p_timeslices r) (p_age_time r) (p_cur_timeslices r) (p_queue r)
    (p_punish r) (p_num_run r) (p_ticks r).
Definition set_p_timeslices (v : Z) (r : proc) : proc :=
  mkproc (p_sz r) (p_pgdir r) (p_kstack r) (p_state r) (p_pid r) (p_parent
    r) (p_tf r) (p_context r) (p_chan r) (p_killed r) (p_ofile r) (p_cwd r)
    (p_name r) (p_start_time r) (p_end_time r) (p_run_time r) (p_priority r)
    v (p_age_time r) (p_cur_timeslices r) (p_queue r) (p_punish r)
    (p_num_run r) (p_ticks r).
Definition set_p_age_time (v : Z) (r : proc) : proc :=
  mkproc (p_sz r) (p_pgdir r) (p_kstack r) (p_state r) (p_pid r) (p_parent
    r) (p_tf r) (p_context r) (p_chan r) (p_killed r) (p_ofile r) (p_cwd r)
    (p_name r) (p_start_time r) (p_end_time r) (p_run_time r) (p_priority r)
    (p_timeslices r) v (p_cur_timeslices r) (p_queue r) (p_punish r)
    (p_num_run r) (p_ticks r).
Definition set_p_cur_timeslices (v : Z) (r : proc) : proc :=
  mkproc (p_sz r) (p_pgdir r) (p_kstack r) (p_state r) (p_pid r) (p_parent
    r) (p_tf r) (p_context r) (p_chan r) (p_killed r) (p_ofile r) (p_cwd r)
    (p_name r) (p_start_time r) (p_end_time r) (p_run_time r) (p_priority r)
    (p_timeslices r) (p_age_time r) v (p_queue r) (p_punish r) (p_num_run r)
    (p_ticks r).
Definition set_p_queue (v : Z) (r : proc) : proc :=
  mkproc (p_sz r) (p_pgdir r) (p_kstack r) (p_state r) (p_pid r) (p_parent
    r) (p_tf r) (p_context r) (p_chan r) (p_killed r) (p_ofile r) (p_cwd r)
    (p_name r) (p_start_time r) (p_end_time r) (p_run_time r) (p_priority r)
    (p_timeslices r) (p_age_time r) (p_cur_timeslices r) v (p_punish r)
    (p_num_run r) (p_ticks r).
Definition set_p_punish (v : Z) (r : proc) : proc :=
  mkproc (p_sz r) (p_pgdir r) (p_kstack r) (p_state r) (p_pid r) (p_parent
    r) (p_tf r) (p_context r) (p_chan r) (p_killed r) (p_ofile r) (p_cwd r)
    (p_name r) (p_start_time r) (p_end_time r) (p_run_time r) (p_priority r)
    (p_timeslices r) (p_age_time r) (p_cur_timeslices r) (p_queue r) v
    (p_num_run r) (p_ticks r).
Definition set_p_num_run (v : Z) (r : proc) : proc :=
  mkproc (p_sz r) (p_pgdir r) (p_kstack r) (p_state r) (p_pid r) (p_parent
    r) (p_tf r) (p_context r) (p_chan r) (p_killed r) (p_ofile r) (p_cwd r)
    (p_name r) (p_start_time r) (p_end_time r) (p_run_time r) (p_priority r)
    (p_timeslices r) (p_age_time r) (p_cur_timeslices r) (p_queue r)
    (p_punish r) v (p_ticks r).
Definition set_p_ticks (v : list Z) (r : proc) : proc :=
  mkproc (p_sz r) (p_pgdir r) (p_kstack r) (p_state r) (p_pid r) (p_parent
    r) (p_tf r) (p_context r) (p_chan r) (p_killed r) (p_ofile r) (p_cwd r)
    (p_name r) (p_start_time r) (p_end_time r) (p_run_time r) (p_priority r)
    (p_timeslices r) (p_age_time r) (p_cur_timeslices r) (p_queue r)
    (p_punish r) (p_num_run r) v.
Definition set_n_next (v : option nat) (r : node) : node :=
  mknode v (n_p r) (n_use r).
Definition set_n_p (v : option nat) (r : node) : node :=
  mknode (n_next r) v (n_use r).
Definition set_n_use (v : Z) (r : node) : node :=
  mknode (n_next r) (n_p r) v.
Definition set_ptable_locked (v : bool) (r : pstate) : pstate :=
  mkpstate v (ptable r) (nextpid r) (initproc r) (ticks r) (surplus_nodes r)
    (queues r).
Definition set_ptable (v : list proc) (r : pstate) : pstate :=
  mkpstate (ptable_locked r) v (nextpid r) (initproc r) (ticks r)
    (surplus_nodes r) (queues r).
Definition set_nextpid (v : Z) (r : pstate) : pstate :=
  mkpstate (ptable_locked r) (ptable r) v (initproc r) (ticks r)
    (surplus_nodes r) (queues r).
Definition set_initproc (v : option nat) (r : pstate) : pstate :=
  mkpstate (ptable_locked r) (ptable r) (nextpid r) v (ticks r)
    (surplus_nodes r) (queues r).
Definition set_ticks (v : Z) (r : pstate) : pstate :=
  mkpstate (ptable_locked r) (ptable r) (nextpid r) (initproc r) v
    (surplus_nodes r) (queues r).
Definition set_surplus_nodes (v : list node) (r : pstate) : pstate :=
  mkpstate (ptable_locked r) (ptable r) (nextpid r) (initproc r) (ticks r) v
    (queues r).
Definition set_queues (v : list (option nat)) (r : pstate) : pstate :=
  mkpstate (ptable_locked r) (ptable r) (nextpid r) (initproc r) (ticks r)
    (surplus_nodes r) v.

(** Update the process at index [i] (an index outside the table is caught by
    the operations before they write). *)
Definition upd_proc (i : nat) (f : proc -> proc) (s : pstate) : pstate :=
  set_ptable (alter f i (ptable s)) s.
Definition upd_node (i : nat) (f : node -> node) (l : list node) : list node :=
  alter f i l.

(** ** Zero-initialised (BSS) values *)
Definition trapframe0 : trapframe :=
  mktrapframe 0 0 0 0 0 0 0 0 0 0 0 0 0 0 0 0 0 0 0.
Definition context0 : context := mkcontext 0 0 0 0 0.
Definition proc0 : proc :=
  mkproc 0 0 0 UNUSED 0 None trapframe0 context0 ChNull 0
    (replicate NOFILE None) None (replicate 16 0) 0 0 0 0 0 0 0 0 0 0
    (replicate NUM_QUEUES 0).
Definition node0 : node := mknode None None 0.
Definition pstate0 : pstate :=
  mkpstate false (replicate NPROC proc0) 1 None 0 (replicate NPROC node0)
    (replicate NUM_QUEUES None).

(** ** Lookup through an update *)

Lemma ptable_upd_proc i f s : ptable (upd_proc i f s) = alter f i (ptable s).
Proof. done. Qed.

Lemma length_upd_proc i f s :
  length (ptable (upd_proc i f s)) = length (ptable s).
Proof. apply length_alter. Qed.

Lemma lookup_upd_proc_eq i f s :
  ptable (upd_proc i f s) !! i = f <$> ptable s !! i.
Proof. apply list_lookup_alter_eq. Qed.

Lemma lookup_upd_proc_ne i j f s :
  i <> j -> ptable (upd_proc i f s) !! j = ptable s !! j.
Proof. apply list_lookup_alter_ne. Qed.

#[export] Hint Rewrite length_upd_proc : kernel.
