(* ===== verification/Console.v ===== *)
(** The console ([console.c]) with the serial line ([uart.c]) and the keyboard ([kbd.c],
    [kbd.h]): formatted output, the screen, line editing and the reads and writes of the
    console device.

    The ports of the devices are an interface, the class [Ports]; [Crt] states what is
    relied on of the cursor registers of the display.  [cons.lock] is held throughout
    [consoleintr], [consolewrite] and each stretch of [consoleread] between two sleeps,
    which are the units here. *)

From S2P Require Import Prelude CString Mem USys ProcDefs.

(** ** The devices *)

Class Ports (D : Type) := {
  inb : Z -> D -> Z * D;
  outb : Z -> Z -> D -> D
}.

Definition CRTPORT : Z := 0x3d4.
Definition COM1 : Z := 0x3f8.

(** [cursor] is the cursor position in registers 14 and 15, [index] the register selected. *)
Class Crt (D : Type) `{Ports D} := {
  cursor : D -> Z;
  index : D -> Z;
  cursor_range d : 0 <= cursor d < 2 ^ 16;
  crt_select v d : cursor (outb CRTPORT v d) = cursor d /\ index (outb CRTPORT v d) = u8 v;
  crt_read d : let (v, d') := inb (CRTPORT + 1) d in cursor d' = cursor d /\ index d' = index d /\
    (index d = 14 -> v = cursor d / 256) /\ (index d = 15 -> v = cursor d mod 256);
  crt_write v d : index (outb (CRTPORT + 1) v d) = index d /\
    (index d = 14 -> cursor (outb (CRTPORT + 1) v d) = u8 v * 256 + cursor d mod 256) /\
    (index d = 15 -> cursor (outb (CRTPORT + 1) v d) = cursor d / 256 * 256 + u8 v);
  crt_other p v d : p <> CRTPORT -> p <> CRTPORT + 1 ->
    cursor (outb p v d) = cursor d /\ cursor (inb p d).2 = cursor d
}.

Record console (D : Type) := mkcons {
  dev : D;
  uart : bool;
  crt : list Z;
  panicked : bool;
  ibuf : list Z; ir : Z; iw : Z; ie : Z;
  woken : bool
}.
Arguments mkcons {D} dev uart crt panicked ibuf ir iw ie woken.
Arguments dev {D} c.
Arguments uart {D} c.
Arguments crt {D} c.
Arguments panicked {D} c.
Arguments ibuf {D} c.
Arguments ir {D} c.
Arguments iw {D} c.
Arguments ie {D} c.
Arguments woken {D} c.

Module Console.
Section console.
Context {D : Type} `{Ports D}.
Abbreviation C A := (M (console D) A).

Definition set_dev (d : D) : C unit :=
  modify (fun s => mkcons d (uart s) (crt s) (panicked s) (ibuf s) (ir s) (iw s) (ie s) (woken s)).
Definition set_uart (u : bool) : C unit :=
  modify (fun s => mkcons (dev s) u (crt s) (panicked s) (ibuf s) (ir s) (iw s) (ie s) (woken s)).
Definition set_crt (c : list Z) : C unit :=
  modify (fun s => mkcons (dev s) (uart s) c (panicked s) (ibuf s) (ir s) (iw s) (ie s) (woken s)).
Definition set_input (b : list Z) (r w e : Z) : C unit :=
  modify (fun s => mkcons (dev s) (uart s) (crt s) (panicked s) b r w e (woken s)).
Definition wakeup_r : C unit :=
  modify (fun s => mkcons (dev s) (uart s) (crt s) (panicked s) (ibuf s) (ir s) (iw s) (ie s) true).

Definition in_port (p : Z) : C Z :=
  let! d := gets dev in let (v, d) := inb p d in do! set_dev d; ret v.
Definition out_port (p v : Z) : C unit :=
  let! d := gets dev in set_dev (outb p v d).

(** ** The serial line *)

(** [for(i = 0; i < 128 && !(inb(COM1+5) & 0x20); i++) microdelay(10);] *)
Fixpoint uart_wait (n : nat) : C unit :=
  match n with
  | O => ret tt
  | S n =>
      let! st := in_port (COM1 + 5) in
      if negb (Z.land st 0x20 =? 0) then ret tt else uart_wait n
  end.

Definition uartputc (c : Z) : C unit :=
  let! u := gets uart in
  if negb u then ret tt else
  do! uart_wait 128;
  out_port (COM1 + 0) (u8 c).

Definition uartgetc : C Z :=
  let! u := gets uart in
  if negb u then ret (-1) else
  let! st := in_port (COM1 + 5) in
  if Z.land st 0x01 =? 0 then ret (-1) else in_port (COM1 + 0).

Definition uartinit : C unit :=
  do! out_port (COM1 + 2) 0;
  do! out_port (COM1 + 3) 0x80;
  do! out_port (COM1 + 0) (115200 / 9600);
  do! out_port (COM1 + 1) 0;
  do! out_port (COM1 + 3) 0x03;
  do! out_port (COM1 + 4) 0;
  do! out_port (COM1 + 1) 0x01;
  let! st := in_port (COM1 + 5) in
  if st =? 0xFF then ret tt else
  do! set_uart true;
  do! in_port (COM1 + 2);
  do! in_port (COM1 + 0);
  for_each (lit "xv6...
") uartputc.

(** ** The screen *)

Definition BACKSPACE : Z := 0x100.

(** A store into the display memory. *)
Definition put_cell (i v : Z) : C unit :=
  let! c := gets crt in
  if (0 <=? i) && (i <? Z.of_nat (length c)) then set_crt (<[Z.to_nat i := v]> c) else fault.

Definition scroll_up (pos : Z) : C Z :=
  if pos / 80 >=? 24 then
    let! c := gets crt in
    let c := splice 0 (slice 80 (23 * 80) c) c in
    let pos := pos - 80 in
    do! set_crt (splice (Z.to_nat pos) (replicate (Z.to_nat (24 * 80 - pos)) 0) c);
    ret pos
  else ret pos.

Definition cgaputc (c : Z) : C unit :=
  do! out_port CRTPORT 14;
  let! h := in_port (CRTPORT + 1) in
  do! out_port CRTPORT 15;
  let! l := in_port (CRTPORT + 1) in
  let pos := Z.lor (Z.shiftl h 8) l in
  let! pos :=
    (if c =? 10 then ret (pos + (80 - pos mod 80))
     else if c =? BACKSPACE then ret (if pos >? 0 then pos - 1 else pos)
     else do! put_cell pos (Z.lor (Z.land c 0xff) 0x0700); ret (pos + 1)) in
  if (pos <? 0) || (pos >? 25 * 80) then panic "pos under/overflow" else
  let! pos := scroll_up pos in
  do! out_port CRTPORT 14;
  do! out_port (CRTPORT + 1) (u8 (Z.shiftr pos 8));
  do! out_port CRTPORT 15;
  do! out_port (CRTPORT + 1) (u8 pos);
  put_cell pos (Z.lor 32 0x0700).

(** After a panic the processor spins. *)
Definition consputc (c : Z) : C unit :=
  let! p := gets panicked in
  if p then nofuel else
  do! (if c =? BACKSPACE then do! uartputc 8; do! uartputc 32; uartputc 8 else uartputc c);
  cgaputc c.

(** ** Formatted output *)

Inductive carg := CInt (z : Z) | CStr (s : option (list Z)).

Definition digits : list Z := lit "0123456789abcdef".

Fixpoint digit_loop (fuel : nat) (x base : Z) (i : nat) (buf : list Z) : C (nat * list Z) :=
  match fuel with
  | O => nofuel
  | S fuel =>
      let! c := deref (digits !! Z.to_nat (x mod base)) in
      do! deref (buf !! i);
      let buf := <[i := c]> buf in
      let x := x / base in
      if x =? 0 then ret (S i, buf) else digit_loop fuel x base (S i) buf
  end.

Fixpoint put_down (i : nat) (buf : list Z) : C unit :=
  match i with
  | O => ret tt
  | S i => let! c := deref (buf !! i) in do! consputc c; put_down i buf
  end.

(** [buf] holds whatever was on the stack. *)
Definition printint (junk : list Z) (xx base : Z) (sign : bool) : C unit :=
  let sign := sign && (xx <? 0) in
  let x := if sign then u32 (- xx) else u32 xx in
  let! (i, buf) := digit_loop 33 x base 0 junk in
  let! (i, buf) := (if sign then do! deref (buf !! i); ret (S i, <[i := 45]> buf) else ret (i, buf)) in
  put_down i buf.

Fixpoint cprintf_loop (fuel : nat) (fmt : list Z) (argp : list carg) : C unit :=
  match fuel with
  | O => nofuel
  | S fuel =>
      match fmt with
      | [] => ret tt
      | c :: fmt =>
          let c := Z.land c 0xff in
          if negb (c =? 37) then do! consputc c; cprintf_loop fuel fmt argp else
          match fmt with
          | [] => ret tt
          | c :: fmt =>
              let c := Z.land c 0xff in
              if c =? 100 then
                match argp with
                | CInt z :: argp => do! printint (replicate 16 0) (i32 z) 10 true; cprintf_loop fuel fmt argp
                | _ => fault
                end
              else if (c =? 120) || (c =? 112) then
                match argp with
                | CInt z :: argp => do! printint (replicate 16 0) (i32 z) 16 false; cprintf_loop fuel fmt argp
                | _ => fault
                end
              else if c =? 115 then
                match argp with
                | CStr s :: argp => do! for_each (default (lit "(null)") s) consputc; cprintf_loop fuel fmt argp
                | _ => fault
                end
              else if c =? 37 then do! consputc 37; cprintf_loop fuel fmt argp
              else do! consputc 37; do! consputc c; cprintf_loop fuel fmt argp
          end
      end
  end.
Definition cprintf (fmt : list Z) (argp : list carg) : C unit :=
  cprintf_loop (S (length fmt)) fmt argp.

(** The listing of processes; [pcs] are the callers a sleeping process was found in. *)
Definition state_name (st : procstate) : list Z :=
  match st with
  | UNUSED => lit "unused" | EMBRYO => lit "embryo" | SLEEPING => lit "sleep "
  | RUNNABLE => lit "runble" | RUNNING => lit "run   " | ZOMBIE => lit "zombie"
  end.
Fixpoint print_pcs (pc : list Z) : C unit :=
  match pc with
  | [] => ret tt
  | p :: pc => if p =? 0 then ret tt else do! cprintf (lit " %p") [CInt p]; print_pcs pc
  end.
Definition procdump (tbl : list proc) (pcs : proc -> list Z) : C unit :=
  for_each tbl (fun p =>
    if bool_decide (p_state p = UNUSED) then ret tt else
    do! cprintf (lit "%d %s %s") [CInt (p_pid p); CStr (Some (state_name (p_state p))); CStr (Some (cstring (p_name p)))];
    do! (if bool_decide (p_state p = SLEEPING) then print_pcs (take 10 (pcs p)) else ret tt);
    cprintf (lit "
") []).

(** ** Line editing *)

Definition INPUT_BUF : Z := 128.
(** [C('D')], [C('H')], [C('P')], [C('U')] *)
Definition CTRL_D : Z := 4.
Definition CTRL_H : Z := 8.
Definition CTRL_P : Z := 16.
Definition CTRL_U : Z := 21.
Definition DEL : Z := 0x7f.

Definition slot (i : Z) : nat := Z.to_nat (i mod INPUT_BUF).

(** [while(input.e != input.w && input.buf[(input.e-1) % INPUT_BUF] != '\n')] *)
Fixpoint kill_line (fuel : nat) : C unit :=
  match fuel with
  | O => nofuel
  | S fuel =>
      let! s := get in
      if ie s =? iw s then ret tt else
      let! b := deref (ibuf s !! slot (u32 (ie s - 1))) in
      if b =? 10 then ret tt else
      do! set_input (ibuf s) (ir s) (iw s) (u32 (ie s - 1));
      do! consputc BACKSPACE;
      kill_line fuel
  end.

(** One character of [consoleintr]. *)
Definition console_char (c : Z) : C unit :=
  let! s := get in
  if c =? CTRL_U then kill_line (S (Z.to_nat INPUT_BUF))
  else if (c =? CTRL_H) || (c =? DEL) then
    if negb (ie s =? iw s) then
      do! set_input (ibuf s) (ir s) (iw s) (u32 (ie s - 1));
      consputc BACKSPACE
    else ret tt
  else if negb (c =? 0) && (u32 (ie s - ir s) <? INPUT_BUF) then
    let c := if c =? 13 then 10 else c in
    do! deref (ibuf s !! slot (ie s));
    do! set_input (<[slot (ie s) := u8 c]> (ibuf s)) (ir s) (iw s) (u32 (ie s + 1));
    do! consputc c;
    let! s := get in
    if (c =? 10) || (c =? CTRL_D) || (ie s =? u32 (ir s + INPUT_BUF)) then
      do! set_input (ibuf s) (ir s) (ie s) (ie s);
      wakeup_r
    else ret tt
  else ret tt.

(** The characters that [getc] returns before it returns a negative value, then whether a
    listing of the processes was asked for. *)
Fixpoint consoleintr_loop (cs : list Z) (doprocdump : bool) : C bool :=
  match cs with
  | [] => ret doprocdump
  | c :: cs =>
      if c =? CTRL_P then consoleintr_loop cs true
      else do! console_char c; consoleintr_loop cs doprocdump
  end.
Definition consoleintr (tbl : list proc) (pcs : proc -> list Z) (cs : list Z) : C unit :=
  let! dump := consoleintr_loop cs false in
  if (dump : bool) then procdump tbl pcs else ret tt.

(** ** The device *)

(** How a stretch of [consoleread] ends: the value, or asleep with [n] bytes to go. *)
Inductive rd := Done (r : Z) | Asleep (n : nat).

(** The loop of [consoleread] with [n] of [target] bytes to go. *)
Fixpoint read_loop (killed : bool) (target n : nat) : C (rd * list Z) :=
  match n with
  | O => ret (Done (Z.of_nat target), [])
  | S n' =>
      let! s := get in
      if ir s =? iw s then
        if killed then ret (Done (-1), []) else ret (Asleep n, [])
      else
        let! c := deref (ibuf s !! slot (ir s)) in
        do! set_input (ibuf s) (u32 (ir s + 1)) (iw s) (ie s);
        if c =? CTRL_D then
          do! (if (n <? target)%nat then
                 set_input (ibuf s) (ir s) (iw s) (ie s)
               else ret tt);
          ret (Done (Z.of_nat (target - n)), [])
        else if c =? 10 then ret (Done (Z.of_nat (target - n')), [c])
        else
          let! (r, l) := read_loop killed target n' in
          ret (r, c :: l)
  end.
Definition consoleread (killed : bool) (n : nat) : C (rd * list Z) := read_loop killed n n.

Definition consolewrite (buf : list Z) : C Z :=
  do! for_each buf (fun b => consputc (Z.land b 0xff));
  ret (Z.of_nat (length buf)).

End console.
End Console.

(** * The keyboard *)

Module Kbd.

Definition KBSTATP : Z := 0x64.
Definition KBS_DIB : Z := 0x01.
Definition KBDATAP : Z := 0x60.
Definition SHIFT : Z := 1.
Definition CTL : Z := 2.
Definition ALT : Z := 4.
Definition CAPSLOCK : Z := 8.
Definition NUMLOCK : Z := 16.
Definition SCROLLLOCK : Z := 32.
Definition E0ESC : Z := 64.

(** The last entries of the three character maps. *)
Definition keypad (enter div : Z) : list (Z * Z) :=
  [(0x9C, enter); (0xB5, div); (0xC8, 0xE2); (0xD0, 0xE3); (0xC9, 0xE6); (0xD1, 0xE7);
   (0xCB, 0xE4); (0xCD, 0xE5); (0x97, 0xE0); (0xCF, 0xE1); (0xD2, 0xE8); (0xD3, 0xE9)].
Definition table (front : list Z) (at_ : list (Z * Z)) : list Z :=
  foldl (fun t '(i, v) => <[Z.to_nat i := v]> t) (front ++ replicate (256 - length front) 0) at_.

Definition shiftcode : list Z :=
  table [] [(0x1D, CTL); (0x2A, SHIFT); (0x36, SHIFT); (0x38, ALT); (0x9D, CTL); (0xB8, ALT)].
Definition togglecode : list Z :=
  table [] [(0x3A, CAPSLOCK); (0x45, NUMLOCK); (0x46, SCROLLLOCK)].

Definition normalmap : list Z :=
  table ([0; 0x1B] ++ lit "1234567890-=" ++ [8; 9] ++ lit "qwertyuiop[]" ++ [10; 0] ++
    lit "asdfghjkl;'`" ++ [0] ++ lit "\zxcvbnm,./" ++ [0] ++ lit "*" ++ [0] ++ lit " " ++
    replicate 13 0 ++ lit "789-456+1230." ++ replicate 4 0) (keypad 10 47).
Definition shiftmap : list Z :=
  table ([0; 0x1B] ++ lit "!@#$%^&*()_+" ++ [8; 9] ++ lit "QWERTYUIOP{}" ++ [10; 0] ++
    lit "ASDFGHJKL:" ++ [34] ++ lit "~" ++ [0] ++ lit "|ZXCVBNM<>?" ++ [0] ++ lit "*" ++ [0] ++ lit " " ++
    replicate 13 0 ++ lit "789-456+1230." ++ replicate 4 0) (keypad 10 47).
(** [C(x)], which a [uchar] truncates. *)
Definition ctl (s : string) : list Z := (fun c => u8 (c - 64)) <$> lit s.
Definition ctlmap : list Z :=
  table (replicate 16 0 ++ ctl "QWERTYUIOP" ++ [0; 0; 13; 0] ++ ctl "ASDFGHJKL" ++
    replicate 4 0 ++ ctl "\ZXCVBNM" ++ [0; 0] ++ ctl "/" ++ [0; 0]) (keypad 13 (u8 (47 - 64))).

Definition charcode : list (list Z) := [normalmap; shiftmap; ctlmap; ctlmap].

(** [kbdgetc] after the status said that there is a byte [data]; [None] is an access outside
    a table. *)
Definition kbd_code (shift data : Z) : option (Z * Z) :=
  if data =? 0xE0 then Some (0, Z.lor shift E0ESC)
  else if negb (Z.land data 0x80 =? 0) then
    let data := if negb (Z.land shift E0ESC =? 0) then data else Z.land data 0x7F in
    sc ← shiftcode !! Z.to_nat data;
    Some (0, Z.land shift (Z.lnot (Z.lor sc E0ESC)))
  else
    let esc := negb (Z.land shift E0ESC =? 0) in
    let data := if esc then Z.lor data 0x80 else data in
    let shift := if esc then Z.land shift (Z.lnot E0ESC) else shift in
    sc ← shiftcode !! Z.to_nat data;
    tc ← togglecode !! Z.to_nat data;
    let shift := Z.lxor (Z.lor shift sc) tc in
    map ← charcode !! Z.to_nat (Z.land shift (Z.lor CTL SHIFT));
    c ← map !! Z.to_nat data;
    let c := if negb (Z.land shift CAPSLOCK =? 0) then
               if (97 <=? c) && (c <=? 122) then c + 65 - 97
               else if (65 <=? c) && (c <=? 90) then c + 97 - 65 else c
             else c in
    Some (c, shift).

Section kbd.
Context {D : Type} `{Ports D}.

(** [shift] is a static variable of [kbdgetc]. *)
Definition kbdgetc (shift : Z) : M (console D) (Z * Z) :=
  let! st := Console.in_port KBSTATP in
  if Z.land st KBS_DIB =? 0 then ret (-1, shift) else
  let! data := Console.in_port KBDATAP in
  deref (kbd_code shift data).
End kbd.

End Kbd.
