(* ===== verification/ConsoleProps.v ===== *)
(** What the console shows and what it delivers: the screen stays within its rows, and the
    input buffer of [console.c] refines a line editor over two lists. *)

From S2P Require Import Prelude CString Mem USys ProcDefs Console.
Import Console.

(** ** The screen *)

Definition attr (c : Z) : Z := Z.lor (Z.land c 0xff) 0x0700.

(** The rows move up by one, and what follows the cursor is cleared. *)
Definition scrolled (cells : list Z) (pos : Z) : list Z :=
  splice (Z.to_nat pos) (replicate (Z.to_nat (24 * 80 - pos)) 0) (splice 0 (slice 80 (23 * 80) cells) cells).

(** A character on a screen with its cursor. *)
Definition draw (c : Z) (st : list Z * Z) : list Z * Z :=
  let '(cells, pos) := st in
  let '(cells, pos) :=
    if c =? 10 then (cells, pos + (80 - pos mod 80))
    else if c =? BACKSPACE then (cells, Z.max 0 (pos - 1))
    else (<[Z.to_nat pos := attr c]> cells, pos + 1) in
  let '(cells, pos) := if pos >=? 24 * 80 then (scrolled cells (pos - 80), pos - 80) else (cells, pos) in
  (<[Z.to_nat pos := attr 32]> cells, pos).

Definition screen_ok (st : list Z * Z) : Prop := (2000 <= length st.1)%nat /\ 0 <= st.2 < 24 * 80.

Section screen.
Context {D : Type} `{Crt D}.
Implicit Types (s : console D) (d : D).

Definition with_screen (d : D) (cells : list Z) (s : console D) : console D :=
  mkcons d (uart s) cells (panicked s) (ibuf s) (ir s) (iw s) (ie s) (woken s).
Definition screen (s : console D) : list Z * Z := (crt s, cursor (dev s)).

Lemma with_screen_self s : s = with_screen (dev s) (crt s) s.
Proof. by destruct s. Qed.

Lemma wp_in_port p Q s :
  wp (in_port p) Q s <-> Q (inb p (dev s)).1 (with_screen (inb p (dev s)).2 (crt s) s).
Proof. unfold in_port, set_dev, wp. cbn. by destruct (inb p (dev s)). Qed.
Lemma wp_out_port p v Q s : wp (out_port p v) Q s <-> Q tt (with_screen (outb p v (dev s)) (crt s) s).
Proof. done. Qed.
Lemma wp_put_cell i v Q s :
  0 <= i < Z.of_nat (length (crt s)) ->
  wp (put_cell i v) Q s <-> Q tt (with_screen (dev s) (<[Z.to_nat i := v]> (crt s)) s).
Proof.
  intros Hi. unfold put_cell. wp_steps.
  destruct (Z.leb_spec 0 i), (Z.ltb_spec i (Z.of_nat (length (crt s)))); try lia. done.
Qed.

(** The serial line leaves the screen alone. *)
Lemma uart_wait_spec n s :
  wp (uart_wait n) (fun _ s' => exists d', cursor d' = cursor (dev s) /\ s' = with_screen d' (crt s) s) s.
Proof.
  revert s. induction n as [|n IH]; intros s; cbn [uart_wait].
  - apply wp_ret. exists (dev s). split; [done|]. apply with_screen_self.
  - apply wp_bind, wp_in_port. destruct (crt_other (COM1 + 5) 0 (dev s)) as [_ Hc]; [done|done|].
    destruct (negb _); [apply wp_ret; eauto|]. eapply wp_mono; [apply IH|]. cbn. intros _ s' (d' & Hd & ->).
    exists d'. split; [congruence|done].
Qed.

Lemma uartputc_spec c s :
  wp (uartputc c) (fun _ s' => exists d', cursor d' = cursor (dev s) /\ s' = with_screen d' (crt s) s) s.
Proof.
  unfold uartputc. wp_steps. destruct (uart s); cbn [negb].
  - wp_steps. eapply wp_mono; [apply uart_wait_spec|]. cbn beta. intros _ s' (d' & Hd & ->). apply wp_out_port. cbn.
    eexists. split; [|reflexivity]. rewrite <- Hd. by apply crt_other.
  - wp_steps. exists (dev s). split; [done|]. apply with_screen_self.
Qed.

(** Writing the two halves of the cursor position. *)
Lemma cursor_written pos d :
  0 <= pos < 2 ^ 16 ->
  cursor (outb (CRTPORT + 1) (u8 pos) (outb CRTPORT 15
    (outb (CRTPORT + 1) (u8 (Z.shiftr pos 8)) (outb CRTPORT 14 d)))) = pos.
Proof.
  intros Hp. set (d1 := outb CRTPORT 14 d). set (d2 := outb (CRTPORT + 1) (u8 (Z.shiftr pos 8)) d1).
  set (d3 := outb CRTPORT 15 d2).
  destruct (crt_select 14 d) as [C1 I1]. destruct (crt_write (u8 (Z.shiftr pos 8)) d1) as (I2 & C2 & _).
  destruct (crt_select 15 d2) as [C3 I3]. destruct (crt_write (u8 pos) d3) as (_ & _ & C4).
  fold d1 in C1, I1. fold d2 in I2, C2. fold d3 in C3, I3. specialize (C2 I1). specialize (C4 I3).
  rewrite C4, C3, C2. rewrite Z.shiftr_div_pow2 by lia. unfold u8. rewrite !Z.mod_mod by lia.
  rewrite (Z.mod_small (pos / 2 ^ 8)) by (split; [apply Z.div_pos; lia|apply Z.div_lt_upper_bound; lia]).
  rewrite Z.div_add_l by lia. rewrite (Z.div_small (cursor d1 mod 256)) by (apply Z.mod_pos_bound; lia).
  pose proof (Z.div_mod pos (2 ^ 8) ltac:(lia)). change (2 ^ 8) with 256 in *. lia.
Qed.

(** Reading them. *)
Lemma cursor_read d :
  let d1 := outb CRTPORT 14 d in
  let (h, d2) := inb (CRTPORT + 1) d1 in
  let d3 := outb CRTPORT 15 d2 in
  let (l, d4) := inb (CRTPORT + 1) d3 in
  Z.lor (Z.shiftl h 8) l = cursor d /\ cursor d4 = cursor d.
Proof.
  cbn zeta. destruct (crt_select 14 d) as [C1 I1]. pose proof (crt_read (outb CRTPORT 14 d)) as R1.
  destruct (inb (CRTPORT + 1) (outb CRTPORT 14 d)) as [h d2]. destruct R1 as (C2 & _ & H2 & _).
  destruct (crt_select 15 d2) as [C3 I3]. pose proof (crt_read (outb CRTPORT 15 d2)) as R3.
  destruct (inb (CRTPORT + 1) (outb CRTPORT 15 d2)) as [l d4]. destruct R3 as (C4 & _ & _ & L4).
  rewrite (H2 I1), (L4 I3). split; [|congruence].
  pose proof (cursor_range d) as Hr. rewrite C3, C2, C1.
  rewrite Z.shiftl_mul_pow2 by lia. change (2 ^ 8) with 256.
  apply Z.bits_inj'. intros n Hn. rewrite Z.lor_spec.
  change 256 with (2 ^ 8). rewrite <- Z.shiftl_mul_pow2, <- Z.land_ones by lia. rewrite <- Z.shiftr_div_pow2 by lia.
  rewrite Z.shiftl_spec, Z.land_spec, Z.testbit_ones_nonneg by lia.
  destruct (Z.ltb_spec n 8).
  - rewrite (Z.testbit_neg_r _ (n - 8)) by lia. by rewrite andb_true_r.
  - rewrite Z.shiftr_spec by lia. rewrite andb_false_r, orb_false_r. f_equal. lia.
Qed.

Lemma draw_ok c st : screen_ok st -> screen_ok (draw c st).
Proof.
  destruct st as [cells pos]. unfold screen_ok, draw. cbn [fst snd]. intros [Hl Hp].
  pose proof (Z.mod_pos_bound pos 80 ltac:(lia)).
  set (x := if c =? 10 then _ else _). assert ((2000 <= length x.1)%nat /\ 0 <= x.2 <= 24 * 80) as [Hx1 Hx2].
  { subst x. destruct (c =? 10); [cbn; pose proof (Z.div_mod pos 80 ltac:(lia)); lia|].
    destruct (c =? BACKSPACE); cbn; [lia|]. rewrite length_insert. lia. }
  destruct x as [cells' pos']. cbn [fst snd] in *.
  destruct (pos' >=? 24 * 80) eqn:E; zb; cbn [fst snd]; rewrite length_insert; [|lia].
  assert (length (splice 0 (slice 80 (23 * 80) cells') cells') = length cells') as Hl'.
  { apply length_splice. rewrite length_slice; lia. }
  unfold scrolled. rewrite length_splice; rewrite Hl'; [lia|]. rewrite length_replicate. lia.
Qed.

Lemma scroll_up_spec x d s :
  0 <= x.2 ->
  wp (scroll_up x.2) (fun pos s' =>
    let y := if x.2 >=? 24 * 80 then (scrolled x.1 (x.2 - 80), x.2 - 80) else x in
    pos = y.2 /\ s' = with_screen d y.1 s) (with_screen d x.1 s).
Proof.
  intros Hx. unfold scroll_up. assert ((x.2 / 80 >=? 24) = (x.2 >=? 24 * 80)) as ->.
  { pose proof (Z.div_mod x.2 80 ltac:(lia)). pose proof (Z.mod_pos_bound x.2 80 ltac:(lia)).
    destruct (x.2 / 80 >=? 24) eqn:E1, (x.2 >=? 24 * 80) eqn:E2; zb; done || lia. }
  destruct (x.2 >=? 24 * 80); wp_steps; done.
Qed.

(** A character appears on the screen; nothing else of the state changes. *)
Lemma cgaputc_spec c s :
  screen_ok (screen s) ->
  wp (cgaputc c) (fun _ s' => exists d', s' = with_screen d' (draw c (screen s)).1 s /\
    cursor d' = (draw c (screen s)).2) s.
Proof.
  intros Hok. pose proof (draw_ok c _ Hok) as Hok'. destruct Hok as [Hl Hp]. cbn [screen fst snd] in Hl, Hp.
  unfold cgaputc. repeat first [rewrite wp_bind | rewrite wp_out_port | rewrite wp_in_port].
  cbn [with_screen dev crt uart panicked ibuf ir iw ie woken].
  pose proof (cursor_read (dev s)) as Hc. cbn zeta in Hc.
  destruct (inb (CRTPORT + 1) (outb CRTPORT 14 (dev s))) as [h d2]. cbn [fst snd].
  destruct (inb (CRTPORT + 1) (outb CRTPORT 15 d2)) as [l d4]. cbn [fst snd]. destruct Hc as [-> Hcur].
  set (pos := cursor (dev s)) in *.
  pose proof (Z.mod_pos_bound pos 80 ltac:(lia)) as Hm. pose proof (Z.div_mod pos 80 ltac:(lia)) as Hdm.
  set (x := if c =? 10 then (crt s, pos + (80 - pos mod 80))
            else if c =? BACKSPACE then (crt s, Z.max 0 (pos - 1)) else (<[Z.to_nat pos := attr c]> (crt s), pos + 1)).
  assert ((2000 <= length x.1)%nat /\ 0 <= x.2 <= 24 * 80) as [Hx1 Hx2].
  { subst x. destruct (c =? 10); [cbn; lia|]. destruct (c =? BACKSPACE); cbn; [lia|]. rewrite length_insert. lia. }
  assert (draw c (screen s) = (let '(cells, pos) := if x.2 >=? 24 * 80 then (scrolled x.1 (x.2 - 80), x.2 - 80) else x in
    (<[Z.to_nat pos := attr 32]> cells, pos))) as Hdraw.
  { unfold draw, screen. fold pos. fold x. by destruct x. }
  apply (wp_mono _ (fun pos' s' => pos' = x.2 /\ s' = with_screen d4 x.1 s)).
  { subst x. destruct (c =? 10); [by apply wp_ret|]. destruct (c =? BACKSPACE).
    - apply wp_ret. cbn. destruct (pos >? 0) eqn:E; zb; split; (lia || done).
    - apply wp_bind, wp_put_cell; [cbn; lia|]. by apply wp_ret. }
  intros pos' s' [-> ->]. destruct ((x.2 <? 0) || (x.2 >? 25 * 80)) eqn:E.
  { apply orb_true_iff in E as [E|E]; zb; lia. }
  clear E. apply wp_bind. eapply wp_mono; [apply scroll_up_spec; lia|]. cbn beta. intros pos' s' [Hpos ->].
  rewrite Hdraw in *. destruct (if x.2 >=? 24 * 80 then _ else x) as [cells p']. cbn [fst snd] in Hpos. subst pos'.
  destruct Hok' as [Hok1 Hok2]. cbn [fst snd] in *. rewrite length_insert in Hok1.
  repeat first [rewrite wp_bind | rewrite wp_out_port]. cbn [with_screen dev crt uart panicked ibuf ir iw ie woken].
  apply wp_put_cell; [cbn; lia|]. eexists. split; [reflexivity|]. cbn. apply cursor_written. lia.
Qed.

Lemma consputc_spec c s :
  panicked s = false -> screen_ok (screen s) ->
  wp (consputc c) (fun _ s' => exists d', s' = with_screen d' (draw c (screen s)).1 s /\
    cursor d' = (draw c (screen s)).2) s.
Proof.
  intros Hp Hok. unfold consputc. wp_steps. rewrite Hp.
  apply wp_bind. apply (wp_mono _ (fun _ s' => exists d', cursor d' = cursor (dev s) /\ s' = with_screen d' (crt s) s)).
  - assert (forall c s1, (exists d', cursor d' = cursor (dev s) /\ s1 = with_screen d' (crt s) s) ->
      wp (uartputc c) (fun _ s' => exists d', cursor d' = cursor (dev s) /\ s' = with_screen d' (crt s) s) s1) as Hu.
    { intros c1 s1 (d1 & Hd1 & ->). eapply wp_mono; [apply uartputc_spec|]. cbn. intros _ s2 (d2 & Hd2 & ->).
      exists d2. split; [congruence|done]. }
    assert (exists d', cursor d' = cursor (dev s) /\ s = with_screen d' (crt s) s) as H0'
      by (exists (dev s); split; [done|apply with_screen_self]).
    destruct (c =? BACKSPACE); [|by apply Hu]. apply wp_bind. eapply wp_mono; [by apply Hu|]. intros [] s1 Hs1.
    apply wp_bind. eapply wp_mono; [by apply Hu|]. intros [] s2 Hs2. by apply Hu.
  - intros _ s1 (d1 & Hd1 & ->). assert (screen (with_screen d1 (crt s) s) = screen s) as Hs.
    { unfold screen. cbn. by rewrite Hd1. }
    eapply wp_mono; [apply cgaputc_spec; by rewrite Hs|]. rewrite Hs. cbn. intros _ s2 (d2 & -> & Hd2). by exists d2.
Qed.

Lemma screen_drawn c d s st : cursor d = (draw c st).2 -> screen (with_screen d (draw c st).1 s) = draw c st.
Proof. intros Hd. rewrite (surjective_pairing (draw c st)), <- Hd. done. Qed.

(** A sequence of characters. *)
Definition draws (cs : list Z) (st : list Z * Z) : list Z * Z := fold_left (fun st c => draw c st) cs st.

Lemma draws_ok cs st : screen_ok st -> screen_ok (draws cs st).
Proof. revert st. induction cs as [|c cs IH]; intros st Hs; [done|]. cbn. by apply IH, draw_ok. Qed.

Lemma consputs_spec (f : Z -> Z) (cs : list Z) s :
  panicked s = false -> screen_ok (screen s) ->
  wp (for_each cs (fun c => consputc (f c))) (fun _ s' => exists d', s' = with_screen d' (draws (f <$> cs) (screen s)).1 s /\
    cursor d' = (draws (f <$> cs) (screen s)).2) s.
Proof.
  revert s. induction cs as [|c cs IH]; intros s Hp Hok; cbn [for_each fmap list_fmap].
  - apply wp_ret. exists (dev s). split; [apply with_screen_self|done].
  - apply wp_bind. eapply wp_mono; [by apply consputc_spec|]. cbn beta. intros _ s1 (d1 & -> & Hd1).
    assert (screen (with_screen d1 (draw (f c) (screen s)).1 s) = draw (f c) (screen s)) as Hs.
    { by apply screen_drawn. }
    eapply wp_mono; [apply IH; [done|rewrite Hs; by apply draw_ok]|]. rewrite Hs. cbn beta.
    intros _ s2 (d2 & -> & Hd2). by exists d2.
Qed.
End screen.

(** ** The input buffer *)

(** The line editor: the bytes that a reader may take, and the line being edited. *)
Definition edit (c : Z) (st : list Z * list Z) : list Z * list Z :=
  let '(ready, line) := st in
  if c =? CTRL_P then st
  else if c =? CTRL_U then (ready, [])
  else if (c =? CTRL_H) || (c =? DEL) then (ready, take (length line - 1) line)
  else if negb (c =? 0) && (length ready + length line <? 128)%nat then
    let c := if c =? 13 then 10 else c in
    let line := line ++ [c] in
    if (c =? 10) || (c =? CTRL_D) || (length ready + length line =? 128)%nat then (ready ++ line, []) else (ready, line)
  else st.

(** A read takes bytes up to a newline.  A [CTRL_D] ends it too; it is kept when something
    was read, so that the next read returns nothing. *)
Fixpoint take_line (target n : nat) (ready : list Z) : (rd * list Z) * list Z :=
  match n with
  | O => ((Done (Z.of_nat target), []), ready)
  | S n' =>
      match ready with
      | [] => ((Asleep n, []), [])
      | c :: rest =>
          if c =? CTRL_D then
            ((Done (Z.of_nat (target - n)), []), if (n <? target)%nat then ready else rest)
          else if c =? 10 then ((Done (Z.of_nat (target - n')), [c]), rest)
          else let '((r, l), ready) := take_line target n' rest in ((r, c :: l), ready)
      end
  end.

Section input.
Context {D : Type} `{Crt D}.
Implicit Types (s : console D).

(** The buffer holds the bytes that are ready and the line, from index [ir] on. *)
Record iinv (s : console D) (ready line : list Z) : Prop := {
  ii_len : length (ibuf s) = 128%nat;
  ii_r : 0 <= ir s < 2 ^ 32;
  ii_w : iw s = u32 (ir s + Z.of_nat (length ready));
  ii_e : ie s = u32 (ir s + Z.of_nat (length ready + length line));
  ii_fit : (length ready + length line <= 128)%nat;
  ii_bytes k c : (ready ++ line) !! k = Some c -> ibuf s !! slot (ir s + Z.of_nat k) = Some c
}.

Lemma slot_u32 x : slot (u32 x) = slot x.
Proof.
  unfold slot, u32, INPUT_BUF. f_equal. apply Z.mod_mod_divide. by exists (2 ^ 25).
Qed.

Lemma islot_lt x : (slot x < 128)%nat.
Proof. unfold slot, INPUT_BUF. pose proof (Z.mod_pos_bound x 128 ltac:(lia)). lia. Qed.

Lemma islot_inj x i j : 0 <= i < 128 -> 0 <= j < 128 -> slot (x + i) = slot (x + j) -> i = j.
Proof.
  unfold slot, INPUT_BUF. intros Hi Hj E.
  pose proof (Z.mod_pos_bound (x + i) 128 ltac:(lia)). pose proof (Z.mod_pos_bound (x + j) 128 ltac:(lia)).
  assert ((x + i) mod 128 = (x + j) mod 128) as Em by lia.
  pose proof (Z.div_mod (x + i) 128 ltac:(lia)). pose proof (Z.div_mod (x + j) 128 ltac:(lia)). lia.
Qed.

(** Two indices at most a buffer apart. *)
Lemma u32_apart r i j : 0 <= i <= 128 -> 0 <= j <= 128 -> u32 (r + i) = u32 (r + j) -> i = j.
Proof.
  unfold u32. intros Hi Hj E. pose proof (Z.div_mod (r + i) (2 ^ 32) ltac:(lia)).
  pose proof (Z.div_mod (r + j) (2 ^ 32) ltac:(lia)). lia.
Qed.

Lemma u32_add x k : u32 (u32 x + k) = u32 (x + k).
Proof. unfold u32. by rewrite Zplus_mod_idemp_l. Qed.

(** Only the screen and the devices change under output. *)
Lemma iinv_screen s d cells ready line : iinv s ready line -> iinv (with_screen d cells s) ready line.
Proof. by intros []. Qed.

Lemma iinv_empty s ready line : iinv s ready line -> (ie s =? iw s) = bool_decide (line = []).
Proof.
  intros [_ _ Hw He Hf _]. rewrite Hw, He. destruct line as [|c line].
  - rewrite bool_decide_eq_true_2 by done. cbn. by rewrite Nat.add_0_r, Z.eqb_refl.
  - rewrite bool_decide_eq_false_2 by done. apply Z.eqb_neq. intros E. cbn [length] in *. apply u32_apart in E; lia.
Qed.

(** Taking back the last character of the line. *)
Lemma iinv_back s ready line c :
  iinv s ready (line ++ [c]) ->
  iinv (mkcons (dev s) (uart s) (crt s) (panicked s) (ibuf s) (ir s) (iw s) (u32 (ie s - 1)) (woken s)) ready line /\
  ibuf s !! slot (u32 (ie s - 1)) = Some c.
Proof.
  intros [Hl Hr Hw He Hf Hb]. rewrite length_app in *. cbn [length] in *.
  assert (u32 (ie s - 1) = u32 (ir s + Z.of_nat (length ready + length line))) as Hie.
  { rewrite He. replace (u32 (ir s + Z.of_nat (length ready + (length line + 1))) - 1)
      with (u32 (ir s + Z.of_nat (length ready + (length line + 1))) + -1) by lia.
    rewrite u32_add. f_equal. lia. }
  split.
  - split; cbn; try done; [lia|].
    intros k x Hk. apply Hb. rewrite app_assoc. by apply lookup_app_l_Some.
  - rewrite Hie, slot_u32. apply Hb. rewrite app_assoc, lookup_app_r by (rewrite length_app; lia).
    rewrite length_app. by rewrite Nat.sub_diag.
Qed.

Definition out_ok (s : console D) : Prop := panicked s = false /\ screen_ok (screen s).

Lemma consputc_keeps c s :
  out_ok s ->
  wp (consputc c) (fun _ s' => out_ok s' /\ exists d cells, s' = with_screen d cells s) s.
Proof.
  intros [Hp Hok]. eapply wp_mono; [by apply consputc_spec|]. cbn beta. intros _ s' (d & -> & Hd).
  split; [|eauto]. split; [done|]. rewrite screen_drawn by done. by apply draw_ok.
Qed.

Lemma kill_line_spec fuel s ready line :
  iinv s ready line -> 10 ∉ line -> out_ok s -> (length line < fuel)%nat ->
  wp (kill_line fuel) (fun _ s' => iinv s' ready [] /\ out_ok s' /\ woken s' = woken s) s.
Proof.
  revert fuel s. induction line as [|c line IH] using rev_ind; intros fuel s Hi Hn Ho Hf;
    (destruct fuel as [|fuel]; [lia|]); cbn [kill_line]; wp_steps; rewrite (iinv_empty _ _ _ Hi).
  - rewrite bool_decide_eq_true_2 by done. by wp_steps.
  - rewrite bool_decide_eq_false_2 by (by destruct line). destruct (iinv_back _ _ _ _ Hi) as [Hi' Hb].
    wp_steps. exists c. split; [done|].
    destruct (Z.eqb_spec c 10) as [->|Hc].
    { exfalso. apply Hn, elem_of_app. right. by left. }
    unfold set_input. wp_steps. eapply wp_mono; [by apply consputc_keeps|]. cbn beta.
    intros _ s' (Ho' & d & cells & ->). eapply wp_mono; [apply IH; [by apply iinv_screen|by apply not_elem_of_app in Hn as [? _]|done|]|].
    { rewrite length_app in Hf. cbn in Hf. lia. }
    cbn beta. intros _ s2 (Hi2 & Ho2 & Hw2). done.
Qed.

(** A character is put at the end of the line. *)
Lemma iinv_put s ready line c :
  iinv s ready line -> (length ready + length line < 128)%nat ->
  iinv (mkcons (dev s) (uart s) (crt s) (panicked s) (<[slot (ie s) := c]> (ibuf s)) (ir s) (iw s) (u32 (ie s + 1)) (woken s))
    ready (line ++ [c]).
Proof.
  intros [Hl Hr Hw He Hf Hb] Hlt. assert (slot (ie s) = slot (ir s + Z.of_nat (length ready + length line))) as Hs
    by (by rewrite He, slot_u32).
  split; cbn; try done.
  - by rewrite length_insert.
  - rewrite He, u32_add, length_app. f_equal. cbn. lia.
  - rewrite length_app. cbn. lia.
  - intros k x Hk. rewrite app_assoc in Hk. apply lookup_snoc_Some in Hk as [[Hk Hx]|[Hk <-]]; rewrite length_app in Hk.
    + rewrite list_lookup_insert_ne; [by apply Hb|]. rewrite Hs. intros E. apply islot_inj in E; lia.
    + rewrite Hs. replace (Z.of_nat k) with (Z.of_nat (length ready + length line)) by lia.
      apply list_lookup_insert_eq. rewrite Hl. apply islot_lt.
Qed.

(** The line becomes ready. *)
Lemma iinv_commit s ready line :
  iinv s ready line ->
  iinv (mkcons (dev s) (uart s) (crt s) (panicked s) (ibuf s) (ir s) (ie s) (ie s) true) (ready ++ line) [].
Proof.
  intros [Hl Hr Hw He Hf Hb]. split; cbn; rewrite ?app_nil_r; try done.
  - by rewrite He, length_app.
  - rewrite He, length_app. f_equal. lia.
  - rewrite length_app. lia.
Qed.

Lemma iinv_fill s ready line : iinv s ready line ->
  u32 (ie s - ir s) = Z.of_nat (length ready + length line) /\
  (ie s =? u32 (ir s + INPUT_BUF)) = (length ready + length line =? 128)%nat.
Proof.
  intros [Hl Hr Hw He Hf Hb]. split.
  - rewrite He. unfold u32. rewrite Zminus_mod_idemp_l. replace (ir s + Z.of_nat (length ready + length line) - ir s)
      with (Z.of_nat (length ready + length line)) by lia. apply Z.mod_small. lia.
  - rewrite He. unfold INPUT_BUF. destruct (Nat.eqb_spec (length ready + length line) 128) as [->|Hne].
    + apply Z.eqb_refl.
    + apply Z.eqb_neq. intros E. apply u32_apart in E; lia.
Qed.

Lemma console_char_spec c s ready line :
  iinv s ready line -> 10 ∉ line -> out_ok s -> 0 <= c < 256 -> c <> CTRL_P ->
  wp (console_char c) (fun _ s' =>
    iinv s' (edit c (ready, line)).1 (edit c (ready, line)).2 /\ 10 ∉ (edit c (ready, line)).2 /\ out_ok s' /\
    woken s' = woken s || negb (bool_decide ((edit c (ready, line)).1 = ready))) s.
Proof.
  intros Hi Hn Ho Hc HP. unfold console_char, edit. wp_steps.
  destruct (Z.eqb_spec c CTRL_P); [done|].
  assert (woken s = woken s || negb (bool_decide (ready = ready))) as Hwk.
  { rewrite bool_decide_eq_true_2 by done. by rewrite orb_false_r. }
  destruct (c =? CTRL_U).
  { eapply wp_mono; [apply (kill_line_spec _ s ready line); [done|done|done|]|].
    - pose proof (ii_fit _ _ _ Hi). unfold INPUT_BUF. lia.
    - cbn [fst snd]. intros _ s' (Hi' & Ho' & ->). split; [done|]. split; [apply not_elem_of_nil|]. by split. }
  destruct ((c =? CTRL_H) || (c =? DEL)).
  { rewrite (iinv_empty _ _ _ Hi). cbn [fst snd]. destruct (decide (line = [])) as [->|Hne].
    - rewrite bool_decide_eq_true_2 by done. cbn [negb]. wp_steps. cbn. done.
    - rewrite bool_decide_eq_false_2 by done. cbn [negb].
      destruct line as [|x line _] using rev_ind; [done|]. destruct (iinv_back _ _ _ _ Hi) as [Hi' _].
      rewrite length_app, Nat.add_sub, take_app_length. unfold set_input. wp_steps.
      eapply wp_mono; [by apply consputc_keeps|]. cbn beta. intros _ s' (Ho' & d & cells & ->).
      split; [by apply iinv_screen|]. split; [by apply not_elem_of_app in Hn as [? _]|]. by split. }
  destruct (iinv_fill _ _ _ Hi) as [Hfill _]. rewrite Hfill.
  assert ((Z.of_nat (length ready + length line) <? INPUT_BUF) = (length ready + length line <? 128)%nat) as ->.
  { unfold INPUT_BUF. destruct (Z.ltb_spec (Z.of_nat (length ready + length line)) 128), (Nat.ltb_spec (length ready + length line) 128); done || lia. }
  destruct (negb (c =? 0) && (length ready + length line <? 128)%nat) eqn:E; zb; [|wp_steps; done].
  set (c' := if c =? 13 then 10 else c). assert (u8 c' = c') as Hu8 by (subst c'; destruct (c =? 13); apply u8_small; lia).
  destruct (lookup_lt_is_Some_2 (ibuf s) (slot (ie s))) as [x Hx]; [rewrite (ii_len _ _ _ Hi); apply islot_lt|].
  rewrite Hu8. unfold set_input, wakeup_r. wp_steps. exists x. split; [done|]. wp_steps.
  pose proof (iinv_put _ _ _ c' Hi ltac:(done)) as Hi1.
  eapply wp_mono; [by apply consputc_keeps|]. cbn beta. intros _ s1 (Ho1 & d & cells & ->). wp_steps.
  apply (iinv_screen _ d cells) in Hi1. destruct (iinv_fill _ _ _ Hi1) as [_ Hfull].
  cbn [with_screen dev crt uart panicked ibuf ir iw ie woken] in *. rewrite Hfull.
  destruct ((c' =? 10) || (c' =? CTRL_D) || (length ready + length (line ++ [c']) =? 128)%nat) eqn:Ec; wp_steps; cbn [fst snd].
  - split; [exact (iinv_commit _ _ _ Hi1)|]. split; [apply not_elem_of_nil|]. split; [done|].
    cbn. rewrite bool_decide_eq_false_2; [by rewrite orb_true_r|]. intros E'. apply (f_equal length) in E'.
    rewrite !length_app in E'. cbn in E'. lia.
  - split; [done|]. split; [|done]. apply not_elem_of_app. split; [done|]. zb. intros Hin.
    apply list_elem_of_singleton in Hin. done.
Qed.

Lemma consoleintr_loop_spec cs dump s ready line :
  iinv s ready line -> 10 ∉ line -> out_ok s -> Forall (fun c => 0 <= c < 256) cs ->
  wp (consoleintr_loop cs dump) (fun _ s' =>
    let st := fold_left (fun st c => edit c st) cs (ready, line) in
    iinv s' st.1 st.2 /\ 10 ∉ st.2 /\ out_ok s' /\
    (st.1 <> ready -> woken s' = true) /\ (woken s = true -> woken s' = true)) s.
Proof.
  revert s ready line dump. induction cs as [|c cs IH]; intros s ready line dump Hi Hn Ho Hcs; cbn [consoleintr_loop fold_left].
  - apply wp_ret. done.
  - apply Forall_cons in Hcs as [Hc Hcs]. destruct (Z.eqb_spec c CTRL_P) as [->|HP]; [by apply IH|].
    apply wp_bind. eapply wp_mono; [by apply console_char_spec|]. cbn beta. intros _ s1 (Hi1 & Hn1 & Ho1 & Hw1).
    destruct (edit c (ready, line)) as [ready1 line1] eqn:Ee. cbn [fst snd] in *.
    eapply wp_mono; [by apply IH|]. cbn zeta. intros _ s2 (Hi2 & Hn2 & Ho2 & Hw2 & Hw3).
    split; [done|]. split; [done|]. split; [done|]. rewrite Hw1 in Hw3. split.
    + intros Hne. destruct (decide (ready1 = ready)) as [->|Hr]; [by apply Hw2|]. apply Hw3.
      rewrite bool_decide_eq_false_2 by done. by rewrite orb_true_r.
    + intros Hw. apply Hw3. by rewrite Hw.
Qed.

(** A byte is taken off the front. *)
Lemma iinv_take s c ready line :
  iinv s (c :: ready) line ->
  iinv (mkcons (dev s) (uart s) (crt s) (panicked s) (ibuf s) (u32 (ir s + 1)) (iw s) (ie s) (woken s)) ready line.
Proof.
  intros [Hl Hr Hw He Hf Hb]. cbn [length] in *. split; cbn; try done.
  - apply u32_range.
  - rewrite Hw, u32_add. f_equal. lia.
  - rewrite He, u32_add. f_equal. lia.
  - lia.
  - intros k x Hk. specialize (Hb (S k) x Hk). rewrite <- Hb. f_equal.
    rewrite <- (slot_u32 (u32 (ir s + 1) + _)), u32_add, slot_u32. f_equal. lia.
Qed.

Lemma read_loop_spec target n s ready line :
  iinv s ready line -> out_ok s ->
  wp (read_loop false target n) (fun r s' => r = (take_line target n ready).1 /\
    iinv s' (take_line target n ready).2 line /\ out_ok s' /\ woken s' = woken s) s.
Proof.
  revert s ready. induction n as [|n IH]; intros s ready Hi Ho; cbn [read_loop take_line]; [by apply wp_ret|].
  apply wp_bind, wp_get. destruct ready as [|c ready].
  - assert (ir s =? iw s = true) as ->.
    { destruct Hi as [_ Hr Hw _ _ _]. rewrite Hw. cbn. rewrite Z.add_0_r, u32_small by done. apply Z.eqb_refl. }
    by apply wp_ret.
  - assert (ir s =? iw s = false) as ->.
    { destruct Hi as [_ Hr Hw _ Hf _]. rewrite Hw. apply Z.eqb_neq. intros E.
      rewrite <- (u32_small (ir s) Hr) in E at 1. rewrite <- (Z.add_0_r (ir s)) in E at 1.
      apply u32_apart in E; cbn [length] in *; lia. }
    pose proof (ii_bytes _ _ _ Hi O c eq_refl) as Hc. rewrite Z.add_0_r in Hc.
    apply wp_bind, wp_deref. exists c. split; [done|]. unfold set_input. apply wp_bind, wp_modify.
    pose proof (iinv_take _ _ _ _ Hi) as Hi'. destruct (c =? CTRL_D).
    { destruct (S n <? target)%nat; wp_steps; cbn; (split; [done|]); (split; [|done]); [|done]. by destruct Hi. }
    destruct (c =? 10); [by apply wp_ret|].
    destruct (take_line target n ready) as [[r l] ready'] eqn:Et.
    apply wp_bind. eapply wp_mono; [by apply IH|]. rewrite Et. cbn [fst snd]. intros [r' l'] s2 (E & Hi2 & Ho2 & Hw2).
    injection E as -> ->. by apply wp_ret.
Qed.
End input.

(** * What the console guarantees *)

(** The characters of one interrupt, or a stretch of a read of [target] bytes that has [n]
    to go. *)
Inductive event := Typed (cs : list Z) | Read (target n : nat).

Fixpoint run_events {D} `{Ports D} (evs : list event) : M (console D) (list (rd * list Z)) :=
  match evs with
  | [] => ret []
  | Typed cs :: evs => do! consoleintr_loop cs false; run_events evs
  | Read target n :: evs =>
      let! r := read_loop false target n in
      let! rs := run_events evs in
      ret (r :: rs)
  end.

(** The same events at the line editor. *)
Fixpoint edit_events (evs : list event) (st : list Z * list Z) : list (rd * list Z) * (list Z * list Z) :=
  match evs with
  | [] => ([], st)
  | Typed cs :: evs => edit_events evs (fold_left (fun st c => edit c st) cs st)
  | Read target n :: evs =>
      let '(r, ready) := take_line target n st.1 in
      let '(rs, st) := edit_events evs (ready, st.2) in
      (r :: rs, st)
  end.

Definition typable (ev : event) : Prop :=
  match ev with Typed cs => Forall (fun c => 0 <= c < 256) cs | Read _ _ => True end.

Lemma run_events_spec {D} `{Crt D} evs (s : console D) ready line :
  Forall typable evs -> iinv s ready line -> 10 ∉ line -> out_ok s ->
  wp (run_events evs) (fun out s' =>
    out = (edit_events evs (ready, line)).1 /\
    iinv s' (edit_events evs (ready, line)).2.1 (edit_events evs (ready, line)).2.2 /\ out_ok s') s.
Proof.
  revert s ready line. induction evs as [|ev evs IH]; intros s ready line Hev Hi Hn Ho; [by apply wp_ret|].
  apply Forall_cons in Hev as [He Hev]. destruct ev as [cs|target n]; cbn [run_events edit_events fst snd]; apply wp_bind.
  - eapply wp_mono; [by apply consoleintr_loop_spec|]. cbn zeta. intros _ s1 (Hi1 & Hn1 & Ho1 & _).
    destruct (fold_left _ cs (ready, line)) as [ready1 line1]. by apply IH.
  - eapply wp_mono; [by apply read_loop_spec|]. cbn beta. intros r s1 (-> & Hi1 & Ho1 & _).
    destruct (take_line target n ready) as [r ready1]. cbn [fst snd] in *. apply wp_bind.
    eapply wp_mono; [by apply IH|]. cbn beta. intros rs s2 (-> & Hi2 & Ho2).
    destruct (edit_events evs (ready1, line)) as [rs st]. by apply wp_ret.
Qed.

(** C16: The input side of the console is a line editor: for every sequence of interrupts
    and reads, the reads return what an editor over two lists returns (the bytes that are
    ready, and the line that erase and kill still work on), although the code keeps one
    circular buffer of 128 bytes with three 32-bit indices that wrap around.  Nothing is
    lost, duplicated or reordered, the screen is never written outside its rows, and
    neither side panics. *)
Theorem console_refines_editor {D} `{Crt D} evs (s : console D) :
  Forall typable evs -> out_ok s -> length (ibuf s) = 128%nat -> 0 <= ir s < 2 ^ 32 -> iw s = ir s -> ie s = ir s ->
  wp (run_events evs) (fun out s' =>
    out = (edit_events evs ([], [])).1 /\
    iinv s' (edit_events evs ([], [])).2.1 (edit_events evs ([], [])).2.2 /\ out_ok s') s.
Proof.
  intros Hev Ho Hl Hr Hw He. apply run_events_spec; [done| |apply not_elem_of_nil|done].
  split; cbn; rewrite ?Z.add_0_r, ?u32_small; try done. lia.
Qed.

(** A display of which the cursor can be read back. *)
Record vga := mkvga { v_index : Z; v_hi : Z; v_lo : Z; v_serial : list Z }.
#[export] Instance vga_Ports : Ports vga := {
  inb p d := (if p =? CRTPORT + 1 then if v_index d =? 14 then u8 (v_hi d) else if v_index d =? 15 then u8 (v_lo d) else 0
              else if p =? COM1 + 5 then 0x20 else 0, d);
  outb p v d := if p =? CRTPORT then mkvga (u8 v) (v_hi d) (v_lo d) (v_serial d)
                else if p =? CRTPORT + 1 then
                  if v_index d =? 14 then mkvga (v_index d) (u8 v) (v_lo d) (v_serial d)
                  else if v_index d =? 15 then mkvga (v_index d) (v_hi d) (u8 v) (v_serial d) else d
                else if p =? COM1 then mkvga (v_index d) (v_hi d) (v_lo d) (v_serial d ++ [v]) else d
}.
#[export, refine] Instance vga_Crt : Crt vga := {
  cursor d := u8 (v_hi d) * 256 + u8 (v_lo d);
  index d := v_index d
}.
Proof.
  - intros d. pose proof (u8_range (v_hi d)). pose proof (u8_range (v_lo d)). lia.
  - done.
  - intros d. cbn. change (CRTPORT + 1 =? CRTPORT + 1) with true. cbn iota.
    pose proof (u8_range (v_hi d)). pose proof (u8_range (v_lo d)). split; [done|]. split; [done|].
    split; intros ->; cbn; [rewrite Z.div_add_l, (Z.div_small (u8 (v_lo d))) by lia; lia|].
    rewrite Z.add_comm, Z.mod_add, Z.mod_small by lia. done.
  - intros v d. cbn. change (CRTPORT + 1 =? CRTPORT) with false. change (CRTPORT + 1 =? CRTPORT + 1) with true. cbn iota.
    pose proof (u8_range (v_hi d)). pose proof (u8_range (v_lo d)).
    assert (forall x, u8 (u8 x) = u8 x) as Hu by (intros x; apply u8_small, u8_range).
    split; [by destruct (v_index d =? 14), (v_index d =? 15)|].
    split; intros ->; cbn; rewrite Hu; [rewrite (Z.add_comm (u8 (v_hi d) * 256)), Z.mod_add, (Z.mod_small (u8 (v_lo d))) by lia; lia|].
    rewrite Z.div_add_l, (Z.div_small (u8 (v_lo d))) by lia. lia.
  - intros p v d Hp1 Hp2. cbn. destruct (Z.eqb_spec p CRTPORT); [done|]. destruct (Z.eqb_spec p (CRTPORT + 1)); [done|].
    by destruct (p =? COM1).
Defined.

Definition demo_console : console vga :=
  mkcons (mkvga 0 0 0 []) true (replicate 2000 0) false (replicate 128 0) (2 ^ 32 - 2) (2 ^ 32 - 2) (2 ^ 32 - 2) false.

(** Typing [ab], erasing the [b], then [cd] and return; the read gets [acd] and a newline. *)
Lemma console_refines_editor_witness :
  wp (run_events [Typed (lit "ab" ++ [CTRL_H] ++ lit "cd" ++ [13]); Read 10 10]) (fun out _ =>
    out = [(Done 4, lit "acd
")]) demo_console.
Proof.
  eapply wp_mono; [apply (console_refines_editor _ demo_console)|].
  - constructor; [|by constructor]. apply (bool_decide_eq_true_1 (Forall _ _)). by vm_compute.
  - split; [done|]. split; [apply (Nat.leb_le 2000 _); by vm_compute|vm_compute; split; [discriminate|reflexivity]].
  - done.
  - cbn; lia.
  - done.
  - done.
  - intros out s' [-> _]. by vm_compute.
Defined.

(** ** The screen *)

Lemma draw_plain c cells pos :
  c <> 10 -> c <> BACKSPACE -> 0 <= pos -> pos + 1 < 24 * 80 ->
  draw c (cells, pos) = (<[Z.to_nat (pos + 1) := attr 32]> (<[Z.to_nat pos := attr c]> cells), pos + 1).
Proof.
  intros Hn Hb Hp Hlt. unfold draw. destruct (Z.eqb_spec c 10), (Z.eqb_spec c BACKSPACE); try done.
  destruct (pos + 1 >=? 24 * 80) eqn:E; zb; [lia|done].
Qed.

(** Two lists of cells put one after the other over a screen of three parts. *)
Lemma splice_parts (a b c t : list Z) : length b = length t -> splice (length a) t (a ++ b ++ c) = a ++ t ++ c.
Proof.
  intros Hl. unfold splice. rewrite take_app_length, (app_assoc a b c), drop_app_ge by (rewrite length_app; lia).
  rewrite length_app, Hl, Nat.sub_diag, drop_0. done.
Qed.

(** Text that fits is put at the cursor, which is left behind it on a blank. *)
Lemma draws_parts cs a b c :
  Forall (fun c => c <> 10 /\ c <> BACKSPACE) cs -> length b = S (length cs) -> cs <> [] ->
  Z.of_nat (length a + length cs) < 24 * 80 ->
  draws cs (a ++ b ++ c, Z.of_nat (length a)) = (a ++ ((attr <$> cs) ++ [attr 32]) ++ c, Z.of_nat (length a + length cs)).
Proof.
  revert a b. induction cs as [|x cs IH]; intros a b Hcs Hb Hne Hlt; [done|]. clear Hne.
  apply Forall_cons in Hcs as [[Hn Hx] Hcs]. destruct b as [|b0 [|b1 b]]; [done..|]. cbn [length] in Hlt, Hb.
  change (draws (x :: cs) ?st) with (draws cs (draw x st)). rewrite draw_plain by (done || lia).
  replace (Z.of_nat (length a) + 1) with (Z.of_nat (S (length a))) by lia. rewrite !Nat2Z.id.
  rewrite (insert_app_r_alt a _ (length a)), Nat.sub_diag by lia. cbn [app insert list_insert].
  rewrite (insert_app_r_alt a _ (S (length a))) by lia. replace (S (length a) - length a)%nat with 1%nat by lia.
  cbn [insert list_insert]. destruct cs as [|y cs].
  - destruct b; [|done]. cbn. rewrite Nat.add_1_r. done.
  - specialize (IH (a ++ [attr x]) (attr 32 :: b) Hcs). rewrite length_app in IH. cbn [length] in IH.
    rewrite <- app_assoc, Nat.add_1_r in IH. cbn [app] in IH. rewrite IH by (done || (cbn [length] in *; lia)).
    rewrite <- app_assoc. cbn [fmap list_fmap app length]. f_equal; lia.
Qed.

Lemma draws_plain cs cells pos :
  Forall (fun c => c <> 10 /\ c <> BACKSPACE) cs -> 0 <= pos -> pos + Z.of_nat (length cs) < 24 * 80 ->
  (1920 <= length cells)%nat -> cs <> [] ->
  draws cs (cells, pos) = (splice (Z.to_nat pos) ((attr <$> cs) ++ [attr 32]) cells, pos + Z.of_nat (length cs)).
Proof.
  intros Hcs Hp Hlt Hl Hne. set (n := S (length cs)).
  assert (length (take (Z.to_nat pos) cells) = Z.to_nat pos) as Ha by (rewrite length_take; lia).
  assert (length (take n (drop (Z.to_nat pos) cells)) = n) as Hb by (rewrite length_take, length_drop; lia).
  pose proof (draws_parts cs (take (Z.to_nat pos) cells) (take n (drop (Z.to_nat pos) cells))
    (drop n (drop (Z.to_nat pos) cells)) Hcs Hb Hne) as Hd.
  pose proof (splice_parts (take (Z.to_nat pos) cells) (take n (drop (Z.to_nat pos) cells))
    (drop n (drop (Z.to_nat pos) cells)) ((attr <$> cs) ++ [attr 32])) as Hs.
  rewrite !take_drop, Ha in Hd. rewrite !take_drop, Ha in Hs. rewrite Z2Nat.id in Hd by lia.
  rewrite Hd by lia. rewrite Hs; [f_equal; lia|]. rewrite Hb, length_app, length_fmap. cbn. lia.
Qed.

(** Writing to the console always succeeds: from a screen whose cursor is in the 24
    rows, [consolewrite] of any bytes returns their number, the cursor is in the 24 rows
    again (the lines scroll up as needed), the input buffer is untouched, and text that
    fits before the end of the screen stands at the old cursor position, followed by a
    blank at the new one. *)
Theorem consolewrite_shows {D} `{Crt D} buf (s : console D) :
  out_ok s ->
  wp (consolewrite buf) (fun r s' => r = Z.of_nat (length buf) /\ out_ok s' /\
    ibuf s' = ibuf s /\ ir s' = ir s /\ iw s' = iw s /\ ie s' = ie s /\
    (Forall (fun b => 0 <= b < 256 /\ b <> 10) buf -> buf <> [] -> cursor (dev s) + Z.of_nat (length buf) < 24 * 80 ->
      crt s' = splice (Z.to_nat (cursor (dev s))) ((attr <$> buf) ++ [attr 32]) (crt s) /\
      cursor (dev s') = cursor (dev s) + Z.of_nat (length buf))) s.
Proof.
  intros [Hp Hok]. unfold consolewrite. apply wp_bind.
  eapply wp_mono; [by apply (consputs_spec (fun b => Z.land b 0xff))|]. cbn beta. intros _ s' (d & -> & Hd). apply wp_ret.
  set (cs := (fun b => Z.land b 0xff) <$> buf) in *. split; [done|]. split.
  { split; [done|]. pose proof (draws_ok cs _ Hok) as Hok'. unfold screen at 1. cbn. rewrite Hd. by destruct (draws cs (screen s)). }
  cbn. do 4 (split; [done|]). intros Hb Hne Hfit. destruct Hok as [Hl Hpos]. cbn [screen fst snd] in Hl, Hpos.
  assert (cs = buf) as Hcs.
  { subst cs. rewrite <- (list_fmap_id buf) at 2. apply list_fmap_ext. intros i b Hi. rewrite Forall_lookup in Hb.
    specialize (Hb i b Hi). rewrite (Z.land_ones b 8 ltac:(lia) : Z.land b 0xff = b mod 2 ^ 8). apply Z.mod_small. change (2 ^ 8) with 256. change (id b) with b. lia. }
  rewrite Hcs in *. pose proof (draws_plain buf (crt s) (cursor (dev s))) as Hdr. unfold screen in *.
  rewrite Hdr in *; try done; try lia. all: eapply Forall_impl; [exact Hb|]; unfold BACKSPACE; cbn; lia.
Qed.

Lemma consolewrite_shows_witness :
  wp (consolewrite (lit "hi")) (fun r s' => r = 2 /\ take 3 (crt s') = [attr 104; attr 105; attr 32] /\ cursor (dev s') = 2)
    demo_console.
Proof.
  eapply wp_mono; [apply (consolewrite_shows (lit "hi") demo_console)|].
  - split; [done|]. split; [apply (Nat.leb_le 2000 _); by vm_compute|vm_compute; split; [discriminate|reflexivity]].
  - intros r s' (-> & _ & _ & _ & _ & _ & Ht). destruct Ht as [-> ->].
    + apply (bool_decide_eq_true_1 (Forall _ _)). by vm_compute.
    + done.
    + done.
    + by vm_compute.
Defined.

(** ** The keyboard *)

Import Kbd.

Definition kbd_ok (r : option (Z * Z)) : bool :=
  match r with Some (c, sh) => (0 <=? c) && (c <? 256) && (0 <=? sh) && (sh <? 128) | None => false end.

(** A key pressed and released, from a state without a pending escape. *)
Definition stroke (shift key : Z) : option Z :=
  r1 ← kbd_code shift key; r2 ← kbd_code r1.2 (Z.lor key 0x80); Some r2.2.
Definition plain_key (key : Z) : bool :=
  bool_decide (shiftcode !! Z.to_nat key = Some 0) && bool_decide (togglecode !! Z.to_nat key = Some 0).
Definition stroke_ok (shift key : Z) : bool :=
  match stroke shift key with
  | Some sh => if plain_key key then sh =? shift else (0 <=? sh) && (sh <? 64)
  | None => false
  end.

Lemma kbd_code_ok shift data : 0 <= shift < 128 -> 0 <= data < 256 -> kbd_ok (kbd_code shift data).
Proof.
  intros Hs Hd.
  assert (forallb (fun s => forallb (fun d => kbd_ok (kbd_code s d)) (seqZ 0 256)) (seqZ 0 128) = true) as Hall by by vm_compute.
  rewrite forallb_forall in Hall. specialize (Hall shift). rewrite forallb_forall in Hall.
  rewrite Hall; [done|..]; apply list_elem_of_In, elem_of_seqZ; lia.
Qed.

Lemma kbd_stroke_ok shift key : 0 <= shift < 64 -> 0 <= key < 128 -> key <> 0x60 -> stroke_ok shift key.
Proof.
  intros Hs Hd Hk.
  assert (forallb (fun s => forallb (fun d => (d =? 0x60) || stroke_ok s d) (seqZ 0 128)) (seqZ 0 64) = true) as Hall by by vm_compute.
  rewrite forallb_forall in Hall. specialize (Hall shift). rewrite forallb_forall in Hall.
  specialize (Hall ltac:(apply list_elem_of_In, elem_of_seqZ; lia) key ltac:(apply list_elem_of_In, elem_of_seqZ; lia)).
  apply Z.eqb_neq in Hk. rewrite Hk in Hall. cbn [orb] in Hall. by rewrite Hall.
Qed.

(** C38: Whatever bytes the keyboard controller delivers, [kbdgetc] indexes its tables within
    their bounds and returns -1 or a byte, its static [shift] staying a set of the seven flag
    bits; and pressing and releasing a key that is neither a modifier nor a lock leaves
    those flags exactly as they were. *)
Theorem kbdgetc_typed {D} `{Ports D} shift (s : console D) :
  (forall p d, 0 <= (inb p d).1 < 256) -> 0 <= shift < 128 ->
  wp (kbdgetc shift) (fun r _ => -1 <= r.1 < 256 /\ 0 <= r.2 < 128 /\ (r.1 = -1 -> r.2 = shift)) s /\
  (forall key, shift < 64 -> 0 <= key < 128 -> key <> 0x60 -> plain_key key -> stroke shift key = Some shift).
Proof.
  intros Hin Hs. split.
  - unfold kbdgetc. apply wp_bind, wp_in_port. destruct (Z.land _ _ =? 0); [apply wp_ret; cbn; lia|].
    apply wp_bind, wp_in_port. pose proof (kbd_code_ok shift (inb KBDATAP (inb KBSTATP (dev s)).2).1 Hs (Hin _ _)) as Hk.
    cbn [dev with_screen]. destruct (kbd_code _ _) as [[c sh]|]; [|done]. apply Is_true_eq_true in Hk. unfold kbd_ok in Hk. zb. apply wp_ret. cbn. lia.
  - intros key Hlt Hk Hne Hp. pose proof (kbd_stroke_ok shift key ltac:(lia) Hk Hne) as Hok. unfold stroke_ok in Hok.
    destruct (stroke shift key) as [sh|]; [|done]. destruct (plain_key key); [|done]. f_equal. apply Is_true_eq_true in Hok. by apply Z.eqb_eq in Hok.
Qed.

(** With Caps Lock on: a keyboard that is silent, and the stroke of the key [a]. *)
Lemma kbdgetc_typed_witness :
  wp (kbdgetc CAPSLOCK) (fun r _ => -1 <= r.1 < 256 /\ 0 <= r.2 < 128 /\ (r.1 = -1 -> r.2 = CAPSLOCK)) demo_console /\
  stroke CAPSLOCK 30 = Some CAPSLOCK.
Proof.
  destruct (kbdgetc_typed CAPSLOCK demo_console) as [Hw Hst].
  - intros p d. cbn. repeat case_match; cbn; try apply u8_range; lia.
  - unfold CAPSLOCK. lia.
  - split; [exact Hw|]. apply Hst; [done|lia|done|by vm_compute].
Defined.
