(* ===== verification/Queue.v ===== *)
(** The MLFQ ready queues of [queue.c]: cells of the fixed pool
    [surplus_nodes] linked through [next], one list per priority level.

    [Module Queue] holds the operations, translated cell by cell.  The rest of
    the file relates them to abstract queues: [chain] says which cells, with
    which processes, a head pointer reaches, [pool_inv] says that the heads
    reach disjoint lists and that exactly the cells they reach are in use, and
    the [_spec] lemmas show that each operation implements its list function. *)

From S2P Require Import Prelude ProcDefs.

Module Queue.

(** The pool [surplus_nodes]. *)
Abbreviation pool := (list node).

(** Read the cell a pointer refers to. *)
Definition load (i : nat) : M pool node :=
  let! l := get in deref (l !! i).

(** Write a field of the cell at [i]. *)
Definition store (i : nat) (f : node -> node) : M pool unit :=
  do! load i; modify (upd_node i f).

(** The loops below visit at most one cell of the pool per step and one more
    step sees the end of the list. *)
Definition FUEL : nat := S NPROC.
#[global] Arguments FUEL : simpl never.

Definition q_alloc : M pool (option nat) :=
  let! l := get in
  match first_from (fun n => n_use n =? 0) (take NPROC l) 0 with
  | Some i => do! store i (set_n_use 1); ret (Some i)
  | None => ret None
  end.

Definition q_free (p : nat) : M pool unit := store p (set_n_use 0).

(** [while (cur->next != 0) cur = cur->next;] *)
Fixpoint last_node (fuel : nat) (cur : nat) : M pool nat :=
  match fuel with
  | O => nofuel
  | S fuel =>
      let! n := load cur in
      match n_next n with
      | Some nx => last_node fuel nx
      | None => ret cur
      end
  end.

Definition push (head : option nat) (p : nat) : M pool (option nat) :=
  let! r := q_alloc in
  let! new := deref r in
  do! store new (set_n_p (Some p));
  do! store new (set_n_next None);
  match head with
  | None => ret (Some new)
  | Some h =>
      let! cur := last_node FUEL h in
      do! store cur (set_n_next (Some new));
      ret head
  end.

Definition pop (head : option nat) : M pool (option nat) :=
  match head with
  | None => ret None
  | Some h =>
      let! n := load h in
      let temp := n_next n in
      do! q_free h;
      ret temp
  end.

(** [while (head != 0) { head = head->next; count++; }] *)
Fixpoint length_loop (fuel : nat) (head : option nat) (count : Z) : M pool Z :=
  match head with
  | None => ret count
  | Some h =>
      match fuel with
      | O => nofuel
      | S fuel =>
          let! n := load h in
          length_loop fuel (n_next n) (i32 (count + 1))
      end
  end.

Definition length (head : option nat) : M pool Z := length_loop FUEL head 0.

(** Operations of the pool inside the whole process state. *)
Definition on_pool {A} (m : M pool A) : M pstate A :=
  zoom surplus_nodes set_surplus_nodes m.

(** [queues[i]] and [queues[i] = h]. *)
Definition get_queue (i : nat) : M pstate (option nat) :=
  let! s := get in deref (queues s !! i).
Definition set_queue (i : nat) (h : option nat) : M pstate unit :=
  do! get_queue i; modify (fun s => set_queues (<[i := h]> (queues s)) s).

Definition get_proc (i : nat) : M pstate proc :=
  let! s := get in deref (ptable s !! i).

(** [p->field = ...] on the process at index [i]. *)
Definition set_proc (i : nat) (f : proc -> proc) : M pstate unit :=
  do! get_proc i; modify (upd_proc i f).

(** The first loop of [split]: how far from the head the cells have waited
    for more than [threshold] ticks.  [ticks - cur->p->age_time] is a [uint]. *)
Fixpoint split_loop (fuel : nat) (cur prev : option nat) (count threshold : Z)
  : M pstate (option nat * option nat * Z) :=
  match cur with
  | None => ret (cur, prev, count)
  | Some c =>
      match fuel with
      | O => nofuel
      | S fuel =>
          let! n := on_pool (load c) in
          let! q := deref (n_p n) in
          let! p := get_proc q in
          let! t := gets ticks in
          if u32 (t - p_age_time p) >? u32 threshold then
            do! set_proc q (fun p => set_p_queue (i32 (p_queue p - 1)) p);
            do! set_proc q (set_p_age_time (i32 t));
            split_loop fuel (n_next n) cur (i32 (count + 1)) threshold
          else ret (cur, prev, count)
      end
  end.

(** The second half of [split]: the cells up to [prev] go from [*from] to the
    end of [*to], and [cur] becomes the head of [*from]. *)
Definition split_move (f t : nat) (cur : option nat) (prev : nat) : M pstate unit :=
  let! th := get_queue t in
  match th with
  | Some t0 =>
      let! to_end := on_pool (last_node FUEL t0) in
      do! on_pool (store prev (set_n_next None));
      let! fh := get_queue f in
      do! on_pool (store to_end (set_n_next fh));
      set_queue f cur
  | None =>
      do! on_pool (store prev (set_n_next None));
      let! fh := get_queue f in
      do! set_queue t fh;
      set_queue f cur
  end.

(** [from] and [to] are the addresses [&queues[i]] and [&queues[j]]. *)
Definition split (from to : option nat) (threshold : Z) : M pstate Z :=
  match from, to with
  | Some f, Some t =>
      let! fh := get_queue f in
      match fh with
      | None => ret 0
      | Some _ =>
          let! r := split_loop FUEL fh None 0 threshold in
          match r with
          | (_, None, _) => ret 0
          | (cur, Some prev, count) => do! split_move f t cur prev; ret count
          end
      end
  | _, _ => ret (-1)
  end.

End Queue.

(** * Abstract queues *)

Implicit Types (l : list node) (cs : list (nat * nat)).

(** [chain l h cs]: in the pool [l] the pointer [h] reaches exactly the cells
    [cs.*1], in order, which are in use and hold the processes [cs.*2]. *)
Fixpoint chain (l : list node) (h : option nat) (cs : list (nat * nat)) : Prop :=
  match cs with
  | [] => h = None
  | (n, p) :: cs' =>
      h = Some n /\
      exists nx, l !! n = Some (mknode nx (Some p) 1) /\ chain l nx cs'
  end.

(** The cells reached from all the heads are distinct and are exactly the
    cells in use. *)
Record pool_inv (l : list node) (heads : list (option nat))
    (css : list (list (nat * nat))) : Prop := {
  pi_length : length l = NPROC;
  pi_chains : Forall2 (chain l) heads css;
  pi_nodup : NoDup (mjoin css).*1;
  pi_free : forall i n, l !! i = Some n -> i ∉ (mjoin css).*1 -> n_use n = 0
}.

(** The queues a scheduler sees: the processes of each list, in order. *)
Definition abs_queues (css : list (list (nat * nat))) : list (list nat) :=
  (fun cs => cs.*2) <$> css.

Lemma wp_load i Q l :
  wp (Queue.load i) Q l <-> exists n, l !! i = Some n /\ Q n l.
Proof. unfold Queue.load. by wp_steps. Qed.

Lemma wp_store i f Q l :
  wp (Queue.store i f) Q l <-> is_Some (l !! i) /\ Q tt (upd_node i f l).
Proof.
  unfold Queue.store. rewrite wp_bind, wp_load. split.
  - intros (n & Hn & HQ). rewrite wp_modify in HQ. eauto.
  - intros [[n Hn] HQ]. exists n. by rewrite wp_modify.
Qed.

#[export] Hint Rewrite wp_load wp_store : wp.

(** ** Chains *)

Lemma chain_elem l h cs n p :
  chain l h cs -> (n, p) ∈ cs -> exists nx, l !! n = Some (mknode nx (Some p) 1).
Proof.
  revert h. induction cs as [|[n' p'] cs IH]; intros h; cbn.
  - intros _ H. by apply not_elem_of_nil in H.
  - intros (-> & nx & Hn & Hc) [[= -> ->]|Hin]%elem_of_cons; eauto.
Qed.

Lemma chain_lt l h cs n :
  chain l h cs -> n ∈ cs.*1 -> (n < length l)%nat.
Proof.
  intros Hc ([? p] & -> & Hin)%list_elem_of_fmap.
  destruct (chain_elem _ _ _ _ _ Hc Hin) as [nx Hn]. by apply lookup_lt_Some in Hn.
Qed.

Lemma chain_length l h cs :
  chain l h cs -> NoDup cs.*1 -> (length cs <= length l)%nat.
Proof.
  intros Hc Hnd. rewrite <- (length_fmap fst cs). apply NoDup_bounded_length; [done|].
  intros k Hk. by eapply chain_lt.
Qed.

(** A write outside the cells of a chain leaves it alone. *)
Lemma chain_frame l l' h cs :
  chain l h cs -> (forall n, n ∈ cs.*1 -> l' !! n = l !! n) -> chain l' h cs.
Proof.
  revert h. induction cs as [|[n p] cs IH]; intros h; cbn; [done|].
  intros (-> & nx & Hn & Hc) Hsame. split; [done|]. exists nx. split.
  - rewrite Hsame; [done|]. left.
  - apply IH; [done|]. intros m Hm. apply Hsame. by right.
Qed.

Lemma chain_frame_alter l f i h cs :
  chain l h cs -> i ∉ cs.*1 -> chain (upd_node i f l) h cs.
Proof.
  intros Hc Hi. eapply chain_frame; [done|]. intros n Hn.
  apply list_lookup_alter_ne. intros ->. done.
Qed.

Lemma chain_det l h cs1 cs2 : chain l h cs1 -> chain l h cs2 -> cs1 = cs2.
Proof.
  revert h cs2. induction cs1 as [|[n p] cs1 IH]; intros h [|[n2 p2] cs2]; cbn.
  - done.
  - by intros -> (? & ?).
  - by intros (-> & ?) ?.
  - intros (-> & nx & Hn & Hc) ([= <-] & nx2 & Hn2 & Hc2).
    rewrite Hn in Hn2. injection Hn2 as <- <-. f_equal. eauto.
Qed.

(** Linking a chain after the last cell of another. *)
Lemma chain_app l h cs n p h' cs' :
  chain l h (cs ++ [(n, p)]) -> NoDup (cs ++ [(n, p)]).*1 ->
  n ∉ cs'.*1 -> chain l h' cs' ->
  chain (upd_node n (set_n_next h') l) h ((cs ++ [(n, p)]) ++ cs').
Proof.
  revert h. induction cs as [|[m q] cs IH]; intros h; cbn.
  - intros (-> & nx & Hn & ->) _ Hnot Hc'. split; [done|]. exists h'. split.
    + unfold upd_node. by rewrite list_lookup_alter_eq, Hn.
    + by apply chain_frame_alter.
  - intros (-> & nx & Hm & Hc) [Hm' Hnd]%NoDup_cons Hnot Hc'.
    split; [done|]. exists nx. split; [|by apply IH].
    unfold upd_node. rewrite list_lookup_alter_ne; [done|]. intros <-.
    apply Hm'. rewrite fmap_app. set_solver.
Qed.

(** Cutting a chain after the cell [n]. *)
Lemma chain_cut l h cs n p cs' :
  chain l h ((cs ++ [(n, p)]) ++ cs') -> NoDup ((cs ++ [(n, p)]) ++ cs').*1 ->
  chain (upd_node n (set_n_next None) l) h (cs ++ [(n, p)]) /\
  exists h', chain (upd_node n (set_n_next None) l) h' cs' /\
    l !! n = Some (mknode h' (Some p) 1).
Proof.
  revert h. induction cs as [|[m q] cs IH]; intros h; cbn.
  - intros (-> & nx & Hn & Hc) [Hnot Hnd]%NoDup_cons. split.
    + split; [done|]. exists None. split; [|done]. unfold upd_node. by rewrite list_lookup_alter_eq, Hn.
    + exists nx. split; [|done]. by apply chain_frame_alter.
  - intros (-> & nx & Hm & Hc) [Hm' Hnd]%NoDup_cons.
    destruct (IH _ Hc Hnd) as [Hl Hr]. split; [|done].
    split; [done|]. exists nx. split; [|done].
    unfold upd_node. rewrite list_lookup_alter_ne; [done|]. intros <-.
    apply Hm'. rewrite !fmap_app. set_solver.
Qed.

(** ** The loops *)

Lemma last_node_spec fuel l h cs n p :
  chain l (Some h) (cs ++ [(n, p)]) -> (length cs < fuel)%nat ->
  Queue.last_node fuel h l = Ok (n, l).
Proof.
  revert h fuel. induction cs as [|[m q] cs IH]; intros h [|fuel]; cbn; try lia.
  - intros ([= <-] & nx & Hn & ->) _. unfold bind, Queue.load, get, deref.
    cbn. by rewrite Hn.
  - intros ([= <-] & nx & Hm & Hc) Hlt. unfold bind, Queue.load, get, deref. cbn.
    rewrite Hm. cbn. destruct nx as [nx|].
    + apply IH; [done|lia].
    + exfalso. destruct cs as [|[? ?] ?]; by destruct Hc as [? _].
Qed.

Lemma length_loop_spec fuel l h cs count :
  chain l h cs -> (length cs <= fuel)%nat ->
  0 <= count -> count + Z.of_nat (length cs) < 2 ^ 31 ->
  Queue.length_loop fuel h count l = Ok (count + Z.of_nat (length cs), l).
Proof.
  revert h fuel count. induction cs as [|[m q] cs IH]; intros h fuel count.
  - intros -> _ _ _. destruct fuel; cbn; rewrite Z.add_0_r; done.
  - intros (-> & nx & Hm & Hc) Hf H0 Hb. destruct fuel as [|fuel]; cbn in *; [lia|].
    unfold bind, Queue.load, get, deref. cbn. rewrite Hm. cbn.
    rewrite i32_small by lia. rewrite (IH nx fuel) by (done || lia).
    do 2 f_equal. lia.
Qed.

(** ** The pool invariant under the operations *)

Section pool.
Implicit Types (heads : list (option nat)) (css : list (list (nat * nat))).

Lemma pool_inv_chain l heads css k cs :
  pool_inv l heads css -> css !! k = Some cs ->
  exists h, heads !! k = Some h /\ chain l h cs.
Proof. intros [_ Hc _ _] Hk. by eapply Forall2_lookup_r in Hc. Qed.

Lemma pool_inv_nodup l heads css k cs :
  pool_inv l heads css -> css !! k = Some cs ->
  NoDup cs.*1 /\ forall n, n ∈ cs.*1 -> n ∉ (mjoin (delete k css)).*1.
Proof.
  intros [_ _ Hnd _] Hk. rewrite (mjoin_lookup_perm _ _ _ Hk), fmap_app in Hnd.
  apply NoDup_app in Hnd as (? & ? & ?). done.
Qed.

(** Replace list [k]: the new chain holds, and the writes stayed away from
    the cells of the other lists. *)
Lemma pool_inv_update l l' heads css k cs cs' h' :
  pool_inv l heads css -> css !! k = Some cs ->
  length l' = length l ->
  (forall n, n ∈ (mjoin (delete k css)).*1 -> l' !! n = l !! n) ->
  chain l' h' cs' ->
  NoDup cs'.*1 ->
  (forall n, n ∈ cs'.*1 -> n ∉ (mjoin (delete k css)).*1) ->
  (forall i n, l' !! i = Some n -> i ∉ cs'.*1 ->
     i ∉ (mjoin (delete k css)).*1 -> n_use n = 0) ->
  pool_inv l' (<[k := h']> heads) (<[k := cs']> css).
Proof.
  intros Hinv Hk Hlen Hsame Hc' Hnd' Hdisj Hfree.
  pose proof (lookup_lt_Some _ _ _ Hk) as Hlt.
  destruct Hinv as [Hl Hc Hnd _]. rewrite (mjoin_lookup_perm _ _ _ Hk), fmap_app in Hnd.
  apply NoDup_app in Hnd as (_ & _ & Hnd).
  split.
  - by rewrite Hlen.
  - apply Forall2_same_length_lookup. split.
    { rewrite !length_insert. by eapply Forall2_length. }
    intros i h cs0 Hh Hcs0. destruct (decide (i = k)) as [->|Hne].
    + rewrite list_lookup_insert_eq in Hcs0 by done. injection Hcs0 as <-.
      rewrite list_lookup_insert_eq in Hh; [by injection Hh as <-|].
      by rewrite (Forall2_length _ _ _ Hc).
    + rewrite list_lookup_insert_ne in Hh by done.
      rewrite list_lookup_insert_ne in Hcs0 by done.
      eapply chain_frame; [by eapply Forall2_lookup_lr|].
      intros n Hn. apply Hsame. rewrite list_elem_of_fmap in Hn |- *.
      destruct Hn as (x & -> & Hx). exists x. split; [done|].
      apply list_elem_of_join. exists cs0. split; [done|].
      apply list_elem_of_lookup. destruct (decide (i < k)%nat).
      * exists i. by rewrite list_lookup_delete_lt.
      * exists (pred i). rewrite list_lookup_delete_ge by lia.
        by replace (S (pred i)) with i by lia.
  - rewrite (mjoin_insert_perm _ _ _ Hlt), fmap_app. by apply NoDup_app.
  - intros i n Hi Hnot. rewrite (mjoin_insert_perm _ _ _ Hlt), fmap_app in Hnot.
    eapply Hfree; set_solver.
Qed.

(** With a free cell left [q_alloc] returns one that no list uses. *)
Lemma q_alloc_spec l heads css :
  pool_inv l heads css -> (length (mjoin css) < NPROC)%nat ->
  wp Queue.q_alloc (fun r l' => exists i, r = Some i /\ i ∉ (mjoin css).*1 /\
    (i < NPROC)%nat /\ (l' = upd_node i (set_n_use 1) l)) l.
Proof.
  intros [Hl Hc Hnd Hfree] Hlen. unfold Queue.q_alloc. wp_steps.
  rewrite take_ge by (rewrite Hl; done).
  destruct (pigeonhole_fresh (mjoin css).*1 NPROC) as (k & Hk & Hnot).
  { by rewrite length_fmap. }
  destruct (lookup_lt_is_Some_2 l k) as [n Hn]; [by rewrite Hl|].
  assert (n_use n = 0) as Hu by eauto.
  destruct (first_from_exists (fun n => n_use n =? 0) l 0 k n Hn) as [i Hi]; [by rewrite Hu|].
  rewrite Hi. wp_steps. apply first_from_Some in Hi as (j & x & -> & Hj & Hx & _).
  cbn in *. split; [eauto|]. exists j. repeat split; [|apply lookup_lt_Some in Hj; congruence].
  intros ([m p] & -> & Hin)%list_elem_of_fmap. cbn in *.
  apply list_elem_of_join in Hin as (cs & Hmp & Hcs).
  apply list_elem_of_lookup in Hcs as [k' Hk'].
  eapply Forall2_lookup_r in Hk' as (h & _ & Hch); [|done].
  destruct (chain_elem _ _ _ _ _ Hch Hmp) as [nx Hm]. rewrite Hj in Hm.
  injection Hm as ->. done.
Qed.

(** A cell no list uses, initialised the way [push] does. *)
Lemma pool_inv_fresh l heads css i p :
  pool_inv l heads css -> i ∉ (mjoin css).*1 -> (i < NPROC)%nat ->
  let l1 := upd_node i (set_n_next None)
              (upd_node i (set_n_p (Some p)) (upd_node i (set_n_use 1) l)) in
  l1 !! i = Some (mknode None (Some p) 1) /\
  (forall n, n <> i -> l1 !! n = l !! n) /\ length l1 = length l.
Proof.
  intros [Hl _ _ _] Hnot Hi. destruct (lookup_lt_is_Some_2 l i) as [n Hn]; [by rewrite Hl|].
  cbn. unfold upd_node. rewrite !list_lookup_alter_eq, !length_alter, Hn. cbn.
  repeat split. intros m Hm. by rewrite !list_lookup_alter_ne by done.
Qed.

(** The free cells of the pool, seen from list [k]. *)
Lemma pool_inv_free_at l heads css k cs i n :
  pool_inv l heads css -> css !! k = Some cs -> l !! i = Some n ->
  i ∉ cs.*1 -> i ∉ (mjoin (delete k css)).*1 -> n_use n = 0.
Proof.
  intros Hinv Hk Hi H1 H2. eapply (pi_free _ _ _ Hinv); [done|].
  rewrite (mjoin_lookup_perm _ _ _ Hk), fmap_app, not_elem_of_app. done.
Qed.

(** Appending the initialised cell [i] to list [k], whose head is null or
    whose last cell is [m]. *)
Lemma pool_inv_push_nil l l1 heads css k i p :
  pool_inv l heads css -> css !! k = Some [] ->
  i ∉ (mjoin (delete k css)).*1 ->
  l1 !! i = Some (mknode None (Some p) 1) ->
  (forall n, n <> i -> l1 !! n = l !! n) -> length l1 = length l ->
  pool_inv l1 (<[k := Some i]> heads) (<[k := [(i, p)]]> css).
Proof.
  intros Hinv Hk Hi Hl1 Hne Hlen. eapply pool_inv_update; [done|done|done|..].
  - intros n Hn. apply Hne. by intros ->.
  - cbn. split; [done|]. eauto.
  - apply NoDup_singleton.
  - cbn. intros n ->%list_elem_of_singleton. done.
  - intros j n Hj Hj1 Hj2. cbn in Hj1. rewrite list_elem_of_singleton in Hj1.
    rewrite Hne in Hj by done. eapply pool_inv_free_at; [done|done|done| |done].
    apply not_elem_of_nil.
Qed.

Lemma pool_inv_push_last l l1 heads css k cs m q i p h :
  pool_inv l heads css -> css !! k = Some (cs ++ [(m, q)]) ->
  chain l1 h (cs ++ [(m, q)]) ->
  i ∉ (cs ++ [(m, q)]).*1 -> i ∉ (mjoin (delete k css)).*1 ->
  l1 !! i = Some (mknode None (Some p) 1) ->
  (forall n, n <> i -> l1 !! n = l !! n) -> length l1 = length l ->
  pool_inv (upd_node m (set_n_next (Some i)) l1) (<[k := h]> heads)
    (<[k := (cs ++ [(m, q)]) ++ [(i, p)]]> css).
Proof.
  intros Hinv Hk Hc Hncs Hi Hl1 Hne Hlen.
  pose proof (pool_inv_nodup _ _ _ _ _ Hinv Hk) as [Hnd Hdisj].
  assert (m ∈ (cs ++ [(m, q)]).*1) as Hm by (rewrite fmap_app; set_solver).
  eapply pool_inv_update; [done|done|..].
  - unfold upd_node. by rewrite length_alter.
  - intros n Hn. unfold upd_node. rewrite list_lookup_alter_ne.
    + apply Hne. by intros ->.
    + intros <-. by apply (Hdisj m).
  - apply chain_app; [done|done| |].
    + cbn. rewrite list_elem_of_singleton. intros ->. done.
    + cbn. split; [done|]. eauto.
  - rewrite fmap_app. apply NoDup_app. split; [done|]. split; [|apply NoDup_singleton].
    intros x Hx ->%list_elem_of_singleton. done.
  - intros n. rewrite fmap_app, elem_of_app. intros [Hn|Hn]; [by apply Hdisj|].
    apply list_elem_of_singleton in Hn as ->. done.
  - intros j n Hj Hj1 Hj2. rewrite fmap_app, not_elem_of_app in Hj1.
    destruct Hj1 as [Hj1 Hji]. unfold upd_node in Hj. cbn in Hji.
    rewrite list_elem_of_singleton in Hji.
    rewrite list_lookup_alter_ne in Hj by (intros ->; done).
    rewrite Hne in Hj by done. by eapply pool_inv_free_at.
Qed.

Lemma push_spec l heads css k h cs p :
  pool_inv l heads css -> heads !! k = Some h -> css !! k = Some cs ->
  (length (mjoin css) < NPROC)%nat ->
  wp (Queue.push h p) (fun h' l' => exists n,
    pool_inv l' (<[k := h']> heads) (<[k := cs ++ [(n, p)]]> css)) l.
Proof.
  intros Hinv Hh Hk Hlen. unfold Queue.push. rewrite wp_bind.
  eapply wp_mono; [by eapply q_alloc_spec|]. cbn beta.
  intros _ _ (i & -> & Hnot & Hi & ->). wp_steps. exists i. split; [done|].
  destruct (pool_inv_fresh l heads css i p Hinv Hnot Hi) as (Hl1 & Hne & Hlen1).
  destruct (pool_inv_chain _ _ _ _ _ Hinv Hk) as (h0 & Hh0 & Hc). simplify_eq.
  rewrite (mjoin_lookup_perm _ _ _ Hk), fmap_app, not_elem_of_app in Hnot.
  destruct Hnot as [Hncs Hnrest].
  assert (is_Some (l !! i)) as [x Hx]
    by (apply lookup_lt_is_Some_2; by rewrite (pi_length _ _ _ Hinv)).
  set (l1 := upd_node i (set_n_next None) _) in *. wp_steps.
  split; [unfold upd_node; rewrite list_lookup_alter_eq, Hx; by eexists|]. wp_steps.
  split; [unfold upd_node; rewrite !list_lookup_alter_eq, Hx; by eexists|].
  fold l1. destruct h as [h|]; wp_steps.
  - destruct (exists_last (l := cs)) as (cs0 & [m q] & ->).
    { intros ->. discriminate Hc. }
    assert (chain l1 (Some h) (cs0 ++ [(m, q)])) as Hc1.
    { eapply chain_frame; [done|]. intros n Hn. apply Hne. intros ->. done. }
    unfold wp at 1. erewrite last_node_spec; [|done|].
    + wp_steps. split; [|exists i; by eapply pool_inv_push_last].
      destruct (chain_elem _ _ _ m q Hc1) as [nx ->]; [set_solver|by eexists].
    + pose proof (pool_inv_nodup _ _ _ _ _ Hinv Hk) as [Hnd _].
      pose proof (chain_length _ _ _ Hc Hnd) as Hle.
      rewrite (pi_length _ _ _ Hinv), length_app in Hle. unfold Queue.FUEL. cbn in Hle. lia.
  - assert (cs = []) as -> by (destruct cs as [|[? ?] ?]; [done|by destruct Hc]).
    exists i. by eapply pool_inv_push_nil.
Qed.

Lemma pop_spec l heads css k n p cs :
  pool_inv l heads css -> heads !! k = Some (Some n) ->
  css !! k = Some ((n, p) :: cs) ->
  wp (Queue.pop (Some n)) (fun h' l' =>
    pool_inv l' (<[k := h']> heads) (<[k := cs]> css)) l.
Proof.
  intros Hinv Hh Hk. unfold Queue.pop, Queue.q_free. wp_steps.
  destruct (pool_inv_chain _ _ _ _ _ Hinv Hk) as (h0 & Hh0 & Hc). simplify_eq.
  destruct Hc as (_ & nx & Hn & Hc).
  pose proof (pool_inv_nodup _ _ _ _ _ Hinv Hk) as [Hnd Hdisj].
  rewrite fmap_cons in Hnd, Hdisj. apply NoDup_cons in Hnd as [Hnot Hnd].
  exists (mknode nx (Some p) 1). split; [done|]. wp_steps. split; [by eexists|].
  cbn. eapply pool_inv_update; [done|done|..].
  - unfold upd_node. by rewrite length_alter.
  - intros m Hm. unfold upd_node. rewrite list_lookup_alter_ne; [done|].
    intros <-. apply (Hdisj n); [by left|done].
  - by apply chain_frame_alter.
  - done.
  - intros m Hm. apply Hdisj. by right.
  - intros j m Hj Hj1 Hj2. unfold upd_node in Hj.
    destruct (decide (j = n)) as [->|Hjn].
    + rewrite list_lookup_alter_eq, Hn in Hj. by injection Hj as <-.
    + rewrite list_lookup_alter_ne in Hj by done.
      eapply pool_inv_free_at; [done|done|done| |done].
      rewrite fmap_cons. cbn. by apply not_elem_of_cons.
Qed.

Lemma length_spec l heads css k h cs :
  pool_inv l heads css -> heads !! k = Some h -> css !! k = Some cs ->
  Queue.length h l = Ok (Z.of_nat (length cs), l).
Proof.
  intros Hinv Hh Hk.
  destruct (pool_inv_chain _ _ _ _ _ Hinv Hk) as (h0 & Hh0 & Hc). simplify_eq.
  pose proof (pool_inv_nodup _ _ _ _ _ Hinv Hk) as [Hnd _].
  pose proof (chain_length _ _ _ Hc Hnd) as Hle.
  rewrite (pi_length _ _ _ Hinv) in Hle. unfold Queue.length, NPROC, Queue.FUEL in *.
  erewrite length_loop_spec; [f_equal; f_equal; lia|done|unfold NPROC; lia|lia|lia].
Qed.
End pool.

(** * [split] *)

(** Has the process at [q] waited for more than [thr] ticks? *)
Definition waited (t : Z) (tbl : list proc) (thr : Z) (q : nat) : bool :=
  match tbl !! q with
  | Some p => u32 (t - p_age_time p) >? u32 thr
  | None => false
  end.

(** What [split] does to a process it moves. *)
Definition promote (t : Z) (p : proc) : proc :=
  set_p_age_time (i32 t) (set_p_queue (i32 (p_queue p - 1)) p).
Definition promote_all (t : Z) (qs : list nat) (tbl : list proc) : list proc :=
  foldl (fun tbl q => alter (promote t) q tbl) tbl qs.

Lemma length_promote_all t qs tbl : length (promote_all t qs tbl) = length tbl.
Proof.
  revert tbl. induction qs as [|q qs IH]; intros tbl; cbn; [done|].
  unfold promote_all in IH. by rewrite IH, length_alter.
Qed.

Lemma lookup_promote_all t qs tbl i :
  NoDup qs ->
  promote_all t qs tbl !! i =
    if decide (i ∈ qs) then promote t <$> tbl !! i else tbl !! i.
Proof.
  revert tbl. induction qs as [|q qs IH]; intros tbl; cbn.
  - intros _. by rewrite decide_False by apply not_elem_of_nil.
  - intros [Hq Hnd]%NoDup_cons. unfold promote_all in IH. rewrite IH by done.
    destruct (decide (i = q)) as [->|Hne].
    + rewrite decide_False by done. rewrite decide_True by left.
      by rewrite list_lookup_alter_eq.
    + rewrite list_lookup_alter_ne by done. destruct (decide (i ∈ qs)).
      * rewrite decide_True by (by right). done.
      * rewrite decide_False by (rewrite elem_of_cons; tauto). done.
Qed.

(** The cells [split] moves off the list [cs], and those it leaves. *)
Definition split_cells (s : pstate) (thr : Z) (cs : list (nat * nat)) :
    list (nat * nat) * list (nat * nat) :=
  span (fun c => waited (ticks s) (ptable s) thr c.2) cs.

Lemma chain_head l h cs : chain l h cs -> h = fst <$> head cs.
Proof. destruct cs as [|[n p] cs]; cbn; [done|]. by intros [-> _]. Qed.

Lemma split_cells_promoted s s1 thr q cs :
  q ∉ cs.*2 -> ticks s1 = ticks s ->
  (forall i, i <> q -> ptable s1 !! i = ptable s !! i) ->
  split_cells s1 thr cs = split_cells s thr cs.
Proof.
  intros Hq Ht Htbl. apply span_ext. intros [n p] Hin. cbn. unfold waited.
  rewrite Ht, Htbl; [done|]. intros ->. apply Hq, list_elem_of_fmap. by exists (n, q).
Qed.

Lemma split_loop_spec fuel s h cs prev count thr :
  chain (surplus_nodes s) h cs -> NoDup cs.*2 ->
  (forall q, q ∈ cs.*2 -> is_Some (ptable s !! q)) ->
  (length cs <= fuel)%nat -> 0 <= count -> count + Z.of_nat (length cs) < 2 ^ 31 ->
  let moved := (split_cells s thr cs).1 in
  let rest := (split_cells s thr cs).2 in
  Queue.split_loop fuel h prev count thr s =
    Ok ((fst <$> head rest,
         match last moved with Some c => Some c.1 | None => prev end,
         count + Z.of_nat (length moved)),
        set_ptable (promote_all (ticks s) moved.*2 (ptable s)) s).
Proof.
  revert fuel s h prev count.
  induction cs as [|[n q] cs IH]; intros fuel s h prev count Hc Hnd Hex Hf H0 Hb.
  - cbn in Hc. subst h. destruct fuel, s; cbn; by rewrite Z.add_0_r.
  - destruct Hc as (-> & nx & Hn & Hc). apply NoDup_cons in Hnd as [Hq Hnd].
    destruct (Hex q) as [p Hp]; [by left|]. destruct fuel as [|fuel]; [cbn in Hf; lia|].
    assert (waited (ticks s) (ptable s) thr q =
      (u32 (ticks s - p_age_time p) >? u32 thr)) as Hw by (unfold waited; by rewrite Hp).
    unfold split_cells. cbn [Queue.split_loop span snd]. rewrite Hw.
    unfold Queue.on_pool, zoom, Queue.load, Queue.get_proc, Queue.set_proc, deref, gets,
      get, ret, modify, bind. rewrite Hn. cbn. rewrite Hp. cbn.
    destruct (u32 (ticks s - p_age_time p) >? u32 thr); cbn.
    + rewrite Hp. cbn. rewrite list_lookup_alter_eq, Hp. cbn.
      set (s1 := upd_proc q _ (upd_proc q _ _)).
      assert (ptable s1 = alter (promote (ticks s)) q (ptable s)) as Ht1.
      { unfold s1. rewrite !ptable_upd_proc. cbn. by rewrite list_alter_alter. }
      specialize (IH fuel s1 nx (Some n) (i32 (count + 1))).
      rewrite (split_cells_promoted s s1 thr q cs) in IH; [|done|done|].
      2:{ intros i Hi. rewrite Ht1. by apply list_lookup_alter_ne. }
      cbn in Hb, Hf. rewrite i32_small in IH |- * by lia.
      unfold split_cells in *. cbn [fst snd] in *. rewrite IH; [|done|done| |lia|lia|lia].
      * destruct (span _ cs) as [moved rest]. cbn [fst snd length].
        rewrite Ht1. change (ticks s1) with (ticks s).
        do 2 f_equal. f_equal; [f_equal|lia]. destruct moved as [|c moved]; [done|].
        cbn. destruct (last _) eqn:El; [done|]. by apply last_None in El.
      * intros q' Hq'. rewrite Ht1, list_lookup_alter_ne by (intros ->; done). apply Hex. by right.
    + destruct s. cbn. by rewrite Z.add_0_r.
Qed.

Lemma wp_get_queue i Q s :
  wp (Queue.get_queue i) Q s <-> exists h, queues s !! i = Some h /\ Q h s.
Proof. unfold Queue.get_queue. by wp_steps. Qed.

Lemma wp_set_queue i h Q s :
  wp (Queue.set_queue i h) Q s <->
  is_Some (queues s !! i) /\ Q tt (set_queues (<[i := h]> (queues s)) s).
Proof.
  unfold Queue.set_queue. rewrite wp_bind, wp_get_queue. split.
  - intros (x & Hx & HQ). rewrite wp_modify in HQ. eauto.
  - intros [[x Hx] HQ]. exists x. by rewrite wp_modify.
Qed.

Lemma wp_get_proc i Q s :
  wp (Queue.get_proc i) Q s <-> exists p, ptable s !! i = Some p /\ Q p s.
Proof. unfold Queue.get_proc. by wp_steps. Qed.

Lemma wp_set_proc i f Q s :
  wp (Queue.set_proc i f) Q s <-> is_Some (ptable s !! i) /\ Q tt (upd_proc i f s).
Proof.
  unfold Queue.set_proc. rewrite wp_bind, wp_get_proc. split.
  - intros (x & Hx & HQ). rewrite wp_modify in HQ. eauto.
  - intros [[x Hx] HQ]. exists x. by rewrite wp_modify.
Qed.

Lemma wp_on_pool {A} (m : M (list node) A) Q s :
  wp (Queue.on_pool m) Q s <->
  wp m (fun a l => Q a (set_surplus_nodes l s)) (surplus_nodes s).
Proof. apply wp_zoom. Qed.

#[export] Hint Rewrite @wp_get_queue @wp_set_queue @wp_get_proc @wp_set_proc @wp_on_pool : wp.

(** Moving the cells [moved] from the front of list [f] to the end of list [t]
    keeps the cells in use the same. *)
Lemma mjoin_move {A} (css : list (list A)) f t cst moved rest :
  f <> t -> css !! f = Some (moved ++ rest) -> css !! t = Some cst ->
  mjoin (<[f := rest]> (<[t := cst ++ moved]> css)) ≡ₚ mjoin css.
Proof.
  intros Hne Hf Ht. pose proof (lookup_lt_Some _ _ _ Hf) as Hlf.
  pose proof (lookup_lt_Some _ _ _ Ht) as Hlt.
  set (X := <[t := cst ++ moved]> css).
  assert (X !! f = Some (moved ++ rest)) as HXf by (unfold X; by rewrite list_lookup_insert_ne).
  apply (Permutation_app_inv_l moved).
  transitivity (mjoin X).
  - rewrite (mjoin_lookup_perm _ _ _ HXf), mjoin_insert_perm by (unfold X; by rewrite length_insert).
    by rewrite app_assoc.
  - unfold X. rewrite mjoin_insert_perm, (mjoin_lookup_perm _ _ _ Ht) by done. solve_Permutation.
Qed.

Lemma pool_inv_relink l l' heads heads' css css' :
  pool_inv l heads css -> mjoin css' ≡ₚ mjoin css -> length l' = length l ->
  (forall i n, l' !! i = Some n -> exists m, l !! i = Some m /\ n_use n = n_use m) ->
  Forall2 (chain l') heads' css' -> pool_inv l' heads' css'.
Proof.
  intros [Hl Hc Hnd Hfree] Hperm Hlen Huse Hc'. split; [congruence|done|by rewrite Hperm|].
  intros i n Hi Hnot. destruct (Huse _ _ Hi) as (m & Hm & ->).
  eapply Hfree; [done|]. by rewrite <- Hperm.
Qed.

(** A cell of one list is not a cell of another. *)
Lemma pool_inv_disjoint l heads css i j csi csj n :
  pool_inv l heads css -> i <> j -> css !! i = Some csi -> css !! j = Some csj ->
  n ∈ csi.*1 -> n ∉ csj.*1.
Proof.
  intros Hinv Hij Hi Hj Hn Hn'. destruct (pool_inv_nodup _ _ _ _ _ Hinv Hi) as [_ Hdisj].
  apply (Hdisj n Hn). apply list_elem_of_fmap in Hn' as (x & -> & Hx).
  apply list_elem_of_fmap. exists x. split; [done|].
  apply list_elem_of_join. exists csj. split; [done|]. apply list_elem_of_lookup.
  destruct (decide (j < i)%nat).
  - exists j. by rewrite list_lookup_delete_lt.
  - exists (pred j). rewrite list_lookup_delete_ge by lia. by replace (S (pred j)) with j by lia.
Qed.

(** The relinked lists: [m] is the last cell moved; [l'] differs from the pool
    with the link of [m] cut at most in the link of the last cell of [t]. *)
Lemma pool_inv_splice l l' heads css f t cst mv m q rest ht hr :
  pool_inv l heads css -> f <> t ->
  css !! f = Some ((mv ++ [(m, q)]) ++ rest) -> css !! t = Some cst ->
  length l' = length l ->
  (forall i, i <> m -> i ∉ cst.*1 -> l' !! i = l !! i) ->
  (forall i n, l' !! i = Some n -> exists m, l !! i = Some m /\ n_use n = n_use m) ->
  chain l' ht (cst ++ (mv ++ [(m, q)])) -> chain l' hr rest ->
  pool_inv l' (<[f := hr]> (<[t := ht]> heads))
    (<[f := rest]> (<[t := cst ++ (mv ++ [(m, q)])]> css)).
Proof.
  intros Hinv Hne Hf Ht Hlen Hsame Huse Hct Hcf.
  eapply pool_inv_relink; [done| |done|done|].
  { by apply mjoin_move. }
  pose proof (pi_chains _ _ _ Hinv) as Hc.
  apply Forall2_same_length_lookup. split.
  { rewrite !length_insert. by eapply Forall2_length. }
  pose proof (lookup_lt_Some _ _ _ Hf). pose proof (lookup_lt_Some _ _ _ Ht).
  pose proof (Forall2_length _ _ _ Hc).
  intros i h cs Hh Hcs. destruct (decide (i = f)) as [->|Hif].
  { rewrite list_lookup_insert_eq in Hh by (rewrite length_insert; lia).
    rewrite list_lookup_insert_eq in Hcs by (rewrite length_insert; lia). congruence. }
  rewrite list_lookup_insert_ne in Hh by done. rewrite list_lookup_insert_ne in Hcs by done.
  destruct (decide (i = t)) as [->|Hit].
  { rewrite list_lookup_insert_eq in Hh by lia.
    rewrite list_lookup_insert_eq in Hcs by lia. congruence. }
  rewrite list_lookup_insert_ne in Hh by done. rewrite list_lookup_insert_ne in Hcs by done.
  eapply chain_frame; [by eapply Forall2_lookup_lr|]. intros n Hn. apply Hsame.
  - intros ->. eapply (pool_inv_disjoint _ _ _ i f); [done..|].
    rewrite !fmap_app. set_solver.
  - by eapply (pool_inv_disjoint _ _ _ i t).
Qed.

(** The state [split] ends in, up to the links of the cells. *)
Definition split_post (s : pstate) (css : list (list (nat * nat))) (f t : nat)
    (cst moved rest : list (nat * nat)) (s' : pstate) : Prop :=
  exists l' hs',
    s' = set_queues hs' (set_surplus_nodes l'
           (set_ptable (promote_all (ticks s) moved.*2 (ptable s)) s)) /\
    pool_inv l' hs' (<[f := rest]> (<[t := cst ++ moved]> css)).

Lemma set_n_next_use l m h i n :
  upd_node m (set_n_next h) l !! i = Some n ->
  exists n', l !! i = Some n' /\ n_use n = n_use n'.
Proof.
  unfold upd_node. destruct (decide (i = m)) as [->|Hne].
  - rewrite list_lookup_alter_eq. intros (n' & -> & ->)%fmap_Some. eauto.
  - rewrite list_lookup_alter_ne by done. eauto.
Qed.

(** The link surgery of [split] when [moved] is not empty, the target list
    being [cst] with head [ht]. *)
Lemma split_links l heads css f t cst mv m q rest hf ht :
  pool_inv l heads css -> f <> t ->
  css !! f = Some ((mv ++ [(m, q)]) ++ rest) -> css !! t = Some cst ->
  heads !! f = Some hf -> heads !! t = Some ht ->
  let l1 := upd_node m (set_n_next None) l in
  let heads' h := <[f := fst <$> head rest]> (<[t := h]> heads) in
  let css' := <[f := rest]> (<[t := cst ++ (mv ++ [(m, q)])]> css) in
  (ht = None -> pool_inv l1 (heads' hf) css') /\
  (forall cs0 e pe, cst = cs0 ++ [(e, pe)] ->
     pool_inv (upd_node e (set_n_next hf) l1) (heads' ht) css').
Proof.
  intros Hinv Hne Hf Ht Hhf Hht l1 heads' css'.
  destruct (pool_inv_chain _ _ _ _ _ Hinv Hf) as (h & Hh & Hcf). simplify_eq.
  destruct (pool_inv_chain _ _ _ _ _ Hinv Ht) as (h & Hh & Hct). simplify_eq.
  pose proof (pool_inv_nodup _ _ _ _ _ Hinv Hf) as [Hnd _].
  pose proof (pool_inv_nodup _ _ _ _ _ Hinv Ht) as [Hndt _].
  destruct (chain_cut _ _ _ _ _ _ Hcf Hnd) as [Hcm (hr & Hcr & _)]. fold l1 in Hcm, Hcr.
  assert (hr = fst <$> head rest) as -> by by eapply chain_head.
  assert (m ∈ ((mv ++ [(m, q)]) ++ rest).*1) as Hm by (rewrite !fmap_app; set_solver).
  assert (forall n, n ∈ ((mv ++ [(m, q)]) ++ rest).*1 -> n ∉ cst.*1) as Hd
    by (intros n; by apply (pool_inv_disjoint l heads css f t)).
  assert (chain l1 ht cst) as Hct1 by (apply chain_frame_alter; [done|by apply Hd]).
  split.
  - intros ->. assert (cst = []) as -> by (destruct cst as [|[? ?] ?]; [done|by destruct Hct]).
    eapply pool_inv_splice; [done|done|done|done| | | |done|done].
    + unfold l1, upd_node. by rewrite length_alter.
    + intros i Hi _. by apply list_lookup_alter_ne.
    + intros i n. apply set_n_next_use.
  - intros cs0 e pe ->.
    assert (e ∈ (cs0 ++ [(e, pe)]).*1) as He by (rewrite fmap_app; set_solver).
    assert (forall x, x ∈ ((mv ++ [(m, q)]) ++ rest).*1 -> e <> x) as Hex
      by (intros x Hx ->; by apply (Hd x)).
    rewrite !fmap_app in Hex.
    eapply pool_inv_splice; [done|done|done|done| | | | |].
    + unfold l1, upd_node. by rewrite !length_alter.
    + intros i Hi Hi'. unfold l1, upd_node.
      rewrite !list_lookup_alter_ne; [done|done|by intros <-].
    + intros i n (n1 & Hn1 & ->)%set_n_next_use. by apply set_n_next_use in Hn1.
    + apply chain_app; [done|done| |done]. rewrite fmap_app. intros Hin. eapply Hex; [|done].
      set_solver.
    + apply chain_frame_alter; [done|]. intros Hin. eapply Hex; [|done]. set_solver.
Qed.

Lemma split_move_spec s0 s css f t cst mv m q rest :
  pool_inv (surplus_nodes s) (queues s) css -> f <> t ->
  css !! f = Some ((mv ++ [(m, q)]) ++ rest) -> css !! t = Some cst ->
  set_ptable (promote_all (ticks s0) (mv ++ [(m, q)]).*2 (ptable s0)) s0 = s ->
  wp (Queue.split_move f t (fst <$> head rest) m)
    (fun _ => split_post s0 css f t cst (mv ++ [(m, q)]) rest) s.
Proof.
  intros Hinv Hne Hf Ht Hs.
  destruct (pool_inv_chain _ _ _ _ _ Hinv Hf) as (hf & Hhf & Hcf).
  destruct (pool_inv_chain _ _ _ _ _ Hinv Ht) as (ht & Hht & Hct).
  pose proof (pool_inv_nodup _ _ _ _ _ Hinv Ht) as [Hndt _].
  pose proof (chain_length _ _ _ Hct Hndt) as Hlt. rewrite (pi_length _ _ _ Hinv) in Hlt.
  destruct (split_links _ _ _ _ _ _ _ _ _ _ _ _ Hinv Hne Hf Ht Hhf Hht) as [Hnil Hcons].
  assert (is_Some (surplus_nodes s !! m)) as Hsm.
  { apply lookup_lt_is_Some_2. eapply chain_lt; [exact Hcf|]. rewrite !fmap_app. set_solver. }
  unfold Queue.split_move. wp_steps. exists ht. split; [done|]. destruct ht as [t0|]; wp_steps.
  - destruct (exists_last (l := cst)) as (cs0 & [e pe] & ->).
    { intros ->. discriminate Hct. }
    unfold wp at 1. erewrite last_node_spec; [|done|].
    2:{ rewrite length_app in Hlt. cbn in Hlt. unfold Queue.FUEL. lia. }
    cbn. wp_steps. split; [done|]. exists hf. split; [done|]. wp_steps. split.
    { apply lookup_lt_is_Some_2. cbn. unfold upd_node. rewrite length_alter.
      eapply chain_lt; [exact Hct|]. rewrite fmap_app. set_solver. }
    split; [by eexists|]. subst s. do 2 eexists. split; [done|].
    specialize (Hcons _ _ _ eq_refl). cbn in Hhf, Hht, Hcons |- *.
    by rewrite (list_insert_id (queues s0) t (Some t0)) in Hcons.
  - split; [done|]. exists hf. split; [done|]. wp_steps. split; [by eexists|]. cbn. split.
    { rewrite list_lookup_insert_ne by done. by eexists. }
    subst s. do 2 eexists. split; [done|]. by apply Hnil.
Qed.

Lemma split_spec s css f t csf cst thr :
  pool_inv (surplus_nodes s) (queues s) css -> f <> t ->
  css !! f = Some csf -> css !! t = Some cst -> NoDup csf.*2 ->
  (forall q, q ∈ csf.*2 -> is_Some (ptable s !! q)) ->
  wp (Queue.split (Some f) (Some t) thr) (fun r s' =>
    r = Z.of_nat (length (split_cells s thr csf).1) /\
    split_post s css f t cst (split_cells s thr csf).1 (split_cells s thr csf).2 s') s.
Proof.
  intros Hinv Hne Hf Ht Hnd Hex.
  destruct (pool_inv_chain _ _ _ _ _ Hinv Hf) as (hf & Hhf & Hcf).
  pose proof (pool_inv_nodup _ _ _ _ _ Hinv Hf) as [Hndf _].
  pose proof (chain_length _ _ _ Hcf Hndf) as Hlf. rewrite (pi_length _ _ _ Hinv) in Hlf.
  unfold Queue.split. wp_steps. exists hf. split; [done|].
  assert (forall moved rest, csf = moved ++ rest -> moved = [] ->
    split_post s css f t cst moved rest s) as Hnone.
  { intros moved rest -> ->. exists (surplus_nodes s), (queues s). split; [by destruct s|].
    rewrite app_nil_r, (list_insert_id css t cst) by done. by rewrite list_insert_id. }
  pose proof (span_app (fun c => waited (ticks s) (ptable s) thr c.2) csf) as Hspan.
  fold (split_cells s thr csf) in Hspan.
  destruct hf as [hf|].
  2:{ assert (csf = []) as -> by (destruct csf as [|[? ?] ?]; [done|by destruct Hcf]).
      wp_steps. split; [done|]. by apply Hnone. }
  wp_steps. unfold wp at 1.
  rewrite (split_loop_spec Queue.FUEL s (Some hf) csf None 0 thr);
    [|done|done|done|unfold Queue.FUEL; lia|lia|unfold NPROC in Hlf; lia].
  destruct (split_cells s thr csf) as [moved rest]. cbn [fst snd] in *. subst csf.
  destruct (last moved) as [[m q]|] eqn:Hlast.
  - apply last_Some in Hlast as [mv ->]. wp_steps. cbn [fst].
    eapply wp_mono; [by eapply (split_move_spec s)|]. intros [] s' Hpost. by wp_steps.
  - apply last_None in Hlast as ->. wp_steps. split; [done|]. destruct s. by apply Hnone.
Qed.
