(* ===== verification/Proc.v ===== *)
(** The process table operations of [proc.c]: everything but the scheduler
    loop, which is in [Sched.v].

    The functions that only touch the state guarded by [ptable.lock] are
    computations over [pstate].  The ones that also call the memory, file and
    inode components ([allocproc], [fork], [exit], [wait], ...) run over a
    [kst R], the process state beside the state [R] of those components, and
    reach them through the interface [ProcOps].  A critical section runs
    without interruption; the lock itself is the flag [ptable_locked], which
    [acquire] and [release] check the way [spinlock.c] does. *)

From S2P Require Import Prelude CString ProcDefs Queue.

Module Proc.
Import Queue.

(** ** [ptable.lock] *)

Definition acquire : M pstate unit :=
  let! l := gets ptable_locked in
  if l then panic "acquire" else modify (set_ptable_locked true).
Definition release : M pstate unit :=
  let! l := gets ptable_locked in
  if l then modify (set_ptable_locked false) else panic "release".

(** An array index held in an [int]. *)
Definition idx (z : Z) : option nat :=
  if z <? 0 then None else Some (Z.to_nat z).

(** [queues[p->queue] = push(queues[p->queue], p)] *)
Definition enqueue (i : nat) : M pstate unit :=
  let! p := get_proc i in
  let! k := deref (idx (p_queue p)) in
  let! h := get_queue k in
  let! h' := on_pool (push h i) in
  set_queue k h'.

Definition pinit (pol : policy) : M pstate unit :=
  match pol with
  | SCHED_MLFQ =>
      do! acquire;
      do! for_each (seq 0 NUM_QUEUES) (fun i => set_queue i None);
      do! for_each (seq 0 NPROC) (fun i => on_pool (store i (set_n_use 0)));
      release
  | _ => ret tt
  end.

(** The first half of [allocproc]: claim an [UNUSED] slot and initialise it. *)
Definition alloc_init (t pid : Z) (p : proc) : proc := {|
  p_sz := p_sz p;
  p_pgdir := p_pgdir p;
  p_kstack := p_kstack p;
  p_state := EMBRYO;
  p_pid := pid;
  p_parent := p_parent p;
  p_tf := p_tf p;
  p_context := p_context p;
  p_chan := p_chan p;
  p_killed := p_killed p;
  p_ofile := p_ofile p;
  p_cwd := p_cwd p;
  p_name := p_name p;
  p_start_time := i32 t;
  p_end_time := 0;
  p_run_time := 0;
  p_priority := 60;
  p_timeslices := 0;
  p_age_time := i32 t;
  p_cur_timeslices := 0;
  p_queue := 0;
  p_punish := 0;
  p_num_run := 0;
  p_ticks := replicate NUM_QUEUES 0
|}.

Definition alloc_slot : M pstate (option nat) :=
  do! acquire;
  let! s := get in
  match first_from (fun p => bool_decide (p_state p = UNUSED)) (ptable s) 0 with
  | None => do! release; ret None
  | Some i =>
      do! set_proc i (alloc_init (ticks s) (nextpid s));
      do! modify (set_nextpid (i32 (nextpid s + 1)));
      do! release;
      ret (Some i)
  end.

(** Run by the clock interrupt: every [RUNNING] process gets a tick. *)
Definition inc_runtime : M pstate unit :=
  do! acquire;
  do! for_each (seq 0 NPROC) (fun i =>
        let! p := get_proc i in
        when (bool_decide (p_state p = RUNNING))
          (set_proc i (fun p => set_p_run_time (i32 (p_run_time p + 1)) p)));
  release.

Definition punisher (cur : nat) : M pstate unit :=
  do! acquire; do! set_proc cur (set_p_punish 1); release.

Definition inc_timeslice (cur : nat) : M pstate unit :=
  do! acquire;
  do! set_proc cur (fun p => set_p_cur_timeslices (i32 (p_cur_timeslices p + 1)) p);
  release.

(** [myproc()->ticks[myproc()->queue]++] *)
Definition inc_pinfo_ticks (cur : nat) : M pstate unit :=
  do! acquire;
  let! p := get_proc cur in
  let! k := deref (idx (p_queue p)) in
  let! t := deref (p_ticks p !! k) in
  do! set_proc cur (fun p => set_p_ticks (<[k := i32 (t + 1)]> (p_ticks p)) p);
  release.

(** What [wakeup1] and [kill] do to a process they make runnable. *)
Definition make_runnable (pol : policy) (i : nat) : M pstate unit :=
  do! set_proc i (set_p_state RUNNABLE);
  match pol with
  | SCHED_MLFQ =>
      do! enqueue i;
      do! set_proc i (set_p_cur_timeslices 0);
      let! t := gets ticks in
      set_proc i (set_p_age_time (i32 t))
  | _ => ret tt
  end.

(** [ptable.lock] must be held. *)
Definition wakeup1 (pol : policy) (c : chan) : M pstate unit :=
  for_each (seq 0 NPROC) (fun i =>
    let! p := get_proc i in
    when (bool_decide (p_state p = SLEEPING) && bool_decide (p_chan p = c))
      (make_runnable pol i)).

Definition wakeup (pol : policy) (c : chan) : M pstate unit :=
  do! acquire; do! wakeup1 pol c; release.

Definition kill (pol : policy) (pid : Z) : M pstate Z :=
  do! acquire;
  let! s := get in
  match first_from (fun p => p_pid p =? pid) (ptable s) 0 with
  | None => do! release; ret (-1)
  | Some i =>
      do! set_proc i (set_p_killed 1);
      let! p := get_proc i in
      do! when (bool_decide (p_state p = SLEEPING)) (make_runnable pol i);
      do! release;
      ret 0
  end.

Definition getpinfo (pol : policy) (pid : Z) : M pstate (Z * option proc_stat) :=
  do! acquire;
  let! s := get in
  match first_from (fun p => p_pid p =? pid) (ptable s) 0 with
  | None => do! release; ret (-1, None)
  | Some i =>
      let! p := get_proc i in
      do! release;
      ret (0, Some
        match pol with
        | SCHED_MLFQ =>
            mkproc_stat (p_pid p) (p_run_time p) (p_num_run p) (p_queue p)
              (take NUM_QUEUES (p_ticks p))
        | _ =>
            mkproc_stat (p_pid p) (p_run_time p) (p_num_run p) (-1)
              (replicate NUM_QUEUES (-1))
        end)
  end.

(** ** Giving up the processor *)

(** [sched]: the checks, then the switch to the scheduler.  (Its checks of
    [ncli] and of the interrupt flag are on the state of [Lock.v].) *)
Definition sched (cur : nat) : M pstate unit :=
  let! l := gets ptable_locked in
  if negb l then panic "sched ptable.lock" else
  let! p := get_proc cur in
  if bool_decide (p_state p = RUNNING) then panic "sched running" else ret tt.

(** [yield] up to the switch; the process releases the lock when resumed. *)
Definition yield (cur : nat) : M pstate unit :=
  do! acquire;
  do! set_proc cur (set_p_state RUNNABLE);
  sched cur.

(** [sleep] up to the switch, called with [ptable.lock] held or not
    ([lk != &ptable.lock]), and what the process does once resumed. *)
Definition sleep (cur : nat) (c : chan) (lk_is_ptable : bool) : M pstate unit :=
  do! (if lk_is_ptable then ret tt else acquire);
  do! set_proc cur (set_p_chan c);
  do! set_proc cur (set_p_state SLEEPING);
  sched cur.
Definition sleep_resume (cur : nat) (lk_is_ptable : bool) : M pstate unit :=
  do! set_proc cur (set_p_chan ChNull);
  if lk_is_ptable then ret tt else release.

(** How a call ends: with a value; by giving up the processor ([yield]) and
    returning the value when resumed; or asleep, to run again from the loop
    head when woken. *)
Inductive ctl (A : Type) : Type :=
| Done (a : A)
| Resched (a : A)
| Asleep (c : chan).
Arguments Done {A} a.
Arguments Resched {A} a.
Arguments Asleep {A} c.

Definition set_priority (cur : nat) (new_priority : Z) : M pstate (ctl Z) :=
  if (new_priority <? 0) || (new_priority >? 100) then ret (Done (-1)) else
  do! acquire;
  let! p := get_proc cur in
  let old_priority := p_priority p in
  do! set_proc cur (set_p_priority new_priority);
  do! when (negb (new_priority =? old_priority)) (set_proc cur (set_p_timeslices 0));
  do! release;
  if negb (new_priority =? old_priority) then
    do! yield cur; ret (Resched old_priority)
  else ret (Done old_priority).

(** ** The rest of the kernel, as the process component sees it

    [R] is the state of the memory, file, log and inode components.  Pages and
    page tables are addresses with 0 for failure; files and inodes are indices
    of their tables.  [drain] hands over the channels on which a call of these
    components has called [wakeup]. *)

Class ProcOps (R : Type) : Type := {
  forkret_addr : Z;
  kalloc : M R Z;
  kfree : Z -> M R unit;
  setupkvm : M R Z;
  inituvm : Z -> M R unit;
  allocuvm : Z -> Z -> Z -> M R Z;
  deallocuvm : Z -> Z -> Z -> M R Z;
  copyuvm : Z -> Z -> M R Z;
  freevm : Z -> M R unit;
  namei : list Z -> M R (option nat);
  idup : nat -> M R unit;
  iput : nat -> M R unit;
  filedup : nat -> M R unit;
  fileclose : nat -> M R unit;
  begin_op : M R unit;
  end_op : M R unit;
  drain : R -> list chan * R
}.

Record kst (R : Type) : Type := mkkst { k_ps : pstate; k_rs : R }.
Arguments mkkst {R} k_ps k_rs.
Arguments k_ps {R} k.
Arguments k_rs {R} k.

Section ops.
Context {R : Type} `{!ProcOps R}.

Definition on_ps {A} (m : M pstate A) : M (kst R) A :=
  zoom k_ps (fun s k => mkkst s (k_rs k)) m.
Definition on_rs {A} (m : M R A) : M (kst R) A :=
  zoom k_rs (fun r k => mkkst (k_ps k) r) m.

(** A call whose [wakeup]s reach the process table. *)
Definition call (pol : policy) {A} (m : M R A) : M (kst R) A :=
  let! a := on_rs m in
  let! cs := (fun k => let '(cs, r) := drain (k_rs k) in Ok (cs, mkkst (k_ps k) r)) in
  do! for_each cs (fun c => on_ps (wakeup pol c));
  ret a.

Definition setp (i : nat) (f : proc -> proc) : M (kst R) unit := on_ps (set_proc i f).
Definition getp (i : nat) : M (kst R) proc := on_ps (get_proc i).

(** The kernel stack gets a context that starts at [forkret]. *)
Definition allocproc : M (kst R) (option nat) :=
  let! r := on_ps alloc_slot in
  match r with
  | None => ret None
  | Some i =>
      let! ks := on_rs kalloc in
      do! setp i (set_p_kstack ks);
      if ks =? 0 then
        do! setp i (set_p_state UNUSED); ret None
      else
        do! setp i (set_p_context (set_c_eip forkret_addr context0));
        ret (Some i)
  end.

(** ["initcode"] and ["/"]. *)
Definition initcode_name : list Z := [105; 110; 105; 116; 99; 111; 100; 101; 0].
Definition root_path : list Z := [47; 0].

(** [p->name] is 16 bytes. *)
Definition set_name (i : nat) (src : list Z) : M (kst R) unit :=
  setp i (fun p => set_p_name (lsafestrcpy 15 src (p_name p)) p).

(** [p->state = RUNNABLE], and under MLFQ [queues[0] = push(queues[0], p)]. *)
Definition publish (pol : policy) (i : nat) : M pstate unit :=
  do! acquire;
  do! set_proc i (set_p_state RUNNABLE);
  do! match pol with
      | SCHED_MLFQ =>
          let! h := get_queue 0 in
          let! h' := on_pool (push h i) in
          set_queue 0 h'
      | _ => ret tt
      end;
  release.

(** [(SEG_UCODE << 3) | DPL_USER], [(SEG_UDATA << 3) | DPL_USER], [FL_IF]. *)
Definition user_tf : trapframe :=
  let cs := Z.lor (Z.shiftl 3 3) 3 in
  let ds := Z.lor (Z.shiftl 4 3) 3 in
  mktrapframe 0 0 0 0 0 0 0 0 0 0 ds ds 0 0 0 cs 512 4096 ds.

Definition userinit (pol : policy) : M (kst R) unit :=
  let! r := allocproc in
  do! on_ps (modify (set_initproc r));
  let! pg := on_rs setupkvm in
  let! i := deref r in
  do! setp i (set_p_pgdir pg);
  if pg =? 0 then panic "userinit: out of memory?" else
  do! on_rs (inituvm pg);
  do! setp i (set_p_sz 4096);
  do! setp i (set_p_tf user_tf);
  do! set_name i initcode_name;
  let! ip := call pol (namei root_path) in
  do! setp i (set_p_cwd ip);
  on_ps (publish pol i).

(** The checks of [switchuvm] on the process; the rest loads hardware
    registers. *)
Definition switchuvm (i : nat) : M pstate unit :=
  let! p := get_proc i in
  if p_kstack p =? 0 then panic "switchuvm: no kstack" else
  if p_pgdir p =? 0 then panic "switchuvm: no pgdir" else ret tt.

Definition growproc (cur : nat) (n : Z) : M (kst R) Z :=
  let! p := getp cur in
  let sz := p_sz p in
  let finish (sz : Z) : M (kst R) Z :=
    do! setp cur (set_p_sz (u32 sz)); do! on_ps (switchuvm cur); ret 0 in
  if n >? 0 then
    let! r := on_rs (allocuvm (p_pgdir p) sz (u32 (sz + n))) in
    if r =? 0 then ret (-1) else finish r
  else if n <? 0 then
    let! r := on_rs (deallocuvm (p_pgdir p) sz (u32 (sz + n))) in
    if r =? 0 then ret (-1) else finish r
  else finish sz.

(** The loop of [fork] over the open files. *)
Definition dup_files (cur np : nat) : M (kst R) unit :=
  for_each (seq 0 NOFILE) (fun fd =>
    let! p := getp cur in
    let! o := deref (p_ofile p !! fd) in
    match o with
    | Some f =>
        do! on_rs (filedup f);
        setp np (fun q => set_p_ofile (<[fd := Some f]> (p_ofile q)) q)
    | None => ret tt
    end).

Definition fork (pol : policy) (cur : nat) : M (kst R) Z :=
  let! r := allocproc in
  match r with
  | None => ret (-1)
  | Some np =>
      let! p := getp cur in
      let! pg := on_rs (copyuvm (p_pgdir p) (p_sz p)) in
      do! setp np (set_p_pgdir pg);
      if pg =? 0 then
        let! q := getp np in
        do! on_rs (kfree (p_kstack q));
        do! setp np (set_p_kstack 0);
        do! setp np (set_p_state UNUSED);
        ret (-1)
      else
        do! setp np (set_p_sz (p_sz p));
        do! setp np (set_p_parent (Some cur));
        do! setp np (set_p_tf (set_tf_eax 0 (p_tf p)));
        do! dup_files cur np;
        let! cwd := deref (p_cwd p) in
        do! on_rs (idup cwd);
        do! setp np (set_p_cwd (Some cwd));
        do! set_name np (p_name p);
        let! q := getp np in
        do! on_ps (publish pol np);
        ret (p_pid q)
  end.

(** The loop of [exit] over the open files. *)
Definition close_files (pol : policy) (cur : nat) : M (kst R) unit :=
  for_each (seq 0 NOFILE) (fun fd =>
    let! p := getp cur in
    let! o := deref (p_ofile p !! fd) in
    match o with
    | Some f =>
        do! call pol (fileclose f);
        setp cur (fun q => set_p_ofile (<[fd := None]> (p_ofile q)) q)
    | None => ret tt
    end).

(** Pass abandoned children to init. *)
Definition reparent (pol : policy) (cur : nat) : M pstate unit :=
  for_each (seq 0 NPROC) (fun i =>
    let! p := get_proc i in
    when (bool_decide (p_parent p = Some cur))
      (let! ip := gets initproc in
       do! set_proc i (set_p_parent ip);
       when (bool_decide (p_state p = ZOMBIE)) (wakeup1 pol (chan_of ip)))).

(** The critical section of [exit], up to the switch to the scheduler. *)
Definition exit_locked (pol : policy) (cur : nat) : M pstate unit :=
  do! acquire;
  let! p := get_proc cur in
  do! wakeup1 pol (chan_of (p_parent p));
  do! reparent pol cur;
  do! set_proc cur (set_p_state ZOMBIE);
  sched cur.

Definition exit (pol : policy) (cur : nat) : M (kst R) unit :=
  let! ip := on_ps (gets initproc) in
  if bool_decide (ip = Some cur) then panic "init exiting" else
  let! t := on_ps (gets ticks) in
  do! setp cur (set_p_end_time (i32 t));
  do! close_files pol cur;
  do! call pol begin_op;
  let! p := getp cur in
  let! cwd := deref (p_cwd p) in
  do! call pol (iput cwd);
  do! call pol end_op;
  do! setp cur (set_p_cwd None);
  on_ps (exit_locked pol cur).

(** A zombie child found by [wait]: free what it holds and its slot. *)
Definition reap (i : nat) : M (kst R) Z :=
  let! p := getp i in
  do! on_rs (kfree (p_kstack p));
  do! setp i (set_p_kstack 0);
  do! on_rs (freevm (p_pgdir p));
  do! setp i (set_p_pid 0);
  do! setp i (set_p_parent None);
  do! setp i (fun q => set_p_name (<[0%nat := 0]> (p_name q)) q);
  do! setp i (set_p_killed 0);
  do! setp i (set_p_state UNUSED);
  do! on_ps release;
  ret (p_pid p).

(** The loop bodies of [wait] and [waitx], entered with the lock held.  The
    times are what [waitx] stores through its arguments. *)
Definition waitx_loop (cur : nat) : M (kst R) (ctl (Z * option (Z * Z))) :=
  let! s := on_ps get in
  match first_from (fun p => bool_decide (p_parent p = Some cur) &&
                             bool_decide (p_state p = ZOMBIE)) (ptable s) 0 with
  | Some i =>
      let! p := getp i in
      let rtime := p_run_time p in
      let wtime := i32 (p_end_time p - p_start_time p - p_run_time p) in
      let! pid := reap i in
      ret (Done (pid, Some (wtime, rtime)))
  | None =>
      let havekids := existsb (fun p => bool_decide (p_parent p = Some cur)) (ptable s) in
      let! p := getp cur in
      if negb havekids || negb (p_killed p =? 0) then
        do! on_ps release; ret (Done (-1, None))
      else
        do! on_ps (sleep cur (ChProc cur) true);
        ret (Asleep (ChProc cur))
  end.
Definition waitx (cur : nat) : M (kst R) (ctl (Z * option (Z * Z))) :=
  do! on_ps acquire; waitx_loop cur.

Definition wait_loop (cur : nat) : M (kst R) (ctl Z) :=
  let! s := on_ps get in
  match first_from (fun p => bool_decide (p_parent p = Some cur) &&
                             bool_decide (p_state p = ZOMBIE)) (ptable s) 0 with
  | Some i => let! pid := reap i in ret (Done pid)
  | None =>
      let havekids := existsb (fun p => bool_decide (p_parent p = Some cur)) (ptable s) in
      let! p := getp cur in
      if negb havekids || negb (p_killed p =? 0) then
        do! on_ps release; ret (Done (-1))
      else
        do! on_ps (sleep cur (ChProc cur) true);
        ret (Asleep (ChProc cur))
  end.
Definition wait (cur : nat) : M (kst R) (ctl Z) :=
  do! on_ps acquire; wait_loop cur.

End ops.
End Proc.
