(* ===== verification/Sched.v ===== *)
(** The scheduler loop of [proc.c] under its four compile-time policies.

    Each policy's loop body is split where it switches to the process: the
    selection and dispatch ([enter]), and what the scheduler does when the
    process comes back ([leave]).  Both run with [ptable.lock] held. *)

From S2P Require Import Prelude CString ProcDefs Queue Proc.

Module Sched.
Import Queue Proc.

(** [p->num_run++; switchuvm(p); p->state = RUNNING;] *)
Definition run_proc (i : nat) : M pstate unit :=
  do! set_proc i (fun p => set_p_num_run (i32 (p_num_run p + 1)) p);
  do! switchuvm i;
  set_proc i (set_p_state RUNNING).

Definition is_runnable (p : proc) : bool := bool_decide (p_state p = RUNNABLE).

(** ** Round robin *)

(** The next process of the sweep over the table that stands at [pos]. *)
Definition rr_select (pos : nat) (tbl : list proc) : option nat :=
  first_from is_runnable (drop pos tbl) pos.

(** ** First come, first served *)

Fixpoint fcfs_loop (tbl : list proc) (i : nat) (min_time : Z)
    (selected_proc : option nat) : option nat :=
  match tbl with
  | [] => selected_proc
  | p :: tbl =>
      if negb (is_runnable p) then fcfs_loop tbl (S i) min_time selected_proc
      else if p_start_time p <? min_time then
        fcfs_loop tbl (S i) (p_start_time p) (Some i)
      else fcfs_loop tbl (S i) min_time selected_proc
  end.

(** [int min_time = ticks + 100]. *)
Definition fcfs_select (t : Z) (tbl : list proc) : option nat :=
  fcfs_loop tbl 0 (i32 (t + 100)) None.

(** ** Priority based *)

Fixpoint pbs_loop (tbl : list proc) (i : nat) (high_priority min_timeslices : Z)
    (selected_proc : option nat) : option nat :=
  match tbl with
  | [] => selected_proc
  | p :: tbl =>
      if negb (is_runnable p) then
        pbs_loop tbl (S i) high_priority min_timeslices selected_proc
      else if p_priority p <? high_priority then
        pbs_loop tbl (S i) (p_priority p) (p_timeslices p) (Some i)
      else if (p_priority p =? high_priority) && (p_timeslices p <? min_timeslices) then
        pbs_loop tbl (S i) high_priority (p_timeslices p) (Some i)
      else pbs_loop tbl (S i) high_priority min_timeslices selected_proc
  end.

Definition pbs_select (t : Z) (tbl : list proc) : option nat :=
  pbs_loop tbl 0 101 (i32 (t + 100)) None.

(** ** Multi-level feedback queue *)

(** Age the processes. *)
Definition mlfq_age : M pstate unit :=
  for_each (seq 1 (NUM_QUEUES - 1)) (fun i =>
    do! split (Some i) (Some (i - 1)%nat) AGE_LIMIT; ret tt).

(** The first process of the first queue that is not empty, taken off it. *)
Fixpoint mlfq_scan (ks : list nat) : M pstate (option nat) :=
  match ks with
  | [] => ret None
  | i :: ks =>
      let! h := get_queue i in
      let! n := on_pool (Queue.length h) in
      if n =? 0 then mlfq_scan ks
      else
        let! c := deref h in
        let! nd := on_pool (load c) in
        let! h' := on_pool (pop h) in
        do! set_queue i h';
        ret (n_p nd)
  end.
Definition mlfq_pick : M pstate (option nat) := mlfq_scan (seq 0 NUM_QUEUES).

(** Back from [p]. *)
Definition mlfq_requeue (i : nat) : M pstate unit :=
  let! p := get_proc i in
  when (bool_decide (p_state p = RUNNABLE))
    (let! t := gets ticks in
     if p_punish p =? 0 then
       do! set_proc i (set_p_cur_timeslices 0);
       do! set_proc i (set_p_age_time (i32 t));
       enqueue i
     else
       do! set_proc i (set_p_cur_timeslices 0);
       do! set_proc i (set_p_punish 0);
       do! set_proc i (set_p_age_time (i32 t));
       do! when (negb (p_queue p =? Z.of_nat NUM_QUEUES - 1))
             (set_proc i (fun p => set_p_queue (i32 (p_queue p + 1)) p));
       enqueue i).

(** ** One turn of the loop *)

(** From [acquire] to the switch.  [pos] is where the round-robin sweep
    stands.  [None]: nothing to run, and the lock is released again. *)
Definition enter (pol : policy) (pos : nat) : M pstate (option nat) :=
  do! acquire;
  let! s := get in
  match pol with
  | SCHED_RR =>
      match rr_select pos (ptable s) with
      | None => do! release; ret None
      | Some i => do! run_proc i; ret (Some i)
      end
  | SCHED_FCFS =>
      match fcfs_select (ticks s) (ptable s) with
      | None => do! release; ret None
      | Some i => do! run_proc i; ret (Some i)
      end
  | SCHED_PBS =>
      match pbs_select (ticks s) (ptable s) with
      | None => do! release; ret None
      | Some i =>
          do! set_proc i (fun p => set_p_timeslices (i32 (p_timeslices p + 1)) p);
          do! run_proc i;
          ret (Some i)
      end
  | SCHED_MLFQ =>
      do! mlfq_age;
      let! r := mlfq_pick in
      match r with
      | None => do! release; ret None
      | Some i =>
          let! p := get_proc i in
          if negb (is_runnable p) then do! release; ret None
          else
            do! set_proc i (fun p => set_p_cur_timeslices (i32 (p_cur_timeslices p + 1)) p);
            do! run_proc i;
            ret (Some i)
      end
  end.

(** From the switch back to [release].  (Between two processes of one sweep the
    round-robin loop keeps the lock; letting it go there admits more
    interleavings, not fewer.) *)
Definition leave (pol : policy) (i : nat) : M pstate unit :=
  match pol with
  | SCHED_MLFQ => do! mlfq_requeue i; release
  | _ => release
  end.

End Sched.

(** * The selections *)

Section selections.
Import Sched.
Implicit Types (tbl : list proc) (p q : proc).

Lemma fcfs_loop_sel tbl i k sel :
  fcfs_loop tbl i k sel = sel_loop is_runnable p_start_time Z.ltb tbl i k sel.
Proof.
  revert i k sel. induction tbl as [|p tbl IH]; intros i k sel; cbn; [done|].
  destruct (is_runnable p); cbn; [|done]. by destruct (p_start_time p <? k).
Qed.

(** The key of the priority policy: the priority value, then the timeslices. *)
Definition pbs_key (p : proc) : Z * Z := (p_priority p, p_timeslices p).
Definition pbs_lt (a b : Z * Z) : bool :=
  (a.1 <? b.1) || ((a.1 =? b.1) && (a.2 <? b.2)).

Lemma pbs_lt_iff a b : pbs_lt a b = true <-> a.1 < b.1 \/ (a.1 = b.1 /\ a.2 < b.2).
Proof. unfold pbs_lt. rewrite orb_true_iff, andb_true_iff. lia. Qed.

Lemma pbs_loop_sel tbl i a b sel :
  pbs_loop tbl i a b sel = sel_loop is_runnable pbs_key pbs_lt tbl i (a, b) sel.
Proof.
  revert i a b sel. induction tbl as [|p tbl IH]; intros i a b sel; cbn; [done|].
  destruct (is_runnable p); cbn; [|done]. unfold pbs_lt at 1. cbn.
  destruct (Z.ltb_spec (p_priority p) a); cbn; [by rewrite IH|].
  destruct (Z.eqb_spec (p_priority p) a) as [Heq|]; cbn; [subst a|done].
  destruct (p_timeslices p <? b); by rewrite IH.
Qed.

Lemma fcfs_select_sel t tbl :
  (fcfs_select t tbl = None /\
    forall j q, tbl !! j = Some q -> p_state q = RUNNABLE -> i32 (t + 100) <= p_start_time q) \/
  (exists i p, fcfs_select t tbl = Some i /\ p_start_time p < i32 (t + 100) /\
    least_at is_runnable p_start_time Z.ltb tbl i p).
Proof.
  unfold fcfs_select. rewrite fcfs_loop_sel.
  destruct (sel_loop_spec is_runnable p_start_time Z.ltb ltac:(lia) ltac:(lia) ltac:(lia)
    tbl 0 (i32 (t + 100)) None) as [[-> H]|(j & x & -> & Hlt & H)].
  - left. split; [done|]. intros j q Hj Hq. apply Z.ltb_ge, (H j); [done|].
    by apply bool_decide_eq_true.
  - right. exists j, x. split; [done|]. split; [by apply Z.ltb_lt|done].
Qed.

Lemma pbs_select_sel t tbl :
  (pbs_select t tbl = None /\
    forall j q, tbl !! j = Some q -> p_state q = RUNNABLE ->
      pbs_lt (pbs_key q) (101, i32 (t + 100)) = false) \/
  (exists i p, pbs_select t tbl = Some i /\ least_at is_runnable pbs_key pbs_lt tbl i p).
Proof.
  unfold pbs_select. rewrite pbs_loop_sel.
  destruct (sel_loop_spec is_runnable pbs_key pbs_lt) with (l := tbl) (i := 0%nat)
    (k := (101, i32 (t + 100))) (sel := @None nat) as [[-> H]|(j & x & -> & _ & H)].
  - intros a. apply not_true_iff_false. rewrite pbs_lt_iff. lia.
  - intros a b c. rewrite !pbs_lt_iff. lia.
  - intros a b c H1 H2. apply not_true_iff_false in H2. rewrite pbs_lt_iff in *. lia.
  - left. split; [done|]. intros j q Hj Hq. apply (H j); [done|]. by apply bool_decide_eq_true.
  - right. exists j, x. by split.
Qed.
End selections.
