(* ===== verification/ProcInv.v ===== *)
(** The invariant of the process table and of the MLFQ ready queues.

    [pinv] is the well-formedness of the table under every policy.  [qinv]
    links the table and the queues: a process is in the queue of its level,
    once, exactly when it is [RUNNABLE]; [ex] names a process that is
    [RUNNABLE] and not yet (or no longer) queued, as happens inside the critical
    sections.  Every operation of [Proc] and [Sched] keeps the invariant and
    returns: no panic, no null or stray access, no loop that runs out of
    fuel; in particular [push] always finds a free cell. *)

From S2P Require Import Prelude CString ProcDefs Queue Proc Sched.
Import Proc.

Implicit Types (s : pstate) (p : proc) (pol : policy) (ex : option nat).

(** A process with a kernel stack and an address space. *)
Definition has_mem (p : proc) : Prop := p_kstack p <> 0 /\ p_pgdir p <> 0.
Definition active (st : procstate) : Prop :=
  st = SLEEPING \/ st = RUNNABLE \/ st = RUNNING.

Record proc_ok (p : proc) : Prop := {
  po_mem : active (p_state p) -> has_mem p;
  po_priority : 0 <= p_priority p <= 100;
  po_queue : 0 <= p_queue p < Z.of_nat NUM_QUEUES;
  po_ticks : length (p_ticks p) = NUM_QUEUES;
  po_ofile : length (p_ofile p) = NOFILE;
  po_name : length (p_name p) = 16%nat
}.

Record pinv (s : pstate) : Prop := {
  pv_len : length (ptable s) = NPROC;
  pv_ok : forall i p, ptable s !! i = Some p -> proc_ok p
}.

Record qinv (ex : option nat) (s : pstate) (css : list (list (nat * nat))) : Prop := {
  qi_pool : pool_inv (surplus_nodes s) (queues s) css;
  qi_len : length css = NUM_QUEUES;
  qi_nodup : NoDup (mjoin css).*2;
  qi_mem : forall k cs q, css !! k = Some cs -> q ∈ cs.*2 ->
    ex <> Some q /\ exists p, ptable s !! q = Some p /\
      p_state p = RUNNABLE /\ p_queue p = Z.of_nat k;
  qi_all : forall q p, ptable s !! q = Some p -> p_state p = RUNNABLE ->
    ex <> Some q -> q ∈ (mjoin css).*2
}.

(** Only the MLFQ build keeps queues. *)
Definition qok (pol : policy) (ex : option nat) (s : pstate) : Prop :=
  pol = SCHED_MLFQ -> exists css, qinv ex s css.

Definition inv (pol : policy) (ex : option nat) (s : pstate) : Prop :=
  pinv s /\ qok pol ex s.

(** The fields the queue operations leave alone. *)
Definition same_rest (s s' : pstate) : Prop :=
  ptable_locked s' = ptable_locked s /\ nextpid s' = nextpid s /\
  initproc s' = initproc s /\ ticks s' = ticks s.

Lemma same_rest_refl s : same_rest s s.
Proof. done. Qed.
Lemma same_rest_trans s1 s2 s3 : same_rest s1 s2 -> same_rest s2 s3 -> same_rest s1 s3.
Proof. unfold same_rest. intuition congruence. Qed.
#[export] Hint Resolve same_rest_refl : kernel.
#[export] Hint Resolve same_rest_trans : kernel.

(** ** Transfer lemmas *)

Lemma elem_of_queues css q :
  q ∈ (mjoin css).*2 <-> exists k (cs : list (nat * nat)), css !! k = Some cs /\ q ∈ cs.*2.
Proof.
  rewrite list_elem_of_fmap. split.
  - intros (x & -> & (cs & Hx & Hcs)%list_elem_of_join).
    apply list_elem_of_lookup in Hcs as [k Hk]. exists k, cs. split; [done|].
    apply list_elem_of_fmap. eauto.
  - intros (k & cs & Hk & (x & -> & Hx)%list_elem_of_fmap). exists x. split; [done|].
    apply list_elem_of_join. exists cs. split; [done|]. by eapply list_elem_of_lookup_2.
Qed.

(** The invariant reads a process's state and level only. *)
Lemma qinv_frame ex s s' css :
  qinv ex s css ->
  surplus_nodes s' = surplus_nodes s -> queues s' = queues s ->
  (forall q, (fun p => (p_state p, p_queue p)) <$> ptable s' !! q =
             (fun p => (p_state p, p_queue p)) <$> ptable s !! q) ->
  qinv ex s' css.
Proof.
  intros [Hp Hl Hnd Hmem Hall] Hn Hq Hsq. split; [by rewrite Hn, Hq|done|done| |].
  - intros k cs q Hk Hin. destruct (Hmem k cs q Hk Hin) as (? & p & Hp' & Hs & Hqu).
    split; [done|]. specialize (Hsq q). rewrite Hp' in Hsq. cbn in Hsq.
    apply fmap_Some in Hsq as (p' & -> & [= ? ?]). exists p'. split; [done|]. split; congruence.
  - intros q p Hq' Hs Hex. specialize (Hsq q). rewrite Hq' in Hsq. symmetry in Hsq. cbn in Hsq.
    apply fmap_Some in Hsq as (p' & Hp' & [= ? ?]). eapply Hall; [done|congruence|done].
Qed.

Lemma pinv_upd s i p f :
  pinv s -> ptable s !! i = Some p -> proc_ok (f p) -> pinv (upd_proc i f s).
Proof.
  intros [Hl Hok] Hi Hf. split; [by rewrite length_upd_proc|]. intros j q Hq.
  destruct (decide (j = i)) as [->|Hne].
  - rewrite lookup_upd_proc_eq, Hi in Hq. by injection Hq as <-.
  - rewrite lookup_upd_proc_ne in Hq by done. by eapply Hok.
Qed.

Lemma inv_upd pol ex s i p f :
  inv pol ex s -> ptable s !! i = Some p -> proc_ok (f p) ->
  p_state (f p) = p_state p -> p_queue (f p) = p_queue p ->
  inv pol ex (upd_proc i f s).
Proof.
  intros [Hp Hq] Hi Hf Hst Hqu. split; [by eapply pinv_upd|]. intros Hpol.
  destruct (Hq Hpol) as [css Hc]. exists css. eapply qinv_frame; [done|done|done|].
  intros j. destruct (decide (j = i)) as [->|Hne].
  - rewrite lookup_upd_proc_eq, Hi. cbn. congruence.
  - by rewrite lookup_upd_proc_ne.
Qed.

(** A process leaves the set of queued processes as its state changes: from
    not [RUNNABLE] to [RUNNABLE] but not queued, and back. *)
Lemma qinv_upd_ex ex ex' s css i p f :
  qinv ex s css -> ptable s !! i = Some p -> i ∉ (mjoin css).*2 ->
  (forall j, j <> i -> ex' <> Some j <-> ex <> Some j) ->
  (p_state (f p) = RUNNABLE -> ex' = Some i) ->
  qinv ex' (upd_proc i f s) css.
Proof.
  intros [Hp Hl Hnd Hmem Hall] Hi Hnot Hex Hst. split; [done|done|done| |].
  - intros k cs q Hk Hin. assert (q <> i) as Hne.
    { intros ->. apply Hnot, elem_of_queues. eauto. }
    destruct (Hmem k cs q Hk Hin) as (? & Hq). split; [by apply Hex|].
    by rewrite lookup_upd_proc_ne.
  - intros q p' Hq Hs Hne. destruct (decide (q = i)) as [->|Hqi].
    + rewrite lookup_upd_proc_eq, Hi in Hq. injection Hq as <-. by apply Hst in Hs.
    + rewrite lookup_upd_proc_ne in Hq by done. eapply Hall; [done|done|]. by apply Hex.
Qed.

Lemma qinv_not_queued ex s css i p :
  qinv ex s css -> ptable s !! i = Some p -> p_state p <> RUNNABLE \/ ex = Some i ->
  i ∉ (mjoin css).*2.
Proof.
  intros Hq Hi Hor (k & cs & Hk & Hin)%elem_of_queues.
  destruct (qi_mem _ _ _ Hq k cs i Hk Hin) as (Hne & p' & Hp' & Hs & _).
  simplify_eq. by destruct Hor.
Qed.

Lemma inv_upd_gen pol ex ex' s i p f :
  inv pol ex s -> ptable s !! i = Some p -> proc_ok (f p) ->
  p_state p <> RUNNABLE \/ ex = Some i ->
  (forall j, j <> i -> ex' <> Some j <-> ex <> Some j) ->
  (p_state (f p) = RUNNABLE -> ex' = Some i) ->
  inv pol ex' (upd_proc i f s).
Proof.
  intros [Hp Hq] Hi Hf Hor Hex Hst. split; [by eapply pinv_upd|]. intros Hpol.
  destruct (Hq Hpol) as [css Hc]. exists css. eapply qinv_upd_ex; [done|done| |done|done].
  by eapply qinv_not_queued.
Qed.

Lemma inv_make_unqueued pol s i p f :
  inv pol None s -> ptable s !! i = Some p -> p_state p <> RUNNABLE ->
  proc_ok (f p) -> inv pol (Some i) (upd_proc i f s).
Proof. intros. eapply inv_upd_gen; naive_solver. Qed.

Lemma inv_upd_ex pol s i p f :
  inv pol (Some i) s -> ptable s !! i = Some p -> proc_ok (f p) ->
  inv pol (Some i) (upd_proc i f s).
Proof. intros. eapply inv_upd_gen; naive_solver. Qed.

Lemma inv_unqueued_done pol s i p f :
  inv pol (Some i) s -> ptable s !! i = Some p -> proc_ok (f p) ->
  p_state (f p) <> RUNNABLE -> inv pol None (upd_proc i f s).
Proof. intros. eapply inv_upd_gen; naive_solver. Qed.

(** A process that is neither queued nor becomes [RUNNABLE]. *)
Lemma inv_upd_other pol s i p f :
  inv pol None s -> ptable s !! i = Some p -> p_state p <> RUNNABLE ->
  proc_ok (f p) -> p_state (f p) <> RUNNABLE -> inv pol None (upd_proc i f s).
Proof. intros. eapply inv_upd_gen; naive_solver. Qed.

(** Taking or giving back the lock, and the fields the invariant ignores. *)
Lemma inv_misc pol ex s s' :
  inv pol ex s -> ptable s' = ptable s -> surplus_nodes s' = surplus_nodes s ->
  queues s' = queues s -> inv pol ex s'.
Proof.
  intros [[Hl Hok] Hq] Ht Hn Hqs. split; [split; rewrite Ht; done|]. intros Hpol.
  destruct (Hq Hpol) as [css Hc]. exists css. eapply qinv_frame; [done|done|done|].
  by rewrite Ht.
Qed.

(** Without queues the exception does not matter. *)
Lemma inv_no_queues pol ex ex' s : pol <> SCHED_MLFQ -> inv pol ex s -> inv pol ex' s.
Proof. intros Hpol [Hp _]. split; [done|]. intros ?. done. Qed.

(** ** Queueing a process *)

(** The processes in the queues are fewer than the cells of the pool when one
    process is not queued. *)
Lemma qinv_room ex s css i :
  pinv s -> qinv ex s css -> (i < NPROC)%nat -> i ∉ (mjoin css).*2 ->
  (length (mjoin css) < NPROC)%nat.
Proof.
  intros Hp Hq Hi Hnot. rewrite <- (length_fmap snd (mjoin css)).
  assert (length (i :: (mjoin css).*2) <= NPROC)%nat; [|cbn in *; lia].
  apply NoDup_bounded_length.
  - apply NoDup_cons. split; [done|]. apply Hq.
  - intros k [->|(j & cs & Hj & Hin)%elem_of_queues]%elem_of_cons; [done|].
    destruct (qi_mem _ _ _ Hq _ _ _ Hj Hin) as (_ & p & Hp' & _).
    apply lookup_lt_Some in Hp'. by rewrite (pv_len _ Hp) in Hp'.
Qed.

(** A new cell for [i] at the end of the queue of its level. *)
Lemma qinv_append s s' css i p k cs n :
  qinv (Some i) s css -> ptable s !! i = Some p -> p_state p = RUNNABLE ->
  p_queue p = Z.of_nat k -> css !! k = Some cs ->
  ptable s' = ptable s ->
  pool_inv (surplus_nodes s') (queues s') (<[k := cs ++ [(n, i)]]> css) ->
  qinv None s' (<[k := cs ++ [(n, i)]]> css).
Proof.
  intros Hq Hi Hs Hqu Hk Ht Hpool. pose proof (lookup_lt_Some _ _ _ Hk) as Hlt.
  pose proof (qinv_not_queued _ _ _ _ _ Hq Hi (or_intror eq_refl)) as Hnot.
  assert (mjoin (<[k := cs ++ [(n, i)]]> css) ≡ₚ (n, i) :: mjoin css) as Hperm.
  { rewrite mjoin_insert_perm, (mjoin_lookup_perm _ _ _ Hk) by done. solve_Permutation. }
  split; [done|by rewrite length_insert, (qi_len _ _ _ Hq)| | |].
  - rewrite Hperm. cbn. apply NoDup_cons. split; [done|apply Hq].
  - intros j cs' q Hj Hin. split; [done|]. rewrite Ht. destruct (decide (j = k)) as [->|Hne].
    + rewrite list_lookup_insert_eq in Hj by done. injection Hj as <-.
      rewrite fmap_app, elem_of_app in Hin. destruct Hin as [Hin|Hin].
      * by destruct (qi_mem _ _ _ Hq k cs q Hk Hin).
      * apply list_elem_of_singleton in Hin as ->. eauto.
    + rewrite list_lookup_insert_ne in Hj by done. by destruct (qi_mem _ _ _ Hq j cs' q Hj Hin).
  - intros q p' Hp' Hs' _. rewrite Hperm. cbn. rewrite elem_of_cons.
    destruct (decide (q = i)) as [->|Hne]; [by left|right].
    rewrite Ht in Hp'. eapply (qi_all _ _ _ Hq); [done|done|congruence].
Qed.

(** Adding process [i] at the end of queue [k]. *)
Lemma push_queue_cells s css i p k :
  pinv s -> qinv (Some i) s css -> ptable s !! i = Some p -> p_state p = RUNNABLE ->
  p_queue p = Z.of_nat k ->
  wp (let! h := Queue.get_queue k in
      let! h' := Queue.on_pool (Queue.push h i) in Queue.set_queue k h')
    (fun _ s' => (exists cs n, css !! k = Some cs /\
       qinv None s' (<[k := cs ++ [(n, i)]]> css)) /\ ptable s' = ptable s /\ same_rest s s') s.
Proof.
  intros Hp Hc Hi Hs Hqu. pose proof (pv_ok _ Hp _ _ Hi) as Hok.
  destruct (lookup_lt_is_Some_2 css k) as [cs Hk].
  { rewrite (qi_len _ _ _ Hc). pose proof (po_queue _ Hok). lia. }
  destruct (pool_inv_chain _ _ _ _ _ (qi_pool _ _ _ Hc) Hk) as (h & Hh & _).
  wp_steps. exists h. split; [done|]. wp_steps.
  eapply wp_mono; [eapply push_spec; [apply Hc|done|done|]|].
  { eapply qinv_room; [done|done| |].
    - apply lookup_lt_Some in Hi. by rewrite (pv_len _ Hp) in Hi.
    - eapply qinv_not_queued; eauto. }
  intros h' l' (n & Hpool). wp_steps. split; [by eexists|].
  split; [|by split]. exists cs, n. split; [done|]. by eapply qinv_append.
Qed.

Lemma push_queue_spec s i p k :
  inv SCHED_MLFQ (Some i) s -> ptable s !! i = Some p -> p_state p = RUNNABLE ->
  p_queue p = Z.of_nat k ->
  wp (let! h := Queue.get_queue k in
      let! h' := Queue.on_pool (Queue.push h i) in Queue.set_queue k h')
    (fun _ s' => inv SCHED_MLFQ None s' /\ ptable s' = ptable s /\ same_rest s s') s.
Proof.
  intros [Hp Hq] Hi Hs Hqu. destruct (Hq eq_refl) as [css Hc].
  eapply wp_mono; [by eapply push_queue_cells|].
  intros [] s' ((cs & n & _ & Hc') & Ht & Hsr). split; [|done].
  split; [split; rewrite Ht; apply Hp|]. intros _. by eexists.
Qed.

Lemma wp_enqueue (Q : unit -> pstate -> Prop) s i p :
  pinv s -> ptable s !! i = Some p ->
  wp (let! h := Queue.get_queue (Z.to_nat (p_queue p)) in
      let! h' := Queue.on_pool (Queue.push h i) in
      Queue.set_queue (Z.to_nat (p_queue p)) h') Q s ->
  wp (enqueue i) Q s.
Proof.
  intros Hp Hi HQ. pose proof (po_queue _ (pv_ok _ Hp _ _ Hi)) as Hqr.
  unfold enqueue. rewrite wp_bind, wp_get_proc. exists p. split; [done|].
  rewrite wp_bind, wp_deref. exists (Z.to_nat (p_queue p)). split; [|done].
  unfold idx. by destruct (Z.ltb_spec (p_queue p) 0); [lia|].
Qed.

Lemma enqueue_spec s i p :
  inv SCHED_MLFQ (Some i) s -> ptable s !! i = Some p -> p_state p = RUNNABLE ->
  wp (enqueue i)
    (fun _ s' => inv SCHED_MLFQ None s' /\ ptable s' = ptable s /\ same_rest s s') s.
Proof.
  intros Hinv Hi Hs. pose proof (po_queue _ (pv_ok _ (proj1 Hinv) _ _ Hi)) as Hqr.
  eapply wp_enqueue; [apply Hinv|done|]. eapply push_queue_spec; [done|done|done|lia].
Qed.

(** ** Sweeps over the table *)

(** A loop over the table whose body rewrites the entry it stands at. *)
Lemma wp_sweep (J : pstate -> Prop) (g : proc -> proc) (body : nat -> M pstate unit) s :
  J s -> length (ptable s) = NPROC ->
  (forall i s p, J s -> ptable s !! i = Some p ->
     wp (body i) (fun _ s' => J s' /\ ptable s' = <[i := g p]> (ptable s)) s) ->
  wp (for_each (seq 0 NPROC) body) (fun _ s' => J s' /\ ptable s' = g <$> ptable s) s.
Proof.
  intros HJ Hlen Hbody. set (T := ptable s). eapply wp_mono.
  - apply (wp_for_seq (fun k s' => J s' /\ ptable s' = (g <$> take k T) ++ drop k T)).
    + by split; [|rewrite take_0, drop_0].
    + intros k s1 Hk (HJ1 & Ht).
      destruct (lookup_lt_is_Some_2 T k) as [p Hp]; [unfold T; lia|].
      eapply wp_mono.
      * apply Hbody; [done|]. rewrite Ht, lookup_app_r by (rewrite length_fmap, length_take; lia).
        rewrite length_fmap, length_take, lookup_drop, <- Hp. f_equal. unfold T. lia.
      * intros [] s2 (HJ2 & Ht2). split; [done|]. rewrite Ht2, Ht. by apply insert_fmap_take.
  - intros [] s' (HJ' & Ht). split; [done|].
    rewrite Ht, take_ge, drop_ge by (unfold T; lia). by rewrite app_nil_r.
Qed.

(** Solve [proc_ok] of a process with some fields assigned. *)
Ltac solve_ok :=
  match goal with
  | H : proc_ok ?p |- proc_ok _ =>
      destruct H; constructor; cbn in *;
      rewrite ?length_insert, ?length_replicate; try done; try lia;
      unfold active, has_mem in *; cbn in *; try naive_solver
  end.

(** ** Waking *)

(** A sleeping process made runnable at time [t]. *)
Definition woken (pol : policy) (t : Z) (p : proc) : proc :=
  match pol with
  | SCHED_MLFQ =>
      set_p_age_time (i32 t) (set_p_cur_timeslices 0 (set_p_state RUNNABLE p))
  | _ => set_p_state RUNNABLE p
  end.

Lemma make_runnable_spec pol s i p :
  inv pol None s -> ptable s !! i = Some p -> p_state p = SLEEPING ->
  wp (make_runnable pol i) (fun _ s' => inv pol None s' /\
    ptable s' = <[i := woken pol (ticks s) p]> (ptable s) /\ same_rest s s') s.
Proof.
  intros Hinv Hi Hs. pose proof (pv_ok _ (proj1 Hinv) _ _ Hi) as Hok.
  assert (proc_ok (set_p_state RUNNABLE p)) as Hok1 by solve_ok.
  assert (inv pol (Some i) (upd_proc i (set_p_state RUNNABLE) s)) as Hinv1
    by (eapply inv_make_unqueued; [done|done|congruence|done]).
  unfold make_runnable. rewrite wp_bind, wp_set_proc. split; [by eexists|].
  destruct (decide (pol = SCHED_MLFQ)) as [->|Hpol].
  2:{ assert (wp (ret tt) (fun _ s' => inv pol None s' /\
        ptable s' = <[i := set_p_state RUNNABLE p]> (ptable s) /\ same_rest s s')
        (upd_proc i (set_p_state RUNNABLE) s)) as Hr.
      { wp_steps. split; [by eapply inv_no_queues|]. split; [|done].
        by apply list_alter_insert. }
      by destruct pol. }
  rewrite wp_bind. eapply wp_mono.
  { apply (enqueue_spec _ i (set_p_state RUNNABLE p)); [done| |done].
    by rewrite lookup_upd_proc_eq, Hi. }
  intros [] s1 (Hinv2 & Ht & Hsr). wp_steps.
  assert (ptable s1 !! i = Some (set_p_state RUNNABLE p)) as Hi1
    by (by rewrite Ht, lookup_upd_proc_eq, Hi).
  split; [by eexists|]. split; [rewrite lookup_upd_proc_eq, Hi1; by eexists|].
  assert (ticks s1 = ticks s) as Htk by apply Hsr.
  split; [|split].
  - eapply inv_upd; [eapply inv_upd; [done|done| |done|done]| | |done|done].
    + solve_ok.
    + by rewrite lookup_upd_proc_eq, Hi1.
    + solve_ok.
  - rewrite !ptable_upd_proc. cbn. rewrite Ht, ptable_upd_proc, !list_alter_alter, Htk.
    by rewrite (list_alter_insert _ i _ p Hi).
  - destruct Hsr as (? & ? & ? & ?). done.
Qed.

(** What [wakeup1(c)] does to one process. *)
Definition wake_if (pol : policy) (c : chan) (t : Z) (p : proc) : proc :=
  if bool_decide (p_state p = SLEEPING) && bool_decide (p_chan p = c)
  then woken pol t p else p.

Lemma wakeup1_spec pol c s :
  inv pol None s ->
  wp (wakeup1 pol c) (fun _ s' => inv pol None s' /\
    ptable s' = wake_if pol c (ticks s) <$> ptable s /\ same_rest s s') s.
Proof.
  intros Hinv. unfold wakeup1.
  eapply wp_mono.
  - apply (wp_sweep (fun s' => inv pol None s' /\ same_rest s s') (wake_if pol c (ticks s))).
    + by split.
    + apply Hinv.
    + intros i s1 p [Hinv1 Hsr] Hi. wp_steps. exists p. split; [done|].
      unfold wake_if. destruct (_ && _) eqn:E; cbn [when].
      * zb. eapply wp_mono; [by apply make_runnable_spec|].
        intros [] s2 (Hinv2 & Ht & Hsr2). replace (ticks s) with (ticks s1) by apply Hsr.
        split; [split|]; eauto with kernel.
      * wp_steps. split; [done|]. by rewrite list_insert_id.
  - intros [] s' [[? ?] ?]. done.
Qed.

(** ** The lock *)

Lemma wp_acquire Q s :
  wp acquire Q s <-> ptable_locked s = false /\ Q tt (set_ptable_locked true s).
Proof. unfold acquire, wp, bind, gets. destruct (ptable_locked s); naive_solver. Qed.

Lemma wp_release Q s :
  wp release Q s <-> ptable_locked s = true /\ Q tt (set_ptable_locked false s).
Proof. unfold release, wp, bind, gets. destruct (ptable_locked s); naive_solver. Qed.

#[export] Hint Rewrite wp_acquire wp_release : wp.

Lemma inv_lock pol ex s b : inv pol ex (set_ptable_locked b s) <-> inv pol ex s.
Proof. by split; intros H; eapply inv_misc. Qed.

Lemma wakeup_spec pol c s :
  inv pol None s -> ptable_locked s = false ->
  wp (wakeup pol c) (fun _ s' => inv pol None s' /\
    ptable s' = wake_if pol c (ticks s) <$> ptable s /\ same_rest s s') s.
Proof.
  intros Hinv Hl. unfold wakeup. wp_steps. split; [done|].
  eapply wp_mono; [apply wakeup1_spec; by apply inv_lock|].
  intros [] s' (Hinv' & Ht & Hlk & Hrest). wp_steps. split; [done|].
  split; [by apply inv_lock|]. split; [done|]. by rewrite <- Hl.
Qed.

(** What [kill] does to the process it finds. *)
Definition kill_proc (pol : policy) (t : Z) (p : proc) : proc :=
  let p := set_p_killed 1 p in
  if bool_decide (p_state p = SLEEPING) then woken pol t p else p.

Lemma kill_spec pol pid s :
  inv pol None s -> ptable_locked s = false ->
  wp (kill pol pid) (fun r s' => inv pol None s' /\ same_rest s s' /\
    match first_from (fun p => p_pid p =? pid) (ptable s) 0 with
    | None => r = -1 /\ ptable s' = ptable s
    | Some i => r = 0 /\ ptable s' = alter (kill_proc pol (ticks s)) i (ptable s)
    end) s.
Proof.
  intros Hinv Hl. unfold kill. wp_steps. split; [done|]. cbn [ptable set_ptable_locked].
  destruct (first_from _ (ptable s) 0) as [i|] eqn:Hf; wp_steps.
  2:{ split; [done|]. split; [by apply inv_lock, inv_lock|]. split; [|done]. by rewrite <- Hl. }
  apply first_from_Some in Hf as (j & p & -> & Hj & _ & _). cbn [Nat.add].
  pose proof (pv_ok _ (proj1 Hinv) _ _ Hj) as Hok.
  split; [by eexists|]. exists (set_p_killed 1 p).
  split; [by rewrite lookup_upd_proc_eq; cbn; rewrite Hj|].
  assert (inv pol None (upd_proc j (set_p_killed 1) (set_ptable_locked true s))) as Hinv1.
  { eapply inv_upd; [by apply inv_lock|done|solve_ok|done|done]. }
  rewrite (list_alter_insert _ _ _ p Hj). unfold kill_proc. cbn [p_state set_p_killed].
  case_bool_decide as Hst; cbn [when]; wp_steps.
  - eapply wp_mono; [apply (make_runnable_spec _ _ _ (set_p_killed 1 p)); [done| |done]|].
    { by rewrite lookup_upd_proc_eq; cbn; rewrite Hj. }
    intros [] s' (Hinv' & Ht & Hlk & Hrest). wp_steps. split; [done|].
    split; [by apply inv_lock|]. split; [by rewrite <- Hl|]. split; [done|].
    cbn. rewrite Ht. cbn. rewrite (list_alter_insert _ _ _ p Hj). apply list_insert_insert_eq.
  - split; [done|]. split; [by apply inv_lock|]. split; [by rewrite <- Hl|]. split; [done|].
    cbn. by rewrite (list_alter_insert _ _ _ p Hj).
Qed.

(** ** Claiming a slot, and the counters of the current process *)

Lemma alloc_init_ok t pid p : proc_ok p -> proc_ok (alloc_init t pid p).
Proof. intros Hok. solve_ok. Qed.

Lemma alloc_slot_spec pol s :
  inv pol None s -> ptable_locked s = false ->
  wp alloc_slot (fun r s' => inv pol None s' /\ ptable_locked s' = false /\
    initproc s' = initproc s /\ ticks s' = ticks s /\
    match r with
    | None => (forall p, p ∈ ptable s -> p_state p <> UNUSED) /\ s' = s
    | Some i => exists p, ptable s !! i = Some p /\ p_state p = UNUSED /\
        ptable s' = <[i := alloc_init (ticks s) (nextpid s) p]> (ptable s) /\
        nextpid s' = i32 (nextpid s + 1)
    end) s.
Proof.
  intros Hinv Hl. unfold alloc_slot. wp_steps. split; [done|]. cbn [ptable set_ptable_locked].
  destruct (first_from _ (ptable s) 0) as [i|] eqn:Hf; wp_steps.
  - apply first_from_Some in Hf as (j & p & -> & Hj & Hp & _). zb. cbn [Nat.add].
    pose proof (pv_ok _ (proj1 Hinv) _ _ Hj) as Hok.
    split; [by eexists|]. split; [done|]. split; [|split; [done|split; [done|split; [done|]]]].
    + apply (inv_misc _ _ (upd_proc j (alloc_init (ticks s) (nextpid s)) s)); [|done|done|done].
      eapply inv_upd_other; [done|done|congruence|by apply alloc_init_ok|done].
    + exists p. split; [done|]. split; [done|]. split; [|done].
      apply (list_alter_insert _ _ _ _ Hj).
  - split; [done|]. split; [by apply inv_lock, inv_lock|]. do 3 (split; [done|]). split.
    + intros p Hp Hst. apply list_elem_of_lookup in Hp as [j Hj].
      pose proof (proj1 (first_from_None _ _ _) Hf _ _ Hj) as Hb. by apply bool_decide_eq_false in Hb.
    + destruct s; cbn in *. by rewrite Hl.
Qed.

(** One assignment to a process inside its own critical section. *)
Lemma locked_update_spec pol s i p f :
  inv pol None s -> ptable_locked s = false -> ptable s !! i = Some p ->
  proc_ok (f p) -> p_state (f p) = p_state p -> p_queue (f p) = p_queue p ->
  wp (do! acquire; do! Queue.set_proc i f; release)
    (fun _ s' => inv pol None s' /\ ptable s' = <[i := f p]> (ptable s) /\ same_rest s s') s.
Proof.
  intros Hinv Hl Hi Hok Hst Hq. wp_steps. split; [done|]. split; [by eexists|].
  split; [done|]. split; [|split].
  - apply inv_lock. eapply inv_upd; [by apply inv_lock|done|done|done|done].
  - apply (list_alter_insert _ _ _ _ Hi).
  - by rewrite <- Hl.
Qed.

Lemma inc_pinfo_ticks_spec pol s i p :
  inv pol None s -> ptable_locked s = false -> ptable s !! i = Some p ->
  exists t, p_ticks p !! Z.to_nat (p_queue p) = Some t /\
  wp (inc_pinfo_ticks i) (fun _ s' => inv pol None s' /\
    ptable s' = <[i := set_p_ticks (<[Z.to_nat (p_queue p) := i32 (t + 1)]> (p_ticks p)) p]> (ptable s) /\
    same_rest s s') s.
Proof.
  intros Hinv Hl Hi. pose proof (pv_ok _ (proj1 Hinv) _ _ Hi) as Hok.
  destruct (lookup_lt_is_Some_2 (p_ticks p) (Z.to_nat (p_queue p))) as [t Ht].
  { rewrite (po_ticks _ Hok). pose proof (po_queue _ Hok). lia. }
  exists t. split; [done|]. unfold inc_pinfo_ticks. wp_steps. split; [done|].
  exists p. split; [done|]. wp_steps. exists (Z.to_nat (p_queue p)). split.
  { unfold idx. pose proof (po_queue _ Hok). by destruct (Z.ltb_spec (p_queue p) 0); [lia|]. }
  wp_steps. exists t. split; [done|]. wp_steps. split; [by eexists|]. split; [done|].
  split; [|split].
  - apply inv_lock. eapply inv_upd; [by apply inv_lock|done| |done|done]. solve_ok.
  - cbn. by rewrite (list_alter_insert _ _ _ _ Hi).
  - by rewrite <- Hl.
Qed.

Definition tick_run (p : proc) : proc :=
  if bool_decide (p_state p = RUNNING) then set_p_run_time (i32 (p_run_time p + 1)) p else p.

Lemma inc_runtime_spec pol s :
  inv pol None s -> ptable_locked s = false ->
  wp inc_runtime (fun _ s' => inv pol None s' /\
    ptable s' = tick_run <$> ptable s /\ same_rest s s') s.
Proof.
  intros Hinv Hl. unfold inc_runtime. wp_steps. split; [done|]. eapply wp_mono.
  - apply (wp_sweep (fun s' => inv pol None s' /\ same_rest (set_ptable_locked true s) s') tick_run).
    + split; [by apply inv_lock|done].
    + apply Hinv.
    + intros i s1 p [Hinv1 Hsr] Hi. wp_steps. exists p. split; [done|].
      pose proof (pv_ok _ (proj1 Hinv1) _ _ Hi) as Hok.
      unfold tick_run. case_bool_decide; cbn [when]; wp_steps.
      * split; [by eexists|]. split; [split; [|done]|].
        -- eapply inv_upd; [done|done| |done|done]. solve_ok.
        -- by rewrite ptable_upd_proc, (list_alter_insert _ _ _ _ Hi).
      * split; [done|]. by rewrite list_insert_id.
  - intros [] s' [[Hinv' (Hlk & Hrest)] Ht]. wp_steps. split; [done|].
    split; [by apply inv_lock|]. split; [done|]. by rewrite <- Hl.
Qed.

(** ** Giving up the processor *)

Lemma wp_sched (Q : unit -> pstate -> Prop) s i p :
  ptable_locked s = true -> ptable s !! i = Some p -> p_state p <> RUNNING ->
  Q tt s -> wp (sched i) Q s.
Proof.
  intros Hl Hi Hst HQ. unfold sched. wp_steps. rewrite Hl. cbn [negb]. wp_steps.
  exists p. split; [done|]. rewrite bool_decide_eq_false_2 by done. by wp_steps.
Qed.

Lemma yield_spec pol s i p :
  inv pol None s -> ptable_locked s = false -> ptable s !! i = Some p -> p_state p = RUNNING ->
  wp (yield i) (fun _ s' => inv pol (Some i) s' /\ ptable_locked s' = true /\
    ptable s' = <[i := set_p_state RUNNABLE p]> (ptable s) /\
    same_rest (set_ptable_locked true s) s') s.
Proof.
  intros Hinv Hl Hi Hst. pose proof (pv_ok _ (proj1 Hinv) _ _ Hi) as Hok.
  unfold yield. wp_steps. split; [done|]. split; [by eexists|].
  eapply wp_sched; [done|by rewrite lookup_upd_proc_eq; cbn; rewrite Hi|done|].
  split; [|split; [done|split; [|done]]].
  - eapply inv_make_unqueued; [by apply inv_lock|done|congruence|]. solve_ok.
  - apply (list_alter_insert _ _ _ _ Hi).
Qed.

Lemma sleep_spec pol s i p c lk :
  inv pol None s -> ptable_locked s = lk -> ptable s !! i = Some p -> p_state p = RUNNING ->
  wp (sleep i c lk) (fun _ s' => inv pol None s' /\ ptable_locked s' = true /\
    ptable s' = <[i := set_p_state SLEEPING (set_p_chan c p)]> (ptable s) /\
    same_rest (set_ptable_locked true s) s') s.
Proof.
  intros Hinv Hl Hi Hst. pose proof (pv_ok _ (proj1 Hinv) _ _ Hi) as Hok.
  unfold sleep. rewrite wp_bind.
  assert (forall Q, Q tt (set_ptable_locked true s) ->
    wp (if lk then ret tt else acquire) Q s) as Hacq.
  { intros Q HQ. destruct lk; wp_steps; [|done]. destruct s; cbn in *. by subst. }
  apply Hacq. wp_steps. split; [by eexists|].
  split; [rewrite lookup_upd_proc_eq; cbn; rewrite Hi; by eexists|].
  eapply wp_sched; [done|rewrite !lookup_upd_proc_eq; cbn; by rewrite Hi|done|].
  split; [|split; [done|split; [|done]]].
  - eapply inv_upd_other; [eapply inv_upd; [by apply inv_lock|done| |done|done]| | | |done].
    + solve_ok.
    + by rewrite lookup_upd_proc_eq; cbn; rewrite Hi.
    + cbn. congruence.
    + solve_ok.
  - cbn. by rewrite list_alter_alter, (list_alter_insert _ _ _ _ Hi).
Qed.

Lemma set_priority_spec pol s i p n :
  inv pol None s -> ptable_locked s = false -> ptable s !! i = Some p -> p_state p = RUNNING ->
  wp (set_priority i n) (fun r s' =>
    if (n <? 0) || (n >? 100) then r = Done (-1) /\ s' = s
    else if n =? p_priority p then r = Done (p_priority p) /\ inv pol None s' /\
      ptable s' = <[i := set_p_priority n p]> (ptable s) /\ same_rest s s'
    else r = Resched (p_priority p) /\ inv pol (Some i) s' /\
      ptable s' = <[i := set_p_state RUNNABLE (set_p_timeslices 0 (set_p_priority n p))]> (ptable s) /\
      same_rest (set_ptable_locked true s) s') s.
Proof.
  intros Hinv Hl Hi Hst. pose proof (pv_ok _ (proj1 Hinv) _ _ Hi) as Hok. unfold set_priority.
  destruct ((n <? 0) || (n >? 100)) eqn:Hr; [by wp_steps|].
  apply orb_false_iff in Hr as [Hr1 Hr2]. zb.
  wp_steps. split; [done|]. exists p. split; [done|]. wp_steps. split; [by eexists|].
  assert (inv pol None (upd_proc i (set_p_priority n) (set_ptable_locked true s))) as Hinv1.
  { eapply inv_upd; [by apply inv_lock|done| |done|done]. solve_ok. }
  assert (ptable (upd_proc i (set_p_priority n) (set_ptable_locked true s)) !! i =
    Some (set_p_priority n p)) as Hi1 by (rewrite lookup_upd_proc_eq; cbn; by rewrite Hi).
  destruct (n =? p_priority p); cbn [negb when]; wp_steps.
  - split; [done|]. split; [done|]. split; [by apply inv_lock|]. split; [|by rewrite <- Hl].
    apply (list_alter_insert _ _ _ _ Hi).
  - split; [by eexists|]. split; [done|].
    eapply wp_mono; [eapply (yield_spec pol _ i (set_p_timeslices 0 (set_p_priority n p)))|].
    + apply inv_lock. eapply inv_upd; [done|done| |done|done].
      pose proof (pv_ok _ (proj1 Hinv1) _ _ Hi1). solve_ok.
    + done.
    + cbn. rewrite !list_lookup_alter_eq. by rewrite Hi.
    + done.
    + intros [] s' (Hinv2 & Hlk & Ht & Hsr). wp_steps. split; [done|]. split; [done|].
      split; [|done]. rewrite Ht. cbn. rewrite list_alter_alter, (list_alter_insert _ _ _ _ Hi).
      apply list_insert_insert_eq.
Qed.

(** ** Exit *)

Definition reparented (cur : nat) (ip : option nat) (p : proc) : proc :=
  if bool_decide (p_parent p = Some cur) then set_p_parent ip p else p.
Definition zombie_child (cur : nat) (p : proc) : bool :=
  bool_decide (p_parent p = Some cur) && bool_decide (p_state p = ZOMBIE).

(** The table after the first [k] turns of the loop of [reparent]. *)
Definition reparent_tbl (pol : policy) (cur : nat) (ip : option nat) (t : Z) (k : nat)
    (tbl : list proc) : list proc :=
  let w := if existsb (zombie_child cur) (take k tbl)
           then wake_if pol (chan_of ip) t else id in
  (reparented cur ip <$> (w <$> take k tbl)) ++ (w <$> drop k tbl).

Lemma wake_if_parent pol c t p : p_parent (wake_if pol c t p) = p_parent p.
Proof. unfold wake_if, woken. by destruct (_ && _), pol. Qed.
Lemma wake_if_zombie pol c t p :
  p_state (wake_if pol c t p) = ZOMBIE <-> p_state p = ZOMBIE.
Proof.
  unfold wake_if, woken. destruct (_ && _) eqn:E; [|done]. zb.
  by destruct pol; cbn; split; congruence.
Qed.
Lemma wake_if_idemp pol c t p : wake_if pol c t (wake_if pol c t p) = wake_if pol c t p.
Proof.
  unfold wake_if at 2 3. destruct (_ && _) eqn:E.
  - unfold wake_if, woken. by destruct pol.
  - unfold wake_if. by rewrite E.
Qed.
Lemma reparented_wake pol c t cur ip p :
  reparented cur ip (wake_if pol c t p) = wake_if pol c t (reparented cur ip p).
Proof.
  unfold reparented. rewrite wake_if_parent. case_bool_decide; [|done].
  unfold wake_if. cbn. destruct (_ && _); [|done]. by destruct pol.
Qed.

Lemma fmap_wake_idemp pol c t (l : list proc) :
  wake_if pol c t <$> (wake_if pol c t <$> l) = wake_if pol c t <$> l.
Proof. rewrite <- list_fmap_compose. apply list_fmap_ext. intros _ p _. apply wake_if_idemp. Qed.

(** One turn of the loop. *)
Lemma reparent_tbl_S pol cur ip t k tbl p :
  tbl !! k = Some p ->
  reparent_tbl pol cur ip t (S k) tbl =
    (if zombie_child cur p then fmap (wake_if pol (chan_of ip) t) else id)
      (alter (reparented cur ip) k (reparent_tbl pol cur ip t k tbl)).
Proof.
  intros Hk. unfold reparent_tbl. rewrite (take_S_r _ _ _ Hk), (drop_S _ _ _ Hk).
  rewrite existsb_app. cbn. rewrite orb_false_r.
  pose proof (lookup_lt_Some _ _ _ Hk) as Hlt.
  set (w := if existsb _ (take k tbl) then _ else _).
  assert (forall (A B : list proc) x, length A = k ->
    alter (reparented cur ip) k (A ++ x :: B) = A ++ reparented cur ip x :: B) as Halt.
  { intros A B x <-. by rewrite <- (Nat.add_0_r (length A)), alter_app_r. }
  rewrite Halt by (rewrite !length_fmap, length_take; lia).
  destruct (zombie_child cur p) eqn:Hz.
  2:{ rewrite orb_false_r. fold w. cbn [id]. rewrite !fmap_app. cbn. by rewrite <- app_assoc. }
  rewrite orb_true_r, !fmap_app. cbn. rewrite <- app_assoc. cbn.
  assert (forall l : list proc, wake_if pol (chan_of ip) t <$> (w <$> l) = wake_if pol (chan_of ip) t <$> l) as Hw.
  { intros l. subst w. destruct (existsb _ _); [apply fmap_wake_idemp|by rewrite list_fmap_id]. }
  assert (forall x, wake_if pol (chan_of ip) t (reparented cur ip (w x)) =
    reparented cur ip (wake_if pol (chan_of ip) t x)) as Hwx.
  { intros x. rewrite <- reparented_wake. subst w. destruct (existsb _ _); [|done].
    by rewrite wake_if_idemp. }
  rewrite Hw, Hwx. f_equal. rewrite <- !list_fmap_compose. apply list_fmap_ext.
  intros _ x _. cbn. by rewrite Hwx.
Qed.

Lemma zombie_child_wake pol c t cur p :
  zombie_child cur (wake_if pol c t p) = zombie_child cur p.
Proof.
  unfold zombie_child. rewrite wake_if_parent. f_equal. apply bool_decide_ext, wake_if_zombie.
Qed.

Lemma reparent_tbl_lookup pol cur ip t k tbl p :
  tbl !! k = Some p ->
  exists p', reparent_tbl pol cur ip t k tbl !! k = Some p' /\
    p_parent p' = p_parent p /\ zombie_child cur p' = zombie_child cur p.
Proof.
  intros Hk. pose proof (lookup_lt_Some _ _ _ Hk) as Hlt. unfold reparent_tbl.
  rewrite lookup_app_r by (rewrite !length_fmap, length_take; lia).
  rewrite !length_fmap, length_take, Nat.min_l, Nat.sub_diag by lia.
  rewrite list_lookup_fmap, lookup_drop, Nat.add_0_r, Hk. cbn. eexists. split; [done|].
  destruct (existsb _ _); [|done]. by rewrite wake_if_parent, zombie_child_wake.
Qed.

(** The body of the loop of [reparent]. *)
Lemma reparent_body_spec pol cur s i p :
  inv pol None s -> ptable s !! i = Some p ->
  wp (let! p := Queue.get_proc i in
      when (bool_decide (p_parent p = Some cur))
        (let! ip := gets initproc in
         do! Queue.set_proc i (set_p_parent ip);
         when (bool_decide (p_state p = ZOMBIE)) (wakeup1 pol (chan_of ip))))
    (fun _ s' => inv pol None s' /\ same_rest s s' /\ ptable s' =
      (if zombie_child cur p then fmap (wake_if pol (chan_of (initproc s)) (ticks s)) else id)
        (alter (reparented cur (initproc s)) i (ptable s))) s.
Proof.
  intros Hinv Hi. wp_steps. exists p. split; [done|].
  unfold reparented, zombie_child. rewrite (list_alter_insert _ _ _ _ Hi).
  case_bool_decide as Hpar; cbn [when andb]; wp_steps.
  2:{ cbn. by rewrite list_insert_id. }
  split; [by eexists|]. rewrite <- (list_alter_insert (set_p_parent (initproc s)) _ _ _ Hi).
  assert (inv pol None (upd_proc i (set_p_parent (initproc s)) s)) as Hinv1.
  { eapply inv_upd; [done|done| |done|done]. pose proof (pv_ok _ (proj1 Hinv) _ _ Hi). solve_ok. }
  case_bool_decide; cbn [when]; wp_steps; [|done].
  eapply wp_mono; [by apply wakeup1_spec|]. intros [] s' (? & Ht & ?). done.
Qed.

Lemma reparent_spec pol cur s :
  inv pol None s ->
  wp (reparent pol cur) (fun _ s' => inv pol None s' /\ same_rest s s' /\
    ptable s' = reparent_tbl pol cur (initproc s) (ticks s) NPROC (ptable s)) s.
Proof.
  intros Hinv. pose proof (pv_len _ (proj1 Hinv)) as Hlen. eapply wp_mono.
  - apply (wp_for_seq (fun k s' => inv pol None s' /\ same_rest s s' /\
      ptable s' = reparent_tbl pol cur (initproc s) (ticks s) k (ptable s))).
    + split; [done|]. split; [done|]. unfold reparent_tbl. rewrite take_0, drop_0.
      symmetry. apply list_fmap_id.
    + intros k s1 Hk (Hinv1 & Hsr & Ht).
      destruct (lookup_lt_is_Some_2 (ptable s) k) as [p Hp]; [lia|].
      destruct (reparent_tbl_lookup pol cur (initproc s) (ticks s) k _ _ Hp)
        as (p' & Hp' & Hpar & Hz).
      eapply wp_mono; [apply reparent_body_spec; [done|by rewrite Ht]|].
      intros [] s2 (Hinv2 & Hsr2 & Ht2). split; [done|]. split; [eauto with kernel|].
      destruct Hsr as (_ & _ & Hip & Htk).
      by rewrite Ht2, Ht, Hip, Htk, Hz, (reparent_tbl_S _ _ _ _ _ _ _ Hp).
  - done.
Qed.

(** What [exit] makes of the table: the parent is woken, the children go to
    init, which is woken when one of them is a zombie, and the process itself
    becomes a zombie. *)
Definition exit_entry (pol : policy) (cur : nat) (par ip : option nat) (t : Z) (z : bool)
    (p : proc) : proc :=
  let p := wake_if pol (chan_of par) t p in
  reparented cur ip (if z then wake_if pol (chan_of ip) t p else p).
Definition exit_tbl (pol : policy) (cur : nat) (par ip : option nat) (t : Z)
    (tbl : list proc) : list proc :=
  alter (set_p_state ZOMBIE) cur
    (exit_entry pol cur par ip t (existsb (zombie_child cur) tbl) <$> tbl).

Lemma existsb_fmap {A B} (f : A -> B) (b : B -> bool) l :
  existsb b (f <$> l) = existsb (b ∘ f) l.
Proof. induction l; cbn; congruence. Qed.

Lemma reparent_tbl_all pol cur par ip t tbl :
  length tbl = NPROC ->
  reparent_tbl pol cur ip t NPROC (wake_if pol (chan_of par) t <$> tbl) =
    exit_entry pol cur par ip t (existsb (zombie_child cur) tbl) <$> tbl.
Proof.
  intros Hlen. unfold reparent_tbl. rewrite take_ge, drop_ge by (rewrite length_fmap; lia).
  cbn. rewrite app_nil_r, existsb_fmap.
  replace (existsb (zombie_child cur ∘ wake_if pol (chan_of par) t) tbl)
    with (existsb (zombie_child cur) tbl).
  2:{ clear. induction tbl as [|p tbl IH]; cbn; [done|]. by rewrite IH, zombie_child_wake. }
  rewrite <- !list_fmap_compose. apply list_fmap_ext. intros _ p _. unfold exit_entry. cbn.
  by destruct (existsb _ _).
Qed.

Lemma exit_entry_lookup pol cur par ip t z (tbl : list proc) i p :
  tbl !! i = Some p ->
  (exit_entry pol cur par ip t z <$> tbl) !! i = Some (exit_entry pol cur par ip t z p).
Proof. intros Hi. by rewrite list_lookup_fmap, Hi. Qed.

(** A process that is not asleep only changes its parent. *)
Lemma exit_entry_awake pol cur par ip t z p :
  p_state p <> SLEEPING -> exit_entry pol cur par ip t z p = reparented cur ip p.
Proof.
  intros Hs. unfold exit_entry. assert (forall c, wake_if pol c t p = p) as Hw.
  { intros c. unfold wake_if. by rewrite bool_decide_eq_false_2. }
  rewrite !Hw. by destruct z.
Qed.

Lemma reparented_state cur ip p : p_state (reparented cur ip p) = p_state p.
Proof. unfold reparented. by case_bool_decide. Qed.

Lemma exit_locked_spec pol s i p :
  inv pol None s -> ptable_locked s = false -> ptable s !! i = Some p -> p_state p = RUNNING ->
  wp (exit_locked pol i) (fun _ s' => inv pol None s' /\
    ptable s' = exit_tbl pol i (p_parent p) (initproc s) (ticks s) (ptable s) /\
    same_rest (set_ptable_locked true s) s') s.
Proof.
  intros Hinv Hl Hi Hst. unfold exit_locked. wp_steps. split; [done|]. exists p.
  split; [done|]. wp_steps. eapply wp_mono; [apply wakeup1_spec; by apply inv_lock|].
  intros [] s1 (Hinv1 & Ht1 & Hsr1). wp_steps. eapply wp_mono; [by apply reparent_spec|].
  intros [] s2 (Hinv2 & Hsr2 & Ht2). wp_steps.
  destruct (same_rest_trans _ _ _ Hsr1 Hsr2) as (Hlk & Hnp & Hip & Htk).
  destruct Hsr1 as (_ & _ & Hip1 & Htk1). cbn in Hlk, Hnp, Hip, Htk, Hip1, Htk1, Ht1.
  rewrite Ht1, Hip1, Htk1, reparent_tbl_all in Ht2 by apply Hinv.
  set (z := existsb _ _) in Ht2.
  pose proof (exit_entry_lookup pol i (p_parent p) (initproc s) (ticks s) z _ _ _ Hi) as Hi2.
  rewrite <- Ht2, exit_entry_awake in Hi2 by congruence.
  pose proof (pv_ok _ (proj1 Hinv2) _ _ Hi2) as Hok.
  split; [by eexists|]. eapply wp_sched; [done|by rewrite lookup_upd_proc_eq, Hi2|done|].
  split; [|split; [cbn; by rewrite Ht2|done]].
  eapply inv_upd_other; [done|done|rewrite reparented_state; congruence| |done]. solve_ok.
Qed.

(** ** A new process enters the ready set *)

Lemma publish_spec pol s i p :
  inv pol None s -> ptable_locked s = false -> ptable s !! i = Some p ->
  p_state p <> RUNNABLE -> p_queue p = 0 -> has_mem p ->
  wp (publish pol i) (fun _ s' => inv pol None s' /\
    ptable s' = <[i := set_p_state RUNNABLE p]> (ptable s) /\ same_rest s s') s.
Proof.
  intros Hinv Hl Hi Hst Hq Hmem. pose proof (pv_ok _ (proj1 Hinv) _ _ Hi) as Hok.
  unfold publish. wp_steps. split; [done|]. split; [by eexists|].
  set (s1 := upd_proc i (set_p_state RUNNABLE) (set_ptable_locked true s)).
  assert (ptable s1 = <[i := set_p_state RUNNABLE p]> (ptable s)) as Ht1
    by apply (list_alter_insert _ _ _ _ Hi).
  assert (proc_ok (set_p_state RUNNABLE p)) as Hok1 by solve_ok.
  assert (inv pol (Some i) s1) as Hinv1
    by (eapply inv_make_unqueued; [by apply inv_lock|done|done|done]).
  destruct (decide (pol = SCHED_MLFQ)) as [->|Hpol].
  - eapply wp_mono; [eapply (push_queue_spec s1 i (set_p_state RUNNABLE p) 0); [done| |done|done]|].
    { rewrite Ht1. apply list_lookup_insert_eq. by eapply lookup_lt_Some. }
    intros [] s' (Hinv' & Ht & Hlk & Hrest). wp_steps. split; [done|].
    split; [by apply inv_lock|]. split; [cbn; congruence|]. by rewrite <- Hl.
  - assert (wp (ret tt) (fun _ s' => wp release (fun _ s' => inv pol None s' /\
      ptable s' = <[i := set_p_state RUNNABLE p]> (ptable s) /\ same_rest s s') s') s1) as Hr.
    { wp_steps. split; [done|]. split; [by eapply inv_lock, inv_no_queues|]. split; [done|].
      by rewrite <- Hl. }
    by destruct pol.
Qed.

Lemma sleep_resume_spec pol s i p lk :
  inv pol None s -> ptable_locked s = true -> ptable s !! i = Some p ->
  wp (sleep_resume i lk) (fun _ s' => inv pol None s' /\ ptable_locked s' = lk /\
    ptable s' = <[i := set_p_chan ChNull p]> (ptable s) /\
    same_rest (set_ptable_locked lk s) s') s.
Proof.
  intros Hinv Hl Hi. pose proof (pv_ok _ (proj1 Hinv) _ _ Hi) as Hok.
  assert (inv pol None (upd_proc i (set_p_chan ChNull) s)) as Hinv1
    by (eapply inv_upd; [done|done|solve_ok|done|done]).
  unfold sleep_resume. wp_steps. split; [by eexists|].
  destruct lk; wp_steps.
  - split; [done|]. split; [done|]. split; [|done]. apply (list_alter_insert _ _ _ _ Hi).
  - split; [done|]. split; [by apply inv_lock|]. split; [done|]. split; [|done].
    apply (list_alter_insert _ _ _ _ Hi).
Qed.

(** What [getpinfo] reports of a process. *)
Definition pinfo (pol : policy) (p : proc) : proc_stat :=
  match pol with
  | SCHED_MLFQ =>
      mkproc_stat (p_pid p) (p_run_time p) (p_num_run p) (p_queue p) (take NUM_QUEUES (p_ticks p))
  | _ =>
      mkproc_stat (p_pid p) (p_run_time p) (p_num_run p) (-1) (replicate NUM_QUEUES (-1))
  end.

Lemma getpinfo_spec pol pid s :
  ptable_locked s = false ->
  wp (getpinfo pol pid) (fun r s' => s' = s /\
    r = match first_from (fun p => p_pid p =? pid) (ptable s) 0 with
        | None => (-1, None)
        | Some i => (0, pinfo pol <$> ptable s !! i)
        end) s.
Proof.
  intros Hl. assert (set_ptable_locked false (set_ptable_locked true s) = s) as Hs
    by (destruct s; cbn in *; by subst).
  unfold getpinfo. wp_steps. split; [done|]. cbn [ptable set_ptable_locked].
  destruct (first_from _ (ptable s) 0) as [i|] eqn:Hf; wp_steps.
  - apply first_from_Some in Hf as (j & p & -> & Hj & _). cbn [Nat.add].
    exists p. split; [done|]. wp_steps. split; [done|]. rewrite Hj. by destruct pol.
  - split; [done|]. by split.
Qed.
