(* ===== verification/SchedInv.v ===== *)
(** The scheduler keeps the invariant of the process table, and the
    multi-level feedback queue it implements with linked cells is the abstract
    one on lists of processes. *)

From S2P Require Import Prelude CString ProcDefs Queue Proc Sched ProcInv.
Import Proc Sched.

Implicit Types (s : pstate) (p : proc) (qs : list (list nat)).

(** * The abstract multi-level feedback queue *)

(** The ready queues [qs], seen as lists of processes. *)
Definition ready (ex : option nat) (s : pstate) (qs : list (list nat)) : Prop :=
  exists css, qinv ex s css /\ abs_queues css = qs.

(** Queue [i] is aged: the processes at its front that have waited long enough
    go to the end of queue [i - 1]. *)
Definition age_queue (t : Z) (i : nat) (st : list proc * list (list nat)) :
    list proc * list (list nat) :=
  let '(tbl, qs) := st in
  let q := default [] (qs !! i) in
  let '(mv, rest) := span (waited t tbl AGE_LIMIT) q in
  (promote_all t mv tbl,
   <[i := rest]> (<[(i - 1)%nat := default [] (qs !! (i - 1)%nat) ++ mv]> qs)).
Definition age_all (t : Z) (st : list proc * list (list nat)) : list proc * list (list nat) :=
  foldl (fun st i => age_queue t i st) st (seq 1 (NUM_QUEUES - 1)).

(** The first process of the first queue that is not empty. *)
Fixpoint pick_first (qs : list (list nat)) : option (nat * list (list nat)) :=
  match qs with
  | [] => None
  | [] :: qs => (fun r => (r.1, [] :: r.2)) <$> pick_first qs
  | (i :: q) :: qs => Some (i, q :: qs)
  end.

(** ** Aging *)

Lemma lookup_abs_queues css k : abs_queues css !! k = (fun cs => cs.*2) <$> css !! k.
Proof. apply list_lookup_fmap. Qed.

Lemma qinv_level ex s css k cs q p :
  qinv ex s css -> css !! k = Some cs -> q ∈ cs.*2 -> ptable s !! q = Some p ->
  p_state p = RUNNABLE /\ p_queue p = Z.of_nat k.
Proof.
  intros Hq Hk Hin Hp. destruct (qi_mem _ _ _ Hq _ _ _ Hk Hin) as (_ & p' & Hp' & Hs).
  by simplify_eq.
Qed.

Lemma promote_ok t p : proc_ok p -> 1 <= p_queue p -> proc_ok (promote t p).
Proof.
  intros Hok Hq. pose proof (po_queue _ Hok). assert (p_queue p - 1 = i32 (p_queue p - 1)) as Hi.
  { rewrite i32_small; [done|]. unfold NUM_QUEUES in *. lia. }
  destruct Hok. constructor; cbn; rewrite <- ?Hi; try done. lia.
Qed.

Lemma NoDup_queue ex s css k cs :
  qinv ex s css -> css !! k = Some cs -> NoDup cs.*2.
Proof.
  intros Hq Hk. pose proof (qi_nodup _ _ _ Hq) as Hnd.
  rewrite (mjoin_lookup_perm _ _ _ Hk), fmap_app in Hnd. by apply NoDup_app in Hnd as (? & _).
Qed.

(** The promoted processes and the others after aging queue [S k]. *)
Lemma qinv_promote s css k cst mv rest l' hs' :
  qinv None s css -> css !! S k = Some (mv ++ rest) -> css !! k = Some cst ->
  pool_inv l' hs' (<[S k := rest]> (<[k := cst ++ mv]> css)) ->
  qinv None (set_queues hs' (set_surplus_nodes l'
    (set_ptable (promote_all (ticks s) mv.*2 (ptable s)) s)))
    (<[S k := rest]> (<[k := cst ++ mv]> css)).
Proof.
  intros Hq Hf Ht Hpool.
  assert (mjoin (<[S k := rest]> (<[k := cst ++ mv]> css)) ≡ₚ mjoin css) as Hperm
    by (apply mjoin_move; [lia|done|done]).
  pose proof (NoDup_queue _ _ _ _ _ Hq Hf) as Hnd. rewrite fmap_app in Hnd.
  apply NoDup_app in Hnd as (Hnd & Hdisj & _).
  assert (forall j cs q, css !! j = Some cs -> q ∈ cs.*2 -> q ∉ mv.*2 ->
    exists p, promote_all (ticks s) mv.*2 (ptable s) !! q = Some p /\
      p_state p = RUNNABLE /\ p_queue p = Z.of_nat j) as Hstay.
  { intros j cs q Hj Hin Hnot. rewrite lookup_promote_all, decide_False by done.
    by destruct (qi_mem _ _ _ Hq _ _ _ Hj Hin) as (_ & p & ?); eauto. }
  split; [done|by rewrite !length_insert, (qi_len _ _ _ Hq)|by rewrite Hperm; apply Hq| |].
  - intros j cs q Hj Hin. split; [done|]. cbn. destruct (decide (j = S k)) as [->|Hne].
    { rewrite list_lookup_insert_eq in Hj by (rewrite length_insert; by eapply lookup_lt_Some).
      injection Hj as <-. apply (Hstay _ _ _ Hf); [rewrite fmap_app; set_solver|set_solver]. }
    rewrite list_lookup_insert_ne in Hj by done. destruct (decide (j = k)) as [->|Hne'].
    + rewrite list_lookup_insert_eq in Hj by (by eapply lookup_lt_Some). injection Hj as <-.
      rewrite fmap_app in Hin. destruct (decide (q ∈ mv.*2)) as [Hmv|Hmv].
      * rewrite lookup_promote_all, decide_True by done.
        destruct (qi_mem _ _ _ Hq _ _ q Hf) as (_ & p & Hp & Hs & Hqu);
          [rewrite fmap_app; set_solver|].
        rewrite Hp. eexists. split; [done|]. split; [done|]. cbn.
        rewrite i32_small; [lia|]. apply lookup_lt_Some in Hf. rewrite (qi_len _ _ _ Hq) in Hf.
        unfold NUM_QUEUES in Hf. lia.
      * apply (Hstay _ _ _ Ht); [set_solver|done].
    + rewrite list_lookup_insert_ne in Hj by done. apply (Hstay _ _ _ Hj); [done|].
      intros Hmv. assert (q ∈ (mv ++ rest).*2) as Hmv' by (rewrite fmap_app; set_solver).
      destruct (qi_mem _ _ _ Hq _ _ _ Hj Hin) as (_ & p & Hp & _ & Hqu).
      destruct (qinv_level _ _ _ _ _ _ _ Hq Hf Hmv' Hp). lia.
  - intros q p Hp Hs _. rewrite Hperm. cbn in Hp. rewrite lookup_promote_all in Hp by done.
    case_decide as Hin; [|by eapply (qi_all _ _ _ Hq)].
    rewrite elem_of_queues. exists (S k), (mv ++ rest). split; [done|]. rewrite fmap_app. set_solver.
Qed.

Lemma pinv_promote s css k mv rest :
  pinv s -> qinv None s css -> css !! S k = Some (mv ++ rest) ->
  pinv (set_ptable (promote_all (ticks s) mv.*2 (ptable s)) s).
Proof.
  intros Hp Hq Hf. pose proof (NoDup_queue _ _ _ _ _ Hq Hf) as Hnd.
  rewrite fmap_app in Hnd. apply NoDup_app in Hnd as (Hnd & _).
  split; cbn; [by rewrite length_promote_all; apply Hp|]. intros i p Hi.
  rewrite lookup_promote_all in Hi by done. case_decide as Hin; [|by eapply (pv_ok _ Hp)].
  apply fmap_Some in Hi as (p0 & Hp0 & ->).
  assert (i ∈ (mv ++ rest).*2) as Hin' by (rewrite fmap_app; set_solver).
  destruct (qinv_level _ _ _ _ _ _ _ Hq Hf Hin' Hp0).
  apply promote_ok; [by eapply (pv_ok _ Hp)|lia].
Qed.

(** [split(&queues[i], &queues[i-1], AGE_LIMIT)] ages the queue. *)
Lemma age_queue_spec s qs k :
  pinv s -> ready None s qs -> (S k < NUM_QUEUES)%nat ->
  wp (Queue.split (Some (S k)) (Some (S k - 1)%nat) AGE_LIMIT)
    (fun r s' => let '(tbl, qs') := age_queue (ticks s) (S k) (ptable s, qs) in
      pinv s' /\ ready None s' qs' /\ ptable s' = tbl /\ same_rest s s') s.
Proof.
  intros Hp (css & Hq & <-) Hk. replace (S k - 1)%nat with k by lia.
  destruct (lookup_lt_is_Some_2 css (S k)) as [csf Hf]; [by rewrite (qi_len _ _ _ Hq)|].
  destruct (lookup_lt_is_Some_2 css k) as [cst Ht]; [rewrite (qi_len _ _ _ Hq); lia|].
  eapply wp_mono.
  { apply (split_spec s css (S k) k csf cst AGE_LIMIT); [apply Hq|lia|done|done| |].
    - by eapply NoDup_queue.
    - intros q Hin. destruct (qi_mem _ _ _ Hq _ _ _ Hf Hin) as (_ & p & Hp' & _). by exists p. }
  intros r s' (_ & l' & hs' & -> & Hpool).
  pose proof (span_app (fun c => waited (ticks s) (ptable s) AGE_LIMIT c.2) csf) as Happ.
  unfold split_cells in *. unfold age_queue. replace (S k - 1)%nat with k by lia.
  rewrite !lookup_abs_queues, Hf, Ht. cbn [fmap option_fmap option_map from_option]. unfold id.
  rewrite span_fmap. unfold compose.
  set (sp := span _ csf) in *. rewrite <- Happ in Hf.
  split; [|split; [|split; [done|done]]].
  - destruct (pinv_promote s css k sp.1 sp.2 Hp Hq Hf) as [H1 H2]. by split.
  - eexists. split; [by apply qinv_promote|]. unfold abs_queues.
    by rewrite !list_fmap_insert, fmap_app.
Qed.

Lemma age_queue_length t i tbl qs : length (age_queue t i (tbl, qs)).2 = length qs.
Proof. cbn. destruct (span _ _). cbn. by rewrite !length_insert. Qed.

(** The aging loop computes [age_all]. *)
Lemma mlfq_age_spec s qs :
  pinv s -> ready None s qs ->
  wp mlfq_age (fun _ s' => pinv s' /\
    ready None s' (age_all (ticks s) (ptable s, qs)).2 /\
    ptable s' = (age_all (ticks s) (ptable s, qs)).1 /\ same_rest s s') s.
Proof.
  intros Hp Hr. unfold mlfq_age, age_all.
  assert (forall l s1 qs1, Forall (fun i => (1 <= i < NUM_QUEUES)%nat) l ->
    pinv s1 -> ready None s1 qs1 -> same_rest s s1 ->
    wp (for_each l (fun i => do! Queue.split (Some i) (Some (i - 1)%nat) AGE_LIMIT; ret tt))
      (fun _ s' => let r := foldl (fun st i => age_queue (ticks s) i st) (ptable s1, qs1) l in
        pinv s' /\ ready None s' r.2 /\ ptable s' = r.1 /\ same_rest s s') s1) as Hloop.
  { intros l. induction l as [|i l IH]; intros s1 qs1 Hl Hp1 Hr1 Hsr; cbn [for_each]; wp_steps.
    { done. }
    apply Forall_cons in Hl as [Hi Hl]. destruct i as [|k]; [lia|].
    eapply wp_mono; [apply (age_queue_spec s1 qs1 k); [done|done|lia]|].
    assert (ticks s1 = ticks s) as Htk by apply Hsr. rewrite Htk. cbn [foldl].
    intros r s2. destruct (age_queue _ _ _) as [tbl2 qs2].
    intros (Hp2 & Hr2 & <- & Hsr2). wp_steps. eapply IH; eauto with kernel. }
  apply Hloop; [|done|done|done]. unfold NUM_QUEUES. repeat constructor.
Qed.

(** ** Picking *)

Lemma pick_first_lookup qs i qs' :
  pick_first qs = Some (i, qs') ->
  exists k q, qs !! k = Some (i :: q) /\ qs' = <[k := q]> qs /\
    forall j, (j < k)%nat -> qs !! j = Some [].
Proof.
  revert qs'. induction qs as [|[|x q] qs IH]; cbn; intros qs'; [done| |].
  - intros ([i' qs''] & Hp & [= -> ->])%fmap_Some. destruct (IH _ Hp) as (k & q & Hk & -> & Hj).
    exists (S k), q. split; [done|]. split; [done|]. intros [|j] Hlt; [done|]. apply Hj. lia.
  - intros [= -> <-]. exists 0%nat, q. split; [done|]. split; [done|]. lia.
Qed.

Lemma pick_first_None qs : pick_first qs = None <-> Forall (fun q => q = []) qs.
Proof.
  induction qs as [|[|x q] qs IH]; cbn; [by split| |].
  - rewrite fmap_None, IH, Forall_cons. naive_solver.
  - split; [done|]. by intros [? _]%Forall_cons.
Qed.

Lemma qinv_pop s s' css k n i cs :
  qinv None s css -> css !! k = Some ((n, i) :: cs) -> ptable s' = ptable s ->
  pool_inv (surplus_nodes s') (queues s') (<[k := cs]> css) ->
  qinv (Some i) s' (<[k := cs]> css).
Proof.
  intros Hq Hk Ht Hpool. pose proof (lookup_lt_Some _ _ _ Hk) as Hlt.
  assert (mjoin css ≡ₚ (n, i) :: mjoin (<[k := cs]> css)) as Hperm.
  { rewrite mjoin_insert_perm, (mjoin_lookup_perm _ _ _ Hk) by done. done. }
  pose proof (qi_nodup _ _ _ Hq) as Hnd. rewrite Hperm in Hnd. cbn in Hnd.
  apply NoDup_cons in Hnd as [Hnot Hnd].
  split; [done|by rewrite length_insert, (qi_len _ _ _ Hq)|done| |].
  - intros j cs' q Hj Hin. assert (q <> i) as Hqi.
    { intros ->. apply Hnot, elem_of_queues. eauto. }
    split; [congruence|]. rewrite Ht. destruct (decide (j = k)) as [->|Hne].
    + rewrite list_lookup_insert_eq in Hj by done. injection Hj as <-.
      destruct (qi_mem _ _ _ Hq _ _ q Hk) as [_ ?]; [by right|done].
    + rewrite list_lookup_insert_ne in Hj by done. by destruct (qi_mem _ _ _ Hq _ _ q Hj Hin).
  - intros q p Hp Hs Hne. rewrite Ht in Hp.
    pose proof (qi_all _ _ _ Hq q p Hp Hs ltac:(done)) as Hin. rewrite Hperm in Hin. cbn in Hin.
    apply elem_of_cons in Hin as [->|Hin]; [by destruct Hne|done].
Qed.

(** What the scan returns, given the ready queues. *)
Definition scan_post (s : pstate) (pick : option (nat * list (list nat)))
    (r : option nat) (s' : pstate) : Prop :=
  match pick with
  | None => r = None /\ s' = s
  | Some (i, qs') => r = Some i /\ ready (Some i) s' qs' /\
      ptable s' = ptable s /\ same_rest s s' /\
      exists p, ptable s !! i = Some p /\ p_state p = RUNNABLE
  end.

Lemma mlfq_take_spec s css k n i cs :
  qinv None s css -> css !! k = Some ((n, i) :: cs) ->
  wp (let! h := Queue.get_queue k in
      let! c := deref h in
      let! nd := Queue.on_pool (Queue.load c) in
      let! h' := Queue.on_pool (Queue.pop h) in
      do! Queue.set_queue k h'; ret (n_p nd))
    (scan_post s (Some (i, <[k := cs.*2]> (abs_queues css)))) s.
Proof.
  intros Hq Hk. destruct (pool_inv_chain _ _ _ _ _ (qi_pool _ _ _ Hq) Hk) as (h & Hh & Hc).
  destruct Hc as (-> & nx & Hn & Hc). wp_steps. exists (Some n). split; [done|]. wp_steps.
  exists n. split; [done|]. wp_steps. exists (mknode nx (Some i) 1). split; [done|]. wp_steps.
  eapply wp_mono; [by eapply pop_spec; [apply Hq|..]|].
  intros h' l' Hpool. wp_steps. split; [by eexists|]. split; [done|].
  split; [|split; [done|split; [done|]]].
  - exists (<[k := cs]> css). split; [by eapply qinv_pop|]. unfold abs_queues.
    by rewrite list_fmap_insert.
  - by destruct (qi_mem _ _ _ Hq _ _ i Hk ltac:(left)) as (_ & p & ? & ? & _); eauto.
Qed.

Lemma mlfq_scan_spec s css n k :
  qinv None s css -> (k + n = NUM_QUEUES)%nat ->
  wp (mlfq_scan (seq k n)) (scan_post s
    ((fun r => (r.1, take k (abs_queues css) ++ r.2)) <$> pick_first (drop k (abs_queues css)))) s.
Proof.
  intros Hq. pose proof (qi_len _ _ _ Hq) as Hlen. revert k.
  induction n as [|n IH]; intros k Hkn.
  { cbn [seq mlfq_scan]. wp_steps. rewrite drop_ge by (unfold abs_queues; rewrite length_fmap; lia).
    done. }
  destruct (lookup_lt_is_Some_2 css k) as [cs Hk]; [lia|].
  assert (abs_queues css !! k = Some cs.*2) as Hak by (by rewrite lookup_abs_queues, Hk).
  destruct (pool_inv_chain _ _ _ _ _ (qi_pool _ _ _ Hq) Hk) as (h & Hh & Hc).
  rewrite (drop_S _ _ _ Hak). cbn [seq mlfq_scan].
  rewrite wp_bind, wp_get_queue. exists h. split; [done|].
  rewrite wp_bind, wp_on_pool. unfold wp at 1.
  rewrite (length_spec _ _ _ _ _ _ (qi_pool _ _ _ Hq) Hh Hk).
  replace (set_surplus_nodes (surplus_nodes s) s) with s by (by destruct s).
  destruct cs as [|[c i] cs]; cbn [length].
  - cbn [Z.of_nat Z.eqb pick_first fmap list_fmap]. eapply wp_mono; [by apply (IH (S k)); lia|].
    intros r s'. rewrite (take_S_r _ _ _ Hak). destruct (pick_first _) as [[i qs']|]; [|done].
    cbn. by rewrite <- app_assoc.
  - rewrite (proj2 (Z.eqb_neq _ _)) by lia. pose proof (mlfq_take_spec s css k c i cs Hq Hk) as Ht.
    rewrite wp_bind, wp_get_queue in Ht. destruct Ht as (h' & Hh' & Ht). simplify_eq.
    eapply wp_mono; [exact Ht|]. intros r s'. cbn.
    by rewrite <- (insert_take_drop (abs_queues css) k cs.*2) by (by eapply lookup_lt_Some).
Qed.

Lemma mlfq_pick_spec s qs :
  ready None s qs -> wp mlfq_pick (scan_post s (pick_first qs)) s.
Proof.
  intros (css & Hq & <-). eapply wp_mono; [by apply (mlfq_scan_spec s css NUM_QUEUES 0)|].
  intros r s'. rewrite drop_0, take_0. by destruct (pick_first _) as [[]|].
Qed.

(** * One turn of the scheduler *)

(** The invariant with the ready queues named. *)
Definition sinv (pol : policy) (ex : option nat) (qs : list (list nat)) (s : pstate) : Prop :=
  pinv s /\ (pol = SCHED_MLFQ -> ready ex s qs).

Lemma inv_sinv pol ex s : inv pol ex s <-> exists qs, sinv pol ex qs s.
Proof.
  unfold inv, sinv, qok, ready. destruct (decide (pol = SCHED_MLFQ)) as [->|Hpol].
  - split; [|naive_solver]. intros [Hp Hq]. destruct (Hq eq_refl) as [css Hc]. eauto.
  - split; [intros [Hp _]; by exists []|by intros (qs & Hp & _)].
Qed.

Lemma sinv_misc pol ex qs s s' :
  sinv pol ex qs s -> ptable s' = ptable s -> surplus_nodes s' = surplus_nodes s ->
  queues s' = queues s -> sinv pol ex qs s'.
Proof.
  intros [[Hl Hok] Hq] Ht Hn Hqs. split; [split; rewrite Ht; done|]. intros Hpol.
  destruct (Hq Hpol) as (css & Hc & <-). exists css. split; [|done].
  eapply qinv_frame; [done|done|done|]. by rewrite Ht.
Qed.

Lemma sinv_upd pol ex ex' qs s i p f :
  sinv pol ex qs s -> ptable s !! i = Some p -> proc_ok (f p) ->
  p_state p <> RUNNABLE \/ ex = Some i ->
  (forall j, j <> i -> ex' <> Some j <-> ex <> Some j) ->
  (p_state (f p) = RUNNABLE -> ex' = Some i) ->
  sinv pol ex' qs (upd_proc i f s).
Proof.
  intros [Hp Hq] Hi Hf Hor Hex Hst. split; [by eapply pinv_upd|]. intros Hpol.
  destruct (Hq Hpol) as (css & Hc & <-). exists css. split; [|done].
  eapply qinv_upd_ex; [done|done| |done|done]. by eapply qinv_not_queued.
Qed.

Lemma sinv_unqueued pol qs s i p f :
  sinv pol (Some i) qs s -> ptable s !! i = Some p -> proc_ok (f p) ->
  sinv pol (Some i) qs (upd_proc i f s).
Proof. intros. eapply sinv_upd; naive_solver. Qed.

(** ** Dispatch *)

(** What dispatching does to a process under each policy. *)
Definition dispatched (pol : policy) (p : proc) : proc :=
  let p := set_p_state RUNNING (set_p_num_run (i32 (p_num_run p + 1)) p) in
  match pol with
  | SCHED_PBS => set_p_timeslices (i32 (p_timeslices p + 1)) p
  | SCHED_MLFQ => set_p_cur_timeslices (i32 (p_cur_timeslices p + 1)) p
  | _ => p
  end.

Lemma run_proc_spec pol qs s i p :
  sinv pol (Some i) qs s -> ptable s !! i = Some p -> p_state p = RUNNABLE ->
  wp (run_proc i) (fun _ s' => sinv pol None qs s' /\
    ptable s' = <[i := set_p_state RUNNING (set_p_num_run (i32 (p_num_run p + 1)) p)]> (ptable s) /\
    same_rest s s') s.
Proof.
  intros Hs Hi Hst. pose proof (pv_ok _ (proj1 Hs) _ _ Hi) as Hok.
  destruct (po_mem _ Hok) as [Hks Hpg]; [unfold active; naive_solver|].
  unfold run_proc, switchuvm. wp_steps. split; [by eexists|].
  exists (set_p_num_run (i32 (p_num_run p + 1)) p).
  assert (ptable (upd_proc i (fun p => set_p_num_run (i32 (p_num_run p + 1)) p) s) !! i =
    Some (set_p_num_run (i32 (p_num_run p + 1)) p)) as Hi1 by (by rewrite lookup_upd_proc_eq, Hi).
  split; [done|]. cbn [p_kstack p_pgdir set_p_num_run].
  rewrite !(proj2 (Z.eqb_neq _ _)) by done. wp_steps. split; [by eexists|].
  split; [|split; [|done]].
  - eapply sinv_upd; [eapply sinv_unqueued; [done|done|]|done| |by right|naive_solver|done].
    + solve_ok.
    + solve_ok.
  - cbn. by rewrite list_alter_alter, (list_alter_insert _ _ _ _ Hi).
Qed.

(** Counting the dispatch in a field before it. *)
Lemma count_run_spec pol qs s i p f :
  sinv pol (Some i) qs s -> ptable s !! i = Some p -> p_state p = RUNNABLE ->
  proc_ok (f p) -> p_state (f p) = RUNNABLE ->
  wp (do! Queue.set_proc i f; do! run_proc i; ret (Some i)) (fun r s' => r = Some i /\
    sinv pol None qs s' /\ ptable s' =
      <[i := set_p_state RUNNING (set_p_num_run (i32 (p_num_run (f p) + 1)) (f p))]> (ptable s) /\
    same_rest s s') s.
Proof.
  intros Hs Hi Hst Hok Hst'. wp_steps. split; [by eexists|].
  eapply wp_mono; [eapply (run_proc_spec pol qs _ i (f p)); [by eapply sinv_unqueued| |done]|].
  { by rewrite lookup_upd_proc_eq, Hi. }
  intros [] s' (Hs' & Ht & Hsr). wp_steps. split; [done|]. split; [done|]. split; [|done].
  rewrite Ht. cbn. rewrite (list_alter_insert _ _ _ _ Hi). apply list_insert_insert_eq.
Qed.

(** The choice each policy makes: the table and queues once aged, and the
    process it selects. *)
Definition choose (pol : policy) (pos : nat) (t : Z) (tbl : list proc) (qs : list (list nat)) :
    list proc * list (list nat) * option nat :=
  match pol with
  | SCHED_RR => (tbl, qs, rr_select pos tbl)
  | SCHED_FCFS => (tbl, qs, fcfs_select t tbl)
  | SCHED_PBS => (tbl, qs, pbs_select t tbl)
  | SCHED_MLFQ =>
      let '(tbl1, qs1) := age_all t (tbl, qs) in
      match pick_first qs1 with
      | None => (tbl1, qs1, None)
      | Some (i, qs2) => (tbl1, qs2, Some i)
      end
  end.

Lemma rr_select_sel pos tbl i :
  rr_select pos tbl = Some i -> (pos <= i)%nat /\
  exists p, tbl !! i = Some p /\ p_state p = RUNNABLE /\
    forall j q, (pos <= j < i)%nat -> tbl !! j = Some q -> p_state q <> RUNNABLE.
Proof.
  unfold rr_select. intros (j & p & -> & Hj & Hp & Hbefore)%first_from_Some.
  unfold is_runnable in *. rewrite lookup_drop in Hj. zb. split; [lia|]. exists p.
  split; [done|]. split; [done|]. intros m q Hm Hq.
  assert (m = pos + (m - pos))%nat as Hme by lia. rewrite Hme, <- lookup_drop in Hq.
  specialize (Hbefore (m - pos)%nat q ltac:(lia) Hq).
  by apply bool_decide_eq_false in Hbefore.
Qed.

Lemma sinv_no_queues pol ex ex' qs s :
  pol <> SCHED_MLFQ -> sinv pol ex qs s -> sinv pol ex' qs s.
Proof. intros Hpol [Hp _]. by split. Qed.

Lemma least_runnable tbl {K} (key : proc -> K) lt i p :
  least_at is_runnable key lt tbl i p -> tbl !! i = Some p /\ p_state p = RUNNABLE.
Proof. intros (Hi & Hr & _). unfold is_runnable in Hr. by zb. Qed.

Lemma choose_runnable pol pos t tbl qs tbl' qs' i :
  pol <> SCHED_MLFQ -> choose pol pos t tbl qs = (tbl', qs', Some i) ->
  tbl' = tbl /\ qs' = qs /\ exists p, tbl !! i = Some p /\ p_state p = RUNNABLE.
Proof.
  intros Hpol. unfold choose. destruct pol; [..|done]; intros [= <- <- Hsel];
    (split; [done|]); (split; [done|]).
  - apply rr_select_sel in Hsel as (_ & p & ? & ? & _). by exists p.
  - destruct (fcfs_select_sel t tbl) as [[? _]|(j & p & Hj & _ & Hl)]; [congruence|].
    simplify_eq. exists p. by eapply least_runnable.
  - destruct (pbs_select_sel t tbl) as [[? _]|(j & p & Hj & Hl)]; [congruence|].
    simplify_eq. exists p. by eapply least_runnable.
Qed.

Lemma timeslices_ok n p : proc_ok p -> proc_ok (set_p_timeslices n p).
Proof. intros. solve_ok. Qed.
Lemma cur_timeslices_ok n p : proc_ok p -> proc_ok (set_p_cur_timeslices n p).
Proof. intros. solve_ok. Qed.
#[export] Hint Resolve timeslices_ok cur_timeslices_ok : kernel.

(** What a turn of the scheduler loop leaves when it has something to run and
    when it has not. *)
Definition entered (pol : policy) (s : pstate) (c : list proc * list (list nat) * option nat)
    (r : option nat) (s' : pstate) : Prop :=
  let '(tbl, qs, sel) := c in
  r = sel /\ sinv pol None qs s' /\
  same_rest (set_ptable_locked (bool_decide (is_Some sel)) s) s' /\
  match sel with
  | None => ptable s' = tbl
  | Some i => exists p, tbl !! i = Some p /\ p_state p = RUNNABLE /\
      ptable s' = <[i := dispatched pol p]> tbl
  end.

(** The body of the loop once the choice is made, under a policy without
    queues. *)
Lemma enter_plain pol pos qs s sel f :
  pol <> SCHED_MLFQ -> sinv pol None qs s -> ptable_locked s = true ->
  choose pol pos (ticks s) (ptable s) qs = (ptable s, qs, sel) ->
  (forall p, proc_ok p -> proc_ok (f p)) -> (forall p, p_state (f p) = p_state p) ->
  (forall p, set_p_state RUNNING (set_p_num_run (i32 (p_num_run (f p) + 1)) (f p)) = dispatched pol p) ->
  wp (match sel with
      | None => do! release; ret None
      | Some i => do! Queue.set_proc i f; do! run_proc i; ret (Some i)
      end)
    (entered pol s (ptable s, qs, sel)) s.
Proof.
  intros Hpol Hs Hl Hc Hf Hst Hd. destruct sel as [i|].
  - destruct (choose_runnable _ _ _ _ _ _ _ _ Hpol Hc) as (_ & _ & p & Hi & Hrun).
    eapply wp_mono.
    { apply (count_run_spec pol qs s i p f); [by eapply sinv_no_queues|done|done| |].
      - by apply Hf, (pv_ok _ (proj1 Hs) i).
      - by rewrite Hst. }
    intros r s' (-> & Hs' & Ht & Hsr). split; [done|]. split; [done|]. split.
    + rewrite bool_decide_eq_true_2 by eauto. by rewrite <- Hl.
    + exists p. by rewrite Ht, Hd.
  - wp_steps. split; [done|]. split; [done|]. split; [by eapply sinv_misc|]. done.
Qed.

Lemma set_proc_id i s : upd_proc i id s = s.
Proof.
  destruct s as [l tbl np ip t ns qs]. unfold upd_proc. cbn. unfold set_ptable. cbn. f_equal.
  apply list_eq. intros j. destruct (decide (i = j)) as [->|].
  - rewrite list_lookup_alter_eq. by destruct (tbl !! j).
  - by rewrite list_lookup_alter_ne.
Qed.

Lemma enter_mlfq qs s :
  sinv SCHED_MLFQ None qs s -> ptable_locked s = true ->
  wp (do! mlfq_age;
      let! r := mlfq_pick in
      match r with
      | None => do! release; ret None
      | Some i =>
          let! p := Queue.get_proc i in
          if negb (is_runnable p) then do! release; ret None
          else
            do! Queue.set_proc i (fun p => set_p_cur_timeslices (i32 (p_cur_timeslices p + 1)) p);
            do! run_proc i;
            ret (Some i)
      end)
    (entered SCHED_MLFQ s (choose SCHED_MLFQ 0 (ticks s) (ptable s) qs)) s.
Proof.
  intros [Hp Hr] Hl. wp_steps. eapply wp_mono; [apply mlfq_age_spec; [done|by apply Hr]|].
  cbn [choose]. destruct (age_all _ _) as [tbl qs1]. cbn [fst snd].
  intros [] s1 (Hp1 & Hr1 & Ht1 & Hsr1). wp_steps.
  eapply wp_mono; [by apply mlfq_pick_spec|]. intros r s2.
  destruct (pick_first qs1) as [[i qs2]|]; cbn [scan_post].
  - intros (-> & Hr2 & Ht2 & Hsr2 & p & Hi & Hrun). wp_steps. exists p.
    split; [by rewrite Ht2|]. unfold is_runnable. rewrite bool_decide_eq_true_2 by done. cbn [negb].
    eapply wp_mono.
    { apply (count_run_spec SCHED_MLFQ qs2 s2 i p).
      - split; [split; rewrite Ht2; apply Hp1|done].
      - by rewrite Ht2.
      - done.
      - apply cur_timeslices_ok. by apply (pv_ok _ Hp1 i).
      - done. }
    intros r s' (-> & Hs' & Ht & Hsr). split; [done|]. split; [done|]. split.
    + rewrite bool_decide_eq_true_2 by eauto. destruct s as [l ? ? ? ? ? ?]. cbn in Hl. subst l.
      eapply same_rest_trans; [exact Hsr1|]. by eapply same_rest_trans.
    + exists p. rewrite <- Ht1. split; [done|]. split; [done|]. by rewrite Ht, Ht2.
  - intros [-> ->]. wp_steps. split; [destruct Hsr1; congruence|]. split; [done|].
    split; [by apply (sinv_misc _ _ _ s1)|].
    split; [|done]. destruct Hsr1 as (? & ? & ? & ?). done.
Qed.

(** One turn of the loop does what its policy chooses: nothing panics, no
    pointer is stray, and the lock is held exactly when a process runs. *)
Lemma enter_spec pol pos qs s :
  sinv pol None qs s -> ptable_locked s = false ->
  wp (enter pol pos) (entered pol s (choose pol pos (ticks s) (ptable s) qs)) s.
Proof.
  intros Hs Hl. unfold enter. wp_steps. split; [done|].
  set (s1 := set_ptable_locked true s).
  assert (sinv pol None qs s1) as Hs1 by (by eapply sinv_misc).
  assert (forall c r s', entered pol s1 c r s' -> entered pol s c r s') as Hent.
  { intros [[tbl qs'] sel] r s' (? & ? & ? & ?). done. }
  assert (forall sel Q, wp (match sel with None => do! release; ret None
      | Some i => do! Queue.set_proc i id; do! run_proc i; ret (Some i) end) Q s1 ->
    wp (match sel with None => do! release; ret None
      | Some i => do! run_proc i; ret (Some i) end) Q s1) as Hid.
  { intros [i|] Q; [|done]. rewrite wp_bind, wp_set_proc. intros [_ H].
    by rewrite set_proc_id in H. }
  destruct pol.
  - eapply wp_mono; [|intros ??; apply Hent]. apply Hid.
    by apply (enter_plain SCHED_RR pos qs s1 _ id).
  - eapply wp_mono; [|intros ??; apply Hent]. apply Hid.
    by apply (enter_plain SCHED_FCFS pos qs s1 _ id).
  - eapply wp_mono; [|intros ??; apply Hent].
    by apply (enter_plain SCHED_PBS pos qs s1); eauto with kernel.
  - eapply wp_mono; [|intros ??; apply Hent]. by apply (enter_mlfq qs s1).
Qed.

(** ** Back in the scheduler *)

(** A process that comes back [RUNNABLE]: its run is over, and when it used up
    its slice it goes down one level. *)
Definition requeued (t : Z) (p : proc) : proc :=
  let p' := set_p_age_time (i32 t) (set_p_cur_timeslices 0 p) in
  if p_punish p =? 0 then p'
  else set_p_queue (if p_queue p =? Z.of_nat NUM_QUEUES - 1 then p_queue p
                    else i32 (p_queue p + 1)) (set_p_punish 0 p').

Lemma requeued_ok t p : proc_ok p -> proc_ok (requeued t p).
Proof.
  intros Hok. unfold requeued. destruct (p_punish p =? 0); [solve_ok|].
  pose proof (po_queue _ Hok). unfold NUM_QUEUES in *.
  destruct (Z.eqb_spec (p_queue p) (Z.of_nat 5 - 1)); [solve_ok|].
  rewrite i32_small by lia. solve_ok. unfold NUM_QUEUES. lia.
Qed.

Lemma requeued_state t p : p_state (requeued t p) = p_state p.
Proof. unfold requeued. by destruct (p_punish p =? 0). Qed.

(** [enqueue] puts a process at the end of the queue of its level. *)
Lemma enqueue_ready qs s i p :
  sinv SCHED_MLFQ (Some i) qs s -> ptable s !! i = Some p -> p_state p = RUNNABLE ->
  wp (enqueue i) (fun _ s' =>
    sinv SCHED_MLFQ None (alter (fun q => q ++ [i]) (Z.to_nat (p_queue p)) qs) s' /\
    ptable s' = ptable s /\ same_rest s s') s.
Proof.
  intros [Hp Hr] Hi Hst. destruct (Hr eq_refl) as (css & Hc & <-).
  pose proof (po_queue _ (pv_ok _ Hp _ _ Hi)) as Hqr.
  eapply wp_enqueue; [done|done|].
  eapply wp_mono; [eapply push_queue_cells; [done|done|done|done|lia]|].
  intros [] s' ((cs & n & Hk & Hc') & Ht & Hsr). split; [|done].
  split; [split; rewrite Ht; apply Hp|]. intros _. eexists. split; [done|].
  unfold abs_queues. rewrite list_fmap_insert, fmap_app.
  by rewrite (list_alter_insert _ _ _ cs.*2) by (by rewrite list_lookup_fmap, Hk).
Qed.

Lemma mlfq_requeue_spec qs s i p :
  sinv SCHED_MLFQ (Some i) qs s -> ptable s !! i = Some p -> p_state p = RUNNABLE ->
  wp (mlfq_requeue i) (fun _ s' =>
    let p' := requeued (ticks s) p in
    sinv SCHED_MLFQ None (alter (fun q => q ++ [i]) (Z.to_nat (p_queue p')) qs) s' /\
    ptable s' = <[i := p']> (ptable s) /\ same_rest s s') s.
Proof.
  intros Hs Hi Hst. cbn zeta. pose proof (pv_ok _ (proj1 Hs) _ _ Hi) as Hok.
  assert (wp (do! Queue.set_proc i (requeued (ticks s)); enqueue i) (fun _ s' =>
    sinv SCHED_MLFQ None (alter (fun q => q ++ [i]) (Z.to_nat (p_queue (requeued (ticks s) p))) qs) s' /\
    ptable s' = <[i := requeued (ticks s) p]> (ptable s) /\ same_rest s s') s) as Hwp.
  { wp_steps. split; [by eexists|]. eapply wp_mono.
    - eapply (enqueue_ready qs _ i (requeued (ticks s) p)).
      + eapply sinv_unqueued; [done|done|by apply requeued_ok].
      + by rewrite lookup_upd_proc_eq, Hi.
      + by rewrite requeued_state.
    - intros [] s' (Hs' & Ht & Hsr). split; [done|]. split; [|done].
      rewrite Ht. apply (list_alter_insert _ _ _ _ Hi). }
  assert (forall f, f p = requeued (ticks s) p ->
    upd_proc i f s = upd_proc i (requeued (ticks s)) s) as Hupd.
  { intros f Hf. unfold upd_proc. by rewrite !(list_alter_insert _ _ _ _ Hi), Hf. }
  unfold mlfq_requeue. wp_steps. exists p. split; [done|].
  rewrite bool_decide_eq_true_2 by done. cbn [when]. wp_steps.
  rewrite wp_bind, wp_set_proc in Hwp. destruct Hwp as [_ Hwp].
  assert (forall f g s', upd_proc i f (upd_proc i g s') = upd_proc i (f ∘ g) s') as Hcomp.
  { intros f g s'. unfold upd_proc, set_ptable. cbn. by rewrite list_alter_alter. }
  destruct (p_punish p =? 0) eqn:Hpun.
  - wp_steps. split; [by eexists|]. rewrite lookup_upd_proc_eq, Hi. split; [by eexists|].
    rewrite Hcomp, Hupd; [done|]. unfold requeued. by rewrite Hpun.
  - wp_steps. rewrite !lookup_upd_proc_eq, Hi. do 3 (split; [by eexists|]).
    destruct (p_queue p =? Z.of_nat NUM_QUEUES - 1) eqn:Hlast; cbn [negb when]; wp_steps.
    + rewrite !Hcomp, Hupd; [done|]. unfold requeued. by rewrite Hpun, Hlast.
    + rewrite !lookup_upd_proc_eq, Hi. split; [by eexists|].
      rewrite !Hcomp, Hupd; [done|]. unfold requeued. by rewrite Hpun, Hlast.
Qed.

(** The process not in a queue when it comes back to the scheduler. *)
Definition back (i : nat) (st : procstate) : option nat :=
  if bool_decide (st = RUNNABLE) then Some i else None.

(** What the scheduler makes of the process that comes back. *)
Definition left_entry (pol : policy) (t : Z) (p : proc) : proc :=
  if bool_decide (pol = SCHED_MLFQ) && bool_decide (p_state p = RUNNABLE)
  then requeued t p else p.

Lemma left_entry_state pol t p : p_state (left_entry pol t p) = p_state p.
Proof. unfold left_entry. destruct (_ && _); [apply requeued_state|done]. Qed.

Lemma leave_spec pol s i p :
  inv pol (back i (p_state p)) s -> ptable_locked s = true -> ptable s !! i = Some p ->
  wp (leave pol i) (fun _ s' => inv pol None s' /\
    ptable s' = <[i := left_entry pol (ticks s) p]> (ptable s) /\
    same_rest (set_ptable_locked false s) s') s.
Proof.
  intros Hinv Hl Hi. unfold leave, left_entry, back in *.
  destruct (decide (pol = SCHED_MLFQ)) as [->|Hpol].
  2:{ rewrite bool_decide_eq_false_2 by done. cbn [andb]. rewrite list_insert_id by done.
      assert (wp release (fun _ s' => inv pol None s' /\ ptable s' = ptable s /\
        same_rest (set_ptable_locked false s) s') s) as Hr.
      { wp_steps. split; [done|]. split; [by apply inv_lock; eapply inv_no_queues|done]. }
      by destruct pol. }
  cbn [andb bool_decide decide_rel policy_eq_dec]. rewrite bool_decide_eq_true_2 by done.
  cbn [andb]. case_bool_decide as Hst.
  - apply inv_sinv in Hinv as [qs Hs]. rewrite wp_bind.
    eapply wp_mono; [by apply (mlfq_requeue_spec qs s i p)|].
    intros [] s' (Hs' & Ht & Hlk & Hrest). wp_steps. split; [congruence|].
    split; [apply inv_lock, inv_sinv; by eexists|]. done.
  - unfold mlfq_requeue. wp_steps. exists p. split; [done|].
    rewrite bool_decide_eq_false_2 by done. cbn [when]. wp_steps. split; [done|].
    rewrite list_insert_id by done. split; [by apply inv_lock|done].
Qed.

(** * Initialisation *)

Lemma qinv_init s :
  queues s = replicate NUM_QUEUES None -> length (surplus_nodes s) = NPROC ->
  (forall i n, surplus_nodes s !! i = Some n -> n_use n = 0) ->
  (forall i p, ptable s !! i = Some p -> p_state p <> RUNNABLE) ->
  qinv None s (replicate NUM_QUEUES []).
Proof.
  intros Hq Hl Hfree Hrun. assert (mjoin (replicate NUM_QUEUES ([] : list (nat * nat))) = []) as Hj by done.
  split; [split; [done| | |]| | | |].
  - rewrite Hq. by repeat constructor.
  - rewrite Hj. constructor.
  - intros i n Hi _. by eapply Hfree.
  - apply length_replicate.
  - rewrite Hj. constructor.
  - intros k cs q Hk Hin. apply lookup_replicate in Hk as [-> _]. by apply not_elem_of_nil in Hin.
  - intros q p Hp Hst. by destruct (Hrun _ _ Hp).
Qed.

(** [pinit] makes empty queues of whatever was there. *)
Lemma pinit_spec pol s :
  pinv s -> ptable_locked s = false -> length (queues s) = NUM_QUEUES ->
  length (surplus_nodes s) = NPROC ->
  (forall i p, ptable s !! i = Some p -> p_state p <> RUNNABLE) ->
  wp (pinit pol) (fun _ s' => inv pol None s' /\ ptable s' = ptable s /\ same_rest s s') s.
Proof.
  intros Hp Hl Hq Hn Hrun. destruct (decide (pol = SCHED_MLFQ)) as [->|Hpol].
  2:{ assert (wp (ret tt) (fun _ s' => inv pol None s' /\ ptable s' = ptable s /\ same_rest s s') s)
        as Hr by (wp_steps; split; [by split; [|intros ?]|done]). by destruct pol. }
  unfold pinit. wp_steps. split; [done|]. eapply wp_mono.
  { apply (wp_for_seq (fun j s' => exists hs, s' = set_queues hs (set_ptable_locked true s) /\
      length hs = NUM_QUEUES /\ forall i, (i < j)%nat -> hs !! i = Some None)).
    - exists (queues s). split; [by destruct s|]. split; [done|lia].
    - intros j s1 Hj (hs & -> & Hlq & Hqs). wp_steps.
      split; [apply lookup_lt_is_Some_2; cbn; lia|]. exists (<[j := None]> hs).
      split; [done|]. split; [by rewrite length_insert|]. intros i Hi.
      destruct (decide (i = j)) as [->|]; [apply list_lookup_insert_eq; lia|].
      rewrite list_lookup_insert_ne by done. apply Hqs. lia. }
  cbn beta. intros [] s1 (hs & -> & Hlq & Hqs). wp_steps. eapply wp_mono.
  { apply (wp_for_seq (fun j s' => exists l,
      s' = set_surplus_nodes l (set_queues hs (set_ptable_locked true s)) /\ length l = NPROC /\
      forall i n, (i < j)%nat -> l !! i = Some n -> n_use n = 0)).
    - exists (surplus_nodes s). split; [by destruct s|]. split; [done|lia].
    - intros j s2 Hj (l & -> & Hll & Hls). wp_steps.
      split; [apply lookup_lt_is_Some_2; cbn; lia|]. exists (upd_node j (set_n_use 0) l).
      split; [done|]. unfold upd_node. split; [by rewrite length_alter|]. intros i n Hi.
      destruct (decide (i = j)) as [->|].
      + rewrite list_lookup_alter_eq. intros (n' & _ & ->)%fmap_Some. done.
      + rewrite list_lookup_alter_ne by done. apply Hls. lia. }
  cbn beta. intros [] s2 (l & -> & Hll & Hls). wp_steps. split; [done|]. split; [|by rewrite <- Hl].
  split; [split; apply Hp|]. intros _. eexists. apply qinv_init; cbn; [|done| |done].
  - apply list_eq_same_length with (n := NUM_QUEUES); [apply length_replicate|done|].
    intros i x y Hi Hx Hy. rewrite Hqs in Hx by done. apply lookup_replicate in Hy as [-> _]. congruence.
  - intros i n Hi. apply (Hls i n); [|done]. rewrite <- Hll. by eapply lookup_lt_Some.
Qed.
