(* ===== verification/Trap.v ===== *)
(** The clock interrupt of [trap.c]: counting ticks, and what it does to the
    process it interrupts under each policy. *)

From S2P Require Import Prelude CString ProcDefs Queue Proc Sched ProcInv SchedInv.
Import Proc.

Module Trap.

(** On processor 0, under [tickslock]. *)
Definition clock_tick (pol : policy) : M pstate unit :=
  do! modify (fun s => set_ticks (u32 (ticks s + 1)) s);
  do! inc_runtime;
  wakeup pol ChTicks.

(** The end of [trap] for a clock interrupt that finds [cur] running; [true]
    when it gives up the processor. *)
Definition timer (pol : policy) (cur : nat) : M pstate bool :=
  match pol with
  | SCHED_RR | SCHED_PBS => do! yield cur; ret true
  | SCHED_FCFS => ret false
  | SCHED_MLFQ =>
      do! inc_pinfo_ticks cur;
      let! p := Queue.get_proc cur in
      if p_cur_timeslices p >=? TIMESLICE (p_queue p) then
        do! punisher cur;
        do! yield cur;
        ret true
      else
        do! inc_timeslice cur;
        ret false
  end.

End Trap.
Import Trap.

Implicit Types (s : pstate) (p : proc) (pol : policy).

Lemma clock_tick_spec pol s :
  inv pol None s -> ptable_locked s = false ->
  wp (clock_tick pol) (fun _ s' => inv pol None s' /\
    ptable s' = (wake_if pol ChTicks (u32 (ticks s + 1)) ∘ tick_run) <$> ptable s /\
    ticks s' = u32 (ticks s + 1) /\ same_rest (set_ticks (u32 (ticks s + 1)) s) s') s.
Proof.
  intros Hinv Hl. unfold clock_tick. wp_steps.
  eapply wp_mono; [apply (inc_runtime_spec pol); [by eapply inv_misc|done]|].
  cbn beta. intros [] s1 (Hinv1 & Ht1 & Hsr1). cbn in Ht1.
  pose proof Hsr1 as (Hl1 & _ & _ & Htk1). cbn in Hl1, Htk1.
  eapply wp_mono; [apply wakeup_spec; [done|congruence]|].
  cbn beta. intros [] s2 (Hinv2 & Ht2 & Hsr2). split; [done|].
  split; [by rewrite Ht2, Ht1, Htk1, list_fmap_compose|].
  pose proof (same_rest_trans _ _ _ Hsr1 Hsr2) as Hsr. split; [apply Hsr|done].
Qed.

(** One more tick in the queue [p] is in. *)
Definition pinfo_tick (p : proc) : proc :=
  set_p_ticks (alter (fun t => i32 (t + 1)) (Z.to_nat (p_queue p)) (p_ticks p)) p.

(** The interrupted process afterwards, and whether it gives up. *)
Definition timer_entry (pol : policy) (p : proc) : proc * bool :=
  match pol with
  | SCHED_RR | SCHED_PBS => (set_p_state RUNNABLE p, true)
  | SCHED_FCFS => (p, false)
  | SCHED_MLFQ =>
      let p := pinfo_tick p in
      if p_cur_timeslices p >=? TIMESLICE (p_queue p)
      then (set_p_state RUNNABLE (set_p_punish 1 p), true)
      else (set_p_cur_timeslices (i32 (p_cur_timeslices p + 1)) p, false)
  end.

Definition timer_post (pol : policy) (s : pstate) (i : nat) (p : proc) (b : bool) (s' : pstate) : Prop :=
  b = (timer_entry pol p).2 /\ inv pol (if b then Some i else None) s' /\
  ptable s' = <[i := (timer_entry pol p).1]> (ptable s) /\
  same_rest (set_ptable_locked b s) s'.

Lemma punisher_spec pol s i p :
  inv pol None s -> ptable_locked s = false -> ptable s !! i = Some p ->
  wp (punisher i) (fun _ s' => inv pol None s' /\
    ptable s' = <[i := set_p_punish 1 p]> (ptable s) /\ same_rest s s') s.
Proof.
  intros Hinv Hl Hi. apply locked_update_spec; try done.
  pose proof (pv_ok _ (proj1 Hinv) _ _ Hi). solve_ok.
Qed.

Lemma inc_timeslice_spec pol s i p :
  inv pol None s -> ptable_locked s = false -> ptable s !! i = Some p ->
  wp (inc_timeslice i) (fun _ s' => inv pol None s' /\
    ptable s' = <[i := set_p_cur_timeslices (i32 (p_cur_timeslices p + 1)) p]> (ptable s) /\
    same_rest s s') s.
Proof.
  intros Hinv Hl Hi. apply (locked_update_spec pol s i p
    (fun p => set_p_cur_timeslices (i32 (p_cur_timeslices p + 1)) p)); try done.
  pose proof (pv_ok _ (proj1 Hinv) _ _ Hi). solve_ok.
Qed.

Lemma timer_mlfq_spec s i p :
  inv SCHED_MLFQ None s -> ptable_locked s = false -> ptable s !! i = Some p ->
  p_state p = RUNNING -> wp (timer SCHED_MLFQ i) (timer_post SCHED_MLFQ s i p) s.
Proof.
  intros Hinv Hl Hi Hrun. pose proof (lookup_lt_Some _ _ _ Hi) as Hlt. unfold timer. wp_steps.
  destruct (inc_pinfo_ticks_spec SCHED_MLFQ s i p Hinv Hl Hi) as (t & Ht & Hwp).
  eapply wp_mono; [exact Hwp|]. cbn beta. intros [] s1 (Hinv1 & Ht1 & Hsr1).
  assert (pinfo_tick p = set_p_ticks (<[Z.to_nat (p_queue p) := i32 (t + 1)]> (p_ticks p)) p) as Hpt
    by (unfold pinfo_tick; by rewrite (list_alter_insert _ _ _ _ Ht)).
  rewrite <- Hpt in Ht1. assert (ptable s1 !! i = Some (pinfo_tick p)) as Hi1
    by (rewrite Ht1; by apply list_lookup_insert_eq).
  assert (ptable_locked s1 = false) as Hl1 by (destruct Hsr1; congruence).
  unfold timer_post, timer_entry. wp_steps. exists (pinfo_tick p). split; [done|].
  destruct (_ >=? _); cbn [fst snd]; wp_steps.
  - eapply wp_mono; [by eapply punisher_spec|]. cbn beta. intros [] s2 (Hinv2 & Ht2 & Hsr2).
    assert (ptable_locked s2 = false) as Hl2 by (destruct Hsr2; congruence).
    wp_steps. eapply wp_mono; [eapply (yield_spec SCHED_MLFQ _ _ (set_p_punish 1 (pinfo_tick p))); [done|done| |done]|].
    { rewrite Ht2. apply list_lookup_insert_eq. by eapply lookup_lt_Some. }
    cbn beta. intros [] s3 (Hinv3 & _ & Ht3 & Hsr3). wp_steps. split; [done|]. split; [done|].
    split; [by rewrite Ht3, Ht2, Ht1, !list_insert_insert_eq|].
    pose proof (same_rest_trans _ _ _ Hsr1 Hsr2) as (? & ? & ? & ?).
    destruct Hsr3 as (? & ? & ? & ?). repeat split; cbn in *; congruence.
  - eapply wp_mono; [by eapply inc_timeslice_spec|]. cbn beta. intros [] s2 (Hinv2 & Ht2 & Hsr2).
    wp_steps. split; [done|]. split; [done|]. split; [by rewrite Ht2, Ht1, list_insert_insert_eq|].
    rewrite <- Hl. destruct s; by eapply same_rest_trans.
Qed.

Lemma timer_spec pol s i p :
  inv pol None s -> ptable_locked s = false -> ptable s !! i = Some p ->
  p_state p = RUNNING -> wp (timer pol i) (timer_post pol s i p) s.
Proof.
  intros Hinv Hl Hi Hrun.
  assert (forall pol', pol' = pol -> (pol' = SCHED_RR \/ pol' = SCHED_PBS) ->
    wp (do! yield i; ret true) (timer_post pol' s i p) s) as Hy.
  { intros pol' -> Hor. wp_steps. eapply wp_mono; [by eapply yield_spec|]. cbn beta.
    intros [] s' (? & ? & ? & ?). wp_steps. unfold timer_post. by destruct Hor as [-> | ->]. }
  destruct pol.
  - apply Hy; naive_solver.
  - unfold timer. wp_steps. split; [done|]. split; [done|]. cbn. rewrite list_insert_id by done.
    split; [done|]. by rewrite <- Hl.
  - apply Hy; naive_solver.
  - by apply timer_mlfq_spec.
Qed.
