(* ===== verification/KProc.v ===== *)
(** The process operations that also use memory, files and inodes.

    [ProcLaws] states what the rest of the kernel promises to the process
    component, in terms of the resources it hands out: [rok m r] says that [m]
    is the list of references held outside.  The specifications of
    [allocproc], [fork], [exit], [wait] and [growproc] then say where each
    reference goes: nothing is freed twice and nothing is lost. *)

From S2P Require Import Prelude CString ProcDefs Queue Proc Sched ProcInv SchedInv.
Import Proc.

(** * Resources *)

(** A page from [kalloc]; a page directory with the size of the user memory
    mapped by it; a reference to an open file; a reference to an in-memory
    inode; an open log transaction. *)
Inductive rsc : Type :=
| RPage (a : Z)
| RDir (d sz : Z)
| RFile (f : nat)
| RInode (i : nat)
| RTx.

Class ProcLaws (R : Type) `{!ProcOps R} : Type := {
  rok : list rsc -> R -> Prop;
  rok_perm m m' r : m ≡ₚ m' -> rok m r -> rok m' r;
  rok_page a m r : rok (RPage a :: m) r -> RPage a ∉ m;
  rok_dir d sz sz' m r : rok (RDir d sz :: m) r -> RDir d sz' ∉ m;
  kalloc_law m r : rok m r ->
    wp kalloc (fun a r' => rok (if a =? 0 then m else RPage a :: m) r') r;
  kfree_law a m r : rok (RPage a :: m) r -> wp (kfree a) (fun _ r' => rok m r') r;
  setupkvm_law m r : rok m r ->
    wp setupkvm (fun d r' => rok (if d =? 0 then m else RDir d 0 :: m) r') r;
  inituvm_law d m r : rok (RDir d 0 :: m) r ->
    wp (inituvm d) (fun _ r' => rok (RDir d 4096 :: m) r') r;
  allocuvm_law d old new m r : rok (RDir d old :: m) r ->
    wp (allocuvm d old new) (fun z r' => 0 <= z < 2 ^ 32 /\
      rok (RDir d (if z =? 0 then old else z) :: m) r') r;
  deallocuvm_law d old new m r : rok (RDir d old :: m) r ->
    wp (deallocuvm d old new) (fun z r' => z = (if new >=? old then old else new) /\
      rok (RDir d z :: m) r') r;
  copyuvm_law d sz m r : rok (RDir d sz :: m) r ->
    wp (copyuvm d sz) (fun d' r' =>
      rok (if d' =? 0 then RDir d sz :: m else RDir d' sz :: RDir d sz :: m) r') r;
  freevm_law d sz m r : rok (RDir d sz :: m) r -> wp (freevm d) (fun _ r' => rok m r') r;
  namei_law p m r : rok m r ->
    wp (namei p) (fun o r' => rok (match o with Some i => RInode i :: m | None => m end) r') r;
  idup_law i m r : rok (RInode i :: m) r ->
    wp (idup i) (fun _ r' => rok (RInode i :: RInode i :: m) r') r;
  iput_law i m r : rok (RTx :: RInode i :: m) r -> wp (iput i) (fun _ r' => rok (RTx :: m) r') r;
  filedup_law f m r : rok (RFile f :: m) r ->
    wp (filedup f) (fun _ r' => rok (RFile f :: RFile f :: m) r') r;
  fileclose_law f m r : rok (RFile f :: m) r -> wp (fileclose f) (fun _ r' => rok m r') r;
  begin_op_law m r : rok m r -> wp begin_op (fun _ r' => rok (RTx :: m) r') r;
  end_op_law m r : rok (RTx :: m) r -> wp end_op (fun _ r' => rok m r') r;
  drain_law m r : rok m r -> rok m (drain r).2
}.

(** * What a process holds *)

Inductive pclass : Type := CFree | CEmbryo | CLive | CZombie.
Definition class_of (st : procstate) : pclass :=
  match st with
  | UNUSED => CFree
  | EMBRYO => CEmbryo
  | SLEEPING | RUNNABLE | RUNNING => CLive
  | ZOMBIE => CZombie
  end.

(** The part of a process that scheduling does not touch. *)
Record skel : Type := mkskel {
  sk_class : pclass;
  sk_parent : option nat;
  sk_ofile : list (option nat);
  sk_cwd : option nat;
  sk_pid : Z;
  sk_kstack : Z;
  sk_pgdir : Z;
  sk_sz : Z
}.
Definition skel_of (p : proc) : skel :=
  mkskel (class_of (p_state p)) (p_parent p) (p_ofile p) (p_cwd p) (p_pid p)
    (p_kstack p) (p_pgdir p) (p_sz p).

Definition files (l : list (option nat)) : list rsc := omap (fmap RFile) l.
Definition cwds (o : option nat) : list rsc :=
  match o with Some i => [RInode i] | None => [] end.
Definition mem_rsc (k : skel) : list rsc :=
  match sk_class k with
  | CFree => []
  | _ => [RPage (sk_kstack k); RDir (sk_pgdir k) (sk_sz k)]
  end.
Definition holdings (k : skel) : list rsc :=
  mem_rsc k ++ files (sk_ofile k) ++ cwds (sk_cwd k).

(** Everything the processes hold, and what is held when entry [i] is left
    out. *)
Definition owned (tbl : list proc) : list rsc := mjoin (holdings ∘ skel_of <$> tbl).
Definition others (i : nat) (tbl : list proc) : list rsc :=
  mjoin (delete i (holdings ∘ skel_of <$> tbl)).

Definition same_skel (tbl tbl' : list proc) : Prop := skel_of <$> tbl' = skel_of <$> tbl.

Lemma same_skel_owned tbl tbl' : same_skel tbl tbl' -> owned tbl' = owned tbl.
Proof. unfold same_skel, owned. intros H. by rewrite !list_fmap_compose, H. Qed.
Lemma same_skel_others i tbl tbl' : same_skel tbl tbl' -> others i tbl' = others i tbl.
Proof. unfold same_skel, others. intros H. by rewrite !list_fmap_compose, H. Qed.
Lemma same_skel_lookup tbl tbl' i p :
  same_skel tbl tbl' -> tbl !! i = Some p ->
  exists p', tbl' !! i = Some p' /\ skel_of p' = skel_of p.
Proof.
  intros H Hi. assert ((skel_of <$> tbl') !! i = Some (skel_of p)) as H'
    by (by rewrite H, list_lookup_fmap, Hi).
  rewrite list_lookup_fmap in H'. by apply fmap_Some in H' as (p' & -> & ->); eauto.
Qed.
Lemma same_skel_insert tbl i p p' :
  tbl !! i = Some p -> skel_of p' = skel_of p -> same_skel tbl (<[i := p']> tbl).
Proof.
  intros Hi Hk. unfold same_skel. rewrite list_fmap_insert, Hk, list_insert_id; [done|].
  by rewrite list_lookup_fmap, Hi.
Qed.
Lemma same_skel_fmap tbl f : (forall p, skel_of (f p) = skel_of p) -> same_skel tbl (f <$> tbl).
Proof. intros Hf. unfold same_skel. rewrite <- list_fmap_compose. apply list_fmap_ext. intros _ p _. apply Hf. Qed.
Lemma same_skel_refl tbl : same_skel tbl tbl.
Proof. done. Qed.
Lemma same_skel_trans t1 t2 t3 : same_skel t1 t2 -> same_skel t2 t3 -> same_skel t1 t3.
Proof. unfold same_skel. congruence. Qed.
#[export] Hint Resolve same_skel_refl same_skel_trans : kernel.

Lemma owned_lookup tbl i p :
  tbl !! i = Some p -> owned tbl ≡ₚ holdings (skel_of p) ++ others i tbl.
Proof.
  intros Hi. apply mjoin_lookup_perm. by rewrite list_lookup_fmap, Hi.
Qed.
Lemma others_insert tbl i p : others i (<[i := p]> tbl) = others i tbl.
Proof.
  unfold others. f_equal. rewrite list_fmap_insert. apply list_eq. intros j.
  destruct (decide (j < i)%nat).
  - rewrite !list_lookup_delete_lt by done. by rewrite list_lookup_insert_ne by lia.
  - rewrite !list_lookup_delete_ge by lia. by rewrite list_lookup_insert_ne by lia.
Qed.
Lemma owned_insert tbl i p :
  (i < length tbl)%nat -> owned (<[i := p]> tbl) ≡ₚ holdings (skel_of p) ++ others i tbl.
Proof.
  intros Hi. rewrite (owned_lookup _ i p), others_insert; [done|]. by apply list_lookup_insert_eq.
Qed.

(** * The operations *)

Section kprocs.
Context {R : Type} `{!ProcOps R} `{!ProcLaws R}.
Implicit Types (k : kst R) (r : R) (p : proc).

Lemma wp_on_ps {A} (m : M pstate A) Q k :
  wp (on_ps m) Q k <-> wp m (fun a s' => Q a (mkkst s' (k_rs k))) (k_ps k).
Proof. unfold on_ps. by rewrite wp_zoom. Qed.
Lemma wp_on_rs {A} (m : M R A) Q k :
  wp (on_rs m) Q k <-> wp m (fun a r' => Q a (mkkst (k_ps k) r')) (k_rs k).
Proof. unfold on_rs. by rewrite wp_zoom. Qed.
Lemma wp_setp i f Q k :
  wp (setp i f) Q k <->
  is_Some (ptable (k_ps k) !! i) /\ Q tt (mkkst (upd_proc i f (k_ps k)) (k_rs k)).
Proof. unfold setp. by rewrite wp_on_ps, wp_set_proc. Qed.
Lemma wp_getp i Q k :
  wp (getp i) Q k <-> exists p, ptable (k_ps k) !! i = Some p /\ Q p k.
Proof. unfold getp. rewrite wp_on_ps, wp_get_proc. by destruct k. Qed.
Hint Rewrite @wp_on_ps @wp_on_rs wp_setp wp_getp : wp.

(** The state between two calls: the invariant, the lock free, and the
    resources [m] outside. *)
Definition kinv (pol : policy) (m : list rsc) (k : kst R) : Prop :=
  inv pol None (k_ps k) /\ ptable_locked (k_ps k) = false /\ rok m (k_rs k).

Lemma kinv_perm pol m m' k : m ≡ₚ m' -> kinv pol m k -> kinv pol m' k.
Proof. intros Hp (? & ? & ?). split; [done|]. split; [done|]. by eapply rok_perm. Qed.

Lemma wakes_spec pol cs s :
  inv pol None s -> ptable_locked s = false ->
  wp (for_each cs (fun c => wakeup pol c)) (fun _ s' => inv pol None s' /\
    same_rest s s' /\ exists f, ptable s' = f <$> ptable s /\
      forall p, f p = p \/ (p_state p = SLEEPING /\ f p = woken pol (ticks s) p)) s.
Proof.
  revert s. induction cs as [|c cs IH]; intros s Hinv Hl; cbn [for_each]; wp_steps.
  - split; [done|]. split; [done|]. exists id. rewrite list_fmap_id. naive_solver.
  - eapply wp_mono; [by apply wakeup_spec|]. intros [] s1 (Hinv1 & Ht1 & Hsr1).
    eapply wp_mono; [apply IH; [done|]|].
    { destruct Hsr1. congruence. }
    intros [] s2 (Hinv2 & Hsr2 & f & Ht2 & Hf). split; [done|]. split; [eauto with kernel|].
    exists (f ∘ wake_if pol c (ticks s)). split; [by rewrite Ht2, Ht1, list_fmap_compose|].
    intros p. cbn. replace (ticks s1) with (ticks s) in Hf by (symmetry; apply Hsr1).
    unfold wake_if. destruct (_ && _) eqn:E; [|done]. zb. right. split; [done|].
    destruct (Hf (woken pol (ticks s) p)) as [|[Hs _]]; [done|]. by destruct pol.
Qed.

(** What a wakeup may do to a process. *)
Definition wakes (p p' : proc) : Prop :=
  p' = p \/ (p_state p = SLEEPING /\ p_state p' = RUNNABLE /\ p_chan p' = p_chan p /\
             skel_of p' = skel_of p).
Definition woke (tbl tbl' : list proc) : Prop := Forall2 wakes tbl tbl'.

Lemma wakes_refl p : wakes p p.
Proof. by left. Qed.
Lemma wakes_trans p1 p2 p3 : wakes p1 p2 -> wakes p2 p3 -> wakes p1 p3.
Proof.
  intros [->|H1]; [done|]. intros [->|H2]; [by right|]. destruct H1 as (_ & ? & _), H2 as (? & _).
  congruence.
Qed.

Lemma woken_skel pol t p : p_state p = SLEEPING -> skel_of (woken pol t p) = skel_of p.
Proof. intros Hs. unfold skel_of. destruct pol; cbn; by rewrite Hs. Qed.

Lemma wake_if_skel pol c t p : skel_of (wake_if pol c t p) = skel_of p.
Proof. unfold wake_if. destruct (_ && _) eqn:E; [|done]. zb. by apply woken_skel. Qed.

(** A call of another component: the process table only changes by wakeups, so
    a process that is not asleep is left alone. *)
Lemma call_spec {A} pol (c : M R A) (P : A -> Prop) (post : A -> list rsc) k :
  inv pol None (k_ps k) -> ptable_locked (k_ps k) = false ->
  wp c (fun a r' => P a /\ rok (post a) r') (k_rs k) ->
  wp (call pol c) (fun a k' => P a /\ kinv pol (post a) k' /\ same_rest (k_ps k) (k_ps k') /\
    woke (ptable (k_ps k)) (ptable (k_ps k'))) k.
Proof.
  intros Hinv Hl Hc. unfold call. wp_steps. eapply wp_mono; [exact Hc|]. intros a r' [HP Hr].
  wp_steps. unfold wp at 1. cbn [k_rs]. destruct (drain r') as [cs r2] eqn:Hd.
  pose proof (drain_law _ _ Hr) as Hr2. rewrite Hd in Hr2. cbn in Hr2.
  assert (forall s, inv pol None s -> ptable_locked s = false ->
    wp (for_each cs (fun c => on_ps (wakeup pol c))) (fun _ k' => k_rs k' = r2 /\
      inv pol None (k_ps k') /\ same_rest s (k_ps k') /\ exists f,
      ptable (k_ps k') = f <$> ptable s /\
      forall p, f p = p \/ (p_state p = SLEEPING /\ f p = woken pol (ticks s) p)) (mkkst s r2)) as Hw.
  { intros s Hs Hls. pose proof (wakes_spec pol cs s Hs Hls) as H.
    assert (forall (Q : pstate -> Prop) cs s, wp (for_each cs (fun c => wakeup pol c)) (fun _ => Q) s ->
      wp (for_each cs (fun c => on_ps (wakeup pol c))) (fun _ k' => k_rs k' = r2 /\ Q (k_ps k'))
        (mkkst s r2)) as Hlift.
    { clear. intros Q cs. induction cs as [|c cs IH]; intros s; cbn [for_each]; wp_steps; [done|].
      intros H. eapply wp_mono; [exact H|]. intros [] s'. apply IH. }
    by apply (Hlift _ _ _ H). }
  cbn [k_ps]. wp_steps. eapply wp_mono; [by apply Hw|].
  intros [] k' (<- & Hinv' & Hsr & f & Ht & Hf). wp_steps.
  split; [done|]. split; [split; [done|]; split; [|done]|]. { destruct Hsr. congruence. }
  split; [done|]. unfold woke. rewrite Ht. apply Forall2_fmap_r, Forall_Forall2_diag, Forall_true.
  intros p. unfold compose. destruct (Hf p) as [->|[Hs ->]]; [by left|]. right. split; [done|].
  rewrite woken_skel by done. by destruct pol.
Qed.

(** ** Writing one entry of the table *)

Lemma upd_set s i q f :
  ptable s !! i = Some q -> upd_proc i f s = set_ptable (<[i := f q]> (ptable s)) s.
Proof. intros Hi. unfold upd_proc. by rewrite (list_alter_insert _ _ _ _ Hi). Qed.

Lemma upd_set_again s i q f tbl :
  (i < length tbl)%nat ->
  upd_proc i f (set_ptable (<[i := q]> tbl) s) = set_ptable (<[i := f q]> tbl) s.
Proof.
  intros Hi. rewrite (upd_set _ i q) by (by apply list_lookup_insert_eq). cbn.
  by rewrite list_insert_insert_eq.
Qed.

Lemma slot_is_Some s i (q : proc) tbl :
  (i < length tbl)%nat -> is_Some (ptable (set_ptable (<[i := q]> tbl) s) !! i).
Proof. intros Hi. exists q. by apply list_lookup_insert_eq. Qed.

Lemma inv_slot pol s i q q' :
  inv pol None s -> ptable s !! i = Some q -> p_state q <> RUNNABLE ->
  proc_ok q' -> p_state q' <> RUNNABLE -> inv pol None (set_ptable (<[i := q']> (ptable s)) s).
Proof.
  intros Hinv Hi Hs Hok Hs'. rewrite <- (upd_set s i q (fun _ => q')) by done.
  by eapply inv_upd_other.
Qed.

(** ** [allocproc] *)

Definition new_proc (s : pstate) (ks : Z) (p : proc) : proc :=
  set_p_context (set_c_eip forkret_addr context0)
    (set_p_kstack ks (alloc_init (ticks s) (nextpid s) p)).

Lemma idle_ok q q' :
  proc_ok q -> ~ active (p_state q') -> p_priority q' = p_priority q -> p_queue q' = p_queue q ->
  p_ticks q' = p_ticks q -> p_ofile q' = p_ofile q -> p_name q' = p_name q -> proc_ok q'.
Proof. intros [] Hst Hpr Hqu Htk Hof Hnm. split; [done|by rewrite ?Hpr, ?Hqu, ?Htk, ?Hof, ?Hnm..]. Qed.

Lemma new_proc_ok s ks p : proc_ok p -> proc_ok (new_proc s ks p).
Proof.
  intros Hok. eapply idle_ok; [apply (alloc_init_ok (ticks s) (nextpid s) _ Hok)|..];
    unfold active, new_proc, alloc_init; cbn; naive_solver.
Qed.

(** A free slot that was tried and given back: only its process id and memory
    fields changed. *)
Definition free_again (p p' : proc) : Prop :=
  p_state p = UNUSED /\ p_state p' = UNUSED /\ p_parent p' = p_parent p /\
  p_ofile p' = p_ofile p /\ p_cwd p' = p_cwd p /\ p_killed p' = p_killed p /\
  p_chan p' = p_chan p.
Definition tried (tbl tbl' : list proc) : Prop :=
  tbl' = tbl \/ exists i p p', tbl !! i = Some p /\ free_again p p' /\ tbl' = <[i := p']> tbl.

Lemma tried_owned tbl tbl' : tried tbl tbl' -> owned tbl' ≡ₚ owned tbl.
Proof.
  intros [->|(i & p & p' & Hi & (Hs & Hs' & Hpar & Hof & Hcwd & _) & ->)]; [done|].
  rewrite owned_insert by (by eapply lookup_lt_Some). rewrite (owned_lookup _ _ _ Hi).
  unfold holdings, mem_rsc, skel_of. cbn. by rewrite Hs, Hs', Hof, Hcwd.
Qed.

(** [allocproc], given what [kalloc] does. *)
Lemma allocproc_gen pol (Q : Z -> R -> Prop) k :
  inv pol None (k_ps k) -> ptable_locked (k_ps k) = false -> wp kalloc Q (k_rs k) ->
  wp allocproc (fun o k' => inv pol None (k_ps k') /\ ptable_locked (k_ps k') = false /\
    initproc (k_ps k') = initproc (k_ps k) /\ ticks (k_ps k') = ticks (k_ps k) /\
    match o with
    | None =>
        ((forall p, p ∈ ptable (k_ps k) -> p_state p <> UNUSED) /\ k' = k) \/
        (tried (ptable (k_ps k)) (ptable (k_ps k')) /\ Q 0 (k_rs k') /\
         nextpid (k_ps k') = i32 (nextpid (k_ps k) + 1))
    | Some i => exists p ks, ptable (k_ps k) !! i = Some p /\ p_state p = UNUSED /\
        ks <> 0 /\ ptable (k_ps k') = <[i := new_proc (k_ps k) ks p]> (ptable (k_ps k)) /\
        nextpid (k_ps k') = i32 (nextpid (k_ps k) + 1) /\ Q ks (k_rs k')
    end) k.
Proof.
  intros Hinv Hl HQ. unfold allocproc. wp_steps.
  eapply wp_mono; [by apply alloc_slot_spec|].
  intros [i|] s1 (Hinv1 & Hl1 & Hip & Htk & Hm); wp_steps.
  2:{ destruct Hm as [Hno ->]. do 4 (split; [done|]). left. by destruct k. }
  destruct Hm as (p & Hi & Hst & Ht & Hnp). cbn [k_rs k_ps].
  eapply wp_mono; [exact HQ|]. cbn beta. intros ks r' Hr'. wp_steps. cbn [k_ps k_rs].
  set (q := alloc_init (ticks (k_ps k)) (nextpid (k_ps k)) p) in *.
  pose proof (lookup_lt_Some _ _ _ Hi) as Hlt.
  assert (ptable s1 !! i = Some q) as Hi1 by (rewrite Ht; by apply list_lookup_insert_eq).
  pose proof (pv_ok _ (proj1 Hinv1) _ _ Hi1) as Hok.
  split; [by eexists|]. rewrite (upd_set _ _ _ _ Hi1).
  destruct (Z.eqb_spec ks 0) as [->|Hks]; wp_steps; cbn [k_ps k_rs];
    (split; [apply slot_is_Some; by eapply lookup_lt_Some|]);
    rewrite upd_set_again by (by eapply lookup_lt_Some).
  - split; [by eapply inv_slot; [done|done|done|solve_ok|done]|]. do 3 (split; [done|]). right.
    split; [|by split]. right. exists i, p, (set_p_state UNUSED (set_p_kstack 0 q)).
    split; [done|]. split; [done|]. cbn [ptable set_ptable].
    rewrite Ht. apply list_insert_insert_eq.
  - split.
    { eapply inv_slot; [done|done|done| |done]. apply new_proc_ok. by apply (pv_ok _ (proj1 Hinv) i). }
    do 3 (split; [done|]). exists p, ks. do 3 (split; [done|]). split; [|by split].
    cbn [ptable set_ptable]. unfold new_proc. fold q. rewrite Ht. apply list_insert_insert_eq.
Qed.

Lemma allocproc_spec pol m k :
  kinv pol m k ->
  wp allocproc (fun o k' => inv pol None (k_ps k') /\ ptable_locked (k_ps k') = false /\
    initproc (k_ps k') = initproc (k_ps k) /\ ticks (k_ps k') = ticks (k_ps k) /\
    match o with
    | None => tried (ptable (k_ps k)) (ptable (k_ps k')) /\ rok m (k_rs k') /\
        (nextpid (k_ps k') = nextpid (k_ps k) \/
         nextpid (k_ps k') = i32 (nextpid (k_ps k) + 1))
    | Some i => exists p ks, ptable (k_ps k) !! i = Some p /\ p_state p = UNUSED /\
        ks <> 0 /\ ptable (k_ps k') = <[i := new_proc (k_ps k) ks p]> (ptable (k_ps k)) /\
        nextpid (k_ps k') = i32 (nextpid (k_ps k) + 1) /\ rok (RPage ks :: m) (k_rs k')
    end) k.
Proof.
  intros (Hinv & Hl & Hr).
  eapply wp_mono; [apply (allocproc_gen pol _ k Hinv Hl (kalloc_law m _ Hr))|].
  cbn beta. intros [i|] k' (? & ? & ? & ? & Hm); do 4 (split; [done|]).
  - destruct Hm as (p & ks & ? & ? & Hks & ? & ? & Hr'). exists p, ks.
    rewrite (proj2 (Z.eqb_neq _ _) Hks) in Hr'. done.
  - destruct Hm as [[_ ->]|(Htr & Hr' & Hnp)].
    + split; [by left|]. split; [done|]. by left.
    + split; [done|]. split; [done|]. by right.
Qed.

(** ** [fork] *)

Lemma rok_in x m r : x ∈ m -> rok m r -> exists m', m ≡ₚ x :: m' /\ rok (x :: m') r.
Proof.
  intros [m' Hm]%elem_of_Permutation Hr. exists m'. split; [done|]. by eapply rok_perm.
Qed.

Lemma filedup_in f m r :
  RFile f ∈ m -> rok m r -> wp (filedup f) (fun _ r' => rok (RFile f :: m) r') r.
Proof.
  intros Hf Hr. destruct (rok_in _ _ _ Hf Hr) as (m' & Hm & Hr').
  eapply wp_mono; [by apply filedup_law|]. cbn beta. intros [] r' H.
  eapply rok_perm; [|exact H]. by rewrite Hm.
Qed.

Lemma idup_in i m r :
  RInode i ∈ m -> rok m r -> wp (idup i) (fun _ r' => rok (RInode i :: m) r') r.
Proof.
  intros Hi Hr. destruct (rok_in _ _ _ Hi Hr) as (m' & Hm & Hr').
  eapply wp_mono; [by apply idup_law|]. cbn beta. intros [] r' H.
  eapply rok_perm; [|exact H]. by rewrite Hm.
Qed.

Lemma copyuvm_in d sz m r :
  RDir d sz ∈ m -> rok m r ->
  wp (copyuvm d sz) (fun d' r' => rok (if d' =? 0 then m else RDir d' sz :: m) r') r.
Proof.
  intros Hi Hr. destruct (rok_in _ _ _ Hi Hr) as (m' & Hm & Hr').
  eapply wp_mono; [by apply copyuvm_law|]. cbn beta. intros d' r' H.
  eapply rok_perm; [|exact H]. by destruct (d' =? 0); rewrite Hm.
Qed.

Lemma files_app l1 l2 : files (l1 ++ l2) = files l1 ++ files l2.
Proof. apply omap_app. Qed.

Lemma elem_of_files f l : RFile f ∈ files l <-> Some f ∈ l.
Proof.
  unfold files. rewrite list_elem_of_omap. split.
  - intros (o & Ho & (g & -> & [= ->])%fmap_Some). done.
  - intros Hf. by exists (Some f).
Qed.

Lemma take_drop_insert {A} (l1 l2 : list A) j x y :
  l1 !! j = Some x -> l2 !! j = Some y -> length l1 = length l2 ->
  <[j := x]> (take j l1 ++ drop j l2) = take (S j) l1 ++ drop (S j) l2.
Proof.
  intros H1 H2 Hlen. pose proof (lookup_lt_Some _ _ _ H1). rewrite (take_S_r _ _ _ H1).
  rewrite (drop_S _ _ _ H2), insert_app_r_alt by (rewrite length_take; lia).
  rewrite length_take, Nat.min_l, Nat.sub_diag by lia. cbn. by rewrite <- app_assoc.
Qed.

Lemma dup_files_spec cur np p q m k :
  ptable (k_ps k) !! cur = Some p -> ptable (k_ps k) !! np = Some q -> cur <> np ->
  length (p_ofile p) = NOFILE -> p_ofile q = replicate NOFILE None ->
  (forall f, Some f ∈ p_ofile p -> RFile f ∈ m) -> rok m (k_rs k) ->
  wp (dup_files cur np) (fun _ k' =>
    k_ps k' = set_ptable (<[np := set_p_ofile (p_ofile p) q]> (ptable (k_ps k))) (k_ps k) /\
    rok (files (p_ofile p) ++ m) (k_rs k')) k.
Proof.
  intros Hcur Hnp Hne Hlp Hlq Hin Hr. pose proof (lookup_lt_Some _ _ _ Hnp) as Hlt.
  assert (length (p_ofile q) = NOFILE) as Hlq' by (rewrite Hlq; apply length_replicate).
  eapply wp_mono.
  - apply (wp_for_seq (fun j k' =>
      k_ps k' = set_ptable (<[np := set_p_ofile (take j (p_ofile p) ++ drop j (p_ofile q)) q]>
        (ptable (k_ps k))) (k_ps k) /\
      rok (files (take j (p_ofile p)) ++ m) (k_rs k'))).
    + rewrite take_0, drop_0. cbn [app]. destruct k as [s r0]; cbn in *. split; [|done].
      replace (set_p_ofile (p_ofile q) q) with q by (by destruct q).
      rewrite list_insert_id by done. by destruct s.
    + intros j k1 Hj (Hs & Hr1).
      destruct (lookup_lt_is_Some_2 (p_ofile p) j) as [o Ho]; [lia|].
      assert (p_ofile q !! j = Some None) as Hqo by (rewrite Hlq; apply lookup_replicate_2; lia).
      wp_steps. exists p. split; [by rewrite Hs; cbn; rewrite list_lookup_insert_ne|].
      wp_steps. exists o. split; [done|]. destruct o as [f|].
      * wp_steps. eapply wp_mono; [apply filedup_in; [|exact Hr1]|].
        { apply elem_of_app. right. apply Hin. by eapply list_elem_of_lookup_2. }
        cbn beta. intros [] r' Hr'. wp_steps. cbn [k_ps k_rs]. rewrite Hs.
        split; [by apply slot_is_Some|].
        rewrite upd_set_again by done. cbn [p_ofile set_p_ofile].
        rewrite (take_drop_insert _ _ _ _ _ Ho Hqo) by lia. split; [done|].
        eapply rok_perm; [|exact Hr']. rewrite (take_S_r _ _ _ Ho), files_app. cbn.
        solve_Permutation.
      * wp_steps. rewrite <- (take_drop_insert _ _ _ _ _ Ho Hqo) by lia. split.
        { rewrite Hs. f_equal. f_equal. f_equal. symmetry. apply list_insert_id.
          rewrite lookup_app_r by (rewrite length_take; lia).
          by rewrite length_take, lookup_drop, Nat.min_l, Nat.sub_diag, Nat.add_0_r by lia. }
        by rewrite (take_S_r _ _ _ Ho), files_app, app_nil_r.
  - cbn beta. intros [] k' (Hs & Hr'). rewrite take_ge, drop_ge, app_nil_r in Hs by lia.
    rewrite take_ge in Hr' by lia. done.
Qed.
(** The child of [p], in a slot that held [q]. *)
Record forked (s : pstate) (cur : nat) (p q c : proc) (pg ks : Z) : Prop := {
  fk_state : p_state c = RUNNABLE;
  fk_pid : p_pid c = nextpid s;
  fk_parent : p_parent c = Some cur;
  fk_sz : p_sz c = p_sz p;
  fk_pgdir : p_pgdir c = pg;
  fk_kstack : p_kstack c = ks;
  fk_tf : p_tf c = set_tf_eax 0 (p_tf p);
  fk_ofile : p_ofile c = p_ofile p;
  fk_cwd : p_cwd c = p_cwd p;
  fk_name : p_name c = lsafestrcpy 15 (p_name p) (p_name q);
  fk_killed : p_killed c = p_killed q;
  fk_chan : p_chan c = p_chan q;
  fk_context : p_context c = set_c_eip forkret_addr context0;
  fk_start : p_start_time c = i32 (ticks s)
}.

(** What an unused slot of the table looks like. *)
Definition free_slots (tbl : list proc) : Prop :=
  forall i q, tbl !! i = Some q -> p_state q = UNUSED ->
    p_parent q = None /\ p_ofile q = replicate NOFILE None /\ p_cwd q = None.

Definition fork_ok (cur : nat) (p : proc) (s s' : pstate) (z : Z) : Prop :=
  exists np q c pg ks, ptable s !! np = Some q /\ p_state q = UNUSED /\
    pg <> 0 /\ ks <> 0 /\ forked s cur p q c pg ks /\
    ptable s' = <[np := c]> (ptable s) /\ z = nextpid s /\ nextpid s' = i32 (nextpid s + 1).
Definition fork_failed (s s' : pstate) (z : Z) : Prop :=
  z = -1 /\ tried (ptable s) (ptable s') /\
  (nextpid s' = nextpid s \/ nextpid s' = i32 (nextpid s + 1)).

Lemma files_none n : files (replicate n None) = [].
Proof. induction n; cbn; [done|]. apply IHn. Qed.

Lemma holdings_free q :
  p_state q = UNUSED -> p_ofile q = replicate NOFILE None -> p_cwd q = None ->
  holdings (skel_of q) = [].
Proof.
  intros Hs Hof Hcwd. unfold holdings, mem_rsc, skel_of. cbn.
  by rewrite Hs, Hof, Hcwd, files_none.
Qed.
(** The second half of [fork], once the child has its memory. *)
Definition fork_child (pol : policy) (cur np : nat) (p : proc) : M (kst R) Z :=
  do! setp np (set_p_sz (p_sz p));
  do! setp np (set_p_parent (Some cur));
  do! setp np (set_p_tf (set_tf_eax 0 (p_tf p)));
  do! dup_files cur np;
  let! cwd := deref (p_cwd p) in
  do! on_rs (idup cwd);
  do! setp np (set_p_cwd (Some cwd));
  do! set_name np (p_name p);
  let! q := getp np in
  do! on_ps (publish pol np);
  ret (p_pid q).

Definition child_of (cur : nat) (p q : proc) : proc :=
  set_p_state RUNNABLE (set_p_name (lsafestrcpy 15 (p_name p) (p_name q))
    (set_p_cwd (p_cwd p) (set_p_ofile (p_ofile p)
      (set_p_tf (set_tf_eax 0 (p_tf p)) (set_p_parent (Some cur) (set_p_sz (p_sz p) q)))))).

Lemma fork_child_spec pol cur np p q cwd m k :
  inv pol None (k_ps k) -> ptable_locked (k_ps k) = false ->
  ptable (k_ps k) !! cur = Some p -> p_state p = RUNNING -> cur <> np ->
  ptable (k_ps k) !! np = Some q -> p_state q = EMBRYO -> p_queue q = 0 -> has_mem q ->
  p_ofile q = replicate NOFILE None -> p_cwd p = Some cwd ->
  (forall f, Some f ∈ p_ofile p -> RFile f ∈ m) -> RInode cwd ∈ m -> rok m (k_rs k) ->
  wp (fork_child pol cur np p) (fun z k' => z = p_pid q /\
    kinv pol (RInode cwd :: files (p_ofile p) ++ m) k' /\ same_rest (k_ps k) (k_ps k') /\
    ptable (k_ps k') = <[np := child_of cur p q]> (ptable (k_ps k))) k.
Proof.
  intros Hinv Hl Hcur Hrun Hne Hnp Hst Hqu [Hks Hpg] Hof Hcwd Hfiles Hcwdin Hr.
  pose proof (lookup_lt_Some _ _ _ Hnp) as Hlt. unfold fork_child.
  pose proof (pv_ok _ (proj1 Hinv) _ _ Hcur) as Hokp. pose proof (pv_ok _ (proj1 Hinv) _ _ Hnp) as Hokq.
  wp_steps. split; [by eexists|]. rewrite (upd_set _ _ _ _ Hnp). cbn [k_ps k_rs].
  split; [by apply slot_is_Some|]. rewrite upd_set_again by done.
  split; [by apply slot_is_Some|]. rewrite upd_set_again by done.
  set (q1 := set_p_tf _ _).
  eapply wp_mono; [apply (dup_files_spec cur np p q1 m)|]; cbn [k_ps k_rs ptable set_ptable].
  { by rewrite list_lookup_insert_ne. }
  { by apply list_lookup_insert_eq. }
  { done. }
  { apply (po_ofile _ Hokp). }
  { done. }
  { done. }
  { done. }
  cbn beta. intros [] [s1 r1]. cbn [k_ps k_rs]. intros [Hs1 Hr1].
  rewrite list_insert_insert_eq in Hs1. wp_steps. exists cwd. split; [done|].
  wp_steps. cbn [k_ps k_rs]. eapply wp_mono; [apply idup_in; [|exact Hr1]|]. { apply elem_of_app. by right. }
  cbn beta. intros [] r2 Hr2. unfold set_name. wp_steps. cbn [k_ps k_rs]. rewrite Hs1.
  assert (forall s q', set_ptable (<[np := q']> (ptable (k_ps k))) (set_ptable s (k_ps k)) =
    set_ptable (<[np := q']> (ptable (k_ps k))) (k_ps k)) as Hss by done.
  rewrite !Hss. split; [by apply slot_is_Some|]. rewrite upd_set_again by done.
  split; [by apply slot_is_Some|]. rewrite upd_set_again by done.
  set (q2 := set_p_name _ _). exists q2. split; [by apply list_lookup_insert_eq|].
  assert (proc_ok q2) as Hok2.
  { destruct Hokp, Hokq. constructor; subst q2 q1; cbn; try done.
    rewrite length_lsafestrcpy; lia. }
  wp_steps. cbn [k_ps k_rs].
  eapply wp_mono; [apply (publish_spec pol _ np q2)|]; cbn [k_ps k_rs ptable set_ptable ptable_locked].
  { eapply inv_slot; [done|done|by rewrite Hst|done|]. subst q2 q1. cbn. by rewrite Hst. }
  { done. }
  { by apply list_lookup_insert_eq. }
  { subst q2 q1. cbn. by rewrite Hst. }
  { done. }
  { done. }
  cbn beta. intros [] s3 (Hinv3 & Ht3 & Hsr3). wp_steps. cbn [k_ps k_rs].
  split; [done|]. split.
  { split; [done|]. split; [|done]. exact (eq_trans (proj1 Hsr3) Hl). }
  split; [done|]. rewrite Ht3, list_insert_insert_eq. unfold child_of. by rewrite Hcwd.
Qed.
Lemma tried_insert tbl i q q' : tbl !! i = Some q -> free_again q q' -> tried tbl (<[i := q']> tbl).
Proof. intros Hi Hf. right. by exists i, q, q'. Qed.

Lemma holdings_live p :
  p_state p <> UNUSED -> holdings (skel_of p) =
    RPage (p_kstack p) :: RDir (p_pgdir p) (p_sz p) :: files (p_ofile p) ++ cwds (p_cwd p).
Proof. intros Hs. unfold holdings, mem_rsc, skel_of. cbn. by destruct (p_state p). Qed.

Lemma owned_in tbl i p x : tbl !! i = Some p -> x ∈ holdings (skel_of p) -> x ∈ owned tbl.
Proof. intros Hi Hx. rewrite (owned_lookup _ _ _ Hi). apply elem_of_app. by left. Qed.

Lemma fork_spec pol cur p cwd k :
  kinv pol (owned (ptable (k_ps k))) k -> free_slots (ptable (k_ps k)) ->
  ptable (k_ps k) !! cur = Some p -> p_state p = RUNNING -> p_cwd p = Some cwd ->
  wp (fork pol cur) (fun z k' => kinv pol (owned (ptable (k_ps k'))) k' /\
    initproc (k_ps k') = initproc (k_ps k) /\ ticks (k_ps k') = ticks (k_ps k) /\
    (fork_failed (k_ps k) (k_ps k') z \/ fork_ok cur p (k_ps k) (k_ps k') z)) k.
Proof.
  intros Hk Hfree Hcur Hrun Hcwd. set (tbl := ptable (k_ps k)) in *.
  assert (forall x, x ∈ holdings (skel_of p) -> x ∈ owned tbl) as Hin by (intros; by eapply owned_in).
  rewrite holdings_live in Hin by congruence.
  unfold fork. wp_steps. eapply wp_mono; [by apply allocproc_spec|]. cbn beta.
  intros [np|] [s1 r1]; cbn [k_ps k_rs]; intros (Hinv1 & Hl1 & Hip1 & Htk1 & Hm).
  2:{ destruct Hm as (Htr & Hr & Hnp). wp_steps. split.
      { split; [done|]. split; [done|]. eapply rok_perm; [by rewrite (tried_owned _ _ Htr)|done]. }
      split; [done|]. split; [done|]. left. done. }
  destruct Hm as (q & ks & Hnp & Hqs & Hks & Ht1 & Hnp1 & Hr1). fold tbl in Hnp, Ht1.
  destruct (Hfree _ _ Hnp Hqs) as (Hqpar & Hqof & Hqcwd).
  pose proof (lookup_lt_Some _ _ _ Hnp) as Hlt. assert (cur <> np) as Hne by congruence.
  set (q1 := new_proc (k_ps k) ks q) in *.
  assert (ptable s1 !! np = Some q1) as Hnp' by (rewrite Ht1; by apply list_lookup_insert_eq).
  assert (proc_ok q1) as Hok1 by (by apply (pv_ok _ (proj1 Hinv1) np)).
  assert (ptable s1 !! cur = Some p) as Hcur1 by (rewrite Ht1; by rewrite list_lookup_insert_ne).
  wp_steps. exists p. split; [done|]. wp_steps. cbn [k_ps k_rs].
  eapply wp_mono; [apply copyuvm_in; [|exact Hr1]|].
  { right. apply Hin. right. left. }
  cbn beta. intros pg r2 Hr2. wp_steps. cbn [k_ps k_rs]. split; [by eexists|].
  rewrite (upd_set _ _ _ _ Hnp').
  assert (proc_ok (set_p_pgdir pg q1)) as Hok2.
  { eapply (idle_ok q1); try done. unfold q1, new_proc, active. cbn. naive_solver. }
  assert (inv pol None (set_ptable (<[np := set_p_pgdir pg q1]> (ptable s1)) s1)) as Hinv2
    by (by eapply inv_slot).
  destruct (Z.eqb_spec pg 0) as [->|Hpg].
  - wp_steps. eexists. split; [apply list_lookup_insert_eq; by rewrite Ht1, length_insert|].
    wp_steps. cbn [k_ps k_rs]. eapply wp_mono; [by apply kfree_law|]. cbn beta. intros [] r3 Hr3.
    wp_steps. cbn [k_ps k_rs]. assert (np < length (ptable s1))%nat as Hlt1 by (by eapply lookup_lt_Some).
    split; [by apply slot_is_Some|]. rewrite upd_set_again by done.
    split; [by apply slot_is_Some|]. rewrite upd_set_again by done.
    set (q3 := set_p_state _ _).
    assert (tried tbl (<[np := q3]> (ptable s1))) as Htr.
    { rewrite Ht1, list_insert_insert_eq. by apply (tried_insert _ _ q). }
    split; [split; [|split; [done|]]|].
    + eapply inv_slot; [done|done|done| |done]. eapply (idle_ok q1); try done.
      unfold q3, active. cbn. naive_solver.
    + eapply rok_perm; [|exact Hr3]. cbn [ptable set_ptable]. by rewrite (tried_owned _ _ Htr).
    + split; [done|]. split; [done|]. left. split; [done|]. split; [done|]. by right.
  - eapply wp_mono; [apply (fork_child_spec pol cur np p (set_p_pgdir pg q1) cwd
      (RDir pg (p_sz p) :: RPage ks :: owned tbl))|]; cbn [k_ps k_rs]; try done.
    { cbn. by rewrite list_lookup_insert_ne. }
    { apply list_lookup_insert_eq. by eapply lookup_lt_Some. }
    { intros f Hf. right. right. apply Hin. right. right. apply elem_of_app. left.
      by apply elem_of_files. }
    { right. right. apply Hin. right. right. apply elem_of_app. right. rewrite Hcwd. left. }
    cbn beta. intros z [s3 r3] (-> & (Hinv3 & Hl3 & Hr3) & Hsr3 & Ht3). cbn [k_ps k_rs] in *.
    cbn [ptable set_ptable] in Ht3. rewrite list_insert_insert_eq, Ht1, list_insert_insert_eq in Ht3.
    destruct Hsr3 as (_ & Hnp3 & Hip3 & Htk3).
    split; [split; [done|split; [done|]]|].
    + eapply rok_perm; [|exact Hr3]. rewrite Ht3, owned_insert by done.
      rewrite (owned_lookup _ _ _ Hnp), holdings_free by done.
      rewrite holdings_live by done. unfold child_of, q1, new_proc. cbn. rewrite Hcwd. cbn.
      solve_Permutation.
    + split; [by rewrite Hip3|]. split; [by rewrite Htk3|]. right.
      exists np, q, (child_of cur p (set_p_pgdir pg q1)), pg, ks.
      do 4 (split; [done|]). split; [|split; [done|]; split; [done|by rewrite Hnp3]].
      unfold child_of, q1, new_proc. by split; cbn; rewrite ?Hcwd.
Qed.
(** ** [exit] *)

(** Wakeups, and any change to entry [cur]. *)
Definition woke_but (cur : nat) (tbl tbl' : list proc) : Prop :=
  length tbl' = length tbl /\
  forall j p, j <> cur -> tbl !! j = Some p -> exists p', tbl' !! j = Some p' /\ wakes p p'.

Lemma woke_but_woke cur tbl tbl' : woke tbl tbl' -> woke_but cur tbl tbl'.
Proof.
  intros H. split; [symmetry; by eapply Forall2_length|]. intros j p _ Hj.
  by apply (Forall2_lookup_l _ _ _ _ _ H).
Qed.
Lemma woke_but_trans cur t1 t2 t3 : woke_but cur t1 t2 -> woke_but cur t2 t3 -> woke_but cur t1 t3.
Proof.
  intros [Hl1 H1] [Hl2 H2]. split; [congruence|]. intros j p Hne Hj.
  destruct (H1 _ _ Hne Hj) as (p2 & Hp2 & Hw2). destruct (H2 _ _ Hne Hp2) as (p3 & Hp3 & Hw3).
  exists p3. split; [done|]. by eapply wakes_trans.
Qed.
Lemma woke_but_insert cur tbl p : woke_but cur tbl (<[cur := p]> tbl).
Proof.
  split; [apply length_insert|]. intros j q Hne Hj. exists q.
  rewrite list_lookup_insert_ne by done. split; [done|by left].
Qed.

Lemma wakes_skel p p' : wakes p p' -> skel_of p' = skel_of p.
Proof. by intros [->|(_ & _ & _ & ?)]. Qed.

(** The table seen without scheduling: only entry [cur] changes. *)
Lemma woke_but_skels cur tbl tbl' p :
  woke_but cur tbl tbl' -> tbl' !! cur = Some p ->
  skel_of <$> tbl' = <[cur := skel_of p]> (skel_of <$> tbl).
Proof.
  intros [Hl Hw] Hcur. apply list_eq. intros j. rewrite list_lookup_fmap.
  destruct (decide (j = cur)) as [->|Hne].
  - rewrite list_lookup_insert_eq, Hcur; [done|]. rewrite length_fmap, <- Hl. by eapply lookup_lt_Some.
  - rewrite list_lookup_insert_ne, list_lookup_fmap by done. destruct (tbl !! j) as [q|] eqn:Hj.
    + destruct (Hw _ _ Hne Hj) as (q' & -> & Hwk). cbn. by rewrite (wakes_skel _ _ Hwk).
    + by rewrite (proj2 (lookup_ge_None tbl' j)) by (rewrite Hl; by apply lookup_ge_None).
Qed.
Lemma woke_but_others cur tbl tbl' p :
  woke_but cur tbl tbl' -> tbl' !! cur = Some p -> others cur tbl' = others cur tbl.
Proof.
  intros Hw Hcur. unfold others. rewrite !list_fmap_compose, (woke_but_skels _ _ _ _ Hw Hcur).
  f_equal. rewrite list_fmap_insert. apply list_eq. intros j. destruct (decide (j < cur)%nat).
  - rewrite !list_lookup_delete_lt by done. by rewrite list_lookup_insert_ne by lia.
  - rewrite !list_lookup_delete_ge by lia. by rewrite list_lookup_insert_ne by lia.
Qed.

(** A call made by the running process [cur]. *)
Lemma call_cur {A} pol (c : M R A) (post : list rsc) cur p k :
  inv pol None (k_ps k) -> ptable_locked (k_ps k) = false ->
  ptable (k_ps k) !! cur = Some p -> p_state p = RUNNING ->
  wp c (fun _ r' => rok post r') (k_rs k) ->
  wp (call pol c) (fun _ k' => kinv pol post k' /\ same_rest (k_ps k) (k_ps k') /\
    woke_but cur (ptable (k_ps k)) (ptable (k_ps k')) /\ ptable (k_ps k') !! cur = Some p) k.
Proof.
  intros Hinv Hl Hcur Hrun Hc. eapply wp_mono; [apply (call_spec pol c (fun _ => True) (fun _ => post)); [done|done|]|].
  { eapply wp_mono; [exact Hc|]. done. }
  cbn beta. intros a k' (_ & ? & ? & Hw). do 2 (split; [done|]). split; [by apply woke_but_woke|].
  destruct (Forall2_lookup_l _ _ _ _ _ Hw Hcur) as (p' & Hp' & [->|(? & _)]); [done|congruence].
Qed.

(** The files up to [j] are closed. *)
Definition closing (pol : policy) (cur : nat) (p : proc) (m : list rsc) (k : kst R) (j : nat)
    (k' : kst R) : Prop :=
  kinv pol (files (drop j (p_ofile p)) ++ m) k' /\ same_rest (k_ps k) (k_ps k') /\
  woke_but cur (ptable (k_ps k)) (ptable (k_ps k')) /\
  ptable (k_ps k') !! cur = Some (set_p_ofile (replicate j None ++ drop j (p_ofile p)) p).

Lemma replicate_snoc_app {A} (x : A) j l : replicate j x ++ x :: l = replicate (S j) x ++ l.
Proof. rewrite <- (Nat.add_1_r j), replicate_add. cbn. by rewrite <- app_assoc. Qed.

Lemma lookup_closing {A} (x : A) j l o :
  l !! j = Some o -> (replicate j x ++ drop j l) !! j = Some o.
Proof.
  intros Ho. rewrite (drop_S _ _ _ Ho), lookup_app_r by (by rewrite length_replicate).
  by rewrite length_replicate, Nat.sub_diag.
Qed.
Lemma insert_closing {A} (x : A) j l o :
  l !! j = Some o ->
  <[j := x]> (replicate j x ++ drop j l) = replicate (S j) x ++ drop (S j) l.
Proof.
  intros Ho. rewrite (drop_S _ _ _ Ho), insert_app_r_alt by (by rewrite length_replicate).
  rewrite length_replicate, Nat.sub_diag. apply replicate_snoc_app.
Qed.

Lemma closing_S pol cur p m k j k1 :
  proc_ok p -> p_state p = RUNNING -> (j < NOFILE)%nat -> closing pol cur p m k j k1 ->
  wp (let! p := getp cur in
      let! o := deref (p_ofile p !! j) in
      match o with
      | Some f =>
          do! call pol (fileclose f);
          setp cur (fun q => set_p_ofile (<[j := None]> (p_ofile q)) q)
      | None => ret tt
      end) (fun _ => closing pol cur p m k (S j)) k1.
Proof.
  intros Hok Hrun Hj ((Hinv1 & Hl1 & Hr1) & Hsr & Hsb & Hcur1).
  destruct (lookup_lt_is_Some_2 (p_ofile p) j) as [o Ho]; [by rewrite (po_ofile _ Hok)|].
  set (q := set_p_ofile _ p) in Hcur1.
  assert (p_ofile q !! j = Some o) as Hqo by (by apply lookup_closing).
  wp_steps. exists q. split; [done|]. wp_steps. exists o. split; [done|]. destruct o as [f|].
  - wp_steps. eapply wp_mono; [eapply (call_cur pol (fileclose f)
      (files (drop (S j) (p_ofile p)) ++ m)); [done|done|done|done|]|].
    { apply fileclose_law. rewrite (drop_S _ _ _ Ho) in Hr1. exact Hr1. }
    cbn beta. intros [] k2 ((Hinv2 & Hl2 & Hr2) & Hsr2 & Hsk2 & Hcur2). wp_steps.
    split; [by eexists|]. unfold closing. cbn [k_ps k_rs].
    split; [split; [|split; [done|done]]|].
    { eapply inv_upd; [done|done| |done|done]. destruct Hok. constructor; cbn; try done.
      by rewrite length_insert, length_app, length_replicate, length_drop; lia. }
    rewrite (upd_set _ _ _ _ Hcur2). unfold q. cbn [p_ofile set_p_ofile ptable set_ptable].
    rewrite (insert_closing _ _ _ _ Ho).
    split; [by eapply same_rest_trans; [exact Hsr|]|]. split.
    { eapply woke_but_trans; [exact Hsb|]. eapply woke_but_trans; [done|apply woke_but_insert]. }
    apply list_lookup_insert_eq. by eapply lookup_lt_Some.
  - wp_steps. unfold closing. rewrite (drop_S _ _ _ Ho) in Hr1. do 3 (split; [done|]).
    rewrite Hcur1. unfold q. by rewrite (drop_S _ _ _ Ho), replicate_snoc_app.
Qed.

Lemma close_files_spec pol cur p m k :
  inv pol None (k_ps k) -> ptable_locked (k_ps k) = false ->
  ptable (k_ps k) !! cur = Some p -> p_state p = RUNNING ->
  rok (files (p_ofile p) ++ m) (k_rs k) ->
  wp (close_files pol cur) (fun _ k' => kinv pol m k' /\ same_rest (k_ps k) (k_ps k') /\
    woke_but cur (ptable (k_ps k)) (ptable (k_ps k')) /\
    ptable (k_ps k') !! cur = Some (set_p_ofile (replicate NOFILE None) p)) k.
Proof.
  intros Hinv Hl Hcur Hrun Hr. pose proof (pv_ok _ (proj1 Hinv) _ _ Hcur) as Hok.
  pose proof (po_ofile _ Hok) as Hlen. eapply wp_mono.
  - apply (wp_for_seq (closing pol cur p m k)).
    + unfold closing. rewrite drop_0. split; [done|]. split; [done|].
      split; [by split; [|eauto using wakes_refl]|]. rewrite Hcur. f_equal. by destruct p.
    + intros j k1 Hj Hc. by eapply closing_S.
  - cbn beta. intros [] k' (Hk & Hsr & Hsb & Hcur').
    rewrite drop_ge in Hk, Hcur' by lia. rewrite app_nil_r in Hcur'. done.
Qed.

Lemma exit_entry_skel pol cur par ip t z p :
  skel_of (exit_entry pol cur par ip t z p) = skel_of (reparented cur ip p).
Proof.
  unfold exit_entry. destruct z; rewrite ?reparented_wake; by rewrite ?wake_if_skel.
Qed.

Lemma reparented_holdings cur ip p : holdings (skel_of (reparented cur ip p)) = holdings (skel_of p).
Proof. unfold reparented. by case_bool_decide. Qed.

Lemma exit_tbl_owned pol cur par ip t tbl p :
  tbl !! cur = Some p -> p_state p = RUNNING ->
  owned (exit_tbl pol cur par ip t tbl) = owned tbl.
Proof.
  intros Hcur Hrun. unfold exit_tbl, owned. f_equal.
  assert (forall (tbl' : list proc) q, tbl' !! cur = Some q -> p_state q = RUNNING ->
    holdings ∘ skel_of <$> alter (set_p_state ZOMBIE) cur tbl' = holdings ∘ skel_of <$> tbl') as Halt.
  { intros tbl' q Hq Hs. rewrite (list_alter_insert _ _ _ _ Hq), list_fmap_insert, list_insert_id; [done|].
    rewrite list_lookup_fmap, Hq. cbn. f_equal. rewrite !holdings_live; [done|cbn; congruence]. }
  rewrite (Halt _ _ (exit_entry_lookup _ _ _ _ _ _ _ _ _ Hcur)).
  - rewrite <- list_fmap_compose. apply list_fmap_ext. intros _ q _. cbn.
    by rewrite exit_entry_skel, reparented_holdings.
  - rewrite exit_entry_awake, reparented_state; congruence.
Qed.

(** What a process that has let go of its files and directory looks like. *)
Definition closed_proc (t : Z) (p : proc) : proc :=
  set_p_cwd None (set_p_ofile (replicate NOFILE None) (set_p_end_time (i32 t) p)).

Lemma exit_spec pol cur p cwd k :
  kinv pol (owned (ptable (k_ps k))) k -> ptable (k_ps k) !! cur = Some p ->
  p_state p = RUNNING -> p_cwd p = Some cwd -> initproc (k_ps k) <> Some cur ->
  wp (exit pol cur) (fun _ k' => inv pol None (k_ps k') /\
    rok (owned (ptable (k_ps k'))) (k_rs k') /\
    same_rest (set_ptable_locked true (k_ps k)) (k_ps k') /\
    exists tbl, woke_but cur (ptable (k_ps k)) tbl /\
      tbl !! cur = Some (closed_proc (ticks (k_ps k)) p) /\
      ptable (k_ps k') = exit_tbl pol cur (p_parent p) (initproc (k_ps k)) (ticks (k_ps k)) tbl) k.
Proof.
  intros (Hinv & Hl & Hr) Hcur Hrun Hcwd Hip. set (t := ticks (k_ps k)).
  pose proof (lookup_lt_Some _ _ _ Hcur) as Hlt.
  unfold exit. wp_steps. rewrite bool_decide_eq_false_2 by done. wp_steps. split; [by eexists|].
  set (p1 := set_p_end_time (i32 t) p).
  assert (inv pol None (upd_proc cur (set_p_end_time (i32 t)) (k_ps k))) as Hinv1.
  { eapply inv_upd; [done|done| |done|done]. pose proof (pv_ok _ (proj1 Hinv) _ _ Hcur). solve_ok. }
  rewrite (upd_set _ _ _ _ Hcur) in Hinv1. rewrite (upd_set _ _ _ _ Hcur). fold t.
  fold p1 in Hinv1 |- *. cbn [k_ps k_rs].
  set (m := RPage (p_kstack p) :: RDir (p_pgdir p) (p_sz p) :: others cur (ptable (k_ps k))).
  assert (owned (ptable (k_ps k)) ≡ₚ files (p_ofile p) ++ RInode cwd :: m) as Hown.
  { rewrite (owned_lookup _ _ _ Hcur), holdings_live, Hcwd by congruence. cbn. subst m.
    solve_Permutation. }
  eapply wp_mono; [apply (close_files_spec pol cur p1 (RInode cwd :: m))|]; cbn [k_ps k_rs]; try done.
  { by apply list_lookup_insert_eq. }
  { by eapply rok_perm. }
  cbn beta. intros [] k2 ((Hinv2 & Hl2 & Hr2) & Hsr2 & Hsb2 & Hcur2). wp_steps.
  eapply wp_mono; [eapply (call_cur pol begin_op (RTx :: RInode cwd :: m)); [done|done|done|done|]|].
  { by apply begin_op_law. }
  cbn beta. intros [] k3 ((Hinv3 & Hl3 & Hr3) & Hsr3 & Hsk3 & Hcur3). wp_steps.
  eexists. split; [exact Hcur3|]. wp_steps. exists cwd. split; [done|]. wp_steps.
  eapply wp_mono; [eapply (call_cur pol (iput cwd) (RTx :: m)); [done|done|done|done|]|].
  { by apply iput_law. }
  cbn beta. intros [] k4 ((Hinv4 & Hl4 & Hr4) & Hsr4 & Hsk4 & Hcur4). wp_steps.
  eapply wp_mono; [eapply (call_cur pol end_op m); [done|done|done|done|]|].
  { by apply end_op_law. }
  cbn beta. intros [] k5 ((Hinv5 & Hl5 & Hr5) & Hsr5 & Hsk5 & Hcur5). wp_steps.
  split; [by eexists|]. rewrite (upd_set _ _ _ _ Hcur5). cbn [k_ps k_rs].
  set (tbl := <[cur := _]> (ptable (k_ps k5))).
  assert (woke_but cur (ptable (k_ps k)) tbl) as Hsb.
  { eapply woke_but_trans; [apply (woke_but_insert cur _ p1)|].
    eapply woke_but_trans; [exact Hsb2|]. eapply woke_but_trans; [exact Hsk3|].
    eapply woke_but_trans; [exact Hsk4|]. eapply woke_but_trans; [exact Hsk5|].
    apply woke_but_insert. }
  assert (tbl !! cur = Some (closed_proc t p)) as Hcurt
    by (apply list_lookup_insert_eq; by eapply lookup_lt_Some).
  assert (same_rest (k_ps k) (set_ptable tbl (k_ps k5))) as Hsr
    by (eapply same_rest_trans; [exact Hsr2|]; eauto 6 using same_rest_trans).
  destruct Hsr as (Hlk & Hnp & Hip' & Htk).
  eapply wp_mono; [eapply (exit_locked_spec pol _ cur (closed_proc t p)); [|done|done|done]|].
  { change (inv pol None (set_ptable (<[cur := closed_proc t p]> (ptable (k_ps k5))) (k_ps k5))).
    rewrite <- (upd_set _ _ _ (fun _ => closed_proc t p) Hcur5). eapply inv_upd; [done|done| |done|done].
    pose proof (pv_ok _ (proj1 Hinv5) _ _ Hcur5) as []. by constructor. }
  cbn beta. intros [] s6 (Hinv6 & Ht6 & Hlk6 & Hnp6 & Hip6 & Htk6).
  rewrite Hip', Htk in Ht6. cbn [ptable set_ptable] in Ht6.
  cbn [k_ps k_rs]. split; [done|]. split.
  { eapply rok_perm; [|exact Hr5]. rewrite Ht6, (exit_tbl_owned _ _ _ _ _ _ _ Hcurt) by done.
    rewrite (owned_lookup _ _ _ Hcurt), (woke_but_others _ _ _ _ Hsb Hcurt), holdings_live
      by (unfold closed_proc; cbn; congruence).
    unfold closed_proc. cbn [p_kstack p_pgdir p_sz p_ofile p_cwd set_p_cwd set_p_ofile set_p_end_time].
    by rewrite files_none. }
  split; [|by exists tbl].
  cbn in Hlk6, Hnp6, Hip6, Htk6. cbn in Hlk, Hnp, Hip', Htk. repeat split; cbn; congruence.
Qed.
(** ** [wait] and [waitx] *)

Definition reaped (p : proc) : proc :=
  set_p_state UNUSED (set_p_killed 0 (set_p_name (<[0%nat := 0]> (p_name p))
    (set_p_parent None (set_p_pid 0 (set_p_kstack 0 p))))).

Lemma reaped_ok p : proc_ok p -> proc_ok (reaped p).
Proof.
  intros Hok. unfold reaped. destruct Hok. constructor; cbn; rewrite ?length_insert; try done.
  unfold active. naive_solver.
Qed.

Lemma reap_spec pol i p k :
  inv pol None (k_ps k) -> ptable_locked (k_ps k) = true ->
  rok (owned (ptable (k_ps k))) (k_rs k) ->
  ptable (k_ps k) !! i = Some p -> p_state p = ZOMBIE ->
  p_ofile p = replicate NOFILE None -> p_cwd p = None ->
  wp (reap i) (fun z k' => z = p_pid p /\ kinv pol (owned (ptable (k_ps k'))) k' /\
    same_rest (set_ptable_locked false (k_ps k)) (k_ps k') /\
    ptable (k_ps k') = <[i := reaped p]> (ptable (k_ps k))) k.
Proof.
  intros Hinv Hl Hr Hi Hst Hof Hcwd. pose proof (pv_ok _ (proj1 Hinv) _ _ Hi) as Hok.
  pose proof (lookup_lt_Some _ _ _ Hi) as Hlt.
  assert (owned (ptable (k_ps k)) ≡ₚ RPage (p_kstack p) :: RDir (p_pgdir p) (p_sz p) ::
    others i (ptable (k_ps k))) as Hown.
  { rewrite (owned_lookup _ _ _ Hi), holdings_live, Hof, Hcwd, files_none by congruence. done. }
  unfold reap. wp_steps. exists p. split; [done|]. wp_steps.
  eapply wp_mono; [apply kfree_law; by eapply rok_perm|]. cbn beta. intros [] r1 Hr1.
  wp_steps. cbn [k_ps k_rs]. split; [by eexists|]. rewrite (upd_set _ _ _ _ Hi).
  eapply wp_mono; [by eapply freevm_law|]. cbn beta. intros [] r2 Hr2. wp_steps. cbn [k_ps k_rs].
  do 5 (split; [by apply slot_is_Some|]; rewrite upd_set_again by done). split; [done|].
  split; [done|].
  change (kinv pol (owned (<[i := reaped p]> (ptable (k_ps k)))) (mkkst (set_ptable_locked false
    (set_ptable (<[i := reaped p]> (ptable (k_ps k))) (k_ps k))) r2) /\
    same_rest (set_ptable_locked false (k_ps k)) (set_ptable_locked false (k_ps k)) /\
    <[i := reaped p]> (ptable (k_ps k)) = <[i := reaped p]> (ptable (k_ps k))).
  split; [|done]. split; [|split; [done|]]; cbn [k_ps k_rs].
  - apply inv_lock. eapply inv_slot; [done|done|congruence|by apply reaped_ok|done].
  - eapply rok_perm; [|exact Hr2]. rewrite owned_insert, holdings_free by done. done.
Qed.

Definition waits (cur : nat) (p : proc) : bool := bool_decide (p_parent p = Some cur).

(** The three ways a pass of [waitx]'s loop ends. *)
Definition waitx_post (pol : policy) (cur : nat) (p : proc) (k : kst R)
    (c : ctl (Z * option (Z * Z))) (k' : kst R) : Prop :=
  let tbl := ptable (k_ps k) in
  match first_from (zombie_child cur) tbl 0 with
  | Some i => exists q, tbl !! i = Some q /\ zombie_child cur q = true /\
      c = Done (p_pid q, Some (i32 (p_end_time q - p_start_time q - p_run_time q), p_run_time q)) /\
      kinv pol (owned (ptable (k_ps k'))) k' /\ ptable (k_ps k') = <[i := reaped q]> tbl /\
      same_rest (set_ptable_locked false (k_ps k)) (k_ps k')
  | None =>
      if negb (existsb (waits cur) tbl) || negb (p_killed p =? 0)
      then c = Done (-1, None) /\ k' = mkkst (set_ptable_locked false (k_ps k)) (k_rs k)
      else c = Asleep (ChProc cur) /\ inv pol None (k_ps k') /\ k_rs k' = k_rs k /\
        ptable (k_ps k') = <[cur := set_p_state SLEEPING (set_p_chan (ChProc cur) p)]> tbl /\
        same_rest (set_ptable_locked true (k_ps k)) (k_ps k')
  end.

Definition zombie_slots (tbl : list proc) : Prop :=
  forall i q, tbl !! i = Some q -> p_state q = ZOMBIE ->
    p_ofile q = replicate NOFILE None /\ p_cwd q = None.

Lemma waitx_loop_spec pol cur p k :
  inv pol None (k_ps k) -> ptable_locked (k_ps k) = true ->
  rok (owned (ptable (k_ps k))) (k_rs k) -> zombie_slots (ptable (k_ps k)) ->
  ptable (k_ps k) !! cur = Some p -> p_state p = RUNNING ->
  wp (waitx_loop cur) (waitx_post pol cur p k) k.
Proof.
  intros Hinv Hl Hr Hz Hcur Hrun. unfold waitx_loop, waitx_post, zombie_child, waits.
  wp_steps. cbn [k_ps k_rs]. destruct (first_from _ _ 0) as [i|] eqn:Hf.
  - apply first_from_Some in Hf as (j & q & -> & Hj & Hq & _). cbn [Nat.add]. wp_steps.
    exists q. split; [done|]. wp_steps. destruct (proj1 (andb_true_iff _ _) Hq) as [_ Hq2%bool_decide_eq_true_1].
    destruct (Hz _ _ Hj Hq2) as [Hof Hcwd].
    eapply wp_mono; [by eapply (reap_spec pol j q)|]. cbn beta.
    intros z k' (-> & Hk' & Hsr & Ht). wp_steps. by exists q.
  - wp_steps. exists p. split; [done|]. destruct (negb _ || negb _); wp_steps.
    + split; [done|]. by split.
    + eapply wp_mono; [by eapply sleep_spec|]. cbn beta.
      intros [] s' (Hinv' & _ & Ht & Hsr). wp_steps. done.
Qed.

(** [wait] is [waitx] that drops the times. *)
Lemma wait_loop_waitx cur k :
  wait_loop cur k =
    match waitx_loop cur k with
    | Ok (Done (pid, _), k') => Ok (Done pid, k')
    | Ok (Resched (pid, _), k') => Ok (Resched pid, k')
    | Ok (Asleep c, k') => Ok (Asleep c, k')
    | Panic msg => Panic msg
    | Fault => Fault
    | NoFuel => NoFuel
    end.
Proof.
  assert (on_ps get k = Ok (k_ps k, k)) as Hget by (by destruct k).
  unfold wait_loop, waitx_loop, bind. rewrite Hget.
  destruct (first_from _ _ 0) as [i|] eqn:Hf.
  - apply first_from_Some in Hf as (j & q & -> & Hj & _). cbn [Nat.add].
    assert (getp j k = Ok (q, k)) as Hg.
    { destruct k as [s r]. unfold getp, on_ps, zoom, Queue.get_proc, bind, gets, deref.
      cbn in *. by rewrite Hj. }
    rewrite Hg. by destruct (reap j k) as [[z k']| | |].
  - destruct (getp cur k) as [[p k1]| | |]; try done. destruct (negb _ || negb _).
    + by destruct (on_ps release k1) as [[[] k2]| | |].
    + by destruct (on_ps _ k1) as [[[] k2]| | |].
Qed.
(** ** [growproc] *)

(** The end of [growproc]: the new size is recorded. *)
Lemma grow_done pol cur p sz m k r' :
  kinv pol m k -> ptable (k_ps k) !! cur = Some p -> p_state p = RUNNING -> 0 <= sz < 2 ^ 32 ->
  rok (RDir (p_pgdir p) sz :: RPage (p_kstack p) :: files (p_ofile p) ++ cwds (p_cwd p) ++
    others cur (ptable (k_ps k))) r' ->
  wp (do! setp cur (set_p_sz (u32 sz)); do! on_ps (switchuvm cur); ret 0)
    (fun z k' => z = 0 /\ kinv pol (owned (ptable (k_ps k'))) k' /\ same_rest (k_ps k) (k_ps k') /\
      ptable (k_ps k') = <[cur := set_p_sz sz p]> (ptable (k_ps k))) (mkkst (k_ps k) r').
Proof.
  intros (Hinv & Hl & _) Hcur Hrun Hsz Hr. pose proof (pv_ok _ (proj1 Hinv) _ _ Hcur) as Hok.
  pose proof (lookup_lt_Some _ _ _ Hcur) as Hlt.
  destruct (po_mem _ Hok) as [Hks Hpg]; [unfold active; naive_solver|].
  rewrite u32_small by done. wp_steps. cbn [k_ps k_rs]. split; [by eexists|].
  rewrite (upd_set _ _ _ _ Hcur). unfold switchuvm. wp_steps. cbn [k_ps k_rs].
  exists (set_p_sz sz p). split; [by apply list_lookup_insert_eq|]. cbn [p_kstack p_pgdir set_p_sz].
  rewrite !(proj2 (Z.eqb_neq _ _)) by done. wp_steps. cbn [k_ps k_rs].
  split; [done|]. split; [|done]. split; [|split; [done|]]; cbn [k_ps k_rs ptable set_ptable].
  - rewrite <- (upd_set _ _ _ (set_p_sz sz) Hcur). eapply inv_upd; [done|done| |done|done]. solve_ok.
  - eapply rok_perm; [|exact Hr]. rewrite owned_insert, holdings_live by (done || cbn; congruence).
    cbn [p_kstack p_pgdir p_sz p_ofile p_cwd set_p_sz]. solve_Permutation.
Qed.

Lemma growproc_spec pol cur p n k :
  kinv pol (owned (ptable (k_ps k))) k -> ptable (k_ps k) !! cur = Some p -> p_state p = RUNNING ->
  0 <= p_sz p < 2 ^ 32 -> (n < 0 -> u32 (p_sz p + n) <> 0) ->
  wp (growproc cur n) (fun z k' => kinv pol (owned (ptable (k_ps k'))) k' /\
    same_rest (k_ps k) (k_ps k') /\
    ((z = -1 /\ ptable (k_ps k') = ptable (k_ps k)) \/
     (z = 0 /\ exists sz, 0 <= sz < 2 ^ 32 /\
       ptable (k_ps k') = <[cur := set_p_sz sz p]> (ptable (k_ps k))))) k.
Proof.
  intros Hk Hcur Hrun Hsz Hn. pose proof Hk as (Hinv & Hl & Hr).
  set (rest := RPage (p_kstack p) :: files (p_ofile p) ++ cwds (p_cwd p) ++ others cur (ptable (k_ps k))).
  assert (owned (ptable (k_ps k)) ≡ₚ RDir (p_pgdir p) (p_sz p) :: rest) as Hown.
  { rewrite (owned_lookup _ _ _ Hcur), holdings_live by congruence. subst rest. solve_Permutation. }
  assert (forall sz r', 0 <= sz < 2 ^ 32 -> rok (RDir (p_pgdir p) sz :: rest) r' ->
    wp (do! setp cur (set_p_sz (u32 sz)); do! on_ps (switchuvm cur); ret 0)
    (fun z k' => kinv pol (owned (ptable (k_ps k'))) k' /\ same_rest (k_ps k) (k_ps k') /\
    ((z = -1 /\ ptable (k_ps k') = ptable (k_ps k)) \/ (z = 0 /\ exists sz, 0 <= sz < 2 ^ 32 /\
       ptable (k_ps k') = <[cur := set_p_sz sz p]> (ptable (k_ps k))))) (mkkst (k_ps k) r')) as Hdone.
  { intros sz r' Hs Hr'. eapply wp_mono; [by eapply grow_done|]. cbn beta.
    intros z k' (-> & ? & ? & Ht). do 2 (split; [done|]). right. split; [done|]. by exists sz. }
  assert (forall r', rok (RDir (p_pgdir p) (p_sz p) :: rest) r' ->
    kinv pol (owned (ptable (k_ps k))) (mkkst (k_ps k) r')) as Hsame.
  { intros r' Hr'. split; [done|]. split; [done|]. by eapply rok_perm. }
  unfold growproc. wp_steps. exists p. split; [done|].
  destruct (Z.gtb_spec n 0); [|destruct (Z.ltb_spec n 0)].
  - wp_steps. eapply wp_mono; [apply allocuvm_law; by eapply rok_perm|]. cbn beta. intros z r' [Hz Hr'].
    destruct (Z.eqb_spec z 0); [wp_steps|by apply Hdone].
    split; [by apply Hsame|]. split; [done|]. by left.
  - wp_steps. eapply wp_mono; [apply deallocuvm_law; by eapply rok_perm|]. cbn beta. intros z r' [Hz Hr'].
    pose proof (u32_range (p_sz p + n)). specialize (Hn ltac:(lia)).
    destruct (Z.eqb_spec z 0) as [->|].
    + wp_steps. destruct (Z.geb_spec (u32 (p_sz p + n)) (p_sz p)); [|lia].
      rewrite Hz in Hr'. split; [by apply Hsame|]. split; [done|]. by left.
    + apply Hdone; [|done]. destruct (_ >=? _); lia.
  - destruct k as [s r]. apply Hdone; [done|]. by eapply rok_perm.
Qed.
(** ** The first process *)

(** There is memory for the first process and a root directory. *)
Definition bootable (r : R) : Prop :=
  wp kalloc (fun a r1 => a <> 0 /\
    wp setupkvm (fun d r2 => d <> 0 /\
      wp (inituvm d) (fun _ r3 => wp (namei root_path) (fun o _ => is_Some o) r3) r2) r1) r.

(** A table no process has used. *)
Definition all_free (tbl : list proc) : Prop :=
  forall i q, tbl !! i = Some q -> p_state q = UNUSED /\ p_parent q = None /\
    p_ofile q = replicate NOFILE None /\ p_cwd q = None /\ p_chan q = ChNull.

(** What the first process starts from. *)
Record first_proc (s : pstate) (c : proc) (pg ks : Z) (cwd : nat) : Prop := {
  fp_state : p_state c = RUNNABLE;
  fp_skel : skel_of c = mkskel CLive None (replicate NOFILE None) (Some cwd) (nextpid s) ks pg 4096;
  fp_chan : p_chan c = ChNull;
  fp_tf : p_tf c = user_tf
}.

Lemma woke_awake tbl tbl' :
  woke tbl tbl' -> (forall p, p ∈ tbl -> p_state p <> SLEEPING) -> tbl' = tbl.
Proof.
  intros H Hs. induction H as [|p p' tbl tbl' Hw _ IH]; [done|]. f_equal.
  - destruct Hw as [->|[? _]]; [done|]. by destruct (Hs p); [left|].
  - apply IH. intros q Hq. apply Hs. by right.
Qed.
(** The end of [userinit], once the memory is set up. *)
Definition userinit_tail (pol : policy) (i : nat) : M (kst R) unit :=
  do! setp i (set_p_sz 4096);
  do! setp i (set_p_tf user_tf);
  do! set_name i initcode_name;
  let! ip := call pol (namei root_path) in
  do! setp i (set_p_cwd ip);
  on_ps (publish pol i).

Lemma userinit_tail_spec pol i q m k :
  inv pol None (k_ps k) -> ptable_locked (k_ps k) = false -> rok m (k_rs k) ->
  ptable (k_ps k) !! i = Some q -> p_state q = EMBRYO -> p_queue q = 0 -> has_mem q ->
  (forall j p, ptable (k_ps k) !! j = Some p -> p_state p <> SLEEPING) ->
  wp (namei root_path) (fun o _ => is_Some o) (k_rs k) ->
  wp (userinit_tail pol i) (fun _ k' => exists cwd, kinv pol (RInode cwd :: m) k' /\
    same_rest (k_ps k) (k_ps k') /\ ptable (k_ps k') = <[i := set_p_state RUNNABLE
      (set_p_cwd (Some cwd) (set_p_name (lsafestrcpy 15 initcode_name (p_name q))
        (set_p_tf user_tf (set_p_sz 4096 q))))]> (ptable (k_ps k))) k.
Proof.
  intros Hinv Hl Hr Hi Hst Hqu Hmem Hns Hroot. pose proof (lookup_lt_Some _ _ _ Hi) as Hlt.
  pose proof (pv_ok _ (proj1 Hinv) _ _ Hi) as Hok. unfold userinit_tail, set_name.
  wp_steps. split; [by eexists|]. rewrite (upd_set _ _ _ _ Hi). cbn [k_ps k_rs].
  do 2 (split; [by apply slot_is_Some|]; rewrite upd_set_again by done).
  set (q1 := set_p_name _ _).
  assert (proc_ok q1) as Hok1.
  { destruct Hok. constructor; unfold q1; cbn; try done. by rewrite length_lsafestrcpy. }
  assert (inv pol None (set_ptable (<[i := q1]> (ptable (k_ps k))) (k_ps k))) as Hinv1
    by (by eapply inv_slot; [| |rewrite Hst| |unfold q1; cbn; rewrite Hst]).
  eapply wp_mono; [apply (call_spec pol (namei root_path) is_Some
    (fun o => match o with Some j => RInode j :: m | None => m end)); [done|done|]|].
  { apply wp_conj; [done|by apply namei_law]. }
  cbn beta. intros o k2 ([cwd ->] & (Hinv2 & Hl2 & Hr2) & Hsr2 & Hw). cbn [k_ps ptable set_ptable] in Hw.
  apply woke_awake in Hw.
  2:{ intros p [j Hj]%list_elem_of_lookup. destruct (decide (j = i)) as [->|Hne].
      - rewrite list_lookup_insert_eq in Hj by done. injection Hj as <-. unfold q1. cbn. by rewrite Hst.
      - rewrite list_lookup_insert_ne in Hj by done. by eapply Hns. }
  assert (ptable (k_ps k2) !! i = Some q1) as Hi2 by (rewrite Hw; by apply list_lookup_insert_eq).
  wp_steps. split; [by eexists|]. rewrite (upd_set _ _ _ _ Hi2). cbn [k_ps k_rs].
  set (q2 := set_p_cwd _ q1).
  eapply wp_mono; [apply (publish_spec pol _ i q2)|]; cbn [ptable set_ptable ptable_locked].
  { eapply inv_slot; [done|done| | |]; [unfold q1; cbn; by rewrite Hst| |unfold q2, q1; cbn; by rewrite Hst].
    destruct Hok1. by constructor. }
  { done. }
  { apply list_lookup_insert_eq. by eapply lookup_lt_Some. }
  { unfold q2, q1. cbn. by rewrite Hst. }
  { done. }
  { done. }
  cbn beta. intros [] s3 (Hinv3 & Ht3 & Hsr3). exists cwd. cbn [k_ps k_rs].
  pose proof (same_rest_trans _ _ _ Hsr2 Hsr3) as Hsr. split.
  { split; [done|]. split; [|done]. exact (eq_trans (proj1 Hsr) Hl). }
  split; [done|]. by rewrite Ht3, Hw, !list_insert_insert_eq.
Qed.
Lemma all_free_owned tbl : all_free tbl -> owned tbl = [].
Proof.
  intros Hfree. unfold owned.
  assert (forall x, x ∈ holdings ∘ skel_of <$> tbl -> x = []) as Hx.
  { intros x (p & -> & [i Hi]%list_elem_of_lookup)%list_elem_of_fmap.
    destruct (Hfree _ _ Hi) as (? & ? & ? & ? & ?). by apply holdings_free. }
  induction (holdings ∘ skel_of <$> tbl) as [|x l IH]; [done|]. cbn.
  rewrite (Hx x) by left. apply IH. intros y Hy. apply Hx. by right.
Qed.

Lemma userinit_spec pol k :
  kinv pol [] k -> all_free (ptable (k_ps k)) -> bootable (k_rs k) ->
  wp (userinit pol) (fun _ k' => kinv pol (owned (ptable (k_ps k'))) k' /\
    ticks (k_ps k') = ticks (k_ps k) /\ nextpid (k_ps k') = i32 (nextpid (k_ps k) + 1) /\
    exists i c pg ks cwd, initproc (k_ps k') = Some i /\ (i < NPROC)%nat /\
      first_proc (k_ps k) c pg ks cwd /\ ptable (k_ps k') = <[i := c]> (ptable (k_ps k))) k.
Proof.
  intros (Hinv & Hl & Hr) Hfree Hboot. pose proof (pv_len _ (proj1 Hinv)) as Hlen.
  pose proof (all_free_owned _ Hfree) as Hown. unfold bootable in Hboot.
  unfold userinit. wp_steps. eapply wp_mono.
  { apply (allocproc_gen pol _ k Hinv Hl (wp_conj _ _ _ _ Hboot (kalloc_law [] _ Hr))). }
  cbn beta. intros o k1 (Hinv1 & Hl1 & Hip1 & Htk1 & Hm). destruct o as [i|].
  2:{ exfalso. destruct Hm as [[Hno _]|(_ & [[? _] _] & _)]; [|done].
      destruct (lookup_lt_is_Some_2 (ptable (k_ps k)) 0) as [p Hp]; [rewrite Hlen; unfold NPROC; lia|].
      apply (Hno p); [by eapply list_elem_of_lookup_2|by eapply Hfree]. }
  destruct Hm as (p & ks & Hi & Hst & Hks & Ht1 & Hnp1 & (_ & Hsetup) & Hr1).
  rewrite (proj2 (Z.eqb_neq _ _) Hks) in Hr1. destruct (Hfree _ _ Hi) as (_ & Hpar & Hof & Hcwd & Hch).
  pose proof (lookup_lt_Some _ _ _ Hi) as Hlt. wp_steps. cbn [k_ps k_rs].
  eapply wp_mono; [apply wp_conj; [exact Hsetup|by apply (setupkvm_law [RPage ks])]|].
  cbn beta. intros pg r2 [[Hpg Hiu] Hr2]. rewrite (proj2 (Z.eqb_neq _ _) Hpg) in Hr2.
  wp_steps. exists i. split; [done|]. wp_steps. cbn [k_ps k_rs].
  set (q := new_proc (k_ps k) ks p) in *.
  assert (ptable (k_ps k1) !! i = Some q) as Hi1 by (rewrite Ht1; by apply list_lookup_insert_eq).
  split; [by eexists|]. rewrite (proj2 (Z.eqb_neq _ _) Hpg).
  set (s1 := set_initproc (Some i) (k_ps k1)). rewrite (upd_set s1 _ q _ Hi1).
  wp_steps. cbn [k_ps k_rs].
  eapply wp_mono; [apply wp_conj; [exact Hiu|by apply inituvm_law]|].
  cbn beta. intros [] r3 [Hroot Hr3].
  assert (inv pol None s1) as Hinvs1 by (by apply (inv_misc _ _ (k_ps k1))).
  pose proof (pv_ok _ (proj1 Hinv1) _ _ Hi1) as Hokq.
  eapply wp_mono; [eapply (userinit_tail_spec pol i (set_p_pgdir pg q) [RDir pg 4096; RPage ks])|];
    cbn [k_ps k_rs]; try done.
  { eapply (inv_slot pol s1); [done|done|done| |done].
    eapply (idle_ok q); try done. unfold q, new_proc, active. cbn. naive_solver. }
  { apply list_lookup_insert_eq. by eapply lookup_lt_Some. }
  { cbn. rewrite Ht1, list_insert_insert_eq. intros j x Hj Hx.
    apply list_lookup_insert_Some in Hj as [(<- & <- & _)|[_ Hj]]; [done|].
    destruct (Hfree _ _ Hj) as [? _]. congruence. }
  cbn beta. intros [] k4 (cwd & (Hinv4 & Hl4 & Hr4) & (_ & Hnp4 & Hip4 & Htk4) & Ht4).
  cbn in Hnp4, Hip4, Htk4. cbn [k_ps ptable set_ptable s1] in Ht4. unfold s1 in Ht4.
  cbn [ptable set_ptable set_initproc] in Ht4. rewrite Ht1, !list_insert_insert_eq in Ht4.
  set (c := set_p_state RUNNABLE _) in Ht4.
  assert (first_proc (k_ps k) c pg ks cwd) as Hfp.
  { split; try done. unfold c, q, new_proc, skel_of. cbn. by rewrite Hpar, Hof. }
  split.
  { split; [done|]. split; [done|]. eapply rok_perm; [|exact Hr4].
    rewrite Ht4, owned_insert by done. assert (others i (ptable (k_ps k)) = []) as ->.
    { pose proof (owned_lookup _ _ _ Hi) as Ho. rewrite Hown in Ho.
      symmetry in Ho. apply Permutation_nil_r in Ho. by apply app_eq_nil in Ho as [_ ?]. }
    rewrite (fp_skel _ _ _ _ _ Hfp). unfold holdings, mem_rsc. cbn. rewrite files_none. cbn.
    solve_Permutation. }
  split; [congruence|]. split; [congruence|]. exists i, c, pg, ks, cwd.
  split; [done|]. split; [lia|]. done.
Qed.
End kprocs.
