(* ===== verification/Ledger.v ===== *)
(** A small model of the interface [ProcLaws]: a ledger of the references that
    have been handed out.  It shows that the laws can hold together, and gives
    the theorems about processes something concrete to run on. *)

From S2P Require Import Prelude CString ProcDefs Queue Proc Sched ProcInv SchedInv KProc.
Import Proc.

#[export] Instance rsc_eq_dec : EqDecision rsc.
Proof. solve_decision. Defined.

Module Ledger.

Record ledger : Type := mkledger { l_next : Z; l_held : list rsc }.

(** Remove the first entry that satisfies [f]. *)
Fixpoint remove_if (f : rsc -> bool) (l : list rsc) : option (list rsc) :=
  match l with
  | [] => None
  | x :: l => if f x then Some l else cons x <$> remove_if f l
  end.

Definition put (x : rsc) : M ledger unit :=
  modify (fun r => mkledger (l_next r) (x :: l_held r)).
Definition take_if (f : rsc -> bool) : M ledger unit := fun r =>
  match remove_if f (l_held r) with
  | Some l => Ok (tt, mkledger (l_next r) l)
  | None => Panic "ledger"
  end.
Definition take (x : rsc) : M ledger unit := take_if (fun y => bool_decide (y = x)).
Definition holds (x : rsc) : M ledger unit := fun r =>
  if bool_decide (x ∈ l_held r) then Ok (tt, r) else Panic "ledger".
Definition fresh : M ledger Z := fun r => Ok (l_next r, mkledger (l_next r + 1) (l_held r)).
Definition is_dir (d : Z) (x : rsc) : bool :=
  match x with RDir d' _ => d' =? d | _ => false end.

Definition new_page : M ledger Z := let! a := fresh in do! put (RPage a); ret a.
Definition new_dir (sz : Z) : M ledger Z := let! a := fresh in do! put (RDir a sz); ret a.
Definition resize (d old z : Z) : M ledger Z := do! take (RDir d old); do! put (RDir d z); ret z.

#[export] Instance ledger_ops : ProcOps ledger := {|
  forkret_addr := 1;
  kalloc := new_page;
  kfree a := take (RPage a);
  setupkvm := new_dir 0;
  inituvm d := do! resize d 0 4096; ret tt;
  allocuvm d old new :=
    if (new >=? 2 ^ 31) || (new <=? 0) then ret 0 else resize d old new;
  deallocuvm d old new := resize d old (if new >=? old then old else new);
  copyuvm d sz := do! holds (RDir d sz); new_dir sz;
  freevm d := take_if (is_dir d);
  namei _ := do! put (RInode 0); ret (Some 0%nat);
  idup i := do! holds (RInode i); put (RInode i);
  iput i := do! holds RTx; take (RInode i);
  filedup f := do! holds (RFile f); put (RFile f);
  fileclose f := take (RFile f);
  begin_op := put RTx;
  end_op := take RTx;
  drain r := ([], r)
|}.

(** The names of pages and directories. *)
Definition name (x : rsc) : option Z :=
  match x with RPage a => Some a | RDir d _ => Some d | _ => None end.

Definition lok (m : list rsc) (r : ledger) : Prop :=
  m ≡ₚ l_held r /\ 1 <= l_next r /\ NoDup (omap name m) /\
  Forall (fun a => a < l_next r) (omap name m).
End Ledger.
Import Ledger.

Lemma lok_perm m m' r : m ≡ₚ m' -> lok m r -> lok m' r.
Proof. intros Hm. unfold lok. by rewrite Hm. Qed.

Lemma remove_if_perm f l x :
  x ∈ l -> f x = true -> exists y l', remove_if f l = Some l' /\ f y = true /\ l ≡ₚ y :: l'.
Proof.
  intros Hx Hf. induction l as [|z l IH]; [by apply not_elem_of_nil in Hx|]. cbn.
  destruct (f z) eqn:Hz; [by exists z, l|]. apply elem_of_cons in Hx as [->|Hx]; [congruence|].
  destruct (IH Hx) as (y & l' & -> & Hy & Hp). exists y, (z :: l'). split; [done|]. split; [done|].
  rewrite Hp. solve_Permutation.
Qed.

Lemma wp_put x m r (Q : unit -> ledger -> Prop) :
  lok m r -> name x = None -> (forall r', lok (x :: m) r' -> Q tt r') -> wp (put x) Q r.
Proof.
  intros (Hp & Hn & Hnd & Hlt) Hx HQ. apply HQ. unfold lok. cbn. rewrite Hx. split; [by rewrite Hp|done].
Qed.

Lemma wp_take x m r (Q : unit -> ledger -> Prop) :
  lok (x :: m) r -> (forall r', lok m r' -> l_next r' = l_next r -> Q tt r') -> wp (take x) Q r.
Proof.
  intros (Hp & Hn & Hnd & Hlt) HQ. unfold wp, take, take_if.
  destruct (remove_if_perm (fun y => bool_decide (y = x)) (l_held r) x) as (y & l' & -> & Hy & Hl').
  { rewrite <- Hp. left. }
  { by apply bool_decide_eq_true. }
  apply bool_decide_eq_true in Hy as ->. apply HQ; [|done]. cbn in Hnd, Hlt. unfold lok. cbn.
  split; [apply (Permutation_cons_inv (a := x)); by rewrite Hp|]. split; [done|].
  destruct (name x); [|done]. by apply NoDup_cons in Hnd as [_ ?]; apply Forall_cons in Hlt as [_ ?].
Qed.

(** A directory's entry rewritten: the names stay as they are. *)
Lemma wp_put_dir d sz m r (Q : unit -> ledger -> Prop) :
  lok m r -> d ∉ omap name m -> d < l_next r -> (forall r', lok (RDir d sz :: m) r' -> Q tt r') ->
  wp (put (RDir d sz)) Q r.
Proof.
  intros (Hp & Hn & Hnd & Hlt) Hd Hdn HQ. apply HQ. unfold lok. cbn. split; [by rewrite Hp|].
  split; [done|]. split; [by constructor|]. by constructor.
Qed.

Lemma wp_resize d old z m r (Q : Z -> ledger -> Prop) :
  lok (RDir d old :: m) r -> (forall r', lok (RDir d z :: m) r' -> Q z r') -> wp (resize d old z) Q r.
Proof.
  intros Hl HQ. unfold resize. wp_steps. pose proof Hl as (_ & _ & Hnd & Hlt). cbn in Hnd, Hlt.
  apply NoDup_cons in Hnd as [Hd Hnd]. apply Forall_cons in Hlt as [Hdn Hlt].
  apply (wp_take _ _ _ _ Hl). intros r1 Hl1 Hn1. wp_steps.
  apply (wp_put_dir d z m); [done|done|lia|]. intros r' Hr'. wp_steps. by apply HQ.
Qed.

Lemma lok_fresh m r : lok m r -> l_next r ∉ omap name m /\ lok m (mkledger (l_next r + 1) (l_held r)).
Proof.
  intros (Hp & Hn & Hnd & Hlt). split.
  - intros Hin. apply (proj1 (Forall_forall _ _) Hlt) in Hin. lia.
  - split; [done|]. split; [cbn; lia|]. split; [done|].
    eapply Forall_impl; [exact Hlt|]. cbn. lia.
Qed.

Lemma wp_new_dir sz m r (Q : Z -> ledger -> Prop) :
  lok m r -> (forall d r', d <> 0 -> lok (RDir d sz :: m) r' -> Q d r') -> wp (new_dir sz) Q r.
Proof.
  intros Hl HQ. destruct (lok_fresh _ _ Hl) as [Hf Hl']. destruct Hl as (_ & Hn & _).
  unfold new_dir, fresh. wp_steps. unfold wp at 1. wp_steps.
  apply (wp_put_dir _ _ m); [done|done|cbn; lia|]. intros r' Hr'. wp_steps. apply HQ; [lia|done].
Qed.

Lemma wp_holds x m r (Q : unit -> ledger -> Prop) : x ∈ m -> lok m r -> Q tt r -> wp (holds x) Q r.
Proof.
  intros Hx (Hp & _) HQ. unfold wp, holds. rewrite Hp in Hx. by rewrite bool_decide_eq_true_2.
Qed.

(** There is one entry for a directory. *)
Lemma wp_free_dir d sz m r (Q : unit -> ledger -> Prop) :
  lok (RDir d sz :: m) r -> (forall r', lok m r' -> Q tt r') -> wp (take_if (is_dir d)) Q r.
Proof.
  intros Hl HQ. pose proof Hl as (Hp & Hn & Hnd & Hlt). unfold wp, take_if.
  destruct (remove_if_perm (is_dir d) (l_held r) (RDir d sz)) as (y & l' & -> & Hy & Hl').
  { rewrite <- Hp. left. }
  { apply Z.eqb_refl. }
  apply HQ. destruct y as [|d' sz'| | |]; try done. apply Z.eqb_eq in Hy as ->.
  cbn in Hnd, Hlt. apply NoDup_cons in Hnd as [Hd Hnd]. apply Forall_cons in Hlt as [_ Hlt].
  split; [|by split]. cbn. assert (sz' = sz) as ->.
  { assert (RDir d sz' ∈ RDir d sz :: m) as Hin by (rewrite Hp, Hl'; left).
    apply elem_of_cons in Hin as [[= ->]|Hin]; [done|]. destruct Hd. apply list_elem_of_omap.
    by exists (RDir d sz'). }
  apply (Permutation_cons_inv (a := RDir d sz)). by rewrite Hp.
Qed.

#[export] Instance ledger_laws : ProcLaws ledger.
Proof.
  refine {| rok := lok |}.
  - apply lok_perm.
  - intros a m r (_ & _ & Hnd & _) Hin. cbn in Hnd. apply NoDup_cons in Hnd as [Hn _].
    apply Hn, list_elem_of_omap. by exists (RPage a).
  - intros d sz sz' m r (_ & _ & Hnd & _) Hin. cbn in Hnd. apply NoDup_cons in Hnd as [Hn _].
    apply Hn, list_elem_of_omap. by exists (RDir d sz').
  - intros m r Hl. destruct (lok_fresh _ _ Hl) as [Hf (Hp & Hn & Hnd & Hlt)]. cbn in Hn, Hp, Hlt.
    pose proof Hl as (_ & Hn' & _). unfold kalloc, ledger_ops, new_page, fresh, put, modify, bind, ret, wp.
    cbn. rewrite (proj2 (Z.eqb_neq _ _)) by lia. split; [cbn; by rewrite Hp|]. split; [done|].
    split; [by constructor|]. constructor; [cbn; lia|done].
  - intros a m r Hl. by apply (wp_take _ _ _ _ Hl).
  - intros m r Hl. apply (wp_new_dir _ _ _ _ Hl). intros d r' Hd Hr.
    by rewrite (proj2 (Z.eqb_neq _ _) Hd).
  - intros d m r Hl. cbn. wp_steps. apply (wp_resize _ _ _ _ _ _ Hl). intros r' Hr. by wp_steps.
  - intros d old new m r Hl. cbn. destruct (Z.geb_spec new (2 ^ 31)); [by wp_steps|].
    destruct (Z.leb_spec new 0); [by wp_steps|]. apply (wp_resize _ _ _ _ _ _ Hl). intros r' Hr.
    split; [lia|]. by rewrite (proj2 (Z.eqb_neq _ _)) by lia.
  - intros d old new m r Hl. by apply (wp_resize _ _ _ _ _ _ Hl).
  - intros d sz m r Hl. cbn. wp_steps. apply (wp_holds _ (RDir d sz :: m)); [left|done|].
    apply (wp_new_dir _ _ _ _ Hl). intros d' r' Hd Hr. by rewrite (proj2 (Z.eqb_neq _ _) Hd).
  - intros d sz m r Hl. by apply (wp_free_dir _ _ _ _ _ Hl).
  - intros p m r Hl. cbn [namei ledger_ops]. rewrite wp_bind. by apply (wp_put _ _ _ _ Hl).
  - intros i m r Hl. cbn [idup ledger_ops]. rewrite wp_bind. apply (wp_holds _ (RInode i :: m)); [left|done|].
    by apply (wp_put _ _ _ _ Hl).
  - intros i m r Hl. cbn [iput ledger_ops]. rewrite wp_bind. apply (wp_holds _ (RTx :: RInode i :: m)); [left|done|].
    assert (lok (RInode i :: RTx :: m) r) as Hl' by (eapply lok_perm; [|exact Hl]; solve_Permutation).
    by apply (wp_take _ _ _ _ Hl').
  - intros f m r Hl. cbn [filedup ledger_ops]. rewrite wp_bind. apply (wp_holds _ (RFile f :: m)); [left|done|].
    by apply (wp_put _ _ _ _ Hl).
  - intros f m r Hl. by apply (wp_take _ _ _ _ Hl).
  - intros m r Hl. by apply (wp_put _ _ _ _ Hl).
  - intros m r Hl. by apply (wp_take _ _ _ _ Hl).
  - done.
Defined.

(** A ledger with nothing handed out. *)
Definition ledger0 : ledger := mkledger 4096 [].

Lemma ledger0_ok : rok [] ledger0.
Proof. split; [done|]. split; [done|]. split; constructor. Qed.

Lemma ledger0_bootable : bootable ledger0.
Proof. split; [done|]. split; [done|]. by exists 0%nat. Qed.
