(* ===== verification/System.v ===== *)
(** The processors and the processes together: a step is one turn of a
    scheduler, one operation of a running process, or a clock interrupt.
    Reachable states keep the process tree, the process ids, the resources and
    the assignment of processes to processors consistent, and no operation
    panics in them. *)

From S2P Require Import Prelude CString ProcDefs Queue Proc Sched ProcInv SchedInv Trap.
From S2P Require Import KProc.
Import Proc Sched Trap.

(** * The transition system *)

Section system.
Context {R : Type} `{!ProcOps R} `{!ProcLaws R}.
Implicit Types (k : kst R) (p : proc) (pol : policy).

(** What a running process asks of the process component.  [OSleep] and
    [OWakeup] stand for the calls the other components make; [OTimer] is a
    clock interrupt that finds the process running. *)
Inductive op : Type :=
| OFork
| OExit
| OWait
| OKill (pid : Z)
| OSetPriority (n : Z)
| OPinfo (pid : Z)
| OYield
| OSleep (c : chan)
| OWakeup (c : chan)
| OGrow (n : Z)
| OTimer.

(** Run an operation; [true] when the process gives up the processor. *)
Definition exec_op (pol : policy) (cur : nat) (o : op) : M (kst R) bool :=
  match o with
  | OFork => do! fork pol cur; ret false
  | OExit => do! exit pol cur; ret true
  | OWait =>
      let! c := waitx cur in
      ret (match c with Asleep _ => true | _ => false end)
  | OKill pid => do! on_ps (kill pol pid); ret false
  | OSetPriority n =>
      let! c := on_ps (set_priority cur n) in
      ret (match c with Resched _ => true | _ => false end)
  | OPinfo pid => do! on_ps (getpinfo pol pid); ret false
  | OYield => do! on_ps (yield cur); ret true
  | OSleep c => do! on_ps (sleep cur c false); ret true
  | OWakeup c => do! on_ps (wakeup pol c); ret false
  | OGrow n => do! growproc cur n; ret false
  | OTimer => on_ps (timer pol cur)
  end.

(** What a process does first when it is switched to: a new process, and one
    that yielded, release [ptable.lock]; one that slept tidies up and gives
    back the lock, and [wait] runs its loop again. *)
Definition resume (cur : nat) : M (kst R) bool :=
  let! p := getp cur in
  match p_chan p with
  | ChNull => do! on_ps release; ret false
  | ChProc _ =>
      do! on_ps (sleep_resume cur true);
      let! c := waitx_loop cur in
      ret (match c with Asleep _ => true | _ => false end)
  | _ => do! on_ps (sleep_resume cur false); ret false
  end.

(** One turn of a scheduler: the process it leaves running, if any. *)
Definition turn (pol : policy) (pos : nat) : M (kst R) (option nat) :=
  let! o := on_ps (enter pol pos) in
  match o with
  | None => ret None
  | Some i =>
      let! b := resume i in
      if b then do! on_ps (leave pol i); ret None else ret (Some i)
  end.

(** One operation of process [cur], to the end of the scheduler's part when it
    gives up. *)
Definition run_op (pol : policy) (cur : nat) (o : op) : M (kst R) bool :=
  let! b := exec_op pol cur o in
  if b then do! on_ps (leave pol cur); ret false else ret true.

(** Only [wait] sleeps on a process; init does not exit; and a process does
    not give back all of its memory. *)
Definition allowed (k : kst R) (cur : nat) (o : op) : Prop :=
  match o with
  | OSleep c => c <> ChNull /\ forall i, c <> ChProc i
  | OExit => initproc (k_ps k) <> Some cur
  | OGrow n => n < 0 -> forall p, ptable (k_ps k) !! cur = Some p -> u32 (p_sz p + n) <> 0
  | _ => True
  end.

(** [cpus]: the process each processor runs. *)
Inductive step (pol : policy) : kst R * list (option nat) -> kst R * list (option nat) -> Prop :=
| step_turn c pos o k k' cpus :
    cpus !! c = Some None -> turn pol pos k = Ok (o, k') ->
    step pol (k, cpus) (k', <[c := o]> cpus)
| step_op c i o b k k' cpus :
    cpus !! c = Some (Some i) -> allowed k i o -> run_op pol i o k = Ok (b, k') ->
    step pol (k, cpus) (k', if b then cpus else <[c := None]> cpus)
| step_clock k k' cpus :
    on_ps (clock_tick pol) k = Ok (tt, k') -> step pol (k, cpus) (k', cpus).

(** [n] steps from a state. *)
Inductive steps (pol : policy) :
    nat -> kst R * list (option nat) -> kst R * list (option nat) -> Prop :=
| steps_refl st : steps pol 0 st st
| steps_snoc n st st' st'' :
    steps pol n st st' -> step pol st' st'' -> steps pol (S n) st st''.

(** * The invariant *)

(** The process tree, on the part of the table that scheduling does not
    touch. *)
Definition slot_ok (x : skel) : Prop :=
  match sk_class x with
  | CFree => sk_parent x = None /\ sk_ofile x = replicate NOFILE None /\ sk_cwd x = None
  | CEmbryo => False
  | CLive => is_Some (sk_cwd x) /\ 0 <= sk_sz x < 2 ^ 32
  | CZombie => sk_ofile x = replicate NOFILE None /\ sk_cwd x = None
  end.

Record tree_ok (ip : option nat) (sks : list skel) : Prop := {
  tr_slot : forall i x, sks !! i = Some x -> slot_ok x;
  tr_init : exists i x, ip = Some i /\ sks !! i = Some x /\ sk_class x = CLive;
  tr_parent : forall i x, sks !! i = Some x -> sk_class x <> CFree -> ip <> Some i ->
    exists j y, sk_parent x = Some j /\ sks !! j = Some y /\ sk_class y = CLive
}.

(** Process ids: below [np], and different for different processes. *)
Record pids_ok (np : Z) (sks : list skel) : Prop := {
  pd_range : forall i x, sks !! i = Some x -> sk_class x <> CFree -> 1 <= sk_pid x < np;
  pd_inj : forall i j x y, sks !! i = Some x -> sks !! j = Some y ->
    sk_class x <> CFree -> sk_class y <> CFree -> sk_pid x = sk_pid y -> i = j
}.

(** What a process waits for: nothing unless it is asleep or has just been
    woken, and on a process only in [wait], on itself. *)
Definition chan_ok (i : nat) (p : proc) : Prop :=
  match p_chan p with
  | ChNull => True
  | ChProc j => j = i /\ (p_state p = SLEEPING \/ p_state p = RUNNABLE)
  | _ => p_state p = SLEEPING \/ p_state p = RUNNABLE
  end.
Definition chans_ok (ce : option nat) (tbl : list proc) : Prop :=
  forall i p, tbl !! i = Some p -> ce <> Some i -> chan_ok i p.

Definition skels (k : kst R) : list skel := skel_of <$> ptable (k_ps k).

(** The invariant of the process component: [lk] says whether the lock is held,
    [ex] names a runnable process that is in no queue and [ce] one that has
    been switched to and has not tidied up yet; [N] bounds the process ids
    handed out. *)
Record KIg (pol : policy) (N : Z) (lk : bool) (ex ce : option nat) (k : kst R) : Prop := {
  ki_inv : inv pol ex (k_ps k);
  ki_lock : ptable_locked (k_ps k) = lk;
  ki_rok : rok (owned (ptable (k_ps k))) (k_rs k);
  ki_tree : tree_ok (initproc (k_ps k)) (skels k);
  ki_pids : pids_ok (nextpid (k_ps k)) (skels k);
  ki_np : 1 <= nextpid (k_ps k) <= N;
  ki_chans : chans_ok ce (ptable (k_ps k))
}.
Definition KI (pol : policy) (N : Z) (k : kst R) : Prop := KIg pol N false None None k.

Definition runs (tbl : list proc) (i : nat) : Prop :=
  exists p, tbl !! i = Some p /\ p_state p = RUNNING.

(** The processes running are exactly the ones the processors have, each on
    one processor. *)
Record SI (pol : policy) (N : Z) (st : kst R * list (option nat)) : Prop := {
  si_k : KI pol N st.1;
  si_runs : forall i, runs (ptable (k_ps st.1)) i <-> Some i ∈ st.2;
  si_one : forall c c' i, st.2 !! c = Some (Some i) -> st.2 !! c' = Some (Some i) -> c = c'
}.

(** ** Framing *)

Lemma KIg_mono pol N N' lk ex ce k : N <= N' -> KIg pol N lk ex ce k -> KIg pol N' lk ex ce k.
Proof. intros HN []. split; try done. lia. Qed.

Lemma KIg_frame pol N lk lk' ex ex' ce ce' k s' :
  KIg pol N lk ex ce k -> inv pol ex' s' -> same_rest (set_ptable_locked lk' (k_ps k)) s' ->
  same_skel (ptable (k_ps k)) (ptable s') -> chans_ok ce' (ptable s') ->
  KIg pol N lk' ex' ce' (mkkst s' (k_rs k)).
Proof.
  intros [Hinv Hl Hr Htr Hpd Hnp Hch] Hinv' (Hl' & Hnp' & Hip' & _) Hsk Hch'. cbn in Hl', Hnp', Hip'.
  unfold skels in *. split; cbn [k_ps k_rs]; unfold skels; cbn [k_ps k_rs].
  - done.
  - done.
  - by rewrite (same_skel_owned _ _ Hsk).
  - by rewrite Hsk, Hip'.
  - by rewrite Hsk, Hnp'.
  - by rewrite Hnp'.
  - done.
Qed.

Lemma chans_ok_insert ce tbl i p :
  chans_ok ce tbl -> chan_ok i p \/ ce = Some i -> chans_ok ce (<[i := p]> tbl).
Proof.
  intros Hc Hp j q Hj Hne. destruct (decide (i = j)) as [->|].
  - apply list_lookup_insert_Some in Hj as [(_ & -> & _)|[? _]]; [|done]. by destruct Hp.
  - rewrite list_lookup_insert_ne in Hj by done. by eapply Hc.
Qed.

Lemma chans_ok_fmap ce tbl f :
  chans_ok ce tbl -> (forall i p, chan_ok i p -> chan_ok i (f p)) -> chans_ok ce (f <$> tbl).
Proof.
  intros Hc Hf i p Hi Hne. rewrite list_lookup_fmap in Hi.
  apply fmap_Some in Hi as (q & Hq & ->). by eapply Hf, Hc.
Qed.

Lemma runs_insert tbl i p j :
  (i < length tbl)%nat ->
  runs (<[i := p]> tbl) j <-> (j = i /\ p_state p = RUNNING) \/ (j <> i /\ runs tbl j).
Proof.
  intros Hi. unfold runs. destruct (decide (j = i)) as [->|Hne].
  - rewrite list_lookup_insert_eq by done. naive_solver.
  - rewrite list_lookup_insert_ne by done. naive_solver.
Qed.

Lemma runs_lookup tbl i p : tbl !! i = Some p -> runs tbl i <-> p_state p = RUNNING.
Proof. intros Hi. unfold runs. rewrite Hi. naive_solver. Qed.

Lemma runs_fmap tbl f j :
  (forall p, p_state (f p) = RUNNING <-> p_state p = RUNNING) -> runs (f <$> tbl) j <-> runs tbl j.
Proof.
  intros Hf. unfold runs. rewrite list_lookup_fmap. split.
  - intros (p & (q & -> & ->)%fmap_Some & Hs). exists q. by rewrite <- Hf.
  - intros (p & -> & Hs). eexists. split; [done|]. by rewrite Hf.
Qed.

(** Waking keeps the channels, and no running process is concerned. *)
Lemma wake_if_chan pol c t i p : chan_ok i p -> chan_ok i (wake_if pol c t p).
Proof.
  unfold wake_if, woken. destruct (_ && _) eqn:E; [|done]. zb.
  unfold chan_ok. destruct pol; cbn; destruct (p_chan p); naive_solver.
Qed.
Lemma wake_if_running pol c t p : p_state (wake_if pol c t p) = RUNNING <-> p_state p = RUNNING.
Proof.
  unfold wake_if, woken. destruct (_ && _) eqn:E; [|done]. zb. destruct pol; cbn; split; congruence.
Qed.

(** ** The scheduler's part *)

(** [i] after an operation: still running, or giving up with the lock held. *)
Definition op_post (pol : policy) (N : Z) (cur : nat) (k : kst R) (b : bool) (k' : kst R) : Prop :=
  exists q, ptable (k_ps k') !! cur = Some q /\
    KIg pol N b (if b then back cur (p_state q) else None) None k' /\
    (p_state q = RUNNING <-> b = false) /\
    forall j, j <> cur -> runs (ptable (k_ps k')) j <-> runs (ptable (k_ps k)) j.

Lemma left_entry_chan pol t i p : chan_ok i p -> chan_ok i (left_entry pol t p).
Proof.
  unfold left_entry, requeued. destruct (_ && _); [|done]. by destruct (p_punish p =? 0).
Qed.
Lemma left_entry_skel pol t p : skel_of (left_entry pol t p) = skel_of p.
Proof. unfold left_entry, requeued. destruct (_ && _); [|done]. by destruct (p_punish p =? 0). Qed.

Lemma leave_KI pol N k i q :
  KIg pol N true (back i (p_state q)) None k -> ptable (k_ps k) !! i = Some q ->
  wp (leave pol i) (fun _ s' => KI pol N (mkkst s' (k_rs k)) /\
    forall j, runs (ptable s') j <-> runs (ptable (k_ps k)) j) (k_ps k).
Proof.
  intros HK Hi. pose proof (lookup_lt_Some _ _ _ Hi) as Hlt.
  eapply wp_mono; [apply leave_spec; [apply HK|apply HK|done]|]. cbn beta.
  intros [] s' (Hinv' & Ht & Hsr). split.
  - eapply KIg_frame; [done|done|done| |]; rewrite Ht.
    + eapply same_skel_insert; [done|apply left_entry_skel].
    + apply chans_ok_insert; [apply HK|]. left. apply left_entry_chan.
      by apply (ki_chans _ _ _ _ _ _ HK).
  - intros j. rewrite Ht, runs_insert, left_entry_state by done. unfold runs.
    destruct (decide (j = i)) as [->|]; [|naive_solver]. rewrite Hi. naive_solver.
Qed.
(** ** The operations that touch one entry *)

Lemma back_runnable i : back i RUNNABLE = Some i.
Proof. unfold back. by rewrite bool_decide_eq_true_2. Qed.
Lemma back_other i st : st <> RUNNABLE -> back i st = None.
Proof. intros Hst. unfold back. by rewrite bool_decide_eq_false_2. Qed.

Lemma op_cur pol N k cur p p' (b : bool) s' :
  KI pol N k -> ptable (k_ps k) !! cur = Some p ->
  inv pol (if b then back cur (p_state p') else None) s' ->
  ptable s' = <[cur := p']> (ptable (k_ps k)) -> same_rest (set_ptable_locked b (k_ps k)) s' ->
  skel_of p' = skel_of p -> chan_ok cur p' -> (p_state p' = RUNNING <-> b = false) ->
  op_post pol N cur k b (mkkst s' (k_rs k)).
Proof.
  intros HK Hcur Hinv Ht Hsr Hsk Hch Hrun. pose proof (lookup_lt_Some _ _ _ Hcur) as Hlt.
  exists p'. cbn [k_ps k_rs]. rewrite Ht. split; [by apply list_lookup_insert_eq|]. split; [|split; [done|]].
  - eapply KIg_frame; [done|done|done| |]; rewrite Ht.
    + by eapply same_skel_insert.
    + apply chans_ok_insert; [apply HK|by left].
  - intros j Hj. rewrite runs_insert by done. naive_solver.
Qed.

Lemma KI_unlocked pol N k b s' :
  KI pol N k -> same_rest (k_ps k) s' -> b = false -> same_rest (set_ptable_locked b (k_ps k)) s'.
Proof. intros HK (Hl & ?) ->. split; [|done]. cbn. rewrite Hl. apply HK. Qed.

(** A running process sleeps on nothing. *)
Lemma running_chan pol N k i p :
  KI pol N k -> ptable (k_ps k) !! i = Some p -> p_state p = RUNNING -> p_chan p = ChNull.
Proof.
  intros HK Hi Hrun. pose proof (ki_chans _ _ _ _ _ _ HK i p Hi ltac:(done)) as Hc.
  unfold chan_ok in Hc. rewrite Hrun in Hc. destruct (p_chan p); naive_solver.
Qed.

Lemma yield_op pol N k cur p :
  KI pol N k -> ptable (k_ps k) !! cur = Some p -> p_state p = RUNNING ->
  wp (exec_op pol cur OYield) (op_post pol N cur k) k.
Proof.
  intros HK Hcur Hrun. cbn [exec_op]. rewrite wp_bind, wp_on_ps.
  eapply wp_mono; [apply yield_spec; [apply HK|apply HK|done|done]|]. cbn beta.
  intros [] s' (Hinv & _ & Ht & Hsr). rewrite wp_ret. eapply op_cur; try done.
  - cbn. by rewrite back_runnable.
  - unfold skel_of. cbn. by rewrite Hrun.
  - unfold chan_ok. cbn. by rewrite (running_chan _ _ _ _ _ HK Hcur Hrun).
Qed.

Lemma sleep_op pol N k cur p c :
  KI pol N k -> ptable (k_ps k) !! cur = Some p -> p_state p = RUNNING ->
  allowed k cur (OSleep c) -> wp (exec_op pol cur (OSleep c)) (op_post pol N cur k) k.
Proof.
  intros HK Hcur Hrun [Hc Hc']. cbn [exec_op]. rewrite wp_bind, wp_on_ps.
  eapply wp_mono; [apply sleep_spec; [apply HK|apply HK|done|done]|]. cbn beta.
  intros [] s' (Hinv & _ & Ht & Hsr). rewrite wp_ret. eapply op_cur; try done.
  - cbn. by rewrite back_other.
  - unfold skel_of. cbn. by rewrite Hrun.
  - unfold chan_ok. cbn. destruct c; naive_solver.
Qed.

Lemma timer_entry_ok pol i p :
  p_state p = RUNNING -> p_chan p = ChNull ->
  let '(p', b) := timer_entry pol p in
  skel_of p' = skel_of p /\ chan_ok i p' /\ (p_state p' = RUNNING <-> b = false) /\
  (b = true -> p_state p' = RUNNABLE).
Proof.
  intros Hrun Hch. unfold timer_entry, chan_ok, skel_of.
  destruct pol; cbn -[TIMESLICE]; rewrite ?Hrun, ?Hch; [naive_solver..|].
  destruct (_ >=? _); cbn; rewrite ?Hrun, ?Hch; naive_solver.
Qed.

Lemma timer_op pol N k cur p :
  KI pol N k -> ptable (k_ps k) !! cur = Some p -> p_state p = RUNNING ->
  wp (exec_op pol cur OTimer) (op_post pol N cur k) k.
Proof.
  intros HK Hcur Hrun. cbn [exec_op]. rewrite wp_on_ps.
  eapply wp_mono; [apply timer_spec; [apply HK|apply HK|done|done]|]. cbn beta.
  intros b s' (-> & Hinv & Ht & Hsr).
  pose proof (timer_entry_ok pol cur p Hrun (running_chan _ _ _ _ _ HK Hcur Hrun)) as He.
  destruct (timer_entry pol p) as [p' b]. cbn [fst snd] in *. destruct He as (Hsk & Hch & Hst & Hb).
  eapply op_cur; try done. destruct b; [|done]. by rewrite Hb, back_runnable.
Qed.

Lemma set_priority_op pol N k cur p n :
  KI pol N k -> ptable (k_ps k) !! cur = Some p -> p_state p = RUNNING ->
  wp (exec_op pol cur (OSetPriority n)) (op_post pol N cur k) k.
Proof.
  intros HK Hcur Hrun. pose proof (running_chan _ _ _ _ _ HK Hcur Hrun) as Hch.
  cbn [exec_op]. rewrite wp_bind, wp_on_ps.
  eapply wp_mono; [apply (set_priority_spec pol); [apply HK|apply HK|done|done]|]. cbn beta.
  intros c s'. assert (skel_of p = skel_of p) by done. unfold skel_of in *.
  destruct (_ || _); [|destruct (n =? p_priority p)]; rewrite wp_ret.
  - intros [-> ->]. eapply (op_cur _ _ _ _ p p); try done.
    + apply HK.
    + by rewrite list_insert_id.
    + apply (KI_unlocked pol N); [done|done|done].
    + unfold chan_ok. by rewrite Hch.
  - intros (-> & Hinv & Ht & Hsr). eapply op_cur; try done.
    + by apply (KI_unlocked pol N).
    + unfold chan_ok. cbn. by rewrite Hch.
  - intros (-> & Hinv & Ht & Hsr). eapply op_cur; try done.
    + cbn. by rewrite back_runnable.
    + unfold skel_of. cbn. by rewrite Hrun.
    + unfold chan_ok. cbn. by rewrite Hch.
Qed.
(** ** The operations that keep the process running *)

Lemma op_tbl pol N k cur s' :
  KI pol N k -> runs (ptable (k_ps k)) cur -> inv pol None s' ->
  same_rest (k_ps k) s' -> same_skel (ptable (k_ps k)) (ptable s') ->
  chans_ok None (ptable s') ->
  (forall j, runs (ptable s') j <-> runs (ptable (k_ps k)) j) ->
  op_post pol N cur k false (mkkst s' (k_rs k)).
Proof.
  intros HK Hcur Hinv Hsr Hsk Hch Hruns. destruct (proj2 (Hruns cur) Hcur) as (q & Hq & Hrun).
  exists q. split; [done|]. split; [|split; [done|by intros j _]].
  eapply KIg_frame; [done|done|by apply (KI_unlocked pol N)|done|done].
Qed.

Lemma wakeup_op pol N k cur c :
  KI pol N k -> runs (ptable (k_ps k)) cur ->
  wp (exec_op pol cur (OWakeup c)) (op_post pol N cur k) k.
Proof.
  intros HK Hcur. cbn [exec_op]. rewrite wp_bind, wp_on_ps.
  eapply wp_mono; [apply wakeup_spec; apply HK|]. cbn beta. intros [] s' (Hinv & Ht & Hsr).
  rewrite wp_ret. apply op_tbl; try done; rewrite Ht.
  - apply same_skel_fmap. intros p. apply wake_if_skel.
  - apply chans_ok_fmap; [apply HK|]. intros. by apply wake_if_chan.
  - intros j. apply runs_fmap. intros p. apply wake_if_running.
Qed.

Lemma kill_proc_skel pol t p : skel_of (kill_proc pol t p) = skel_of p.
Proof.
  unfold kill_proc. case_bool_decide as Hs; [|done]. by rewrite woken_skel.
Qed.
Lemma kill_proc_chan pol t i p : chan_ok i p -> chan_ok i (kill_proc pol t p).
Proof.
  unfold kill_proc, woken, chan_ok. case_bool_decide; [|done].
  destruct pol; cbn; destruct (p_chan p); naive_solver.
Qed.
Lemma kill_proc_running pol t p : p_state (kill_proc pol t p) = RUNNING <-> p_state p = RUNNING.
Proof.
  unfold kill_proc, woken. case_bool_decide as Hs; [|done]. cbn in Hs.
  destruct pol; cbn; split; congruence.
Qed.

Lemma kill_op pol N k cur pid :
  KI pol N k -> runs (ptable (k_ps k)) cur ->
  wp (exec_op pol cur (OKill pid)) (op_post pol N cur k) k.
Proof.
  intros HK Hcur. cbn [exec_op]. rewrite wp_bind, wp_on_ps.
  eapply wp_mono; [apply kill_spec; apply HK|]. cbn beta. intros z s' (Hinv & Hsr & Hm).
  rewrite wp_ret. destruct (first_from _ _ 0) as [i|] eqn:Hf.
  - destruct Hm as [_ Ht]. apply first_from_Some in Hf as (j & p & -> & Hj & _). cbn [Nat.add] in Ht.
    rewrite (list_alter_insert _ _ _ _ Hj) in Ht. apply op_tbl; try done; rewrite Ht.
    + eapply same_skel_insert; [done|apply kill_proc_skel].
    + apply chans_ok_insert; [apply HK|]. left. apply kill_proc_chan.
      by apply (ki_chans _ _ _ _ _ _ HK).
    + intros m. rewrite runs_insert, kill_proc_running by (by eapply lookup_lt_Some). unfold runs.
      destruct (decide (m = j)) as [->|]; [rewrite Hj|]; naive_solver.
  - destruct Hm as [_ Ht]. by apply op_tbl; rewrite ?Ht; try apply HK.
Qed.

Lemma pinfo_op pol N k cur pid :
  KI pol N k -> runs (ptable (k_ps k)) cur ->
  wp (exec_op pol cur (OPinfo pid)) (op_post pol N cur k) k.
Proof.
  intros HK Hcur. cbn [exec_op]. rewrite wp_bind, wp_on_ps.
  eapply wp_mono; [apply getpinfo_spec; apply HK|]. cbn beta. intros z s' [-> _].
  rewrite wp_ret. by apply op_tbl; try apply HK.
Qed.

Lemma tick_run_skel p : skel_of (tick_run p) = skel_of p.
Proof. unfold tick_run. by case_bool_decide. Qed.
Lemma tick_run_state p : p_state (tick_run p) = p_state p.
Proof. unfold tick_run. by case_bool_decide. Qed.
Lemma tick_run_chan i p : chan_ok i p -> chan_ok i (tick_run p).
Proof. unfold tick_run. by case_bool_decide. Qed.

Lemma clock_KI pol N k :
  KI pol N k ->
  wp (on_ps (clock_tick pol)) (fun _ k' => KI pol N k' /\
    forall j, runs (ptable (k_ps k')) j <-> runs (ptable (k_ps k)) j) k.
Proof.
  intros HK. rewrite wp_on_ps. eapply wp_mono; [apply clock_tick_spec; apply HK|]. cbn beta.
  intros [] s' (Hinv & Ht & _ & Hsr). cbn [k_ps]. split.
  - destruct Hsr as (Hl & Hnp & Hip & Htk). cbn in Hl, Hnp, Hip, Htk.
    assert (KI pol N (mkkst (set_ticks (u32 (ticks (k_ps k) + 1)) (k_ps k)) (k_rs k))) as HK1.
    { destruct HK as [Hinv0 ? ? ? ? ? ?]. split; try done. by apply (inv_misc _ _ (k_ps k)). }
    apply (KIg_frame _ _ _ _ _ _ _ _ _ s' HK1); [done| | |].
    + cbn. rewrite (ki_lock _ _ _ _ _ _ HK) in Hl. repeat split; cbn; try done.
    + cbn. rewrite Ht. apply same_skel_fmap. intros p. cbn. by rewrite wake_if_skel, tick_run_skel.
    + rewrite Ht. apply chans_ok_fmap; [apply HK|]. intros i p Hp. by apply wake_if_chan, tick_run_chan.
  - intros j. rewrite Ht. apply runs_fmap. intros p. cbn. by rewrite wake_if_running, tick_run_state.
Qed.
(** ** Changes of the process tree *)

Lemma insert_case {A} (l : list A) i j (x y : A) :
  <[i := x]> l !! j = Some y -> (j = i /\ y = x) \/ (j <> i /\ l !! j = Some y).
Proof.
  intros H. destruct (decide (j = i)) as [->|Hne].
  - apply list_lookup_insert_Some in H as [(_ & -> & _)|[? _]]; [by left|done].
  - rewrite list_lookup_insert_ne in H by done. by right.
Qed.

(** An entry replaced by one of the same class and parent. *)
Lemma tree_ok_insert ip sks i x x' :
  tree_ok ip sks -> sks !! i = Some x -> slot_ok x' ->
  sk_class x' = sk_class x -> sk_parent x' = sk_parent x -> tree_ok ip (<[i := x']> sks).
Proof.
  intros [Hs (i0 & x0 & Hip & H0 & Hl0) Hp] Hi Hok Hc Hpar.
  assert (forall j y, sks !! j = Some y -> exists y', <[i := x']> sks !! j = Some y' /\
    sk_class y' = sk_class y) as Hkeep.
  { intros j y Hj. destruct (decide (j = i)) as [->|Hne].
    - exists x'. rewrite list_lookup_insert_eq by (by eapply lookup_lt_Some). split; congruence.
    - exists y. by rewrite list_lookup_insert_ne. }
  split.
  - intros j y [[-> ->]|[_ Hj]]%insert_case; eauto.
  - destruct (Hkeep _ _ H0) as (y & Hy & Hcy). exists i0, y. split; [done|]. split; congruence.
  - intros j y Hj Hcl Hne. assert (exists y0, sks !! j = Some y0 /\ sk_class y0 = sk_class y /\
      sk_parent y0 = sk_parent y) as (y0 & Hy0 & Hc0 & Hp0).
    { apply insert_case in Hj as [[-> ->]|[_ Hj]]; eauto. }
    destruct (Hp j y0 Hy0) as (m & z & Hm & Hz & Hcz); [congruence|done|].
    destruct (Hkeep _ _ Hz) as (z' & Hz' & Hcz'). exists m, z'. split; [congruence|].
    split; [done|congruence].
Qed.

Lemma pids_ok_insert np sks i x x' :
  pids_ok np sks -> sks !! i = Some x -> (sk_class x' <> CFree -> sk_class x <> CFree) ->
  (sk_class x' <> CFree -> sk_pid x' = sk_pid x) -> pids_ok np (<[i := x']> sks).
Proof.
  intros [Hr Hinj] Hi Hc Hpid.
  assert (forall j y, <[i := x']> sks !! j = Some y -> sk_class y <> CFree ->
    exists y0, sks !! j = Some y0 /\ sk_class y0 <> CFree /\ sk_pid y = sk_pid y0) as Hold.
  { intros j y [[-> ->]|[_ Hj]]%insert_case Hcl; eauto 6. }
  split.
  - intros j y Hj Hcl. destruct (Hold _ _ Hj Hcl) as (y0 & Hy0 & Hc0 & ->). by eapply Hr.
  - intros j j' y y' Hj Hj' Hcl Hcl' Heq. destruct (Hold _ _ Hj Hcl) as (y0 & Hy0 & Hc0 & Hp0).
    destruct (Hold _ _ Hj' Hcl') as (y1 & Hy1 & Hc1 & Hp1).
    eapply (Hinj _ _ y0 y1); [done..|congruence].
Qed.

Lemma pids_ok_mono np np' sks : np <= np' -> pids_ok np sks -> pids_ok np' sks.
Proof. intros Hnp [Hr Hi]. split; [|done]. intros i x H1 H2. pose proof (Hr i x H1 H2). lia. Qed.

(** A new process in a free slot. *)
Lemma tree_ok_new ip sks i x x' j y :
  tree_ok ip sks -> sks !! i = Some x -> sk_class x = CFree -> slot_ok x' ->
  sk_parent x' = Some j -> sks !! j = Some y -> sk_class y = CLive ->
  tree_ok ip (<[i := x']> sks).
Proof.
  intros [Hs (i0 & x0 & Hip & H0 & Hl0) Hp] Hi Hc Hok Hpar Hj Hlive.
  assert (forall m z, sks !! m = Some z -> sk_class z = CLive -> <[i := x']> sks !! m = Some z) as Hkeep.
  { intros m z Hm Hz. rewrite list_lookup_insert_ne; [done|]. intros <-. congruence. }
  split.
  - intros m z [[-> ->]|[_ Hm]]%insert_case; eauto.
  - exists i0, x0. eauto.
  - intros m z [[-> ->]|[_ Hm]]%insert_case Hcl Hne; [by exists j, y; eauto|].
    destruct (Hp _ _ Hm Hcl Hne) as (m' & z' & ? & ? & ?). exists m', z'. eauto.
Qed.

Lemma pids_ok_new np sks i x x' :
  pids_ok np sks -> 1 <= np -> sks !! i = Some x -> sk_pid x' = np ->
  pids_ok (np + 1) (<[i := x']> sks).
Proof.
  intros [Hr Hinj] Hnp Hi Hpid. split.
  - intros j y [[-> ->]|[_ Hj]]%insert_case Hcl; [lia|]. pose proof (Hr _ _ Hj Hcl). lia.
  - intros j j' y y' [[-> ->]|[Hne Hj]]%insert_case [[-> ->]|[Hne' Hj']]%insert_case Hcl Hcl' Heq.
    + done.
    + pose proof (Hr _ _ Hj' Hcl'). lia.
    + pose proof (Hr _ _ Hj Hcl). lia.
    + by eapply Hinj.
Qed.

(** A zombie's slot given back. *)
Lemma tree_ok_reap ip sks i x x' :
  tree_ok ip sks -> sks !! i = Some x -> sk_class x = CZombie -> sk_class x' = CFree ->
  slot_ok x' -> tree_ok ip (<[i := x']> sks).
Proof.
  intros [Hs (i0 & x0 & Hip & H0 & Hl0) Hp] Hi Hc Hc' Hok.
  assert (forall m z, sks !! m = Some z -> sk_class z = CLive -> <[i := x']> sks !! m = Some z) as Hkeep.
  { intros m z Hm Hz. rewrite list_lookup_insert_ne; [done|]. intros <-. congruence. }
  split.
  - intros m z [[-> ->]|[_ Hm]]%insert_case; eauto.
  - exists i0, x0. eauto.
  - intros m z [[-> ->]|[_ Hm]]%insert_case Hcl Hne; [done|].
    destruct (Hp _ _ Hm Hcl Hne) as (m' & z' & ? & ? & ?). exists m', z'. eauto.
Qed.
(** Children handed to init. *)
Definition rep_skel (cur : nat) (ip : option nat) (x : skel) : skel :=
  if bool_decide (sk_parent x = Some cur)
  then mkskel (sk_class x) ip (sk_ofile x) (sk_cwd x) (sk_pid x) (sk_kstack x) (sk_pgdir x) (sk_sz x)
  else x.

Lemma reparented_skel cur ip p : skel_of (reparented cur ip p) = rep_skel cur ip (skel_of p).
Proof. unfold reparented, rep_skel. cbn. by case_bool_decide. Qed.

Lemma rep_skel_class cur ip x : sk_class (rep_skel cur ip x) = sk_class x.
Proof. unfold rep_skel. by case_bool_decide. Qed.
Lemma rep_skel_pid cur ip x : sk_pid (rep_skel cur ip x) = sk_pid x.
Proof. unfold rep_skel. by case_bool_decide. Qed.
Lemma rep_skel_ok cur ip x : slot_ok x -> slot_ok (rep_skel cur ip x).
Proof.
  unfold rep_skel, slot_ok. case_bool_decide as Hp; [|done]. cbn.
  destruct (sk_class x); [|done..]. intros (? & _). congruence.
Qed.

Lemma tree_ok_exit ip sks cur x x' :
  tree_ok ip sks -> sks !! cur = Some x -> sk_class x = CLive -> ip <> Some cur ->
  sk_class x' = CZombie -> slot_ok x' -> sk_parent x' = sk_parent (rep_skel cur ip x) ->
  tree_ok ip (<[cur := x']> (rep_skel cur ip <$> sks)).
Proof.
  intros [Hs (i0 & x0 & Hip & H0 & Hl0) Hp] Hcur Hlive Hne Hz Hok Hpar.
  assert (forall m z, m <> cur -> sks !! m = Some z ->
    <[cur := x']> (rep_skel cur ip <$> sks) !! m = Some (rep_skel cur ip z)) as Hkeep.
  { intros m z Hm Hz'. by rewrite list_lookup_insert_ne, list_lookup_fmap, Hz'. }
  assert (i0 <> cur) as Hi0 by congruence.
  assert (forall i y, sks !! i = Some y -> sk_class y <> CFree -> ip <> Some i ->
    exists j z, sk_parent (rep_skel cur ip y) = Some j /\
      <[cur := x']> (rep_skel cur ip <$> sks) !! j = Some z /\ sk_class z = CLive) as Hpar'.
  { intros i y Hi Hcl Hni. destruct (Hp _ _ Hi Hcl Hni) as (j & z & Hj & Hz' & Hcz).
    unfold rep_skel at 1. case_bool_decide as Hc.
    - exists i0, (rep_skel cur ip x0). split; [done|]. rewrite rep_skel_class. eauto.
    - exists j, (rep_skel cur ip z). split; [done|]. rewrite rep_skel_class. split; [|done].
      apply Hkeep; [congruence|done]. }
  split.
  - intros m z [[-> ->]|[_ Hm]]%insert_case; [done|]. rewrite list_lookup_fmap in Hm.
    apply fmap_Some in Hm as (y & Hy & ->). eapply rep_skel_ok, Hs, Hy.
  - exists i0, (rep_skel cur ip x0). rewrite rep_skel_class. eauto.
  - intros m z [[-> ->]|[_ Hm]]%insert_case Hcl Hni.
    + rewrite Hpar. eapply Hpar'; [done|congruence|done].
    + rewrite list_lookup_fmap in Hm. apply fmap_Some in Hm as (y & Hy & ->).
      rewrite rep_skel_class in Hcl. by eapply Hpar'.
Qed.

Lemma pids_ok_fmap np sks f :
  (forall x, sk_class (f x) = sk_class x /\ sk_pid (f x) = sk_pid x) ->
  pids_ok np sks -> pids_ok np (f <$> sks).
Proof.
  intros Hf [Hr Hinj]. split.
  - intros i x Hi Hc. rewrite list_lookup_fmap in Hi. apply fmap_Some in Hi as (y & Hy & ->).
    destruct (Hf y) as [Hcy ->]. rewrite Hcy in Hc. by eapply Hr.
  - intros i j x y Hi Hj Hc Hc' Heq. rewrite list_lookup_fmap in Hi, Hj.
    apply fmap_Some in Hi as (x0 & Hx0 & ->). apply fmap_Some in Hj as (y0 & Hy0 & ->).
    destruct (Hf x0) as [Hcx Hpx], (Hf y0) as [Hcy Hpy]. rewrite Hcx in Hc. rewrite Hcy in Hc'.
    eapply (Hinj _ _ x0 y0); [done..|congruence].
Qed.

(** The free and zombie slots as [fork] and [wait] expect them. *)
Lemma tree_free_slots ip k : tree_ok ip (skels k) -> free_slots (ptable (k_ps k)).
Proof.
  intros Ht i q Hi Hq. pose proof (tr_slot _ _ Ht i (skel_of q)) as Hs.
  unfold skels, slot_ok in Hs. rewrite list_lookup_fmap, Hi in Hs. cbn in Hs.
  rewrite Hq in Hs. by apply Hs.
Qed.
Lemma tree_zombie_slots ip k : tree_ok ip (skels k) -> zombie_slots (ptable (k_ps k)).
Proof.
  intros Ht i q Hi Hq. pose proof (tr_slot _ _ Ht i (skel_of q)) as Hs.
  unfold skels, slot_ok in Hs. rewrite list_lookup_fmap, Hi in Hs. cbn in Hs.
  rewrite Hq in Hs. by apply Hs.
Qed.
Lemma tree_live_slot ip k i p :
  tree_ok ip (skels k) -> ptable (k_ps k) !! i = Some p -> class_of (p_state p) = CLive ->
  is_Some (p_cwd p) /\ 0 <= p_sz p < 2 ^ 32.
Proof.
  intros Ht Hi Hq. pose proof (tr_slot _ _ Ht i (skel_of p)) as Hs.
  unfold skels, slot_ok in Hs. rewrite list_lookup_fmap, Hi in Hs. cbn in Hs.
  rewrite Hq in Hs. by apply Hs.
Qed.

Lemma lookup_skels k i p : ptable (k_ps k) !! i = Some p -> skels k !! i = Some (skel_of p).
Proof. intros Hi. unfold skels. by rewrite list_lookup_fmap, Hi. Qed.
(** ** The operations that change the tree *)

Lemma KI_kinv pol N k : KI pol N k -> kinv pol (owned (ptable (k_ps k))) k.
Proof. intros []. by split. Qed.

Lemma grow_op pol N k cur p n :
  KI pol N k -> ptable (k_ps k) !! cur = Some p -> p_state p = RUNNING ->
  allowed k cur (OGrow n) -> wp (exec_op pol cur (OGrow n)) (op_post pol N cur k) k.
Proof.
  intros HK Hcur Hrun Hal. pose proof (lookup_lt_Some _ _ _ Hcur) as Hlt.
  destruct (tree_live_slot _ _ _ _ (ki_tree _ _ _ _ _ _ HK) Hcur) as [Hcwd Hsz]; [by rewrite Hrun|].
  cbn [exec_op]. rewrite wp_bind. eapply wp_mono.
  { eapply growproc_spec; [by eapply KI_kinv|done|done|done|]. intros Hn. by apply Hal. }
  cbn beta. intros z k' ((Hinv & Hl & Hr) & Hsr & Ht). rewrite wp_ret.
  pose proof Hsr as (_ & Hnp & Hip & _).
  assert (exists p', ptable (k_ps k') = <[cur := p']> (ptable (k_ps k)) /\ p_state p' = RUNNING /\
    p_chan p' = p_chan p /\ exists sz, 0 <= sz < 2 ^ 32 /\ skel_of p' =
      mkskel CLive (p_parent p) (p_ofile p) (p_cwd p) (p_pid p) (p_kstack p) (p_pgdir p) sz) as Hp'.
  { destruct Ht as [[_ Ht]|(_ & sz & Hsz' & Ht)].
    - exists p. rewrite list_insert_id by done. do 3 (split; [done|]). exists (p_sz p).
      split; [done|]. unfold skel_of. by rewrite Hrun.
    - exists (set_p_sz sz p). do 3 (split; [done|]). exists sz. split; [done|].
      unfold skel_of. cbn. by rewrite Hrun. }
  destruct Hp' as (p' & Ht' & Hrun' & Hch' & sz & Hsz' & Hsk').
  assert (skels k' = <[cur := skel_of p']> (skels k)) as Hsks
    by (unfold skels; by rewrite Ht', list_fmap_insert).
  pose proof (lookup_skels _ _ _ Hcur) as Hskp.
  exists p'. split; [rewrite Ht'; by apply list_lookup_insert_eq|]. split; [|split; [done|]].
  - split; [done|done|done|rewrite Hip, Hsks, Hsk'|rewrite Hnp, Hsks, Hsk'|rewrite Hnp; apply HK|].
    + eapply tree_ok_insert; [apply HK|done|done|cbn; by rewrite Hrun|done].
    + eapply pids_ok_insert; [apply HK|done|cbn; by rewrite Hrun|done].
    + rewrite Ht'. apply chans_ok_insert; [apply HK|]. left. unfold chan_ok.
      by rewrite Hch', (running_chan _ _ _ _ _ HK Hcur Hrun).
  - intros j Hj. rewrite Ht', runs_insert by done. naive_solver.
Qed.

(** What [fork] makes of the table: nothing, or one free slot changed. *)
Lemma fork_cases pol N k k' cur p z :
  KI pol N k -> N < 2 ^ 31 - 1 -> ptable (k_ps k) !! cur = Some p -> p_state p = RUNNING ->
  fork_failed (k_ps k) (k_ps k') z \/ fork_ok cur p (k_ps k) (k_ps k') z ->
  (ptable (k_ps k') = ptable (k_ps k) /\ nextpid (k_ps k) <= nextpid (k_ps k') <= N + 1) \/
  exists i q q', ptable (k_ps k) !! i = Some q /\ p_state q = UNUSED /\
    ptable (k_ps k') = <[i := q']> (ptable (k_ps k)) /\ p_state q' <> RUNNING /\
    p_chan q' = p_chan q /\ 1 <= nextpid (k_ps k') <= N + 1 /\
    tree_ok (initproc (k_ps k)) (<[i := skel_of q']> (skels k)) /\
    pids_ok (nextpid (k_ps k')) (<[i := skel_of q']> (skels k)).
Proof.
  intros HK HN Hcur Hrun. pose proof (ki_np _ _ _ _ _ _ HK) as Hnp.
  pose proof (ki_tree _ _ _ _ _ _ HK) as Htree. pose proof (lookup_skels _ _ _ Hcur) as Hskp.
  destruct (tree_live_slot _ _ _ _ Htree Hcur) as [[cwd Hcwd] Hsz]; [by rewrite Hrun|].
  unfold fork_failed, fork_ok. rewrite (i32_small (nextpid (k_ps k) + 1)) by lia.
  intros [(_ & [Ht|(i & q & q' & Hi & Hf & Ht)] & Hnp')|
    (i & q & c & pg & ks & Hi & Hq & Hpg & Hks & Hf & Ht & _ & Hnp')].
  - left. split; [done|lia].
  - right. exists i, q, q'. destruct Hf as (Hq & Hq' & Hpar & Hof & Hc & _ & Hch).
    pose proof (tree_free_slots _ _ Htree _ _ Hi Hq) as (Hf1 & Hf2 & Hf3).
    do 6 (split; [first [done|congruence|lia]|]). split.
    + eapply tree_ok_insert; [done|by apply lookup_skels| |cbn; by rewrite Hq, Hq'|done].
      unfold slot_ok, skel_of. cbn. by rewrite Hq', Hpar, Hof, Hc.
    + apply (pids_ok_mono (nextpid (k_ps k))); [lia|].
      eapply pids_ok_insert; [apply HK|by apply lookup_skels|cbn; by rewrite Hq'|cbn; by rewrite Hq'].
  - right. exists i, q, c. destruct Hf. do 6 (split; [first [done|congruence|lia]|]).
    assert (sk_class (skel_of q) = CFree) as Hqf by (cbn; by rewrite Hq). split.
    + eapply (tree_ok_new _ _ _ (skel_of q) _ cur (skel_of p));
        [done|by apply lookup_skels|done| |done|done|cbn; by rewrite Hrun].
      unfold slot_ok, skel_of. cbn. rewrite fk_state. cbn. rewrite fk_cwd, fk_sz, Hcwd. eauto.
    + rewrite Hnp'. eapply pids_ok_new; [apply HK|lia|by apply lookup_skels|done].
Qed.

Lemma fork_op pol N k cur p :
  KI pol N k -> N < 2 ^ 31 - 1 -> ptable (k_ps k) !! cur = Some p -> p_state p = RUNNING ->
  wp (exec_op pol cur OFork) (op_post pol (N + 1) cur k) k.
Proof.
  intros HK HN Hcur Hrun. pose proof (ki_tree _ _ _ _ _ _ HK) as Htree.
  destruct (tree_live_slot _ _ _ _ Htree Hcur) as [[cwd Hcwd] Hsz]; [by rewrite Hrun|].
  cbn [exec_op]. rewrite wp_bind. eapply wp_mono.
  { eapply fork_spec; [by eapply KI_kinv|by eapply tree_free_slots|done|done|done]. }
  cbn beta. intros z k' ((Hinv & Hl & Hr) & Hip & _ & Hor). rewrite wp_ret.
  destruct (fork_cases _ _ _ _ _ _ _ HK HN Hcur Hrun Hor)
    as [[Ht Hnp']|(i & q & q' & Hi & Hq & Ht & Hst & Hch & Hnp' & Htr & Hpd)].
  - exists p. rewrite Ht. split; [done|]. split; [|split; [done|done]].
    assert (skels k' = skels k) as Hsks by (unfold skels; by rewrite Ht).
    pose proof (ki_np _ _ _ _ _ _ HK).
    split; [done|done|done|by rewrite Hip, Hsks| |lia|rewrite Ht; apply HK].
    rewrite Hsks. eapply pids_ok_mono; [|apply HK]. lia.
  - assert (cur <> i) as Hne by congruence. exists p. rewrite Ht.
    split; [by rewrite list_lookup_insert_ne|]. split; [|split; [done|]].
    + assert (skels k' = <[i := skel_of q']> (skels k)) as Hsks
        by (unfold skels; by rewrite Ht, list_fmap_insert).
      split; [done|done|done|by rewrite Hip, Hsks|by rewrite Hsks|done|].
      rewrite Ht. apply chans_ok_insert; [apply HK|]. left. unfold chan_ok. rewrite Hch.
      pose proof (ki_chans _ _ _ _ _ _ HK i q Hi ltac:(done)) as Hc. unfold chan_ok in Hc.
      rewrite Hq in Hc. destruct (p_chan q); naive_solver.
    + intros j Hj. rewrite runs_insert by (by eapply lookup_lt_Some).
      destruct (decide (j = i)) as [->|]; [|naive_solver].
      rewrite (runs_lookup _ _ _ Hi), Hq. naive_solver.
Qed.
Lemma zombie_child_true cur q :
  zombie_child cur q = true -> p_parent q = Some cur /\ p_state q = ZOMBIE.
Proof. unfold zombie_child. intros H. by zb. Qed.

(** A zombie reaped by its parent. *)
Lemma reap_KI pol N k k' i q :
  KIg pol N true None None k -> ptable (k_ps k) !! i = Some q -> p_state q = ZOMBIE ->
  kinv pol (owned (ptable (k_ps k'))) k' -> ptable (k_ps k') = <[i := reaped q]> (ptable (k_ps k)) ->
  same_rest (set_ptable_locked false (k_ps k)) (k_ps k') -> KI pol N k'.
Proof.
  intros HK Hi Hq (Hinv & Hl & Hr) Ht (_ & Hnp & Hip & _). cbn in Hnp, Hip.
  assert (skels k' = <[i := skel_of (reaped q)]> (skels k)) as Hsks
    by (unfold skels; by rewrite Ht, list_fmap_insert).
  destruct (tree_zombie_slots _ _ (ki_tree _ _ _ _ _ _ HK) _ _ Hi Hq) as [Hof Hcwd].
  assert (sk_class (skel_of q) = CZombie) as Hz by (cbn; by rewrite Hq).
  split; [done|done|done|rewrite Hip, Hsks|rewrite Hnp, Hsks|rewrite Hnp; apply HK|rewrite Ht].
  - eapply tree_ok_reap; [apply HK|by apply lookup_skels|done|done|].
    unfold slot_ok, skel_of, reaped. cbn. by rewrite Hof, Hcwd.
  - eapply pids_ok_insert; [apply HK|by apply lookup_skels|done|done].
  - apply chans_ok_insert; [apply HK|]. left.
    pose proof (ki_chans _ _ _ _ _ _ HK i q Hi ltac:(done)) as Hc.
    unfold chan_ok, reaped in *. cbn. rewrite Hq in Hc. destruct (p_chan q); naive_solver.
Qed.

Lemma wait_loop_op pol N k cur p :
  KIg pol N true None None k -> ptable (k_ps k) !! cur = Some p -> p_state p = RUNNING ->
  wp (let! c := waitx_loop cur in ret (match c with Asleep _ => true | _ => false end))
    (op_post pol N cur k) k.
Proof.
  intros HK Hcur Hrun. pose proof (lookup_lt_Some _ _ _ Hcur) as Hlt.
  assert (p_chan p = ChNull) as Hch.
  { pose proof (ki_chans _ _ _ _ _ _ HK cur p Hcur ltac:(done)) as Hc.
    unfold chan_ok in Hc. rewrite Hrun in Hc. destruct (p_chan p); naive_solver. }
  rewrite wp_bind. eapply wp_mono.
  { apply (waitx_loop_spec pol cur p); [apply HK|apply HK|apply HK| |done|done].
    eapply tree_zombie_slots, HK. }
  cbn beta. intros c k'. unfold waitx_post. rewrite wp_ret.
  destruct (first_from _ _ 0) as [i|]; [|destruct (negb _ || negb _)].
  - intros (q & Hi & [_ Hq]%zombie_child_true & -> & Hk' & Ht & Hsr).
    assert (cur <> i) as Hne by congruence. exists p. rewrite Ht.
    split; [by rewrite list_lookup_insert_ne|]. split; [by eapply reap_KI|]. split; [done|].
    intros j Hj. rewrite runs_insert by (by eapply lookup_lt_Some).
    destruct (decide (j = i)) as [->|]; [|naive_solver].
    rewrite (runs_lookup _ _ _ Hi), Hq. unfold reaped. cbn. naive_solver.
  - intros [-> ->]. exists p. split; [done|]. split; [|split; [done|done]].
    eapply KIg_frame; [done| |done|done|apply HK]. apply inv_lock, HK.
  - intros (-> & Hinv & Hrs & Ht & Hsr). destruct k' as [s' r']. cbn in Hinv, Hrs, Ht, Hsr. subst r'.
    set (p' := set_p_state SLEEPING (set_p_chan (ChProc cur) p)) in *.
    exists p'. cbn [k_ps k_rs]. rewrite Ht. split; [by apply list_lookup_insert_eq|].
    split; [|split; [done|]].
    + rewrite back_other by done. eapply KIg_frame; [done|done|done| |]; rewrite Ht.
      * eapply same_skel_insert; [done|]. unfold p', skel_of. cbn. by rewrite Hrun.
      * apply chans_ok_insert; [apply HK|]. left. unfold chan_ok. cbn. naive_solver.
    + intros j Hj. rewrite runs_insert by done. naive_solver.
Qed.

Lemma KI_locked pol N k :
  KI pol N k -> KIg pol N true None None (mkkst (set_ptable_locked true (k_ps k)) (k_rs k)).
Proof. intros HK. eapply KIg_frame; [done| |done|done|apply HK]. apply inv_lock, HK. Qed.

Lemma wait_op pol N k cur p :
  KI pol N k -> ptable (k_ps k) !! cur = Some p -> p_state p = RUNNING ->
  wp (exec_op pol cur OWait) (op_post pol N cur k) k.
Proof.
  intros HK Hcur Hrun. cbn [exec_op]. unfold waitx.
  pose proof (wait_loop_op pol N _ cur p (KI_locked _ _ _ HK) Hcur Hrun) as Hw. rewrite !wp_bind in *.
  rewrite wp_on_ps, wp_acquire. split; [apply HK|]. exact Hw.
Qed.
Lemma wakes_chan i p p' : wakes p p' -> chan_ok i p -> chan_ok i p'.
Proof.
  intros [->|(Hs & Hs' & Hc & _)]; [done|]. unfold chan_ok. rewrite Hc, Hs, Hs'.
  destruct (p_chan p); naive_solver.
Qed.
Lemma wakes_running p p' : wakes p p' -> p_state p' = RUNNING <-> p_state p = RUNNING.
Proof. intros [->|(Hs & Hs' & _)]; [done|]. split; congruence. Qed.

Lemma exit_entry_chan pol cur par ip t z i p :
  chan_ok i p -> chan_ok i (exit_entry pol cur par ip t z p).
Proof.
  intros Hp. unfold exit_entry. assert (forall q, chan_ok i q -> chan_ok i (reparented cur ip q)) as Hr.
  { intros q. unfold reparented. by case_bool_decide. }
  apply Hr. destruct z; by repeat apply wake_if_chan.
Qed.
Lemma exit_entry_running pol cur par ip t z p :
  p_state (exit_entry pol cur par ip t z p) = RUNNING <-> p_state p = RUNNING.
Proof. unfold exit_entry. rewrite reparented_state. destruct z; by rewrite !wake_if_running. Qed.

(** The table after [exit], entry by entry. *)
Lemma exit_tbl_lookup_ne pol cur par ip t tbl j :
  j <> cur -> exit_tbl pol cur par ip t tbl !! j =
    exit_entry pol cur par ip t (existsb (zombie_child cur) tbl) <$> tbl !! j.
Proof. intros Hj. unfold exit_tbl. by rewrite list_lookup_alter_ne, list_lookup_fmap. Qed.

Lemma exit_tbl_lookup pol cur par ip t tbl q :
  tbl !! cur = Some q -> p_state q = RUNNING ->
  exit_tbl pol cur par ip t tbl !! cur = Some (set_p_state ZOMBIE (reparented cur ip q)).
Proof.
  intros Hq Hrun. unfold exit_tbl. rewrite list_lookup_alter_eq, list_lookup_fmap, Hq. cbn.
  by rewrite exit_entry_awake by congruence.
Qed.

Lemma exit_tbl_skels pol cur par ip t tbl q :
  tbl !! cur = Some q -> p_state q = RUNNING ->
  skel_of <$> exit_tbl pol cur par ip t tbl =
    <[cur := skel_of (set_p_state ZOMBIE (reparented cur ip q))]>
      (rep_skel cur ip <$> (skel_of <$> tbl)).
Proof.
  intros Hq Hrun. apply list_eq. intros j. rewrite list_lookup_fmap.
  pose proof (lookup_lt_Some _ _ _ Hq). destruct (decide (j = cur)) as [->|Hne].
  - rewrite (exit_tbl_lookup _ _ _ _ _ _ _ Hq Hrun), list_lookup_insert_eq; [done|].
    by rewrite !length_fmap.
  - rewrite exit_tbl_lookup_ne, list_lookup_insert_ne, !list_lookup_fmap by done.
    destruct (tbl !! j); [|done]. cbn. by rewrite exit_entry_skel, reparented_skel.
Qed.

Lemma exit_op pol N k cur p :
  KI pol N k -> ptable (k_ps k) !! cur = Some p -> p_state p = RUNNING ->
  allowed k cur OExit -> wp (exec_op pol cur OExit) (op_post pol N cur k) k.
Proof.
  intros HK Hcur Hrun Hal. pose proof (ki_tree _ _ _ _ _ _ HK) as Htree.
  pose proof (lookup_skels _ _ _ Hcur) as Hskp. pose proof (running_chan _ _ _ _ _ HK Hcur Hrun) as Hch.
  destruct (tree_live_slot _ _ _ _ Htree Hcur) as [[cwd Hcwd] Hsz]; [by rewrite Hrun|].
  cbn [exec_op]. rewrite wp_bind. eapply wp_mono; [by eapply exit_spec; [eapply KI_kinv|..]|].
  cbn beta. intros [] k' (Hinv & Hr & (Hl & Hnp & Hip & Htk) & tbl & Hw & Hq & Ht).
  cbn in Hl, Hnp, Hip. rewrite wp_ret.
  set (t := ticks (k_ps k)) in *. set (q := closed_proc t p) in *.
  assert (p_state q = RUNNING) as Hqr by done.
  assert (skels k' = <[cur := skel_of (set_p_state ZOMBIE (reparented cur (initproc (k_ps k)) q))]>
    (rep_skel cur (initproc (k_ps k)) <$> skels k)) as Hsks.
  { unfold skels. rewrite Ht, (exit_tbl_skels _ _ _ _ _ _ _ Hq Hqr), (woke_but_skels _ _ _ _ Hw Hq).
    by rewrite list_fmap_insert, list_insert_insert_eq. }
  exists (set_p_state ZOMBIE (reparented cur (initproc (k_ps k)) q)).
  split; [rewrite Ht; by apply exit_tbl_lookup|]. rewrite back_other by done.
  split; [|split; [done|]].
  - split; [done|done|done|rewrite Hip, Hsks|rewrite Hnp, Hsks|rewrite Hnp; apply HK|].
    + eapply tree_ok_exit; [done|done|cbn; by rewrite Hrun|done|done| |].
      * unfold reparented. by case_bool_decide.
      * change (p_parent (set_p_state ZOMBIE (reparented cur (initproc (k_ps k)) q)) =
          sk_parent (rep_skel cur (initproc (k_ps k)) (skel_of p))).
        unfold reparented, rep_skel. cbn. by case_bool_decide.
    + eapply (pids_ok_insert _ _ _ (rep_skel cur (initproc (k_ps k)) (skel_of p))).
      * apply pids_ok_fmap; [|apply HK]. intros x. by rewrite rep_skel_class, rep_skel_pid.
      * by rewrite list_lookup_fmap, Hskp.
      * rewrite rep_skel_class. cbn. by rewrite Hrun.
      * intros _. rewrite rep_skel_pid. unfold reparented. by case_bool_decide.
    + rewrite Ht. intros j x Hj _. destruct (decide (j = cur)) as [->|Hne].
      * rewrite (exit_tbl_lookup _ _ _ _ _ _ _ Hq Hqr) in Hj. injection Hj as <-.
        unfold chan_ok. replace (p_chan _) with (p_chan p) by (unfold reparented; by case_bool_decide).
        by rewrite Hch.
      * rewrite exit_tbl_lookup_ne in Hj by done. apply fmap_Some in Hj as (y & Hy & ->).
        apply exit_entry_chan. destruct Hw as [Hlen Hw].
        destruct (lookup_lt_is_Some_2 (ptable (k_ps k)) j) as [x Hx].
        { rewrite <- Hlen. by eapply lookup_lt_Some. }
        destruct (Hw _ _ Hne Hx) as (y' & Hy' & Hwk). simplify_eq.
        eapply wakes_chan; [done|]. by apply (ki_chans _ _ _ _ _ _ HK).
  - intros j Hj. rewrite Ht. unfold runs. rewrite exit_tbl_lookup_ne by done.
    destruct Hw as [Hlen Hw]. destruct (ptable (k_ps k) !! j) as [x|] eqn:Hx.
    + destruct (Hw _ _ Hj Hx) as (y & -> & Hwk). cbn. split.
      * intros (z & [= <-] & Hz). rewrite exit_entry_running, (wakes_running _ _ Hwk) in Hz. eauto.
      * intros (z & [= <-] & Hz). eexists. split; [done|].
        by rewrite exit_entry_running, (wakes_running _ _ Hwk).
    + rewrite (proj2 (lookup_ge_None tbl j)) by (rewrite Hlen; by apply lookup_ge_None). naive_solver.
Qed.
(** ** One operation of a process *)

Lemma op_post_mono pol N N' cur k b k' :
  N <= N' -> op_post pol N cur k b k' -> op_post pol N' cur k b k'.
Proof. intros HN (q & ? & ? & ?). exists q. split; [done|]. split; [by eapply KIg_mono|done]. Qed.

Lemma exec_op_post pol N k cur o :
  KI pol N k -> N < 2 ^ 31 - 1 -> runs (ptable (k_ps k)) cur -> allowed k cur o ->
  wp (exec_op pol cur o) (op_post pol (N + 1) cur k) k.
Proof.
  intros HK HN Hruns Hal. pose proof Hruns as (p & Hcur & Hrun).
  assert (wp (exec_op pol cur o) (op_post pol N cur k) k ->
    wp (exec_op pol cur o) (op_post pol (N + 1) cur k) k) as Hmono.
  { intros H. eapply wp_mono; [exact H|]. intros b k'. apply op_post_mono. lia. }
  destruct o; [by eapply fork_op|apply Hmono..]; eauto using wait_op, kill_op, set_priority_op,
    pinfo_op, yield_op, sleep_op, wakeup_op, grow_op, timer_op, exit_op.
Qed.

Lemma run_op_KI pol N k cur o :
  KI pol N k -> N < 2 ^ 31 - 1 -> runs (ptable (k_ps k)) cur -> allowed k cur o ->
  wp (run_op pol cur o) (fun b k' => KI pol (N + 1) k' /\
    forall j, runs (ptable (k_ps k')) j <-> runs (ptable (k_ps k)) j /\ (b = true \/ j <> cur)) k.
Proof.
  intros HK HN Hruns Hal. unfold run_op. rewrite wp_bind.
  eapply wp_mono; [by apply (exec_op_post pol N)|]. cbn beta.
  intros b k' (q & Hq & HK' & Hb & Hother). destruct b.
  - rewrite wp_bind, wp_on_ps. eapply wp_mono; [by eapply leave_KI|]. cbn beta.
    intros [] s' [HK2 Hr2]. rewrite wp_ret. split; [done|]. intros j. cbn [k_ps]. rewrite Hr2.
    destruct (decide (j = cur)) as [->|Hne]; [|rewrite (Hother j Hne); naive_solver].
    rewrite (runs_lookup _ _ _ Hq). naive_solver.
  - rewrite wp_ret. split; [done|]. intros j.
    destruct (decide (j = cur)) as [->|Hne]; [|rewrite (Hother j Hne); naive_solver].
    rewrite (runs_lookup _ _ _ Hq). naive_solver.
Qed.

(** ** One turn of a scheduler *)

(** Aging only touches the level and the age of a process. *)
Definition same_core (p p' : proc) : Prop :=
  skel_of p' = skel_of p /\ p_state p' = p_state p /\ p_chan p' = p_chan p.

#[local] Instance same_core_trans : Transitive same_core.
Proof. unfold Transitive, same_core. intuition congruence. Qed.

Lemma Forall2_core_refl (tbl : list proc) : Forall2 same_core tbl tbl.
Proof. by apply Forall_Forall2_diag, Forall_true. Qed.
Lemma Forall2_core_trans t1 t2 t3 :
  Forall2 same_core t1 t2 -> Forall2 same_core t2 t3 -> Forall2 same_core t1 t3.
Proof. intros H1 H2. by transitivity t2. Qed.

Lemma promote_all_core t qs tbl : Forall2 same_core tbl (promote_all t qs tbl).
Proof.
  revert tbl. induction qs as [|q qs IH]; intros tbl; cbn; [apply Forall2_core_refl|].
  eapply Forall2_core_trans; [|apply IH]. apply Forall2_lookup. intros j.
  destruct (decide (j = q)) as [->|Hne].
  - rewrite list_lookup_alter_eq. destruct (tbl !! q); cbn; by constructor.
  - rewrite list_lookup_alter_ne by done. destruct (tbl !! j); by constructor.
Qed.

Lemma age_queue_core t i tbl qs : Forall2 same_core tbl (age_queue t i (tbl, qs)).1.
Proof. cbn. destruct (span _ _). apply promote_all_core. Qed.

Lemma age_all_core t tbl qs : Forall2 same_core tbl (age_all t (tbl, qs)).1.
Proof.
  unfold age_all. generalize (seq 1 (NUM_QUEUES - 1)). intros l. revert tbl qs.
  induction l as [|i l IH]; intros tbl qs; cbn [foldl]; [apply Forall2_core_refl|].
  pose proof (age_queue_core t i tbl qs) as Ha. destruct (age_queue t i (tbl, qs)) as [tbl1 qs1].
  eapply Forall2_core_trans; [exact Ha|apply IH].
Qed.

Lemma choose_core pol pos t tbl qs : Forall2 same_core tbl (choose pol pos t tbl qs).1.1.
Proof.
  destruct pol; cbn; try apply Forall2_core_refl.
  pose proof (age_all_core t tbl qs) as Ha. destruct (age_all t (tbl, qs)) as [tbl1 qs1].
  by destruct (pick_first qs1) as [[]|].
Qed.

Lemma core_skels tbl tbl' : Forall2 same_core tbl tbl' -> same_skel tbl tbl'.
Proof.
  intros H. unfold same_skel. induction H as [|p p' tbl tbl' [Hs _] _ IH]; cbn; [done|].
  by rewrite Hs, IH.
Qed.
Lemma core_chans ce tbl tbl' : Forall2 same_core tbl tbl' -> chans_ok ce tbl -> chans_ok ce tbl'.
Proof.
  intros H Hc i p' Hi Hne. destruct (Forall2_lookup_r _ _ _ _ _ H Hi) as (p & Hp & _ & Hs & Hch).
  unfold chan_ok. rewrite Hs, Hch. by apply Hc.
Qed.
Lemma core_runs tbl tbl' j : Forall2 same_core tbl tbl' -> runs tbl' j <-> runs tbl j.
Proof.
  intros H. unfold runs. split; intros (p & Hp & Hs).
  - destruct (Forall2_lookup_r _ _ _ _ _ H Hp) as (q & Hq & _ & Hst & _). exists q. split; congruence.
  - destruct (Forall2_lookup_l _ _ _ _ _ H Hp) as (q & Hq & _ & Hst & _). exists q. split; congruence.
Qed.
Lemma dispatched_ok pol p :
  p_state p = RUNNABLE -> skel_of (dispatched pol p) = skel_of p /\
    p_state (dispatched pol p) = RUNNING /\ p_chan (dispatched pol p) = p_chan p.
Proof. intros Hs. unfold skel_of. by destruct pol; cbn; rewrite Hs. Qed.

(** Tidying up after a sleep. *)
Lemma sleep_resume_KI pol N k i p lk :
  KIg pol N true None (Some i) k -> ptable (k_ps k) !! i = Some p -> p_state p = RUNNING ->
  wp (sleep_resume i lk) (fun _ s' => KIg pol N lk None None (mkkst s' (k_rs k)) /\
    ptable s' = <[i := set_p_chan ChNull p]> (ptable (k_ps k))) (k_ps k).
Proof.
  intros HK Hi Hrun. eapply wp_mono; [apply (sleep_resume_spec pol); [apply HK|apply HK|done]|].
  cbn beta. intros [] s' (Hinv & _ & Ht & Hsr). split; [|done].
  eapply KIg_frame; [done|done|done| |]; rewrite Ht.
  - by eapply same_skel_insert.
  - intros j q [[-> ->]|[Hne Hj]]%insert_case _; [done|].
    eapply (ki_chans _ _ _ _ _ _ HK); [done|congruence].
Qed.

Lemma resume_op pol N k i p :
  KIg pol N true None (Some i) k -> ptable (k_ps k) !! i = Some p -> p_state p = RUNNING ->
  wp (resume i) (op_post pol N i k) k.
Proof.
  intros HK Hi Hrun. pose proof (lookup_lt_Some _ _ _ Hi) as Hlt.
  set (p0 := set_p_chan ChNull p).
  assert (wp (do! on_ps (sleep_resume i false); ret false) (op_post pol N i k) k) as Hsleep.
  { rewrite wp_bind, wp_on_ps. eapply wp_mono; [by eapply sleep_resume_KI|]. cbn beta.
    intros [] s' [HK' Ht]. rewrite wp_ret. exists p0. cbn [k_ps]. rewrite Ht.
    split; [by apply list_lookup_insert_eq|]. split; [done|]. split; [done|].
    intros j Hj. rewrite runs_insert by done. naive_solver. }
  assert (wp (do! on_ps (sleep_resume i true); let! c := waitx_loop i in
    ret (match c with Asleep _ => true | _ => false end)) (op_post pol N i k) k) as Hwait.
  { rewrite wp_bind, wp_on_ps. eapply wp_mono; [by eapply sleep_resume_KI|]. cbn beta.
    intros [] s' [HK' Ht]. eapply wp_mono; [apply (wait_loop_op pol N _ i p0 HK'); [|done]|].
    { cbn. rewrite Ht. by apply list_lookup_insert_eq. }
    cbn beta. intros b k' (q & Hq & HKq & Hb & Hoth). exists q. do 3 (split; [done|]).
    intros j Hj. rewrite (Hoth j Hj). cbn [k_ps]. rewrite Ht, runs_insert by done. naive_solver. }
  unfold resume. rewrite wp_bind, wp_getp. exists p. split; [done|].
  destruct (p_chan p) eqn:Hch; try done.
  rewrite wp_bind, wp_on_ps, wp_release. split; [apply HK|]. rewrite wp_ret. exists p.
  split; [done|]. split; [|done]. eapply KIg_frame; [done| |done|done|].
  - apply inv_lock, HK.
  - intros j q Hj _. cbn in Hj. destruct (decide (j = i)) as [->|Hne].
    + simplify_eq. unfold chan_ok. by rewrite Hch.
    + eapply (ki_chans _ _ _ _ _ _ HK); [done|congruence].
Qed.

(** The state in which a chosen process is switched to. *)
Lemma entered_KI pol N k s' tbl i p :
  KI pol N k -> Forall2 same_core (ptable (k_ps k)) tbl -> tbl !! i = Some p ->
  p_state p = RUNNABLE -> inv pol None s' -> ptable s' = <[i := dispatched pol p]> tbl ->
  same_rest (set_ptable_locked true (k_ps k)) s' ->
  KIg pol N true None (Some i) (mkkst s' (k_rs k)) /\ ~ runs (ptable (k_ps k)) i /\
  forall j, j <> i -> runs (ptable s') j <-> runs (ptable (k_ps k)) j.
Proof.
  intros HK Hcore Hi Hst Hinv Ht Hsr. destruct (dispatched_ok pol p Hst) as (Hsk & Hrun & Hch).
  split; [|split].
  - eapply KIg_frame; [done|done|done| |]; rewrite Ht.
    + eapply same_skel_trans; [by apply core_skels|]. by eapply same_skel_insert.
    + apply chans_ok_insert; [|by right]. intros j q Hj _.
      eapply (core_chans None); [done|apply HK|done|done].
  - rewrite <- (core_runs _ _ i Hcore), (runs_lookup _ _ _ Hi). congruence.
  - intros j Hj. rewrite Ht, runs_insert by (by eapply lookup_lt_Some).
    rewrite (core_runs _ _ j Hcore). naive_solver.
Qed.

Lemma turn_KI pol N k pos :
  KI pol N k ->
  wp (turn pol pos) (fun o k' => KI pol N k' /\
    (forall i, o = Some i -> ~ runs (ptable (k_ps k)) i) /\
    forall j, runs (ptable (k_ps k')) j <-> runs (ptable (k_ps k)) j \/ o = Some j) k.
Proof.
  intros HK. destruct (proj1 (inv_sinv _ _ _) (ki_inv _ _ _ _ _ _ HK)) as [qs Hs].
  unfold turn. rewrite wp_bind, wp_on_ps.
  eapply wp_mono; [apply (enter_spec pol pos qs); [done|apply HK]|]. cbn beta.
  intros o s'. pose proof (choose_core pol pos (ticks (k_ps k)) (ptable (k_ps k)) qs) as Hcore.
  destruct (choose _ _ _ _ _) as [[tbl qs'] sel]. cbn [fst] in Hcore.
  intros (-> & Hs' & Hsr & Hm). assert (inv pol None s') as Hinv by (apply inv_sinv; by eexists).
  destruct sel as [i|].
  - destruct Hm as (p & Hi & Hst & Ht). rewrite bool_decide_eq_true_2 in Hsr by eauto.
    destruct (entered_KI pol N k s' tbl i p HK Hcore Hi Hst Hinv Ht Hsr) as (HK1 & Hnr & Hoth).
    assert (ptable s' !! i = Some (dispatched pol p)) as Hi'
      by (rewrite Ht; apply list_lookup_insert_eq; by eapply lookup_lt_Some).
    rewrite wp_bind. eapply wp_mono.
    { apply (resume_op pol N _ i (dispatched pol p) HK1 Hi'). by apply dispatched_ok. }
    cbn beta. intros b k2 (q & Hq & HK2 & Hb & Hoth2). cbn [k_ps] in Hoth2.
    assert (forall j, j <> i -> runs (ptable (k_ps k2)) j <-> runs (ptable (k_ps k)) j) as Hoth'
      by (intros j Hj; by rewrite Hoth2, Hoth).
    destruct b.
    + rewrite wp_bind, wp_on_ps. eapply wp_mono; [by eapply leave_KI|]. cbn beta.
      intros [] s3 [HK3 Hr3]. rewrite wp_ret. split; [done|]. split; [done|]. cbn [k_ps].
      intros j. rewrite Hr3. destruct (decide (j = i)) as [->|Hne]; [|rewrite (Hoth' j Hne); naive_solver].
      rewrite (runs_lookup _ _ _ Hq). naive_solver.
    + rewrite wp_ret. split; [done|]. split; [by intros ? [= <-]|]. intros j.
      destruct (decide (j = i)) as [->|Hne]; [|rewrite (Hoth' j Hne); naive_solver].
      rewrite (runs_lookup _ _ _ Hq). naive_solver.
  - rewrite wp_ret. cbn [k_ps]. split; [|split; [done|]].
    + eapply KIg_frame; [done|done|done| |]; rewrite Hm.
      * by apply core_skels.
      * eapply core_chans; [done|apply HK].
    + intros j. rewrite Hm, (core_runs _ _ j Hcore). naive_solver.
Qed.
(** * Reachable states *)

(** [main] on the boot processor, as far as the process table goes. *)
Definition boot (pol : policy) : M (kst R) unit :=
  do! on_ps (pinit pol); userinit pol.

(** [n] steps after booting with [ncpu] idle processors. *)
Definition reachable (pol : policy) (r : R) (ncpu n : nat) (st : kst R * list (option nat)) : Prop :=
  exists k, boot pol (mkkst pstate0 r) = Ok (tt, k) /\ steps pol n (k, replicate ncpu None) st.

Lemma pinv0 : pinv pstate0.
Proof.
  split; [apply length_replicate|]. intros i p Hp. apply lookup_replicate in Hp as [-> _].
  split; cbn; try done. unfold active. naive_solver.
Qed.

Lemma all_free0 : all_free (ptable pstate0).
Proof. intros i q Hi. by apply lookup_replicate in Hi as [-> _]. Qed.

Lemma first_tree i c s pg ks cwd :
  first_proc s c pg ks cwd -> (i < NPROC)%nat ->
  tree_ok (Some i) (skel_of <$> <[i := c]> (ptable pstate0)).
Proof.
  intros Hc Hi. rewrite list_fmap_insert, (fp_skel _ _ _ _ _ Hc).
  assert (forall j x, <[i := mkskel CLive None (replicate NOFILE None) (Some cwd) (nextpid s) ks pg 4096]>
    (skel_of <$> ptable pstate0) !! j = Some x -> j = i \/ x = skel_of proc0) as Hcase.
  { intros j x [[-> _]|[_ Hj]]%insert_case; [by left|right]. cbn in Hj. rewrite fmap_replicate in Hj.
    by apply lookup_replicate in Hj as [-> _]. }
  assert (i < length (skel_of <$> ptable pstate0))%nat as Hlt by (cbn; by rewrite length_fmap, length_replicate).
  split.
  - intros j x Hj. destruct (Hcase _ _ Hj) as [-> | ->]; [|done].
    rewrite list_lookup_insert_eq in Hj by done. injection Hj as <-. split; [by eexists|]. cbn. lia.
  - eexists i, _. split; [done|]. by rewrite list_lookup_insert_eq.
  - intros j x Hj Hcl Hne. destruct (Hcase _ _ Hj) as [-> | ->]; done.
Qed.

Lemma boot_SI pol r ncpu :
  rok [] r -> bootable r ->
  wp (boot pol) (fun _ k => SI pol 2 (k, replicate ncpu None)) (mkkst pstate0 r).
Proof.
  intros Hr Hboot. unfold boot. rewrite wp_bind, wp_on_ps. eapply wp_mono.
  { apply pinit_spec; [apply pinv0|done|done|done|]. intros i p Hp.
    by apply lookup_replicate in Hp as [-> _]. }
  cbn beta. intros [] s1 (Hinv1 & Ht1 & Hl1 & Hnp1 & Hip1 & Htk1). cbn [k_ps k_rs] in *.
  eapply wp_mono.
  { apply userinit_spec; [by split|cbn [k_ps]; rewrite Ht1; apply all_free0|done]. }
  cbn beta. cbn [k_ps]. rewrite Ht1, Hnp1.
  intros [] k ((Hinv & Hl & Hr') & _ & Hnp & i & c & pg & ks & cwd & Hip & Hi & Hc & Ht).
  change (i32 (nextpid pstate0 + 1)) with 2 in Hnp.
  assert (forall j p, ptable (k_ps k) !! j = Some p -> (j = i /\ p = c) \/ p = proc0) as Hcase.
  { rewrite Ht. intros j p [[-> ->]|[_ Hj]]%insert_case; [by left|right].
    by apply lookup_replicate in Hj as [-> _]. }
  split; [split| |]; cbn [fst snd].
  - done.
  - done.
  - done.
  - unfold skels. rewrite Ht, Hip. by eapply first_tree.
  - unfold skels. rewrite Hnp. split.
    + intros j x Hj Hcl. rewrite list_lookup_fmap in Hj. apply fmap_Some in Hj as (p & Hp & ->).
      destruct (Hcase _ _ Hp) as [[_ ->]| ->]; [|done]. rewrite (fp_skel _ _ _ _ _ Hc). cbn. rewrite Hnp1.
      cbn. lia.
    + intros j j' x y Hj Hj' Hcl Hcl' _. rewrite list_lookup_fmap in Hj, Hj'.
      apply fmap_Some in Hj as (p & Hp & ->). apply fmap_Some in Hj' as (p' & Hp' & ->).
      destruct (Hcase _ _ Hp) as [[-> ->]| ->], (Hcase _ _ Hp') as [[-> ->]| ->]; done.
  - lia.
  - intros j p Hp _. destruct (Hcase _ _ Hp) as [[_ ->]| ->]; [|done].
    unfold chan_ok. by rewrite (fp_chan _ _ _ _ _ Hc).
  - intros j. split.
    + intros (p & Hp & Hs). destruct (Hcase _ _ Hp) as [[_ ->]| ->]; [|done].
      rewrite (fp_state _ _ _ _ _ Hc) in Hs. done.
    + intros Hin. by apply elem_of_replicate in Hin as [? _].
  - intros c1 c2 j Hj. by apply lookup_replicate in Hj as [? _].
Qed.

(** A processor takes a process that runs nowhere. *)
Lemma SI_take pol N k k' cpus c o :
  SI pol N (k, cpus) -> cpus !! c = Some None -> KI pol N k' ->
  (forall i, o = Some i -> ~ runs (ptable (k_ps k)) i) ->
  (forall j, runs (ptable (k_ps k')) j <-> runs (ptable (k_ps k)) j \/ o = Some j) ->
  SI pol N (k', <[c := o]> cpus).
Proof.
  intros [HK Hruns Hone] Hc HK' Hno Hr. cbn [fst snd] in *.
  assert (forall c' i, <[c := o]> cpus !! c' = Some (Some i) ->
    (c' = c /\ o = Some i) \/ (c' <> c /\ cpus !! c' = Some (Some i))) as Hcase.
  { intros c' i [[-> <-]|?]%insert_case; [by left|by right]. }
  split; cbn [fst snd]; [done| |].
  - intros i. rewrite Hr, Hruns. rewrite !list_elem_of_lookup. split.
    + intros [[c' Hc']| ->].
      * exists c'. rewrite list_lookup_insert_ne; [done|]. intros ->. congruence.
      * exists c. apply list_lookup_insert_eq. by eapply lookup_lt_Some.
    + intros [c' Hc']. destruct (Hcase _ _ Hc') as [[_ ->]|[_ ?]]; eauto.
  - intros c1 c2 i H1 H2. destruct (Hcase _ _ H1) as [[-> ->]|[Hn1 H1']], (Hcase _ _ H2) as [[-> Ho]|[Hn2 H2']].
    + done.
    + destruct (Hno i eq_refl). apply Hruns. by eapply list_elem_of_lookup_2.
    + destruct (Hno i Ho). apply Hruns. by eapply list_elem_of_lookup_2.
    + by eapply Hone.
Qed.

(** A processor keeps its process, or gives it up. *)
Lemma SI_give pol N k k' cpus c i (b : bool) :
  SI pol N (k, cpus) -> cpus !! c = Some (Some i) -> KI pol (N + 1) k' ->
  (forall j, runs (ptable (k_ps k')) j <-> runs (ptable (k_ps k)) j /\ (b = true \/ j <> i)) ->
  SI pol (N + 1) (k', if b then cpus else <[c := None]> cpus).
Proof.
  intros [HK Hruns Hone] Hc HK' Hr. cbn [fst snd] in *. destruct b.
  - split; cbn [fst snd]; [done| |done]. intros j. rewrite Hr, Hruns. naive_solver.
  - split; cbn [fst snd]; [done| |].
    + intros j. rewrite Hr, Hruns, !list_elem_of_lookup. split.
      * intros [[c' Hc'] [|Hj]]; [done|]. exists c'. rewrite list_lookup_insert_ne; [done|].
        intros ->. congruence.
      * intros [c' [[_ ?]|[Hne Hc']]%insert_case]; [done|]. split; [eauto|]. right. intros ->.
        by destruct Hne; eapply Hone.
    + intros c1 c2 j [[_ ?]|[_ H1]]%insert_case [[_ ?]|[_ H2]]%insert_case; [done..|by eapply Hone].
Qed.
Lemma step_SI pol N st st' : SI pol N st -> N < 2 ^ 31 - 1 -> step pol st st' -> SI pol (N + 1) st'.
Proof.
  intros HS HN Hstep. pose proof (si_k _ _ _ HS) as HK. destruct Hstep as
    [c pos o k k' cpus Hc Ht|c i o b k k' cpus Hc Hal Hrun|k k' cpus Hclk]; cbn [fst] in HK.
  - destruct (wp_det _ _ _ _ _ (turn_KI pol N k pos HK) Ht) as (HK' & Hno & Hr).
    pose proof (SI_take _ _ _ _ _ _ _ HS Hc HK' Hno Hr) as HS'. destruct HS' as [HK2 ? ?].
    split; [|done|done]. eapply KIg_mono; [|exact HK2]. lia.
  - assert (runs (ptable (k_ps k)) i) as Hi by (apply (si_runs _ _ _ HS); by eapply list_elem_of_lookup_2).
    destruct (wp_det _ _ _ _ _ (run_op_KI pol N k i o HK HN Hi Hal) Hrun) as (HK' & Hr).
    by eapply SI_give.
  - destruct (wp_det _ _ _ _ _ (clock_KI pol N k HK) Hclk) as (HK' & Hr).
    destruct HS as [_ Hruns Hone]. split; cbn [fst snd] in *; [|intros j; by rewrite Hr|done].
    eapply KIg_mono; [|exact HK']. lia.
Qed.

Lemma reachable_SI pol r ncpu n st :
  rok [] r -> bootable r -> reachable pol r ncpu n st -> Z.of_nat n < 2 ^ 31 - 3 ->
  SI pol (2 + Z.of_nat n) st.
Proof.
  intros Hr Hb (k & Hk & Hsteps) Hn. pose proof (wp_det _ _ _ _ _ (boot_SI pol r ncpu Hr Hb) Hk) as H0.
  cbn beta in H0. clear Hk. revert H0 Hsteps. generalize (k, replicate ncpu (@None nat)).
  intros st0 H0 Hsteps.
  induction Hsteps as [st0|n st0 st st' Hsteps IH Hstep]; [by rewrite Z.add_0_r|].
  replace (2 + Z.of_nat (S n)) with (2 + Z.of_nat n + 1) by lia.
  eapply step_SI; [apply IH; [lia|done]|lia|done].
Qed.
End system.
