(* ===== verification/SystemProps.v ===== *)
(** What the invariant of [System.v] says of a running machine, in terms of the
    process table, the linked ready queues and the processors. *)

From S2P Require Import Prelude CString ProcDefs Queue Proc Sched ProcInv SchedInv Trap.
From S2P Require Import KProc Ledger System.
Import Proc Sched Trap Ledger.

Section props.
Context {R : Type} `{!ProcOps R} `{!ProcLaws R}.
Implicit Types (pol : policy) (r : R).


(** C10: A process is [RUNNING] exactly when it is the current process of one and
    only one processor. *)
Theorem running_one_cpu pol r ncpu n k cpus i :
  rok [] r -> bootable r -> reachable pol r ncpu n (k, cpus) -> Z.of_nat n < 2 ^ 31 - 4 ->
  (exists p, ptable (k_ps k) !! i = Some p /\ p_state p = RUNNING) <->
  (exists! c, cpus !! c = Some (Some i)).
Proof.
  intros Hr Hb Hre Hn. pose proof (reachable_SI _ _ _ _ _ Hr Hb Hre ltac:(lia)) as [_ Hruns Hone].
  cbn [fst snd] in *. rewrite (Hruns i : _ <-> _), list_elem_of_lookup. split.
  - intros [c Hc]. exists c. split; [done|]. intros c' Hc'. by eapply Hone.
  - intros (c & Hc & _). by exists c.
Qed.

(** C7: Under MLFQ the linked ready queues hold exactly the [RUNNABLE] processes:
    each list ends, no cell is shared, and a process is in a list once, in the
    one of its level, exactly when it is [RUNNABLE]. *)
Theorem ready_queues_exact r ncpu n k cpus :
  rok [] r -> bootable r -> reachable SCHED_MLFQ r ncpu n (k, cpus) -> Z.of_nat n < 2 ^ 31 - 4 ->
  exists css, Forall2 (chain (surplus_nodes (k_ps k))) (queues (k_ps k)) css /\
    NoDup (mjoin css).*1 /\ NoDup (mjoin css).*2 /\
    forall i p, ptable (k_ps k) !! i = Some p ->
      (p_state p = RUNNABLE <->
       exists cs, css !! Z.to_nat (p_queue p) = Some cs /\ i ∈ cs.*2).
Proof.
  intros Hr Hb Hre Hn. pose proof (reachable_SI _ _ _ _ _ Hr Hb Hre ltac:(lia)) as [[[Hp Hq] _ _ _ _ _ _] _ _].
  cbn [fst] in *. destruct (Hq eq_refl) as [css [Hpool Hlen Hnd Hmem Hall]]. exists css.
  split; [apply Hpool|]. split; [apply Hpool|]. split; [done|]. intros i p Hi. split.
  - intros Hst. destruct (proj1 (elem_of_queues _ _) (Hall i p Hi Hst ltac:(done))) as (q & cs & Hk & Hin).
    destruct (Hmem _ _ _ Hk Hin) as (_ & p' & Hp' & _ & Hqu). simplify_eq. rewrite Hqu, Nat2Z.id. eauto.
  - intros (cs & Hk & Hin). destruct (Hmem _ _ _ Hk Hin) as (_ & p' & Hp' & ? & _). by simplify_eq.
Qed.

(** Process ids are never shared: two table entries in use with the same id
    are the same entry, and every id is positive and below [nextpid]. *)
Theorem pids_unique pol r ncpu n k cpus i j p q :
  rok [] r -> bootable r -> reachable pol r ncpu n (k, cpus) -> Z.of_nat n < 2 ^ 31 - 4 ->
  ptable (k_ps k) !! i = Some p -> ptable (k_ps k) !! j = Some q ->
  p_state p <> UNUSED -> p_state q <> UNUSED ->
  1 <= p_pid p < nextpid (k_ps k) /\ (p_pid p = p_pid q -> i = j).
Proof.
  intros Hr Hb Hre Hn Hi Hj Hp Hq.
  pose proof (reachable_SI _ _ _ _ _ Hr Hb Hre ltac:(lia)) as [[_ _ _ _ [Hran Hinj] _ _] _ _].
  cbn [fst] in *. apply lookup_skels in Hi, Hj.
  assert (forall x, p_state x <> UNUSED -> sk_class (skel_of x) <> CFree) as Hcl
    by (intros x Hx; cbn; by destruct (p_state x)).
  split; [by apply (Hran i (skel_of p)); auto|]. intros Heq. eapply (Hinj i j); eauto.
Qed.

(** Every process but init has a parent that is alive (not a zombie, not a
    reused slot), so an exited process can always be collected. *)
Theorem parent_alive pol r ncpu n k cpus i p :
  rok [] r -> bootable r -> reachable pol r ncpu n (k, cpus) -> Z.of_nat n < 2 ^ 31 - 4 ->
  ptable (k_ps k) !! i = Some p -> p_state p <> UNUSED -> initproc (k_ps k) <> Some i ->
  exists j q, p_parent p = Some j /\ ptable (k_ps k) !! j = Some q /\
    (p_state q = SLEEPING \/ p_state q = RUNNABLE \/ p_state q = RUNNING).
Proof.
  intros Hr Hb Hre Hn Hi Hp Hne.
  pose proof (reachable_SI _ _ _ _ _ Hr Hb Hre ltac:(lia)) as [[_ _ _ Htree _ _ _] _ _]. cbn [fst] in *.
  destruct (tr_parent _ _ Htree i (skel_of p)) as (j & y & Hj & Hy & Hc).
  - by apply lookup_skels.
  - cbn. by destruct (p_state p).
  - done.
  - unfold skels in Hy. rewrite list_lookup_fmap in Hy. apply fmap_Some in Hy as (q & Hq & ->).
    exists j, q. split; [done|]. split; [done|]. cbn in Hc. destruct (p_state q); naive_solver.
Qed.

(** Processes never share kernel memory: two different entries in use have
    different kernel stacks and different page directories. *)
Theorem memory_separate pol r ncpu n k cpus i j p q :
  rok [] r -> bootable r -> reachable pol r ncpu n (k, cpus) -> Z.of_nat n < 2 ^ 31 - 4 ->
  ptable (k_ps k) !! i = Some p -> ptable (k_ps k) !! j = Some q -> i <> j ->
  p_state p <> UNUSED -> p_state q <> UNUSED ->
  p_kstack p <> p_kstack q /\ p_pgdir p <> p_pgdir q.
Proof.
  intros Hr Hb Hre Hn Hi Hj Hne Hp Hq.
  pose proof (reachable_SI _ _ _ _ _ Hr Hb Hre ltac:(lia)) as [[_ _ Hrok _ _ _ _] _ _]. cbn [fst] in *.
  assert (forall x, x ∈ holdings (skel_of q) -> x ∈ others i (ptable (k_ps k))) as Hin.
  { intros x Hx. unfold others. apply list_elem_of_join. exists (holdings (skel_of q)). split; [done|].
    apply list_elem_of_lookup. destruct (decide (j < i)%nat).
    - exists j. by rewrite list_lookup_delete_lt, list_lookup_fmap, Hj by done.
    - exists (j - 1)%nat. rewrite list_lookup_delete_ge, list_lookup_fmap by lia.
      replace (S (j - 1)) with j by lia. by rewrite Hj. }
  pose proof (rok_perm _ _ _ (owned_lookup _ _ _ Hi) Hrok) as Hrok'.
  rewrite (holdings_live p Hp) in Hrok'. rewrite (holdings_live q Hq) in Hin. cbn [app] in Hrok'.
  split; intros Heq.
  - apply (rok_page _ _ _ Hrok'). right. apply elem_of_app. right. apply Hin. rewrite Heq. left.
  - eapply rok_perm in Hrok'; [|apply Permutation_swap].
    apply (rok_dir _ _ (p_sz q) _ _ Hrok'). right. apply elem_of_app. right. apply Hin.
    rewrite Heq. right. left.
Qed.
End props.

(** * A concrete run

    Boot, the first process is scheduled, it forks, and a second processor
    takes the child, over the ledger of [Ledger.v]. *)

Definition after {S A} (m : M S A) (s : S) : S :=
  match m s with Ok (_, s') => s' | _ => s end.

Definition demo0 : kst ledger := after (boot SCHED_MLFQ) (mkkst pstate0 ledger0).
Definition demo1 : kst ledger := after (turn SCHED_MLFQ 0) demo0.
Definition demo2 : kst ledger := after (run_op SCHED_MLFQ 0 OFork) demo1.
Definition demo3 : kst ledger := after (turn SCHED_MLFQ 0) demo2.
Definition demo_cpus : list (option nat) := [Some 0%nat; Some 1%nat].
Definition demo_proc (i : nat) : proc := default proc0 (ptable (k_ps demo3) !! i).

Lemma demo1_reachable : reachable SCHED_MLFQ ledger0 2 1 (demo1, [Some 0%nat; None]).
Proof.
  exists demo0. split; [vm_compute; reflexivity|].
  apply (steps_snoc _ 0 _ (demo0, [None; None])); [apply steps_refl|].
  apply (step_turn _ 0 0 (Some 0%nat)); [done|]. vm_compute. reflexivity.
Qed.

Lemma reachable_snoc {R} `{!ProcOps R} `{!ProcLaws R} pol (r : R) ncpu n a b :
  reachable pol r ncpu n a -> step pol a b -> reachable pol r ncpu (S n) b.
Proof. intros (k & Hk & Hs) Hst. exists k. split; [done|]. by eapply steps_snoc. Qed.

Lemma demo2_reachable : reachable SCHED_MLFQ ledger0 2 2 (demo2, [Some 0%nat; None]).
Proof.
  eapply reachable_snoc; [exact demo1_reachable|].
  apply (step_op _ 0 0 OFork true demo1); [done|done|]. vm_compute. reflexivity.
Qed.

Lemma demo_reachable : reachable SCHED_MLFQ ledger0 2 3 (demo3, demo_cpus).
Proof.
  eapply reachable_snoc; [exact demo2_reachable|].
  apply (step_turn _ 1 0 (Some 1%nat)); [done|]. vm_compute. reflexivity.
Qed.


Lemma running_one_cpu_witness : exists! c, demo_cpus !! c = Some (Some 1%nat).
Proof.
  apply (running_one_cpu SCHED_MLFQ ledger0 2 3 demo3 demo_cpus 1 ledger0_ok ledger0_bootable
    demo_reachable ltac:(lia)).
  exists (demo_proc 1). split; vm_compute; reflexivity.
Defined.

Lemma ready_queues_exact_witness :
  exists css, Forall2 (chain (surplus_nodes (k_ps demo3))) (queues (k_ps demo3)) css.
Proof.
  destruct (ready_queues_exact ledger0 2 3 demo3 demo_cpus ledger0_ok ledger0_bootable
    demo_reachable ltac:(lia)) as (css & H & _).
  exists css. exact H.
Defined.

Lemma pids_unique_witness :
  1 <= p_pid (demo_proc 0) < nextpid (k_ps demo3) /\
  (p_pid (demo_proc 0) = p_pid (demo_proc 1) -> 0%nat = 1%nat).
Proof.
  apply (pids_unique SCHED_MLFQ ledger0 2 3 demo3 demo_cpus 0 1 (demo_proc 0) (demo_proc 1)
    ledger0_ok ledger0_bootable demo_reachable ltac:(lia)); vm_compute; try reflexivity; discriminate.
Defined.

Lemma parent_alive_witness :
  exists j q, p_parent (demo_proc 1) = Some j /\ ptable (k_ps demo3) !! j = Some q /\
    (p_state q = SLEEPING \/ p_state q = RUNNABLE \/ p_state q = RUNNING).
Proof.
  apply (parent_alive SCHED_MLFQ ledger0 2 3 demo3 demo_cpus 1 (demo_proc 1)
    ledger0_ok ledger0_bootable demo_reachable ltac:(lia)); vm_compute; try reflexivity; discriminate.
Defined.

Lemma memory_separate_witness :
  p_kstack (demo_proc 0) <> p_kstack (demo_proc 1) /\ p_pgdir (demo_proc 0) <> p_pgdir (demo_proc 1).
Proof.
  apply (memory_separate SCHED_MLFQ ledger0 2 3 demo3 demo_cpus 0 1 (demo_proc 0) (demo_proc 1)
    ledger0_ok ledger0_bootable demo_reachable ltac:(lia)); vm_compute; try reflexivity; discriminate.
Defined.
