(* ===== verification/ProcProps.v ===== *)
(** Properties of the scheduling policies and of the process operations. *)

From S2P Require Import Prelude CString ProcDefs Queue Proc Sched ProcInv SchedInv Trap.
From S2P Require Import KProc Ledger System SystemProps.
Import Proc Sched Trap Ledger.

Implicit Types (s : pstate) (p : proc) (pol : policy).

(** * The time slice of the multi-level feedback queue *)

(** The clock interrupts a running process takes until it gives up. *)
Fixpoint run_slice (fuel i : nat) : M pstate Z :=
  match fuel with
  | O => nofuel
  | S fuel =>
      let! b := timer SCHED_MLFQ i in
      if b then ret 1 else let! n := run_slice fuel i in ret (n + 1)
  end.

Lemma TIMESLICE_pow q : 0 <= q < Z.of_nat NUM_QUEUES -> TIMESLICE q = 2 ^ q.
Proof.
  intros Hq. unfold TIMESLICE. rewrite Z.shiftl_1_l. apply i32_small.
  assert (2 ^ q <= 2 ^ 4) by (apply Z.pow_le_mono_r; unfold NUM_QUEUES in *; lia). 
  pose proof (Z.pow_nonneg 2 q). lia.
Qed.

Lemma pinfo_tick_fields p :
  p_cur_timeslices (pinfo_tick p) = p_cur_timeslices p /\ p_queue (pinfo_tick p) = p_queue p /\
  p_state (pinfo_tick p) = p_state p.
Proof. done. Qed.

Lemma run_slice_spec fuel i s p :
  inv SCHED_MLFQ None s -> ptable_locked s = false -> ptable s !! i = Some p ->
  p_state p = RUNNING -> 1 <= p_cur_timeslices p <= 2 ^ p_queue p ->
  2 ^ p_queue p - p_cur_timeslices p < Z.of_nat fuel ->
  wp (run_slice fuel i) (fun n s' => n = 2 ^ p_queue p - p_cur_timeslices p + 1 /\
    exists p', ptable s' !! i = Some p' /\ p_state p' = RUNNABLE /\ p_punish p' = 1 /\
      p_queue p' = p_queue p /\ inv SCHED_MLFQ (Some i) s' /\
      same_rest (set_ptable_locked true s) s') s.
Proof.
  revert s p. induction fuel as [|fuel IH]; intros s p Hinv Hl Hi Hrun Hts Hfuel; [lia|].
  pose proof (po_queue _ (pv_ok _ (proj1 Hinv) _ _ Hi)) as Hq.
  assert (2 ^ p_queue p <= 2 ^ 4) as Hle by (apply Z.pow_le_mono_r; unfold NUM_QUEUES in *; lia).
  pose proof (lookup_lt_Some _ _ _ Hi) as Hlt. cbn [run_slice]. rewrite wp_bind.
  eapply wp_mono; [by apply timer_spec|]. cbn beta. intros b s1 (Hb & Hinv1 & Ht1 & Hsr1).
  unfold timer_entry in Hb, Ht1.
  destruct (pinfo_tick_fields p) as (Hcur & Hqu & Hst). rewrite Hcur, Hqu, TIMESLICE_pow in Hb, Ht1 by done.
  destruct (Z.geb_spec (p_cur_timeslices p) (2 ^ p_queue p)); cbn [snd fst] in Hb, Ht1; subst b.
  - rewrite wp_ret. split; [lia|]. eexists. split; [rewrite Ht1; by apply list_lookup_insert_eq|]. done.
  - rewrite i32_small in Ht1 by lia.
    set (p1 := set_p_cur_timeslices (p_cur_timeslices p + 1) (pinfo_tick p)) in Ht1.
    rewrite wp_bind. eapply wp_mono; [apply (IH s1 p1); try done|].
    + destruct Hsr1. done.
    + rewrite Ht1. by apply list_lookup_insert_eq.
    + unfold p1. cbn. lia.
    + unfold p1. cbn. lia.
    + cbn beta. intros n s2 (-> & p2 & Hp2 & Hst2 & Hpun2 & Hqu2 & Hinv2 & Hsr2). rewrite wp_ret.
      split; [unfold p1; cbn; lia|]. exists p2. do 5 (split; [done|]).
      destruct Hsr1 as (? & ? & ? & ?), Hsr2 as (? & ? & ? & ?). repeat split; cbn in *; congruence.
Qed.


Lemma reachable_inv {R} `{!ProcOps R} `{!ProcLaws R} pol (r : R) ncpu n k cpus :
  rok [] r -> bootable r -> reachable pol r ncpu n (k, cpus) -> Z.of_nat n < 2 ^ 31 - 4 ->
  inv pol None (k_ps k) /\ ptable_locked (k_ps k) = false.
Proof.
  intros Hr Hb Hre Hn. destruct (reachable_SI _ _ _ _ _ Hr Hb Hre ltac:(lia)) as [[] _ _]. done.
Qed.

Definition demo1_proc : proc := default proc0 (ptable (k_ps demo1) !! 0%nat).


(** * The choice of each policy *)

(** C11: One turn of the MLFQ scheduler on the linked lists does what the
    abstract queues say: each level is aged, and the head of the first level
    that is not empty is taken off it and dispatched; the scheduler finds nothing
    only when no process is ready. *)
Theorem mlfq_enter_refines pos qs s :
  pinv s -> ready None s qs -> ptable_locked s = false ->
  wp (enter SCHED_MLFQ pos) (fun r s' =>
    let '(tbl, qs1) := age_all (ticks s) (ptable s, qs) in
    pinv s' /\
    match pick_first qs1 with
    | None => r = None /\ ptable s' = tbl /\ ready None s' qs1 /\ mjoin qs1 = []
    | Some (i, qs2) => r = Some i /\ ready None s' qs2 /\
        exists p, tbl !! i = Some p /\ p_state p = RUNNABLE /\
          ptable s' = <[i := dispatched SCHED_MLFQ p]> tbl
    end) s.
Proof.
  intros Hp Hq Hl. eapply wp_mono; [by apply (enter_spec SCHED_MLFQ pos qs)|].
  cbn beta. intros r s'. unfold entered, choose. destruct (age_all _ _) as [tbl qs1].
  destruct (pick_first qs1) as [[i qs2]|] eqn:Hpick;
    intros (-> & [Hp' Hr] & _ & Hm); (split; [done|]); (split; [done|]); [by auto|].
  split; [done|]. split; [by auto|]. revert Hpick. clear. induction qs1 as [|[|i q] qs1 IH]; [done| |done].
  cbn. intros Hn%fmap_None. by apply IH.
Qed.

Lemma mlfq_enter_refines_witness :
  exists qs, ready None (k_ps demo2) qs /\
  wp (enter SCHED_MLFQ 0) (fun _ s' => pinv s') (k_ps demo2).
Proof.
  assert (inv SCHED_MLFQ None (k_ps demo2) /\ ptable_locked (k_ps demo2) = false) as [Hinv Hl].
  { apply (reachable_inv SCHED_MLFQ ledger0 2 2 demo2 [Some 0%nat; None] ledger0_ok ledger0_bootable);
      [exact demo2_reachable|lia]. }
  destruct (proj1 (inv_sinv _ _ _) Hinv) as (qs & Hp & Hr). specialize (Hr eq_refl). exists qs.
  split; [exact Hr|]. eapply wp_mono; [exact (mlfq_enter_refines 0 qs (k_ps demo2) Hp Hr Hl)|].
  cbn beta. intros r s' H. destruct (age_all _ _) as [tbl qs1]. exact (proj1 H).
Defined.

(** A level whose processes are in the order of the times they entered it is
    aged exactly: [split] moves all the processes that have waited longer than
    [AGE_LIMIT] ticks, and no other, to the end of the level above. *)
Theorem aging_exact s qs k q0 q1 :
  pinv s -> ready None s qs -> (S k < NUM_QUEUES)%nat ->
  qs !! k = Some q0 -> qs !! S k = Some q1 ->
  (forall i p, i ∈ q1 -> ptable s !! i = Some p -> 0 <= p_age_time p <= ticks s) ->
  (forall m n i j p p', (m < n)%nat -> q1 !! m = Some i -> q1 !! n = Some j ->
     ptable s !! i = Some p -> ptable s !! j = Some p' -> p_age_time p <= p_age_time p') ->
  0 <= ticks s < 2 ^ 31 ->
  let old i := match ptable s !! i with Some p => ticks s - p_age_time p >? AGE_LIMIT | None => false end in
  wp (Queue.split (Some (S k)) (Some (S k - 1)%nat) AGE_LIMIT)
    (fun _ s' => ready None s' (<[S k := List.filter (fun i => negb (old i)) q1]>
       (<[k := q0 ++ List.filter old q1]> qs))) s.
Proof.
  intros Hp Hr Hk H0 H1 Hage Hsorted Ht old.
  assert (forall i, i ∈ q1 -> waited (ticks s) (ptable s) AGE_LIMIT i = old i) as Hold.
  { intros i Hi. unfold waited, old, AGE_LIMIT. destruct (ptable s !! i) as [p|] eqn:Hpi; [|done].
    specialize (Hage i p Hi Hpi). by rewrite !u32_small by lia. }
  assert (span (waited (ticks s) (ptable s) AGE_LIMIT) q1 =
    (List.filter old q1, List.filter (fun i => negb (old i)) q1)) as Hspan.
  { rewrite <- (span_filter old). 2:{ intros m n i j Hmn Hi Hj. unfold old.
      destruct (ptable s !! i) as [p|] eqn:Hpi, (ptable s !! j) as [p'|] eqn:Hpj; try done.
      - specialize (Hsorted m n i j p p' Hmn Hi Hj Hpi Hpj). rewrite !Z.gtb_ltb, !Z.ltb_ge. lia.
      - destruct Hr as (css & Hq & <-). exfalso. rewrite lookup_abs_queues in H1.
        apply fmap_Some in H1 as (cs & Hcs & ->). apply list_elem_of_lookup_2 in Hi.
        destruct (qi_mem _ _ _ Hq _ _ _ Hcs Hi) as (_ & p & ? & _). congruence. }
    clear -Hold. induction q1 as [|i q IH]; cbn; [done|]. rewrite (Hold i) by (left; done).
    rewrite IH; [done|]. intros j Hj. apply Hold. by right. }
  eapply wp_mono; [by apply (age_queue_spec s qs k)|]. cbn beta. intros _ s'. unfold age_queue.
  rewrite H1. cbn [default]. unfold default, id. rewrite Hspan. replace (S k - 1)%nat with k by lia.
  rewrite H0. by intros (_ & ? & _).
Qed.

Lemma aging_exact_witness :
  let s := k_ps demo2 in
  let old i := match ptable s !! i with Some p => ticks s - p_age_time p >? AGE_LIMIT | None => false end in
  exists qs q0 q1, ready None s qs /\ qs !! 0%nat = Some q0 /\ qs !! 1%nat = Some q1 /\
  wp (Queue.split (Some 1%nat) (Some (1 - 1)%nat) AGE_LIMIT)
    (fun _ s' => ready None s' (<[1%nat := List.filter (fun i => negb (old i)) q1]>
       (<[0%nat := q0 ++ List.filter old q1]> qs))) s.
Proof.
  assert (inv SCHED_MLFQ None (k_ps demo2) /\ ptable_locked (k_ps demo2) = false) as [Hinv Hl].
  { apply (reachable_inv SCHED_MLFQ ledger0 2 2 demo2 [Some 0%nat; None] ledger0_ok ledger0_bootable);
      [exact demo2_reachable|lia]. }
  assert (forallb (fun p => p_age_time p =? 0) (ptable (k_ps demo2)) = true) as Hall
    by (vm_compute; reflexivity).
  assert (ticks (k_ps demo2) = 0) as Ht by (vm_compute; reflexivity).
  revert Hinv Hall Ht. generalize (k_ps demo2). clear. intros s Hinv Hall Ht. cbn zeta.
  assert (forall i p, ptable s !! i = Some p -> p_age_time p = 0) as Hage.
  { intros i p Hi. rewrite forallb_forall in Hall. apply Z.eqb_eq, Hall.
    apply list_elem_of_In. by eapply list_elem_of_lookup_2. }
  destruct (proj1 (inv_sinv _ _ _) Hinv) as (qs & Hp & Hr). specialize (Hr eq_refl).
  assert (length qs = NUM_QUEUES) as Hlen.
  { destruct Hr as (css & Hq & <-). unfold abs_queues. rewrite length_fmap. apply Hq. }
  destruct (lookup_lt_is_Some_2 qs 0) as [q0 H0]; [rewrite Hlen; unfold NUM_QUEUES; lia|].
  destruct (lookup_lt_is_Some_2 qs 1) as [q1 H1]; [rewrite Hlen; unfold NUM_QUEUES; lia|].
  exists qs, q0, q1. do 3 (split; [done|]).
  apply (aging_exact s qs 0 q0 q1 Hp Hr); [unfold NUM_QUEUES; lia|done|done| | |lia].
  - intros i p _ Hi. rewrite (Hage i p Hi). lia.
  - intros m n i j p p' _ _ _ Hi Hj. rewrite (Hage i p Hi), (Hage j p' Hj). lia.
Defined.

(** The first-come-first-served turn dispatches the [RUNNABLE] process with
    the least creation time (the first such in the table), as long as the tick
    count is 100 below the largest [int]. *)
Theorem fcfs_earliest pos s i p :
  inv SCHED_FCFS None s -> ptable_locked s = false -> 0 <= ticks s < 2 ^ 31 - 100 ->
  ptable s !! i = Some p -> p_state p = RUNNABLE -> p_start_time p <= ticks s ->
  wp (enter SCHED_FCFS pos) (fun r s' => exists j q, r = Some j /\
    ptable s !! j = Some q /\ p_state q = RUNNABLE /\
    ptable s' = <[j := dispatched SCHED_FCFS q]> (ptable s) /\
    forall j' q', ptable s !! j' = Some q' -> p_state q' = RUNNABLE ->
      p_start_time q <= p_start_time q' /\ ((j' < j)%nat -> p_start_time q < p_start_time q')) s.
Proof.
  intros Hinv Hl Ht Hi Hrun Hst. destruct (proj1 (inv_sinv _ _ _) Hinv) as (qs & Hs).
  eapply wp_mono; [by apply (enter_spec SCHED_FCFS pos qs)|]. cbn beta.
  intros r s'. unfold entered, choose. intros (-> & _ & _ & Hm).
  destruct (fcfs_select_sel (ticks s) (ptable s)) as [[Hn Hno]|(j & q & Hj & _ & Hleast)].
  { specialize (Hno i p Hi Hrun). rewrite i32_small in Hno by lia. lia. }
  rewrite Hj in *. destruct Hm as (q' & Hq' & Hrun' & Ht').
  destruct (least_runnable _ _ _ _ _ Hleast) as [Hq _]. assert (q' = q) as -> by congruence.
  exists j, q. do 4 (split; [done|]). intros j' q' Hj' Hr'.
  destruct Hleast as (_ & _ & Hleast). destruct (Hleast j' q' Hj') as [H1 H2].
  { by apply bool_decide_eq_true. }
  split; [by apply Z.ltb_ge|]. intros Hlt. by apply Z.ltb_lt, H2.
Qed.

(** The priority turn dispatches the [RUNNABLE] process with the least
    priority value and, among those, the least number of time slices (then the
    first in the table), whenever some process with a legal priority is
    [RUNNABLE]. *)
Theorem pbs_best pos s i p :
  inv SCHED_PBS None s -> ptable_locked s = false ->
  ptable s !! i = Some p -> p_state p = RUNNABLE -> p_priority p <= 100 ->
  wp (enter SCHED_PBS pos) (fun r s' => exists j q, r = Some j /\
    ptable s !! j = Some q /\ p_state q = RUNNABLE /\
    ptable s' = <[j := dispatched SCHED_PBS q]> (ptable s) /\
    forall j' q', ptable s !! j' = Some q' -> p_state q' = RUNNABLE ->
      p_priority q < p_priority q' \/ (p_priority q = p_priority q' /\
        (p_timeslices q < p_timeslices q' \/ (p_timeslices q = p_timeslices q' /\ (j <= j')%nat)))) s.
Proof.
  intros Hinv Hl Hi Hrun Hpr. destruct (proj1 (inv_sinv _ _ _) Hinv) as (qs & Hs).
  eapply wp_mono; [by apply (enter_spec SCHED_PBS pos qs)|]. cbn beta.
  intros r s'. unfold entered, choose. intros (-> & _ & _ & Hm).
  destruct (pbs_select_sel (ticks s) (ptable s)) as [[Hn Hno]|(j & q & Hj & Hleast)].
  { specialize (Hno i p Hi Hrun). apply not_true_iff_false in Hno. rewrite pbs_lt_iff in Hno. cbn in Hno. lia. }
  rewrite Hj in *. destruct Hm as (q' & Hq' & Hrun' & Ht').
  destruct (least_runnable _ _ _ _ _ Hleast) as [Hq _]. assert (q' = q) as -> by congruence.
  exists j, q. do 4 (split; [done|]). intros j' q' Hj' Hr'.
  destruct Hleast as (_ & _ & Hleast). destruct (Hleast j' q' Hj') as [H1 H2].
  { by apply bool_decide_eq_true. }
  apply not_true_iff_false in H1. rewrite pbs_lt_iff in H1. unfold pbs_key in H1. cbn in H1.
  destruct (decide (j' < j)%nat) as [Hlt|]; [|lia].
  specialize (H2 Hlt). rewrite pbs_lt_iff in H2. unfold pbs_key in H2. cbn in H2. lia.
Qed.

(** * Round robin *)

(** The sweeps of the round-robin loop over the table: [tbls n] is the table at
    the [n]-th selection, which starts after the process selected before. *)
Fixpoint rr_sweep (tbls : nat -> list proc) (pos n : nat) : option nat :=
  match n with
  | O => rr_select pos (tbls O)
  | S n =>
      match rr_select pos (tbls O) with
      | Some j => rr_sweep (fun m => tbls (S m)) (S j) n
      | None => None
      end
  end.


(** ** Witnesses for the three table policies: the machine just booted *)

Definition booted (pol : policy) : kst ledger := after (boot pol) (mkkst pstate0 ledger0).
Definition booted_proc (pol : policy) : proc := default proc0 (ptable (k_ps (booted pol)) !! 0%nat).

Lemma booted_inv pol :
  boot pol (mkkst pstate0 ledger0) = Ok (tt, booted pol) ->
  inv pol None (k_ps (booted pol)) /\ ptable_locked (k_ps (booted pol)) = false.
Proof.
  intros Hb. apply (reachable_inv pol ledger0 1 0 (booted pol) (replicate 1 None) ledger0_ok ledger0_bootable).
  - exists (booted pol). split; [done|]. apply steps_refl.
  - lia.
Qed.

Lemma fcfs_earliest_witness :
  wp (enter SCHED_FCFS 0) (fun r _ => exists j, r = Some j) (k_ps (booted SCHED_FCFS)).
Proof.
  destruct (booted_inv SCHED_FCFS) as [Hinv Hl]; [vm_compute; reflexivity|].
  assert (ticks (k_ps (booted SCHED_FCFS)) = 0) as Ht by (vm_compute; reflexivity).
  assert (ptable (k_ps (booted SCHED_FCFS)) !! 0%nat = Some (booted_proc SCHED_FCFS)) as H1
    by (vm_compute; reflexivity).
  assert (p_state (booted_proc SCHED_FCFS) = RUNNABLE) as H2 by (vm_compute; reflexivity).
  assert (p_start_time (booted_proc SCHED_FCFS) = 0) as H3 by (vm_compute; reflexivity).
  eapply wp_mono; [apply (fcfs_earliest 0 _ _ _ Hinv Hl ltac:(rewrite Ht; lia) H1 H2 ltac:(rewrite H3, Ht; lia))|].
  cbn beta. intros r s' (j & _ & H & _). exists j. exact H.
Defined.

Lemma pbs_best_witness :
  wp (enter SCHED_PBS 0) (fun r _ => exists j, r = Some j) (k_ps (booted SCHED_PBS)).
Proof.
  destruct (booted_inv SCHED_PBS) as [Hinv Hl]; [vm_compute; reflexivity|].
  assert (ptable (k_ps (booted SCHED_PBS)) !! 0%nat = Some (booted_proc SCHED_PBS)) as H1
    by (vm_compute; reflexivity).
  assert (p_state (booted_proc SCHED_PBS) = RUNNABLE) as H2 by (vm_compute; reflexivity).
  assert (p_priority (booted_proc SCHED_PBS) = 60) as H3 by (vm_compute; reflexivity).
  eapply wp_mono; [apply (pbs_best 0 _ _ _ Hinv Hl H1 H2 ltac:(rewrite H3; lia))|].
  cbn beta. intros r s' (j & _ & H & _). exists j. exact H.
Defined.


(** * Processes: fork, exit, wait, kill *)

Section calls.
Context {R : Type} `{!ProcOps R} `{!ProcLaws R}.
Implicit Types r : R.

(** What every reachable state gives about a process that runs. *)
Lemma reachable_running pol r ncpu n k cpus c i :
  rok [] r -> bootable r -> reachable pol r ncpu n (k, cpus) -> Z.of_nat n < 2 ^ 31 - 4 ->
  cpus !! c = Some (Some i) ->
  exists p cwd, KI pol (2 + Z.of_nat n) k /\ ptable (k_ps k) !! i = Some p /\
    p_state p = RUNNING /\ p_cwd p = Some cwd.
Proof.
  intros Hr Hb Hre Hn Hc. destruct (reachable_SI _ _ _ _ _ Hr Hb Hre ltac:(lia)) as [HK Hruns _].
  cbn [fst snd] in *. destruct (proj2 (Hruns i)) as (p & Hi & Hst); [by eapply list_elem_of_lookup_2|].
  destruct (tree_live_slot _ _ _ _ (ki_tree _ _ _ _ _ _ HK) Hi) as [[cwd Hcwd] _]; [by rewrite Hst|].
  by exists p, cwd.
Qed.


(** C21: [exit] makes the running process a zombie with no open file and no
    working directory and its end time set; its parent, if it
    was waiting, is awake, its children now belong to init, and the other
    entries keep their id and parent. *)
Theorem exit_correct pol r ncpu n k cpus c i p :
  rok [] r -> bootable r -> reachable pol r ncpu n (k, cpus) -> Z.of_nat n < 2 ^ 31 - 4 ->
  cpus !! c = Some (Some i) -> ptable (k_ps k) !! i = Some p -> initproc (k_ps k) <> Some i ->
  wp (exit pol i) (fun _ k' =>
    (exists z, ptable (k_ps k') !! i = Some z /\ p_state z = ZOMBIE /\ p_pid z = p_pid p /\
       p_ofile z = replicate NOFILE None /\ p_cwd z = None /\ p_end_time z = i32 (ticks (k_ps k))) /\
    forall j q, j <> i -> ptable (k_ps k) !! j = Some q ->
      exists q', ptable (k_ps k') !! j = Some q' /\ p_pid q' = p_pid q /\
        p_parent q' = (if decide (p_parent q = Some i) then initproc (k_ps k) else p_parent q) /\
        (p_parent p = Some j -> p_chan q = ChProc j -> p_state q' <> SLEEPING)) k.
Proof.
  intros Hr Hb Hre Hn Hc Hi Hip.
  destruct (reachable_running _ _ _ _ _ _ _ _ Hr Hb Hre Hn Hc) as (p' & cwd & HK & Hi' & Hst & Hcwd).
  assert (p' = p) as -> by congruence.
  eapply wp_mono; [by eapply exit_spec; [eapply KI_kinv|..]|]. cbn beta.
  intros [] k' (_ & _ & _ & tbl & [Hlen Hw] & Htbl & Ht). split.
  - eexists. split; [rewrite Ht; by apply exit_tbl_lookup|]. unfold reparented. by case_bool_decide.
  - intros j q Hj Hq. destruct (Hw j q Hj Hq) as (q1 & Hq1 & Hwk).
    assert (skel_of q1 = skel_of q) as Hsk by (by destruct Hwk as [-> | (_ & _ & _ & ?)]).
    rewrite Ht, exit_tbl_lookup_ne, Hq1 by done. eexists. split; [reflexivity|].
    split; [|split].
    + change (sk_pid (skel_of (exit_entry pol i (p_parent p) (initproc (k_ps k)) (ticks (k_ps k))
        (existsb (zombie_child i) tbl) q1)) = sk_pid (skel_of q)).
      rewrite exit_entry_skel, <- Hsk. unfold reparented. by case_bool_decide.
    + change (sk_parent (skel_of (exit_entry pol i (p_parent p) (initproc (k_ps k)) (ticks (k_ps k))
        (existsb (zombie_child i) tbl) q1)) = (if decide (sk_parent (skel_of q) = Some i)
        then initproc (k_ps k) else sk_parent (skel_of q))).
      rewrite exit_entry_skel, <- Hsk. unfold reparented. by case_bool_decide; case_decide.
    + intros Hpar Hch. unfold exit_entry. rewrite reparented_state, Hpar. cbn [chan_of].
      assert (p_chan q1 = ChProc j) as Hch1 by (destruct Hwk as [-> | (_ & _ & ? & _)]; congruence).
      assert (p_state (wake_if pol (ChProc j) (ticks (k_ps k)) q1) <> SLEEPING) as Hns.
      { unfold wake_if. rewrite (bool_decide_eq_true_2 (p_chan q1 = ChProc j)) by done.
        case_bool_decide; cbn; [by destruct pol|done]. }
      destruct (existsb _ _); [|done]. unfold wake_if at 1.
      by rewrite bool_decide_eq_false_2.
Qed.

(** C22: [wait] and [waitx] return the id of a child that has exited, the first
    in the table, and free its entry; [waitx] reports its run time and its wait
    time, which add up to its life time. With no child they return -1, and
    otherwise the process sleeps on its own entry. *)
Theorem waitx_correct pol r ncpu n k cpus c i p :
  rok [] r -> bootable r -> reachable pol r ncpu n (k, cpus) -> Z.of_nat n < 2 ^ 31 - 4 ->
  cpus !! c = Some (Some i) -> ptable (k_ps k) !! i = Some p ->
  wp (waitx i) (fun res k' =>
    let tbl := ptable (k_ps k) in
    match first_from (zombie_child i) tbl 0 with
    | Some j => exists q wtime rtime, tbl !! j = Some q /\ zombie_child i q = true /\
        res = Done (p_pid q, Some (wtime, rtime)) /\ rtime = p_run_time q /\
        i32 (wtime + rtime) = i32 (p_end_time q - p_start_time q) /\
        ptable (k_ps k') = <[j := reaped q]> tbl
    | None =>
        if (forallb (fun q => bool_decide (p_parent q <> Some i)) tbl) || negb (p_killed p =? 0)
        then res = Done (-1, None) /\ ptable (k_ps k') = tbl
        else res = Asleep (ChProc i) /\
          ptable (k_ps k') = <[i := set_p_state SLEEPING (set_p_chan (ChProc i) p)]> tbl
    end) k.
Proof.
  intros Hr Hb Hre Hn Hc Hi.
  destruct (reachable_running _ _ _ _ _ _ _ _ Hr Hb Hre Hn Hc) as (p' & cwd & HK & Hi' & Hst & Hcwd).
  assert (p' = p) as -> by congruence. unfold waitx. rewrite wp_bind.
  rewrite wp_on_ps, wp_acquire. split; [apply HK|]. pose proof (KI_locked _ _ _ HK) as HK1. eapply wp_mono.
  { apply (waitx_loop_spec pol i p); [apply HK1|apply HK1|apply HK1| |done|done].
    eapply tree_zombie_slots, HK1. }
  cbn beta. intros res k'. unfold waitx_post. cbn [k_ps ptable set_ptable_locked].
  assert (negb (existsb (waits i) (ptable (k_ps k))) =
    forallb (fun q => bool_decide (p_parent q <> Some i)) (ptable (k_ps k))) as ->.
  { clear. induction (ptable (k_ps k)) as [|q l IH]; cbn; [done|]. rewrite negb_orb, IH. f_equal.
    unfold waits. by rewrite bool_decide_not. }
  destruct (first_from _ _ 0) as [j|].
  - intros (q & Hq & Hz & -> & _ & Ht & _). eexists q, _, _. do 4 (split; [done|]).
    split; [|done]. rewrite i32_add_l. f_equal. lia.
  - destruct (_ || _); [by intros [-> ->]|]. by intros (-> & _ & _ & -> & _).
Qed.
End calls.


Lemma exit_correct_witness :
  wp (exit SCHED_MLFQ 1) (fun _ k' => exists z, ptable (k_ps k') !! 1%nat = Some z /\ p_state z = ZOMBIE) demo3.
Proof.
  assert (ptable (k_ps demo3) !! 1%nat = Some (demo_proc 1)) as H1 by (vm_compute; reflexivity).
  assert (initproc (k_ps demo3) = Some 0%nat) as H2 by (vm_compute; reflexivity).
  eapply wp_mono; [apply (exit_correct SCHED_MLFQ ledger0 2 3 demo3 demo_cpus 1 1 (demo_proc 1)
    ledger0_ok ledger0_bootable demo_reachable ltac:(lia) eq_refl H1 ltac:(rewrite H2; discriminate))|].
  cbn beta. intros [] k' [(z & H & Hz & _) _]. exists z. split; [exact H|exact Hz].
Defined.

Lemma waitx_correct_witness :
  wp (waitx 0) (fun r _ => r = Asleep (ChProc 0)) demo3.
Proof.
  assert (ptable (k_ps demo3) !! 0%nat = Some (demo_proc 0)) as H1 by (vm_compute; reflexivity).
  assert (first_from (zombie_child 0) (ptable (k_ps demo3)) 0 = None) as H2 by (vm_compute; reflexivity).
  assert (forallb (fun q => bool_decide (p_parent q <> Some 0%nat)) (ptable (k_ps demo3))
    || negb (p_killed (demo_proc 0) =? 0) = false) as H3 by (vm_compute; reflexivity).
  pose proof (waitx_correct SCHED_MLFQ ledger0 2 3 demo3 demo_cpus 0 0 (demo_proc 0)
    ledger0_ok ledger0_bootable demo_reachable ltac:(lia) eq_refl H1) as H. cbn zeta in H.
  rewrite H2, H3 in H. eapply wp_mono; [exact H|]. cbn beta. intros r k' [Hr _]. exact Hr.
Defined.

(** * Two places where the code does less than it means to *)

(** [kill(0)] succeeds although no process has id 0: it marks the first
    unused slot of the table as killed, and [allocproc] does not clear the mark,
    so the next process made in that slot is born killed. *)
Theorem kill_zero_marks_free_slot pol s i :
  inv pol None s -> ptable_locked s = false -> first_from (fun q => p_pid q =? 0) (ptable s) 0 = Some i ->
  first_from (fun q => bool_decide (p_state q = UNUSED)) (ptable s) 0 = Some i ->
  wp (let! r := kill pol 0 in let! o := alloc_slot in ret (r, o)) (fun ro s' =>
    ro = (0, Some i) /\ exists q, ptable s' !! i = Some q /\ p_state q = EMBRYO /\ p_killed q = 1) s.
Proof.
  intros Hinv Hl H0 Hfree. rewrite wp_bind. eapply wp_mono; [by apply kill_spec|]. cbn beta.
  intros z s' (Hinv' & (Hl' & _) & Hm). rewrite H0 in Hm. destruct Hm as [-> Ht].
  apply first_from_Some in Hfree as (j & p & -> & Hj & Hp & Hbefore). cbn [Nat.add] in *.
  apply bool_decide_eq_true in Hp. pose proof (lookup_lt_Some _ _ _ Hj) as Hlt.
  assert (ptable s' = <[j := set_p_killed 1 p]> (ptable s)) as Ht'.
  { rewrite Ht, (list_alter_insert _ _ _ p Hj). unfold kill_proc. cbn [p_state set_p_killed].
    by rewrite bool_decide_eq_false_2 by congruence. }
  assert (first_from (fun q => bool_decide (p_state q = UNUSED)) (ptable s') 0 = Some j) as Hf.
  { apply first_from_Some. exists j, (set_p_killed 1 p). rewrite Ht'. split; [done|].
    split; [by apply list_lookup_insert_eq|]. split; [by apply bool_decide_eq_true|].
    intros m q Hm Hq. rewrite list_lookup_insert_ne in Hq by lia. by eapply Hbefore. }
  rewrite wp_bind. unfold alloc_slot. wp_steps. split; [congruence|]. cbn [ptable set_ptable_locked].
  rewrite Hf. wp_steps. split; [exists (set_p_killed 1 p); cbn; rewrite Ht'; by apply list_lookup_insert_eq|].
  split; [done|]. split; [done|]. cbn. rewrite Ht'. rewrite list_lookup_alter_eq, list_lookup_insert_eq by done.
  by eexists.
Qed.

Lemma kill_zero_marks_free_slot_witness :
  wp (let! r := kill SCHED_MLFQ 0 in let! o := alloc_slot in ret (r, o)) (fun ro s' =>
    ro = (0, Some 1%nat) /\ exists q, ptable s' !! 1%nat = Some q /\ p_state q = EMBRYO /\ p_killed q = 1)
    (k_ps demo1).
Proof.
  destruct (reachable_inv SCHED_MLFQ ledger0 2 1 demo1 [Some 0%nat; None] ledger0_ok ledger0_bootable
    demo1_reachable ltac:(lia)) as [Hinv Hl].
  apply (kill_zero_marks_free_slot SCHED_MLFQ (k_ps demo1) 1 Hinv Hl); vm_compute; reflexivity.
Defined.

(** Within 100 ticks of the largest [int] the first-come-first-served
    scheduler stops: [ticks + 100] wraps to a negative bound and no process is
    ever selected, whatever is [RUNNABLE]. *)
Theorem fcfs_overflow_idle pos s :
  inv SCHED_FCFS None s -> ptable_locked s = false -> 2 ^ 31 - 100 <= ticks s < 2 ^ 31 ->
  (forall p, p ∈ ptable s -> 0 <= p_start_time p) ->
  wp (enter SCHED_FCFS pos) (fun r s' => r = None /\ ptable s' = ptable s) s.
Proof.
  intros Hinv Hl Ht Hst. destruct (proj1 (inv_sinv _ _ _) Hinv) as (qs & Hs).
  eapply wp_mono; [by apply (enter_spec SCHED_FCFS pos qs)|]. cbn beta.
  intros r s'. unfold entered, choose. intros (-> & _ & _ & Hm).
  destruct (fcfs_select_sel (ticks s) (ptable s)) as [[Hn _]|(j & q & Hj & Hlt & (Hq & _))].
  { by rewrite Hn in *. }
  specialize (Hst q (list_elem_of_lookup_2 _ _ _ Hq)). unfold i32 in Hlt.
  rewrite <- (Z.mod_add _ (-1)), Z.mod_small in Hlt by lia. lia.
Qed.

Lemma fcfs_overflow_idle_witness :
  let s := set_ticks (2 ^ 31 - 1) (k_ps (booted SCHED_FCFS)) in
  existsb is_runnable (ptable s) = true /\
  wp (enter SCHED_FCFS 0) (fun r s' => r = None /\ ptable s' = ptable s) s.
Proof.
  cbn zeta. split; [vm_compute; reflexivity|].
  destruct (booted_inv SCHED_FCFS) as [Hinv Hl]; [vm_compute; reflexivity|].
  assert (forallb (fun p => 0 <=? p_start_time p) (ptable (k_ps (booted SCHED_FCFS))) = true) as Hall
    by (vm_compute; reflexivity).
  revert Hinv Hl Hall. generalize (k_ps (booted SCHED_FCFS)). intros s Hinv Hl Hall.
  apply (fcfs_overflow_idle 0 (set_ticks (2 ^ 31 - 1) s)); [by apply (inv_misc _ _ s)|done|cbn; lia|].
  intros p Hp. rewrite forallb_forall in Hall. apply Z.leb_le, Hall. by apply list_elem_of_In.
Defined.
