(* ===== verification/Syscall.v ===== *)
(** System calls and traps: the argument fetching and the dispatch of
    [syscall.c], the process calls of [sysproc.c], and [trap] of [trap.c].

    A system call runs over the kernel state of [Proc.v] and the memory of the
    process that makes it, a byte memory at the process's own addresses, of which
    the bytes below [sz] are the process's.  A call that sleeps ends in [Asleep],
    as in [Proc.v].  The file-system calls ([sysfile.c]) and the device interrupt
    handlers enter as section variables. *)

From S2P Require Import Prelude CString Mem ProcDefs Queue Proc Sched ProcInv SchedInv.
From S2P Require Import Trap KProc Ledger System SystemProps.

Module Syscall.
Import Proc Trap.

Record ust (R : Type) : Type := mkust { u_k : kst R; u_mem : mem }.
Arguments mkust {R} u_k u_mem.
Arguments u_k {R} u.
Arguments u_mem {R} u.

(** ** [syscall.h] and [traps.h] *)
Definition SYS_fork : Z := 1.
Definition SYS_exit : Z := 2.
Definition SYS_wait : Z := 3.
Definition SYS_pipe : Z := 4.
Definition SYS_read : Z := 5.
Definition SYS_kill : Z := 6.
Definition SYS_exec : Z := 7.
Definition SYS_fstat : Z := 8.
Definition SYS_chdir : Z := 9.
Definition SYS_dup : Z := 10.
Definition SYS_getpid : Z := 11.
Definition SYS_sbrk : Z := 12.
Definition SYS_sleep : Z := 13.
Definition SYS_uptime : Z := 14.
Definition SYS_open : Z := 15.
Definition SYS_write : Z := 16.
Definition SYS_mknod : Z := 17.
Definition SYS_unlink : Z := 18.
Definition SYS_link : Z := 19.
Definition SYS_mkdir : Z := 20.
Definition SYS_close : Z := 21.
Definition SYS_waitx : Z := 22.
Definition SYS_set_priority : Z := 23.
Definition SYS_getpinfo : Z := 24.

Definition T_SYSCALL : Z := 64.
Definition T_IRQ0 : Z := 32.
Definition IRQ_TIMER : Z := 0.
Definition IRQ_KBD : Z := 1.
Definition IRQ_COM1 : Z := 4.
Definition IRQ_IDE : Z := 14.
Definition IRQ_SPURIOUS : Z := 31.
Definition DPL_USER : Z := 3.

Section calls.
Context {R : Type} `{!ProcOps R}.
Abbreviation U := (M (ust R)).

Definition on_k {A} (m : M (kst R) A) : U A := zoom u_k (fun k u => mkust k (u_mem u)) m.
Definition curproc (cur : nat) : U proc := on_k (getp cur).

(** ** Fetching arguments *)

(** [None] is the return value -1. *)
Definition fetchint (cur : nat) (addr : Z) : U (option Z) :=
  let! p := curproc cur in
  if (addr >=? p_sz p) || (u32 (addr + 4) >? p_sz p) then ret None
  else let! m := gets u_mem in ret (Some (i32 (load32 m addr))).

(** The loop of [fetchstr], over the [n] bytes up to [ep]. *)
Fixpoint fetchstr_loop (m : mem) (s : Z) (n : nat) : option Z :=
  match n with
  | O => None
  | S n => if m s =? 0 then Some s else fetchstr_loop m (s + 1) n
  end.
(** The pointer it stores in [pp], and the length it returns. *)
Definition fetchstr (cur : nat) (addr : Z) : U (option (Z * Z)) :=
  let! p := curproc cur in
  if addr >=? p_sz p then ret None
  else
    let! m := gets u_mem in
    ret (match fetchstr_loop m addr (Z.to_nat (p_sz p - addr)) with
         | Some s => Some (addr, s - addr)
         | None => None
         end).

Definition argint (cur : nat) (n : Z) : U (option Z) :=
  let! p := curproc cur in fetchint cur (u32 (tf_esp (p_tf p) + 4 + 4 * n)).

Definition argptr (cur : nat) (n size : Z) : U (option Z) :=
  let! o := argint cur n in
  match o with
  | None => ret None
  | Some i =>
      let! p := curproc cur in
      if (size <? 0) || (u32 i >=? p_sz p) || (u32 (u32 i + size) >? p_sz p) then ret None
      else ret (Some (u32 i))
  end.

Definition argstr (cur : nat) (n : Z) : U (option (Z * Z)) :=
  let! o := argint cur n in
  match o with
  | None => ret None
  | Some addr => fetchstr cur (u32 addr)
  end.

(** ** [sysproc.c] *)

Definition store_word (a v : Z) : U unit := modify (fun u => mkust (u_k u) (store32 a v (u_mem u))).
Fixpoint store_words (a : Z) (vs : list Z) : U unit :=
  match vs with
  | [] => ret tt
  | v :: vs => do! store_word a v; store_words (a + 4) vs
  end.

Definition sys_fork (pol : policy) (cur : nat) : U (ctl Z) :=
  let! z := on_k (fork pol cur) in ret (Done z).
Definition sys_exit (pol : policy) (cur : nat) : U (ctl Z) :=
  do! on_k (exit pol cur); ret (Done 0).
Definition sys_wait (cur : nat) : U (ctl Z) := on_k (wait cur).

(** [waitx] stores the times through the two pointers. *)
Definition waitx_store (wtime rtime : Z) (c : ctl (Z * option (Z * Z))) : U (ctl Z) :=
  match c with
  | Done (pid, Some (w, r)) => do! store_word rtime r; do! store_word wtime w; ret (Done pid)
  | Done (pid, None) => ret (Done pid)
  | Resched (pid, _) => ret (Resched pid)
  | Asleep ch => ret (Asleep ch)
  end.
Definition sys_waitx (cur : nat) : U (ctl Z) :=
  let! o := argptr cur 0 4 in
  match o with
  | None => ret (Done (-1))
  | Some wtime =>
      let! o := argptr cur 1 4 in
      match o with
      | None => ret (Done (-1))
      | Some rtime => let! c := on_k (waitx cur) in waitx_store wtime rtime c
      end
  end.
(** Woken, it goes on from the loop of [waitx]. *)
Definition sys_waitx_resume (cur : nat) (wtime rtime : Z) : U (ctl Z) :=
  let! c := on_k (waitx_loop cur) in waitx_store wtime rtime c.

Definition sys_set_priority (cur : nat) : U (ctl Z) :=
  let! o := argint cur 0 in
  match o with
  | None => ret (Done (-1))
  | Some new_priority => on_k (on_ps (set_priority cur new_priority))
  end.

(** The nine words of a [struct proc_stat]. *)
Definition proc_stat_words (ps : proc_stat) : list Z :=
  ps_pid ps :: ps_runtime ps :: ps_num_run ps :: ps_current_queue ps :: ps_ticks ps.
Definition sys_getpinfo (pol : policy) (cur : nat) : U (ctl Z) :=
  let! o := argint cur 0 in
  match o with
  | None => ret (Done (-1))
  | Some pid =>
      let! o := argptr cur 1 4 in
      match o with
      | None => ret (Done (-1))
      | Some ps =>
          let! r := on_k (on_ps (getpinfo pol pid)) in
          match r with
          | (z, Some st) => do! store_words ps (proc_stat_words st); ret (Done z)
          | (z, None) => ret (Done z)
          end
      end
  end.

Definition sys_kill (pol : policy) (cur : nat) : U (ctl Z) :=
  let! o := argint cur 0 in
  match o with
  | None => ret (Done (-1))
  | Some pid => let! z := on_k (on_ps (kill pol pid)) in ret (Done z)
  end.

Definition sys_getpid (cur : nat) : U (ctl Z) :=
  let! p := curproc cur in ret (Done (p_pid p)).

Definition sys_sbrk (cur : nat) : U (ctl Z) :=
  let! o := argint cur 0 in
  match o with
  | None => ret (Done (-1))
  | Some n =>
      let! p := curproc cur in
      let addr := i32 (p_sz p) in
      let! z := on_k (growproc cur n) in
      if z <? 0 then ret (Done (-1)) else ret (Done addr)
  end.

(** The loop of [sys_sleep] from its test; it runs again when woken. The
    comparison is between unsigned numbers. *)
Definition sleep_loop (cur : nat) (n ticks0 : Z) : U (ctl Z) :=
  let! t := on_k (on_ps (gets ticks)) in
  if u32 (t - ticks0) <? u32 n then
    let! p := curproc cur in
    if negb (p_killed p =? 0) then ret (Done (-1))
    else do! on_k (on_ps (sleep cur ChTicks false)); ret (Asleep ChTicks)
  else ret (Done 0).
Definition sys_sleep (cur : nat) : U (ctl Z) :=
  let! o := argint cur 0 in
  match o with
  | None => ret (Done (-1))
  | Some n => let! ticks0 := on_k (on_ps (gets ticks)) in sleep_loop cur n ticks0
  end.

Definition sys_uptime : U (ctl Z) :=
  let! xticks := on_k (on_ps (gets ticks)) in ret (Done (i32 xticks)).

(** ** The dispatch *)

Section dispatch.
(** The calls of [sysfile.c], by number. *)
Variable fs_call : nat -> Z -> U (ctl Z).

Definition syscalls (pol : policy) (cur : nat) (num : Z) : option (U (ctl Z)) :=
  if num =? SYS_fork then Some (sys_fork pol cur)
  else if num =? SYS_exit then Some (sys_exit pol cur)
  else if num =? SYS_wait then Some (sys_wait cur)
  else if num =? SYS_waitx then Some (sys_waitx cur)
  else if num =? SYS_kill then Some (sys_kill pol cur)
  else if num =? SYS_getpid then Some (sys_getpid cur)
  else if num =? SYS_sbrk then Some (sys_sbrk cur)
  else if num =? SYS_sleep then Some (sys_sleep cur)
  else if num =? SYS_uptime then Some sys_uptime
  else if num =? SYS_set_priority then Some (sys_set_priority cur)
  else if num =? SYS_getpinfo then Some (sys_getpinfo pol cur)
  else if bool_decide (num ∈ [SYS_pipe; SYS_read; SYS_exec; SYS_fstat; SYS_chdir; SYS_dup; SYS_open;
      SYS_write; SYS_mknod; SYS_unlink; SYS_link; SYS_mkdir; SYS_close]) then Some (fs_call cur num)
  else None.
Definition NELEM_syscalls : Z := 25.

Definition set_eax (cur : nat) (v : Z) : U unit :=
  on_k (setp cur (fun p => set_p_tf (set_tf_eax (u32 v) (p_tf p)) p)).

(** The value goes to [eax] when the call returns. *)
Definition syscall (pol : policy) (cur : nat) : U (ctl unit) :=
  let! p := curproc cur in
  let num := i32 (tf_eax (p_tf p)) in
  match (if (num >? 0) && (num <? NELEM_syscalls) then syscalls pol cur num else None) with
  | Some f =>
      let! c := f in
      match c with
      | Done z => do! set_eax cur z; ret (Done tt)
      | Resched z => do! set_eax cur z; ret (Resched tt)
      | Asleep ch => ret (Asleep ch)
      end
  | None => do! set_eax cur (-1); ret (Done tt)
  end.

(** ** [trap] *)

(** The device interrupt handlers. *)
Variables ideintr kbdintr uartintr : U unit.

(** How a trap ends: back to the interrupted code, in [exit], or by giving up the
    processor. *)
Inductive tend := TReturn | TExited | TYielded | TSlept.

Definition exit_if_killed (pol : policy) (cur : option nat) (tf : trapframe) (k : U tend) : U tend :=
  match cur with
  | None => k
  | Some i =>
      let! p := curproc i in
      if negb (p_killed p =? 0) && (Z.land (tf_cs tf) 3 =? DPL_USER)
      then do! on_k (exit pol i); ret TExited
      else k
  end.

(** The [switch] on the trap number. *)
Definition trap_cause (pol : policy) (cpu0 : bool) (cur : option nat) (tf : trapframe) : U unit :=
  let no := tf_trapno tf in
  if no =? T_IRQ0 + IRQ_TIMER then when cpu0 (on_k (on_ps (clock_tick pol)))
  else if no =? T_IRQ0 + IRQ_IDE then ideintr
  else if no =? T_IRQ0 + IRQ_IDE + 1 then ret tt
  else if no =? T_IRQ0 + IRQ_KBD then kbdintr
  else if no =? T_IRQ0 + IRQ_COM1 then uartintr
  else if (no =? T_IRQ0 + 7) || (no =? T_IRQ0 + IRQ_SPURIOUS) then ret tt
  else
    match cur with
    | None => panic "trap"
    | Some i =>
        if Z.land (tf_cs tf) 3 =? 0 then panic "trap"
        else on_k (setp i (set_p_killed 1))
    end.

Definition trap_syscall (pol : policy) (i : nat) (tf : trapframe) : U tend :=
  let! p := curproc i in
  if negb (p_killed p =? 0) then do! on_k (exit pol i); ret TExited
  else
    do! on_k (setp i (set_p_tf tf));
    let! c := syscall pol i in
    match c with
    | Done _ =>
        let! p := curproc i in
        if negb (p_killed p =? 0) then do! on_k (exit pol i); ret TExited else ret TReturn
    | Resched _ => ret TYielded
    | Asleep _ => ret TSlept
    end.

(** The clock interrupt of a running process: [None] for the [return] that skips
    the last check. *)
Definition trap_timer (pol : policy) (cur : option nat) (tf : trapframe) : U (option tend) :=
  match cur with
  | Some i =>
      let! p := curproc i in
      if bool_decide (p_state p = RUNNING) && (tf_trapno tf =? T_IRQ0 + IRQ_TIMER) then
        match pol with
        | SCHED_FCFS => ret None
        | SCHED_MLFQ => let! b := on_k (on_ps (timer pol i)) in ret (Some (if b : bool then TYielded else TReturn))
        | _ => let! b := on_k (on_ps (timer pol i)) in ret (if b : bool then Some TYielded else None)
        end
      else ret None
  | None => ret None
  end.

Definition trap (pol : policy) (cpu0 : bool) (cur : option nat) (tf : trapframe) : U tend :=
  if tf_trapno tf =? T_SYSCALL then
    match cur with Some i => trap_syscall pol i tf | None => fault end
  else
    do! trap_cause pol cpu0 cur tf;
    exit_if_killed pol cur tf (
      let! r := trap_timer pol cur tf in
      match r with
      | Some e => ret e
      | None => match pol with SCHED_FCFS => ret TReturn | _ => exit_if_killed pol cur tf (ret TReturn) end
      end).

(** What is left of it when a process that yielded in it runs again. *)
Definition trap_resume (pol : policy) (cur : nat) (tf : trapframe) : U tend :=
  exit_if_killed pol (Some cur) tf (ret TReturn).

End dispatch.
End calls.
End Syscall.

(** * Arguments stay inside the process *)

Section args.
Import Proc Trap Syscall.
Context {R : Type} `{!ProcOps R}.
Implicit Types (u : ust R) (p : proc).

Lemma wp_on_k {A} (m : M (kst R) A) Q u :
  wp (on_k m) Q u <-> wp m (fun a k => Q a (mkust k (u_mem u))) (u_k u).
Proof. unfold on_k. by rewrite wp_zoom. Qed.
Lemma wp_curproc cur Q u :
  wp (curproc cur) Q u <-> exists p, ptable (k_ps (u_k u)) !! cur = Some p /\ Q p u.
Proof. unfold curproc. rewrite wp_on_k, wp_getp. by destruct u. Qed.
Hint Rewrite @wp_on_k wp_curproc : wp.

Definition the_proc (cur : nat) (u : ust R) (p : proc) : Prop :=
  ptable (k_ps (u_k u)) !! cur = Some p /\ 0 <= p_sz p <= KERNBASE /\ bytes_ok (u_mem u).

Lemma fetchint_spec cur addr u p :
  the_proc cur u p -> 0 <= addr < 2 ^ 32 ->
  wp (fetchint cur addr) (fun o u' => u' = u /\
    o = if addr + 4 <=? p_sz p then Some (i32 (load32 (u_mem u) addr)) else None) u.
Proof.
  intros (Hp & Hsz & _) Ha. unfold fetchint, KERNBASE in *. wp_steps. exists p. split; [done|].
  lap (addr + 4); try lia.
  - destruct (Z.leb_spec (addr + 4) (p_sz p)).
    + rewrite (proj2 (orb_false_iff _ _)) by lia. by wp_steps.
    + rewrite (proj2 (orb_true_iff _ _)) by lia. by wp_steps.
  - destruct (Z.leb_spec (addr + 4) (p_sz p)); [lia|].
    rewrite (proj2 (orb_true_iff _ _)) by lia. by wp_steps.
Qed.

(** The address of the [n]th argument, and the argument. *)
Definition arg_addr (p : proc) (n : Z) : Z := u32 (tf_esp (p_tf p) + 4 + 4 * n).
Definition arg_word (u : ust R) (p : proc) (n : Z) : Z := load32 (u_mem u) (arg_addr p n).

Lemma argint_spec cur n u p :
  the_proc cur u p ->
  wp (argint cur n) (fun o u' => u' = u /\
    o = if arg_addr p n + 4 <=? p_sz p then Some (i32 (arg_word u p n)) else None) u.
Proof.
  intros Hp. unfold argint. wp_steps. exists p. split; [apply Hp|].
  apply fetchint_spec; [done|]. apply u32_range.
Qed.

Lemma arg_word_u32 cur u p n : the_proc cur u p -> u32 (i32 (arg_word u p n)) = arg_word u p n.
Proof. intros (_ & _ & Hb). rewrite u32_i32. by apply u32_small, load32_range. Qed.

(** C37: [argptr] accepts exactly the pointers whose block of [size] bytes lies
    inside the process's memory, with no way around through 32-bit
    wrap-around. *)
Theorem argptr_exact cur n size u p :
  the_proc cur u p -> - 2 ^ 31 <= size < 2 ^ 31 ->
  wp (argptr cur n size) (fun o u' => u' = u /\ forall a, o = Some a <->
    arg_addr p n + 4 <= p_sz p /\ a = arg_word u p n /\ 0 <= a < p_sz p /\ 0 <= size /\ a + size <= p_sz p) u.
Proof.
  intros Hp Hs. unfold argptr. rewrite wp_bind. eapply wp_mono; [by apply argint_spec|]. cbn beta.
  intros o u' [-> ->]. pose proof (arg_word_u32 _ _ _ n Hp) as Hw. destruct Hp as (Hp & Hsz & Hb).
  pose proof (load32_range (u_mem u) (arg_addr p n) Hb) as Hr. unfold KERNBASE in *.
  destruct (Z.leb_spec (arg_addr p n + 4) (p_sz p)) as [Hle|Hgt].
  2:{ wp_steps. split; [done|]. intros a. split; [done|lia]. }
  wp_steps. exists p. split; [done|]. rewrite Hw. fold (arg_word u p n) in Hr.
  destruct ((size <? 0) || _ || _) eqn:Hc; wp_steps; (split; [done|]); intros a;
    rewrite ?orb_true_iff, ?orb_false_iff in Hc.
  - split; [done|]. intros (_ & -> & Ha & Hs0 & Hfit). lap (arg_word u p n + size); lia.
  - destruct Hc as [[H1 H2] H3]. lap (arg_word u p n + size); try lia.
    split; [intros [= <-]; lia|]. by intros (_ & -> & _).
Qed.

Lemma fetchstr_loop_spec m s n r :
  fetchstr_loop m s n = Some r <->
  s <= r < s + Z.of_nat n /\ m r = 0 /\ forall b, s <= b < r -> m b <> 0.
Proof.
  revert s. induction n as [|n IH]; intros s; cbn [fetchstr_loop]; [split; [done|lia]|].
  destruct (Z.eqb_spec (m s) 0) as [H0|H0].
  - split; [intros [= <-]; split; [lia|]; split; [done|lia]|]. intros (Hr & _ & Hb).
    destruct (decide (r = s)) as [->|]; [done|]. by destruct (Hb s); [lia|].
  - rewrite IH. split; intros (Hr & Hz & Hb); (split; [|split; [done|]]).
    + lia.
    + intros b Hbr. destruct (decide (b = s)) as [->|]; [done|]. apply Hb. lia.
    + destruct (decide (r = s)) as [->|]; [done|lia].
    + intros b Hbr. apply Hb. lia.
Qed.

(** [fetchstr] succeeds exactly on a string whose terminating zero lies inside
    the process's memory, and returns its length. *)
Theorem fetchstr_exact cur addr u p :
  the_proc cur u p -> 0 <= addr ->
  wp (fetchstr cur addr) (fun o u' => u' = u /\ forall a len, o = Some (a, len) <->
    a = addr /\ 0 <= len /\ addr + len < p_sz p /\ u_mem u (addr + len) = 0 /\
    forall i, 0 <= i < len -> u_mem u (addr + i) <> 0) u.
Proof.
  intros (Hp & Hsz & _) Ha. unfold fetchstr. wp_steps. exists p. split; [done|].
  destruct (Z.geb_spec addr (p_sz p)); wp_steps; (split; [done|]); intros a len.
  { split; [done|lia]. }
  pose proof (fetchstr_loop_spec (u_mem u) addr (Z.to_nat (p_sz p - addr))) as Hl.
  destruct (fetchstr_loop _ _ _) as [r|] eqn:Hr; split.
  - intros [= <- <-]. destruct (proj1 (Hl r) eq_refl) as (H1 & H2 & H3).
    split; [done|]. split; [lia|]. split; [lia|]. split; [by replace (addr + (r - addr)) with r by lia|].
    intros i Hi. apply H3. lia.
  - intros (-> & H1 & H2 & H3 & H4). assert (Some r = Some (addr + len)) as [= ->].
    { apply Hl. split; [lia|]. split; [done|]. intros b Hb. replace b with (addr + (b - addr)) by lia. apply H4. lia. }
    do 2 f_equal. lia.
  - done.
  - intros (-> & H1 & H2 & H3 & H4). enough (None = Some (addr + len)) by done.
    apply Hl. split; [lia|]. split; [done|]. intros b Hb. replace b with (addr + (b - addr)) by lia. apply H4. lia.
Qed.
End args.

(** * A killed process does not get back to user mode *)

Section killed.
Import Proc Trap Syscall.
Context {R : Type} `{!ProcOps R}.

Lemma bind_Ok {S A B} (m : M S A) (k : A -> M S B) s b s' :
  bind m k s = Ok (b, s') -> exists a s1, m s = Ok (a, s1) /\ k a s1 = Ok (b, s').
Proof. unfold bind. destruct (m s) as [[a s1]| | |]; [eauto|done..]. Qed.

Definition killed_of (i : nat) (s : pstate) : option Z := p_killed <$> ptable s !! i.

(** Code that leaves the [killed] flag of process [i] alone. *)
Definition spares {A} (i : nat) (m : M pstate A) : Prop :=
  forall s a s', m s = Ok (a, s') -> killed_of i s' = killed_of i s.

Lemma spares_bind {A B} i (m : M pstate A) (k : A -> M pstate B) :
  spares i m -> (forall a, spares i (k a)) -> spares i (bind m k).
Proof. intros Hm Hk s b s' (a & s1 & H1 & H2)%bind_Ok. by rewrite (Hk _ _ _ _ H2), (Hm _ _ _ H1). Qed.
Lemma spares_ret {A} i (a : A) : spares i (ret a).
Proof. by intros s b s' [= _ <-]. Qed.
Lemma spares_acquire i : spares i acquire.
Proof. intros s a s'. unfold acquire, bind, gets. destruct (ptable_locked s); [done|]. by intros [= _ <-]. Qed.
Lemma spares_release i : spares i release.
Proof. intros s a s'. unfold release, bind, gets. destruct (ptable_locked s); [|done]. by intros [= _ <-]. Qed.
Lemma spares_deref {A} i (o : option A) : spares i (deref o).
Proof. intros s b s'. unfold deref. destruct o; [by intros [= _ <-]|done]. Qed.
Lemma spares_get_proc i j : spares i (Queue.get_proc j).
Proof. apply spares_bind; [by intros s a s' [= _ <-]|intros s]. apply spares_deref. Qed.
Lemma spares_set_proc i j f : (forall p, p_killed (f p) = p_killed p) -> spares i (Queue.set_proc j f).
Proof.
  intros Hf. apply spares_bind; [apply spares_get_proc|]. intros _ s a s' [= _ <-].
  unfold killed_of, upd_proc. cbn.
  destruct (decide (i = j)) as [->|Hne]; [|by rewrite list_lookup_alter_ne].
  rewrite list_lookup_alter_eq. destruct (ptable s !! j); cbn; [by rewrite Hf|done].
Qed.
Lemma spares_gets {A} i (f : pstate -> A) : spares i (gets f).
Proof. by intros s b s' [= _ <-]. Qed.
Lemma spares_panic {A} i msg : spares i (panic msg : M pstate A).
Proof. done. Qed.

Lemma spares_yield i j : spares i (yield j).
Proof.
  apply spares_bind; [apply spares_acquire|intros _]. apply spares_bind; [by apply spares_set_proc|intros _].
  apply spares_bind; [apply spares_gets|intros l]. destruct l; [|apply spares_panic].
  apply spares_bind; [apply spares_get_proc|intros p]. case_bool_decide; [apply spares_panic|apply spares_ret].
Qed.

Lemma spares_locked i j f :
  (forall p, p_killed (f p) = p_killed p) -> spares i (do! acquire; do! Queue.set_proc j f; release).
Proof.
  intros Hf. apply spares_bind; [apply spares_acquire|intros _].
  apply spares_bind; [by apply spares_set_proc|intros _]. apply spares_release.
Qed.

Lemma spares_timer pol i j : spares i (timer pol j).
Proof.
  destruct pol; unfold timer; try (apply spares_bind; [apply spares_yield|intros _]; apply spares_ret);
    [apply spares_ret|].
  apply spares_bind; [|intros _; apply spares_bind; [apply spares_get_proc|intros p]].
  { apply spares_bind; [apply spares_acquire|intros _]. apply spares_bind; [apply spares_get_proc|intros p].
    do 2 (apply spares_bind; [apply spares_deref|intros ?]).
    apply spares_bind; [by apply spares_set_proc|intros _]. apply spares_release. }
  destruct (_ >=? _).
  - apply spares_bind; [by apply spares_locked|intros _].
    apply spares_bind; [apply spares_yield|intros _]. apply spares_ret.
  - apply spares_bind; [by apply spares_locked|intros _]. apply spares_ret.
Qed.

Section trap.
Variable fs_call : nat -> Z -> M (ust R) (ctl Z).
Variables ideintr kbdintr uartintr : M (ust R) unit.

Definition ukilled (i : nat) (u : ust R) : option Z := killed_of i (k_ps (u_k u)).

Lemma curproc_Ok i (u : ust R) p u' :
  curproc i u = Ok (p, u') -> u' = u /\ ptable (k_ps (u_k u)) !! i = Some p.
Proof.
  intros Hrun. destruct (ptable (k_ps (u_k u)) !! i) as [q|] eqn:Hq.
  - assert (wp (curproc i) (fun p' u' => u' = u /\ p' = q) u) as Hw by (rewrite wp_curproc; eauto).
    destruct (wp_det _ _ _ _ _ Hw Hrun) as [-> ->]. done.
  - exfalso. revert Hrun. unfold curproc, on_k, getp, on_ps, zoom, Queue.get_proc, bind, get, deref. cbn.
    by rewrite Hq.
Qed.

Lemma check_killed_Ok pol i (b : bool) (k : M (ust R) tend) u u' :
  (let! p := curproc i in
   if negb (p_killed p =? 0) && b then do! on_k (exit pol i); ret TExited else k) u = Ok (TReturn, u') ->
  (b = true -> ukilled i u = Some 0) /\ k u = Ok (TReturn, u').
Proof.
  intros (p & u1 & [-> Hp]%curproc_Ok & Hrun)%bind_Ok.
  destruct (negb (p_killed p =? 0) && b) eqn:Hk.
  - apply bind_Ok in Hrun as (? & ? & _ & [=]).
  - split; [|done]. intros ->. unfold ukilled, killed_of. rewrite Hp. cbn. f_equal.
    rewrite andb_true_r, negb_false_iff in Hk. lia.
Qed.

Lemma trap_timer_spares pol i tf (u : ust R) r u' :
  trap_timer pol (Some i) tf u = Ok (r, u') -> ukilled i u' = ukilled i u.
Proof.
  intros (p & u1 & [-> Hp]%curproc_Ok & Hrun)%bind_Ok.
  assert (forall A (m : M pstate A) (a : A) v, spares i m -> on_k (on_ps m) u = Ok (a, v) ->
    ukilled i v = ukilled i u) as Hon.
  { intros A m a v Hs. unfold on_k, on_ps, zoom. destruct (m (k_ps (u_k u))) as [[b s]| | |] eqn:Hm; cbn; try done.
    intros [= <- <-]. unfold ukilled. cbn. by eapply Hs. }
  destruct (_ && _); [|by injection Hrun as _ <-].
  destruct pol; [|by injection Hrun as _ <-| |];
    apply bind_Ok in Hrun as (b & u2 & Hb & [= _ <-]); (eapply Hon; [|exact Hb]); apply spares_timer.
Qed.

(** A process that has been killed does not return to user mode: when [trap]
    returns to a process it interrupted in user mode, or from a system call, the
    process is not marked killed. *)
Theorem trap_return_not_killed pol cpu0 i tf u u' :
  trap fs_call ideintr kbdintr uartintr pol cpu0 (Some i) tf u = Ok (TReturn, u') ->
  Z.land (tf_cs tf) 3 = DPL_USER -> ukilled i u' = Some 0.
Proof.
  intros Hrun Hcs. unfold trap in Hrun. destruct (tf_trapno tf =? T_SYSCALL).
  - unfold trap_syscall in Hrun. apply bind_Ok in Hrun as (p & u1 & _ & Hrun).
    destruct (negb _); [by apply bind_Ok in Hrun as (? & ? & _ & [=])|].
    apply bind_Ok in Hrun as ([] & u2 & _ & Hrun). apply bind_Ok in Hrun as (c & u3 & _ & Hrun).
    destruct c as [[]|[]|ch]; [|by injection Hrun..].
    assert ((let! p := curproc i in if negb (p_killed p =? 0) && true
      then do! on_k (exit pol i); ret TExited else ret TReturn) u3 = Ok (TReturn, u')) as Hrun'.
    { rewrite <- Hrun. unfold bind. destruct (curproc i u3) as [[q v]| | |]; try done. by rewrite andb_true_r. }
    apply check_killed_Ok in Hrun' as [Hk [= <-]]. by apply Hk.
  - apply bind_Ok in Hrun as ([] & u1 & _ & Hrun). apply check_killed_Ok in Hrun as [Hk Hrun].
    specialize (Hk (proj2 (Z.eqb_eq _ _) Hcs)). apply bind_Ok in Hrun as (r & u2 & Ht & Hrun).
    pose proof (trap_timer_spares _ _ _ _ _ _ Ht) as Hsp.
    destruct r as [e|]; [injection Hrun as -> <-; congruence|].
    destruct pol; [|by injection Hrun as <-; congruence| |];
      apply check_killed_Ok in Hrun as [Hk2 [= <-]]; apply Hk2; by apply Z.eqb_eq.
Qed.
End trap.
End killed.

(** * Runs *)

Import Proc Trap Syscall Ledger.

(** The first process of [demo1], about to make a call: its stack pointer is 100, its
    first argument is 1 and its second [sz - 4]. *)
Definition demo_user : ust ledger :=
  mkust (mkkst (upd_proc 0 (fun p => set_p_tf (set_tf_esp 100 (p_tf p)) p) (k_ps demo1)) (k_rs demo1))
    (store32 108 4092 (store32 104 1 (fun _ => 255))).
Definition demo_user_proc : proc := default proc0 (ptable (k_ps (u_k demo_user)) !! 0%nat).

Lemma demo_user_ok : the_proc 0 demo_user demo_user_proc.
Proof.
  split; [vm_compute; reflexivity|]. split; [vm_compute; split; discriminate|].
  apply bytes_ok_store32, bytes_ok_store32. intros a. lia.
Qed.

Lemma argptr_exact_witness :
  wp (argptr 0 1 4) (fun o u' => u' = demo_user /\ (o = Some 4092 <-> 4092 + 4 <= 4096)) demo_user.
Proof.
  eapply wp_mono; [apply (argptr_exact 0 1 4 demo_user demo_user_proc demo_user_ok ltac:(lia))|].
  cbn beta. intros o u' [Hu Ho]. split; [exact Hu|]. rewrite Ho.
  replace (p_sz demo_user_proc) with 4096 by (vm_compute; reflexivity).
  replace (arg_word demo_user demo_user_proc 1) with 4092 by (vm_compute; reflexivity).
  replace (arg_addr demo_user_proc 1) with 108 by (vm_compute; reflexivity). lia.
Defined.

Lemma fetchstr_exact_witness :
  wp (fetchstr 0 104) (fun o u' => u' = demo_user /\ (o = Some (104, 1) <-> True)) demo_user.
Proof.
  eapply wp_mono; [apply (fetchstr_exact 0 104 demo_user demo_user_proc demo_user_ok ltac:(lia))|].
  cbn beta. intros o u' [Hu Ho]. split; [exact Hu|]. rewrite Ho.
  replace (p_sz demo_user_proc) with 4096 by (vm_compute; reflexivity). split; [done|]. intros _.
  split; [reflexivity|]. split; [lia|]. split; [lia|]. split; [vm_compute; reflexivity|].
  intros i Hi. assert (i = 0) as -> by lia. vm_compute. discriminate.
Defined.


Lemma trap_return_not_killed_witness :
  let tf := mktrapframe 0 0 0 0 0 0 0 0 0 0 0 0 (T_IRQ0 + IRQ_SPURIOUS) 0 0 3 0 0 0 in
  let trap := trap (fun _ _ => ret (Done 0)) (ret tt) (ret tt) (ret tt) in
  trap SCHED_MLFQ true (Some 0%nat) tf demo_user = Ok (TReturn, demo_user) /\
  ukilled 0 demo_user = Some 0.
Proof.
  cbn zeta. assert (trap (fun _ _ => ret (Done 0)) (ret tt) (ret tt) (ret tt) SCHED_MLFQ true (Some 0%nat)
    (mktrapframe 0 0 0 0 0 0 0 0 0 0 0 0 (T_IRQ0 + IRQ_SPURIOUS) 0 0 3 0 0 0) demo_user
    = Ok (TReturn, demo_user)) as H by (vm_compute; reflexivity).
  split; [exact H|].
  exact (trap_return_not_killed (fun _ _ => ret (Done 0)) (ret tt) (ret tt) (ret tt) SCHED_MLFQ true 0
    (mktrapframe 0 0 0 0 0 0 0 0 0 0 0 0 (T_IRQ0 + IRQ_SPURIOUS) 0 0 3 0 0 0) demo_user demo_user H eq_refl).
Defined.
