(* ===== verification/Pipe.v ===== *)
(** Pipes ([pipe.c]).

    [Module Pipe] translates [pipewrite], [piperead] and [pipeclose].  Each runs
    with [p->lock] held from its first statement to where it sleeps or returns,
    so a call is a sequence of segments that other calls interleave with only
    where it sleeps: [pipewrite] and [piperead] end in a return or in a sleep,
    and are run again from the test of their loop when they wake.  [psys] is one
    pipe with the threads that use it, [step] the interleaving of the
    segments.  [pipealloc] is in [File.v]. *)

From S2P Require Import Prelude.

Module Pipe.

Definition PIPESIZE : Z := 512.

Record pipe : Type := mkpipe {
  data : list Z;
  nread : Z;
  nwrite : Z;
  readopen : Z;
  writeopen : Z
}.

(** The two channels, [&p->nread] and [&p->nwrite]. *)
Inductive pchan := Nread | Nwrite.
#[export] Instance pchan_eq_dec : EqDecision pchan.
Proof. solve_decision. Defined.

(** What a thread is doing: writing the bytes of a buffer that are left of [n],
    or reading at most [n] bytes. *)
Inductive activity :=
| Idle
| Writing (rest : list Z) (n : Z)
| Reading (n : nat).

Record thread : Type := mkthread {
  t_act : activity;
  t_sleep : option pchan;
  t_killed : bool
}.

(** The pipe, [None] once [kfree]d, and the threads; and two histories that no
    code reads, the bytes put into the buffer and the bytes taken out of it. *)
Record psys : Type := mkpsys {
  pp : option pipe;
  ths : list thread;
  sent : list Z;
  rcvd : list Z
}.

Definition get_pipe : M psys pipe := let! s := get in deref (pp s).
Definition put_pipe (p : pipe) : M psys unit :=
  modify (fun s => mkpsys (Some p) (ths s) (sent s) (rcvd s)).

Definition wake (c : pchan) (t : thread) : thread :=
  if bool_decide (t_sleep t = Some c) then mkthread (t_act t) None (t_killed t) else t.
Definition wakeup (c : pchan) : M psys unit :=
  modify (fun s => mkpsys (pp s) (wake c <$> ths s) (sent s) (rcvd s)).

Inductive seg (A : Type) := Returned (z : Z) | Slept (a : A).
Arguments Returned {A} z.
Arguments Slept {A} a.

(** [p->data[p->nwrite++ % PIPESIZE] = b] *)
Definition put_byte (b : Z) : M psys unit :=
  let! p := get_pipe in
  do! deref (data p !! Z.to_nat (nwrite p mod PIPESIZE));
  do! put_pipe (mkpipe (<[Z.to_nat (nwrite p mod PIPESIZE) := b]> (data p)) (nread p)
        (u32 (nwrite p + 1)) (readopen p) (writeopen p));
  modify (fun s => mkpsys (pp s) (ths s) (sent s ++ [b]) (rcvd s)).

(** The loop of [pipewrite] over the bytes that are left; the sleep leaves
    them for the next segment. *)
Fixpoint pipewrite (killed : bool) (n : Z) (addr : list Z) : M psys (seg (list Z)) :=
  match addr with
  | [] => do! wakeup Nread; ret (Returned n)
  | b :: addr' =>
      let! p := get_pipe in
      if nwrite p =? u32 (nread p + PIPESIZE) then
        if (readopen p =? 0) || killed then ret (Returned (-1))
        else do! wakeup Nread; ret (Slept addr)
      else
        do! put_byte b;
        pipewrite killed n addr'
  end.

(** [addr[i] = p->data[p->nread++ % PIPESIZE]] *)
Definition get_byte : M psys Z :=
  let! p := get_pipe in
  let! b := deref (data p !! Z.to_nat (nread p mod PIPESIZE)) in
  do! put_pipe (mkpipe (data p) (u32 (nread p + 1)) (nwrite p) (readopen p) (writeopen p));
  do! modify (fun s => mkpsys (pp s) (ths s) (sent s) (rcvd s ++ [b]));
  ret b.

Fixpoint read_copy (n : nat) : M psys (list Z) :=
  match n with
  | O => ret []
  | S n =>
      let! p := get_pipe in
      if nread p =? nwrite p then ret []
      else
        let! b := get_byte in
        let! l := read_copy n in
        ret (b :: l)
  end.

(** The bytes read come with the return value. *)
Definition piperead (killed : bool) (n : nat) : M psys (seg unit * list Z) :=
  let! p := get_pipe in
  if (nread p =? nwrite p) && negb (writeopen p =? 0) then
    if killed then ret (Returned (-1), [])
    else ret (Slept tt, [])
  else
    let! l := read_copy n in
    do! wakeup Nwrite;
    ret (Returned (Z.of_nat (length l)), l).

Definition pipeclose (writable : bool) : M psys unit :=
  let! p := get_pipe in
  do! (if writable then
         do! put_pipe (mkpipe (data p) (nread p) (nwrite p) (readopen p) 0); wakeup Nread
       else
         do! put_pipe (mkpipe (data p) (nread p) (nwrite p) 0 (writeopen p)); wakeup Nwrite);
  let! p := get_pipe in
  if (readopen p =? 0) && (writeopen p =? 0)
  then modify (fun s => mkpsys None (ths s) (sent s) (rcvd s))
  else ret tt.

(** ** The interleaving *)

Definition set_thread (i : nat) (t : thread) (s : psys) : psys :=
  mkpsys (pp s) (<[i := t]> (ths s)) (sent s) (rcvd s).

Definition is_writing (t : thread) : bool := match t_act t with Writing _ _ => true | _ => false end.
Definition is_reading (t : thread) : bool := match t_act t with Reading _ => true | _ => false end.

(** A process may call [pipewrite] or [piperead] while it has that end of the
    pipe open, and the last close of an end comes when no process uses it. *)
Inductive step : psys -> psys -> Prop :=
| step_call_write s i t l p :
    ths s !! i = Some t -> t_act t = Idle -> pp s = Some p -> writeopen p <> 0 ->
    step s (set_thread i (mkthread (Writing l (Z.of_nat (length l))) None (t_killed t)) s)
| step_call_read s i t n p :
    ths s !! i = Some t -> t_act t = Idle -> pp s = Some p -> readopen p <> 0 ->
    step s (set_thread i (mkthread (Reading n) None (t_killed t)) s)
| step_write s s' i t l n r :
    ths s !! i = Some t -> t_act t = Writing l n -> t_sleep t = None ->
    pipewrite (t_killed t) n l s = Ok (r, s') ->
    step s (set_thread i (match r with
      | Slept l' => mkthread (Writing l' n) (Some Nwrite) (t_killed t)
      | Returned _ => mkthread Idle None (t_killed t) end) s')
| step_read s s' i t n r l :
    ths s !! i = Some t -> t_act t = Reading n -> t_sleep t = None ->
    piperead (t_killed t) n s = Ok ((r, l), s') ->
    step s (set_thread i (match r with
      | Slept _ => mkthread (Reading n) (Some Nread) (t_killed t)
      | Returned _ => mkthread Idle None (t_killed t) end) s')
| step_kill s i t :
    ths s !! i = Some t ->
    step s (set_thread i (mkthread (t_act t) None true) s)
| step_close s s' w p :
    pp s = Some p -> (if w : bool then writeopen p else readopen p) <> 0 ->
    (forall t, t ∈ ths s -> (if w then is_writing t else is_reading t) = false) ->
    pipeclose w s = Ok (tt, s') ->
    step s s'.

(** A new pipe, as [pipealloc] makes it (the buffer is whatever the page held),
    and [n] threads. *)
Definition pipe0 (junk : list Z) : pipe := mkpipe junk 0 0 1 1.
Definition psys0 (junk : list Z) (n : nat) : psys :=
  mkpsys (Some (pipe0 junk)) (replicate n (mkthread Idle None false)) [] [].

End Pipe.

(** * The buffer as a queue *)

Section pipe.
Import Pipe.
Implicit Types (p : pipe) (s : psys) (t : thread).

(** How many bytes the buffer holds, and which. *)
Definition fill (p : pipe) : nat := Z.to_nat (u32 (nwrite p - nread p)).
Definition slot (p : pipe) (k : nat) : nat := Z.to_nat ((nread p + Z.of_nat k) mod PIPESIZE).
Definition contents (p : pipe) : list Z :=
  (fun k => default 0 (data p !! slot p k)) <$> seq 0 (fill p).

Record pipe_ok (p : pipe) : Prop := {
  ok_data : length (data p) = Z.to_nat PIPESIZE;
  ok_nread : 0 <= nread p < 2 ^ 32;
  ok_nwrite : 0 <= nwrite p < 2 ^ 32;
  ok_fill : (fill p <= Z.to_nat PIPESIZE)%nat
}.

Definition full (p : pipe) : Prop := fill p = Z.to_nat PIPESIZE.
Definition empty (p : pipe) : Prop := fill p = O.

Lemma fill_Z p : pipe_ok p ->
  Z.of_nat (fill p) = u32 (nwrite p - nread p) /\
  (nwrite p = nread p + Z.of_nat (fill p) \/ nwrite p = nread p + Z.of_nat (fill p) - 2 ^ 32).
Proof.
  intros [_ Hr Hw _]. unfold fill. pose proof (u32_range (nwrite p - nread p)).
  lap (nwrite p - nread p); lia.
Qed.

Lemma full_test p : pipe_ok p -> nwrite p =? u32 (nread p + PIPESIZE) = true <-> full p.
Proof.
  intros Hok. rewrite Z.eqb_eq. unfold full, PIPESIZE. destruct (fill_Z p Hok) as [_ Hw], Hok as [_ ? ? ?].
  unfold PIPESIZE in *. lap (nread p + 512); lia.
Qed.
Lemma empty_test p : pipe_ok p -> nread p =? nwrite p = true <-> empty p.
Proof.
  intros Hok. rewrite Z.eqb_eq. unfold empty. destruct (fill_Z p Hok) as [_ Hw], Hok as [_ ? ? ?].
  unfold PIPESIZE in *. lia.
Qed.

(** Writing a byte appends it, reading one takes the first. *)
Definition pushed (b : Z) (p : pipe) : pipe :=
  mkpipe (<[Z.to_nat (nwrite p mod PIPESIZE) := b]> (data p)) (nread p)
    (u32 (nwrite p + 1)) (readopen p) (writeopen p).
Definition popped (p : pipe) : pipe :=
  mkpipe (data p) (u32 (nread p + 1)) (nwrite p) (readopen p) (writeopen p).

Lemma u32_mod_PIPESIZE z : u32 z mod PIPESIZE = z mod PIPESIZE.
Proof. unfold u32, PIPESIZE. apply Z.mod_mod_divide. by exists (2 ^ 23). Qed.

Lemma slot_lt p k : (slot p k < Z.to_nat PIPESIZE)%nat.
Proof. unfold slot, PIPESIZE. pose proof (Z.mod_pos_bound (nread p + Z.of_nat k) 512). lia. Qed.

Lemma slot_write p : pipe_ok p -> slot p (fill p) = Z.to_nat (nwrite p mod PIPESIZE).
Proof.
  intros Hok. unfold slot. f_equal. destruct (fill_Z p Hok) as [_ [-> | ->]]; [done|].
  unfold PIPESIZE. rewrite <- (Z.mod_add _ (- 2 ^ 23) 512) by lia. f_equal; lia.
Qed.

Lemma slot_inj p j k :
  (j < Z.to_nat PIPESIZE)%nat -> (k < Z.to_nat PIPESIZE)%nat -> slot p j = slot p k -> j = k.
Proof.
  unfold slot, PIPESIZE. intros Hj Hk Heq.
  pose proof (Z.mod_pos_bound (nread p + Z.of_nat j) 512).
  pose proof (Z.mod_pos_bound (nread p + Z.of_nat k) 512).
  pose proof (Z.div_mod (nread p + Z.of_nat j) 512). pose proof (Z.div_mod (nread p + Z.of_nat k) 512). lia.
Qed.

Lemma pushed_spec b p :
  pipe_ok p -> ~ full p -> pipe_ok (pushed b p) /\ contents (pushed b p) = contents p ++ [b].
Proof.
  intros Hok Hnf. pose proof Hok as [Hd Hr Hw Hf].
  assert (fill (pushed b p) = S (fill p)) as Hfill.
  { unfold full, fill, pushed in *. cbn. destruct (fill_Z p Hok) as [HZ HW]. unfold fill, PIPESIZE in *.
    lap (nwrite p + 1);
      lap (u32 (nwrite p + 1) - nread p); lia. }
  split.
  - unfold full in Hnf. constructor; cbn; [by rewrite length_insert|done|apply u32_range|].
    rewrite Hfill. lia.
  - unfold contents. rewrite Hfill, seq_S, fmap_app. f_equal.
    + apply list_fmap_ext. intros _ k Hk%list_elem_of_lookup_2%elem_of_seq.
      change (slot (pushed b p) k) with (slot p k). cbn [data pushed]. rewrite list_lookup_insert_ne; [done|].
      rewrite <- slot_write by done. intros Heq%slot_inj; unfold full in *; lia.
    + cbn. change (slot (pushed b p) (fill p)) with (slot p (fill p)). rewrite slot_write by done.
      rewrite list_lookup_insert_eq; [done|]. rewrite Hd, <- slot_write by done. apply slot_lt.
Qed.

Lemma popped_spec p :
  pipe_ok p -> ~ empty p -> pipe_ok (popped p) /\
  exists b, data p !! Z.to_nat (nread p mod PIPESIZE) = Some b /\ contents p = b :: contents (popped p).
Proof.
  intros Hok Hne. pose proof Hok as [Hd Hr Hw Hf].
  assert (fill p = S (fill (popped p))) as Hfill.
  { unfold empty, fill, popped in *. cbn. destruct (fill_Z p Hok) as [HZ HW]. unfold fill, PIPESIZE in *.
    lap (nread p + 1);
      lap (nwrite p - u32 (nread p + 1)); lia. }
  assert (slot p 0 = Z.to_nat (nread p mod PIPESIZE)) as H0 by (unfold slot; by rewrite Z.add_0_r).
  split; [constructor; cbn; [done|apply u32_range|done|lia]|].
  destruct (lookup_lt_is_Some_2 (data p) (slot p 0)) as [b Hb]; [rewrite Hd; apply slot_lt|].
  exists b. split; [by rewrite <- H0|]. unfold contents. rewrite Hfill. cbn [seq fmap list_fmap]. rewrite Hb.
  f_equal. rewrite <- fmap_S_seq, <- list_fmap_compose. apply list_fmap_ext. intros _ k _. cbn. do 2 f_equal.
  unfold slot. cbn. f_equal. rewrite <- (Zplus_mod_idemp_l (u32 _)), u32_mod_PIPESIZE, Zplus_mod_idemp_l.
  f_equal. lia.
Qed.

(** ** The operations on the queue *)

Lemma wp_get_pipe Q s : wp get_pipe Q s <-> exists p, pp s = Some p /\ Q p s.
Proof. unfold get_pipe. by wp_steps. Qed.
Lemma wp_put_pipe p Q s : wp (put_pipe p) Q s <-> Q tt (mkpsys (Some p) (ths s) (sent s) (rcvd s)).
Proof. unfold put_pipe. by wp_steps. Qed.
Lemma wp_wakeup c Q s : wp (wakeup c) Q s <-> Q tt (mkpsys (pp s) (wake c <$> ths s) (sent s) (rcvd s)).
Proof. unfold wakeup. by wp_steps. Qed.
Hint Rewrite wp_get_pipe wp_put_pipe wp_wakeup : wp.

(** What a segment leaves of the pipe: the same ends open, and the queue with
    [put] appended and [got] taken off its front. *)
Record moves (s s' : psys) (p p' : pipe) (put got : list Z) : Prop := {
  mv_pipe : pp s' = Some p';
  mv_ok : pipe_ok p';
  mv_contents : contents p ++ put = got ++ contents p';
  mv_sent : sent s' = sent s ++ put;
  mv_rcvd : rcvd s' = rcvd s ++ got;
  mv_ro : readopen p' = readopen p;
  mv_wo : writeopen p' = writeopen p
}.

Lemma moves_refl s p : pp s = Some p -> pipe_ok p -> moves s s p p [] [].
Proof. intros. constructor; by rewrite ?app_nil_r. Qed.

Lemma moves_put s s' p p' b put :
  moves (mkpsys (Some (pushed b p)) (ths s) (sent s ++ [b]) (rcvd s)) s' (pushed b p) p' put [] ->
  contents (pushed b p) = contents p ++ [b] -> moves s s' p p' (b :: put) [].
Proof.
  intros [H1 H2 H3 H4 H5 H6 H7] Hc. cbn in *. constructor; try done.
  - by rewrite <- H3, Hc, <- app_assoc.
  - by rewrite H4, <- app_assoc.
Qed.

Lemma moves_got s s' p p' b got :
  moves (mkpsys (Some (popped p)) (ths s) (sent s) (rcvd s ++ [b])) s' (popped p) p' [] got ->
  contents p = b :: contents (popped p) -> moves s s' p p' [] (b :: got).
Proof.
  intros [H1 H2 H3 H4 H5 H6 H7] Hc. cbn in *. constructor; try done.
  - rewrite Hc. cbn. f_equal. exact H3.
  - by rewrite H5, <- app_assoc.
Qed.

Definition wrote (s s' : psys) (p : pipe) (killed : bool) (n : Z) (addr : list Z)
    (r : seg (list Z)) : Prop :=
  exists p' put, moves s s' p p' put [] /\
  match r with
  | Returned z =>
      (z = n /\ put = addr /\ ths s' = wake Nread <$> ths s) \/
      (z = -1 /\ full p' /\ (readopen p = 0 \/ killed = true) /\ ths s' = ths s)
  | Slept rest => addr = put ++ rest /\ full p' /\ readopen p <> 0 /\ ths s' = wake Nread <$> ths s
  end.

Lemma pipewrite_spec killed n addr s p :
  pp s = Some p -> pipe_ok p -> wp (pipewrite killed n addr) (fun r s' => wrote s s' p killed n addr r) s.
Proof.
  revert s p. induction addr as [|b addr IH]; intros s p Hp Hok; cbn [pipewrite].
  - wp_steps. exists p, []. split; [|by left].
    constructor; cbn; by rewrite ?app_nil_r.
  - unfold put_byte. wp_steps. exists p. split; [done|]. wp_steps.
    destruct (nwrite p =? _) eqn:Hfull.
    + apply full_test in Hfull; [|done]. destruct (_ || _) eqn:Hk; wp_steps.
      * exists p, []. split; [by apply moves_refl|]. right. split; [done|]. split; [done|].
        split; [|done]. apply orb_true_iff in Hk as [Hk|Hk]; [left; lia|by right].
      * apply orb_false_iff in Hk as [Hk _]. exists p, []. split; [by constructor; cbn; rewrite ?app_nil_r|].
        split; [done|]. split; [done|]. split; [lia|done].
    + assert (~ full p) as Hnf by (rewrite <- full_test, Hfull by done; done).
      destruct (pushed_spec b p Hok Hnf) as [Hok' Hc]. wp_steps. exists p. split; [done|]. wp_steps.
      destruct (lookup_lt_is_Some_2 (data p) (Z.to_nat (nwrite p mod PIPESIZE))) as [x Hx].
      { rewrite (ok_data _ Hok), <- slot_write by done. apply slot_lt. }
      exists x. split; [done|]. wp_steps. cbn [pp ths sent rcvd].
      eapply wp_mono; [apply (IH _ (pushed b p)); [done|done]|].
      intros r s' (p' & put & Hm & Hr). exists p', (b :: put).
      split; [by apply moves_put|]. destruct r as [z|rest]; cbn [ths] in Hr.
      * destruct Hr as [(-> & -> & ?)|?]; [by left|by right].
      * by destruct Hr as (-> & ?).
Qed.

Lemma read_copy_spec n s p :
  pp s = Some p -> pipe_ok p ->
  wp (read_copy n) (fun l s' => exists p', moves s s' p p' [] l /\ ths s' = ths s /\
    l = take n (contents p)) s.
Proof.
  revert s p. induction n as [|n IH]; intros s p Hp Hok; cbn [read_copy].
  - wp_steps. exists p. split; [by apply moves_refl|]. by rewrite take_0.
  - unfold get_byte. wp_steps. exists p. split; [done|]. wp_steps.
    destruct (nread p =? nwrite p) eqn:He; wp_steps.
    + apply empty_test in He; [|done]. exists p. split; [by apply moves_refl|].
      unfold contents. by rewrite He.
    + assert (~ empty p) as Hne by (rewrite <- empty_test, He by done; done).
      destruct (popped_spec p Hok Hne) as (Hok' & b & Hb & Hc). exists p. split; [done|]. wp_steps.
      exists b. split; [done|]. wp_steps. cbn [pp ths sent rcvd].
      eapply wp_mono; [apply (IH _ (popped p)); [done|done]|]. cbn beta.
      intros l s' (p' & Hm & Hths & Hl). wp_steps. exists p'. split; [by apply moves_got|].
      split; [done|]. rewrite Hc. cbn. by f_equal.
Qed.

Definition did_read (s s' : psys) (p : pipe) (killed : bool) (n : nat) (r : seg unit) (l : list Z) : Prop :=
  match r with
  | Returned z =>
      (z = -1 /\ killed = true /\ l = [] /\ s' = s) \/
      (z = Z.of_nat (length l) /\ l = take n (contents p) /\ ths s' = wake Nwrite <$> ths s /\
       exists p', moves s s' p p' [] l)
  | Slept _ => l = [] /\ empty p /\ writeopen p <> 0 /\ s' = s
  end.

Lemma piperead_spec killed n s p :
  pp s = Some p -> pipe_ok p ->
  wp (piperead killed n) (fun rl s' => did_read s s' p killed n rl.1 rl.2) s.
Proof.
  intros Hp Hok. unfold piperead. wp_steps. exists p. split; [done|]. wp_steps.
  destruct (_ && _) eqn:Hc; [destruct killed; wp_steps|wp_steps].
  - by left.
  - apply andb_true_iff in Hc as [He%empty_test Hw]; [|done]. split; [done|]. split; [done|]. split; [lia|done].
  - eapply wp_mono; [by apply read_copy_spec|]. cbn beta. intros l s' (p' & Hm & Hths & Hl). wp_steps.
    right. split; [done|]. split; [done|]. cbn. rewrite Hths. split; [done|]. exists p'.
    destruct Hm. by constructor.
Qed.

Definition closed (w : bool) (p : pipe) : pipe :=
  if w then mkpipe (data p) (nread p) (nwrite p) (readopen p) 0
  else mkpipe (data p) (nread p) (nwrite p) 0 (writeopen p).

Lemma pipeclose_spec w s p :
  pp s = Some p ->
  wp (pipeclose w) (fun _ s' =>
    s' = mkpsys (if (readopen (closed w p) =? 0) && (writeopen (closed w p) =? 0)
                 then None else Some (closed w p))
           (wake (if w then Nread else Nwrite) <$> ths s) (sent s) (rcvd s)) s.
Proof.
  intros Hp. unfold pipeclose. wp_steps. exists p. split; [done|]. unfold closed.
  destruct w; wp_steps; (eexists; split; [reflexivity|]); cbn [readopen writeopen];
    destruct (_ && _); by wp_steps.
Qed.

(** ** The invariant of a pipe in use *)

Definition some_killed (s : psys) : Prop := exists t, t ∈ ths s /\ t_killed t = true.

(** Why a thread may be asleep. *)
Definition sleep_ok (p : pipe) (t : thread) : Prop :=
  (t_sleep t = Some Nread -> is_reading t = true /\ empty p /\ writeopen p <> 0) /\
  (t_sleep t = Some Nwrite -> is_writing t = true /\ full p).

Record pipe_inv (s : psys) : Prop := {
  pi_hist : rcvd s `prefix_of` sent s;
  pi_fifo : forall p, pp s = Some p -> pipe_ok p /\ sent s = rcvd s ++ contents p;
  pi_writer : forall t, t ∈ ths s -> is_writing t = true -> exists p, pp s = Some p /\ writeopen p <> 0;
  pi_reader : forall t, t ∈ ths s -> is_reading t = true -> exists p, pp s = Some p /\ readopen p <> 0;
  pi_sleep : some_killed s \/ forall t p, t ∈ ths s -> pp s = Some p -> sleep_ok p t
}.

Lemma wake_act c t : t_act (wake c t) = t_act t /\ t_killed (wake c t) = t_killed t.
Proof. unfold wake. by case_bool_decide. Qed.
Lemma wake_sleep c t : t_sleep (wake c t) <> Some c /\ (t_sleep (wake c t) = None \/ t_sleep (wake c t) = t_sleep t).
Proof. unfold wake. case_bool_decide; cbn; auto. Qed.

Lemma elem_set_thread (l : list thread) i t x : x ∈ <[i := t]> l -> x = t \/ x ∈ l.
Proof.
  intros [j Hj]%list_elem_of_lookup. destruct (decide (i = j)) as [->|Hne].
  - apply list_lookup_insert_Some in Hj as [(_ & -> & _)|[Hn _]]; [by left|done].
  - rewrite list_lookup_insert_ne in Hj by done. right. by eapply list_elem_of_lookup_2.
Qed.

(** A step in which thread [i] goes on to [t'], the others are at most woken, and
    the pipe stays. *)
Definition at_most_woken (f : thread -> thread) : Prop :=
  forall x, t_act (f x) = t_act x /\ t_killed (f x) = t_killed x /\
    (t_sleep (f x) = None \/ t_sleep (f x) = t_sleep x).

Lemma woken_wake c : at_most_woken (wake c).
Proof. intros x. destruct (wake_act c x). split; [done|]. split; [done|]. apply wake_sleep. Qed.
Lemma woken_id : at_most_woken id.
Proof. intros x. split; [done|]. split; [done|]. by right. Qed.

Lemma inv_evolve s s' i t t' f p p' put got :
  pipe_inv s -> ths s !! i = Some t -> at_most_woken f -> ths s' = <[i := t']> (f <$> ths s) ->
  pp s = Some p -> moves s s' p p' put got -> t_killed t' = t_killed t ->
  (is_writing t' = true -> writeopen p <> 0) -> (is_reading t' = true -> readopen p <> 0) ->
  (t_killed t = true \/
    (sleep_ok p' t' /\ forall x, x ∈ ths s -> sleep_ok p x -> sleep_ok p' (f x))) ->
  pipe_inv s'.
Proof.
  intros [Hpre Hfifo Hwr Hrd Hsl] Hi Hf Hths Hp [Hp' Hok' Hc Hsent Hrcvd Hro Hwo] Hkt Hw Hr Hs.
  destruct (Hfifo p Hp) as [Hok Hq].
  assert (sent s' = rcvd s' ++ contents p') as Hq'.
  { by rewrite Hsent, Hrcvd, Hq, <- app_assoc, Hc, app_assoc. }
  assert (forall x, x ∈ ths s' -> x = t' \/ exists y, y ∈ ths s /\ x = f y) as Hin.
  { intros x. rewrite Hths. intros [->|Hx]%elem_set_thread; [by left|right].
    apply list_elem_of_fmap in Hx as (y & -> & Hy). eauto. }
  constructor.
  - rewrite Hq'. by eexists.
  - intros p'' Hp''. assert (p'' = p') as -> by congruence. done.
  - intros x Hx Hxw. rewrite Hp'. exists p'. split; [done|]. rewrite Hwo.
    destruct (Hin x Hx) as [->|(y & Hy & ->)]; [auto|]. unfold is_writing in Hxw.
    destruct (Hf y) as [Ha _]. rewrite Ha in Hxw. destruct (Hwr y Hy Hxw) as (? & ? & ?). congruence.
  - intros x Hx Hxr. rewrite Hp'. exists p'. split; [done|]. rewrite Hro.
    destruct (Hin x Hx) as [->|(y & Hy & ->)]; [auto|]. unfold is_reading in Hxr.
    destruct (Hf y) as [Ha _]. rewrite Ha in Hxr. destruct (Hrd y Hy Hxr) as (? & ? & ?). congruence.
  - assert (forall y, y ∈ ths s -> t_killed y = true -> some_killed s') as Hkeep.
    { intros y [j Hj]%list_elem_of_lookup Hyk. destruct (decide (j = i)) as [->|Hne].
      - exists t'. rewrite Hths. split; [|congruence]. apply list_elem_of_lookup. exists i.
        apply list_lookup_insert_eq. rewrite length_fmap. by eapply lookup_lt_Some.
      - exists (f y). destruct (Hf y) as (_ & -> & _). split; [|done]. rewrite Hths.
        apply list_elem_of_lookup. exists j. by rewrite list_lookup_insert_ne, list_lookup_fmap, Hj. }
    destruct Hs as [Hk|[Ht' Hall]]; [left; eapply Hkeep; [by eapply list_elem_of_lookup_2|done]|].
    destruct Hsl as [(y & Hy & Hyk)|Hsl]; [left; by eapply Hkeep|]. right.
    intros x p'' Hx Hp''. assert (p'' = p') as -> by congruence.
    destruct (Hin x Hx) as [->|(y & Hy & ->)]; [done|]. auto.
Qed.

Lemma sleep_ok_awake p t : t_sleep t = None -> sleep_ok p t.
Proof. intros H. unfold sleep_ok. rewrite H. done. Qed.

(** Whoever is left asleep on one channel once the other is woken. *)
Lemma sleep_ok_woken p p' c x :
  (c = Nread -> full p -> full p') -> (c = Nwrite -> empty p -> empty p') -> writeopen p' = writeopen p ->
  sleep_ok p x -> sleep_ok p' (wake c x).
Proof.
  intros Hn Hw Hwo [H1 H2]. destruct (wake_act c x) as [Ha _], (wake_sleep c x) as [Hne Hs].
  unfold sleep_ok, is_reading, is_writing in *. rewrite Ha, Hwo.
  split; intros Hx; (destruct Hs as [Hs|Hs]; [congruence|]); destruct c; try congruence;
    rewrite Hs in Hx; naive_solver.
Qed.

Lemma write_inv s s' i t l n r :
  pipe_inv s -> ths s !! i = Some t -> t_act t = Writing l n ->
  pipewrite (t_killed t) n l s = Ok (r, s') ->
  pipe_inv (set_thread i (match r with
    | Slept l' => mkthread (Writing l' n) (Some Nwrite) (t_killed t)
    | Returned _ => mkthread Idle None (t_killed t) end) s').
Proof.
  intros Hinv Hi Hact Hrun. pose proof (list_elem_of_lookup_2 _ _ _ Hi) as Hin.
  destruct (pi_writer _ Hinv t Hin) as (p & Hp & Hwo); [unfold is_writing; by rewrite Hact|].
  destruct (pi_fifo _ Hinv p Hp) as [Hok _].
  destruct (wp_det _ _ _ _ _ (pipewrite_spec (t_killed t) n l s p Hp Hok) Hrun) as (p' & put & Hm & Hr).
  assert (forall t' f, at_most_woken f -> ths s' = f <$> ths s -> t_killed t' = t_killed t -> is_reading t' = false ->
    (t_killed t = true \/ (sleep_ok p' t' /\ forall x, x ∈ ths s -> sleep_ok p x -> sleep_ok p' (f x))) ->
    pipe_inv (set_thread i t' s')) as Hgo.
  { intros t' f Hf Hths Hk Hrd Hs. eapply (inv_evolve s _ i t t' f p p' put []); try done.
    - cbn. by rewrite Hths.
    - destruct Hm. by constructor.
    - by rewrite Hrd. }
  assert (forall x, x ∈ ths s -> sleep_ok p x -> sleep_ok p' (wake Nread x)) as Hwk.
  { intros x _. apply sleep_ok_woken; [|done|apply Hm]. intros _ Hfull.
    pose proof (mv_contents _ _ _ _ _ _ Hm) as Hc%(f_equal length). pose proof (ok_fill _ (mv_ok _ _ _ _ _ _ Hm)).
    unfold contents in Hc. rewrite !length_app, !length_fmap, !length_seq in Hc. unfold full in *. cbn in Hc. lia. }
  destruct r as [z|rest]; [destruct Hr as [(-> & -> & Hths)|(-> & Hfull & Hk & Hths)]|destruct Hr as (-> & Hfull & Hro & Hths)].
  - apply (Hgo _ (wake Nread)); try done; [apply woken_wake|]. right. split; [by apply sleep_ok_awake|done].
  - apply (Hgo _ id); try done; [apply woken_id|by rewrite list_fmap_id|].
    destruct Hk as [Hk|Hk]; [right|by left]. split; [by apply sleep_ok_awake|].
    intros x Hx [H1 H2]. split; intros Hxs; [|split; [naive_solver|done]].
    destruct (H1 Hxs) as [Hxr _]. destruct (pi_reader _ Hinv x Hx Hxr) as (? & ? & ?). congruence.
  - apply (Hgo _ (wake Nread)); try done; [apply woken_wake|]. right. split; [|done].
    split; [done|]. by intros _.
Qed.

Lemma read_inv s s' i t n r l :
  pipe_inv s -> ths s !! i = Some t -> t_act t = Reading n ->
  piperead (t_killed t) n s = Ok ((r, l), s') ->
  pipe_inv (set_thread i (match r with
    | Slept _ => mkthread (Reading n) (Some Nread) (t_killed t)
    | Returned _ => mkthread Idle None (t_killed t) end) s').
Proof.
  intros Hinv Hi Hact Hrun. pose proof (list_elem_of_lookup_2 _ _ _ Hi) as Hin.
  destruct (pi_reader _ Hinv t Hin) as (p & Hp & Hro); [unfold is_reading; by rewrite Hact|].
  destruct (pi_fifo _ Hinv p Hp) as [Hok _].
  pose proof (wp_det _ _ _ _ _ (piperead_spec (t_killed t) n s p Hp Hok) Hrun) as Hr. cbn in Hr.
  assert (forall t', s' = s -> t_killed t' = t_killed t -> is_writing t' = false -> sleep_ok p t' ->
    pipe_inv (set_thread i t' s')) as Hstay.
  { intros t' -> Hk Hwr Hs. eapply (inv_evolve s _ i t t' id p p [] []); try done.
    - apply woken_id.
    - cbn. by rewrite list_fmap_id.
    - constructor; cbn; by rewrite ?app_nil_r.
    - by rewrite Hwr.
    - right. done. }
  destruct r as [z|[]]; [destruct Hr as [(-> & _ & -> & Hs)|(-> & Hl & Hths & p' & Hm)]|destruct Hr as (-> & He & Hwo & Hs)].
  - by apply Hstay.
  - eapply (inv_evolve s _ i t (mkthread Idle None (t_killed t)) (wake Nwrite) p p' [] l); try done; [apply woken_wake|cbn; by rewrite Hths| |].
    + destruct Hm. by constructor.
    + right. split; [by apply sleep_ok_awake|]. intros x _. apply sleep_ok_woken; [done| |apply Hm].
      intros _ He. pose proof (mv_contents _ _ _ _ _ _ Hm) as Hc%(f_equal length).
      unfold contents in Hc. rewrite !length_app, !length_fmap, !length_seq in Hc. unfold empty in *. cbn in Hc. lia.
  - by apply Hstay.
Qed.

Lemma kill_inv s i t :
  pipe_inv s -> ths s !! i = Some t -> pipe_inv (set_thread i (mkthread (t_act t) None true) s).
Proof.
  intros [Hpre Hfifo Hwr Hrd Hsl] Hi. pose proof (list_elem_of_lookup_2 _ _ _ Hi) as Hin.
  assert (forall x, x ∈ ths (set_thread i (mkthread (t_act t) None true) s) ->
    exists y, y ∈ ths s /\ t_act y = t_act x) as Hact.
  { intros x [->|Hx]%elem_set_thread; [by exists t|by exists x]. }
  constructor; try done.
  - intros x (y & Hy & Ha)%Hact Hxw. apply (Hwr y Hy). unfold is_writing in *. by rewrite Ha.
  - intros x (y & Hy & Ha)%Hact Hxr. apply (Hrd y Hy). unfold is_reading in *. by rewrite Ha.
  - left. exists (mkthread (t_act t) None true). split; [|done]. apply list_elem_of_lookup. exists i. cbn.
    apply list_lookup_insert_eq. by eapply lookup_lt_Some.
Qed.

Lemma close_inv s s' (w : bool) p :
  pipe_inv s -> pp s = Some p -> (forall t, t ∈ ths s -> (if w then is_writing t else is_reading t) = false) ->
  pipeclose w s = Ok (tt, s') -> pipe_inv s'.
Proof.
  intros [Hpre Hfifo Hwr Hrd Hsl] Hp Hno Hrun.
  pose proof (wp_det _ _ _ _ _ (pipeclose_spec w s p Hp) Hrun) as ->.
  destruct (Hfifo p Hp) as [Hok Hq]. set (c := if w then Nread else Nwrite).
  assert (forall t, t ∈ wake c <$> ths s -> exists y, y ∈ ths s /\ t = wake c y) as Hin.
  { intros t (y & -> & Hy)%list_elem_of_fmap. eauto. }
  set (b := (readopen (closed w p) =? 0) && (writeopen (closed w p) =? 0)).
  assert (b = true -> forall y, y ∈ ths s -> is_writing y = false /\ is_reading y = false) as Hb.
  { intros [H1 H2]%andb_true_iff y Hy. specialize (Hno y Hy). destruct w; cbn in H1, H2.
    - split; [done|]. apply not_true_iff_false. intros Hr. destruct (Hrd y Hy Hr) as (p' & ? & ?).
      assert (p' = p) as -> by congruence. lia.
    - split; [|done]. apply not_true_iff_false. intros Hr. destruct (Hwr y Hy Hr) as (p' & ? & ?).
      assert (p' = p) as -> by congruence. lia. }
  constructor; cbn [pp ths sent rcvd].
  - done.
  - intros p'. destruct b; [done|]. intros [= <-]. split; [|by destruct w].
    unfold closed. by destruct w, Hok; constructor.
  - intros t (y & Hy & ->)%Hin Hw. unfold is_writing in Hw. rewrite (proj1 (wake_act c y)) in Hw.
    destruct b eqn:Eb; [by destruct (Hb eq_refl y Hy) as [Hf _]; unfold is_writing in Hf; rewrite Hf in Hw|].
    specialize (Hno y Hy). destruct w; [unfold is_writing in Hno; by rewrite Hno in Hw|].
    destruct (Hwr y Hy Hw) as (p' & Hp' & Hwo). assert (p' = p) as -> by congruence. by eexists.
  - intros t (y & Hy & ->)%Hin Hr. unfold is_reading in Hr. rewrite (proj1 (wake_act c y)) in Hr.
    destruct b eqn:Eb; [by destruct (Hb eq_refl y Hy) as [_ Hf]; unfold is_reading in Hf; rewrite Hf in Hr|].
    specialize (Hno y Hy). destruct w; [|unfold is_reading in Hno; by rewrite Hno in Hr].
    destruct (Hrd y Hy Hr) as (p' & Hp' & Hwo). assert (p' = p) as -> by congruence. by eexists.
  - destruct Hsl as [(t & Ht & Hk)|Hsl]; [left; exists (wake c t)|right].
    + rewrite (proj2 (wake_act c t)). split; [|done]. by apply list_elem_of_fmap_2.
    + intros t p' (y & Hy & ->)%Hin. destruct b; [done|]. intros [= <-].
      specialize (Hsl y p Hy Hp). specialize (Hno y Hy). destruct Hsl as [H1 H2].
      destruct (wake_sleep c y) as [Hne Hs], (wake_act c y) as [Ha _]. unfold sleep_ok, is_writing, is_reading in *.
      rewrite Ha. destruct w; cbn in c; subst c; split; intros Hx;
        (destruct Hs as [Hs|Hs]; [congruence|]); rewrite Hs in Hx; try congruence; naive_solver congruence.
Qed.

Lemma step_inv s s' : step s s' -> pipe_inv s -> pipe_inv s'.
Proof.
  intros Hst Hinv. destruct Hst as
    [s i t l p Hi Hact Hp Hwo|s i t n p Hi Hact Hp Hro|s s' i t l n r Hi Hact Hsl Hrun
    |s s' i t n r l Hi Hact Hsl Hrun|s i t Hi|s s' w p Hp Ho Hno Hrun].
  - apply (inv_evolve s _ i t (mkthread (Writing l (Z.of_nat (length l))) None (t_killed t)) id p p [] []);
      rewrite ?list_fmap_id; try done; [apply woken_id| |].
    + constructor; cbn; rewrite ?app_nil_r; try done. by apply (pi_fifo _ Hinv).
    + right. split; [by apply sleep_ok_awake|done].
  - apply (inv_evolve s _ i t (mkthread (Reading n) None (t_killed t)) id p p [] []);
      rewrite ?list_fmap_id; try done; [apply woken_id| |].
    + constructor; cbn; rewrite ?app_nil_r; try done. by apply (pi_fifo _ Hinv).
    + right. split; [by apply sleep_ok_awake|done].
  - by eapply write_inv.
  - by eapply read_inv.
  - by apply kill_inv.
  - by eapply close_inv.
Qed.

Lemma pipe0_inv junk n : length junk = Z.to_nat PIPESIZE -> pipe_inv (psys0 junk n).
Proof.
  intros Hj. assert (forall t, t ∈ replicate n (mkthread Idle None false) -> t = mkthread Idle None false) as Hall.
  { intros t [-> _]%elem_of_replicate. done. }
  constructor; cbn; try done.
  - intros p [= <-]. split; [|done]. constructor; cbn; [done|lia|lia|vm_compute; lia].
  - by intros t ->%Hall.
  - by intros t ->%Hall.
  - right. intros t p ->%Hall _. by apply sleep_ok_awake.
Qed.

Lemma steps_inv junk n s :
  length junk = Z.to_nat PIPESIZE -> rtc step (psys0 junk n) s -> pipe_inv s.
Proof.
  intros Hj Hs. pose proof (pipe0_inv junk n Hj) as Hinv. induction Hs as [|a b c Hab _ IH]; [done|].
  by apply IH, (step_inv a).
Qed.

(** C15: A pipe is a first-in-first-out queue of bytes under every interleaving of
    its readers and writers, 32-bit wrap-around of its counters included: what
    has been read is the first part of what has been written, and the rest,
    never more than [PIPESIZE] bytes, is in the buffer. *)
Theorem pipe_fifo junk n s p :
  length junk = Z.to_nat PIPESIZE -> rtc step (psys0 junk n) s -> pp s = Some p ->
  sent s = rcvd s ++ contents p /\ (length (contents p) <= Z.to_nat PIPESIZE)%nat.
Proof.
  intros Hj Hs Hp. destruct (pi_fifo _ (steps_inv _ _ _ Hj Hs) p Hp) as [Hok Hq]. split; [done|].
  unfold contents. rewrite length_fmap, length_seq. apply Hok.
Qed.

(** A thread in the middle of [pipewrite] or [piperead] always runs its next
    segment to a sleep or a return: the pipe is not freed under it. *)
Theorem pipe_segments_run junk n s i t :
  length junk = Z.to_nat PIPESIZE -> rtc step (psys0 junk n) s -> ths s !! i = Some t ->
  match t_act t with
  | Idle => True
  | Writing l m => exists r s', pipewrite (t_killed t) m l s = Ok (r, s') /\
      (r = Returned m \/ r = Returned (-1) \/ exists rest, r = Slept rest /\ rest `suffix_of` l)
  | Reading m => exists r s', piperead (t_killed t) m s = Ok (r, s')
  end.
Proof.
  intros Hj Hs Hi. pose proof (steps_inv _ _ _ Hj Hs) as Hinv.
  pose proof (list_elem_of_lookup_2 _ _ _ Hi) as Hin.
  pose proof (pi_writer _ Hinv t Hin) as Hw. pose proof (pi_reader _ Hinv t Hin) as Hr.
  unfold is_writing, is_reading in Hw, Hr. destruct (t_act t) as [|l m|m]; [done| |].
  - destruct (Hw eq_refl) as (p & Hp & _). destruct (pi_fifo _ Hinv p Hp) as [Hok _].
    destruct (proj1 (wp_Ok _ _ _) (pipewrite_spec (t_killed t) m l s p Hp Hok))
      as (r & s' & Hrun & p' & put & _ & Hm). exists r, s'. split; [done|].
    destruct r as [z|rest]; [naive_solver|]. destruct Hm as [-> _]. right. right.
    exists rest. split; [done|]. by eexists.
  - destruct (Hr eq_refl) as (p & Hp & _). destruct (pi_fifo _ Hinv p Hp) as [Hok _].
    destruct (proj1 (wp_Ok _ _ _) (piperead_spec (t_killed t) m s p Hp Hok)) as (r & s' & Hrun & _). eauto.
Qed.

End pipe.

(** ** Runs *)

Import Pipe.
Definition demo_junk : list Z := replicate 512 7.

(** Thread 0 writes two bytes, thread 1 has called [read]. *)
Definition demo_pipe : psys :=
  mkpsys (Some (mkpipe (<[1%nat := 66]> (<[0%nat := 65]> demo_junk)) 0 2 1 1))
    [mkthread Idle None false; mkthread (Reading 1) None false] [65; 66] [].

Lemma demo_pipe_run : rtc step (psys0 demo_junk 2) demo_pipe.
Proof.
  eapply rtc_l; [by apply (step_call_read _ 1 (mkthread Idle None false) 1 (pipe0 demo_junk))|].
  eapply rtc_l; [by apply (step_call_write _ 0 (mkthread Idle None false) [65; 66] (pipe0 demo_junk))|].
  eapply rtc_l; [|apply rtc_refl].
  by eapply (step_write _ (mkpsys (pp demo_pipe)
    [mkthread (Writing [65; 66] 2) None false; mkthread (Reading 1) None false] [65; 66] []) 0
    (mkthread (Writing [65; 66] 2) None false) [65; 66] 2 (Returned 2)).
Qed.

Lemma pipe_fifo_witness :
  sent demo_pipe = rcvd demo_pipe ++ [65; 66].
Proof. exact (proj1 (pipe_fifo demo_junk 2 demo_pipe _ eq_refl demo_pipe_run eq_refl)). Defined.

Lemma pipe_segments_run_witness : exists r s', piperead false 1 demo_pipe = Ok (r, s').
Proof. exact (pipe_segments_run demo_junk 2 demo_pipe 1 _ eq_refl demo_pipe_run eq_refl). Defined.


(** A writer that is killed can leave a reader asleep on a full pipe. *)
Definition lost_bytes : list Z := replicate 513 88.
Definition lost0 : psys :=
  mkpsys (Some (pipe0 demo_junk))
    [mkthread (Writing lost_bytes 513) None true; mkthread (Reading 1) (Some Nread) false] [] [].
Definition lost1 : psys :=
  match pipewrite true 513 lost_bytes lost0 with Ok (_, s) => s | _ => lost0 end.

(** [pipewrite] forgets a wake-up: when it finds the pipe full and the writer
    killed it returns without [wakeup(&p->nread)], although it may have filled the
    pipe itself; a reader that was waiting for bytes then sleeps on with a full
    pipe and nobody writing. *)
Theorem pipewrite_killed_forgets_wakeup :
  exists s p t, rtc step (psys0 demo_junk 2) s /\ pp s = Some p /\ t ∈ ths s /\
    t_sleep t = Some Nread /\ length (contents p) = Z.to_nat PIPESIZE /\ writeopen p = 1 /\
    forall x, x ∈ ths s -> is_writing x = false.
Proof.
  exists (set_thread 0 (mkthread Idle None true) lost1), (default (pipe0 []) (pp lost1)),
    (mkthread (Reading 1) (Some Nread) false). split.
  { eapply rtc_l; [by apply (step_call_read _ 1 (mkthread Idle None false) 1 (pipe0 demo_junk))|].
    eapply rtc_l; [by eapply (step_read _ (mkpsys (Some (pipe0 demo_junk))
      [mkthread Idle None false; mkthread (Reading 1) None false] [] []) 1
      (mkthread (Reading 1) None false) 1 (Slept tt) [])|].
    eapply rtc_l; [by apply (step_call_write _ 0 (mkthread Idle None false) lost_bytes (pipe0 demo_junk))|].
    eapply rtc_l; [by apply (step_kill _ 0 (mkthread (Writing lost_bytes 513) None false))|].
    eapply rtc_l; [|apply rtc_refl].
    apply (step_write lost0 lost1 0 (mkthread (Writing lost_bytes 513) None true) lost_bytes 513 (Returned (-1)));
      [done|done|done|]. vm_compute. reflexivity. }
  split; [vm_compute; reflexivity|]. split; [vm_compute; right; left|]. split; [done|].
  split; [vm_compute; reflexivity|]. split; [vm_compute; reflexivity|].
  intros x Hx. apply list_elem_of_In in Hx. revert Hx.
  replace (ths _) with [mkthread Idle None true; mkthread (Reading 1) (Some Nread) false] by (vm_compute; reflexivity).
  intros [<- | [<- | []]]; reflexivity.
Qed.
