(* ===== verification/Lock.v ===== *)
(** Spin locks and sleep locks ([spinlock.c], [sleeplock.c]).

    [Module Spinlock] has the per-processor interrupt state ([struct cpu]'s
    [ncli] and [intena], and the interrupt flag), one lock, and the operations
    cut where another processor can interfere: the start of [acquire], each
    [xchg] of its loop, the store of the holder, the two halves of [release].
    [step] interleaves them over the processors.  [Module Sleeplock] has one
    sleep lock and the processes that use it; its operations run under its
    inner spin lock, so each is one step up to where it sleeps.
    ([getcallerpcs] records the call stack for [procdump] and is not
    modelled.) *)

From S2P Require Import Prelude.

Module Spinlock.

Record cpu : Type := mkcpu {
  ncli : Z;
  intena : bool;
  iflag : bool  (* FL_IF of eflags *)
}.

Record spinlock : Type := mklock {
  locked : Z;
  lcpu : option nat
}.

Record lst : Type := mklst {
  cpus : list cpu;
  lk : spinlock
}.

Definition get_cpu (c : nat) : M lst cpu := let! s := get in deref (cpus s !! c).
Definition put_cpu (c : nat) (x : cpu) : M lst unit :=
  modify (fun s => mklst (<[c := x]> (cpus s)) (lk s)).
Definition get_lk : M lst spinlock := gets lk.
Definition put_lk (l : spinlock) : M lst unit := modify (fun s => mklst (cpus s) l).

Definition initlock : M lst unit := put_lk (mklock 0 None).

Definition cli (c : nat) : M lst unit :=
  let! x := get_cpu c in put_cpu c (mkcpu (ncli x) (intena x) false).
Definition sti (c : nat) : M lst unit :=
  let! x := get_cpu c in put_cpu c (mkcpu (ncli x) (intena x) true).

Definition pushcli (c : nat) : M lst unit :=
  let! x := get_cpu c in
  let eflags := iflag x in
  do! cli c;
  let! x := get_cpu c in
  do! when (ncli x =? 0) (put_cpu c (mkcpu (ncli x) eflags (iflag x)));
  let! x := get_cpu c in
  put_cpu c (mkcpu (i32 (ncli x + 1)) (intena x) (iflag x)).

Definition popcli (c : nat) : M lst unit :=
  let! x := get_cpu c in
  if iflag x then panic "popcli - interruptible"
  else
    do! put_cpu c (mkcpu (i32 (ncli x - 1)) (intena x) (iflag x));
    let! x := get_cpu c in
    if ncli x <? 0 then panic "popcli"
    else when ((ncli x =? 0) && intena x) (sti c).

Definition holding (c : nat) : M lst bool :=
  do! pushcli c;
  let! l := get_lk in
  let r := negb (locked l =? 0) && bool_decide (lcpu l = Some c) in
  do! popcli c;
  ret r.

(** [xchg(&lk->locked, v)] *)
Definition xchg (v : Z) : M lst Z :=
  let! l := get_lk in
  do! put_lk (mklock v (lcpu l));
  ret (locked l).

(** [acquire] up to its loop, and the store after it. *)
Definition acquire_enter (c : nat) : M lst unit :=
  do! pushcli c;
  let! h := holding c in
  if h then panic "acquire" else ret tt.
Definition acquire_own (c : nat) : M lst unit :=
  let! l := get_lk in put_lk (mklock (locked l) (Some c)).

(** [release] up to the barrier, and after it. *)
Definition release_disown (c : nat) : M lst unit :=
  let! h := holding c in
  if negb h then panic "release"
  else let! l := get_lk in put_lk (mklock (locked l) None).
Definition release_free (c : nat) : M lst unit :=
  let! l := get_lk in
  do! put_lk (mklock 0 (lcpu l));
  popcli c.

(** The whole of each, with [fuel] turns of the loop. *)
Fixpoint spin (fuel : nat) : M lst unit :=
  match fuel with
  | O => nofuel
  | S fuel => let! v := xchg 1 in if negb (v =? 0) then spin fuel else ret tt
  end.
Definition acquire (fuel c : nat) : M lst unit :=
  do! acquire_enter c; do! spin fuel; acquire_own c.
Definition release (c : nat) : M lst unit :=
  do! release_disown c; release_free c.

(** ** The interleaving *)

Inductive pc := Outside | Spinning | Won | Inside | Leaving.
#[export] Instance pc_eq_dec : EqDecision pc.
Proof. solve_decision. Defined.

(** The machine and where each processor is. *)
Definition config : Type := lst * list pc.

Inductive step : config -> config -> Prop :=
| step_enter s s' pcs c :
    pcs !! c = Some Outside -> acquire_enter c s = Ok (tt, s') ->
    step (s, pcs) (s', <[c := Spinning]> pcs)
| step_xchg s s' pcs c v :
    pcs !! c = Some Spinning -> xchg 1 s = Ok (v, s') ->
    step (s, pcs) (s', if v =? 0 then <[c := Won]> pcs else pcs)
| step_own s s' pcs c :
    pcs !! c = Some Won -> acquire_own c s = Ok (tt, s') ->
    step (s, pcs) (s', <[c := Inside]> pcs)
| step_disown s s' pcs c :
    pcs !! c = Some Inside -> release_disown c s = Ok (tt, s') ->
    step (s, pcs) (s', <[c := Leaving]> pcs)
| step_free s s' pcs c :
    pcs !! c = Some Leaving -> release_free c s = Ok (tt, s') ->
    step (s, pcs) (s', <[c := Outside]> pcs).

(** [n] processors with interrupts on or off, and a lock just initialised. *)
Definition init (ifs : list bool) : config :=
  (mklst (mkcpu 0 false <$> ifs) (mklock 0 None), replicate (length ifs) Outside).

End Spinlock.

Module Sleeplock.

(** [locked], the process id of the holder, and, of each process that uses the
    lock, whether it sleeps on it. *)
Record sleeplock : Type := mkslock {
  locked : Z;
  pid : Z
}.
Inductive pstate := Away | Asking | Asleep | Holding.
#[export] Instance pstate_eq_dec : EqDecision pstate.
Proof. solve_decision. Defined.

Record slst : Type := mkslst {
  sl : sleeplock;
  procs : list (Z * pstate)  (* the pid of each process *)
}.

Definition initsleeplock : M slst unit := modify (fun s => mkslst (mkslock 0 0) (procs s)).

(** [acquiresleep] from the test of its loop: [false] when it sleeps. *)
Definition acquiresleep (me : Z) : M slst bool :=
  let! l := gets sl in
  if negb (locked l =? 0) then ret false
  else do! modify (fun s => mkslst (mkslock 1 me) (procs s)); ret true.

Definition wake (x : Z * pstate) : Z * pstate :=
  match x.2 with Asleep => (x.1, Asking) | _ => x end.
Definition wakeup : M slst unit := modify (fun s => mkslst (sl s) (wake <$> procs s)).

Definition releasesleep : M slst unit :=
  do! modify (fun s => mkslst (mkslock 0 0) (procs s));
  wakeup.

Definition holdingsleep (me : Z) : M slst bool :=
  let! l := gets sl in ret (negb (locked l =? 0) && (pid l =? me)).

Definition set_proc (i : nat) (x : Z * pstate) (s : slst) : slst :=
  mkslst (sl s) (<[i := x]> (procs s)).

Inductive step : slst -> slst -> Prop :=
| step_ask s i me :
    procs s !! i = Some (me, Away) -> step s (set_proc i (me, Asking) s)
| step_acquire s s' i me b :
    procs s !! i = Some (me, Asking) -> acquiresleep me s = Ok (b, s') ->
    step s (set_proc i (me, if b : bool then Holding else Asleep) s')
| step_release s s' i me :
    procs s !! i = Some (me, Holding) -> releasesleep s = Ok (tt, s') ->
    step s (set_proc i (me, Away) s').

Definition init (pids : list Z) : slst := mkslst (mkslock 0 0) ((fun p => (p, Away)) <$> pids).

End Sleeplock.

(** * Spin locks *)

Section spin.
Import Spinlock.
Implicit Types (s : lst) (c : nat) (x : cpu).

Lemma wp_get_cpu c Q s : wp (get_cpu c) Q s <-> exists x, cpus s !! c = Some x /\ Q x s.
Proof. unfold get_cpu. by wp_steps. Qed.
Lemma wp_put_cpu c x Q s : wp (put_cpu c x) Q s <-> Q tt (mklst (<[c := x]> (cpus s)) (lk s)).
Proof. unfold put_cpu. by wp_steps. Qed.
Lemma wp_get_lk Q s : wp get_lk Q s <-> Q (lk s) s.
Proof. unfold get_lk. by wp_steps. Qed.
Lemma wp_put_lk l Q s : wp (put_lk l) Q s <-> Q tt (mklst (cpus s) l).
Proof. unfold put_lk. by wp_steps. Qed.
Hint Rewrite wp_get_cpu wp_put_cpu wp_get_lk wp_put_lk : wp.

(** One level of [pushcli] and of [popcli]. *)
Definition pushed_cli x : cpu :=
  mkcpu (i32 (ncli x + 1)) (if ncli x =? 0 then iflag x else intena x) false.
Definition popped_cli x : cpu :=
  mkcpu (i32 (ncli x - 1)) (intena x) ((i32 (ncli x - 1) =? 0) && intena x).

Lemma wp_pushcli c Q s :
  wp (pushcli c) Q s <->
  exists x, cpus s !! c = Some x /\ Q tt (mklst (<[c := pushed_cli x]> (cpus s)) (lk s)).
Proof.
  unfold pushcli, cli. wp_steps. split; intros (x & Hx & H); exists x; (split; [done|]);
    pose proof (lookup_lt_Some _ _ _ Hx) as Hlt; unfold pushed_cli in *.
  - revert H. wp_steps. intros (x1 & Hx1 & H). simplify_eq. revert H. wp_steps. cbn [cpus lk].
    intros (x2 & Hx2 & H). rewrite list_lookup_insert_eq in Hx2 by done. simplify_eq. cbn in H.
    destruct (ncli x =? 0); cbn [when] in H; revert H; wp_steps; cbn [cpus lk];
      intros (x3 & Hx3 & H); rewrite list_lookup_insert_eq in Hx3 by (by rewrite ?length_insert);
      simplify_eq; revert H; wp_steps; cbn; by rewrite ?list_insert_insert_eq.
  - wp_steps. exists x. split; [done|]. wp_steps. cbn [cpus lk].
    eexists. rewrite list_lookup_insert_eq by done. split; [done|]. cbn [ncli].
    destruct (ncli x =? 0); cbn [when]; wp_steps; cbn [cpus lk]; eexists;
      (rewrite list_lookup_insert_eq by (by rewrite ?length_insert)); (split; [done|]); wp_steps; cbn;
      by rewrite ?list_insert_insert_eq.
Qed.

Lemma wp_popcli c Q s x :
  cpus s !! c = Some x -> iflag x = false -> 0 <= i32 (ncli x - 1) ->
  Q tt (mklst (<[c := popped_cli x]> (cpus s)) (lk s)) -> wp (popcli c) Q s.
Proof.
  intros Hx Hif Hn H. pose proof (lookup_lt_Some _ _ _ Hx) as Hlt. unfold popcli. wp_steps.
  exists x. split; [done|]. rewrite Hif. wp_steps. cbn [cpus]. eexists.
  rewrite list_lookup_insert_eq by done. split; [done|]. cbn [ncli intena].
  destruct (Z.ltb_spec (i32 (ncli x - 1)) 0); [lia|]. unfold popped_cli in H. revert H.
  destruct (_ && _); intros H; cbn [when]; wp_steps; cbn [cpus lk]; [|done].
  unfold sti. wp_steps. cbn [cpus lk]. eexists. rewrite list_lookup_insert_eq by done. split; [done|].
  wp_steps. cbn. by rewrite list_insert_insert_eq.
Qed.

(** A processor between two calls, or one that holds or wants the lock. *)
Definition idle_cpu (i : bool) x : Prop := ncli x = 0 /\ iflag x = i.
Definition busy_cpu (i : bool) x : Prop := ncli x = 1 /\ intena x = i /\ iflag x = false.

Lemma pushed_idle i x : idle_cpu i x -> busy_cpu i (pushed_cli x).
Proof. intros [Hn Hi]. unfold pushed_cli, busy_cpu. cbn. by rewrite Hn, Hi. Qed.
Lemma popped_busy i x : busy_cpu i x -> idle_cpu i (popped_cli x).
Proof. intros (Hn & Hi & _). unfold popped_cli, idle_cpu. cbn. by rewrite Hn, Hi. Qed.

(** [holding] is exact, and leaves interrupts as they were. *)
Lemma holding_spec c s x i :
  cpus s !! c = Some x -> busy_cpu i x ->
  wp (holding c) (fun r s' => s' = s /\
    r = negb (locked (lk s) =? 0) && bool_decide (lcpu (lk s) = Some c)) s.
Proof.
  intros Hx (Hn & Hi & Hf). pose proof (lookup_lt_Some _ _ _ Hx) as Hlt.
  unfold holding. rewrite wp_bind, wp_pushcli. exists x. split; [done|]. wp_steps.
  eapply wp_popcli; cbn [cpus].
  - by apply list_lookup_insert_eq.
  - done.
  - unfold pushed_cli. cbn. by rewrite Hn.
  - wp_steps. cbn. split; [|done]. rewrite list_insert_insert_eq. unfold popped_cli, pushed_cli. cbn.
    rewrite Hn. cbn. rewrite list_insert_id; [by destruct s|]. rewrite Hx. destruct x; cbn in *. by simplify_eq.
Qed.

(** ** The invariant of the interleaving *)

Definition owns (p : pc) : bool :=
  match p with Won | Inside | Leaving => true | _ => false end.

Record spin_inv (ifs : list bool) (st : config) : Prop := {
  sp_cpus : forall c p, st.2 !! c = Some p -> exists x i, cpus st.1 !! c = Some x /\ ifs !! c = Some i /\
    match p with Outside => idle_cpu i x | _ => busy_cpu i x end;
  sp_one : forall c c' p p', st.2 !! c = Some p -> st.2 !! c' = Some p' ->
    owns p = true -> owns p' = true -> c = c';
  sp_lock : (locked (lk st.1) = 0 /\ lcpu (lk st.1) = None /\
              forall c p, st.2 !! c = Some p -> owns p = false) \/
            (locked (lk st.1) <> 0 /\ exists c p, st.2 !! c = Some p /\ owns p = true /\
              lcpu (lk st.1) = if bool_decide (p = Inside) then Some c else None)
}.

Lemma init_spin_inv ifs : spin_inv ifs (init ifs).
Proof.
  assert (forall c p, replicate (length ifs) Outside !! c = Some p -> p = Outside /\ (c < length ifs)%nat) as Hp.
  { intros c p. by intros [-> ?]%lookup_replicate. }
  constructor; cbn.
  - intros c p [-> Hc]%Hp. destruct (lookup_lt_is_Some_2 ifs c Hc) as [i Hi].
    exists (mkcpu 0 false i), i. rewrite list_lookup_fmap, Hi. done.
  - by intros c c' p p' [-> _]%Hp.
  - left. split; [done|]. split; [done|]. by intros c p [-> _]%Hp.
Qed.

(** The lock changes hands as processor [c] goes from [p] to [p']. *)
Lemma spin_inv_step ifs s s' pcs c p p' x i :
  spin_inv ifs (s, pcs) -> pcs !! c = Some p -> ifs !! c = Some i ->
  cpus s' = <[c := x]> (cpus s) -> match p' with Outside => idle_cpu i x | _ => busy_cpu i x end ->
  (if owns p' then (owns p = true \/ locked (lk s) = 0) /\ locked (lk s') <> 0 /\
     lcpu (lk s') = (if bool_decide (p' = Inside) then Some c else None)
   else if owns p then locked (lk s') = 0 /\ lcpu (lk s') = None else lk s' = lk s) ->
  spin_inv ifs (s', <[c := p']> pcs).
Proof.
  intros [Hc Ho Hl] Hp Hi Hcp Hx Hlk. cbn [fst snd] in *. pose proof (lookup_lt_Some _ _ _ Hp) as Hlt.
  assert (c < length (cpus s))%nat as Hltc by (destruct (Hc c p Hp) as (y & _ & Hy & _); by eapply lookup_lt_Some).
  assert (forall d q, <[c := p']> pcs !! d = Some q -> (d = c /\ q = p') \/ (d <> c /\ pcs !! d = Some q)) as Hlook.
  { intros d q. destruct (decide (d = c)) as [->|]; [rewrite list_lookup_insert_eq by done; naive_solver|].
    rewrite list_lookup_insert_ne by done. auto. }
  assert (owns p' = true -> forall d q, d <> c -> pcs !! d = Some q -> owns q = false) as Hothers.
  { intros Hp' d q Hd Hq. rewrite Hp' in Hlk. destruct Hlk as ([Hown|H0] & _).
    - apply not_true_iff_false. intros Hq'. by apply Hd, (Ho d c q p).
    - destruct Hl as [(_ & _ & Hno)|[Hn _]]; [by eapply Hno|done]. }
  constructor; cbn [fst snd].
  - intros d q [[-> ->]|[Hd Hq]]%Hlook; rewrite Hcp.
    + exists x, i. by rewrite list_lookup_insert_eq.
    + rewrite list_lookup_insert_ne by done. by apply Hc.
  - intros d d' q q' [[-> ->]|[Hd Hq]]%Hlook [[-> ->]|[Hd' Hq']]%Hlook H1 H2; [done|..].
    + rewrite (Hothers H1 _ _ Hd' Hq') in H2. done.
    + rewrite (Hothers H2 _ _ Hd Hq) in H1. done.
    + by eapply Ho.
  - destruct (owns p') eqn:Hop'.
    + right. destruct Hlk as (_ & Hn & Hlc). split; [done|]. exists c, p'.
      by rewrite list_lookup_insert_eq.
    + destruct (owns p) eqn:Hop.
      * left. destruct Hlk as [-> ->]. do 2 (split; [done|]). intros d q [[-> ->]|[Hd Hq]]%Hlook; [done|].
        apply not_true_iff_false. intros Hq'. by apply Hd, (Ho d c q p).
      * rewrite Hlk. destruct Hl as [(H1 & H2 & H3)|(H1 & d & q & Hq & Hoq & Hlc)]; [left|right].
        -- do 2 (split; [done|]). intros d q [[-> ->]|[Hd Hq]]%Hlook; [done|]. by eapply H3.
        -- split; [done|]. exists d, q. rewrite list_lookup_insert_ne; [done|]. intros ->. congruence.
Qed.

Lemma spin_inv_holder ifs s pcs c :
  spin_inv ifs (s, pcs) ->
  (negb (locked (lk s) =? 0) && bool_decide (lcpu (lk s) = Some c)) = bool_decide (pcs !! c = Some Inside).
Proof.
  intros [_ Ho [(H0 & Hn & Hno)|(H0 & d & p & Hd & Hp & Hlc)]]; cbn [fst snd] in *.
  - rewrite H0, (bool_decide_eq_false_2 (pcs !! c = Some Inside)); [done|]. intros Hin. by specialize (Hno c Inside Hin).
  - destruct (Z.eqb_spec (locked (lk s)) 0); [done|]. cbn. apply bool_decide_ext. rewrite Hlc. split.
    + case_bool_decide; [|done]. intros [= ->]. congruence.
    + intros Hin. assert (c = d) as -> by (by eapply (Ho c d Inside p)).
      rewrite bool_decide_eq_true_2; [done|]. congruence.
Qed.

(** Each processor's next move runs, and what it leaves. *)
Definition next_move (p : pc) (c : nat) : M lst pc :=
  match p with
  | Outside => do! acquire_enter c; ret Spinning
  | Spinning => let! v := xchg 1 in ret (if v =? 0 then Won else Spinning)
  | Won => do! acquire_own c; ret Inside
  | Inside => do! release_disown c; ret Leaving
  | Leaving => do! release_free c; ret Outside
  end.

Lemma next_move_inv ifs s pcs c p :
  spin_inv ifs (s, pcs) -> pcs !! c = Some p ->
  wp (next_move p c) (fun p' s' => spin_inv ifs (s', <[c := p']> pcs)) s.
Proof.
  intros Hinv Hp. destruct (sp_cpus _ _ Hinv c p Hp) as (x & i & Hx & Hi & Hst). cbn [fst] in Hx.
  pose proof (lookup_lt_Some _ _ _ Hx) as Hlt.
  assert (cpus s = <[c := x]> (cpus s)) as Hid by (symmetry; by apply list_insert_id).
  unfold next_move. destruct p.
  - unfold acquire_enter. rewrite !wp_bind, wp_pushcli. exists x. split; [done|]. rewrite wp_bind.
    eapply wp_mono; [eapply (holding_spec c _ (pushed_cli x) i); [by apply list_lookup_insert_eq|by apply pushed_idle]|].
    cbn beta. intros r s' [-> ->]. cbn [lk]. rewrite (spin_inv_holder _ _ _ c Hinv), bool_decide_eq_false_2 by congruence.
    rewrite !wp_ret. eapply (spin_inv_step ifs s _ _ c Outside); [done|done|done|done|by apply pushed_idle|done].
  - unfold xchg. wp_steps. destruct (Z.eqb_spec (locked (lk s)) 0) as [H0|H0].
    + eapply (spin_inv_step ifs s _ _ c Spinning Won x i); [done|done|done|exact Hid|done|].
      cbn. split; [by right|]. split; [done|]. destruct (sp_lock _ _ Hinv) as [(_ & ? & _)|[? _]]; done.
    + rewrite list_insert_id by done. destruct Hinv as [H1 H2 [(? & _)|[_ H3]]]; [done|].
      constructor; cbn in *; [done|done|]. right. done.
  - unfold acquire_own. wp_steps.
    eapply (spin_inv_step ifs s _ _ c Won Inside x i); [done|done|done|exact Hid|done|].
    cbn. split; [by left|]. split; [|done].
    destruct (sp_lock _ _ Hinv) as [(_ & _ & Hno)|[? _]]; [|done]. by specialize (Hno c Won Hp).
  - unfold release_disown. wp_steps. eapply wp_mono; [by eapply holding_spec|]. cbn beta.
    intros r s' [-> ->]. rewrite (spin_inv_holder _ _ _ c Hinv), bool_decide_eq_true_2 by done. cbn. wp_steps.
    eapply (spin_inv_step ifs s _ _ c Inside Leaving x i); [done|done|done|exact Hid|done|].
    cbn. split; [by left|]. split; [|done].
    destruct (sp_lock _ _ Hinv) as [(_ & _ & Hno)|[? _]]; [|done]. by specialize (Hno c Inside Hp).
  - unfold release_free. wp_steps. destruct Hst as (Hn & Hie & Hif).
    eapply (wp_popcli _ _ _ x); [done|done|by rewrite Hn|]. rewrite wp_ret.
    eapply (spin_inv_step ifs s _ _ c Leaving Outside (popped_cli x) i);
      [done|done|done|done|by apply popped_busy|]. cbn. split; [done|].
    destruct (sp_lock _ _ Hinv) as [(? & ? & _)|(_ & d & q & Hd & Hq & Hlc)]; [done|]. cbn [fst snd] in *.
    assert (c = d) as -> by (by eapply (sp_one _ _ Hinv c d Leaving q)). simplify_eq. done.
Qed.

Lemma step_spin_inv ifs a b : step a b -> spin_inv ifs a -> spin_inv ifs b.
Proof.
  assert (forall (m : M lst unit) (q : pc) Q s s', m s = Ok (tt, s') ->
    wp (do! m; ret q) Q s -> Q q s') as Hrun.
  { intros m q Q s s' Hm H. rewrite wp_bind in H. apply (wp_det _ _ _ _ _ H Hm). }
  intros Hst Hinv. destruct Hst as [s s' pcs c Hp Hm|s s' pcs c v Hp Hm|s s' pcs c Hp Hm|s s' pcs c Hp Hm|s s' pcs c Hp Hm];
    pose proof (next_move_inv ifs s pcs c _ Hinv Hp) as H; unfold next_move in H;
    try exact (Hrun _ _ _ _ _ Hm H).
  rewrite wp_bind in H. pose proof (wp_det _ _ _ _ _ H Hm) as H'. rewrite wp_ret in H'.
  destruct (v =? 0); [done|]. by rewrite list_insert_id in H'.
Qed.

Lemma steps_spin_inv ifs st : rtc step (init ifs) st -> spin_inv ifs st.
Proof.
  intros Hs. pose proof (init_spin_inv ifs) as Hinv. induction Hs as [|a b c Hab _ IH]; [done|].
  by apply IH, (step_spin_inv _ a).
Qed.

(** C23: The spin lock excludes: in every interleaving of processors that acquire
    and release it, at most one is between its winning [xchg] and the store that
    frees the lock; while one is inside, the lock names it and its interrupts
    are off; outside, its interrupts are as they were at the start. *)
Theorem spinlock_mutex ifs s pcs c :
  rtc step (init ifs) (s, pcs) ->
  (forall c' p p', pcs !! c = Some p -> pcs !! c' = Some p' -> owns p = true -> owns p' = true -> c = c') /\
  (pcs !! c = Some Inside -> locked (lk s) <> 0 /\ lcpu (lk s) = Some c /\
     exists x, cpus s !! c = Some x /\ iflag x = false) /\
  (pcs !! c = Some Outside -> exists x, cpus s !! c = Some x /\ ifs !! c = Some (iflag x)).
Proof.
  intros Hs%steps_spin_inv. split; [|split].
  - intros c' p p'. by apply (sp_one _ _ Hs).
  - intros Hin. pose proof (spin_inv_holder _ _ _ c Hs) as Hh.
    rewrite (bool_decide_eq_true_2 (pcs !! c = Some Inside)) in Hh by done.
    apply andb_true_iff in Hh as [H1 H2]. zb. split; [lia|]. split; [done|].
    destruct (sp_cpus _ _ Hs c _ Hin) as (x & i & Hx & _ & _ & _ & Hf). by exists x.
  - intros Hout. destruct (sp_cpus _ _ Hs c _ Hout) as (x & i & Hx & Hi & _ & <-). by exists x.
Qed.

(** Using the lock never panics: in every such interleaving the next move of
    each processor (entering [acquire], one [xchg], the store of the holder,
    either half of [release]) runs; and a processor that runs alone gets the lock
    at its first [xchg] when it is free. *)
Theorem spinlock_no_panic ifs s pcs c p :
  rtc step (init ifs) (s, pcs) -> pcs !! c = Some p ->
  (exists p' s', next_move p c s = Ok (p', s')) /\
  (p = Outside -> locked (lk s) = 0 -> exists s', acquire 1 c s = Ok (tt, s') /\ lcpu (lk s') = Some c).
Proof.
  intros Hs%steps_spin_inv Hp. split.
  { destruct (proj1 (wp_Ok _ _ _) (next_move_inv _ _ _ _ _ Hs Hp)) as (p' & s' & ? & _). eauto. }
  intros -> H0. destruct (sp_cpus _ _ Hs c _ Hp) as (x & i & Hx & Hi & Hst). cbn [fst] in Hx.
  pose proof (lookup_lt_Some _ _ _ Hx).
  enough (wp (acquire 1 c) (fun _ s' => lcpu (lk s') = Some c) s) as H'.
  { apply wp_Ok in H' as ([] & s' & ? & ?). eauto. }
  unfold acquire, acquire_enter. rewrite !wp_bind, wp_pushcli. exists x. split; [done|]. rewrite wp_bind.
  eapply wp_mono; [eapply (holding_spec c _ (pushed_cli x) i); [by apply list_lookup_insert_eq|by apply pushed_idle]|].
  cbn beta. intros r s' [-> ->]. cbn [lk]. rewrite H0. cbn. unfold xchg, acquire_own. wp_steps. cbn [lk].
  rewrite H0. cbn. by wp_steps.
Qed.
End spin.

(** * Sleep locks *)

Section sleep.
Import Sleeplock.
Implicit Types (s : slst) (i : nat).

Record sleep_inv (pids : list Z) (s : slst) : Prop := {
  sl_pids : (procs s).*1 = pids;
  sl_held : forall i me, procs s !! i = Some (me, Holding) -> locked (sl s) = 1 /\ pid (sl s) = me;
  sl_one : forall i j a b, procs s !! i = Some (a, Holding) -> procs s !! j = Some (b, Holding) -> i = j;
  sl_free : locked (sl s) <> 0 -> exists i me, procs s !! i = Some (me, Holding);
  sl_asleep : forall i me, procs s !! i = Some (me, Asleep) -> locked (sl s) <> 0
}.

Lemma lookup_set_proc i x s j y :
  procs (set_proc i x s) !! j = Some y -> (j = i /\ y = x) \/ (j <> i /\ procs s !! j = Some y).
Proof.
  unfold set_proc. cbn. destruct (decide (j = i)) as [->|Hne].
  - intros [(_ & <- & _)|[Hn _]]%list_lookup_insert_Some; [by left|done].
  - rewrite list_lookup_insert_ne by done. by right.
Qed.

Lemma lookup_wake s j me st :
  (wake <$> procs s) !! j = Some (me, st) ->
  exists st0, procs s !! j = Some (me, st0) /\ (st = st0 \/ (st0 = Asleep /\ st = Asking)) /\ st <> Asleep.
Proof.
  rewrite list_lookup_fmap. destruct (procs s !! j) as [[a st0]|]; [|done]. cbn. unfold wake. cbn.
  destruct st0; intros [= <- <-]; eexists; (split; [done|]); naive_solver.
Qed.

Lemma sleep_inv_step pids s s' : step s s' -> sleep_inv pids s -> sleep_inv pids s'.
Proof.
  intros Hst [Hpid Hheld Hone Hfree Hasl].
  assert (forall i x st, procs s !! i = Some x -> (<[i := (x.1, st)]> (procs s)).*1 = pids) as Hpids.
  { intros i x st Hi. rewrite list_fmap_insert. cbn. rewrite list_insert_id; [done|].
    by rewrite list_lookup_fmap, Hi. }
  destruct Hst as [s i me Hi|s s' i me b Hi Hrun|s s' i me Hi Hrun].
  - constructor.
    + by apply (Hpids i (me, Away)).
    + intros j a [[_ ?]|[_ Hj]]%lookup_set_proc; [done|]. by eapply Hheld.
    + intros j k a b [[_ ?]|[_ Hj]]%lookup_set_proc [[_ ?]|[_ Hk]]%lookup_set_proc; try done. by eapply Hone.
    + cbn [set_proc sl]. intros (j & a & Hj)%Hfree. exists j, a. cbn.
      rewrite list_lookup_insert_ne; [done|]. intros ->. congruence.
    + intros j a [[_ ?]|[_ Hj]]%lookup_set_proc; [done|]. by eapply Hasl.
  - unfold acquiresleep, bind, gets, modify, ret in Hrun.
    destruct (Z.eqb_spec (locked (sl s)) 0) as [H0|H0]; cbn in Hrun; simplify_eq.
    + constructor; cbn.
      * by apply (Hpids i (me, Asking)).
      * intros j a [[_ [= ->]]|[_ Hj]]%(lookup_set_proc i _ s); [done|].
        destruct (Hheld _ _ Hj). congruence.
      * intros j k a b [[-> _]|[_ Hj]]%(lookup_set_proc i _ s)
          [[-> _]|[_ Hk]]%(lookup_set_proc i _ s); [done|..].
        -- destruct (Hheld _ _ Hk). congruence.
        -- destruct (Hheld _ _ Hj). congruence.
        -- by eapply Hone.
      * intros _. exists i, me. apply list_lookup_insert_eq. by eapply lookup_lt_Some.
      * done.
    + constructor; cbn.
      * by apply (Hpids i (me, Asking)).
      * intros j a [[_ ?]|[_ Hj]]%lookup_set_proc; [done|]. by eapply Hheld.
      * intros j k a b [[_ ?]|[_ Hj]]%lookup_set_proc [[_ ?]|[_ Hk]]%lookup_set_proc; try done. by eapply Hone.
      * intros (j & a & Hj)%Hfree. exists j, a.
        rewrite list_lookup_insert_ne; [done|]. intros ->. congruence.
      * done.
  - unfold releasesleep, wakeup, bind, modify in Hrun. cbn in Hrun. simplify_eq.
    assert (forall j a st, procs (set_proc i (me, Away) (mkslst (mkslock 0 0) (wake <$> procs s))) !! j = Some (a, st) ->
      st <> Holding /\ st <> Asleep) as Hno.
    { intros j a st [[-> [= -> ->]]|[Hne (st0 & Hj & Hst & Hna)%lookup_wake]]%lookup_set_proc; [done|].
      split; [|done]. intros ->. destruct Hst as [<-|[_ ?]]; [|done]. by apply Hne, (Hone j i a me). }
    constructor; cbn.
    + rewrite list_fmap_insert. cbn. assert ((wake <$> procs s).*1 = (procs s).*1) as ->.
      { rewrite <- list_fmap_compose. apply list_fmap_ext. intros _ [a st] _. by destruct st. }
      rewrite list_insert_id; [done|]. by rewrite list_lookup_fmap, Hi.
    + intros j a Hj. by destruct (Hno _ _ _ Hj).
    + intros j k a b Hj. by destruct (Hno _ _ _ Hj).
    + done.
    + intros j a Hj. by destruct (Hno _ _ _ Hj).
Qed.

Lemma steps_sleep_inv pids s : rtc step (init pids) s -> sleep_inv pids s.
Proof.
  intros Hs. assert (sleep_inv pids (init pids)) as Hinv.
  { assert (forall i me st, procs (init pids) !! i = Some (me, st) -> st = Away) as Hall.
    { intros i me st. cbn. rewrite list_lookup_fmap. by intros (x & _ & [= _ ->])%fmap_Some. }
    constructor; try done; cbn.
    - rewrite <- list_fmap_compose. apply list_fmap_id.
    - by intros i me ?%Hall.
    - by intros i j a b ?%Hall.
    - by intros i me ?%Hall. }
  induction Hs as [|a b c Hab _ IH]; [done|]. by apply IH, (sleep_inv_step _ a).
Qed.

(** C24: A sleep lock has at most one holder, whose process id it records, in every
    interleaving; it is locked exactly when it has one; and no process sleeps on
    a lock that is free, so no wake-up is lost. *)
Theorem sleeplock_correct pids s :
  rtc step (init pids) s ->
  (forall i j a b, procs s !! i = Some (a, Holding) -> procs s !! j = Some (b, Holding) -> i = j) /\
  (locked (sl s) <> 0 <-> exists i me, procs s !! i = Some (me, Holding)) /\
  (forall i me, procs s !! i = Some (me, Holding) -> holdingsleep me s = Ok (true, s)) /\
  (locked (sl s) = 0 -> forall i me, procs s !! i <> Some (me, Asleep)).
Proof.
  intros [_ Hheld Hone Hfree Hasl]%steps_sleep_inv. split; [done|]. split; [split|split].
  - done.
  - intros (i & me & Hi). destruct (Hheld _ _ Hi). lia.
  - intros i me Hi. destruct (Hheld _ _ Hi) as [H1 H2]. unfold holdingsleep, bind, gets, ret.
    by rewrite H1, H2, Z.eqb_refl.
  - intros H0 i me Hi. by apply Hasl in Hi.
Qed.
End sleep.

(** ** Runs *)

Lemma spinlock_mutex_witness :
  exists s pcs, rtc Spinlock.step (Spinlock.init [true; true]) (s, pcs) /\
    pcs = [Spinlock.Won; Spinlock.Outside] /\
    (forall c' p p', pcs !! 0%nat = Some p -> pcs !! c' = Some p' ->
       owns p = true -> owns p' = true -> 0%nat = c').
Proof.
  assert (exists s, rtc Spinlock.step (Spinlock.init [true; true]) (s, [Spinlock.Won; Spinlock.Outside])) as [s Hs].
  { eexists. eapply rtc_l; [eapply (Spinlock.step_enter _ _ _ 0); reflexivity|].
    eapply rtc_l; [eapply (Spinlock.step_xchg _ _ _ 0 0); reflexivity|]. apply rtc_refl. }
  exists s, [Spinlock.Won; Spinlock.Outside]. split; [exact Hs|]. split; [reflexivity|].
  exact (proj1 (spinlock_mutex [true; true] s _ 0 Hs)).
Defined.

Lemma spinlock_no_panic_witness :
  exists p' s', next_move Spinlock.Outside 1 (fst (Spinlock.init [true; false])) = Ok (p', s').
Proof.
  exact (proj1 (spinlock_no_panic [true; false] _ _ 1 _ (rtc_refl _ _) eq_refl)).
Defined.

Lemma sleeplock_correct_witness :
  exists s, rtc Sleeplock.step (Sleeplock.init [4; 7]) s /\
    Sleeplock.holdingsleep 7 s = Ok (true, s).
Proof.
  assert (exists s, rtc Sleeplock.step (Sleeplock.init [4; 7]) s /\
    Sleeplock.procs s !! 1%nat = Some (7, Sleeplock.Holding)) as (s & Hs & H1).
  { eexists. split.
    - eapply rtc_l; [by apply (Sleeplock.step_ask _ 1 7)|].
      eapply rtc_l; [eapply (Sleeplock.step_acquire _ _ 1 7 true); reflexivity|]. apply rtc_refl.
    - reflexivity. }
  exists s. split; [exact Hs|].
  exact (proj1 (proj2 (proj2 (sleeplock_correct [4; 7] s Hs))) 1%nat 7 H1).
Defined.
