(* ===== verification/Bio.v ===== *)
(** The buffer cache ([bio.c]) over the memory disk ([memide.c]).

    [bst] holds the buffers, the doubly linked list of them in order of use
    (through [prev]/[next], the list head being index [NBUF]) and the disk.  The
    file system runs one call at a time here: a sleep lock that is found locked
    is held by the caller itself, and waiting for it would never end, which is
    the outcome [NoFuel].  [writes] is a history of the block writes that reached
    the disk, which no code reads; it is what a crash can cut short. *)

From S2P Require Import Prelude CString Mem.

Module Bio.

Definition BSIZE : nat := 512.
Definition MAXOPBLOCKS : nat := 10.
Definition NBUF : nat := 30.
Definition B_VALID : Z := 2.
Definition B_DIRTY : Z := 4.

(** [struct buf]; [b_locked] and [b_pid] are its sleep lock. *)
Record buf : Type := mkbuf {
  b_flags : Z;
  b_dev : Z;
  b_blockno : Z;
  b_locked : Z;
  b_pid : Z;
  b_refcnt : Z;
  b_data : list Z
}.
Definition set_b_flags v b := mkbuf v (b_dev b) (b_blockno b) (b_locked b) (b_pid b) (b_refcnt b) (b_data b).
Definition set_b_lock l p b := mkbuf (b_flags b) (b_dev b) (b_blockno b) l p (b_refcnt b) (b_data b).
Definition set_b_refcnt v b := mkbuf (b_flags b) (b_dev b) (b_blockno b) (b_locked b) (b_pid b) v (b_data b).
Definition set_b_data v b := mkbuf (b_flags b) (b_dev b) (b_blockno b) (b_locked b) (b_pid b) (b_refcnt b) v.

Record bst : Type := mkbst {
  bufs : list buf;
  nexts : list nat;
  prevs : list nat;
  memdisk : list (list Z);
  mypid : Z;
  writes : list (nat * list Z)
}.

(** [&bcache.head] *)
Definition head : nat := NBUF.

Definition get_buf (i : nat) : M bst buf := let! s := get in deref (bufs s !! i).
Definition set_buf (i : nat) (f : buf -> buf) : M bst unit :=
  do! get_buf i;
  modify (fun s => mkbst (alter f i (bufs s)) (nexts s) (prevs s) (memdisk s) (mypid s) (writes s)).
Definition next (i : nat) : M bst nat := let! s := get in deref (nexts s !! i).
Definition prev (i : nat) : M bst nat := let! s := get in deref (prevs s !! i).
Definition set_next (i v : nat) : M bst unit :=
  do! next i; modify (fun s => mkbst (bufs s) (<[i := v]> (nexts s)) (prevs s) (memdisk s) (mypid s) (writes s)).
Definition set_prev (i v : nat) : M bst unit :=
  do! prev i; modify (fun s => mkbst (bufs s) (nexts s) (<[i := v]> (prevs s)) (memdisk s) (mypid s) (writes s)).

(** [b->next = head.next; b->prev = &head; head.next->prev = b; head.next = b] *)
Definition push_front (b : nat) : M bst unit :=
  let! n := next head in
  do! set_next b n;
  do! set_prev b head;
  let! n := next head in
  do! set_prev n b;
  set_next head b.

(** Each turn of the loop of [binit] puts the buffer first, initialising its lock
    between the stores. *)
Definition binit : M bst unit :=
  do! set_prev head head;
  do! set_next head head;
  for_each (seq 0 NBUF) (fun b =>
    let! n := next head in
    do! set_next b n;
    do! set_prev b head;
    do! set_buf b (set_b_lock 0 0);
    let! n := next head in
    do! set_prev n b;
    set_next head b).

(** The buffer is taken out of the list and put first. *)
Definition move_front (b : nat) : M bst unit :=
  let! n := next b in
  let! p := prev b in
  do! set_prev n p;
  let! p := prev b in
  let! n := next b in
  do! set_next p n;
  push_front b.

(** ** The sleep lock of a buffer *)

Definition acquiresleep (i : nat) : M bst unit :=
  let! b := get_buf i in
  if negb (b_locked b =? 0) then nofuel
  else let! me := gets mypid in set_buf i (set_b_lock 1 me).
Definition releasesleep (i : nat) : M bst unit := set_buf i (set_b_lock 0 0).
Definition holdingsleep (i : nat) : M bst bool :=
  let! b := get_buf i in
  let! me := gets mypid in
  ret (negb (b_locked b =? 0) && (b_pid b =? me)).

(** ** The disk *)

Definition iderw (i : nat) : M bst unit :=
  let! h := holdingsleep i in
  if negb h then panic "iderw: buf not locked" else
  let! b := get_buf i in
  if Z.land (b_flags b) (Z.lor B_VALID B_DIRTY) =? B_VALID then panic "iderw: nothing to do" else
  if negb (b_dev b =? 1) then panic "iderw: request not for disk 1" else
  let! disksize := gets (fun s => Z.of_nat (length (memdisk s))) in
  if b_blockno b >=? disksize then panic "iderw: block out of range" else
  let p := Z.to_nat (b_blockno b) in
  do! (if negb (Z.land (b_flags b) B_DIRTY =? 0) then
         do! set_buf i (fun b => set_b_flags (Z.land (b_flags b) (Z.lnot B_DIRTY)) b);
         modify (fun s => mkbst (bufs s) (nexts s) (prevs s) (<[p := b_data b]> (memdisk s)) (mypid s)
                            (writes s ++ [(p, b_data b)]))
       else
         let! s := get in
         let! d := deref (memdisk s !! p) in
         set_buf i (set_b_data d));
  set_buf i (fun b => set_b_flags (Z.lor (b_flags b) B_VALID) b).

(** ** [bget], [bread], [bwrite], [brelse] *)

Fixpoint bget_find (fuel b : nat) (dev blockno : Z) : M bst (option nat) :=
  match fuel with
  | O => nofuel
  | S fuel =>
      if (b =? head)%nat then ret None else
      let! x := get_buf b in
      if (b_dev x =? dev) && (b_blockno x =? blockno) then ret (Some b)
      else let! n := next b in bget_find fuel n dev blockno
  end.

Fixpoint bget_victim (fuel b : nat) : M bst (option nat) :=
  match fuel with
  | O => nofuel
  | S fuel =>
      if (b =? head)%nat then ret None else
      let! x := get_buf b in
      if (b_refcnt x =? 0) && (Z.land (b_flags x) B_DIRTY =? 0) then ret (Some b)
      else let! n := prev b in bget_victim fuel n
  end.

Definition bget (dev blockno : Z) : M bst nat :=
  let! b := next head in
  let! r := bget_find (S NBUF) b dev blockno in
  match r with
  | Some b =>
      do! set_buf b (fun x => set_b_refcnt (u32 (b_refcnt x + 1)) x);
      do! acquiresleep b;
      ret b
  | None =>
      let! b := prev head in
      let! r := bget_victim (S NBUF) b in
      match r with
      | Some b =>
          do! set_buf b (fun x => mkbuf 0 dev blockno (b_locked x) (b_pid x) 1 (b_data x));
          do! acquiresleep b;
          ret b
      | None => panic "bget: no buffers"
      end
  end.

Definition bread (dev blockno : Z) : M bst nat :=
  let! b := bget dev blockno in
  let! x := get_buf b in
  do! when (Z.land (b_flags x) B_VALID =? 0) (iderw b);
  ret b.

Definition bwrite (b : nat) : M bst unit :=
  let! h := holdingsleep b in
  if negb h then panic "bwrite" else
  do! set_buf b (fun x => set_b_flags (Z.lor (b_flags x) B_DIRTY) x);
  iderw b.

Definition brelse (b : nat) : M bst unit :=
  let! h := holdingsleep b in
  if negb h then panic "brelse" else
  do! releasesleep b;
  do! set_buf b (fun x => set_b_refcnt (u32 (b_refcnt x - 1)) x);
  let! x := get_buf b in
  when (b_refcnt x =? 0) (move_front b).

(** The contents of a buffer, and storing into it. *)
Definition bdata (b : nat) : M bst (list Z) := let! x := get_buf b in ret (b_data x).
Definition set_bdata (b : nat) (d : list Z) : M bst unit := set_buf b (set_b_data d).

(** [b->flags |= B_DIRTY], as [log_write] pins a buffer in the cache. *)
Definition mark_dirty (i : nat) : M bst unit :=
  set_buf i (fun x => set_b_flags (Z.lor (b_flags x) B_DIRTY) x).

(** Memory as the kernel finds it, before [binit]. *)
Definition buf0 : buf := mkbuf 0 0 0 0 0 0 (replicate BSIZE 0).
Definition bst0 (disk : list (list Z)) (me : Z) : bst :=
  mkbst (replicate NBUF buf0) (replicate (S NBUF) 0%nat) (replicate (S NBUF) 0%nat) disk me [].

End Bio.

(** * The list of buffers *)

Section dll.
Import Bio.
Implicit Types (N P l : list nat) (s : bst).

(** [links x l y]: following [next] from [x] one meets [l] and then [y], and following
    [prev] from [y] one comes back. *)
Fixpoint links (N P : list nat) (x : nat) (l : list nat) (y : nat) : Prop :=
  match l with
  | [] => N !! x = Some y /\ P !! y = Some x
  | b :: l => N !! x = Some b /\ P !! b = Some x /\ links N P b l y
  end.

Lemma links_app N P x l1 b l2 y :
  links N P x (l1 ++ b :: l2) y <-> links N P x l1 b /\ links N P b l2 y.
Proof. revert x. induction l1 as [|a l1 IH]; intros x; cbn; [tauto|]. rewrite IH. tauto. Qed.

Lemma links_next N P x l y i v :
  i ∉ x :: l -> links N P x l y -> links (<[i := v]> N) P x l y.
Proof.
  revert x. induction l as [|b l IH]; intros x Hi; cbn.
  - rewrite list_lookup_insert_ne by set_solver. done.
  - rewrite list_lookup_insert_ne by set_solver. intros (? & ? & ?). split; [done|]. split; [done|].
    apply IH; [set_solver|done].
Qed.
Lemma links_prev N P x l y i v :
  i ∉ y :: l -> links N P x l y -> links N (<[i := v]> P) x l y.
Proof.
  revert x. induction l as [|b l IH]; intros x Hi; cbn.
  - rewrite list_lookup_insert_ne by set_solver. done.
  - rewrite list_lookup_insert_ne by set_solver. intros (? & ? & ?). split; [done|]. split; [done|].
    apply IH; [set_solver|done].
Qed.

(** The last element before [y]. *)
Definition last_of (x : nat) (l : list nat) : nat := default x (last l).
Lemma last_of_snoc x l b : last_of x (l ++ [b]) = b.
Proof. unfold last_of. by rewrite last_snoc. Qed.

Lemma last_of_cons x a l : last_of x (a :: l) = last_of a l.
Proof.
  unfold last_of. destruct l as [|c l]; [done|]. change (last (a :: c :: l)) with (last (c :: l)).
  destruct (last (c :: l)) eqn:E; [done|]. by apply last_None in E.
Qed.

(** The circular list through the head. *)
Record ring (s : bst) (l : list nat) : Prop := {
  rg_next : length (nexts s) = S NBUF;
  rg_prev : length (prevs s) = S NBUF;
  rg_perm : l ≡ₚ seq 0 NBUF;
  rg_links : links (nexts s) (prevs s) head l head
}.

Lemma ring_mem s l i : ring s l -> i ∈ l <-> (i < NBUF)%nat.
Proof. intros [_ _ Hp _]. rewrite Hp, elem_of_seq. lia. Qed.
Lemma ring_nodup s l : ring s l -> NoDup l.
Proof. intros [_ _ Hp _]. rewrite Hp. apply NoDup_seq. Qed.
Lemma ring_head s l : ring s l -> head ∉ l.
Proof. intros Hr. rewrite (ring_mem s) by done. unfold head. lia. Qed.

Lemma wp_get_buf i Q s : wp (get_buf i) Q s <-> exists b, bufs s !! i = Some b /\ Q b s.
Proof. unfold get_buf. by wp_steps. Qed.
Lemma wp_set_buf i f Q s :
  wp (set_buf i f) Q s <-> is_Some (bufs s !! i) /\
    Q tt (mkbst (alter f i (bufs s)) (nexts s) (prevs s) (memdisk s) (mypid s) (writes s)).
Proof.
  unfold set_buf. wp_steps. rewrite wp_get_buf. split.
  - intros (b & Hb & H). revert H. wp_steps. eauto.
  - intros [[b Hb] H]. exists b. split; [done|]. by wp_steps.
Qed.
Lemma wp_next i Q s : wp (next i) Q s <-> exists n, nexts s !! i = Some n /\ Q n s.
Proof. unfold next. by wp_steps. Qed.
Lemma wp_prev i Q s : wp (prev i) Q s <-> exists n, prevs s !! i = Some n /\ Q n s.
Proof. unfold prev. by wp_steps. Qed.
Lemma wp_set_next i v Q s :
  (i < length (nexts s))%nat ->
  Q tt (mkbst (bufs s) (<[i := v]> (nexts s)) (prevs s) (memdisk s) (mypid s) (writes s)) ->
  wp (set_next i v) Q s.
Proof.
  intros [x Hx]%lookup_lt_is_Some_2 H. unfold set_next. rewrite wp_bind, wp_next. exists x. split; [done|].
  by rewrite wp_modify.
Qed.
Lemma wp_set_prev i v Q s :
  (i < length (prevs s))%nat ->
  Q tt (mkbst (bufs s) (nexts s) (<[i := v]> (prevs s)) (memdisk s) (mypid s) (writes s)) ->
  wp (set_prev i v) Q s.
Proof.
  intros [x Hx]%lookup_lt_is_Some_2 H. unfold set_prev. rewrite wp_bind, wp_prev. exists x. split; [done|].
  by rewrite wp_modify.
Qed.

(** A state that differs in the links only. *)
Definition relinked (s s' : bst) : Prop :=
  bufs s' = bufs s /\ memdisk s' = memdisk s /\ mypid s' = mypid s /\ writes s' = writes s.

(** What follows the head, and putting a buffer there. *)
Lemma links_first N P x l y : links N P x l y -> N !! x = Some (hd y l) /\ P !! hd y l = Some x.
Proof. destruct l; cbn; tauto. Qed.

Lemma links_last N P x l y : links N P x l y -> P !! y = Some (last_of x l) /\ N !! last_of x l = Some y.
Proof.
  revert x. induction l as [|b l IH]; intros x; cbn; [tauto|]. intros (_ & _ & H%IH).
  by rewrite last_of_cons.
Qed.

Lemma links_cons_front N P b l :
  NoDup (b :: l) -> head ∉ b :: l -> (b < length N)%nat -> (b < length P)%nat -> (head < length N)%nat ->
  (hd head l < length P)%nat -> links N P head l head ->
  links (<[head := b]> (<[b := hd head l]> N)) (<[hd head l := b]> (<[b := head]> P)) head (b :: l) head.
Proof.
  intros Hnd Hh Hb Hb' HhN HhP Hl. apply NoDup_cons in Hnd as [Hbl Hnd].
  assert (b <> head) as Hne by set_solver.
  assert (b <> hd head l) as Hnb by (destruct l; [done|cbn; set_solver]).
  cbn. split; [by rewrite list_lookup_insert_eq by (by rewrite length_insert)|].
  split; [rewrite list_lookup_insert_ne, list_lookup_insert_eq by done; done|].
  destruct l as [|c l]; cbn in *.
  - split; [by rewrite list_lookup_insert_ne, list_lookup_insert_eq|].
    by rewrite list_lookup_insert_eq by (by rewrite length_insert).
  - destruct Hl as (H1 & H2 & H3). apply NoDup_cons in Hnd as [Hcl Hnd].
    split; [by rewrite list_lookup_insert_ne, list_lookup_insert_eq|].
    split; [by rewrite list_lookup_insert_eq by (by rewrite length_insert)|].
    apply links_next; [set_solver|]. apply links_next; [set_solver|].
    apply links_prev; [set_solver|]. apply links_prev; [set_solver|]. done.
Qed.

Lemma links_remove N P x l1 b l2 y :
  NoDup (x :: l1 ++ b :: l2) -> NoDup (l1 ++ b :: l2 ++ [y]) ->
  (last_of x l1 < length N)%nat -> (hd y l2 < length P)%nat ->
  links N P x (l1 ++ b :: l2) y ->
  links (<[last_of x l1 := hd y l2]> N) (<[hd y l2 := last_of x l1]> P) x (l1 ++ l2) y.
Proof.
  revert x. induction l1 as [|a l1 IH]; intros x Hnd Hnd' HN HP; cbn [app links].
  - intros (_ & _ & Hl). unfold last_of in *. cbn in *. apply NoDup_cons in Hnd as [Hx Hnd].
    destruct l2 as [|c l2]; cbn in *.
    + by rewrite !list_lookup_insert_eq.
    + destruct Hl as (H1 & H2 & H3). rewrite !list_lookup_insert_eq by done. split; [done|]. split; [done|].
      apply links_next; [set_solver|]. apply links_prev; [|done].
      apply NoDup_cons in Hnd' as [_ Hnd']. apply NoDup_cons in Hnd' as [Hc _]. set_solver.
  - intros (H1 & H2 & Hl). apply NoDup_cons in Hnd as [Hx Hnd]. apply NoDup_cons in Hnd' as [Ha' Hnd'].
    rewrite last_of_cons in *. assert (last_of a l1 ∈ a :: l1) as Hin.
    { unfold last_of. destruct (last l1) as [z|] eqn:E; cbn; [right; by apply last_Some_elem_of|left]. }
    assert (hd y l2 ∈ l2 ++ [y]) as Hin2 by (destruct l2; cbn; set_solver).
    split; [rewrite list_lookup_insert_ne by set_solver; done|].
    split; [rewrite list_lookup_insert_ne by set_solver; done|]. by apply IH.
Qed.

Lemma last_of_in x l : last_of x l = x \/ last_of x l ∈ l.
Proof. unfold last_of. destruct (last l) as [z|] eqn:E; cbn; [right; by apply last_Some_elem_of|by left]. Qed.
Lemma hd_in y l : hd y l = y \/ hd y l ∈ l.
Proof. destruct l; cbn; [by left|right; left]. Qed.

Definition set_links (N P : list nat) (s : bst) : bst :=
  mkbst (bufs s) N P (memdisk s) (mypid s) (writes s).

Lemma push_front_spec b l N P s :
  NoDup (b :: l) -> head ∉ b :: l -> (forall i, i ∈ b :: l -> (i < NBUF)%nat) ->
  length N = S NBUF -> length P = S NBUF -> links N P head l head ->
  wp (push_front b) (fun _ s' => exists N' P', s' = set_links N' P' s /\
    length N' = S NBUF /\ length P' = S NBUF /\ links N' P' head (b :: l) head) (set_links N P s).
Proof.
  intros Hnd Hh Hlt HN HP Hl. destruct (links_first _ _ _ _ _ Hl) as [Hf _].
  assert (b < NBUF)%nat by (apply Hlt; left). assert (b <> head) by set_solver.
  assert (hd head l <= NBUF)%nat as Hhd.
  { destruct (hd_in head l) as [->|Hin]; [unfold head; lia|]. specialize (Hlt _ (list_elem_of_further _ _ _ Hin)). lia. }
  unfold push_front. rewrite wp_bind, wp_next. exists (hd head l). split; [done|]. rewrite wp_bind.
  apply wp_set_next; [cbn; lia|]. rewrite wp_bind. apply wp_set_prev; [cbn; lia|]. cbn [nexts prevs set_links].
  rewrite wp_bind, wp_next. exists (hd head l). cbn [nexts]. split; [by rewrite list_lookup_insert_ne|].
  rewrite wp_bind. apply wp_set_prev; [cbn; rewrite length_insert; lia|].
  apply wp_set_next; [cbn; rewrite length_insert; unfold head; lia|]. cbn [nexts prevs bufs memdisk mypid writes].
  eexists _, _. split; [reflexivity|]. rewrite !length_insert. split; [done|]. split; [done|].
  apply links_cons_front; try done; unfold head in *; lia.
Qed.

Lemma move_front_spec b l s :
  ring s l -> (b < NBUF)%nat ->
  wp (move_front b) (fun _ s' => exists l1 l2 N P, l = l1 ++ b :: l2 /\
    s' = set_links N P s /\ ring s' (b :: l1 ++ l2)) s.
Proof.
  intros Hr Hb. pose proof (ring_nodup _ _ Hr) as Hnd. pose proof (ring_head _ _ Hr) as Hh.
  pose proof (proj2 (ring_mem _ _ b Hr) Hb) as Hin. apply list_elem_of_split in Hin as (l1 & l2 & ->).
  assert (forall i, i ∈ l1 ++ b :: l2 -> (i < NBUF)%nat) as Hlt by (intros i; by rewrite (ring_mem _ _ i Hr)).
  destruct Hr as [HN HP Hperm Hl]. pose proof Hl as [Hl1 Hl2]%links_app.
  destruct (links_first _ _ _ _ _ Hl2) as [Hn _]. destruct (links_last _ _ _ _ _ Hl1) as [Hp _].
  set (n := hd head l2) in *. set (p := last_of head l1) in *.
  assert (n <> b) as Hnb.
  { unfold n. destruct (hd_in head l2) as [->|Hi]; [set_solver|]. intros Heq.
    rewrite Heq in Hi. apply NoDup_app in Hnd as (_ & _ & Hnd). by apply NoDup_cons in Hnd as [? _]. }
  assert (p <> b) as Hpb.
  { unfold p. destruct (last_of_in head l1) as [->|Hi]; [set_solver|]. intros Heq.
    rewrite Heq in Hi. apply NoDup_app in Hnd as (_ & Hd & _). by apply (Hd b Hi); left. }
  assert (n <= NBUF /\ p <= NBUF)%nat as [Hnle Hple].
  { unfold n, p. split.
    - destruct (hd_in head l2) as [->|Hi]; [unfold head; lia|]. apply Nat.lt_le_incl, Hlt. set_solver.
    - destruct (last_of_in head l1) as [->|Hi]; [unfold head; lia|]. apply Nat.lt_le_incl, Hlt. set_solver. }
  unfold move_front. rewrite wp_bind, wp_next. exists n. split; [done|]. rewrite wp_bind, wp_prev. exists p.
  split; [done|]. rewrite wp_bind. apply wp_set_prev; [lia|]. rewrite wp_bind, wp_prev. exists p.
  split; [cbn; by rewrite list_lookup_insert_ne|]. rewrite wp_bind, wp_next. exists n. split; [done|].
  rewrite wp_bind. apply wp_set_next; [cbn; lia|]. cbn [nexts prevs bufs memdisk mypid writes].
  eapply wp_mono; [apply (push_front_spec b (l1 ++ l2) (<[p := n]> (nexts s)) (<[n := p]> (prevs s)) s)|].
  - rewrite <- Permutation_middle in Hnd. done.
  - rewrite <- Permutation_middle in Hh. done.
  - intros i. rewrite Permutation_middle. apply Hlt.
  - by rewrite length_insert.
  - by rewrite length_insert.
  - apply (links_remove _ _ _ _ b); [|..|done].
    + apply NoDup_cons. done.
    + rewrite app_comm_cons, app_assoc. apply NoDup_app. split; [done|]. split; [set_solver|]. apply NoDup_singleton.
    + fold p. lia.
    + fold n. lia.
  - intros [] s' (N' & P' & -> & HN' & HP' & Hl'). exists l1, l2, N', P'.
    split; [done|]. split; [done|].
    constructor; [done|done| |done]. by rewrite Permutation_middle.
Qed.

(** ** Scanning the list *)

Definition buf_is (s : bst) (f : buf -> bool) (i : nat) : bool :=
  match bufs s !! i with Some x => f x | None => false end.

Lemma bget_find_spec fuel x l s dev bno :
  length (bufs s) = NBUF -> (forall i, i ∈ l -> (i < NBUF)%nat) ->
  links (nexts s) (prevs s) x l head -> (length l < fuel)%nat ->
  wp (bget_find fuel (hd head l) dev bno) (fun r s' => s' = s /\
    r = List.find (buf_is s (fun x => (b_dev x =? dev) && (b_blockno x =? bno))) l) s.
Proof.
  revert x l. induction fuel as [|fuel IH]; intros x l Hlen Hlt Hl Hf; [lia|].
  destruct l as [|b l]; cbn [bget_find hd List.find].
  - rewrite Nat.eqb_refl. by rewrite wp_ret.
  - assert (b < NBUF)%nat as Hb by (apply Hlt; left). destruct Hl as (_ & _ & Hl).
    destruct (Nat.eqb_spec b head) as [->|_]; [unfold head in Hb; lia|].
    rewrite wp_bind, wp_get_buf. destruct (lookup_lt_is_Some_2 (bufs s) b) as [y Hy]; [lia|].
    exists y. split; [done|]. unfold buf_is at 1. rewrite Hy. destruct (_ && _); [by rewrite wp_ret|].
    rewrite wp_bind, wp_next. exists (hd head l). split; [apply (links_first _ _ _ _ _ Hl)|].
    apply (IH b); [done|set_solver|done|cbn in Hf; lia].
Qed.

Lemma bget_victim_spec fuel l s :
  length (bufs s) = NBUF -> (forall i, i ∈ l -> (i < NBUF)%nat) ->
  (exists y, links (nexts s) (prevs s) head l y) -> (length l < fuel)%nat ->
  wp (bget_victim fuel (last_of head l)) (fun r s' => s' = s /\
    r = List.find (buf_is s (fun x => (b_refcnt x =? 0) && (Z.land (b_flags x) B_DIRTY =? 0))) (rev l)) s.
Proof.
  revert l. induction fuel as [|fuel IH]; intros l Hlen Hlt [y Hl] Hf; [lia|].
  destruct l as [|b l _] using rev_ind; cbn [bget_victim].
  - change (last_of head []) with head. rewrite Nat.eqb_refl. by rewrite wp_ret.
  - rewrite last_of_snoc, rev_app_distr. cbn [rev app List.find].
    assert (b < NBUF)%nat as Hb by (apply Hlt; set_solver).
    destruct (Nat.eqb_spec b head) as [->|_]; [unfold head in Hb; lia|].
    apply links_app in Hl as [Hl _].
    rewrite wp_bind, wp_get_buf. destruct (lookup_lt_is_Some_2 (bufs s) b) as [z Hz]; [lia|].
    exists z. split; [done|]. unfold buf_is at 1. rewrite Hz. destruct (_ && _); [by rewrite wp_ret|].
    rewrite wp_bind, wp_prev. exists (last_of head l). split; [apply (links_last _ _ _ _ _ Hl)|].
    rewrite length_app in Hf. cbn in Hf. apply IH; [done|set_solver|by exists b|lia].
Qed.
End dll.
