(* ===== verification/Ide.v ===== *)
(** The driver of the IDE disk ([ide.c]).

    The ports of the controller are an interface: what a read of a port returns and how the
    device changes is the device's.  [ide] holds the buffers, the request queue through
    [qnext], and the processes that sleep on a buffer; a process that waits for its request is
    identified with the buffer, whose lock it holds.  Everything here runs with [idelock]
    held, so [iderw] is one step up to where it sleeps, and is run again from the test of its
    loop when it wakes.  The polling loop of [idewait] takes the fuel [patience].
    [ioapicenable] is an argument. *)

From S2P Require Import Prelude CString Mem USys ProcDefs Console Bio.
Import Bio.

(** [insl] and [outsl]: transfers of words, here as bytes. *)
Class BlockPorts (D : Type) `{Ports D} := {
  insl : Z -> nat -> D -> list Z * D;
  outsl : Z -> list Z -> D -> D
}.

Record ide (D : Type) := mkide {
  ibufs : list buf;
  qnexts : list (option nat);
  idequeue : option nat;
  havedisk1 : Z;
  asleep : gset nat;
  ports : D
}.
Arguments mkide {D} ibufs qnexts idequeue havedisk1 asleep ports.
Arguments ibufs {D} i.
Arguments qnexts {D} i.
Arguments idequeue {D} i.
Arguments havedisk1 {D} i.
Arguments asleep {D} i.
Arguments ports {D} i.

Module Ide.

Definition SECTOR_SIZE : nat := 512.
Definition IDE_BSY : Z := 0x80.
Definition IDE_DRDY : Z := 0x40.
Definition IDE_DF : Z := 0x20.
Definition IDE_ERR : Z := 0x01.
Definition IDE_CMD_READ : Z := 0x20.
Definition IDE_CMD_WRITE : Z := 0x30.
Definition IDE_CMD_RDMUL : Z := 0xc4.
Definition IDE_CMD_WRMUL : Z := 0xc5.
Definition FSSIZE : Z := 1000.
Definition IRQ_IDE : Z := 14.

Section driver.
Context {D : Type} `{BlockPorts D} (patience : nat) (ncpu : Z) (ioapicenable : Z -> Z -> M (ide D) unit).
Abbreviation I := (M (ide D)).

Definition set_ports (d : D) : I unit :=
  modify (fun s => mkide (ibufs s) (qnexts s) (idequeue s) (havedisk1 s) (asleep s) d).
Definition in_b (p : Z) : I Z := let! d := gets ports in let '(v, d) := inb p d in do! set_ports d; ret v.
Definition out_b (p v : Z) : I unit := let! d := gets ports in set_ports (outb p (u8 v) d).
Definition in_sl (p : Z) (n : nat) : I (list Z) := let! d := gets ports in let '(l, d) := insl p n d in do! set_ports d; ret l.
Definition out_sl (p : Z) (l : list Z) : I unit := let! d := gets ports in set_ports (outsl p l d).

Definition getb (b : nat) : I buf := let! s := get in deref (ibufs s !! b).
Definition setb (b : nat) (f : buf -> buf) : I unit :=
  do! getb b;
  modify (fun s => mkide (alter f b (ibufs s)) (qnexts s) (idequeue s) (havedisk1 s) (asleep s) (ports s)).
Definition getq (b : nat) : I (option nat) := let! s := get in deref (qnexts s !! b).
Definition setq (b : nat) (v : option nat) : I unit :=
  do! getq b;
  modify (fun s => mkide (ibufs s) (<[b := v]> (qnexts s)) (idequeue s) (havedisk1 s) (asleep s) (ports s)).
Definition set_queue (v : option nat) : I unit :=
  modify (fun s => mkide (ibufs s) (qnexts s) v (havedisk1 s) (asleep s) (ports s)).
Definition set_havedisk1 (v : Z) : I unit :=
  modify (fun s => mkide (ibufs s) (qnexts s) (idequeue s) v (asleep s) (ports s)).

(** [sleep(b, &idelock)] puts the process of [b] to sleep, [wakeup(b)] ends it. *)
Definition sleep (b : nat) : I unit :=
  modify (fun s => mkide (ibufs s) (qnexts s) (idequeue s) (havedisk1 s) ({[b]} ∪ asleep s) (ports s)).
Definition wakeup (b : nat) : I unit :=
  modify (fun s => mkide (ibufs s) (qnexts s) (idequeue s) (havedisk1 s) (asleep s ∖ {[b]}) (ports s)).

Fixpoint idewait_loop (fuel : nat) : I Z :=
  match fuel with
  | O => nofuel
  | S fuel =>
      let! r := in_b 0x1f7 in
      if negb (Z.land r (Z.lor IDE_BSY IDE_DRDY) =? IDE_DRDY) then idewait_loop fuel else ret r
  end.
Definition idewait (checkerr : bool) : I Z :=
  let! r := idewait_loop patience in
  if checkerr && negb (Z.land r (Z.lor IDE_DF IDE_ERR) =? 0) then ret (-1) else ret 0.

Fixpoint probe (n : nat) : I unit :=
  match n with
  | O => ret tt
  | S n => let! v := in_b 0x1f7 in if negb (v =? 0) then set_havedisk1 1 else probe n
  end.
Definition ideinit : I unit :=
  do! ioapicenable IRQ_IDE (ncpu - 1);
  do! idewait false;
  do! out_b 0x1f6 (Z.lor 0xe0 (Z.shiftl 1 4));
  do! probe 1000;
  out_b 0x1f6 (Z.lor 0xe0 (Z.shiftl 0 4)).

Definition idestart (ob : option nat) : I unit :=
  match ob with
  | None => panic "idestart"
  | Some b =>
      let! x := getb b in
      if b_blockno x >=? FSSIZE then panic "incorrect blockno" else
      let sector_per_block := Z.of_nat (BSIZE / SECTOR_SIZE) in
      let sector := i32 (b_blockno x * sector_per_block) in
      let read_cmd := if sector_per_block =? 1 then IDE_CMD_READ else IDE_CMD_RDMUL in
      let write_cmd := if sector_per_block =? 1 then IDE_CMD_WRITE else IDE_CMD_WRMUL in
      if sector_per_block >? 7 then panic "idestart" else
      do! idewait false;
      do! out_b 0x3f6 0;
      do! out_b 0x1f2 sector_per_block;
      do! out_b 0x1f3 (Z.land sector 0xff);
      do! out_b 0x1f4 (Z.land (Z.shiftr sector 8) 0xff);
      do! out_b 0x1f5 (Z.land (Z.shiftr sector 16) 0xff);
      do! out_b 0x1f6 (Z.lor (Z.lor 0xe0 (Z.shiftl (Z.land (b_dev x) 1) 4)) (Z.land (Z.shiftr sector 24) 0x0f));
      if negb (Z.land (b_flags x) B_DIRTY =? 0) then
        do! out_b 0x1f7 write_cmd;
        out_sl 0x1f0 (b_data x)
      else out_b 0x1f7 read_cmd
  end.

Definition ideintr : I unit :=
  let! q := gets idequeue in
  match q with
  | None => ret tt
  | Some b =>
      let! n := getq b in
      do! set_queue n;
      let! x := getb b in
      do! when (Z.land (b_flags x) B_DIRTY =? 0)
        (let! r := idewait true in
         when (r >=? 0) (let! l := in_sl 0x1f0 (BSIZE / 4) in setb b (set_b_data l)));
      do! setb b (fun x => set_b_flags (Z.lor (b_flags x) B_VALID) x);
      do! setb b (fun x => set_b_flags (Z.land (b_flags x) (Z.lnot B_DIRTY)) x);
      do! wakeup b;
      let! q := gets idequeue in
      match q with None => ret tt | Some _ => idestart q end
  end.

(** The loop over [pp]: a pointer to [idequeue] ([None]) or to a [qnext]. *)
Definition load (pp : option nat) : I (option nat) :=
  match pp with None => gets idequeue | Some b => getq b end.
Definition store (pp : option nat) (b : nat) : I unit :=
  match pp with None => set_queue (Some b) | Some p => setq p (Some b) end.
Fixpoint queue_end (fuel : nat) (pp : option nat) : I (option nat) :=
  match fuel with
  | O => nofuel
  | S fuel =>
      let! n := load pp in
      match n with None => ret pp | Some b => queue_end fuel (Some b) end
  end.

(** The loop that waits for the request: whether it ends, or the process sleeps. *)
Definition wait_done (b : nat) : I bool :=
  let! x := getb b in
  if negb (Z.land (b_flags x) (Z.lor B_VALID B_DIRTY) =? B_VALID) then do! sleep b; ret false else ret true.

(** [pid] is the process that calls. *)
Definition iderw (pid : Z) (b : nat) : I bool :=
  let! x := getb b in
  if negb (negb (b_locked x =? 0) && (b_pid x =? pid)) then panic "iderw: buf not locked" else
  if Z.land (b_flags x) (Z.lor B_VALID B_DIRTY) =? B_VALID then panic "iderw: nothing to do" else
  let! h := gets havedisk1 in
  if negb (b_dev x =? 0) && (h =? 0) then panic "iderw: ide disk 1 not present" else
  do! setq b None;
  let! n := gets (fun s => length (ibufs s)) in
  let! pp := queue_end (S n) None in
  do! store pp b;
  let! q := gets idequeue in
  do! when (bool_decide (q = Some b)) (idestart (Some b));
  wait_done b.

End driver.
End Ide.
