(* ===== verification/IdeProps.v ===== *)
(** The IDE driver serves its requests in order.

    [Ata] states what the driver relies on of the controller: registers of a task file, a busy
    status that ends, and the transfer of one sector after a command.  [fifo] is the
    specification: a queue of buffers and the contents of the disks. *)

From S2P Require Import Prelude CString Mem USys ProcDefs Console Bio Ide.
Import Bio Ide.

(** * The controller *)

Record taskfile := mktask { t_count : Z; t_l0 : Z; t_l1 : Z; t_l2 : Z; t_head : Z }.
(** Nothing in transfer, a sector to be read, a sector to be written; drive and sector number. *)
Inductive phase := Free | Data_in (drive lba : Z) | Data_out (drive lba : Z).

(** The register at a port. *)
Definition set_reg (k v : Z) (t : taskfile) : taskfile :=
  if k =? 0x1f2 then mktask v (t_l0 t) (t_l1 t) (t_l2 t) (t_head t)
  else if k =? 0x1f3 then mktask (t_count t) v (t_l1 t) (t_l2 t) (t_head t)
  else if k =? 0x1f4 then mktask (t_count t) (t_l0 t) v (t_l2 t) (t_head t)
  else if k =? 0x1f5 then mktask (t_count t) (t_l0 t) (t_l1 t) v (t_head t)
  else mktask (t_count t) (t_l0 t) (t_l1 t) (t_l2 t) v.

Definition drive_of (t : taskfile) : Z := Z.land (Z.shiftr (t_head t) 4) 1.
Definition lba_of (t : taskfile) : Z := t_l0 t + 2 ^ 8 * t_l1 t + 2 ^ 16 * t_l2 t + 2 ^ 24 * Z.land (t_head t) 15.

Definition disks := Z -> Z -> list Z.
Definition set_sector (dk : disks) (drive lba : Z) (l : list Z) : disks :=
  fun dr n => if (dr =? drive) && (n =? lba) then l else dk dr n.

(** A controller that reports no errors; [busy] bounds the reads of the status until it is ready. *)
Class Ata (D : Type) `{BlockPorts D} (patience : nat) := {
  busy : D -> nat;
  regs : D -> taskfile;
  transfer : D -> phase;
  sector : D -> disks;
  busy_ends d : (busy d < patience)%nat;
  ata_status d : let '(st, d') := inb 0x1f7 d in
    regs d' = regs d /\ transfer d' = transfer d /\ sector d' = sector d /\
    (if (busy d =? 0)%nat then busy d' = 0%nat /\ Z.land st 0xc0 = 0x40 /\ Z.land st 0x21 = 0
     else (busy d' < busy d)%nat /\ Z.land st 0xc0 <> 0x40);
  ata_control v d : busy d = 0%nat -> let d' := outb 0x3f6 v d in
    busy d' = 0%nat /\ regs d' = regs d /\ transfer d' = transfer d /\ sector d' = sector d;
  ata_register k v d : busy d = 0%nat -> 0x1f2 <= k <= 0x1f6 -> let d' := outb k v d in
    busy d' = 0%nat /\ transfer d' = transfer d /\ sector d' = sector d /\
    regs d' = set_reg k v (regs d);
  ata_read d : busy d = 0%nat -> t_count (regs d) = 1 -> transfer d = Free -> let d' := outb 0x1f7 0x20 d in
    transfer d' = Data_in (drive_of (regs d)) (lba_of (regs d)) /\ sector d' = sector d;
  ata_write d : busy d = 0%nat -> t_count (regs d) = 1 -> transfer d = Free -> let d' := outb 0x1f7 0x30 d in
    transfer d' = Data_out (drive_of (regs d)) (lba_of (regs d)) /\ sector d' = sector d;
  ata_out l d drive lba : transfer d = Data_out drive lba -> length l = 512%nat -> let d' := outsl 0x1f0 l d in
    transfer d' = Free /\ sector d' = set_sector (sector d) drive lba l;
  ata_in d drive lba : transfer d = Data_in drive lba -> busy d = 0%nat -> let '(l, d') := insl 0x1f0 128 d in
    l = sector d drive lba /\ transfer d' = Free /\ sector d' = sector d
}.

(** * The specification *)

Record fifo := mkfifo { fq : list nat; fdisk : disks; fbufs : list buf }.

Definition dirty (x : buf) : bool := negb (Z.land (b_flags x) B_DIRTY =? 0).
Definition drive (x : buf) : Z := Z.land (b_dev x) 1.

(** A request is served: the sector is written from the buffer or read into it. *)
Definition served (dk : disks) (x : buf) : buf :=
  set_b_flags (Z.land (Z.lor (b_flags x) B_VALID) (Z.lnot B_DIRTY))
    (if dirty x then x else set_b_data (dk (drive x) (b_blockno x)) x).
Definition stored_by (dk : disks) (x : buf) : disks :=
  if dirty x then set_sector dk (drive x) (b_blockno x) (b_data x) else dk.

Definition f_submit (b : nat) (f : fifo) : fifo := mkfifo (fq f ++ [b]) (fdisk f) (fbufs f).
Definition f_serve (f : fifo) : fifo :=
  match fq f with
  | [] => f
  | b :: q =>
      match fbufs f !! b with
      | Some x => mkfifo q (stored_by (fdisk f) x) (<[b := served (fdisk f) x]> (fbufs f))
      | None => f
      end
  end.

(** What the callers of [iderw] keep to: a buffer with work to do, locked by the process. *)
Record request (pid : Z) (x : buf) : Prop := {
  rq_lock : b_locked x <> 0 /\ b_pid x = pid;
  rq_work : Z.land (b_flags x) (Z.lor B_VALID B_DIRTY) <> B_VALID;
  rq_block : 0 <= b_blockno x < FSSIZE;
  rq_data : length (b_data x) = BSIZE
}.

(** * The queue *)

Fixpoint chain (qs : list (option nat)) (o : option nat) (q : list nat) : Prop :=
  match q with
  | [] => o = None
  | b :: q => o = Some b /\ exists n, qs !! b = Some n /\ chain qs n q
  end.

Lemma chain_other qs o q b v : chain qs o q -> b ∉ q -> chain (<[b := v]> qs) o q.
Proof.
  revert o. induction q as [|a q IH]; intros o; cbn; [done|]. intros (-> & n & Hn & Hc) [Hne Hq]%not_elem_of_cons.
  split; [done|]. exists n. rewrite list_lookup_insert_ne by done. split; [done|]. by apply IH.
Qed.

Section driver.
Context {D : Type} `{BlockPorts D} (patience : nat) `{!Ata D patience}.
Implicit Types (s : ide D) (d : D) (x y : buf) (f : fifo).

(** The device has been given the request of [x]; [dk] is the disk before it. *)
Definition begun d x (dk : disks) : Prop :=
  if dirty x then transfer d = Free /\ (forall dr n, sector d dr n = set_sector dk (drive x) (b_blockno x) (b_data x) dr n)
  else transfer d = Data_in (drive x) (b_blockno x) /\ (forall dr n, sector d dr n = dk dr n).

Record rep s f : Prop := {
  rp_bufs : ibufs s = fbufs f;
  rp_disk1 : havedisk1 s <> 0;
  rp_len : length (qnexts s) = length (ibufs s);
  rp_chain : chain (qnexts s) (idequeue s) (fq f);
  rp_nodup : NoDup (fq f);
  rp_req : forall b, b ∈ fq f -> exists x pid, fbufs f !! b = Some x /\ request pid x;
  rp_dev : match fq f with
    | [] => transfer (ports s) = Free /\ forall dr n, sector (ports s) dr n = fdisk f dr n
    | b :: _ => exists x, fbufs f !! b = Some x /\ begun (ports s) x (fdisk f)
    end
}.

(** ** The ports *)

Definition sp d s : ide D := mkide (ibufs s) (qnexts s) (idequeue s) (havedisk1 s) (asleep s) d.

Lemma wp_in_b p Q s : wp (in_b p) Q s <-> let '(v, d) := inb p (ports s) in Q v (sp d s).
Proof. unfold in_b, set_ports. rewrite wp_bind, wp_gets. destruct (inb p (ports s)). by rewrite wp_bind, wp_modify, wp_ret. Qed.
Lemma wp_out_b p v Q s : wp (out_b p v) Q s <-> Q tt (sp (outb p (u8 v) (ports s)) s).
Proof. unfold out_b, set_ports. by rewrite wp_bind, wp_gets, wp_modify. Qed.
Lemma wp_out_sl p l Q s : wp (out_sl p l) Q s <-> Q tt (sp (outsl p l (ports s)) s).
Proof. unfold out_sl, set_ports. by rewrite wp_bind, wp_gets, wp_modify. Qed.
Lemma wp_in_sl p n Q s : wp (in_sl p n) Q s <-> let '(l, d) := insl p n (ports s) in Q l (sp d s).
Proof. unfold in_sl, set_ports. rewrite wp_bind, wp_gets. destruct (insl p n (ports s)). by rewrite wp_bind, wp_modify, wp_ret. Qed.
Lemma wp_getb b x Q s : ibufs s !! b = Some x -> Q x s -> wp (getb b) Q s.
Proof. intros Hx HQ. unfold getb. rewrite wp_bind, wp_get, wp_deref. eauto. Qed.
Lemma wp_setb b g x Q s : ibufs s !! b = Some x ->
  Q tt (mkide (<[b := g x]> (ibufs s)) (qnexts s) (idequeue s) (havedisk1 s) (asleep s) (ports s)) -> wp (setb b g) Q s.
Proof.
  intros Hx HQ. unfold setb. rewrite wp_bind. eapply wp_getb; [done|]. rewrite wp_modify. by rewrite (list_alter_insert _ _ _ x Hx).
Qed.
Lemma wp_getq b n Q s : qnexts s !! b = Some n -> Q n s -> wp (getq b) Q s.
Proof. intros Hx HQ. unfold getq. rewrite wp_bind, wp_get, wp_deref. eauto. Qed.
Lemma wp_setq b v n Q s : qnexts s !! b = Some n ->
  Q tt (mkide (ibufs s) (<[b := v]> (qnexts s)) (idequeue s) (havedisk1 s) (asleep s) (ports s)) -> wp (setq b v) Q s.
Proof. intros Hx HQ. unfold setq. rewrite wp_bind. eapply wp_getq; [done|]. by rewrite wp_modify. Qed.

(** ** Waiting for the device *)

Lemma idewait_loop_spec fuel Q s :
  (busy (ports s) < fuel)%nat ->
  (forall r d, busy d = 0%nat -> transfer d = transfer (ports s) -> sector d = sector (ports s) -> Z.land r 0x21 = 0 -> Q r (sp d s)) ->
  wp (idewait_loop fuel) Q s.
Proof.
  revert s. induction fuel as [|fuel IH]; intros s Hf HQ; [lia|]. cbn [idewait_loop]. rewrite wp_bind, wp_in_b.
  pose proof (ata_status (ports s)) as Hst. destruct (inb 0x1f7 (ports s)) as [r d]. destruct Hst as (_ & Ht & Hs & Hb).
  change (Z.lor IDE_BSY IDE_DRDY) with 0xc0. change IDE_DRDY with 0x40.
  destruct (Nat.eqb_spec (busy (ports s)) 0) as [_|Hn]; destruct Hb as [Hb1 Hb2].
  - destruct Hb2 as [-> Hr]. cbn [negb Z.eqb Pos.eqb]. rewrite wp_ret. by apply HQ.
  - destruct (Z.eqb_spec (Z.land r 0xc0) 0x40); [done|]. cbn [negb]. apply IH; [cbn [ports sp]; lia|].
    cbn [ports sp]. intros r' d' Hb' Ht' Hs' Hr'. apply HQ; [done|congruence|congruence|done].
Qed.

Lemma idewait_spec c Q s :
  (forall d, busy d = 0%nat -> transfer d = transfer (ports s) -> sector d = sector (ports s) -> Q 0 (sp d s)) ->
  wp (idewait patience c) Q s.
Proof.
  intros HQ. unfold idewait. rewrite wp_bind. apply idewait_loop_spec; [apply busy_ends|]. intros r d Hb Ht Hs Hr.
  change (Z.lor IDE_DF IDE_ERR) with 0x21. rewrite Hr. cbn [Z.eqb negb]. rewrite andb_false_r, wp_ret. by apply HQ.
Qed.

(** ** Starting a request *)

(** The registers the driver writes name the sector. *)
Lemma lba_regs n dev : 0 <= n < 1000 ->
  let t := mktask 1 (u8 (Z.land n 0xff)) (u8 (Z.land (Z.shiftr n 8) 0xff)) (u8 (Z.land (Z.shiftr n 16) 0xff))
    (u8 (Z.lor (Z.lor 0xe0 (Z.shiftl (Z.land dev 1) 4)) (Z.land (Z.shiftr n 24) 0x0f))) in
  drive_of t = Z.land dev 1 /\ lba_of t = n.
Proof.
  intros Hn t. assert (Z.land dev 1 = 0 \/ Z.land dev 1 = 1) as Hd.
  { assert (Z.land dev 1 = dev mod 2) as -> by exact (Z.land_ones dev 1 ltac:(lia)). pose proof (Z.mod_pos_bound dev 2 ltac:(lia)). lia. }
  assert (forall k, Z.land k 255 = k mod 256) as H255 by (intros k; change 255 with (Z.ones 8); by rewrite Z.land_ones by lia).
  assert (Z.shiftr n 24 = 0) as H24 by (rewrite Z.shiftr_div_pow2 by lia; apply Z.div_small; lia).
  assert (Z.shiftr n 16 = 0) as H16 by (rewrite Z.shiftr_div_pow2 by lia; apply Z.div_small; lia).
  unfold drive_of, lba_of, t. cbn [t_count t_l0 t_l1 t_l2 t_head]. rewrite H24, H16, !H255, (Z.shiftr_div_pow2 n 8) by lia. unfold u8.
  split; [by destruct Hd as [->| ->]|].
  assert (Z.land (Z.lor (Z.lor 224 (Z.shiftl (Z.land dev 1) 4)) (Z.land 0 15) mod 2 ^ 8) 15 = 0) as -> by (by destruct Hd as [->| ->]).
  change (0 mod 256) with 0. change (2 ^ 8) with 256. rewrite !Z.mod_mod by lia. change (0 mod 256) with 0. pose proof (Z.div_mod n 256 ltac:(lia)).
  rewrite (Z.mod_small (n / 256)); [lia|]. split; [apply Z.div_pos; lia|apply Z.div_lt_upper_bound; lia].
Qed.

Lemma sp_sp d d' s : sp d (sp d' s) = sp d s.
Proof. done. Qed.

(** The device takes commands; [t] is its task file, [dk] the disks. *)
Record takes d (t : taskfile) (dk : disks) : Prop := {
  ta_busy : busy d = 0%nat;
  ta_regs : regs d = t;
  ta_free : transfer d = Free;
  ta_disk : forall dr n, sector d dr n = dk dr n
}.

Lemma wp_register {B} k v t dk (m : M (ide D) B) Q s :
  takes (ports s) t dk -> 0x1f2 <= k <= 0x1f6 -> (forall d, takes d (set_reg k (u8 v) t) dk -> wp m Q (sp d s)) -> wp (do! out_b k v; m) Q s.
Proof.
  intros [Hb Hr Hf Hs] Hk HQ. rewrite wp_bind, wp_out_b. destruct (ata_register k (u8 v) (ports s) Hb Hk) as (B1 & T1 & S1 & R1).
  apply HQ. split; [done|by rewrite R1, Hr|by rewrite T1|intros; by rewrite S1].
Qed.

Lemma idestart_spec b x pid dk Q s :
  ibufs s !! b = Some x -> request pid x -> transfer (ports s) = Free -> (forall dr n, sector (ports s) dr n = dk dr n) ->
  (forall d, begun d x dk -> Q tt (sp d s)) -> wp (idestart patience (Some b)) Q s.
Proof.
  intros Hx [_ _ Hb Hl] Ht Hs HQ. change FSSIZE with 1000 in Hb. unfold idestart. rewrite wp_bind. eapply wp_getb; [done|].
  destruct (Z.geb_spec (b_blockno x) FSSIZE); [unfold FSSIZE in *; lia|]. change (Z.of_nat (BSIZE / SECTOR_SIZE)) with 1.
  cbn [Z.eqb Pos.eqb Z.gtb Z.compare Pos.compare Pos.compare_cont]. rewrite Z.mul_1_r, i32_small by lia.
  rewrite wp_bind. apply idewait_spec. intros d0 B0 T0 S0. rewrite wp_bind, wp_out_b. cbn [ports sp].
  destruct (ata_control (u8 0) d0 B0) as (B1 & R1 & T1 & S1). set (d1 := outb 0x3f6 _ d0) in *.
  assert (takes d1 (regs d1) dk) as Htk by (split; [done|done|congruence|intros; by rewrite S1, S0]).
  eapply wp_register; [exact Htk|lia|]. clear Htk. intros d2 Htk. eapply wp_register; [exact Htk|lia|]. clear Htk.
  intros d3 Htk. eapply wp_register; [exact Htk|lia|]. clear Htk. intros d4 Htk. eapply wp_register; [exact Htk|lia|]. clear Htk.
  intros d5 Htk. eapply wp_register; [exact Htk|lia|]. clear Htk. intros d6 [Hbusy Hregs Hfree Hsec].
  unfold set_reg in Hregs. cbn [Z.eqb Pos.eqb t_count t_l0 t_l1 t_l2 t_head] in Hregs. change (u8 1) with 1 in Hregs.
  destruct (lba_regs (b_blockno x) (b_dev x) Hb) as [Hdr Hlba]. rewrite <- Hregs in Hdr, Hlba.
  assert (t_count (regs d6) = 1) as Hcnt by by rewrite Hregs.
  unfold begun, dirty, drive in HQ. destruct (Z.land (b_flags x) B_DIRTY =? 0); cbn [negb] in HQ |- *.
  - rewrite wp_out_b. cbn [ports sp]. change (u8 IDE_CMD_READ) with 0x20. destruct (ata_read d6 Hbusy Hcnt Hfree) as [Hp Hse].
    apply HQ. rewrite Hp, Hdr, Hlba. split; [done|]. intros dr n. by rewrite Hse.
  - rewrite wp_bind, wp_out_b. cbn [ports sp]. change (u8 IDE_CMD_WRITE) with 0x30. destruct (ata_write d6 Hbusy Hcnt Hfree) as [Hp Hse].
    rewrite wp_out_sl. cbn [ports sp]. rewrite Hdr, Hlba in Hp. destruct (ata_out (b_data x) _ _ _ Hp Hl) as [Hp' Hse'].
    apply HQ. split; [done|]. intros dr n. rewrite Hse', Hse. unfold set_sector. by rewrite Hsec.
Qed.

(** ** Submitting *)

Lemma queue_end_spec q fuel pp Q s :
  (exists o, (match pp with None => o = idequeue s | Some b => qnexts s !! b = Some o end) /\ chain (qnexts s) o q) ->
  (length q < fuel)%nat -> Q (match last q with Some b => Some b | None => pp end) s -> wp (queue_end fuel pp) Q s.
Proof.
  revert fuel pp. induction q as [|a q IH]; intros [|fuel] pp (o & Hpp & Hc) Hf HQ; [cbn in Hf; lia..| |cbn in Hf; lia|]; cbn [queue_end].
  - cbn in Hc. subst o. rewrite wp_bind. destruct pp as [b|]; cbn [load]; [eapply wp_getq; [done|]|rewrite wp_gets, <- Hpp]; by rewrite wp_ret.
  - destruct Hc as (-> & n & Hn & Hc). assert (wp (queue_end fuel (Some a)) Q s) as Hnext.
    { apply IH; [by exists n|cbn in Hf; lia|]. rewrite last_cons in HQ. by destruct (last q). }
    rewrite wp_bind. destruct pp as [b|]; cbn [load]; [by eapply wp_getq|by rewrite wp_gets, <- Hpp].
Qed.

Lemma chain_snoc qs o q b :
  chain qs o q -> NoDup (q ++ [b]) -> qs !! b = Some None ->
  match last q with Some a => chain (<[a := Some b]> qs) o (q ++ [b]) | None => o = None end.
Proof.
  revert o. induction q as [|a q IH]; intros o Hc Hn Hb; [done|]. cbn [app] in Hn. apply NoDup_cons in Hn as [Ha Hn].
  destruct Hc as (-> & n & Hn1 & Hc). specialize (IH n Hc Hn Hb). rewrite last_cons. apply lookup_lt_Some in Hn1 as Hlt.
  apply not_elem_of_app in Ha as [Ha1 Ha2]. apply not_elem_of_cons in Ha2 as [Hab _]. destruct (last q) as [z|] eqn:El.
  - cbn [app chain]. split; [done|]. exists n. split; [|done]. apply last_Some in El as [q' ->].
    rewrite list_lookup_insert_ne; [done|]. intros ->. apply Ha1, elem_of_app. right. apply list_elem_of_here.
  - apply last_None in El as ->. cbn in Hc. cbn [app chain]. split; [done|]. exists (Some b). rewrite list_lookup_insert_eq by done.
    split; [done|]. split; [done|]. exists None. by rewrite list_lookup_insert_ne.
Qed.

Lemma queue_fits f : NoDup (fq f) -> (forall b, b ∈ fq f -> exists x pid, fbufs f !! b = Some x /\ request pid x) ->
  (length (fq f) <= length (fbufs f))%nat.
Proof.
  intros Hn Hr. rewrite <- (length_seq (length (fbufs f)) 0). apply submseteq_length, NoDup_submseteq; [done|].
  intros b Hb. destruct (Hr b Hb) as (x & _ & Hx & _). apply lookup_lt_Some in Hx. apply elem_of_seq. lia.
Qed.

Lemma wait_more b x Q s : ibufs s !! b = Some x -> Z.land (b_flags x) (Z.lor B_VALID B_DIRTY) <> B_VALID ->
  Q false (mkide (ibufs s) (qnexts s) (idequeue s) (havedisk1 s) ({[b]} ∪ asleep s) (ports s)) -> wp (wait_done b) Q s.
Proof.
  intros Hx Hf HQ. unfold wait_done, sleep. rewrite wp_bind. eapply wp_getb; [done|].
  destruct (Z.eqb_spec (Z.land (b_flags x) (Z.lor B_VALID B_DIRTY)) B_VALID); [done|]. cbn [negb]. by rewrite wp_bind, wp_modify, wp_ret.
Qed.

Lemma submit_spec pid b x s f :
  rep s f -> fbufs f !! b = Some x -> request pid x -> b ∉ fq f ->
  wp (iderw patience pid b) (fun r s' => r = false /\ rep s' (f_submit b f) /\ asleep s' = {[b]} ∪ asleep s) s.
Proof.
  intros Hrep Hx Hrq Hb. pose proof Hrep as [Hbufs Hd1 Hlen Hch Hnd Hreq Hdev]. pose proof Hrq as [[Hl1 Hl2] Hw Hblk Hdat].
  apply lookup_lt_Some in Hx as Hlt. rewrite <- Hbufs in Hlt, Hx. destruct (lookup_lt_is_Some_2 (qnexts s) b) as [n0 Hn0]; [lia|].
  assert (NoDup (fq f ++ [b])) as Hnd' by (apply NoDup_app; split; [done|]; split; [|apply NoDup_singleton]; intros a Ha ->%list_elem_of_singleton; done).
  assert (forall a, a ∈ fq f ++ [b] -> exists y p, fbufs f !! a = Some y /\ request p y) as Hreq'.
  { intros a [Ha| ->%list_elem_of_singleton]%elem_of_app; [by apply Hreq|]. exists x, pid. by rewrite <- Hbufs. }
  unfold iderw. rewrite wp_bind. eapply wp_getb; [done|]. destruct (Z.eqb_spec (b_locked x) 0); [done|]. rewrite Hl2, Z.eqb_refl. cbn [negb andb].
  destruct (Z.eqb_spec (Z.land (b_flags x) (Z.lor B_VALID B_DIRTY)) B_VALID); [done|]. rewrite wp_bind, wp_gets.
  destruct (Z.eqb_spec (havedisk1 s) 0); [done|]. rewrite andb_false_r, wp_bind. eapply wp_setq; [done|]. rewrite wp_bind, wp_gets. cbn [ibufs].
  set (qs := <[b := None]> (qnexts s)). assert (chain qs (idequeue s) (fq f)) as Hch1 by by apply chain_other.
  assert (qs !! b = Some None) as Hqb by (apply list_lookup_insert_eq; lia). assert (length qs = length (ibufs s)) as Hql by (unfold qs; by rewrite length_insert).
  rewrite wp_bind. eapply (queue_end_spec (fq f)); [by exists (idequeue s)|rewrite Hbufs; pose proof (queue_fits f Hnd Hreq); lia|].
  pose proof (chain_snoc qs (idequeue s) (fq f) b Hch1 Hnd' Hqb) as Hsn. rewrite wp_bind.
  destruct (last (fq f)) as [a|] eqn:El; cbn [store].
  - apply last_Some in El as [q1 El]. assert (a ∈ fq f) as Ha by (rewrite El; apply elem_of_app; right; apply list_elem_of_here).
    destruct (Hreq a Ha) as (y & _ & Hy & _). apply lookup_lt_Some in Hy. rewrite <- Hbufs in Hy.
    destruct (lookup_lt_is_Some_2 qs a) as [m1 Hm1]; [lia|]. eapply wp_setq; [exact Hm1|]. rewrite wp_bind, wp_gets. cbn [idequeue].
    destruct (fq f) as [|h q] eqn:Eq; [by destruct q1|]. destruct Hch as [Hh _]. rewrite Hh.
    rewrite bool_decide_eq_false_2 by (intros [= ->]; apply Hb, list_elem_of_here). cbn [when]. rewrite wp_bind, wp_ret.
    eapply wait_more; [exact Hx|done|]. split; [done|]. split; [|done]. rewrite Hh in Hsn. unfold f_submit. rewrite Eq.
    split; cbn [ibufs qnexts idequeue havedisk1 ports fq fdisk fbufs]; [done|done|by rewrite length_insert|done|done|done|exact Hdev].
  - apply last_None in El. rewrite El in *. unfold set_queue. rewrite wp_modify. rewrite wp_bind, wp_gets. cbn [idequeue].
    rewrite bool_decide_eq_true_2 by done. cbn [when]. rewrite wp_bind. destruct Hdev as [Hfr Hsec].
    eapply (idestart_spec b x pid (fdisk f)); [exact Hx|done|exact Hfr|exact Hsec|]. intros d Hbg. cbn [sp].
    eapply wait_more; [exact Hx|done|]. split; [done|]. split; [|done]. unfold f_submit. rewrite El.
    split; cbn [ibufs qnexts idequeue havedisk1 ports fq fdisk fbufs sp app]; try done.
    + split; [done|]. by exists None.
    + exists x. by rewrite <- Hbufs.
Qed.

(** ** The interrupt *)

(** The part of [ideintr] that gets the data: the device is free, the disk is as it should be. *)
Lemma collect_spec {B} b x pid dk (k : M (ide D) B) Q s :
  ibufs s !! b = Some x -> request pid x -> begun (ports s) x dk ->
  (forall d, transfer d = Free -> (forall dr n, sector d dr n = stored_by dk x dr n) ->
     wp k Q (mkide (<[b := if dirty x then x else set_b_data (dk (drive x) (b_blockno x)) x]> (ibufs s))
       (qnexts s) (idequeue s) (havedisk1 s) (asleep s) d)) ->
  wp (do! when (Z.land (b_flags x) B_DIRTY =? 0)
        (let! r := idewait patience true in
         when (r >=? 0) (let! l := in_sl 0x1f0 (BSIZE / 4) in setb b (set_b_data l)));
      k) Q s.
Proof.
  intros Hx Hrq Hbg HQ. rewrite wp_bind. unfold begun, stored_by, dirty in *. destruct (Z.land (b_flags x) B_DIRTY =? 0); cbn [negb when] in *; destruct Hbg as [Ht Hs].
  - rewrite wp_bind. apply idewait_spec. intros d Hb Ht' Hs'. cbn [Z.geb Z.compare when]. change (BSIZE / 4)%nat with 128%nat.
    rewrite wp_bind, wp_in_sl. cbn [ports sp]. rewrite Ht in Ht'. pose proof (ata_in d _ _ Ht' Hb) as Hin. destruct (insl 0x1f0 128 d) as [l d1].
    destruct Hin as (-> & Hf & Hse). eapply wp_setb; [exact Hx|]. cbn [ibufs qnexts idequeue havedisk1 asleep ports sp].
    rewrite Hs', Hs. apply HQ; [done|]. intros dr n. by rewrite Hse, Hs'.
  - rewrite wp_ret. specialize (HQ (ports s) Ht Hs). rewrite (list_insert_id _ _ _ Hx) in HQ. by destruct s.
Qed.

Lemma intr_spec s f :
  rep s f -> wp (ideintr patience) (fun _ s' => rep s' (f_serve f) /\
    asleep s' = match fq f with [] => asleep s | b :: _ => asleep s ∖ {[b]} end) s.
Proof.
  intros Hrep. pose proof Hrep as [Hbufs Hd1 Hlen Hch Hnd Hreq Hdev]. unfold ideintr. rewrite wp_bind, wp_gets. unfold f_serve.
  destruct (fq f) as [|b q] eqn:Eq.
  { cbn in Hch. rewrite Hch. by rewrite wp_ret. }
  destruct Hch as (Hh & n & Hn & Hch). rewrite Hh. destruct Hdev as (x & Hx & Hbg). rewrite Hx. apply NoDup_cons in Hnd as [Hbq Hnd].
  destruct (Hreq b (list_elem_of_here _ _)) as (x' & pid & Hx' & Hrq). simplify_eq. rewrite <- Hbufs in Hx. apply lookup_lt_Some in Hx as Hlt.
  rewrite wp_bind. eapply wp_getq; [done|]. unfold set_queue. rewrite wp_bind, wp_modify, wp_bind. eapply wp_getb; [exact Hx|].
  eapply (collect_spec b x pid (fdisk f)); [exact Hx|done|exact Hbg|]. intros d Hfr Hsec. cbn [ibufs qnexts idequeue havedisk1 asleep ports].
  rewrite wp_bind. eapply wp_setb; [by apply list_lookup_insert_eq|]. cbn [ibufs qnexts idequeue havedisk1 asleep ports]. rewrite list_insert_insert_eq.
  rewrite wp_bind. eapply wp_setb; [by apply list_lookup_insert_eq|]. cbn [ibufs qnexts idequeue havedisk1 asleep ports]. rewrite list_insert_insert_eq.
  unfold wakeup. rewrite wp_bind, wp_modify, wp_bind, wp_gets. cbn [ibufs qnexts idequeue havedisk1 asleep ports].
  match goal with |- context [<[b := ?y]> (ibufs s)] => assert (y = served (fdisk f) x) as -> by (unfold served; by destruct (dirty x)) end.
  rewrite Hbufs in *. set (bs := <[b := _]> (fbufs f)). assert (length (qnexts s) = length bs) as Hlen' by (unfold bs; by rewrite length_insert).
  assert (forall a, a ∈ q -> exists y p, bs !! a = Some y /\ request p y) as Hreq'.
  { intros a Ha. destruct (Hreq a (list_elem_of_further _ _ _ Ha)) as (y & p & Hy & Hp). exists y, p. unfold bs.
    rewrite list_lookup_insert_ne by (intros ->; done). done. }
  destruct q as [|a q].
  - cbn in Hch. subst n. rewrite wp_ret. split; [|done]. by split.
  - destruct Hch as (-> & m & Hm & Hch). destruct (Hreq' a (list_elem_of_here _ _)) as (y & p & Hy & Hp).
    eapply (idestart_spec a y p (stored_by (fdisk f) x)); [exact Hy|done|exact Hfr|exact Hsec|]. intros d1 Hbg1. cbn [sp].
    split; [|done]. split; try done; cbn [ibufs qnexts idequeue havedisk1 asleep ports fq fdisk fbufs].
    + split; [done|]. by exists m.
    + by exists y.
Qed.

(** ** Starting the driver *)

Lemma probe_spec n Q s : (0 < n)%nat -> busy (ports s) = 0%nat ->
  (forall d, busy d = 0%nat -> transfer d = transfer (ports s) -> sector d = sector (ports s) ->
     Q tt (mkide (ibufs s) (qnexts s) (idequeue s) 1 (asleep s) d)) -> wp (probe n) Q s.
Proof.
  intros Hn Hb HQ. destruct n as [|n]; [lia|]. cbn [probe]. rewrite wp_bind, wp_in_b. pose proof (ata_status (ports s)) as Hst.
  destruct (inb 0x1f7 (ports s)) as [st d]. destruct Hst as (_ & Ht & Hs & Hx). rewrite Hb in Hx. cbn [Nat.eqb] in Hx. destruct Hx as (Hb' & Hst & _).
  destruct (Z.eqb_spec st 0) as [->|_]; [done|]. cbn [negb]. unfold set_havedisk1. rewrite wp_modify. by apply HQ.
Qed.

Lemma ideinit_spec (ioapicenable : Z -> Z -> M (ide D) unit) ncpu s bs :
  (forall i c t, ioapicenable i c t = Ok (tt, t)) -> ibufs s = bs -> length (qnexts s) = length bs -> idequeue s = None -> transfer (ports s) = Free ->
  wp (ideinit patience ncpu ioapicenable) (fun _ s' => rep s' (mkfifo [] (sector (ports s)) bs) /\ asleep s' = asleep s) s.
Proof.
  intros Hio Hbs Hq Hi Hf. unfold ideinit. rewrite wp_bind. apply wp_Ok. exists tt, s. split; [apply Hio|].
  rewrite wp_bind. apply idewait_spec. intros d Hb Ht Hs. rewrite wp_bind, wp_out_b. cbn [ports sp].
  destruct (ata_register 0x1f6 (u8 (Z.lor 0xe0 (Z.shiftl 1 4))) d Hb ltac:(lia)) as (B1 & T1 & S1 & _).
  rewrite wp_bind. apply probe_spec; [lia|done|]. cbn [ports sp]. intros d2 B2 T2 S2. rewrite wp_out_b. cbn [ports sp].
  destruct (ata_register 0x1f6 (u8 (Z.lor 0xe0 (Z.shiftl 0 4))) d2 B2 ltac:(lia)) as (B3 & T3 & S3 & _).
  split; [|done]. split; cbn [ibufs qnexts idequeue havedisk1 ports fq fdisk fbufs sp]; try done; try congruence.
  - constructor.
  - intros b Hb'. by apply elem_of_nil in Hb'.
  - split; [congruence|]. intros dr n. congruence.
Qed.

(** ** Sequences of events *)

Inductive event := Submit (pid : Z) (b : nat) | Interrupt | Resume (b : nat).

Definition run1 (e : event) : M (ide D) (option bool) :=
  match e with
  | Submit pid b => let! r := iderw patience pid b in ret (Some r)
  | Interrupt => do! ideintr patience; ret None
  | Resume b => let! r := wait_done b in ret (Some r)
  end.
Fixpoint run (es : list event) : M (ide D) (list (option bool)) :=
  match es with
  | [] => ret []
  | e :: es => let! r := run1 e in let! rs := run es in ret (r :: rs)
  end.
End driver.

Definition is_done (x : buf) : bool := Z.land (b_flags x) (Z.lor B_VALID B_DIRTY) =? B_VALID.

(** What the callers may do, and what they see: the call sleeps, and ends once its request was served. *)
Definition legal (e : event) (f : fifo) : Prop :=
  match e with
  | Submit pid b => b ∉ fq f /\ exists x, fbufs f !! b = Some x /\ request pid x
  | Interrupt => True
  | Resume b => exists x, fbufs f !! b = Some x /\ (b ∈ fq f \/ is_done x = true)
  end.
Definition f_event (e : event) (f : fifo) : option bool * fifo :=
  match e with
  | Submit _ b => (Some false, f_submit b f)
  | Interrupt => (None, f_serve f)
  | Resume b => (is_done <$> fbufs f !! b, f)
  end.
Fixpoint f_run (es : list event) (f : fifo) : list (option bool) * fifo :=
  match es with
  | [] => ([], f)
  | e :: es => let '(r, f) := f_event e f in let '(rs, f) := f_run es f in (r :: rs, f)
  end.
Fixpoint legal_run (es : list event) (f : fifo) : Prop :=
  match es with [] => True | e :: es => legal e f /\ legal_run es (f_event e f).2 end.

(** Served requests are done. *)
Lemma served_done dk x : is_done (served dk x) = true.
Proof.
  unfold is_done, served. apply Z.eqb_eq. cbn [b_flags set_b_flags]. apply Z.bits_inj'. intros k Hk.
  rewrite !Z.land_spec, Z.lnot_spec, !Z.lor_spec by lia. unfold B_VALID, B_DIRTY.
  destruct (Z.testbit (b_flags x) k), (Z.testbit 2 k) eqn:E2, (Z.testbit 4 k) eqn:E4; try done.
  all: pose proof (Z.land_spec 2 4 k) as E; rewrite E2, E4 in E; by rewrite Z.bits_0 in E.
Qed.

Section events.
Context {D : Type} `{BlockPorts D} (patience : nat) `{!Ata D patience}.

(** The processes asleep are those whose request is queued. *)
Definition waiting (s : ide D) (f : fifo) : Prop := rep patience s f /\ asleep s = list_to_set (fq f).

Lemma resume_spec b x s f : waiting s f -> fbufs f !! b = Some x -> b ∈ fq f \/ is_done x = true ->
  wp (wait_done b) (fun r s' => r = is_done x /\ waiting s' f) s.
Proof.
  intros [Hrep Ha] Hx Hb. pose proof Hx as Hx'. rewrite <- (rp_bufs _ _ _ Hrep) in Hx'. unfold wait_done, sleep. rewrite wp_bind. eapply wp_getb; [exact Hx'|].
  change (Z.land (b_flags x) (Z.lor B_VALID B_DIRTY) =? B_VALID) with (is_done x). destruct (is_done x) eqn:Ed; cbn [negb]; [by rewrite wp_ret|].
  destruct Hb as [Hb|?]; [|done]. rewrite wp_bind, wp_modify, wp_ret. split; [done|]. split; [by destruct Hrep|]. cbn [asleep]. set_solver.
Qed.

Lemma event_spec e s f : waiting s f -> legal e f ->
  wp (run1 patience e) (fun r s' => r = (f_event e f).1 /\ waiting s' (f_event e f).2) s.
Proof.
  intros Hw Hl. pose proof Hw as [Hrep Ha]. destruct e as [pid b| |b]; cbn [run1 legal f_event fst snd] in *; rewrite wp_bind.
  - destruct Hl as (Hb & x & Hx & Hrq). eapply wp_mono; [by eapply submit_spec|]. intros r s' (-> & Hr & Hs). rewrite wp_ret. split; [done|].
    split; [done|]. rewrite Hs, Ha. cbn [f_submit fq]. set_solver.
  - eapply wp_mono; [by eapply intr_spec|]. intros [] s' (Hr & Hs). rewrite wp_ret. split; [done|]. split; [done|]. rewrite Hs, Ha.
    pose proof (rp_nodup _ _ _ Hrep) as Hnd. pose proof (rp_req _ _ _ Hrep) as Hreq. unfold f_serve. destruct (fq f) as [|b q] eqn:Eq; [by rewrite Eq|].
    apply NoDup_cons in Hnd as [Hb _]. destruct (Hreq b (list_elem_of_here _ _)) as (x & ? & -> & _). cbn [fq]. set_solver.
  - destruct Hl as (x & Hx & Hb). eapply wp_mono; [by eapply resume_spec|]. intros r s' (-> & Hs). rewrite wp_ret, Hx. done.
Qed.

End events.

(** * A controller *)

Record sim := mksim { sim_busy : bool; sim_regs : taskfile; sim_transfer : phase; sim_sector : disks }.
(** [e] tells whether the controller reports an error. *)
Definition simulated (e : bool) : Type := sim.

Definition sim_command (v : Z) (d : sim) : sim :=
  let t := sim_regs d in
  if v =? IDE_CMD_READ then mksim true t (Data_in (drive_of t) (lba_of t)) (sim_sector d)
  else mksim false t (Data_out (drive_of t) (lba_of t)) (sim_sector d).

#[export] Instance sim_ports e : Ports (simulated e) := {
  inb p d := if p =? 0x1f7
    then (if sim_busy d then IDE_BSY else Z.lor IDE_DRDY (if e then IDE_ERR else 0), mksim false (sim_regs d) (sim_transfer d) (sim_sector d))
    else (0, d);
  outb p v d := if p =? 0x1f7 then sim_command v d
    else if (0x1f2 <=? p) && (p <=? 0x1f6) then mksim (sim_busy d) (set_reg p v (sim_regs d)) (sim_transfer d) (sim_sector d)
    else d
}.
#[export] Instance sim_blocks e : BlockPorts (simulated e) := {
  insl p n d := match sim_transfer d with
    | Data_in dr k => (sim_sector d dr k, mksim false (sim_regs d) Free (sim_sector d))
    | _ => ([], d)
    end;
  outsl p l d := match sim_transfer d with
    | Data_out dr k => mksim true (sim_regs d) Free (set_sector (sim_sector d) dr k l)
    | _ => d
    end
}.

#[export] Program Instance sim_ata : Ata (simulated false) 2 := {
  busy d := if sim_busy d then 1%nat else 0%nat;
  regs := sim_regs;
  transfer := sim_transfer;
  sector := sim_sector
}.
Next Obligation. intros d. cbn. destruct (sim_busy d); lia. Qed.
Next Obligation. intros [[] t p k]; cbn; repeat split; (lia || discriminate || done). Qed.
Next Obligation. by intros v [[] t p k]. Qed.
Next Obligation.
  intros k v [[] t p q] Hb Hk; [done|]. cbn. destruct (Z.eqb_spec k 503); [lia|].
  destruct (Z.leb_spec 498 k), (Z.leb_spec k 502); (done || lia).
Qed.
Next Obligation. by intros [[] t p k]. Qed.
Next Obligation. by intros [[] t p k]. Qed.
Next Obligation. intros l [b t p k] dr n Ht Hl. cbn in *. by rewrite Ht. Qed.
Next Obligation. intros [b t p k] dr n Ht Hb. cbn in *. by rewrite Ht. Qed.

Definition sector7 : list Z := replicate BSIZE 7.
Definition two_bufs : list buf := [mkbuf B_DIRTY 1 5 1 3 1 sector7; mkbuf 0 1 5 1 4 1 (replicate BSIZE 0)].
Definition sim0 : sim := mksim false (mktask 0 0 0 0 0) Free (fun _ _ => replicate BSIZE 1).
Definition ide0 e : ide (simulated e) := mkide two_bufs [None; None] None 0 ∅ sim0.
Definition disk0 : fifo := mkfifo [] (sim_sector sim0) two_bufs.

(** The driver initialised on this controller: process 3 writes block 5, process 4 reads it. *)
Definition write_then_read : list event := [Submit 3 0; Submit 4 1; Resume 1; Interrupt; Resume 0; Resume 1; Interrupt; Resume 1].

Lemma write_then_read_legal : legal_run write_then_read disk0.
Proof.
  assert (forall pid x, In (pid, x) [(3, mkbuf B_DIRTY 1 5 1 3 1 sector7); (4, mkbuf 0 1 5 1 4 1 (replicate BSIZE 0))] -> request pid x) as Hrq.
  { intros pid x [E|[E|[]]]; injection E as <- <-; by split. }
  cbn [legal_run write_then_read legal f_event snd]. repeat split.
  - apply not_elem_of_nil.
  - eexists. split; [reflexivity|]. apply Hrq. by left.
  - cbn. set_solver.
  - eexists. split; [reflexivity|]. apply Hrq. right. by left.
  - eexists. split; [reflexivity|]. left. cbn. set_solver.
  - eexists. split; [reflexivity|]. by right.
  - eexists. split; [reflexivity|]. left. cbn. set_solver.
  - eexists. split; [reflexivity|]. by right.
Qed.


(** On a controller that reports an error for each command, the interrupt still marks the buffer
    valid, with the bytes it held before: the caller of [iderw] returns as if it had been read. *)
Lemma ideintr_ignores_error :
  exists s, (do! iderw 2 4 1; do! ideintr 2; wait_done 1) (mkide two_bufs [None; None] None 1 ∅ sim0 : ide (simulated true)) = Ok (true, s) /\
    b_data <$> ibufs s !! 1%nat = Some (replicate BSIZE 0) /\ sim_sector (ports s) 1 5 = replicate BSIZE 1.
Proof. eexists. split; [vm_compute; reflexivity|]. by split. Qed.
