(* ===== verification/Boot.v ===== *)
(** The boot loader ([bootmain.c]).

    The memory is byte memory, the disk a controller as in [IdeProps.v].  [bootmain] ends in the
    call of the kernel's entry point, here its result, or returns to [bootasm.S].  The polling
    loop of [waitdisk] takes the fuel [patience]; the loops over sectors and program headers
    take fuel for all their iterations. *)

From S2P Require Import Prelude CString Mem USys ProcDefs Console Bio Ide IdeProps.

Record bootst (D : Type) := mkboot { bmem : mem; bdev : D }.
Arguments mkboot {D} bmem bdev.
Arguments bmem {D} b.
Arguments bdev {D} b.

Module Boot.

Definition SECTSIZE : Z := 512.
Definition ELF_MAGIC : Z := 0x464C457F.

(** The fields of [struct elfhdr] and [struct proghdr] that are read. *)
Definition load16 (m : mem) (a : Z) : Z := m a + 2 ^ 8 * m (a + 1).
Definition elf_magic (m : mem) (elf : Z) : Z := load32 m elf.
Definition elf_entry (m : mem) (elf : Z) : Z := load32 m (elf + 24).
Definition elf_phoff (m : mem) (elf : Z) : Z := load32 m (elf + 28).
Definition elf_phnum (m : mem) (elf : Z) : Z := load16 m (elf + 44).
Definition PROGHDR : Z := 32.
Definition ph_off (m : mem) (ph : Z) : Z := load32 m (ph + 4).
Definition ph_paddr (m : mem) (ph : Z) : Z := load32 m (ph + 12).
Definition ph_filesz (m : mem) (ph : Z) : Z := load32 m (ph + 16).
Definition ph_memsz (m : mem) (ph : Z) : Z := load32 m (ph + 20).

(** Bytes copied to memory. *)
Definition copy_in (a : Z) (l : list Z) (m : mem) : mem :=
  fun b => if (a <=? b) && (b <? a + Z.of_nat (length l)) then byte_at l (Z.to_nat (b - a)) else m b.

Section loader.
Context {D : Type} `{BlockPorts D} (patience : nat).
Abbreviation B := (M (bootst D)).

Definition in_b (p : Z) : B Z :=
  let! s := get in let '(v, d) := inb p (bdev s) in do! modify (fun s => mkboot (bmem s) d); ret v.
Definition out_b (p v : Z) : B unit := modify (fun s => mkboot (bmem s) (outb p (u8 v) (bdev s))).
Definition in_sl (p dst : Z) (n : nat) : B unit :=
  let! s := get in let '(l, d) := insl p n (bdev s) in modify (fun s => mkboot (copy_in dst l (bmem s)) d).

Fixpoint waitdisk_loop (fuel : nat) : B unit :=
  match fuel with
  | O => nofuel
  | S fuel => let! r := in_b 0x1F7 in if negb (Z.land r 0xC0 =? 0x40) then waitdisk_loop fuel else ret tt
  end.
Definition waitdisk : B unit := waitdisk_loop patience.

Definition readsect (dst offset : Z) : B unit :=
  do! waitdisk;
  do! out_b 0x1F2 1;
  do! out_b 0x1F3 offset;
  do! out_b 0x1F4 (Z.shiftr offset 8);
  do! out_b 0x1F5 (Z.shiftr offset 16);
  do! out_b 0x1F6 (Z.lor (Z.shiftr offset 24) 0xE0);
  do! out_b 0x1F7 0x20;
  do! waitdisk;
  in_sl 0x1F0 dst (Z.to_nat (SECTSIZE / 4)).

Fixpoint readseg_loop (fuel : nat) (pa epa offset : Z) : B unit :=
  match fuel with
  | O => nofuel
  | S fuel =>
      if pa <? epa then do! readsect pa offset; readseg_loop fuel (u32 (pa + SECTSIZE)) epa (u32 (offset + 1))
      else ret tt
  end.
Definition readseg (pa count offset : Z) : B unit :=
  let epa := u32 (pa + count) in
  let pa := u32 (pa - offset mod SECTSIZE) in
  let offset := offset / SECTSIZE + 1 in
  readseg_loop (S (Z.to_nat ((epa - pa + SECTSIZE - 1) / SECTSIZE))) pa epa offset.

Fixpoint load_loop (fuel : nat) (ph eph : Z) : B unit :=
  match fuel with
  | O => nofuel
  | S fuel =>
      if negb (ph <? eph) then ret tt else
      let! s := get in
      let pa := ph_paddr (bmem s) ph in
      do! readseg pa (ph_filesz (bmem s) ph) (ph_off (bmem s) ph);
      let! m := gets bmem in
      do! when (ph_memsz m ph >? ph_filesz m ph)
        (modify (fun s => mkboot (CString.stosb (u32 (pa + ph_filesz m ph)) 0 (Z.to_nat (ph_memsz m ph - ph_filesz m ph)) (bmem s)) (bdev s)));
      load_loop fuel (u32 (ph + PROGHDR)) eph
  end.

(** The entry point called, [None] for the return. *)
Definition bootmain : B (option Z) :=
  let elf := 0x10000 in
  do! readseg elf 4096 0;
  let! m := gets bmem in
  if negb (elf_magic m elf =? ELF_MAGIC) then ret None else
  let ph := u32 (elf + elf_phoff m elf) in
  let eph := u32 (ph + PROGHDR * elf_phnum m elf) in
  do! load_loop (S (Z.to_nat (elf_phnum m elf))) ph eph;
  let! m := gets bmem in
  ret (Some (elf_entry m elf)).
End loader.
End Boot.
