(* ===== verification/BootProps.v ===== *)
(** The boot loader leaves every segment of the kernel in memory, and jumps to its entry point. *)

From S2P Require Import Prelude CString Mem USys ProcDefs Console Bio Ide IdeProps Boot.
Import Boot.

(** Byte [i] of the kernel, which starts at sector 1 of drive 0. *)
Definition kernel (dk : disks) : mem := fun i => byte_at (dk 0 (1 + i / 512)) (Z.to_nat (i mod 512)).

(** [m'] is [m] with the bytes from [a] to [b] those of the kernel from [o] on. *)
Definition copied (dk : disks) (a b o : Z) (m m' : mem) : Prop :=
  forall x, m' x = if decide (a <= x < b) then kernel dk (o + (x - a)) else m x.

(** The bytes [readseg] writes. *)
Definition seg_start (pa off : Z) : Z := pa - off mod 512.
Definition seg_end (pa count off : Z) : Z := seg_start pa off + 512 * ((count + off mod 512 + 511) / 512).

Lemma kernel_sector dk k x : 0 <= x < 512 -> kernel dk (512 * k + x) = byte_at (dk 0 (1 + k)) (Z.to_nat x).
Proof.
  intros Hx. unfold kernel. rewrite (Z.mul_comm 512 k), Z.div_add_l, Z.div_small, Z.add_0_r by lia.
  by rewrite (Z.add_comm (k * 512)), Z.mod_add, Z.mod_small by lia.
Qed.

Lemma copied_snoc dk a b o m m1 m2 :
  copied dk a b o m m1 -> a <= b -> copied dk b (b + 512) (o + (b - a)) m1 m2 -> copied dk a (b + 512) o m m2.
Proof.
  intros H1 Hab H2 x. rewrite H2. case_decide.
  - rewrite decide_True by lia. f_equal. lia.
  - rewrite H1. case_decide; [by rewrite decide_True by lia|by rewrite decide_False by lia].
Qed.

Lemma head_bits h : 0 <= h < 16 -> Z.land (Z.shiftr (u8 (Z.lor h 0xE0)) 4) 1 = 0 /\ Z.land (u8 (Z.lor h 0xE0)) 15 = u8 h.
Proof. intros Hh. assert (h ∈ seqZ 0 16) as Hin by (apply elem_of_seqZ; lia). clear Hh. revert h Hin. apply Forall_forall. by repeat constructor. Qed.

(** The registers name sector [n] of drive 0. *)
Lemma lba28 n : 0 <= n < 2 ^ 28 ->
  let t := mktask (u8 1) (u8 n) (u8 (Z.shiftr n 8)) (u8 (Z.shiftr n 16)) (u8 (Z.lor (Z.shiftr n 24) 0xE0)) in
  drive_of t = 0 /\ lba_of t = n.
Proof.
  intros Hn t. set (h := Z.shiftr n 24). assert (0 <= h < 16) as Hh.
  { unfold h. rewrite Z.shiftr_div_pow2 by lia. split; [apply Z.div_pos; lia|apply Z.div_lt_upper_bound; lia]. }
  destruct (head_bits h Hh) as [E1 E2].
  unfold drive_of, lba_of, t. cbn [t_head t_l0 t_l1 t_l2]. split; [exact E1|]. fold h. rewrite E2. unfold h. rewrite word_bytes. apply u32_small. lia.
Qed.

Section loader.
Context {D : Type} `{BlockPorts D} (patience : nat) `{!Ata D patience}.
Implicit Types (s : bootst D) (d : D).

(** Nothing is in transfer, and the disks are [dk]. *)
Definition quiet d (dk : disks) : Prop := transfer d = Free /\ forall dr n, sector d dr n = dk dr n.

Lemma waitdisk_loop_spec fuel Q s :
  (busy (bdev s) < fuel)%nat ->
  (forall d, busy d = 0%nat -> transfer d = transfer (bdev s) -> sector d = sector (bdev s) -> Q tt (mkboot (bmem s) d)) ->
  wp (waitdisk_loop fuel) Q s.
Proof.
  revert s. induction fuel as [|fuel IH]; intros s Hf HQ; [lia|]. cbn [waitdisk_loop]. unfold in_b. rewrite !wp_bind, wp_get.
  pose proof (ata_status (bdev s)) as Hst. destruct (inb 0x1f7 (bdev s)) as [r d]. destruct Hst as (_ & Ht & Hs & Hb).
  rewrite wp_bind, wp_modify, wp_ret. destruct (Nat.eqb_spec (busy (bdev s)) 0) as [_|Hn]; destruct Hb as [Hb1 Hb2].
  - destruct Hb2 as [-> Hr]. cbn [negb Z.eqb Pos.eqb]. rewrite wp_ret. by apply HQ.
  - destruct (Z.eqb_spec (Z.land r 0xc0) 0x40); [done|]. cbn [negb]. apply IH; [cbn [bdev]; lia|].
    cbn [bmem bdev]. intros d' Hb' Ht' Hs'. apply HQ; [done|congruence|congruence].
Qed.

Lemma wp_reg {B} k v t dk (p : M (bootst D) B) Q m d :
  takes patience d t dk -> 0x1f2 <= k <= 0x1f6 -> (forall d, takes patience d (set_reg k (u8 v) t) dk -> wp p Q (mkboot m d)) ->
  wp (do! out_b k v; p) Q (mkboot m d).
Proof.
  intros [Hb Hr Hf Hs] Hk HQ. unfold out_b. rewrite wp_bind, wp_modify. cbn [bmem bdev]. destruct (ata_register k (u8 v) d Hb Hk) as (B1 & T1 & S1 & R1).
  apply HQ. split; [done|by rewrite R1, Hr|by rewrite T1|intros; by rewrite S1].
Qed.

Lemma readsect_spec dst n dk Q s :
  quiet (bdev s) dk -> 0 <= n < 2 ^ 28 -> (forall n, length (dk 0 n) = 512%nat) ->
  (forall d m, quiet d dk -> copied dk dst (dst + 512) (512 * (n - 1)) (bmem s) m -> Q tt (mkboot m d)) ->
  wp (readsect patience dst n) Q s.
Proof.
  intros [Hf Hs] Hn Hlen HQ. unfold readsect, waitdisk. rewrite wp_bind. apply waitdisk_loop_spec; [apply busy_ends|]. intros d0 B0 T0 S0.
  assert (exists t, takes patience d0 t dk) as [t Htk] by (exists (regs d0); split; [done|done|congruence|intros; by rewrite S0]).
  do 5 (eapply wp_reg; [exact Htk|lia|]; clear dependent d0; intros d0 Htk). destruct Htk as [B1 R1 F1 S1]. cbn in R1.
  destruct (lba28 n Hn) as [Hdr Hlba]. rewrite <- R1 in Hdr, Hlba. unfold out_b at 1. rewrite wp_bind, wp_modify. cbn [bmem bdev].
  destruct (ata_read d0 B1 ltac:(by rewrite R1) F1) as [T2 S2]. rewrite Hdr, Hlba in T2. change (u8 32) with 0x20. set (d1 := outb _ _ d0) in *.
  rewrite wp_bind. apply waitdisk_loop_spec; [apply busy_ends|]. cbn [bmem bdev]. intros d2 B3 T3 S3. unfold in_sl. rewrite wp_bind, wp_get. cbn [bdev].
  pose proof (ata_in d2 0 n (eq_trans T3 T2) B3) as Hin. change (Z.to_nat (SECTSIZE / 4)) with 128%nat.
  destruct (insl 0x1F0 128 d2) as [l d3]. destruct Hin as (-> & F3 & S4). rewrite wp_modify. cbn [bmem bdev].
  assert (forall dr k, sector d2 dr k = dk dr k) as Hd2 by (intros; by rewrite S3, S2, S1).
  apply HQ; [split; [done|]; intros; by rewrite S4|]. intros x. unfold copy_in. rewrite Hd2, Hlen.
  destruct (Z.leb_spec dst x), (Z.ltb_spec x (dst + Z.of_nat 512)); cbn [andb]; first [rewrite decide_False by lia|rewrite decide_True by lia]; try done.
  rewrite kernel_sector by lia. by replace (1 + (n - 1)) with n by lia.
Qed.

Lemma readseg_loop_spec dk a o m0 k : forall fuel pa epa n Q s, (k < fuel)%nat ->
  (forall n, length (dk 0 n) = 512%nat) -> quiet (bdev s) dk -> a <= pa -> 0 <= pa -> 0 < n ->
  pa + 512 * Z.of_nat k < 2 ^ 32 -> n + Z.of_nat k < 2 ^ 28 -> 512 * (Z.of_nat k - 1) < epa - pa <= 512 * Z.of_nat k ->
  o + (pa - a) = 512 * (n - 1) -> copied dk a pa o m0 (bmem s) ->
  (forall d m, quiet d dk -> copied dk a (pa + 512 * Z.of_nat k) o m0 m -> Q tt (mkboot m d)) ->
  wp (readseg_loop patience fuel pa epa n) Q s.
Proof.
  induction k as [|k IH]; intros [|fuel] pa epa n Q s Hf Hlen Hq Ha Hpa Hn Hend Hlba Hepa Ho Hc HQ; try lia; cbn [readseg_loop].
  - destruct (Z.ltb_spec pa epa); [lia|]. rewrite wp_ret. destruct s as [m d]. apply HQ; [done|]. by rewrite Z.mul_0_r, Z.add_0_r.
  - destruct (Z.ltb_spec pa epa); [|lia]. rewrite wp_bind. eapply readsect_spec; [done|lia|done|]. intros d m Hq' Hc'.
    change SECTSIZE with 512. rewrite !u32_small by lia. rewrite <- Ho in Hc'.
    apply IH; cbn [bmem bdev]; try done; try lia.
    + by eapply copied_snoc.
    + intros d' m' Hq2 Hc2. apply HQ; [done|]. replace (pa + 512 * Z.of_nat (S k)) with (pa + 512 + 512 * Z.of_nat k) by lia. done.
Qed.

Lemma readseg_spec pa count off dk Q s :
  (forall n, length (dk 0 n) = 512%nat) -> quiet (bdev s) dk -> 0 <= off < 2 ^ 32 -> 0 <= count ->
  off mod 512 <= pa -> pa + count < 2 ^ 32 -> seg_end pa count off < 2 ^ 32 ->
  (forall d m, quiet d dk -> copied dk (seg_start pa off) (seg_end pa count off) (off - off mod 512) (bmem s) m -> Q tt (mkboot m d)) ->
  wp (readseg patience pa count off) Q s.
Proof.
  unfold seg_end, seg_start. intros Hlen Hq Hoff Hcount Hpa Hpc Hend HQ. unfold readseg. change SECTSIZE with 512.
  pose proof (Z.mod_pos_bound off 512 ltac:(lia)). rewrite !u32_small by lia. set (n := (count + off mod 512 + 511) / 512) in *.
  replace ((pa + count - (pa - off mod 512) + 512 - 1) / 512) with n by (unfold n; f_equal; lia).
  pose proof (Z.div_mod (count + off mod 512 + 511) 512 ltac:(lia)) as Hd. fold n in Hd. pose proof (Z.mod_pos_bound (count + off mod 512 + 511) 512 ltac:(lia)).
  pose proof (Z.div_mod off 512 ltac:(lia)). apply (readseg_loop_spec dk (pa - off mod 512) (off - off mod 512) (bmem s) (Z.to_nat n)); try done; rewrite ?Z2Nat.id by lia; try lia.
  - intros x. by rewrite decide_False by lia.
  - done.
Qed.

(** * The kernel *)

Section kernel.
Variable dk : disks.
Abbreviation img := (kernel dk).

(** Program header [i], and the range of addresses it writes. *)
Definition header (i : nat) : Z := elf_phoff img 0 + 32 * Z.of_nat i.
Definition seg_pa (i : nat) : Z := ph_paddr img (header i).
Definition seg_from (i : nat) : Z := seg_start (seg_pa i) (ph_off img (header i)).
Definition seg_to (i : nat) : Z :=
  Z.max (seg_end (seg_pa i) (ph_filesz img (header i)) (ph_off img (header i))) (seg_pa i + ph_memsz img (header i)).

Definition segment_loaded (i : nat) (m : mem) : Prop :=
  (forall x, 0 <= x < ph_filesz img (header i) -> m (seg_pa i + x) = img (ph_off img (header i) + x)) /\
  (forall x, ph_filesz img (header i) <= x < ph_memsz img (header i) -> m (seg_pa i + x) = 0).

(** A kernel that can be loaded: its program headers are in the first page, no segment wraps
    around or is loaded over the scratch page at 0x10000, and none is loaded over one before it. *)
Record loadable : Prop := {
  lo_sectors : forall n, length (dk 0 n) = 512%nat;
  lo_bytes : bytes_ok img;
  lo_magic : elf_magic img 0 = ELF_MAGIC;
  lo_headers : elf_phoff img 0 + 32 * elf_phnum img 0 <= 4096;
  lo_start i : Z.of_nat i < elf_phnum img 0 -> 0 <= seg_from i;
  lo_end i : Z.of_nat i < elf_phnum img 0 -> Z.max (seg_pa i + ph_filesz img (header i)) (seg_to i) < 2 ^ 32;
  lo_scratch i : Z.of_nat i < elf_phnum img 0 -> seg_to i <= 0x10000 \/ 0x11000 <= seg_from i;
  lo_order i j : (i < j)%nat -> Z.of_nat j < elf_phnum img 0 ->
    seg_to j <= seg_pa i \/ seg_pa i + Z.max (ph_filesz img (header i)) (ph_memsz img (header i)) <= seg_from j
}.

(** The scratch page holds the first page of the kernel. *)
Definition scratch (m : mem) : Prop := forall x, 0 <= x < 4096 -> m (0x10000 + x) = img x.

Lemma scratch_load32 m a : scratch m -> 0 <= a <= 4092 -> load32 m (0x10000 + a) = load32 img a.
Proof. intros Hm Ha. unfold load32. rewrite <- !Z.add_assoc, !Hm by lia. done. Qed.
Lemma scratch_load16 m a : scratch m -> 0 <= a <= 4094 -> load16 m (0x10000 + a) = load16 img a.
Proof. intros Hm Ha. unfold load16. rewrite <- !Z.add_assoc, !Hm by lia. done. Qed.

Hypothesis Hlo : loadable.

Lemma field_range a : 0 <= load32 img a < 2 ^ 32.
Proof. apply load32_range, (lo_bytes Hlo). Qed.

Lemma filesz_pos i : 0 <= ph_filesz img (header i).
Proof. apply field_range. Qed.

Lemma scratch_kept i m m' : Z.of_nat i < elf_phnum img 0 -> scratch m ->
  (forall x, ~ (seg_from i <= x < seg_to i) -> m' x = m x) -> scratch m'.
Proof. intros Hi Hm Hk x Hx. rewrite Hk; [by apply Hm|]. destruct (lo_scratch Hlo i Hi); lia. Qed.

Lemma loaded_kept i j m m' : (i < j)%nat -> Z.of_nat j < elf_phnum img 0 -> segment_loaded i m ->
  (forall x, ~ (seg_from j <= x < seg_to j) -> m' x = m x) -> segment_loaded i m'.
Proof.
  intros Hij Hj [H1 H2] Hk. pose proof (filesz_pos i). destruct (lo_order Hlo i j Hij Hj); split; intros x Hx; rewrite Hk by lia; auto.
Qed.

(** The file part and the cleared part of segment [i]. *)
Lemma segment_filled i m m1 m2 : 0 <= seg_from i ->
  copied dk (seg_from i) (seg_end (seg_pa i) (ph_filesz img (header i)) (ph_off img (header i)))
    (ph_off img (header i) - ph_off img (header i) mod 512) m m1 ->
  (forall x, m2 x = if decide (seg_pa i + ph_filesz img (header i) <= x < seg_pa i + ph_memsz img (header i)) then 0 else m1 x) ->
  segment_loaded i m2 /\ forall x, ~ (seg_from i <= x < seg_to i) -> m2 x = m x.
Proof.
  intros Hfrom Hc Hz. pose proof (filesz_pos i).
  unfold seg_from, seg_to, seg_end, seg_start in *. set (fs := ph_filesz img (header i)) in *. set (off := ph_off img (header i)) in *.
  pose proof (Z.mod_pos_bound off 512 ltac:(lia)). pose proof (Z.div_mod (fs + off mod 512 + 511) 512 ltac:(lia)) as Hd.
  pose proof (Z.mod_pos_bound (fs + off mod 512 + 511) 512 ltac:(lia)). split; [split|]; intros x Hx.
  - rewrite Hz, decide_False by lia. rewrite Hc, decide_True by lia. f_equal. lia.
  - by rewrite Hz, decide_True by lia.
  - rewrite Hz, decide_False by lia. by rewrite Hc, decide_False by lia.
Qed.

Lemma load_step i fuel eph Q s :
  Z.of_nat i < elf_phnum img 0 -> scratch (bmem s) -> quiet (bdev s) dk -> 0x10000 + header i < eph ->
  (forall d m, quiet d dk -> segment_loaded i m -> (forall x, ~ (seg_from i <= x < seg_to i) -> m x = bmem s x) ->
     wp (load_loop patience fuel (0x10000 + header (S i)) eph) Q (mkboot m d)) ->
  wp (load_loop patience (S fuel) (0x10000 + header i) eph) Q s.
Proof.
  intros Hi Hsc Hq Hph HQ. cbn [load_loop]. destruct (Z.ltb_spec (0x10000 + header i) eph); [|lia]. cbn [negb].
  pose proof (lo_headers Hlo). pose proof (field_range 28) as Hoff. change (load32 img 28) with (elf_phoff img 0) in Hoff.
  assert (0 <= header i <= 4064) as Hh by (unfold header; lia). pose proof (lo_start Hlo i Hi) as Hst. pose proof (lo_end Hlo i Hi) as Hen.
  assert (forall m o, scratch m -> 0 <= o <= 28 -> load32 m (0x10000 + header i + o) = load32 img (header i + o)) as Hf.
  { intros m o Hm Ho. rewrite <- Z.add_assoc. apply scratch_load32; [done|lia]. }
  pose proof (field_range (header i + 4)). pose proof (field_range (header i + 16)). pose proof (field_range (header i + 20)). pose proof (field_range (header i + 12)).
  rewrite wp_bind, wp_get. unfold ph_paddr at 1, ph_filesz at 1, ph_off at 1. rewrite !Hf by (done || lia). rewrite wp_bind.
  change (load32 img (header i + 12)) with (seg_pa i) in *. change (load32 img (header i + 16)) with (ph_filesz img (header i)) in *.
  change (load32 img (header i + 4)) with (ph_off img (header i)) in *. change (load32 img (header i + 20)) with (ph_memsz img (header i)) in *.
  unfold seg_to in Hen. apply (readseg_spec _ _ _ dk); [apply (lo_sectors Hlo)|done|lia|lia|unfold seg_from, seg_start in Hst; lia|lia|lia|]. intros d m Hq' Hc.
  assert (scratch m) as Hm.
  { apply (scratch_kept i (bmem s)); [done|done|]. intros x Hx. rewrite Hc. apply decide_False. unfold seg_to, seg_from in Hx. lia. }
  rewrite wp_bind, wp_gets, wp_bind. cbn [bmem]. unfold ph_paddr, ph_filesz, ph_memsz. rewrite !Hf by (done || lia).
  change (load32 img (header i + 12)) with (seg_pa i) in *. change (load32 img (header i + 16)) with (ph_filesz img (header i)) in *.
  change (load32 img (header i + 20)) with (ph_memsz img (header i)) in *. change PROGHDR with 32.
  replace (u32 (0x10000 + header i + 32)) with (0x10000 + header (S i)) by (rewrite u32_small by lia; unfold header; lia).
  destruct (Z.gtb_spec (ph_memsz img (header i)) (ph_filesz img (header i))); cbn [when].
  - rewrite wp_modify. cbn [bmem bdev]. rewrite u32_small by lia. edestruct (segment_filled i (bmem s) m) as [H1' H2']; [done|exact Hc| |by apply HQ].
    intros x. rewrite stosb_spec, Z2Nat.id by lia. change (u8 0) with 0. destruct (decide _), (decide _); (done || lia).
  - rewrite wp_ret. edestruct (segment_filled i (bmem s) m m) as [H1' H2']; [done|exact Hc| |by apply HQ]. intros x. by rewrite decide_False by lia.
Qed.

Lemma load_loop_spec k : forall i fuel Q s, (i + k)%nat = Z.to_nat (elf_phnum img 0) -> (k < fuel)%nat ->
  scratch (bmem s) -> quiet (bdev s) dk -> (forall j, (j < i)%nat -> segment_loaded j (bmem s)) ->
  (forall d m, quiet d dk -> scratch m -> (forall j, (j < i + k)%nat -> segment_loaded j m) -> Q tt (mkboot m d)) ->
  wp (load_loop patience fuel (0x10000 + header i) (0x10000 + header (i + k))) Q s.
Proof.
  induction k as [|k IH]; intros i [|fuel] Q s Hik Hf Hsc Hq Hld HQ; try lia.
  - rewrite Nat.add_0_r in *. cbn [load_loop]. destruct (Z.ltb_spec (0x10000 + header i) (0x10000 + header i)); [lia|]. cbn [negb]. rewrite wp_ret.
    destruct s as [m d]. by apply HQ.
  - assert (Z.of_nat i < elf_phnum img 0) as Hi by lia. eapply load_step; [done|done|done|unfold header; lia|]. intros d m Hq' Hl Hk.
    replace (i + S k)%nat with (S i + k)%nat in * by lia. apply IH; [done|lia|by apply (scratch_kept i (bmem s))|done| |done].
    intros j Hj. destruct (decide (j = i)) as [->|]; [done|]. apply (loaded_kept j i (bmem s)); [lia|done|apply Hld; lia|done].
Qed.

(** The first page. *)
Lemma first_page Q s : quiet (bdev s) dk ->
  (forall d m, quiet d dk -> scratch m -> Q tt (mkboot m d)) -> wp (readseg patience 0x10000 4096 0) Q s.
Proof.
  intros Hq HQ. apply (readseg_spec _ _ _ dk); try done; [apply (lo_sectors Hlo)|]. intros d m Hq' Hc. apply HQ; [done|].
  change (seg_start 0x10000 0) with 0x10000 in Hc. change (seg_end 0x10000 4096 0) with 0x11000 in Hc. change (0 - 0 mod 512) with 0 in Hc.
  intros x Hx. rewrite Hc, decide_True by lia. f_equal. lia.
Qed.
End kernel.

End loader.

(** * A kernel of two segments

    Eight bytes at 0x100000 followed by eight zeros, and four bytes at 0x100800. *)
Definition le32 (v : Z) : list Z := [u8 v; u8 (Z.shiftr v 8); u8 (Z.shiftr v 16); u8 (Z.shiftr v 24)].
Definition tiny_header : list Z :=
  concat (map le32 [ELF_MAGIC; 0; 0; 0; 0; 0; 0x10000c; 52; 0; 0; 0; 2; 0;
    1; 0x200; 0x80100000; 0x100000; 8; 16; 5; 4;
    1; 0x204; 0x80100800; 0x100800; 4; 4; 6; 4]) ++ replicate 396 0.
Definition tiny_disk : disks := fun dr n => if n =? 1 then tiny_header else if n =? 2 then [1; 2; 3; 4; 5; 6; 7; 8] ++ replicate 504 0 else replicate 512 0.

Lemma tiny_bytes : bytes_ok (kernel tiny_disk).
Proof.
  assert (forall n, Forall (fun b => 0 <= b < 256) (tiny_disk 0 n)) as H.
  { intros n. unfold tiny_disk. destruct (n =? 1); [|destruct (n =? 2)].
    - assert (forallb (fun b => (0 <=? b) && (b <? 256)) tiny_header = true) as Ht by (vm_compute; reflexivity).
      apply Forall_forall. intros b Hb%list_elem_of_In. apply (proj1 (forallb_forall _ _) Ht) in Hb. zb. lia.
    - apply Forall_app. split; [repeat constructor; lia|apply Forall_replicate; lia].
    - apply Forall_replicate. lia. }
  intros a. unfold kernel, byte_at. destruct (_ !! _) eqn:E; cbn; [|lia]. by eapply Forall_lookup_1 in E; [|apply H].
Qed.

Lemma tiny_loadable : loadable tiny_disk.
Proof.
  split.
  - intros n. unfold tiny_disk. destruct (n =? 1); [done|]. by destruct (n =? 2).
  - apply tiny_bytes.
  - done.
  - done.
  - intros [|[|i]] Hi; change (elf_phnum _ 0) with 2 in Hi; (lia || by vm_compute).
  - intros [|[|i]] Hi; change (elf_phnum _ 0) with 2 in Hi; (lia || by vm_compute).
  - intros [|[|i]] Hi; change (elf_phnum _ 0) with 2 in Hi; (lia || by right; vm_compute).
  - intros [|i] [|[|j]] Hij Hj; change (elf_phnum _ 0) with 2 in Hj; (lia || by right; vm_compute).
Qed.

