(* ===== verification/Mp.v ===== *)
(** The search for the processors ([mp.c]).

    The tables of the BIOS are byte memory; of [cpus] only the field [apicid] is written here.
    The loop of [mpinit] over the configuration table takes fuel. *)

From S2P Require Import Prelude CString Mem USys ProcDefs Console.

Record mpst (D : Type) := mkmp {
  mpmem : mem;
  apicids : list Z;
  ncpu : Z;
  ioapicid : Z;
  lapic : Z;
  mpdev : D
}.
Arguments mkmp {D} mpmem apicids ncpu ioapicid lapic mpdev.
Arguments mpmem {D} m.
Arguments apicids {D} m.
Arguments ncpu {D} m.
Arguments ioapicid {D} m.
Arguments lapic {D} m.
Arguments mpdev {D} m.

Module Mp.

(** [struct mp], [struct mpconf], [struct mpproc] and [struct mpioapic]: sizes and the fields read. *)
Definition MP : Z := 16.
Definition mp_physaddr (m : mem) (p : Z) : Z := load32 m (p + 4).
Definition mp_imcrp (m : mem) (p : Z) : Z := m (p + 12).
Definition MPCONF : Z := 44.
Definition conf_length (m : mem) (p : Z) : Z := m (p + 4) + 2 ^ 8 * m (p + 5).
Definition conf_version (m : mem) (p : Z) : Z := m (p + 6).
Definition conf_lapicaddr (m : mem) (p : Z) : Z := load32 m (p + 36).
Definition MPPROC_SIZE : Z := 20.
Definition proc_apicid (m : mem) (p : Z) : Z := m (p + 1).
Definition MPIOAPIC_SIZE : Z := 8.
Definition ioapic_apicno (m : mem) (p : Z) : Z := m (p + 1).

Definition MPPROC : Z := 0x00.
Definition MPBUS : Z := 0x01.
Definition MPIOAPIC : Z := 0x02.
Definition MPIOINTR : Z := 0x03.
Definition MPLINTR : Z := 0x04.

(** [memcmp] with a literal is zero. *)
Fixpoint same_bytes (m : mem) (p : Z) (l : list Z) : bool :=
  match l with [] => true | b :: l => (m p =? b) && same_bytes m (p + 1) l end.
Definition SIG_MP : list Z := [95; 77; 80; 95].
Definition SIG_PCMP : list Z := [80; 67; 77; 80].

Fixpoint sum_loop (m : mem) (addr : Z) (len : nat) (sum : Z) : Z :=
  match len with O => sum | S len => sum_loop m (addr + 1) len (i32 (sum + m addr)) end.
Definition sum (m : mem) (addr len : Z) : Z := u8 (sum_loop m addr (Z.to_nat len) 0).

(** [n] structures from [p] on; 0 for none. *)
Fixpoint mpsearch1_loop (m : mem) (n : nat) (p : Z) : Z :=
  match n with
  | O => 0
  | S n => if same_bytes m p SIG_MP && (sum m p MP =? 0) then p else mpsearch1_loop m n (p + MP)
  end.
Definition mpsearch1 (m : mem) (a len : Z) : Z :=
  let addr := P2V a in
  mpsearch1_loop m (Z.to_nat ((len + MP - 1) / MP)) addr.

Definition mpsearch (m : mem) : Z :=
  let bda := P2V 0x400 in
  let p := u32 (Z.shiftl (Z.lor (Z.shiftl (m (bda + 0x0F)) 8) (m (bda + 0x0E))) 4) in
  if negb (p =? 0) then
    let mp := mpsearch1 m p 1024 in
    if negb (mp =? 0) then mp else mpsearch1 m 0xF0000 0x10000
  else
    let p := u32 (Z.lor (Z.shiftl (m (bda + 0x14)) 8) (m (bda + 0x13)) * 1024) in
    let mp := mpsearch1 m (u32 (p - 1024)) 1024 in
    if negb (mp =? 0) then mp else mpsearch1 m 0xF0000 0x10000.

(** The configuration table, 0 for none, and [*pmp]. *)
Definition mpconfig (m : mem) : Z * Z :=
  let mp := mpsearch m in
  if (mp =? 0) || (mp_physaddr m mp =? 0) then (0, 0) else
  let conf := P2V (mp_physaddr m mp) in
  if negb (same_bytes m conf SIG_PCMP) then (0, 0) else
  if negb (conf_version m conf =? 1) && negb (conf_version m conf =? 4) then (0, 0) else
  if negb (sum m conf (conf_length m conf) =? 0) then (0, 0) else
  (conf, mp).

Section mpinit.
Context {D : Type} `{Ports D}.
Abbreviation P := (M (mpst D)).

Definition add_cpu (id : Z) : P unit :=
  modify (fun s => mkmp (mpmem s) (<[Z.to_nat (ncpu s) := id]> (apicids s)) (i32 (ncpu s + 1)) (ioapicid s) (lapic s) (mpdev s)).
Definition set_ioapicid (id : Z) : P unit :=
  modify (fun s => mkmp (mpmem s) (apicids s) (ncpu s) id (lapic s) (mpdev s)).
Definition set_lapic (a : Z) : P unit :=
  modify (fun s => mkmp (mpmem s) (apicids s) (ncpu s) (ioapicid s) a (mpdev s)).
Definition set_dev (d : D) : P unit :=
  modify (fun s => mkmp (mpmem s) (apicids s) (ncpu s) (ioapicid s) (lapic s) d).

(** [break] leaves the [switch], not the loop; the result is [ismp]. *)
Fixpoint mpinit_loop (fuel : nat) (p e ismp : Z) : P Z :=
  match fuel with
  | O => nofuel
  | S fuel =>
      if negb (p <? e) then ret ismp else
      let! s := get in
      let m := mpmem s in
      if m p =? MPPROC then
        do! when (ncpu s <? Z.of_nat NCPU) (add_cpu (proc_apicid m p));
        mpinit_loop fuel (p + MPPROC_SIZE) e ismp
      else if m p =? MPIOAPIC then
        do! set_ioapicid (ioapic_apicno m p);
        mpinit_loop fuel (p + MPIOAPIC_SIZE) e ismp
      else if (m p =? MPBUS) || (m p =? MPIOINTR) || (m p =? MPLINTR) then
        mpinit_loop fuel (p + 8) e ismp
      else mpinit_loop fuel p e 0
  end.

Definition mpinit (fuel : nat) : P unit :=
  let! m := gets mpmem in
  let '(conf, mp) := mpconfig m in
  if conf =? 0 then panic "Expect to run on an SMP" else
  do! set_lapic (conf_lapicaddr m conf);
  let! ismp := mpinit_loop fuel (conf + MPCONF) (conf + conf_length m conf) 1 in
  if ismp =? 0 then panic "Didn't find a suitable machine" else
  when (negb (mp_imcrp m mp =? 0))
    (let! d := gets mpdev in
     let '(v, d) := inb 0x23 (outb 0x22 0x70 d) in
     set_dev (outb 0x23 (u8 (Z.lor v 1)) d)).
End mpinit.
End Mp.
