(* ===== verification/MpProps.v ===== *)
(** [mpinit] finds the tables of the BIOS and records the processors they list. *)

From S2P Require Import Prelude CString Mem USys ProcDefs Console Bio Ide IdeProps.
From S2P Require Import Mp.
Import Mp.

(** * The search *)

(** A floating pointer structure stands at [p]. *)
Definition floating (m : mem) (p : Z) : bool := same_bytes m p SIG_MP && (sum m p MP =? 0).
Definition none_in (m : mem) (addr len : Z) : Prop := forall k, 0 <= 16 * k < len -> floating m (addr + 16 * k) = false.
Definition first_in (m : mem) (addr len p : Z) : Prop :=
  exists k, 0 <= 16 * k < len /\ p = addr + 16 * k /\ floating m p = true /\ none_in m addr (16 * k).

(** The first place to look: the extended BIOS data area, or else the last kilobyte of base memory. *)
Definition bios_word (m : mem) (a : Z) : Z := m (P2V 0x400 + a) + 2 ^ 8 * m (P2V 0x400 + a + 1).
Definition first_area (m : mem) : Z :=
  if decide (bios_word m 0x0E = 0) then P2V (u32 (1024 * bios_word m 0x13 - 1024)) else P2V (16 * bios_word m 0x0E).
Definition bios_rom : Z := P2V 0xF0000.

(** The structure the BIOS left for the kernel. *)
Definition found (m : mem) (p : Z) : Prop :=
  first_in m (first_area m) 1024 p \/ (none_in m (first_area m) 1024 /\ first_in m bios_rom 0x10000 p).

Lemma lor_bytes a b : 0 <= b < 2 ^ 8 -> Z.lor (Z.shiftl a 8) b = b + 2 ^ 8 * a.
Proof.
  intros Hb. rewrite Z.shiftl_mul_pow2 by lia. assert (Z.land (a * 2 ^ 8) b = 0) as Hl.
  { apply Z.bits_inj'. intros k Hk. rewrite Z.land_spec, Z.bits_0. destruct (Z.ltb_spec k 8).
    - rewrite Z.mul_pow2_bits_low by lia. done.
    - rewrite <- (Z.mod_small b (2 ^ 8)), Z.mod_pow2_bits_high by lia. apply andb_false_r. }
  pose proof (Z.add_lor_land (a * 2 ^ 8) b). lia.
Qed.

Lemma search_loop m n : forall p,
  (none_in m p (16 * Z.of_nat n) -> mpsearch1_loop m n p = 0) /\
  (forall q, first_in m p (16 * Z.of_nat n) q -> mpsearch1_loop m n p = q).
Proof.
  induction n as [|n IH]; intros p; cbn [mpsearch1_loop].
  - split; [done|]. intros q (k & Hk & _). lia.
  - change (same_bytes m p SIG_MP && (sum m p MP =? 0)) with (floating m p). change MP with 16. destruct (IH (p + 16)) as [IH1 IH2]. split.
    + intros Hn. pose proof (Hn 0 ltac:(lia)) as H0. rewrite Z.mul_0_r, Z.add_0_r in H0. rewrite H0. apply IH1. intros k Hk.
      replace (p + 16 + 16 * k) with (p + 16 * (k + 1)) by lia. apply Hn. lia.
    + intros q (k & Hk & -> & Hf & Hn). destruct (decide (k = 0)) as [->|Hk0].
      { rewrite Z.mul_0_r, Z.add_0_r in *. by rewrite Hf. }
      pose proof (Hn 0 ltac:(lia)) as H0. rewrite Z.mul_0_r, Z.add_0_r in H0. rewrite H0. apply IH2. exists (k - 1).
      replace (p + 16 + 16 * (k - 1)) with (p + 16 * k) by lia. split; [lia|]. split; [done|]. split; [done|]. intros j Hj.
      replace (p + 16 + 16 * j) with (p + 16 * (j + 1)) by lia. apply Hn. lia.
Qed.

Lemma mpsearch1_none m a len : 0 <= len -> len mod 16 = 0 -> none_in m (P2V a) len -> mpsearch1 m a len = 0.
Proof.
  intros Hl H16 Hn. unfold mpsearch1. change MP with 16. apply (proj1 (search_loop m _ _)). intros k Hk. apply Hn.
  pose proof (Z.div_mod len 16 ltac:(lia)). rewrite Z2Nat.id in Hk by (apply Z.div_pos; lia).
  pose proof (Z.div_mod (len + 16 - 1) 16 ltac:(lia)). pose proof (Z.mod_pos_bound (len + 16 - 1) 16 ltac:(lia)). lia.
Qed.
Lemma mpsearch1_first m a len q : 0 <= len -> first_in m (P2V a) len q -> mpsearch1 m a len = q.
Proof.
  intros Hl (k & Hk & Hq). unfold mpsearch1. change MP with 16. apply (proj2 (search_loop m _ _)). exists k. split; [|exact Hq].
  rewrite Z2Nat.id by (apply Z.div_pos; lia). pose proof (Z.div_mod (len + 16 - 1) 16 ltac:(lia)). pose proof (Z.mod_pos_bound (len + 16 - 1) 16 ltac:(lia)). lia.
Qed.

Lemma mpsearch_found m p : bytes_ok m -> found m p -> p <> 0 -> mpsearch m = p.
Proof.
  intros Hm Hf Hp. unfold mpsearch. set (bda := P2V 0x400). pose proof (Hm (bda + 0x0E)). pose proof (Hm (bda + 0x0F)). pose proof (Hm (bda + 0x13)). pose proof (Hm (bda + 0x14)).
  rewrite !lor_bytes, Z.shiftl_mul_pow2, (u32_small (_ * 2 ^ 4)), (u32_small (_ * 1024)) by lia.
  assert (bios_word m 0x0E = m (bda + 0x0E) + 2 ^ 8 * m (bda + 0x0F)) as W1 by done.
  assert (bios_word m 0x13 = m (bda + 0x13) + 2 ^ 8 * m (bda + 0x14)) as W2 by done. rewrite <- W1, <- W2.
  unfold found, first_area in Hf. destruct (Z.eqb_spec (bios_word m 14 * 2 ^ 4) 0) as [E|E]; cbn [negb].
  - rewrite decide_True in Hf by lia. replace (bios_word m 19 * 1024 - 1024) with (1024 * bios_word m 19 - 1024) by lia.
    destruct Hf as [Hf|[Hn Hf]].
    + rewrite (mpsearch1_first _ _ _ p) by done. by destruct (Z.eqb_spec p 0).
    + rewrite (mpsearch1_none _ _ 1024) by done. by apply mpsearch1_first.
  - rewrite decide_False in Hf by lia. replace (bios_word m 14 * 2 ^ 4) with (16 * bios_word m 14) by lia.
    destruct Hf as [Hf|[Hn Hf]].
    + rewrite (mpsearch1_first _ _ _ p) by done. by destruct (Z.eqb_spec p 0).
    + rewrite (mpsearch1_none _ _ 1024) by done. by apply mpsearch1_first.
Qed.

(** * The configuration table *)

Inductive entry := Processor (id : Z) | Io_apic (id : Z) | Other (type : Z).

(** The entries [es] stand from [p] up to [e]. *)
Fixpoint laid (m : mem) (p : Z) (es : list entry) (e : Z) : Prop :=
  match es with
  | [] => p = e
  | Processor id :: es => m p = MPPROC /\ m (p + 1) = id /\ laid m (p + 20) es e
  | Io_apic id :: es => m p = MPIOAPIC /\ m (p + 1) = id /\ laid m (p + 8) es e
  | Other t :: es => m p = t /\ (t = MPBUS \/ t = MPIOINTR \/ t = MPLINTR) /\ laid m (p + 8) es e
  end.

Record configured (m : mem) (mp conf : Z) : Prop := {
  cf_bytes : bytes_ok m;
  cf_mp : found m mp /\ mp <> 0;
  cf_conf : mp_physaddr m mp <> 0 /\ conf = P2V (mp_physaddr m mp) /\ conf <> 0;
  cf_sig : same_bytes m conf SIG_PCMP = true;
  cf_version : conf_version m conf = 1 \/ conf_version m conf = 4;
  cf_sum : sum m conf (conf_length m conf) = 0
}.

Definition processors (es : list entry) : list Z := omap (fun x => match x with Processor id => Some id | _ => None end) es.
Definition io_apics (es : list entry) : list Z := omap (fun x => match x with Io_apic id => Some id | _ => None end) es.

Lemma mpconfig_found m mp conf : configured m mp conf -> mpconfig m = (conf, mp).
Proof.
  intros [Hm [Hf Hmp] (Hpa & -> & _) Hsig Hv Hsum]. unfold mpconfig. rewrite (mpsearch_found m mp Hm Hf Hmp).
  destruct (Z.eqb_spec mp 0), (Z.eqb_spec (mp_physaddr m mp) 0); try done. cbn [orb]. rewrite Hsig, Hsum.
  destruct Hv as [-> | ->]; done.
Qed.

Section mpinit.
Context {D : Type} `{Ports D}.
Implicit Types s : mpst D.

(** The processors recorded are [ids]. *)
Definition recorded (ids0 : list Z) s (ids : list Z) : Prop :=
  ncpu s = Z.of_nat (length ids) /\ apicids s = ids ++ drop (length ids) ids0 /\ (length ids <= NCPU)%nat.

Lemma laid_le m es : forall p e, laid m p es e -> p + 8 * Z.of_nat (length es) <= e.
Proof.
  induction es as [|[id|id|t] es IH]; intros p e; cbn [laid length].
  - lia.
  - intros (_ & _ & Hl%IH). lia.
  - intros (_ & _ & Hl%IH). lia.
  - intros (_ & _ & Hl%IH). lia.
Qed.

Lemma add_cpu_spec ids0 id ids Q s : length ids0 = NCPU -> recorded ids0 s ids ->
  (forall s', mpmem s' = mpmem s -> mpdev s' = mpdev s -> lapic s' = lapic s -> ioapicid s' = ioapicid s ->
     recorded ids0 s' (take NCPU (ids ++ [id])) -> Q tt s') ->
  wp (when (ncpu s <? Z.of_nat NCPU) (add_cpu id)) Q s.
Proof.
  intros Hlen (Hn & Ha & Hle) HQ. rewrite Hn. destruct (Z.ltb_spec (Z.of_nat (length ids)) (Z.of_nat NCPU)) as [Hlt|Hge]; cbn [when].
  - unfold add_cpu. rewrite wp_modify. apply HQ; try done. rewrite take_ge by (rewrite length_app; cbn; lia). unfold recorded. cbn [ncpu apicids].
    rewrite Hn, Ha, Nat2Z.id, length_app, i32_small by (unfold NCPU in *; cbn; lia). cbn [length]. split; [lia|]. split; [|lia].
    rewrite <- (Nat.add_0_r (length ids)) at 1. rewrite insert_app_r, <- app_assoc. f_equal.
    destruct (lookup_lt_is_Some_2 ids0 (length ids)) as [y Hy]; [lia|]. rewrite (drop_S ids0 y _ Hy). by rewrite Nat.add_1_r.
  - rewrite wp_ret. apply HQ; try done. rewrite take_app_le by lia. by rewrite take_ge by lia.
Qed.

Lemma take_more (ids ps : list Z) id : take NCPU (take NCPU (ids ++ [id]) ++ ps) = take NCPU (ids ++ id :: ps).
Proof.
  change (id :: ps) with ([id] ++ ps). rewrite app_assoc. generalize (ids ++ [id]). intros l.
  destruct (decide (length l <= NCPU)%nat); [by rewrite (take_ge l) by done|]. rewrite take_app_le by (rewrite length_take; lia).
  rewrite take_take, (take_app_le l) by lia. done.
Qed.

Lemma loop_spec ids0 e : length ids0 = NCPU -> forall es fuel p ids Q s,
  (length es < fuel)%nat -> laid (mpmem s) p es e -> recorded ids0 s ids ->
  (forall s', mpmem s' = mpmem s -> mpdev s' = mpdev s -> lapic s' = lapic s -> recorded ids0 s' (take NCPU (ids ++ processors es)) ->
     ioapicid s' = default (ioapicid s) (last (io_apics es)) -> Q 1 s') ->
  wp (mpinit_loop fuel p e 1) Q s.
Proof.
  intros Hlen. induction es as [|x es IH]; intros [|fuel] p ids Q s Hf Hl Hr HQ; cbn [length] in Hf; try lia; cbn [mpinit_loop].
  { cbn in Hl. subst p. destruct (Z.ltb_spec e e); [lia|]. cbn [negb]. rewrite wp_ret. apply HQ; try done. cbn. rewrite app_nil_r, take_ge; [done|apply Hr]. }
  apply laid_le in Hl as Hle. cbn [length] in Hle. destruct (Z.ltb_spec p e); [|lia]. cbn [negb]. rewrite wp_bind, wp_get.
  destruct x as [id|id|t]; cbn [laid] in Hl; destruct Hl as (E1 & E2 & Hl); rewrite E1.
  - cbn [Z.eqb MPPROC]. unfold proc_apicid. rewrite E2, wp_bind. eapply add_cpu_spec; [done|exact Hr|]. intros s1 M1 D1 L1 I1 R1.
    apply (IH fuel _ (take NCPU (ids ++ [id]))); [lia|by rewrite M1|done|]. intros s2 M2 D2 L2 R2 I2. apply HQ; [congruence..| |by rewrite I2, I1].
    by rewrite take_more in R2.
  - change (MPIOAPIC =? MPPROC) with false. change (MPIOAPIC =? MPIOAPIC) with true. unfold ioapic_apicno, set_ioapicid. rewrite E2, wp_bind, wp_modify.
    apply (IH fuel _ ids); [lia|exact Hl|exact Hr|]. cbn [mpmem mpdev lapic ioapicid]. intros s2 M2 D2 L2 R2 I2. apply HQ; try done.
    rewrite I2. change (io_apics (Io_apic id :: es)) with (id :: io_apics es). rewrite last_cons. by destruct (last (io_apics es)).
  - assert ((t =? MPPROC) = false /\ (t =? MPIOAPIC) = false /\ (t =? MPBUS) || (t =? MPIOINTR) || (t =? MPLINTR) = true) as (-> & -> & ->)
      by (by destruct E2 as [->|[->| ->]]).
    apply (IH fuel _ ids); [lia|exact Hl|exact Hr|]. intros s2 M2 D2 L2 R2 I2. by apply HQ.
Qed.


(** An entry of a type the loop does not know is not skipped, and does not end the loop: it runs for ever. *)
Lemma mpinit_stuck fuel s mp conf : configured (mpmem s) mp conf -> 44 < conf_length (mpmem s) conf ->
  4 < mpmem s (conf + MPCONF) -> mpinit fuel s = NoFuel.
Proof.
  intros Hc Hl Ht. unfold mpinit, bind, gets, set_lapic, modify. rewrite (mpconfig_found _ _ _ Hc). destruct (cf_conf _ _ _ Hc) as (_ & _ & Hconf).
  destruct (Z.eqb_spec conf 0); [done|]. match goal with |- context [mpinit_loop fuel _ _ 1 ?x] => set (t := x) end.
  assert (forall i, mpinit_loop fuel (conf + MPCONF) (conf + conf_length (mpmem s) conf) i t = NoFuel) as ->; [|done].
  induction fuel as [|fuel IH]; intros i; [done|]. cbn [mpinit_loop]. destruct (Z.ltb_spec (conf + MPCONF) (conf + conf_length (mpmem s) conf)); [|unfold MPCONF in *; lia].
  cbn [negb]. unfold bind, get. change (mpmem t) with (mpmem s). destruct (mpmem s (conf + MPCONF)) as [|q|q] eqn:E; try lia.
  destruct (Z.eqb_spec (Z.pos q) MPPROC), (Z.eqb_spec (Z.pos q) MPIOAPIC), (Z.eqb_spec (Z.pos q) MPBUS), (Z.eqb_spec (Z.pos q) MPIOINTR), (Z.eqb_spec (Z.pos q) MPLINTR);
    unfold MPPROC, MPIOAPIC, MPBUS, MPIOINTR, MPLINTR in *; try lia. apply IH.
Qed.
End mpinit.

(** * A machine of two processors *)

Definition tables : list Z :=
  SIG_MP ++ [0; 0xF1; 9; 0; 1; 4; 165; 0; 1; 0; 0; 0] ++ replicate 240 0 ++
  SIG_PCMP ++ [92; 0; 4; 141] ++ replicate 28 0 ++ [0; 0; 0xE0; 0xFE; 0; 0; 0; 0] ++
  (MPPROC :: 0 :: replicate 18 0) ++ (MPPROC :: 1 :: replicate 18 0) ++ [MPIOAPIC; 2; 0; 0; 0; 0; 0; 0].
Definition machine : mem := fun a =>
  if (P2V 0x9F000 <=? a) && (a <? P2V 0x9F200) then byte_at tables (Z.to_nat (a - P2V 0x9F000)) else if a =? P2V 0x40F then 0x9F else 0.
Definition machine0 e : mpst (simulated e) := mkmp machine (replicate NCPU 0) 0 0 0 sim0.

Lemma machine_bytes : bytes_ok machine.
Proof.
  intros a. unfold machine. destruct (_ && _); [|destruct (a =? _); lia]. unfold byte_at. destruct (tables !! _) as [b|] eqn:E; cbn [from_option id]; [|lia].
  assert (forallb (fun b => (0 <=? b) && (b <? 256)) tables = true) as Ht by (vm_compute; reflexivity).
  apply list_elem_of_lookup_2, list_elem_of_In in E. apply (proj1 (forallb_forall _ _) Ht) in E. zb. lia.
Qed.

Lemma machine_configured : configured machine (P2V 0x9F000) (P2V 0x9F100).
Proof.
  split; [exact machine_bytes| |repeat split; vm_compute; congruence|vm_compute; reflexivity|right; vm_compute; reflexivity|vm_compute; reflexivity].
  split; [|vm_compute; congruence]. left. exists 0. split; [lia|]. split; [vm_compute; reflexivity|]. split; [vm_compute; reflexivity|]. intros k Hk. lia.
Qed.

