(* ===== verification/Apic.v ===== *)
(** The interrupt controllers and the clock ([lapic.c], [ioapic.c], [picirq.c]).

    The memory-mapped registers of the two APICs are interfaces, as are the ports; the waiting
    loop of [lapicinit] and the reading loop of [cmostime] take fuel.  [microdelay] does
    nothing. *)

From S2P Require Import Prelude CString Mem USys ProcDefs Console.

(** The local APIC: a register is read or written by its index. *)
Class LapicRegs (D : Type) := {
  lapic_read : Z -> D -> Z * D;
  lapic_write : Z -> Z -> D -> D
}.
(** The I/O APIC: [reg] is written, then [data] read or written. *)
Class IoapicRegs (D : Type) := {
  ioapic_select : Z -> D -> D;
  ioapic_get : D -> Z * D;
  ioapic_put : Z -> D -> D
}.

(** [struct rtcdate] *)
Record rtcdate := mkdate { second : Z; minute : Z; hour : Z; day : Z; month : Z; year : Z }.
#[export] Instance rtcdate_eq_dec : EqDecision rtcdate.
Proof. solve_decision. Defined.

(** [lapicp] is the pointer [lapic], 0 before [mpinit]. *)
Record apicst (D : Type) := mkapic { amem : mem; lapicp : Z; adev : D }.
Arguments mkapic {D} amem lapicp adev.
Arguments amem {D} a.
Arguments lapicp {D} a.
Arguments adev {D} a.

Module Apic.

Definition T_IRQ0 : Z := 32.
Definition IRQ_TIMER : Z := 0.
Definition IRQ_ERROR : Z := 19.
Definition IRQ_SPURIOUS : Z := 31.

Definition ID : Z := 0x0020 / 4.
Definition VER : Z := 0x0030 / 4.
Definition TPR : Z := 0x0080 / 4.
Definition EOI : Z := 0x00B0 / 4.
Definition SVR : Z := 0x00F0 / 4.
Definition ENABLE : Z := 0x00000100.
Definition ESR : Z := 0x0280 / 4.
Definition ICRLO : Z := 0x0300 / 4.
Definition INIT : Z := 0x00000500.
Definition STARTUP : Z := 0x00000600.
Definition DELIVS : Z := 0x00001000.
Definition ASSERT : Z := 0x00004000.
Definition LEVEL : Z := 0x00008000.
Definition BCAST : Z := 0x00080000.
Definition ICRHI : Z := 0x0310 / 4.
Definition TIMER : Z := 0x0320 / 4.
Definition X1 : Z := 0x0000000B.
Definition PERIODIC : Z := 0x00020000.
Definition PCINT : Z := 0x0340 / 4.
Definition LINT0 : Z := 0x0350 / 4.
Definition LINT1 : Z := 0x0360 / 4.
Definition ERROR : Z := 0x0370 / 4.
Definition MASKED : Z := 0x00010000.
Definition TICR : Z := 0x0380 / 4.
Definition TDCR : Z := 0x03E0 / 4.

Definition CMOS_PORT : Z := 0x70.
Definition CMOS_RETURN : Z := 0x71.
Definition CMOS_STATA : Z := 0x0a.
Definition CMOS_STATB : Z := 0x0b.
Definition CMOS_UIP : Z := 128.
Definition SECS : Z := 0x00.
Definition MINS : Z := 0x02.
Definition HOURS : Z := 0x04.
Definition DAY : Z := 0x07.
Definition MONTH : Z := 0x08.
Definition YEAR : Z := 0x09.

Definition REG_ID : Z := 0x00.
Definition REG_VER : Z := 0x01.
Definition REG_TABLE : Z := 0x10.
Definition INT_DISABLED : Z := 0x00010000.

Definition IO_PIC1 : Z := 0x20.
Definition IO_PIC2 : Z := 0xA0.

Section apic.
Context {D : Type} `{Ports D} `{LapicRegs D} `{IoapicRegs D}.
Abbreviation A := (M (apicst D)).

Definition set_adev (d : D) : A unit := modify (fun s => mkapic (amem s) (lapicp s) d).
Definition in_b (p : Z) : A Z := let! s := get in let '(v, d) := inb p (adev s) in do! set_adev d; ret v.
Definition out_b (p v : Z) : A unit := let! s := get in set_adev (outb p (u8 v) (adev s)).
Definition lapicr (index : Z) : A Z := let! s := get in let '(v, d) := lapic_read index (adev s) in do! set_adev d; ret v.

(** The read of [ID] waits for the write to finish. *)
Definition lapicw (index value : Z) : A unit :=
  let! s := get in
  do! set_adev (lapic_write index (u32 value) (adev s));
  do! lapicr ID; ret tt.

Fixpoint wait_delivs (fuel : nat) : A unit :=
  match fuel with
  | O => nofuel
  | S fuel => let! v := lapicr ICRLO in if negb (Z.land v DELIVS =? 0) then wait_delivs fuel else ret tt
  end.

Definition lapicinit (patience : nat) : A unit :=
  let! p := gets lapicp in
  if p =? 0 then ret tt else
  do! lapicw SVR (Z.lor ENABLE (T_IRQ0 + IRQ_SPURIOUS));
  do! lapicw TDCR X1;
  do! lapicw TIMER (Z.lor PERIODIC (T_IRQ0 + IRQ_TIMER));
  do! lapicw TICR 10000000;
  do! lapicw LINT0 MASKED;
  do! lapicw LINT1 MASKED;
  let! ver := lapicr VER in
  do! when (Z.land (Z.shiftr ver 16) 0xFF >=? 4) (lapicw PCINT MASKED);
  do! lapicw ERROR (T_IRQ0 + IRQ_ERROR);
  do! lapicw ESR 0;
  do! lapicw ESR 0;
  do! lapicw EOI 0;
  do! lapicw ICRHI 0;
  do! lapicw ICRLO (Z.lor (Z.lor BCAST INIT) LEVEL);
  do! wait_delivs patience;
  lapicw TPR 0.

Definition lapicid : A Z :=
  let! p := gets lapicp in
  if p =? 0 then ret 0 else let! v := lapicr ID in ret (Z.shiftr v 24).

Definition lapiceoi : A unit :=
  let! p := gets lapicp in when (negb (p =? 0)) (lapicw EOI 0).

(** A 16-bit store. *)
Definition store16 (a v : Z) : A unit :=
  modify (fun s => mkapic (<[a + 1 := u8 (Z.shiftr v 8)]> (<[a := u8 v]> (amem s))) (lapicp s) (adev s)).

Definition lapicstartap (apicid addr : Z) : A unit :=
  do! out_b CMOS_PORT 0xF;
  do! out_b (CMOS_PORT + 1) 0x0A;
  let wrv := P2V (Z.lor (Z.shiftl 0x40 4) 0x67) in
  do! store16 wrv 0;
  do! store16 (wrv + 2) (Z.shiftr addr 4);
  do! lapicw ICRHI (Z.shiftl apicid 24);
  do! lapicw ICRLO (Z.lor (Z.lor INIT LEVEL) ASSERT);
  do! lapicw ICRLO (Z.lor INIT LEVEL);
  for_each (seq 0 2) (fun _ =>
    do! lapicw ICRHI (Z.shiftl apicid 24);
    lapicw ICRLO (Z.lor STARTUP (Z.shiftr addr 12))).

Definition cmos_read (reg : Z) : A Z := do! out_b CMOS_PORT reg; in_b CMOS_RETURN.

Definition fill_rtcdate : A rtcdate :=
  let! s := cmos_read SECS in
  let! m := cmos_read MINS in
  let! h := cmos_read HOURS in
  let! d := cmos_read DAY in
  let! mo := cmos_read MONTH in
  let! y := cmos_read YEAR in
  ret (mkdate s m h d mo y).

Fixpoint cmostime_loop (fuel : nat) : A rtcdate :=
  match fuel with
  | O => nofuel
  | S fuel =>
      let! t1 := fill_rtcdate in
      let! st := cmos_read CMOS_STATA in
      if negb (Z.land st CMOS_UIP =? 0) then cmostime_loop fuel else
      let! t2 := fill_rtcdate in
      if bool_decide (t1 = t2) then ret t1 else cmostime_loop fuel
  end.

Definition CONV (x : Z) : Z := u32 (Z.shiftr x 4 * 10 + Z.land x 0xf).

Definition cmostime (fuel : nat) : A rtcdate :=
  let! sb := cmos_read CMOS_STATB in
  let bcd := Z.land sb (Z.shiftl 1 2) =? 0 in
  let! t := cmostime_loop fuel in
  let t := if (bcd : bool) then mkdate (CONV (second t)) (CONV (minute t)) (CONV (hour t)) (CONV (day t)) (CONV (month t)) (CONV (year t)) else t in
  ret (mkdate (second t) (minute t) (hour t) (day t) (month t) (u32 (year t + 2000))).

Definition ioapicread (reg : Z) : A Z :=
  let! s := get in let '(v, d) := ioapic_get (ioapic_select reg (adev s)) in do! set_adev d; ret v.
Definition ioapicwrite (reg data : Z) : A unit :=
  let! s := get in set_adev (ioapic_put (u32 data) (ioapic_select reg (adev s))).

(** Whether the warning that the ids differ is printed is the result. *)
Definition ioapicinit (ioapicid : Z) : A bool :=
  let! v := ioapicread REG_VER in
  let maxintr := Z.land (Z.shiftr v 16) 0xFF in
  let! v := ioapicread REG_ID in
  let id := Z.shiftr v 24 in
  do! for_each (seq 0 (S (Z.to_nat maxintr))) (fun i =>
    do! ioapicwrite (REG_TABLE + 2 * Z.of_nat i) (Z.lor INT_DISABLED (T_IRQ0 + Z.of_nat i));
    ioapicwrite (REG_TABLE + 2 * Z.of_nat i + 1) 0);
  ret (negb (id =? ioapicid)).

Definition ioapicenable (irq cpunum : Z) : A unit :=
  do! ioapicwrite (REG_TABLE + 2 * irq) (T_IRQ0 + irq);
  ioapicwrite (REG_TABLE + 2 * irq + 1) (Z.shiftl cpunum 24).

Definition picinit : A unit :=
  do! out_b (IO_PIC1 + 1) 0xFF;
  out_b (IO_PIC2 + 1) 0xFF.
End apic.
End Apic.
