(* ===== verification/ApicProps.v ===== *)
(** [cmostime] reads the clock, and the I/O APIC routes the interrupts that were enabled. *)

From stdpp Require Import functions.
From S2P Require Import Prelude CString Mem USys ProcDefs Console Apic.
Import Apic.

(** * The real-time clock *)

(** A clock register in binary or in binary-coded decimal. *)
Definition shown (binary : bool) (x : Z) : Z := if binary then x else 16 * (x / 10) + x mod 10.
Definition shown_date (binary : bool) (t : rtcdate) : rtcdate :=
  mkdate (shown binary (second t)) (shown binary (minute t)) (shown binary (hour t)) (shown binary (day t)) (shown binary (month t)) (shown binary (year t)).

(** [v] is what register [r] shows of the date. *)
Definition shows (binary : bool) (t : rtcdate) (r v : Z) : Prop :=
  (r = SECS -> v = shown binary (second t)) /\ (r = MINS -> v = shown binary (minute t)) /\ (r = HOURS -> v = shown binary (hour t)) /\
  (r = DAY -> v = shown binary (day t)) /\ (r = MONTH -> v = shown binary (month t)) /\ (r = YEAR -> v = shown binary (year t)) /\
  (r = CMOS_STATA -> Z.land v CMOS_UIP = 0).

(** A clock that may be updating: for as many reads as [rtc_updating] its registers are
    arbitrary, and status register A says so. *)
Class Rtc (D : Type) `{Ports D} := {
  rtc_date : D -> rtcdate;
  rtc_binary : D -> bool;
  rtc_index : D -> Z;
  rtc_updating : D -> nat;
  rtc_valid d : let t := rtc_date d in Forall (fun x => 0 <= x < 100) [second t; minute t; hour t; day t; month t; year t];
  rtc_select v d : let d' := outb CMOS_PORT v d in
    rtc_index d' = v /\ rtc_date d' = rtc_date d /\ rtc_binary d' = rtc_binary d /\ rtc_updating d' = rtc_updating d;
  rtc_get d : let '(v, d') := inb CMOS_RETURN d in
    rtc_binary d' = rtc_binary d /\ (rtc_index d = CMOS_STATB -> (Z.land v 4 =? 0) = negb (rtc_binary d)) /\
    (rtc_updating d = 0%nat -> rtc_updating d' = 0%nat /\ rtc_date d' = rtc_date d /\ shows (rtc_binary d) (rtc_date d) (rtc_index d) v) /\
    (rtc_updating d <> 0%nat -> (rtc_updating d' < rtc_updating d)%nat /\ (rtc_index d = CMOS_STATA -> Z.land v CMOS_UIP <> 0))
}.

Lemma CONV_shown x : 0 <= x < 100 -> CONV (shown false x) = x.
Proof.
  intros Hx. unfold CONV, shown. pose proof (Z.div_mod x 10 ltac:(lia)). pose proof (Z.mod_pos_bound x 10 ltac:(lia)).
  change 0xf with (Z.ones 4). rewrite Z.land_ones, Z.shiftr_div_pow2 by lia. change (2 ^ 4) with 16.
  rewrite (Z.mul_comm 16), Z.div_add_l, (Z.div_small (x mod 10)), Z.add_0_r by lia.
  rewrite (Z.add_comm (_ * 16)), Z.mod_add, (Z.mod_small (x mod 10)), u32_small by lia. lia.
Qed.

Section clock.
Context {D : Type} `{Ports D} `{LapicRegs D} `{IoapicRegs D} `{!Rtc D}.
Implicit Types (s : apicst D) (d : D).

(** Some registers were read. *)
Definition later d d' : Prop :=
  rtc_binary d' = rtc_binary d /\
  (rtc_updating d = 0%nat -> rtc_updating d' = 0%nat /\ rtc_date d' = rtc_date d) /\
  (rtc_updating d <> 0%nat -> (rtc_updating d' < rtc_updating d)%nat).

Lemma later_trans d1 d2 d3 : later d1 d2 -> later d2 d3 -> later d1 d3.
Proof.
  intros (B1 & Z1 & P1) (B2 & Z2 & P2). split; [congruence|]. split.
  - intros Hz. destruct (Z1 Hz) as [U E]. destruct (Z2 U). split; [done|congruence].
  - intros Hp. specialize (P1 Hp). destruct (decide (rtc_updating d2 = 0%nat)) as [Hz|Hn]; [destruct (Z2 Hz); lia|specialize (P2 Hn); lia].
Qed.

Lemma cmos_read_spec r Q s : 0 <= r < 2 ^ 8 ->
  (forall v d, later (adev s) d -> (r = CMOS_STATB -> (Z.land v 4 =? 0) = negb (rtc_binary (adev s))) ->
     (rtc_updating (adev s) = 0%nat -> shows (rtc_binary (adev s)) (rtc_date (adev s)) r v) ->
     (rtc_updating (adev s) <> 0%nat -> r = CMOS_STATA -> Z.land v CMOS_UIP <> 0) -> Q v (mkapic (amem s) (lapicp s) d)) ->
  wp (cmos_read r) Q s.
Proof.
  intros Hr HQ. unfold cmos_read, out_b, in_b, set_adev. rewrite !wp_bind, wp_get, wp_modify, wp_bind, wp_get. cbn [amem lapicp adev]. rewrite u8_small by done.
  destruct (rtc_select r (adev s)) as (I1 & D1 & B1 & U1). set (d1 := outb CMOS_PORT r (adev s)) in *. pose proof (rtc_get d1) as Hg.
  destruct (inb CMOS_RETURN d1) as [v d]. destruct Hg as (B2 & HB & HZ & HP). rewrite I1, D1, B1, U1 in *. rewrite wp_bind, wp_modify, wp_ret. cbn [amem lapicp adev].
  apply HQ; [|done|by intros ?; apply HZ|by intros ?; apply HP]. split; [congruence|]. split; [intros Hz; by destruct (HZ Hz) as (? & ? & _)|intros Hp; by apply HP].
Qed.

Lemma fill_spec Q s :
  (forall t d, later (adev s) d -> (rtc_updating (adev s) = 0%nat -> t = shown_date (rtc_binary (adev s)) (rtc_date (adev s))) ->
     Q t (mkapic (amem s) (lapicp s) d)) -> wp fill_rtcdate Q s.
Proof.
  intros HQ. unfold fill_rtcdate.
  rewrite wp_bind. apply cmos_read_spec; [done|]. intros v1 d1 L1 _ S1 _. rewrite wp_bind. apply cmos_read_spec; [done|]. intros v2 d2 L2 _ S2 _.
  rewrite wp_bind. apply cmos_read_spec; [done|]. intros v3 d3 L3 _ S3 _. rewrite wp_bind. apply cmos_read_spec; [done|]. intros v4 d4 L4 _ S4 _.
  rewrite wp_bind. apply cmos_read_spec; [done|]. intros v5 d5 L5 _ S5 _. rewrite wp_bind. apply cmos_read_spec; [done|]. intros v6 d6 L6 _ S6 _.
  rewrite wp_ret. cbn [amem lapicp adev] in *.
  pose proof (later_trans _ _ _ L1 L2) as M2. pose proof (later_trans _ _ _ M2 L3) as M3. pose proof (later_trans _ _ _ M3 L4) as M4. pose proof (later_trans _ _ _ M4 L5) as M5.
  apply HQ; [by eapply later_trans|]. intros Hz.
  assert (forall d, later (adev s) d -> rtc_updating d = 0%nat /\ rtc_binary d = rtc_binary (adev s) /\ rtc_date d = rtc_date (adev s)) as Hd
    by (intros d (Hb & HZ & _); by destruct (HZ Hz)).
  destruct (Hd _ L1) as (U1 & B1 & D1), (Hd _ M2) as (U2 & B2 & D2), (Hd _ M3) as (U3 & B3 & D3), (Hd _ M4) as (U4 & B4 & D4), (Hd _ M5) as (U5 & B5 & D5).
  rewrite B1, D1 in S2. rewrite B2, D2 in S3. rewrite B3, D3 in S4. rewrite B4, D4 in S5. rewrite B5, D5 in S6.
  unfold shown_date. f_equal; [apply (S1 Hz)|apply (S2 U1)|apply (S3 U2)|apply (S4 U3)|apply (S5 U4)|apply (S6 U5)]; done.
Qed.

Lemma cmostime_loop_spec fuel Q s : (rtc_updating (adev s) < fuel)%nat ->
  (forall d, rtc_binary d = rtc_binary (adev s) -> rtc_updating d = 0%nat ->
     Q (shown_date (rtc_binary d) (rtc_date d)) (mkapic (amem s) (lapicp s) d)) ->
  wp (cmostime_loop fuel) Q s.
Proof.
  revert s. induction fuel as [|fuel IH]; intros s Hf HQ; [lia|]. cbn [cmostime_loop]. rewrite wp_bind. apply fill_spec. intros t1 d1 L1 T1.
  rewrite wp_bind. apply cmos_read_spec; [done|]. intros st d2 L2 _ S2 P2. cbn [amem lapicp adev] in *. pose proof (later_trans _ _ _ L1 L2) as M2.
  assert (forall d, later (adev s) d -> rtc_updating (adev s) <> 0%nat -> wp (cmostime_loop fuel) Q (mkapic (amem s) (lapicp s) d)) as Hagain.
  { intros d (B & _ & P) Hn. apply IH; [cbn [adev]; specialize (P Hn); lia|]. intros d' B' U'. apply HQ; [by rewrite B'|done]. }
  destruct (decide (rtc_updating d1 = 0%nat)) as [U1|U1].
  - destruct (S2 U1) as (_ & _ & _ & _ & _ & _ & HA). rewrite (HA eq_refl). cbn [Z.eqb negb]. rewrite wp_bind. apply fill_spec. intros t2 d3 L3 T3. cbn [amem lapicp adev] in *.
    destruct L2 as (B2 & Z2 & _). destruct (Z2 U1) as [U2 D2]. pose proof L3 as (B3 & Z3 & _). destruct (Z3 U2) as [U3 D3].
    rewrite T3 by done. rewrite <- B3, <- D3. destruct (decide (t1 = shown_date (rtc_binary d3) (rtc_date d3))) as [->|Hne].
    + rewrite bool_decide_eq_true_2 by done. rewrite wp_ret. apply HQ; [|done]. destruct L1 as (B1 & _). congruence.
    + rewrite bool_decide_eq_false_2 by done. apply Hagain; [by eapply later_trans|]. intros Hz. apply Hne. rewrite T1 by done.
      destruct L1 as (B1 & Z1 & _). destruct (Z1 Hz) as [_ D1]. congruence.
  - specialize (P2 U1 eq_refl). destruct (Z.eqb_spec (Z.land st CMOS_UIP) 0); [done|]. cbn [negb]. apply Hagain; [done|].
    destruct L1 as (_ & Z1 & _). intros Hz. by destruct (Z1 Hz).
Qed.

End clock.

(** * The I/O APIC *)

Class Ioapic (D : Type) `{IoapicRegs D} := {
  io_sel : D -> Z;
  io_reg : D -> Z -> Z;
  io_select r d : let d' := ioapic_select r d in io_sel d' = r /\ forall x, io_reg d' x = io_reg d x;
  io_get d : let '(v, d') := ioapic_get d in v = io_reg d (io_sel d) /\ forall x, io_reg d' x = io_reg d x;
  io_put v d : REG_TABLE <= io_sel d -> forall x, io_reg (ioapic_put v d) x = if x =? io_sel d then v else io_reg d x
}.

(** Line [i] as the redirection table has it. *)
Inductive route := Disabled | To (cpu : Z).
Definition line {D} `{Ioapic D} (d : D) (i : Z) : Z * Z := (io_reg d (REG_TABLE + 2 * i), io_reg d (REG_TABLE + 2 * i + 1)).
Definition route_line (i : Z) (r : route) : Z * Z :=
  match r with
  | Disabled => (Z.lor INT_DISABLED (T_IRQ0 + i), 0)
  | To cpu => (T_IRQ0 + i, u32 (Z.shiftl cpu 24))
  end.
(** What a sequence of calls [ioapicenable irq cpu] leaves of line [i]. *)
Definition routed (es : list (Z * Z)) (i : Z) : route :=
  foldl (fun r '(irq, cpu) => if irq =? i then To cpu else r) Disabled es.

Section ioapic.
Context {D : Type} `{Ports D} `{LapicRegs D} `{IoapicRegs D} `{!Ioapic D}.
Implicit Types (s : apicst D) (d : D).

Lemma ioapicread_spec r Q s :
  (forall d, (forall x, io_reg d x = io_reg (adev s) x) -> Q (io_reg (adev s) r) (mkapic (amem s) (lapicp s) d)) -> wp (ioapicread r) Q s.
Proof.
  intros HQ. unfold ioapicread, set_adev. rewrite wp_bind, wp_get. destruct (io_select r (adev s)) as [E1 R1]. set (d1 := ioapic_select r (adev s)) in *.
  pose proof (io_get d1) as Hg. destruct (ioapic_get d1) as [v d]. destruct Hg as [-> Hg]. rewrite wp_bind, wp_modify, wp_ret. cbn [amem lapicp].
  rewrite E1, R1. apply HQ. intros x. by rewrite Hg.
Qed.
Lemma ioapicwrite_spec r v Q s : REG_TABLE <= r ->
  (forall d, (forall x, io_reg d x = if x =? r then u32 v else io_reg (adev s) x) -> Q tt (mkapic (amem s) (lapicp s) d)) -> wp (ioapicwrite r v) Q s.
Proof.
  intros Hr HQ. unfold ioapicwrite, set_adev. rewrite wp_bind, wp_get, wp_modify. destruct (io_select r (adev s)) as [E1 R1].
  apply HQ. intros x. rewrite io_put by (by rewrite E1). by rewrite E1, R1.
Qed.

(** The two registers of line [i] are written, and no other. *)
Lemma write_line i a b Q s : 0 <= i ->
  (forall d, line d i = (u32 a, u32 b) -> (forall j, 0 <= j -> j <> i -> line d j = line (adev s) j) -> Q tt (mkapic (amem s) (lapicp s) d)) ->
  wp (do! ioapicwrite (REG_TABLE + 2 * i) a; ioapicwrite (REG_TABLE + 2 * i + 1) b) Q s.
Proof.
  intros Hi HQ. rewrite wp_bind. apply ioapicwrite_spec; [lia|]. intros d1 R1. apply ioapicwrite_spec; [lia|]. cbn [amem lapicp adev]. intros d2 R2.
  apply HQ; unfold line.
  - rewrite !R2, !R1. destruct (Z.eqb_spec (REG_TABLE + 2 * i) (REG_TABLE + 2 * i + 1)); [lia|]. by rewrite !Z.eqb_refl.
  - intros j Hj Hne. rewrite !R2, !R1.
    repeat match goal with |- context [?x =? ?y] => destruct (Z.eqb_spec x y); [lia|] end. done.
Qed.

Lemma ioapicinit_spec ioapicid Q s :
  let n := Z.land (Z.shiftr (io_reg (adev s) REG_VER) 16) 0xFF in
  (forall r d, (forall i, 0 <= i <= n -> line d i = route_line i Disabled) -> Q r (mkapic (amem s) (lapicp s) d)) -> wp (ioapicinit ioapicid) Q s.
Proof.
  intros n HQ. unfold ioapicinit. rewrite wp_bind. apply ioapicread_spec. intros d1 R1. rewrite wp_bind. apply ioapicread_spec. cbn [amem lapicp adev]. intros d2 R2.
  fold n. assert (0 <= n < 2 ^ 8) as Hn by (unfold n; change 0xFF with (Z.ones 8); rewrite Z.land_ones by lia; apply Z.mod_pos_bound; lia).
  rewrite wp_bind. eapply wp_mono.
  - apply (wp_for_seq (fun k s' => exists d, s' = mkapic (amem s) (lapicp s) d /\ forall i, 0 <= i < Z.of_nat k -> line d i = route_line i Disabled)).
    + exists d2. split; [done|lia].
    + intros j s' Hj (d & -> & Hd). apply write_line; [lia|]. cbn [amem lapicp adev]. intros d' Hl Ho. exists d'. split; [done|]. intros i Hi.
      destruct (decide (i = Z.of_nat j)) as [->|]; [|rewrite Ho by lia; apply Hd; lia]. rewrite Hl. cbn [route_line]. f_equal.
      apply u32_small. split; [by apply Z.lor_nonneg; unfold INT_DISABLED, T_IRQ0; lia|]. apply Z.log2_lt_cancel. rewrite Z.log2_lor by (unfold INT_DISABLED, T_IRQ0; lia).
      rewrite Z.log2_pow2 by lia. apply Z.max_lub_lt; [done|]. eapply Z.le_lt_trans; [apply (Z.log2_le_mono _ (2 ^ 9)); unfold T_IRQ0; lia|done].
  - intros _ s' (d & -> & Hd). rewrite wp_ret. apply HQ. intros i Hi. apply Hd. lia.
Qed.

Lemma enables_spec n es : n < 2 ^ 8 -> Forall (fun '(irq, _) => 0 <= irq <= n) es -> forall r0 s,
  (forall i, 0 <= i <= n -> line (adev s) i = route_line i (r0 i)) ->
  wp (for_each es (fun '(irq, cpu) => ioapicenable irq cpu))
    (fun _ s' => forall i, 0 <= i <= n -> line (adev s') i = route_line i (foldl (fun r '(irq, cpu) => if irq =? i then To cpu else r) (r0 i) es)) s.
Proof.
  intros Hn. induction 1 as [|[irq cpu] es Hirq _ IH]; intros r0 s Hl; cbn [for_each foldl]; [done|]. rewrite wp_bind. apply write_line; [lia|].
  intros d Hd Ho. eapply wp_mono; [apply (IH (fun i => if irq =? i then To cpu else r0 i))|done]. cbn [adev]. intros i Hi.
  destruct (Z.eqb_spec irq i) as [->|Hne]; [|rewrite Ho by lia; by apply Hl]. rewrite Hd. cbn [route_line]. f_equal. apply u32_small. unfold T_IRQ0. lia.
Qed.

(** C34: The I/O APIC after [ioapicinit] and any calls of [ioapicenable]: each line that was
    enabled delivers its own vector to the processor of the last call for it, and every other
    line is disabled. *)
Theorem ioapic_routes ioapicid es s :
  let n := Z.land (Z.shiftr (io_reg (adev s) REG_VER) 16) 0xFF in
  Forall (fun '(irq, _) => 0 <= irq <= n) es ->
  wp (do! ioapicinit ioapicid; for_each es (fun '(irq, cpu) => ioapicenable irq cpu))
    (fun _ s' => forall i, 0 <= i <= n -> line (adev s') i = route_line i (routed es i)) s.
Proof.
  intros n Hes. rewrite wp_bind. apply ioapicinit_spec. fold n. intros r d Hd.
  assert (n < 2 ^ 8) as Hn by (unfold n; change 0xFF with (Z.ones 8); rewrite Z.land_ones by lia; apply Z.mod_pos_bound; lia).
  by apply (enables_spec n es Hn Hes (fun _ => Disabled)).
Qed.
End ioapic.

(** * A board *)

(** [bd_time] counts seconds from midnight of one day; the update in progress ends by advancing it. *)
Record board := mkboard { bd_time : Z; bd_left : nat; bd_index : Z; bd_io : Z -> Z; bd_sel : Z }.
Definition bd_date (b : board) : rtcdate := mkdate (bd_time b mod 60) (bd_time b / 60 mod 60) (bd_time b / 3600 mod 24) 15 11 26.
Definition bcd_reg (t : rtcdate) (r : Z) : Z :=
  if r =? SECS then shown false (second t) else if r =? MINS then shown false (minute t) else if r =? HOURS then shown false (hour t)
  else if r =? DAY then shown false (day t) else if r =? MONTH then shown false (month t) else if r =? YEAR then shown false (year t) else 0.

#[export] Instance board_ports : Ports board := {
  inb p b := if p =? CMOS_RETURN
    then (if (bd_left b =? 0)%nat then bcd_reg (bd_date b) (bd_index b) else if bd_index b =? CMOS_STATB then 0 else 0xFF,
          mkboard (if (bd_left b =? 1)%nat then bd_time b + 1 else bd_time b) (pred (bd_left b)) (bd_index b) (bd_io b) (bd_sel b))
    else (0, b);
  outb p v b := if p =? CMOS_PORT then mkboard (bd_time b) (bd_left b) v (bd_io b) (bd_sel b) else b
}.
#[export] Instance board_lapic : LapicRegs board := { lapic_read i b := (0, b); lapic_write i v b := b }.
#[export] Instance board_ioapic : IoapicRegs board := {
  ioapic_select r b := mkboard (bd_time b) (bd_left b) (bd_index b) (bd_io b) r;
  ioapic_get b := (bd_io b (bd_sel b), b);
  ioapic_put v b := mkboard (bd_time b) (bd_left b) (bd_index b) (<[bd_sel b := v]> (bd_io b)) (bd_sel b)
}.
#[export] Program Instance board_rtc : Rtc board := {
  rtc_date := bd_date; rtc_binary _ := false; rtc_index := bd_index; rtc_updating := bd_left
}.
Next Obligation.
  intros b. cbn. pose proof (Z.mod_pos_bound (bd_time b) 60). pose proof (Z.mod_pos_bound (bd_time b / 60) 60). pose proof (Z.mod_pos_bound (bd_time b / 3600) 24).
  repeat constructor; lia.
Qed.
Next Obligation. done. Qed.
Next Obligation.
  intros [t u r io sel]. cbn. split; [done|]. split; [|split].
  - intros ->. by destruct u.
  - intros ->. cbn. split; [done|]. split; [done|]. repeat split; by intros ->.
  - destruct u as [|u]; [done|]. intros _. split; [lia|]. by intros ->.
Qed.
#[export] Program Instance board_io : Ioapic board := { io_sel := bd_sel; io_reg := bd_io }.
Next Obligation. done. Qed.
Next Obligation. done. Qed.
Next Obligation.
  intros v b _ x. cbn. destruct (Z.eqb_spec x (bd_sel b)) as [->|Hne]; [by rewrite fn_lookup_insert|by rewrite fn_lookup_insert_ne].
Qed.

(** One second before one o'clock, while the clock is being updated, on a board of 24 lines. *)
Definition board0 : board := mkboard 3599 9 0 (fun r => if r =? REG_VER then 0x170011 else 0) 0.

Definition apic0 : apicst board := mkapic (fun _ => 0) 0 board0.


(** The disk's interrupt goes to processor 1. *)
Lemma ioapic_routes_witness :
  wp (do! ioapicinit 0; for_each [(4, 0); (14, 1)] (fun '(irq, cpu) => ioapicenable irq cpu))
    (fun _ s => line (adev s) 14 = (46, 2 ^ 24) /\ line (adev s) 4 = (36, 0) /\ line (adev s) 1 = (INT_DISABLED + 33, 0)) apic0.
Proof.
  eapply wp_mono; [apply (ioapic_routes 0 [(4, 0); (14, 1)] apic0)|].
  - repeat constructor; vm_compute; congruence.
  - intros [] s Hs. rewrite !Hs by (vm_compute; split; congruence). repeat split; reflexivity.
Defined.
