(* ===== verification/BioSpec.v ===== *)
(** What the buffer cache promises, and that [bio.c] keeps the promise.

    [bspec] is the cache as its users see it: the contents of every block, the
    disk, the blocks whose contents are not on the disk yet ([B_DIRTY]), the
    buffers the caller holds and the block each is for, and the history of the
    disk writes.  [brep] relates it to the buffers, the list through them and the
    disk of [Bio.v]; the lemmas of this file give each operation by what it does to
    the [bspec]. *)

From S2P Require Import Prelude CString Mem Bio.
Import Bio.

Record bspec : Type := mkbspec {
  content : list (list Z);
  disk : list (list Z);
  dirty : gset nat;
  held : gmap nat nat;
  hist : list (nat * list Z)
}.

(** A buffer never used, or one that caches a block. *)
Definition buf_ok (me : Z) (a : bspec) (i : nat) (x : buf) : Prop :=
  (b_dev x = 0 /\ b_flags x = 0 /\ b_refcnt x = 0 /\ b_locked x = 0 /\ held a !! i = None) \/
  (exists b, b_dev x = 1 /\ b_blockno x = Z.of_nat b /\ content a !! b = Some (b_data x) /\
     b_flags x = (if decide (b ∈ dirty a) then 6 else 2) /\
     match held a !! i with
     | Some b' => b' = b /\ b_locked x = 1 /\ b_pid x = me /\ b_refcnt x = 1
     | None => b_locked x = 0 /\ b_refcnt x = 0
     end).

Definition blocks_ok (l : list (list Z)) : Prop := Forall (fun d => length d = BSIZE) l.

Record brep (me : Z) (s : bst) (a : bspec) : Prop := {
  br_ring : exists l, ring s l;
  br_len : length (bufs s) = NBUF;
  br_me : mypid s = me;
  br_disk : memdisk s = disk a;
  br_hist : writes s = hist a;
  br_size : length (content a) = length (disk a);
  br_blocks : blocks_ok (content a) /\ blocks_ok (disk a);
  br_bufs : forall i x, bufs s !! i = Some x -> buf_ok me a i x;
  br_uniq : forall i j x y, bufs s !! i = Some x -> bufs s !! j = Some y ->
    b_dev x = 1 -> b_dev y = 1 -> b_blockno x = b_blockno y -> i = j;
  br_dirty : forall b, b ∈ dirty a ->
    exists i x, bufs s !! i = Some x /\ b_dev x = 1 /\ b_blockno x = Z.of_nat b;
  br_clean : forall b, b ∉ dirty a -> (forall i, held a !! i <> Some b) -> content a !! b = disk a !! b;
  br_held : forall i b, held a !! i = Some b -> (i < NBUF)%nat
}.

Implicit Types (s : bst) (a : bspec) (x y : buf) (i j b : nat).

(** ** Reading the representation *)

Lemma brep_held me s a i b :
  brep me s a -> held a !! i = Some b ->
  exists x, bufs s !! i = Some x /\ b_dev x = 1 /\ b_blockno x = Z.of_nat b /\
    content a !! b = Some (b_data x) /\ b_flags x = (if decide (b ∈ dirty a) then 6 else 2) /\
    b_locked x = 1 /\ b_pid x = me /\ b_refcnt x = 1.
Proof.
  intros Hr Hi. destruct (lookup_lt_is_Some_2 (bufs s) i) as [x Hx].
  { rewrite (br_len _ _ _ Hr). by eapply br_held. }
  exists x. split; [done|]. destruct (br_bufs _ _ _ Hr _ _ Hx) as [(_ & _ & _ & _ & ?)|(b' & H1 & H2 & H3 & H4 & H5)];
    [congruence|]. rewrite Hi in H5. destruct H5 as (<- & ?). naive_solver.
Qed.

Lemma brep_held_lt me s a i b : brep me s a -> held a !! i = Some b -> (b < length (disk a))%nat.
Proof.
  intros Hr Hi. destruct (brep_held _ _ _ _ _ Hr Hi) as (x & _ & _ & _ & Hc & _).
  rewrite <- (br_size _ _ _ Hr). by eapply lookup_lt_Some.
Qed.

(** A buffer is free when few blocks are held or dirty. *)
Lemma free_buffer me s a :
  brep me s a -> (size (held a) + size (dirty a) < NBUF)%nat ->
  exists i x, bufs s !! i = Some x /\ b_refcnt x = 0 /\ Z.land (b_flags x) B_DIRTY = 0.
Proof.
  intros Hr Hsz.
  destruct (List.find (buf_is s (fun x => (b_refcnt x =? 0) && (Z.land (b_flags x) B_DIRTY =? 0))) (seq 0 NBUF))
    as [i|] eqn:Hf.
  { apply find_some in Hf as [_ Hf]. unfold buf_is in Hf. destruct (bufs s !! i) as [x|] eqn:Hx; [|done].
    apply andb_true_iff in Hf as [H1 H2]. exists i, x. split; [done|]. by apply Z.eqb_eq in H1, H2. }
  exfalso. pose proof (find_none _ _ Hf) as Hno.
  assert (forall i, (i < NBUF)%nat -> exists x, bufs s !! i = Some x /\
    (is_Some (held a !! i) \/ exists b, b_dev x = 1 /\ b_blockno x = Z.of_nat b /\ b ∈ dirty a)) as Hbusy.
  { intros i Hi. destruct (lookup_lt_is_Some_2 (bufs s) i) as [x Hx]; [by rewrite (br_len _ _ _ Hr)|].
    exists x. split; [done|]. specialize (Hno i). rewrite in_seq in Hno. specialize (Hno ltac:(lia)). unfold buf_is in Hno. rewrite Hx in Hno.
    destruct (br_bufs _ _ _ Hr _ _ Hx) as [(_ & H2 & H3 & _)|(b & H1 & H2 & _ & H4 & H5)].
    - rewrite H2, H3 in Hno. done.
    - destruct (held a !! i) as [b'|]; [by left; eauto|right]. exists b. split; [done|]. split; [done|].
      destruct H5 as [_ H5]. rewrite H4, H5 in Hno. by case_decide. }
  set (f i := match held a !! i with Some _ => inl i | None =>
    match bufs s !! i with Some x => inr (Z.to_nat (b_blockno x)) | None => inl i end end : nat + nat).
  assert (NoDup (f <$> seq 0 NBUF)) as Hnd.
  { apply NoDup_fmap_2_strong; [|apply NoDup_seq]. intros i j Hi Hj Heq.
    apply elem_of_seq in Hi, Hj. destruct (Hbusy i) as (x & Hx & Hbx); [lia|].
    destruct (Hbusy j) as (y & Hy & Hby); [lia|]. unfold f in Heq. rewrite Hx, Hy in Heq.
    destruct (held a !! i); destruct (held a !! j); simplify_eq; try done.
    destruct Hbx as [[]|(b & H1 & H2 & _)]; [done|]. destruct Hby as [[]|(b' & H1' & H2' & _)]; [done|].
    apply (br_uniq _ _ _ Hr i j x y); try done. rewrite H2, H2' in *. lia. }
  assert (forall z, z ∈ f <$> seq 0 NBUF -> z ∈ (inl <$> elements (dom (held a))) ++ (inr <$> elements (dirty a))) as Hsub.
  { intros z (i & -> & Hi)%list_elem_of_fmap. apply elem_of_seq in Hi. destruct (Hbusy i) as (x & Hx & Hb); [lia|].
    unfold f. rewrite Hx. apply elem_of_app. destruct (held a !! i) as [b|] eqn:Hhi; [left|right].
    - apply list_elem_of_fmap_2. apply elem_of_elements, elem_of_dom. by exists b.
    - destruct Hb as [[]|(b & _ & -> & Hd)]; [done|]. rewrite Nat2Z.id.
      by apply list_elem_of_fmap_2, elem_of_elements. }
  pose proof (submseteq_length _ _ (NoDup_submseteq _ _ Hnd Hsub)) as Hle.
  rewrite length_app, !length_fmap, length_seq in Hle. unfold size, map_size, set_size in Hsz.
  change (length (elements (dom (held a)))) with (size (dom (held a))) in Hle. rewrite size_dom in Hle.
  unfold size, map_size, set_size in *. cbn in *. lia.
Qed.

(** ** Changing one buffer *)

Lemma brep_put me s s' a a' i x x' :
  brep me s a -> bufs s !! i = Some x -> bufs s' = <[i := x']> (bufs s) ->
  (exists l, ring s' l) -> mypid s' = me -> memdisk s' = disk a' -> writes s' = hist a' ->
  length (content a') = length (disk a') -> blocks_ok (content a') -> blocks_ok (disk a') ->
  buf_ok me a' i x' -> (forall j y, j <> i -> bufs s !! j = Some y -> buf_ok me a' j y) ->
  (b_dev x' = 1 -> forall j y, j <> i -> bufs s !! j = Some y -> b_dev y = 1 -> b_blockno y <> b_blockno x') ->
  (forall b, b ∈ dirty a' -> exists j y, <[i := x']> (bufs s) !! j = Some y /\ b_dev y = 1 /\ b_blockno y = Z.of_nat b) ->
  (forall b, b ∉ dirty a' -> (forall j, held a' !! j <> Some b) -> content a' !! b = disk a' !! b) ->
  (forall j b, held a' !! j = Some b -> (j < NBUF)%nat) ->
  brep me s' a'.
Proof.
  intros Hr Hx Hb Hring Hme Hd Hh Hsz Hc Hdb Hok Hoth Hu Hdir Hcl Hhl.
  pose proof (lookup_lt_Some _ _ _ Hx) as Hlt.
  assert (forall j y, bufs s' !! j = Some y -> (j = i /\ y = x') \/ (j <> i /\ bufs s !! j = Some y)) as Hlook.
  { intros j y. rewrite Hb. destruct (decide (j = i)) as [->|]; [rewrite list_lookup_insert_eq by done; naive_solver|].
    rewrite list_lookup_insert_ne by done. auto. }
  constructor; try done.
  - rewrite Hb, length_insert. apply Hr.
  - intros j y [[-> ->]|[Hj Hy]]%Hlook; [done|]. by apply Hoth.
  - intros j k y z [[-> ->]|[Hj Hy]]%Hlook [[-> ->]|[Hk Hz]]%Hlook H1 H2 H3; [done|..].
    + by destruct (Hu H1 k z Hk Hz H2).
    + by destruct (Hu H2 j y Hj Hy H1).
    + by eapply (br_uniq _ _ _ Hr j k y z).
  - by rewrite Hb.
Qed.

(** The other buffers do not notice when the spec changes only at their edges. *)
Lemma buf_ok_frame me a a' j y :
  buf_ok me a j y -> held a' !! j = held a !! j ->
  (forall b, b_dev y = 1 -> b_blockno y = Z.of_nat b -> content a' !! b = content a !! b /\ (b ∈ dirty a' <-> b ∈ dirty a)) ->
  buf_ok me a' j y.
Proof.
  intros [H|(b & H1 & H2 & H3 & H4 & H5)] Hh Hc; [left|right].
  - by rewrite Hh.
  - exists b. rewrite Hh. destruct (Hc b H1 H2) as [-> Hd]. do 3 (split; [done|]). split; [|done].
    rewrite H4. repeat case_decide; naive_solver.
Qed.

Lemma wp_holdingsleep i s x (Q : bool -> bst -> Prop) :
  bufs s !! i = Some x -> Q (negb (b_locked x =? 0) && (b_pid x =? mypid s)) s -> wp (holdingsleep i) Q s.
Proof. intros Hx H. unfold holdingsleep. rewrite wp_bind, wp_get_buf. exists x. split; [done|]. by wp_steps. Qed.

Definition set_bufs (l : list buf) s : bst :=
  mkbst l (nexts s) (prevs s) (memdisk s) (mypid s) (writes s).

Lemma wp_set_buf_eq i f x s (Q : unit -> bst -> Prop) :
  bufs s !! i = Some x -> Q tt (set_bufs (<[i := f x]> (bufs s)) s) -> wp (set_buf i f) Q s.
Proof. intros Hx H. rewrite wp_set_buf. split; [by eexists|]. by rewrite (list_alter_insert _ _ _ x Hx). Qed.

Lemma wp_acquiresleep i x s (Q : unit -> bst -> Prop) :
  bufs s !! i = Some x -> b_locked x = 0 ->
  Q tt (set_bufs (<[i := set_b_lock 1 (mypid s) x]> (bufs s)) s) -> wp (acquiresleep i) Q s.
Proof.
  intros Hx Hl H. unfold acquiresleep. rewrite wp_bind, wp_get_buf. exists x. split; [done|]. rewrite Hl. cbn [negb Z.eqb].
  wp_steps. by eapply wp_set_buf_eq.
Qed.

Lemma ring_bufs s l bs : ring s l -> ring (set_bufs bs s) l.
Proof. by intros []. Qed.

(** ** [bread] *)

Definition sp_bread (i b : nat) (a : bspec) : bspec :=
  mkbspec (content a) (disk a) (dirty a) (<[i := b]> (held a)) (hist a).

Lemma bget_hit me s a i x b :
  brep me s a -> bufs s !! i = Some x -> b_dev x = 1 -> b_blockno x = Z.of_nat b ->
  (forall j, held a !! j <> Some b) ->
  held a !! i = None /\ b_locked x = 0 /\ b_refcnt x = 0 /\ Z.land (b_flags x) B_VALID <> 0 /\
  brep me (set_bufs (<[i := set_b_lock 1 me (set_b_refcnt 1 x)]> (bufs s)) s) (sp_bread i b a).
Proof.
  intros Hr Hx Hdev Hbno Hnh.
  destruct (br_bufs _ _ _ Hr _ _ Hx) as [(? & _)|(b' & H1 & H2 & H3 & H4 & H5)]; [congruence|].
  assert (b' = b) as -> by lia. destruct (held a !! i) as [b'|] eqn:Hi.
  { destruct H5 as [-> _]. by destruct (Hnh i). }
  destruct H5 as [Hl Hrc]. do 3 (split; [done|]). split; [rewrite H4; by case_decide|].
  destruct (br_ring _ _ _ Hr) as [l Hl'].
  eapply (brep_put me s _ a _ i x); [done|done|done|..].
  - exists l. by apply ring_bufs.
  - apply Hr.
  - apply Hr.
  - apply Hr.
  - apply Hr.
  - apply Hr.
  - apply Hr.
  - right. exists b. cbn. rewrite lookup_insert_eq. done.
  - intros j y Hj Hy. eapply buf_ok_frame; [by eapply br_bufs|cbn; by rewrite lookup_insert_ne|done].
  - intros _ j y Hj Hy Hd Heq. apply Hj. by eapply (br_uniq _ _ _ Hr j i y x).
  - intros c (j & y & Hy & Hd & Hc)%(br_dirty _ _ _ Hr). destruct (decide (j = i)) as [->|Hne].
    + exists i. eexists. rewrite list_lookup_insert_eq by (by eapply lookup_lt_Some). split; [reflexivity|].
      assert (y = x) as -> by congruence. done.
    + exists j, y. by rewrite list_lookup_insert_ne.
  - intros c Hc Hn. apply (br_clean _ _ _ Hr c Hc). intros j Hj. destruct (decide (j = i)) as [->|Hne]; [congruence|].
    apply (Hn j). cbn. by rewrite lookup_insert_ne.
  - intros j c. cbn. destruct (decide (j = i)) as [->|Hne].
    + intros _. rewrite <- (br_len _ _ _ Hr). by eapply lookup_lt_Some.
    + rewrite lookup_insert_ne by done. by apply Hr.
Qed.

Lemma bget_miss me s a i x b d :
  brep me s a -> bufs s !! i = Some x -> b_refcnt x = 0 -> Z.land (b_flags x) B_DIRTY = 0 ->
  (forall j y, bufs s !! j = Some y -> b_dev y = 1 -> b_blockno y <> Z.of_nat b) ->
  (forall j, held a !! j <> Some b) -> disk a !! b = Some d ->
  held a !! i = None /\ b_locked x = 0 /\
  brep me (set_bufs (<[i := mkbuf 2 1 (Z.of_nat b) 1 me 1 d]> (bufs s)) s) (sp_bread i b a).
Proof.
  intros Hr Hx Hrc Hfl Hno Hnh Hd. pose proof (lookup_lt_Some _ _ _ Hx) as Hlt.
  assert (held a !! i = None /\ b_locked x = 0) as [Hi Hl].
  { destruct (br_bufs _ _ _ Hr _ _ Hx) as [(_ & _ & _ & ? & ?)|(b' & _ & _ & _ & _ & H5)]; [done|].
    destruct (held a !! i); [lia|]. naive_solver. }
  split; [done|]. split; [done|]. assert (b ∉ dirty a) as Hbd.
  { intros (j & y & Hy & H1 & H2)%(br_dirty _ _ _ Hr). by destruct (Hno j y Hy H1). }
  assert (content a !! b = Some d) as Hcb by (by rewrite (br_clean _ _ _ Hr b Hbd Hnh)).
  assert (forall c, c ∈ dirty a -> b_dev x = 1 -> b_blockno x <> Z.of_nat c) as Hxd.
  { intros c Hc H1 H2. destruct (br_bufs _ _ _ Hr _ _ Hx) as [(? & _)|(c' & _ & H3 & _ & H4 & _)]; [congruence|].
    assert (c' = c) as -> by lia. rewrite H4, decide_True in Hfl by done. done. }
  destruct (br_ring _ _ _ Hr) as [l Hl'].
  eapply (brep_put me s _ a _ i x); [done|done|done|..].
  - exists l. by apply ring_bufs.
  - apply Hr.
  - apply Hr.
  - apply Hr.
  - apply Hr.
  - apply Hr.
  - apply Hr.
  - right. exists b. cbn. rewrite lookup_insert_eq, decide_False by done. done.
  - intros j y Hj Hy. eapply buf_ok_frame; [by eapply br_bufs|cbn; by rewrite lookup_insert_ne|done].
  - intros _ j y Hj Hy Hdv. cbn. by apply Hno with j.
  - intros c Hc. pose proof Hc as (j & y & Hy & Hdv & Hbn)%(br_dirty _ _ _ Hr). exists j, y.
    rewrite list_lookup_insert_ne; [done|]. intros <-. simplify_eq. by eapply Hxd.
  - intros c Hc Hn. apply (br_clean _ _ _ Hr c Hc). intros j Hj. destruct (decide (j = i)) as [->|Hne]; [congruence|].
    apply (Hn j). cbn. by rewrite lookup_insert_ne.
  - intros j c. cbn. destruct (decide (j = i)) as [->|Hne].
    + intros _. rewrite <- (br_len _ _ _ Hr). done.
    + rewrite lookup_insert_ne by done. by apply Hr.
Qed.

(** [iderw] past its checks. *)
Lemma iderw_go i x s b (Q : unit -> bst -> Prop) :
  bufs s !! i = Some x -> b_locked x = 1 -> b_pid x = mypid s -> b_dev x = 1 -> b_blockno x = Z.of_nat b ->
  (b < length (memdisk s))%nat -> b_flags x = 0 \/ b_flags x = 6 ->
  Q tt (if decide (b_flags x = 6)
        then mkbst (<[i := set_b_flags 2 x]> (bufs s)) (nexts s) (prevs s) (<[b := b_data x]> (memdisk s)) (mypid s)
               (writes s ++ [(b, b_data x)])
        else set_bufs (<[i := set_b_flags 2 (set_b_data (memdisk s !!! b) x)]> (bufs s)) s) ->
  wp (iderw i) Q s.
Proof.
  intros Hx Hl Hp Hd Hbn Hlt Hf HQ. pose proof (lookup_lt_Some _ _ _ Hx) as Hil.
  unfold iderw. rewrite wp_bind. eapply wp_holdingsleep; [done|]. rewrite Hl, Hp, Z.eqb_refl. cbn [negb Z.eqb andb].
  rewrite wp_bind, wp_get_buf. exists x. split; [done|].
  replace (Z.land (b_flags x) (Z.lor B_VALID B_DIRTY) =? B_VALID) with false by (by destruct Hf as [-> | ->]).
  rewrite Hd, Hbn. change (negb (1 =? 1)) with false. cbn iota. rewrite wp_bind, wp_gets.
  destruct (Z.of_nat b >=? Z.of_nat (length (memdisk s))) eqn:E; zb; [lia|]. rewrite wp_bind, Nat2Z.id.
  destruct Hf as [Hf|Hf]; rewrite Hf in *.
  - change (negb (Z.land 0 B_DIRTY =? 0)) with false. cbn iota. wp_steps. destruct (lookup_lt_is_Some_2 _ _ Hlt) as [d Hd'].
    exists d. split; [done|]. eapply wp_set_buf_eq; [done|].
    eapply wp_set_buf_eq; [by apply list_lookup_insert_eq|]. rewrite decide_False in HQ by done.
    rewrite (list_lookup_total_correct _ _ _ Hd') in HQ. unfold set_bufs in *. cbn in *. rewrite list_insert_insert_eq, Hf. done.
  - change (negb (Z.land 6 B_DIRTY =? 0)) with true. cbn iota. rewrite wp_bind. eapply wp_set_buf_eq; [done|]. rewrite wp_modify.
    eapply wp_set_buf_eq; [by apply list_lookup_insert_eq|]. rewrite decide_True in HQ by done.
    unfold set_bufs in *. cbn in *. rewrite list_insert_insert_eq, Hf. done.
Qed.

Lemma find_ring s l f r :
  ring s l -> length (bufs s) = NBUF -> List.find (buf_is s f) l = r \/ List.find (buf_is s f) (rev l) = r ->
  match r with
  | Some i => exists x, bufs s !! i = Some x /\ f x = true
  | None => forall i x, bufs s !! i = Some x -> f x = false
  end.
Proof.
  intros Hr Hlen Hf. assert (exists l', l' ≡ₚ l /\ List.find (buf_is s f) l' = r) as (l' & Hp & Hf').
  { destruct Hf; [by exists l|exists (rev l)]. split; [symmetry; apply Permutation_rev|done]. }
  destruct r as [i|].
  - apply find_some in Hf' as [_ H]. unfold buf_is in H. destruct (bufs s !! i) as [x|]; [|done]. by exists x.
  - intros i x Hx. pose proof (find_none _ _ Hf' i) as H. unfold buf_is in H. rewrite Hx in H. apply H.
    apply list_elem_of_In. rewrite Hp. apply (ring_mem _ _ _ Hr). rewrite <- Hlen. by eapply lookup_lt_Some.
Qed.

(** A buffer [bget] may recycle. *)
Definition recyclable s i : bool := buf_is s (fun x => (b_refcnt x =? 0) && (Z.land (b_flags x) B_DIRTY =? 0)) i.

(** With the order [l] of the buffers: a block not cached goes into the last that is recyclable. *)
Lemma bread_lru_spec me s a b l :
  brep me s a -> ring s l -> (b < length (disk a))%nat -> (forall j, held a !! j <> Some b) ->
  b ∈ dirty a \/ (size (held a) + size (dirty a) < NBUF)%nat ->
  wp (bread 1 (Z.of_nat b)) (fun i s' => held a !! i = None /\ brep me s' (sp_bread i b a) /\
    (exists bs, s' = set_bufs bs s) /\
    ((exists x, bufs s !! i = Some x /\ b_dev x = 1 /\ b_blockno x = Z.of_nat b) \/
     List.find (recyclable s) (rev l) = Some i)) s.
Proof.
  intros Hr Hl Hb Hnh Hsz. pose proof Hl as [HN HP Hperm Hlk].
  assert (forall i, i ∈ l -> (i < NBUF)%nat) as Hlt by (intros i; by rewrite (ring_mem _ _ i Hl)).
  assert (length l < S NBUF)%nat as Hln by (rewrite Hperm, length_seq; lia).
  pose proof (br_len _ _ _ Hr) as Hlen. pose proof (br_me _ _ _ Hr) as Hme. subst me.
  unfold bread, bget. rewrite !wp_bind, wp_next. exists (hd head l). split; [apply (links_first _ _ _ _ _ Hlk)|].
  rewrite wp_bind. eapply wp_mono; [by apply (bget_find_spec (S NBUF) head l)|]. cbn beta. intros r s' [-> Hf].
  pose proof (find_ring s l _ r Hl Hlen (or_introl (eq_sym Hf))) as Hfr. clear Hf. destruct r as [i|].
  - destruct Hfr as (x & Hx & [Hd Hbn]%andb_true_iff). apply Z.eqb_eq in Hd, Hbn.
    destruct (bget_hit _ _ _ _ _ _ Hr Hx Hd Hbn Hnh) as (Hi & Hlck & Hrc & Hv & Hrep).
    rewrite wp_bind. eapply wp_set_buf_eq; [done|]. pose proof (lookup_lt_Some _ _ _ Hx) as Hil.
    rewrite wp_bind. eapply wp_acquiresleep; [by apply list_lookup_insert_eq|done|].
    unfold set_bufs at 1. cbn [bufs mypid set_bufs nexts prevs memdisk writes].
    rewrite list_insert_insert_eq, wp_ret, Hrc. change (u32 (0 + 1)) with 1.
    rewrite wp_bind, wp_get_buf. eexists. split; [by apply list_lookup_insert_eq|]. cbn [b_flags set_b_lock set_b_refcnt].
    rewrite wp_bind. destruct (Z.eqb_spec (Z.land (b_flags x) B_VALID) 0); [done|]. cbn [when]. wp_steps.
    split; [done|]. split; [done|]. split; [by eexists|]. left. by exists x.
  - assert (forall j y, bufs s !! j = Some y -> b_dev y = 1 -> b_blockno y <> Z.of_nat b) as Hno.
    { intros j y Hy H1 H2. specialize (Hfr j y Hy). rewrite H1, H2, !Z.eqb_refl in Hfr. done. }
    rewrite wp_bind, wp_prev. exists (last_of head l). split; [apply (links_last _ _ _ _ _ Hlk)|].
    rewrite wp_bind. eapply wp_mono; [by apply (bget_victim_spec (S NBUF) l); [done|done|by exists head|]|].
    cbn beta. intros r s' [-> Hf].
    pose proof (find_ring s l _ r Hl Hlen (or_intror (eq_sym Hf))) as Hvr. clear Hfr.
    destruct Hsz as [(k & z & Hz & Hz1 & Hz2)%(br_dirty _ _ _ Hr)|Hsz]; [by destruct (Hno k z)|].
    destruct (free_buffer _ _ _ Hr Hsz) as (k & z & Hz & Hz1 & Hz2).
    destruct r as [i|]; [|specialize (Hvr k z Hz); by rewrite Hz1, Hz2 in Hvr].
    destruct Hvr as (x & Hx & [Hrc Hfl]%andb_true_iff). apply Z.eqb_eq in Hrc, Hfl.
    destruct (lookup_lt_is_Some_2 (disk a) b Hb) as [d Hd].
    destruct (bget_miss _ _ _ _ _ _ _ Hr Hx Hrc Hfl Hno Hnh Hd) as (Hi & Hlck & Hrep).
    pose proof (lookup_lt_Some _ _ _ Hx) as Hil.
    rewrite wp_bind. eapply wp_set_buf_eq; [done|].
    rewrite wp_bind. eapply wp_acquiresleep; [by apply list_lookup_insert_eq|done|].
    unfold set_bufs at 1. cbn [bufs mypid set_bufs nexts prevs memdisk writes].
    rewrite list_insert_insert_eq, wp_ret. cbn [set_b_lock b_flags b_dev b_blockno b_refcnt b_data].
    rewrite wp_bind, wp_get_buf. eexists. split; [by apply list_lookup_insert_eq|]. cbn [b_flags].
    rewrite wp_bind. change (Z.land 0 B_VALID =? 0) with true. cbn [when].
    eapply (iderw_go _ _ _ b); [by apply list_lookup_insert_eq|done|done|done|done| |by left|].
    + cbn. by rewrite (br_disk _ _ _ Hr).
    + cbn [b_flags]. rewrite decide_False by done. rewrite wp_ret. split; [done|].
      split; [|split; [by eexists|by right]]. rewrite <- (br_disk _ _ _ Hr) in Hd.
      unfold set_bufs in *. cbn in *. rewrite list_insert_insert_eq, (list_lookup_total_correct _ _ _ Hd). exact Hrep.
Qed.

Lemma bread_spec me s a b :
  brep me s a -> (b < length (disk a))%nat -> (forall j, held a !! j <> Some b) ->
  b ∈ dirty a \/ (size (held a) + size (dirty a) < NBUF)%nat ->
  wp (bread 1 (Z.of_nat b)) (fun i s' => held a !! i = None /\ brep me s' (sp_bread i b a)) s.
Proof.
  intros Hr Hb Hnh Hsz. destruct (br_ring _ _ _ Hr) as [l Hl].
  eapply wp_mono; [by apply (bread_lru_spec me s a b l)|]. cbn beta. by intros i s' (? & ? & _).
Qed.

(** ** Storing into a buffer, marking it dirty, writing and releasing it *)

Definition sp_store (b : nat) (d : list Z) (a : bspec) : bspec :=
  mkbspec (<[b := d]> (content a)) (disk a) (dirty a) (held a) (hist a).
Definition sp_dirty (b : nat) (a : bspec) : bspec :=
  mkbspec (content a) (disk a) ({[b]} ∪ dirty a) (held a) (hist a).
Definition sp_bwrite (b : nat) (d : list Z) (a : bspec) : bspec :=
  mkbspec (content a) (<[b := d]> (disk a)) (dirty a ∖ {[b]}) (held a) (hist a ++ [(b, d)]).
Definition sp_brelse (i : nat) (a : bspec) : bspec :=
  mkbspec (content a) (disk a) (dirty a) (delete i (held a)) (hist a).

Lemma bdata_spec me s a i b (Q : list Z -> bst -> Prop) :
  brep me s a -> held a !! i = Some b ->
  (forall d, content a !! b = Some d -> length d = BSIZE -> Q d s) -> wp (bdata i) Q s.
Proof.
  intros Hr Hi HQ. destruct (brep_held _ _ _ _ _ Hr Hi) as (x & Hx & _ & _ & Hc & _).
  unfold bdata. rewrite wp_bind, wp_get_buf. exists x. split; [done|]. rewrite wp_ret. apply HQ; [done|].
  destruct (br_blocks _ _ _ Hr) as [Hb _]. exact (Forall_lookup_1 _ _ b _ Hb Hc).
Qed.

(** The buffers other than a held one are for other blocks. *)
Lemma brep_other me s a i b x j y c :
  brep me s a -> bufs s !! i = Some x -> b_dev x = 1 -> b_blockno x = Z.of_nat b ->
  j <> i -> bufs s !! j = Some y -> b_dev y = 1 -> b_blockno y = Z.of_nat c -> c <> b.
Proof. intros Hr Hx Hd Hb Hj Hy Hdy Hc ->. apply Hj. eapply (br_uniq _ _ _ Hr j i y x); congruence. Qed.

Lemma brep_dirty_after (s : bst) i x x' b :
  bufs s !! i = Some x -> b_dev x' = b_dev x -> b_blockno x' = b_blockno x ->
  (exists j y, bufs s !! j = Some y /\ b_dev y = 1 /\ b_blockno y = Z.of_nat b) ->
  exists j y, <[i := x']> (bufs s) !! j = Some y /\ b_dev y = 1 /\ b_blockno y = Z.of_nat b.
Proof.
  intros Hx H1 H2 (j & y & Hy & Hd & Hb). destruct (decide (j = i)) as [->|Hj].
  - exists i, x'. rewrite list_lookup_insert_eq by (by eapply lookup_lt_Some).
    assert (y = x) as -> by congruence. split; [done|]. split; congruence.
  - exists j, y. by rewrite list_lookup_insert_ne.
Qed.

(** A change to a held buffer: its data, its flags and what the spec says of its block. *)
Lemma brep_held_put me s a a' i x x' b s' :
  brep me s a -> held a !! i = Some b -> bufs s !! i = Some x ->
  b_dev x' = b_dev x -> b_blockno x' = b_blockno x -> b_locked x' = b_locked x -> b_pid x' = b_pid x ->
  b_refcnt x' = b_refcnt x ->
  bufs s' = <[i := x']> (bufs s) -> nexts s' = nexts s -> prevs s' = prevs s -> mypid s' = me ->
  memdisk s' = disk a' -> writes s' = hist a' -> held a' = held a ->
  length (content a') = length (disk a') -> blocks_ok (content a') -> blocks_ok (disk a') ->
  content a' !! b = Some (b_data x') -> b_flags x' = (if decide (b ∈ dirty a') then 6 else 2) ->
  (forall c, c <> b -> content a' !! c = content a !! c /\ disk a' !! c = disk a !! c /\ (c ∈ dirty a' <-> c ∈ dirty a)) ->
  brep me s' a'.
Proof.
  intros Hr Hi Hx H1 H2 H3 H4 H5 Hb HN HP Hme Hd Hh Hhe Hsz Hbc Hbd Hc Hf Hoth.
  destruct (brep_held _ _ _ _ _ Hr Hi) as (x0 & Hx0 & Hdev & Hbno & _ & _ & Hlk & Hpid & Hrc).
  assert (x0 = x) as -> by congruence. destruct (br_ring _ _ _ Hr) as [l [HN' HP' Hperm Hl]].
  eapply (brep_put me s s' a a' i x); try done.
  - exists l. constructor; by rewrite ?HN, ?HP.
  - right. exists b. rewrite Hhe, Hi. split; [congruence|]. split; [congruence|]. split; [done|]. split; [done|].
    split; [done|]. split; [congruence|]. split; congruence.
  - intros j y Hj Hy. eapply buf_ok_frame; [by eapply br_bufs|by rewrite Hhe|]. intros c Hyd Hyc.
    destruct (Hoth c) as (? & _ & ?); [|done]. by eapply (brep_other me s a i b x j y).
  - intros _ j y Hj Hy Hyd Heq. apply Hj. eapply (br_uniq _ _ _ Hr j i y x); congruence.
  - intros c Hcd. apply (brep_dirty_after s i x); try done. destruct (decide (c = b)) as [->|Hne].
    + by exists i, x.
    + apply (br_dirty _ _ _ Hr). by apply Hoth.
  - intros c Hcd Hn. rewrite Hhe in Hn. destruct (decide (c = b)) as [->|Hne]; [by destruct (Hn i)|].
    destruct (Hoth c Hne) as (-> & -> & Hdd). apply (br_clean _ _ _ Hr); [tauto|done].
  - intros j c. rewrite Hhe. by apply (br_held _ _ _ Hr).
Qed.

Lemma set_bdata_spec me s a i b d :
  brep me s a -> held a !! i = Some b -> length d = BSIZE ->
  wp (set_bdata i d) (fun _ s' => brep me s' (sp_store b d a)) s.
Proof.
  intros Hr Hi Hd. destruct (brep_held _ _ _ _ _ Hr Hi) as (x & Hx & _ & _ & Hc & Hf & _).
  destruct (br_blocks _ _ _ Hr) as [Hb1 Hb2]. unfold set_bdata. eapply wp_set_buf_eq; [done|].
  eapply (brep_held_put me s a _ i x (set_b_data d x) b); try done; try apply Hr; cbn.
  - rewrite length_insert. apply Hr.
  - by apply Forall_insert.
  - apply list_lookup_insert_eq. by eapply lookup_lt_Some.
  - intros c Hne. by rewrite list_lookup_insert_ne.
Qed.

Lemma mark_dirty_spec me s a i b :
  brep me s a -> held a !! i = Some b -> wp (mark_dirty i) (fun _ s' => brep me s' (sp_dirty b a)) s.
Proof.
  intros Hr Hi. destruct (brep_held _ _ _ _ _ Hr Hi) as (x & Hx & _ & _ & Hc & Hf & _).
  unfold mark_dirty. eapply wp_set_buf_eq; [done|].
  eapply (brep_held_put me s a (sp_dirty b a) i x (set_b_flags (Z.lor (b_flags x) B_DIRTY) x) b); try done; try apply Hr; cbn [sp_dirty content disk dirty].
  - cbn [b_flags set_b_flags]. rewrite Hf. repeat case_decide; try done; set_solver.
  - set_solver.
Qed.

Lemma bwrite_spec me s a i b d :
  brep me s a -> held a !! i = Some b -> content a !! b = Some d ->
  wp (bwrite i) (fun _ s' => brep me s' (sp_bwrite b d a)) s.
Proof.
  intros Hr Hi Hd. destruct (brep_held _ _ _ _ _ Hr Hi) as (x & Hx & Hdev & Hbno & Hc & Hf & Hlk & Hpid & Hrc).
  assert (d = b_data x) as -> by congruence.
  pose proof (br_me _ _ _ Hr) as Hme. pose proof (lookup_lt_Some _ _ _ Hx) as Hil.
  pose proof (brep_held_lt _ _ _ _ _ Hr Hi) as Hlt. destruct (br_blocks _ _ _ Hr) as [Hb1 Hb2].
  unfold bwrite. rewrite wp_bind. eapply wp_holdingsleep; [done|]. rewrite Hlk, Hpid, Hme, Z.eqb_refl. cbn [negb Z.eqb andb].
  rewrite wp_bind. eapply wp_set_buf_eq; [done|].
  assert (Z.lor (b_flags x) B_DIRTY = 6) as -> by (rewrite Hf; by case_decide).
  eapply (iderw_go _ _ _ b); [by apply list_lookup_insert_eq|done|cbn; congruence|done|done| |by right|].
  - cbn. by rewrite (br_disk _ _ _ Hr).
  - cbn [b_flags set_b_flags]. rewrite decide_True by done. cbn [bufs set_bufs nexts prevs memdisk mypid writes b_data].
    rewrite list_insert_insert_eq. eapply (brep_held_put me s a (sp_bwrite b (b_data x) a) i x (set_b_flags 2 (set_b_flags 6 x)) b); try done; cbn [sp_bwrite content disk dirty hist b_flags set_b_flags].
    + by rewrite (br_disk _ _ _ Hr).
    + by rewrite (br_hist _ _ _ Hr).
    + rewrite length_insert. apply Hr.
    + apply Forall_insert; [done|]. exact (Forall_lookup_1 _ _ b _ Hb1 Hc).
    + rewrite decide_False by set_solver. done.
    + intros c Hne. rewrite list_lookup_insert_ne by done. set_solver.
Qed.

(** The buffer released becomes the first of the list. *)
Lemma brelse_lru_spec me s a i b l :
  brep me s a -> ring s l -> held a !! i = Some b -> b ∈ dirty a \/ content a !! b = disk a !! b ->
  wp (brelse i) (fun _ s' => brep me s' (sp_brelse i a) /\
    exists l1 l2, l = l1 ++ i :: l2 /\ ring s' (i :: l1 ++ l2)) s.
Proof.
  intros Hr Hl Hi Hcl. destruct (brep_held _ _ _ _ _ Hr Hi) as (x & Hx & Hdev & Hbno & Hc & Hf & Hlk & Hpid & Hrc).
  pose proof (br_me _ _ _ Hr) as Hme. pose proof (lookup_lt_Some _ _ _ Hx) as Hil.
  unfold brelse. rewrite wp_bind. eapply wp_holdingsleep; [done|]. rewrite Hlk, Hpid, Hme, Z.eqb_refl. cbn [negb Z.eqb andb].
  unfold releasesleep. rewrite wp_bind. eapply wp_set_buf_eq; [done|]. rewrite wp_bind.
  eapply wp_set_buf_eq; [by apply list_lookup_insert_eq|]. cbn [bufs set_bufs nexts prevs memdisk mypid writes].
  rewrite list_insert_insert_eq. cbn [set_b_refcnt set_b_lock b_refcnt b_flags b_dev b_blockno b_locked b_pid b_data].
  rewrite Hrc. change (u32 (1 - 1)) with 0.
  rewrite wp_bind, wp_get_buf. eexists. split; [by apply list_lookup_insert_eq|]. cbn [b_refcnt Z.eqb when].
  eapply wp_mono; [apply (move_front_spec i l)|].
  - by destruct Hl.
  - rewrite <- (br_len _ _ _ Hr). done.
  - cbn beta. intros [] s' (l1 & l2 & N & P & Hsp & -> & Hl'). split; [|by exists l1, l2].
    eapply (brep_put me s _ a _ i x); [done|done|done|..]; cbn; try apply Hr; try done.
    + by eexists.
    + right. exists b. cbn. by rewrite lookup_delete_eq.
    + intros j y Hj Hy. eapply buf_ok_frame; [by eapply br_bufs|cbn; by rewrite lookup_delete_ne|done].
    + intros _ j y Hj Hy Hyd Heq. apply Hj. by eapply (br_uniq _ _ _ Hr j i y x).
    + intros c Hcd. eapply brep_dirty_after; [done|done|done|]. by apply (br_dirty _ _ _ Hr).
    + intros c Hcd Hn. destruct (decide (c = b)) as [->|Hne]; [naive_solver|].
      apply (br_clean _ _ _ Hr); [done|]. intros j Hj. apply (Hn j). rewrite lookup_delete_ne; [done|]. congruence.
    + intros j c [_ Hj]%lookup_delete_Some. by eapply (br_held _ _ _ Hr).
Qed.

Lemma brelse_spec me s a i b :
  brep me s a -> held a !! i = Some b -> b ∈ dirty a \/ content a !! b = disk a !! b ->
  wp (brelse i) (fun _ s' => brep me s' (sp_brelse i a)) s.
Proof.
  intros Hr Hi Hcl. destruct (br_ring _ _ _ Hr) as [l Hl].
  eapply wp_mono; [by apply (brelse_lru_spec me s a i b l)|]. cbn beta. by intros [] s' [? _].
Qed.

(** ** Boot: [binit] *)

Definition bspec0 (d : list (list Z)) : bspec := mkbspec d d ∅ ∅ [].

Lemma binit_spec me d :
  blocks_ok d -> wp binit (fun _ s => brep me s (bspec0 d) /\ bufs s = replicate NBUF buf0) (bst0 d me).
Proof.
  intros Hd.
  assert (exists s, binit (bst0 d me) = Ok (tt, s) /\ s = set_links (nexts s) (prevs s) (bst0 d me) /\
    ring s (rev (seq 0 NBUF))) as (s & Hs & He & Hring).
  { eexists. split; [vm_compute; reflexivity|]. split; [reflexivity|]. constructor; [reflexivity|reflexivity| |].
    - symmetry. apply Permutation_rev.
    - cbn. tauto. }
  apply wp_Ok. exists tt, s. split; [done|]. clear Hs. rewrite He.
  assert (forall i x, bufs (bst0 d me) !! i = Some x -> x = buf0) as Hb.
  { intros i x [-> _]%lookup_replicate. done. }
  split; [|done]. constructor; try done.
  - exists (rev (seq 0 NBUF)). destruct Hring. by constructor.
  - intros i x ->%Hb. left. done.
  - intros i j x y ->%Hb. done.
Qed.

Lemma binit_brep me d :
  blocks_ok d -> wp binit (fun _ s => brep me s (bspec0 d)) (bst0 d me).
Proof. intros Hd. eapply wp_mono; [by apply binit_spec|]. cbn beta. by intros [] s [? _]. Qed.
