(* ===== verification/BioProps.v ===== *)
(** The buffer cache refines its specification, and recycles the buffer least
    recently used. *)

From S2P Require Import Prelude CString Mem Bio BioSpec.
Import Bio.

(** The operations of the cache as a client issues them. *)
Inductive bop : Type :=
| BRead (b : nat)
| BData (i : nat)
| BStore (i : nat) (x : list Z)
| BDirty (i : nat)
| BWrite (i : nat)
| BRelse (i : nat).

Inductive bval : Type := VBuf (i : nat) | VData (x : list Z) | VUnit.

Definition run_bop (o : bop) : M bst bval :=
  match o with
  | BRead b => let! i := bread 1 (Z.of_nat b) in ret (VBuf i)
  | BData i => let! x := bdata i in ret (VData x)
  | BStore i x => do! set_bdata i x; ret VUnit
  | BDirty i => do! mark_dirty i; ret VUnit
  | BWrite i => do! bwrite i; ret VUnit
  | BRelse i => do! brelse i; ret VUnit
  end.

(** What the specification says of each: when it may be called and what it does. *)
Inductive sp_step (a : bspec) : bop -> bval -> bspec -> Prop :=
| sp_read b i : held a !! i = None -> sp_step a (BRead b) (VBuf i) (sp_bread i b a)
| sp_data i b x : held a !! i = Some b -> content a !! b = Some x -> sp_step a (BData i) (VData x) a
| sp_put i b x : held a !! i = Some b -> sp_step a (BStore i x) VUnit (sp_store b x a)
| sp_mark i b : held a !! i = Some b -> sp_step a (BDirty i) VUnit (sp_dirty b a)
| sp_flush i b x : held a !! i = Some b -> content a !! b = Some x -> sp_step a (BWrite i) VUnit (sp_bwrite b x a)
| sp_free i : sp_step a (BRelse i) VUnit (sp_brelse i a).

Definition sp_pre (o : bop) (a : bspec) : Prop :=
  match o with
  | BRead b => (b < length (disk a))%nat /\ (forall j, held a !! j <> Some b) /\
      (b ∈ dirty a \/ (size (held a) + size (dirty a) < NBUF)%nat)
  | BData i | BDirty i | BWrite i => is_Some (held a !! i)
  | BStore i x => is_Some (held a !! i) /\ length x = BSIZE
  | BRelse i => exists b, held a !! i = Some b /\ (b ∈ dirty a \/ content a !! b = disk a !! b)
  end.

(** C9: The buffer cache implements its specification.  Whatever the order of the calls,
    each one allowed by the specification returns, without panicking and without
    waiting for a lock that is never released, and the cache again represents what the
    specification says: reading a block gives its latest contents, whether cached or on
    the disk, blocks being written by [bwrite] only. *)
Theorem bcache_refines me s a o :
  brep me s a -> sp_pre o a -> wp (run_bop o) (fun v s' => exists a', sp_step a o v a' /\ brep me s' a') s.
Proof.
  intros Hr Hp. destruct o as [b|i|i x|i|i|i]; cbn [run_bop sp_pre] in *; rewrite wp_bind.
  - destruct Hp as (H1 & H2 & H3). eapply wp_mono; [by apply (bread_spec me s a b)|]. cbn beta. intros i s' [Hi Hr'].
    rewrite wp_ret. eexists. split; [by constructor|done].
  - destruct Hp as [b Hb]. eapply bdata_spec; [done|done|]. intros x Hx _. rewrite wp_ret. exists a.
    split; [by econstructor|done].
  - destruct Hp as [[b Hb] Hx]. eapply wp_mono; [by apply (set_bdata_spec me s a i b x)|]. cbn beta. intros [] s' Hr'.
    rewrite wp_ret. eexists. split; [by constructor|done].
  - destruct Hp as [b Hb]. eapply wp_mono; [by apply (mark_dirty_spec me s a i b)|]. cbn beta. intros [] s' Hr'.
    rewrite wp_ret. eexists. split; [by constructor|done].
  - destruct Hp as [b Hb]. destruct (brep_held _ _ _ _ _ Hr Hb) as (y & _ & _ & _ & Hy & _).
    eapply wp_mono; [by apply (bwrite_spec me s a i b (b_data y))|]. cbn beta. intros [] s' Hr'.
    rewrite wp_ret. eexists. split; [by econstructor|done].
  - destruct Hp as (b & Hb & Hc). eapply wp_mono; [by apply (brelse_spec me s a i b)|]. cbn beta. intros [] s' Hr'.
    rewrite wp_ret. eexists. split; [by constructor|done].
Qed.

Definition demo_blocks : list (list Z) := replicate 4 (replicate BSIZE 5).

Lemma demo_cache : exists s, brep 1 s (bspec0 demo_blocks) /\ bufs s = replicate NBUF buf0.
Proof.
  assert (blocks_ok demo_blocks) as Hb by (apply Forall_replicate; reflexivity).
  destruct (proj1 (wp_Ok _ _ _) (binit_spec 1 demo_blocks Hb)) as (r & s & _ & Hr). by exists s.
Qed.

Lemma bcache_refines_witness :
  exists s, wp (run_bop (BRead 2)) (fun v s' => exists a', sp_step (bspec0 demo_blocks) (BRead 2) v a' /\ brep 1 s' a') s.
Proof.
  destruct demo_cache as (s & Hr & _). exists s. apply (bcache_refines 1 s (bspec0 demo_blocks) (BRead 2) Hr).
  split; [cbn; lia|]. split; [intros j; cbn; by rewrite lookup_empty|]. right. cbn. rewrite map_size_empty, size_empty. unfold NBUF. lia.
Defined.

(** ** Least recently used *)

Lemma find_rev_split (f : nat -> bool) l i :
  List.find f (rev l) = Some i -> exists l1 l2, l = l1 ++ i :: l2 /\ f i = true /\ forall j, j ∈ l2 -> f j = false.
Proof.
  induction l as [|x l IH] using rev_ind; [done|]. rewrite rev_app_distr. cbn. destruct (f x) eqn:Hx.
  - intros [= <-]. exists l, []. split; [done|]. split; [done|]. intros j Hj%elem_of_nil. done.
  - intros (l1 & l2 & -> & Hi & H2)%IH. exists l1, (l2 ++ [x]). rewrite <- app_assoc. split; [done|]. split; [done|].
    intros j [Hj|Hj]%elem_of_app; [by apply H2|]. apply list_elem_of_singleton in Hj as ->. done.
Qed.

(** The list of buffers is in the order of their last release, most recent first:
    [brelse] of the only reference puts the buffer at the front and leaves the others in
    order, and a [bread] of a block that is not cached takes the last buffer of the list
    that nobody holds and that waits for no commit, leaving the order alone. *)
Theorem bcache_lru me s a l :
  brep me s a -> ring s l ->
  (forall i b, held a !! i = Some b -> b ∈ dirty a \/ content a !! b = disk a !! b ->
     wp (brelse i) (fun _ s' => exists l1 l2, l = l1 ++ i :: l2 /\ ring s' (i :: l1 ++ l2)) s) /\
  (forall b, (b < length (disk a))%nat -> (size (held a) + size (dirty a) < NBUF)%nat ->
     (forall j x, bufs s !! j = Some x -> b_dev x = 1 -> b_blockno x <> Z.of_nat b) ->
     wp (bread 1 (Z.of_nat b)) (fun i s' => exists l1 l2, l = l1 ++ i :: l2 /\ recyclable s i = true /\
       (forall j, j ∈ l2 -> recyclable s j = false) /\ ring s' l) s).
Proof.
  intros Hr Hl. split.
  - intros i b Hi Hc. eapply wp_mono; [by apply (brelse_lru_spec me s a i b l)|]. cbn beta. by intros [] s' [_ ?].
  - intros b Hb Hsz Hno. eapply wp_mono; [apply (bread_lru_spec me s a b l); try done|].
    + intros j Hj. destruct (brep_held _ _ _ _ _ Hr Hj) as (x & Hx & Hd & Hn & _). by destruct (Hno j x).
    + by right.
    + cbn beta. intros i s' (_ & _ & [bs ->] & [(x & Hx & Hd & Hn)|Hf]); [by destruct (Hno i x)|].
      apply find_rev_split in Hf as (l1 & l2 & Heq & Hi & H2). exists l1, l2. split_and!; try done. by apply ring_bufs.
Qed.

Lemma bcache_lru_witness :
  exists s l, ring s l /\ wp (bread 1 (Z.of_nat 2)) (fun i s' => exists l1 l2, l = l1 ++ i :: l2 /\ recyclable s i = true /\
    (forall j, j ∈ l2 -> recyclable s j = false) /\ ring s' l) s.
Proof.
  destruct demo_cache as (s & Hr & Hbufs). pose proof (br_ring _ _ _ Hr) as [l Hl]. exists s, l. split; [done|].
  apply (bcache_lru 1 s (bspec0 demo_blocks) l Hr Hl).
  - cbn. lia.
  - cbn. rewrite map_size_empty, size_empty. unfold NBUF. lia.
  - intros j x Hx. rewrite Hbufs in Hx. apply lookup_replicate in Hx as [-> _]. done.
Defined.
