(* ===== verification/Log.v ===== *)
(** The log ([log.c]): transactions of block writes over the buffer cache.

    [lst] is the cache with [struct log].  The file system runs one call at a time
    here, so the spin lock is always free and [wakeup] finds no sleeper;
    [begin_op_try] is one turn of the loop of [begin_op], which says whether the
    call may go on or has to sleep, and [begin_op] is the call of a process that
    nobody will wake. *)

From S2P Require Import Prelude CString Mem Bio.
Import Bio.

Module Log.

Definition LOGSIZE : nat := MAXOPBLOCKS * 3.

Record superblock : Type := mksb {
  sb_size : Z;
  sb_nblocks : Z;
  sb_ninodes : Z;
  sb_nlog : Z;
  sb_logstart : Z;
  sb_inodestart : Z;
  sb_bmapstart : Z
}.

(** [struct log] with its [struct logheader] in line. *)
Record log : Type := mklog {
  l_start : Z;
  l_size : Z;
  l_outstanding : Z;
  l_committing : Z;
  l_dev : Z;
  l_n : Z;
  l_block : list Z
}.
Definition set_l_where st sz dev l := mklog st sz (l_outstanding l) (l_committing l) dev (l_n l) (l_block l).
Definition set_l_outstanding v l := mklog (l_start l) (l_size l) v (l_committing l) (l_dev l) (l_n l) (l_block l).
Definition set_l_committing v l := mklog (l_start l) (l_size l) (l_outstanding l) v (l_dev l) (l_n l) (l_block l).
Definition set_l_n v l := mklog (l_start l) (l_size l) (l_outstanding l) (l_committing l) (l_dev l) v (l_block l).
Definition set_l_block v l := mklog (l_start l) (l_size l) (l_outstanding l) (l_committing l) (l_dev l) (l_n l) v.
Definition log0 : log := mklog 0 0 0 0 0 0 (replicate LOGSIZE 0).

Record lst : Type := mklst { bc : bst; lg : log }.

Definition bio {A} (m : M bst A) : M lst A := zoom bc (fun b s => mklst b (lg s)) m.
Definition upd (f : log -> log) : M lst unit := modify (fun s => mklst (bc s) (f (lg s))).
(** [log.lh.block[i]] *)
Definition blockof (i : nat) : M lst Z := let! s := get in deref (l_block (lg s) !! i).
Definition set_blockof (i : nat) (v : Z) : M lst unit :=
  do! blockof i; upd (fun l => set_l_block (<[i := v]> (l_block l)) l).

(** [readsb] of [fs.c] *)
Definition readsb (dev : Z) : M lst superblock :=
  let! bp := bio (bread (u32 dev) 1) in
  let! d := bio (bdata bp) in
  let sb := mksb (get32 d 0) (get32 d 4) (get32 d 8) (get32 d 12) (get32 d 16) (get32 d 20) (get32 d 24) in
  do! bio (brelse bp);
  ret sb.

(** ** Committing and recovery *)

Definition install_trans : M lst unit :=
  let! n := gets (fun s => l_n (lg s)) in
  for_each (seq 0 (Z.to_nat n)) (fun tail =>
    let! l := gets lg in
    let! lbuf := bio (bread (u32 (l_dev l)) (u32 (l_start l + Z.of_nat tail + 1))) in
    let! blk := blockof tail in
    let! dbuf := bio (bread (u32 (l_dev l)) (u32 blk)) in
    let! d := bio (bdata lbuf) in
    do! bio (set_bdata dbuf d);
    do! bio (bwrite dbuf);
    do! bio (brelse lbuf);
    bio (brelse dbuf)).

Definition read_head : M lst unit :=
  let! l := gets lg in
  let! buf := bio (bread (u32 (l_dev l)) (u32 (l_start l))) in
  let! lh := bio (bdata buf) in
  do! upd (set_l_n (i32 (get32 lh 0)));
  let! n := gets (fun s => l_n (lg s)) in
  do! for_each (seq 0 (Z.to_nat n)) (fun i =>
    set_blockof i (i32 (get32 lh (4 + 4 * i))));
  bio (brelse buf).

Definition write_head : M lst unit :=
  let! l := gets lg in
  let! buf := bio (bread (u32 (l_dev l)) (u32 (l_start l))) in
  let! hb := bio (bdata buf) in
  do! bio (set_bdata buf (put32 0 (l_n l) hb));
  do! for_each (seq 0 (Z.to_nat (l_n l))) (fun i =>
    let! v := blockof i in
    let! hb := bio (bdata buf) in
    bio (set_bdata buf (put32 (4 + 4 * i) v hb)));
  do! bio (bwrite buf);
  bio (brelse buf).

Definition recover_from_log : M lst unit :=
  do! read_head;
  do! install_trans;
  do! upd (set_l_n 0);
  write_head.

Definition initlog (dev : Z) : M lst unit :=
  if (BSIZE <=? 4 + 4 * LOGSIZE)%nat then panic "initlog: too big logheader" else
  let! sb := readsb dev in
  do! upd (set_l_where (i32 (sb_logstart sb)) (i32 (sb_nlog sb)) dev);
  recover_from_log.

Definition write_log : M lst unit :=
  let! n := gets (fun s => l_n (lg s)) in
  for_each (seq 0 (Z.to_nat n)) (fun tail =>
    let! l := gets lg in
    let! to := bio (bread (u32 (l_dev l)) (u32 (l_start l + Z.of_nat tail + 1))) in
    let! blk := blockof tail in
    let! from := bio (bread (u32 (l_dev l)) (u32 blk)) in
    let! d := bio (bdata from) in
    do! bio (set_bdata to d);
    do! bio (bwrite to);
    do! bio (brelse from);
    bio (brelse to)).

Definition commit : M lst unit :=
  let! n := gets (fun s => l_n (lg s)) in
  when (n >? 0)
    (do! write_log;
     do! write_head;
     do! install_trans;
     do! upd (set_l_n 0);
     write_head).

(** ** The start and the end of a system call *)

Definition begin_op_try : M lst bool :=
  let! l := gets lg in
  if negb (l_committing l =? 0) then ret false
  else if i32 (l_n l + (l_outstanding l + 1) * Z.of_nat MAXOPBLOCKS) >? Z.of_nat LOGSIZE then ret false
  else do! upd (fun l => set_l_outstanding (i32 (l_outstanding l + 1)) l); ret true.
Definition begin_op : M lst unit :=
  let! ok := begin_op_try in if (ok : bool) then ret tt else nofuel.

Definition end_op : M lst unit :=
  do! upd (fun l => set_l_outstanding (i32 (l_outstanding l - 1)) l);
  let! l := gets lg in
  if negb (l_committing l =? 0) then panic "log.committing" else
  if l_outstanding l =? 0 then
    do! upd (set_l_committing 1);
    do! commit;
    upd (set_l_committing 0)
  else ret tt.

(** The index of the loop of [log_write] when it stops. *)
Fixpoint absorb (blocks : list Z) (blockno : Z) (i : nat) : nat :=
  match blocks with
  | [] => i
  | b :: blocks => if u32 b =? blockno then i else absorb blocks blockno (S i)
  end.

Definition log_write (b : nat) : M lst unit :=
  let! l := gets lg in
  if (l_n l >=? Z.of_nat LOGSIZE) || (l_n l >=? i32 (l_size l - 1)) then panic "too big a transaction" else
  if l_outstanding l <? 1 then panic "log_write outside of trans" else
  let! x := bio (get_buf b) in
  let i := absorb (take (Z.to_nat (l_n l)) (l_block l)) (b_blockno x) 0 in
  do! set_blockof i (i32 (b_blockno x));
  do! when (Z.of_nat i =? l_n l) (upd (fun l => set_l_n (i32 (l_n l + 1)) l));
  bio (mark_dirty b).

End Log.
