(* ===== verification/LogSpec.v ===== *)
(** The log keeps transactions atomic.

    [logrep] is the state between two calls of the file system: the blocks of the
    transaction are the dirty ones, in the order they were logged, and the header
    on the disk is clear.  [commit_spec] gives the disk writes of a commit one by
    one; [recover_spec] what recovery does to any disk; [crash_atomic] puts them
    together for a crash between any two writes. *)

From S2P Require Import Prelude CString Mem Bio BioSpec Log.
Import Bio Log.

Implicit Types (a : bspec) (ks : list nat) (d : list (list Z)) (W : list (nat * list Z)).

(** ** Disks and writes *)

Definition apply_writes W d : list (list Z) := foldl (fun d w => <[w.1 := w.2]> d) d W.

Lemma apply_writes_cons w W d : apply_writes (w :: W) d = apply_writes W (<[w.1 := w.2]> d).
Proof. done. Qed.
Lemma apply_writes_app W1 W2 d : apply_writes (W1 ++ W2) d = apply_writes W2 (apply_writes W1 d).
Proof. apply foldl_app. Qed.
Lemma length_apply_writes W d : length (apply_writes W d) = length d.
Proof. revert d. induction W as [|w W IH]; intros d; [done|]. rewrite apply_writes_cons, IH. apply length_insert. Qed.

Lemma apply_writes_other W d b : b ∉ W.*1 -> apply_writes W d !! b = d !! b.
Proof.
  revert d. induction W as [|w W IH]; intros d Hb; [done|]. cbn [fmap list_fmap] in Hb.
  rewrite apply_writes_cons, IH by set_solver. apply list_lookup_insert_ne. set_solver.
Qed.

Lemma apply_writes_total W d b : b ∉ W.*1 -> apply_writes W d !!! b = d !!! b.
Proof. intros Hb. by rewrite !list_lookup_total_alt, apply_writes_other. Qed.

(** Writes that agree with [f] leave it where they write. *)
Lemma apply_writes_agree W d (f : list (list Z)) b :
  Forall (fun w => f !! w.1 = Some w.2) W -> length f = length d ->
  apply_writes W d !! b = if decide (b ∈ W.*1) then f !! b else d !! b.
Proof.
  revert d. induction W as [|w W IH]; intros d HW Hlen; [done|].
  apply Forall_cons in HW as [Hw HW]. rewrite apply_writes_cons, IH by (rewrite ?length_insert; done).
  destruct (decide (b ∈ W.*1)) as [Hin|Hin]; [by rewrite decide_True by (by right)|].
  destruct (decide (b = w.1)) as [->|Hne].
  - rewrite decide_True by left. rewrite list_lookup_insert_eq; [done|].
    rewrite <- Hlen. by eapply lookup_lt_Some.
  - rewrite decide_False by set_solver. by rewrite list_lookup_insert_ne.
Qed.

Lemma blocks_ok_apply W d :
  blocks_ok d -> Forall (fun w => length w.2 = BSIZE) W -> blocks_ok (apply_writes W d).
Proof.
  revert d. induction W as [|w W IH]; intros d Hd HW; [done|]. apply Forall_cons in HW as [Hw HW].
  rewrite apply_writes_cons. apply IH; [|done]. by apply Forall_insert.
Qed.

(** ** The header block *)

Definition put_head (n : Z) (vs : list Z) (hb : list Z) : list Z :=
  foldl (fun hb iv => put32 (4 + 4 * iv.1) iv.2 hb) (put32 0 n hb) (imap pair vs).

Lemma length_put_head n vs hb : length (put_head n vs hb) = length hb.
Proof.
  unfold put_head. rewrite <- (length_put32 0 n hb). generalize (put32 0 n hb).
  induction (imap pair vs) as [|w l IH]; intros h; [done|]. cbn [foldl]. rewrite IH. apply length_put32.
Qed.

Lemma put_head_snoc n vs v hb :
  put_head n (vs ++ [v]) hb = put32 (4 + 4 * length vs) v (put_head n vs hb).
Proof. unfold put_head. rewrite imap_app, foldl_app. cbn [imap foldl fst snd compose]. by rewrite Nat.add_0_r. Qed.

Lemma put_head_n n vs hb :
  (4 + 4 * length vs <= length hb)%nat -> get32 (put_head n vs hb) 0 = u32 n.
Proof.
  induction vs as [|v vs IH] using rev_ind; intros Hlen.
  - apply get32_put32. cbn in *. lia.
  - rewrite length_app in Hlen. cbn in Hlen.
    rewrite put_head_snoc, get32_put32_ne; [apply IH; lia|rewrite length_put_head; lia|lia].
Qed.

Lemma put_head_block n vs hb i v :
  (4 + 4 * length vs <= length hb)%nat -> vs !! i = Some v -> get32 (put_head n vs hb) (4 + 4 * i) = u32 v.
Proof.
  induction vs as [|w vs IH] using rev_ind; intros Hlen Hi; [done|].
  rewrite length_app in Hlen. cbn [length] in Hlen. rewrite put_head_snoc.
  destruct (decide (i = length vs)) as [->|Hne].
  - rewrite lookup_app_r, Nat.sub_diag in Hi by done. injection Hi as ->.
    apply get32_put32. rewrite length_put_head. lia.
  - pose proof (lookup_lt_Some _ _ _ Hi) as Hlt. rewrite length_app in Hlt. cbn in Hlt.
    rewrite lookup_app_l in Hi by lia. rewrite get32_put32_ne; [apply IH; [lia|done]|rewrite length_put_head; lia|lia].
Qed.

(** ** Copying a block through the cache *)

Lemma wp_bio {A} (m : M bst A) Q (s : lst) :
  wp (bio m) Q s <-> wp m (fun r b => Q r (mklst b (lg s))) (bc s).
Proof. apply (wp_zoom bc (fun b s => mklst b (lg s))). Qed.
#[export] Hint Rewrite @wp_bio : wp.

Definition sp_write (b : nat) (x : list Z) a : bspec :=
  mkbspec (<[b := x]> (content a)) (<[b := x]> (disk a)) (dirty a ∖ {[b]}) (held a) (hist a ++ [(b, x)]).

Lemma brep_settled me s a b : brep me s a -> held a = ∅ -> b ∈ dirty a \/ content a !! b = disk a !! b.
Proof.
  intros Hr Hh. destruct (decide (b ∈ dirty a)); [by left|right].
  apply (br_clean _ _ _ Hr); [done|]. intros j. by rewrite Hh, lookup_empty.
Qed.

Lemma brep_lt me s a b x : brep me s a -> content a !! b = Some x -> (b < length (disk a))%nat /\ length x = BSIZE.
Proof.
  intros Hr Hb. split; [rewrite <- (br_size _ _ _ Hr); by eapply lookup_lt_Some|].
  destruct (br_blocks _ _ _ Hr) as [H _]. exact (Forall_lookup_1 _ _ _ _ H Hb).
Qed.

(** Two distinct blocks brought in, the first into buffer [i], the second into [j]. *)
Lemma bread_first me s a b1 (Q : nat -> bst -> Prop) :
  brep me s a -> held a = ∅ -> (b1 < length (disk a))%nat -> (size (dirty a) < NBUF)%nat ->
  (forall i s', brep me s' (sp_bread i b1 a) -> Q i s') -> wp (bread 1 (Z.of_nat b1)) Q s.
Proof.
  intros Hr Hh H1 Hd HQ. eapply wp_mono; [apply (bread_spec me s a b1); try done|].
  - intros j. by rewrite Hh, lookup_empty.
  - right. rewrite Hh, map_size_empty. lia.
  - cbn beta. intros i s1 [_ Hr1]. by apply HQ.
Qed.
Lemma bread_second me s a i b1 b2 (Q : nat -> bst -> Prop) :
  brep me s (sp_bread i b1 a) -> held a = ∅ -> b1 <> b2 -> (b2 < length (disk a))%nat ->
  b2 ∈ dirty a \/ (S (size (dirty a)) < NBUF)%nat ->
  (forall j s', i <> j -> brep me s' (sp_bread j b2 (sp_bread i b1 a)) -> Q j s') ->
  wp (bread 1 (Z.of_nat b2)) Q s.
Proof.
  intros Hr Hh Hne H2 Hd HQ. eapply wp_mono; [apply (bread_spec me s _ b2 Hr); try done|].
  - intros j. cbn. rewrite Hh. destruct (decide (j = i)) as [->|].
    + rewrite lookup_insert_eq. congruence.
    + by rewrite lookup_insert_ne, lookup_empty.
  - destruct Hd as [?|Hd]; [by left|right]. cbn. rewrite Hh, map_size_insert_None by done.
    rewrite map_size_empty. lia.
  - cbn beta. intros j s2 [Hj Hr2]. apply HQ; [|done]. intros ->. cbn in Hj. by rewrite lookup_insert_eq in Hj.
Qed.

Definition copied (p q bp : nat) (x : list Z) a : bspec :=
  mkbspec (<[bp := x]> (content a)) (<[bp := x]> (disk a)) (dirty a ∖ {[bp]}) (delete p (delete q (held a)))
    (hist a ++ [(bp, x)]).

(** Block [x] stored into held buffer [p], written, and [q] and [p] released. *)
Lemma copy_release me (s : lst) a p q bp bq x (Q : unit -> lst -> Prop) :
  brep me (bc s) a -> held a !! p = Some bp -> held a !! q = Some bq -> p <> q -> bp <> bq -> length x = BSIZE ->
  bq ∈ dirty a \/ content a !! bq = disk a !! bq ->
  (forall b, brep me b (copied p q bp x a) -> Q tt (mklst b (lg s))) ->
  wp (do! bio (set_bdata p x); do! bio (bwrite p); do! bio (brelse q); bio (brelse p)) Q s.
Proof.
  intros Hr Hp Hq Hne Hbne Hx Hset HQ. pose proof (brep_held_lt _ _ _ _ _ Hr Hp) as Hlt.
  wp_steps. eapply wp_mono; [by apply (set_bdata_spec me _ a p bp x)|]. cbn beta. intros [] s1 Hr1. wp_steps. cbn [bc lg].
  eapply wp_mono; [apply (bwrite_spec me s1 _ p bp x Hr1); [done|]|].
  { cbn. apply list_lookup_insert_eq. by rewrite (br_size _ _ _ Hr). }
  cbn beta. intros [] s2 Hr2. wp_steps. cbn [bc lg]. eapply wp_mono; [apply (brelse_spec me s2 _ q bq Hr2); [done|]|].
  { cbn. rewrite !list_lookup_insert_ne by done. destruct Hset; [left; set_solver|by right]. }
  cbn beta. intros [] s3 Hr3. wp_steps. cbn [bc lg]. eapply wp_mono; [apply (brelse_spec me s3 _ p bp Hr3)|].
  { cbn. by rewrite lookup_delete_ne. }
  { right. cbn. rewrite !list_lookup_insert_eq; [done|done|by rewrite (br_size _ _ _ Hr)]. }
  cbn beta. intros [] s4 Hr4. by apply HQ.
Qed.

(** The two buffers of [bread_second] come and go. *)
Lemma copied_pair p q i j b1 b2 bp x a :
  held a = ∅ -> (p = i /\ q = j) \/ (p = j /\ q = i) -> i <> j ->
  copied p q bp x (sp_bread j b2 (sp_bread i b1 a)) = sp_write bp x a.
Proof.
  intros Hh Hpq Hij. unfold copied, sp_write, sp_bread. cbn. f_equal. rewrite Hh.
  apply map_eq. intros k.
  destruct Hpq as [[-> ->]|[-> ->]]; destruct (decide (k = i)), (decide (k = j)); by simplify_map_eq.
Qed.

(** ** The log in use *)

(** The log in memory: where it is on the disk and the blocks [ks] it lists. *)
Record logmem (st : nat) (l : log) ks : Prop := {
  lm_dev : l_dev l = 1;
  lm_start : l_start l = Z.of_nat st;
  lm_n : l_n l = Z.of_nat (length ks);
  lm_blk : forall i k, ks !! i = Some k -> l_block l !! i = Some (Z.of_nat k)
}.

(** The blocks listed are on the disk, outside the part of the log in use. *)
Record logdisk (st : nat) (n : nat) ks : Prop := {
  ld_in : (st + 1 + length ks <= n)%nat;
  ld_small : Z.of_nat n < 2 ^ 31;
  ld_home : forall k, k ∈ ks -> (k < n)%nat /\ ~ (st <= k < st + 1 + length ks)%nat
}.

Lemma wp_blockof i v (s : lst) (Q : Z -> lst -> Prop) :
  l_block (lg s) !! i = Some v -> Q v s -> wp (blockof i) Q s.
Proof. intros Hv HQ. unfold blockof. wp_steps. by exists v. Qed.

Lemma lookup_imap_take {A B} (f : nat -> A -> B) (l : list A) t x :
  l !! t = Some x -> take (S t) (imap f l) = take t (imap f l) ++ [f t x].
Proof. intros Hx. apply take_S_r. rewrite list_lookup_imap, Hx. done. Qed.

(** [write_log]: the blocks of the transaction, copied one by one. *)
Definition log_writes (st : nat) (c : list (list Z)) ks : list (nat * list Z) :=
  imap (fun t k => ((st + 1 + t)%nat, c !!! k)) ks.
(** [install_trans]: the blocks of the log, copied home. *)
Definition home_writes (st : nat) (c : list (list Z)) ks : list (nat * list Z) :=
  imap (fun t k => (k, c !!! (st + 1 + t)%nat)) ks.

Definition after (W : list (nat * list Z)) (D : gset nat) a : bspec :=
  mkbspec (apply_writes W (content a)) (apply_writes W (disk a)) D (held a) (hist a ++ W).

Lemma after_nil a : after [] (dirty a) a = a.
Proof. unfold after. rewrite app_nil_r. by destruct a. Qed.

Lemma after_write W D b x a : sp_write b x (after W D a) = after (W ++ [(b, x)]) (D ∖ {[b]}) a.
Proof. unfold sp_write, after. cbn. by rewrite !apply_writes_app, <- app_assoc. Qed.

Lemma in_log_writes b st c ks t :
  b ∈ (take t (log_writes st c ks)).*1 -> (st < b < st + 1 + length ks)%nat.
Proof.
  intros (w & -> & [i Hi]%list_elem_of_lookup)%list_elem_of_fmap.
  apply lookup_take_Some in Hi as [Hi _]. unfold log_writes in Hi. rewrite list_lookup_imap in Hi.
  destruct (ks !! i) as [k|] eqn:Hk; [|done]. injection Hi as <-. cbn. apply lookup_lt_Some in Hk. lia.
Qed.
Lemma in_home_writes b st c ks t : b ∈ (take t (home_writes st c ks)).*1 -> b ∈ take t ks.
Proof.
  intros (w & -> & [i Hi]%list_elem_of_lookup)%list_elem_of_fmap.
  apply lookup_take_Some in Hi as [Hi Ht]. unfold home_writes in Hi. rewrite list_lookup_imap in Hi.
  destruct (ks !! i) as [k|] eqn:Hk; [|done]. injection Hi as <-. cbn. apply list_elem_of_lookup. exists i.
  by apply lookup_take_Some.
Qed.

Lemma u32_nat (z : Z) n : z = Z.of_nat n -> Z.of_nat n < 2 ^ 31 -> u32 z = Z.of_nat n.
Proof. intros -> H. apply u32_small. lia. Qed.

(** One turn of the loops of [write_log] and [install_trans]. *)
Section copy_block.
Context (me : Z) (st : nat) (s : lst) (a : bspec) (lb k : nat) (tail : nat).
Hypothesis (Hr : brep me (bc s) a) (Hh : held a = ∅).
Hypothesis (Hdev : l_dev (lg s) = 1) (Hlb : u32 (l_start (lg s) + Z.of_nat tail + 1) = Z.of_nat lb).
Hypothesis (Hk : l_block (lg s) !! tail = Some (Z.of_nat k)) (Hsm : Z.of_nat (length (disk a)) < 2 ^ 31).
Hypothesis (Hlt1 : (lb < length (disk a))%nat) (Hlt2 : (k < length (disk a))%nat) (Hne : lb <> k).
Hypothesis (Hsz : (size (dirty a) < NBUF)%nat) (Hkd : k ∈ dirty a \/ (S (size (dirty a)) < NBUF)%nat).

Lemma log_block_spec x :
  content a !! k = Some x ->
  wp (let! l := gets lg in
      let! to := bio (bread (u32 (l_dev l)) (u32 (l_start l + Z.of_nat tail + 1))) in
      let! blk := blockof tail in
      let! from := bio (bread (u32 (l_dev l)) (u32 blk)) in
      let! dt := bio (bdata from) in
      do! bio (set_bdata to dt);
      do! bio (bwrite to);
      do! bio (brelse from);
      bio (brelse to))
    (fun _ s' => lg s' = lg s /\ brep me (bc s') (sp_write lb x a)) s.
Proof.
  intros Hx. destruct (brep_lt _ _ _ _ _ Hr Hx) as [_ Hxl]. wp_steps. rewrite Hdev, Hlb. change (u32 1) with 1.
  eapply bread_first; try done. intros i s1 Hr1. wp_steps. eapply wp_blockof; [done|]. wp_steps. cbn [bc lg].
  rewrite (u32_nat _ k) by lia.
  eapply (bread_second me s1 a i lb k); try done. intros j s2 Hij Hr2. wp_steps. cbn [bc lg].
  eapply (bdata_spec me s2 _ j k); [done|cbn; by rewrite lookup_insert_eq|]. cbn [content sp_bread].
  intros dt Hd _. assert (dt = x) as -> by congruence.
  eapply (copy_release me (mklst s2 (lg s)) _ i j lb k); [done|cbn|cbn|done|done|done| |].
  - rewrite lookup_insert_ne, lookup_insert_eq by done. done.
  - by rewrite lookup_insert_eq.
  - apply (brep_settled me (bc s) a k); done.
  - intros s' Hr'. split; [done|]. rewrite (copied_pair i j i j) in Hr' by (try done; by left). done.
Qed.

Lemma home_block_spec x :
  content a !! lb = Some x ->
  wp (let! l := gets lg in
      let! lbuf := bio (bread (u32 (l_dev l)) (u32 (l_start l + Z.of_nat tail + 1))) in
      let! blk := blockof tail in
      let! dbuf := bio (bread (u32 (l_dev l)) (u32 blk)) in
      let! dt := bio (bdata lbuf) in
      do! bio (set_bdata dbuf dt);
      do! bio (bwrite dbuf);
      do! bio (brelse lbuf);
      bio (brelse dbuf))
    (fun _ s' => lg s' = lg s /\ brep me (bc s') (sp_write k x a)) s.
Proof.
  intros Hx. destruct (brep_lt _ _ _ _ _ Hr Hx) as [_ Hxl]. wp_steps. rewrite Hdev, Hlb. change (u32 1) with 1.
  eapply bread_first; try done. intros i s1 Hr1. wp_steps. eapply wp_blockof; [done|]. wp_steps. cbn [bc lg].
  rewrite (u32_nat _ k) by lia.
  eapply (bread_second me s1 a i lb k); try done. intros j s2 Hij Hr2. wp_steps. cbn [bc lg].
  eapply (bdata_spec me s2 _ i lb); [done|cbn; rewrite lookup_insert_ne, lookup_insert_eq by done; done|].
  cbn [content sp_bread]. intros dt Hd _. assert (dt = x) as -> by congruence.
  eapply (copy_release me (mklst s2 (lg s)) _ j i k lb); [done|cbn|cbn|done|done|done| |].
  - by rewrite lookup_insert_eq.
  - rewrite lookup_insert_ne, lookup_insert_eq by done. done.
  - apply (brep_settled me (bc s) a lb); done.
  - intros s' Hr'. split; [done|]. rewrite (copied_pair j i i j) in Hr' by (try done; by right). done.
Qed.
End copy_block.

Lemma write_log_spec me st s a ks :
  logmem st (lg s) ks -> logdisk st (length (disk a)) ks -> brep me (bc s) a -> held a = ∅ ->
  (forall k, k ∈ ks -> k ∈ dirty a) -> (forall t, (t < length ks)%nat -> (st + 1 + t)%nat ∉ dirty a) ->
  (size (dirty a) < NBUF)%nat ->
  wp write_log (fun _ s' => lg s' = lg s /\
    brep me (bc s') (after (log_writes st (content a) ks) (dirty a) a)) s.
Proof.
  intros Hm Hd Hr Hh Hdk Hdl Hsz. unfold write_log. rewrite wp_bind, wp_gets, (lm_n _ _ _ Hm), Nat2Z.id.
  eapply wp_mono; [apply (wp_for_seq (fun t s' => lg s' = lg s /\
    brep me (bc s') (after (take t (log_writes st (content a) ks)) (dirty a) a)))|].
  - split; [done|]. by rewrite take_0, after_nil.
  - intros t s' Ht [Hlg Hr']. destruct (lookup_lt_is_Some_2 ks t Ht) as [k Hk].
    destruct (ld_home _ _ _ Hd k) as [Hk1 Hk2]; [by eapply list_elem_of_lookup_2|].
    pose proof (ld_in _ _ _ Hd). pose proof (ld_small _ _ _ Hd).
    assert (k ∈ dirty a) as Hkd by (apply Hdk; by eapply list_elem_of_lookup_2).
    destruct (lookup_lt_is_Some_2 (content a) k) as [x Hx]; [by rewrite (br_size _ _ _ Hr)|].
    eapply wp_mono; [eapply (log_block_spec me s' _ (st + 1 + t) k t Hr' Hh)|]; rewrite ?Hlg.
    + by apply Hm.
    + apply u32_nat; [rewrite (lm_start _ _ _ Hm)|]; lia.
    + by apply Hm.
    + cbn. by rewrite length_apply_writes.
    + cbn. rewrite length_apply_writes. lia.
    + cbn. by rewrite length_apply_writes.
    + lia.
    + done.
    + by left.
    + cbn. rewrite apply_writes_other; [exact Hx|]. intros Hin%in_log_writes. lia.
    + cbn beta. intros [] s2 [-> Hr2]. split; [done|]. rewrite after_write in Hr2.
      unfold log_writes in *. rewrite (lookup_imap_take _ _ _ _ Hk), (list_lookup_total_correct _ _ _ Hx).
      replace (dirty a) with (dirty a ∖ {[(st + 1 + t)%nat]}) by (specialize (Hdl t Ht); set_solver). done.
  - cbn beta. intros [] s' [Hlg Hr']. split; [done|]. rewrite take_ge in Hr'; [done|].
    unfold log_writes. by rewrite length_imap.
Qed.

Lemma install_trans_spec me st s a ks :
  logmem st (lg s) ks -> logdisk st (length (disk a)) ks -> brep me (bc s) a -> held a = ∅ ->
  (size (dirty a) < NBUF)%nat ->
  (forall t k, ks !! t = Some k -> k ∈ dirty a ∖ list_to_set (take t ks) \/ (S (size (dirty a)) < NBUF)%nat) ->
  wp install_trans (fun _ s' => lg s' = lg s /\
    brep me (bc s') (after (home_writes st (content a) ks) (dirty a ∖ list_to_set ks) a)) s.
Proof.
  intros Hm Hd Hr Hh Hsz Hdk. unfold install_trans. rewrite wp_bind, wp_gets, (lm_n _ _ _ Hm), Nat2Z.id.
  eapply wp_mono; [apply (wp_for_seq (fun t s' => lg s' = lg s /\
    brep me (bc s') (after (take t (home_writes st (content a) ks)) (dirty a ∖ list_to_set (take t ks)) a)))|].
  - split; [done|]. rewrite !take_0. cbn [list_to_set]. rewrite difference_empty_L, after_nil. done.
  - intros t s' Ht [Hlg Hr']. destruct (lookup_lt_is_Some_2 ks t Ht) as [k Hk].
    pose proof (list_elem_of_lookup_2 _ _ _ Hk) as Hin. destruct (ld_home _ _ _ Hd k Hin) as [Hk1 Hk2].
    pose proof (ld_in _ _ _ Hd). pose proof (ld_small _ _ _ Hd).
    destruct (lookup_lt_is_Some_2 (content a) (st + 1 + t)) as [x Hx]; [rewrite (br_size _ _ _ Hr); lia|].
    assert (size (dirty a ∖ list_to_set (take t ks)) <= size (dirty a))%nat by (apply subseteq_size; set_solver).
    eapply wp_mono; [eapply (home_block_spec me s' _ (st + 1 + t) k t Hr' Hh)|]; rewrite ?Hlg.
    + by apply Hm.
    + apply u32_nat; [rewrite (lm_start _ _ _ Hm)|]; lia.
    + by apply Hm.
    + cbn. by rewrite length_apply_writes.
    + cbn. rewrite length_apply_writes. lia.
    + cbn. by rewrite length_apply_writes.
    + lia.
    + cbn. lia.
    + cbn. destruct (Hdk t k Hk) as [?|?]; [by left|right; lia].
    + cbn. rewrite apply_writes_other; [exact Hx|]. intros Hin'%in_home_writes.
      destruct (ld_home _ _ _ Hd (st + 1 + t)%nat); [|lia]. rewrite <- (take_drop t ks). set_solver.
    + cbn beta. intros [] s2 [-> Hr2]. split; [done|]. rewrite after_write in Hr2.
      unfold home_writes in *. rewrite (lookup_imap_take _ _ _ _ Hk), (list_lookup_total_correct _ _ _ Hx).
      rewrite (take_S_r _ _ _ Hk).
      replace (dirty a ∖ list_to_set (take t ks ++ [k])) with (dirty a ∖ list_to_set (take t ks) ∖ {[k]}) by set_solver.
      done.
  - cbn beta. intros [] s' [Hlg Hr']. split; [done|]. rewrite !take_ge in Hr'; [done|done|].
    unfold home_writes. by rewrite length_imap.
Qed.

Definition head_of (l : log) (hb : list Z) : list Z :=
  put_head (l_n l) (take (Z.to_nat (l_n l)) (l_block l)) hb.

Lemma write_head_spec me st s a :
  l_dev (lg s) = 1 -> l_start (lg s) = Z.of_nat st -> (Z.to_nat (l_n (lg s)) <= length (l_block (lg s)))%nat ->
  brep me (bc s) a -> held a = ∅ -> (st < length (disk a))%nat -> Z.of_nat (length (disk a)) < 2 ^ 31 ->
  (size (dirty a) < NBUF)%nat -> st ∉ dirty a ->
  wp write_head (fun _ s' => lg s' = lg s /\
    brep me (bc s') (after [(st, head_of (lg s) (content a !!! st))] (dirty a) a)) s.
Proof.
  intros Hdev Hst Hn Hr Hh Hlt Hsm Hsz Hnd. unfold write_head. wp_steps. rewrite Hdev, Hst. change (u32 1) with 1.
  rewrite (u32_nat _ st) by lia. destruct (lookup_lt_is_Some_2 (content a) st) as [x Hx]; [by rewrite (br_size _ _ _ Hr)|].
  destruct (brep_lt _ _ _ _ _ Hr Hx) as [_ Hxl]. rewrite (list_lookup_total_correct _ _ _ Hx).
  eapply bread_first; try done. intros i s1 Hr1. wp_steps. cbn [bc lg].
  eapply (bdata_spec me s1 _ i st _ Hr1); [cbn; by rewrite lookup_insert_eq|]. cbn [content sp_bread].
  intros y Hy _. assert (y = x) as -> by congruence. wp_steps. cbn [bc lg].
  eapply wp_mono; [apply (set_bdata_spec me s1 (sp_bread i st a) i st); [done|cbn; by rewrite lookup_insert_eq|by rewrite length_put32]|].
  cbn beta. intros [] s2 Hr2. wp_steps. set (n := Z.to_nat (l_n (lg s))) in *.
  eapply wp_mono; [apply (wp_for_seq (fun t s' => lg s' = lg s /\
    brep me (bc s') (sp_store st (put_head (l_n (lg s)) (take t (l_block (lg s))) x) (sp_bread i st a))))|].
  - split; [done|]. done.
  - intros t s' Ht [Hlg Hr']. destruct (lookup_lt_is_Some_2 (l_block (lg s)) t) as [v Hv]; [lia|].
    wp_steps. eapply wp_blockof; [by rewrite Hlg|]. wp_steps.
    eapply (bdata_spec me _ _ i st _ Hr'); [cbn; by rewrite lookup_insert_eq|]. cbn [content sp_bread sp_store].
    intros z Hz Hzl. rewrite list_lookup_insert_eq in Hz by (rewrite (br_size _ _ _ Hr); done). injection Hz as <-.
    wp_steps. eapply wp_mono; [eapply (set_bdata_spec me _ _ i st); [exact Hr'|cbn; by rewrite lookup_insert_eq|]|].
    { by rewrite length_put32. }
    cbn beta. intros [] s3 Hr3. split; [done|]. rewrite (take_S_r _ _ _ Hv), put_head_snoc.
    rewrite length_take_le by lia. unfold sp_store in *. cbn [content disk dirty held hist sp_bread] in *.
    rewrite list_insert_insert_eq in Hr3. done.
  - cbn beta. intros [] s3 [Hlg Hr3]. wp_steps. fold (head_of (lg s) x) in Hr3.
    eapply wp_mono; [eapply (bwrite_spec me _ _ i st (head_of (lg s) x) Hr3)|].
    { cbn. by rewrite lookup_insert_eq. }
    { cbn. apply list_lookup_insert_eq. by rewrite (br_size _ _ _ Hr). }
    cbn beta. intros [] s4 Hr4. wp_steps. cbn [bc lg]. eapply wp_mono; [apply (brelse_spec me _ _ i st Hr4)|].
    { cbn. by rewrite lookup_insert_eq. }
    { right. cbn. rewrite !list_lookup_insert_eq; [done|done|by rewrite (br_size _ _ _ Hr)]. }
    cbn beta. intros [] s5 Hr5. split; [done|]. unfold sp_brelse, sp_bwrite, sp_store, sp_bread, after in *. cbn in *.
    rewrite Hh in *. rewrite delete_insert_id in Hr5 by done.
    replace (dirty a) with (dirty a ∖ {[st]}) by set_solver. done.
Qed.

(** ** A commit *)

Record logrep (me : Z) (st sz : nat) (s : lst) a ks : Prop := {
  lr_brep : brep me (bc s) a;
  lr_mem : logmem st (lg s) ks;
  lr_size : l_size (lg s) = Z.of_nat sz;
  lr_len : length (l_block (lg s)) = LOGSIZE;
  lr_nodup : NoDup ks;
  lr_home : forall k, k ∈ ks -> (k < length (disk a))%nat /\ ~ (st <= k < st + sz)%nat;
  lr_dirty : dirty a = list_to_set ks;
  lr_room : (length ks < sz <= LOGSIZE)%nat;
  lr_in : (st + sz <= length (disk a))%nat;
  lr_small : Z.of_nat (length (disk a)) < 2 ^ 31
}.

Lemma after_after W1 W2 D1 D2 a : after W2 D2 (after W1 D1 a) = after (W1 ++ W2) D2 a.
Proof. unfold after. cbn. by rewrite !apply_writes_app, app_assoc. Qed.

Lemma log_writes_keys st c ks : (log_writes st c ks).*1 = seq (st + 1) (length ks).
Proof.
  apply list_eq. intros i. unfold log_writes. rewrite list_lookup_fmap, list_lookup_imap.
  destruct (ks !! i) eqn:E; cbn.
  - rewrite lookup_seq_lt; [done|]. by eapply lookup_lt_Some.
  - rewrite lookup_seq_ge; [done|]. by apply lookup_ge_None.
Qed.

Lemma apply_writes_in W d b x :
  NoDup W.*1 -> (b, x) ∈ W -> (b < length d)%nat -> apply_writes W d !! b = Some x.
Proof.
  revert d. induction W as [|w W IH]; intros d Hnd Hin Hb; [by apply elem_of_nil in Hin|].
  cbn [fmap list_fmap] in Hnd. apply NoDup_cons in Hnd as [Hn Hnd]. rewrite apply_writes_cons.
  apply list_elem_of_In in Hin. destruct Hin as [->|Hin].
  - rewrite apply_writes_other by done. cbn. by apply list_lookup_insert_eq.
  - apply IH; [done|by apply list_elem_of_In|by rewrite length_insert].
Qed.

Lemma log_writes_at st c ks d t k :
  ks !! t = Some k -> (st + 1 + t < length d)%nat ->
  apply_writes (log_writes st c ks) d !! (st + 1 + t)%nat = Some (c !!! k).
Proof.
  intros Hk Hlt. apply apply_writes_in; [|..|done].
  - rewrite log_writes_keys. apply NoDup_seq.
  - apply list_elem_of_lookup. exists t. unfold log_writes. by rewrite list_lookup_imap, Hk.
Qed.

Definition commit_writes (st : nat) (l : log) (c : list (list Z)) ks : list (nat * list Z) :=
  let h := head_of l (c !!! st) in
  log_writes st c ks ++ [(st, h)] ++ ((fun k => (k, c !!! k)) <$> ks) ++ [(st, put32 0 0 h)].

Lemma logrep_disk me st sz s a ks : logrep me st sz s a ks -> logdisk st (length (disk a)) ks.
Proof.
  intros H. pose proof (lr_room _ _ _ _ _ _ H). pose proof (lr_in _ _ _ _ _ _ H). constructor; [lia|apply H|].
  intros k Hk. destruct (lr_home _ _ _ _ _ _ H k Hk). split; [done|lia].
Qed.

Section commit.
Context (me : Z) (st sz : nat) (s : lst) (a : bspec) (ks : list nat).
Hypothesis (H : logrep me st sz s a ks) (Hh : held a = ∅).

Lemma logrep_size : (size (dirty a) < NBUF)%nat.
Proof.
  rewrite (lr_dirty _ _ _ _ _ _ H), size_list_to_set by apply H. pose proof (lr_room _ _ _ _ _ _ H).
  unfold LOGSIZE, NBUF, MAXOPBLOCKS in *. lia.
Qed.

Lemma logrep_clean b : (st <= b < st + sz)%nat -> b ∉ dirty a.
Proof.
  rewrite (lr_dirty _ _ _ _ _ _ H), elem_of_list_to_set. intros Hb Hin.
  destruct (lr_home _ _ _ _ _ _ H b Hin). lia.
Qed.

Let WL := log_writes st (content a) ks.
Let h := head_of (lg s) (content a !!! st).

Lemma log_writes_st : st ∉ WL.*1.
Proof. unfold WL. rewrite log_writes_keys. intros Hi%elem_of_seq. lia. Qed.

(** Up to the header, the write that commits. *)
Lemma commit_log_spec :
  wp (do! write_log; write_head) (fun _ s' => lg s' = lg s /\
    brep me (bc s') (after (WL ++ [(st, h)]) (dirty a) a)) s.
Proof.
  pose proof (lr_mem _ _ _ _ _ _ H) as Hm. pose proof (lr_room _ _ _ _ _ _ H). pose proof (lr_in _ _ _ _ _ _ H).
  rewrite wp_bind. eapply wp_mono; [apply (write_log_spec me st s a ks Hm); try done|].
  { by eapply logrep_disk. }
  { apply H. }
  { intros k Hk. rewrite (lr_dirty _ _ _ _ _ _ H). by apply elem_of_list_to_set. }
  { intros t Ht. apply logrep_clean. lia. }
  { apply logrep_size. }
  cbn beta. intros [] s1 [Hl1 Hr1]. fold WL in Hr1.
  eapply wp_mono; [apply (write_head_spec me st s1 (after WL (dirty a) a))|]; rewrite ?Hl1; try done; try apply Hm.
  { rewrite (lm_n _ _ _ Hm), Nat2Z.id, (lr_len _ _ _ _ _ _ H). lia. }
  { cbn. rewrite length_apply_writes. lia. }
  { cbn. rewrite length_apply_writes. apply H. }
  { apply logrep_size. }
  { apply logrep_clean. lia. }
  cbn beta. intros [] s2 [-> Hr2]. split; [done|]. rewrite after_after in Hr2. cbn [content after] in Hr2.
  rewrite apply_writes_total in Hr2 by apply log_writes_st. done.
Qed.

Lemma home_writes_logged :
  home_writes st (apply_writes (WL ++ [(st, h)]) (content a)) ks = (fun k => (k, content a !!! k)) <$> ks.
Proof.
  apply list_eq. intros t. unfold home_writes. rewrite list_lookup_imap, list_lookup_fmap.
  destruct (ks !! t) as [k|] eqn:Hk; [|done]. cbn [fmap option_fmap option_map]. do 2 f_equal.
  rewrite apply_writes_app, apply_writes_total by (cbn; set_solver by lia).
  apply list_lookup_total_correct. apply log_writes_at; [done|].
  pose proof (lookup_lt_Some _ _ _ Hk). pose proof (lr_room _ _ _ _ _ _ H). pose proof (lr_in _ _ _ _ _ _ H).
  rewrite (br_size _ _ _ (lr_brep _ _ _ _ _ _ H)). lia.
Qed.

(** From the header on. *)
Lemma commit_install_spec s1 :
  lg s1 = lg s -> brep me (bc s1) (after (WL ++ [(st, h)]) (dirty a) a) ->
  wp (do! install_trans; do! upd (set_l_n 0); write_head) (fun _ s' => lg s' = set_l_n 0 (lg s) /\
    brep me (bc s') (after (commit_writes st (lg s) (content a) ks) ∅ a)) s1.
Proof.
  intros Hl1 Hr1. pose proof (lr_mem _ _ _ _ _ _ H) as Hm. pose proof (lr_nodup _ _ _ _ _ _ H) as Hnd.
  pose proof (lr_room _ _ _ _ _ _ H). pose proof (lr_in _ _ _ _ _ _ H). rewrite wp_bind.
  eapply wp_mono; [apply (install_trans_spec me st s1 (after (WL ++ [(st, h)]) (dirty a) a) ks)|];
    rewrite ?Hl1; try done.
  { cbn. rewrite length_apply_writes. by eapply logrep_disk. }
  { apply logrep_size. }
  { intros t k Hk. left. cbn. rewrite (lr_dirty _ _ _ _ _ _ H). apply elem_of_difference. rewrite !elem_of_list_to_set.
    split; [by eapply list_elem_of_lookup_2|]. intros [j Hj]%list_elem_of_lookup. apply lookup_take_Some in Hj as [Hj ?].
    pose proof (NoDup_lookup _ _ _ _ Hnd Hk Hj). lia. }
  cbn beta. intros [] s2 [Hl2 Hr2]. rewrite after_after in Hr2. cbn [content after] in Hr2. rewrite home_writes_logged in Hr2.
  cbn [dirty] in Hr2. rewrite (lr_dirty _ _ _ _ _ _ H), difference_diag_L in Hr2.
  unfold upd. rewrite wp_bind, wp_modify.
  set (WH := (fun k => (k, content a !!! k)) <$> ks) in *.
  eapply wp_mono; [apply (write_head_spec me st (mklst (bc s2) (set_l_n 0 (lg s2))) (after ((WL ++ [(st, h)]) ++ WH) ∅ a))|];
    cbn [lg]; rewrite ?Hl2; try done; try apply Hm.
  { cbn. lia. }
  { cbn. rewrite length_apply_writes. lia. }
  { cbn. rewrite length_apply_writes. apply H. }
  { cbn. rewrite size_empty. unfold NBUF. lia. }
  cbn beta. cbn [lg]. intros [] s3 [-> Hr3]. split; [done|]. rewrite after_after in Hr3. cbn [content after] in Hr3.
  assert (apply_writes ((WL ++ [(st, h)]) ++ WH) (content a) !!! st = h) as Hst.
  { rewrite !apply_writes_app, apply_writes_total.
    - apply list_lookup_total_correct. cbn. apply list_lookup_insert_eq. rewrite length_apply_writes.
      rewrite (br_size _ _ _ (lr_brep _ _ _ _ _ _ H)). lia.
    - unfold WH. rewrite <- list_fmap_compose, (list_fmap_ext _ id), list_fmap_id by done.
      intros Hin. destruct (lr_home _ _ _ _ _ _ H st Hin). lia. }
  rewrite Hst in Hr3. unfold commit_writes. fold WL h WH. rewrite <- !app_assoc in Hr3. done.
Qed.

Lemma commit_spec :
  wp commit (fun _ s' => lg s' = set_l_n 0 (lg s) /\
    brep me (bc s') (after (if decide (ks = []) then [] else commit_writes st (lg s) (content a) ks) ∅ a)) s.
Proof.
  pose proof (lm_n _ _ _ (lr_mem _ _ _ _ _ _ H)) as Hn. unfold commit. rewrite wp_bind, wp_gets, Hn.
  case_decide as Hks.
  - replace (Z.of_nat (length ks) >? 0) with false by (by rewrite Hks). cbn [when]. rewrite wp_ret. rewrite Hks in Hn. change (Z.of_nat (length [])) with 0 in Hn.
    split; [unfold set_l_n; rewrite <- Hn; by destruct (lg s)|].
    pose proof (lr_brep _ _ _ _ _ _ H) as Hr. rewrite <- after_nil, (lr_dirty _ _ _ _ _ _ H), Hks in Hr. done.
  - destruct (Z.of_nat (length ks) >? 0) eqn:E; zb; [|destruct ks; [done|cbn in *; lia]]. cbn [when].
    pose proof commit_log_spec as Hc. rewrite wp_bind in Hc. rewrite wp_bind. eapply wp_mono; [exact Hc|].
    cbn beta. intros [] s1 H1. rewrite wp_bind. eapply wp_mono; [exact H1|]. cbn beta. intros [] s2 [Hl2 Hr2].
    by apply commit_install_spec.
Qed.
End commit.

(** ** Recovery *)

(** The blocks a header lists. *)
Definition head_blocks (hb : list Z) : list Z :=
  (fun i => i32 (get32 hb (4 + 4 * i))) <$> seq 0 (Z.to_nat (i32 (get32 hb 0))).

Lemma read_head_spec me st s a hb :
  l_dev (lg s) = 1 -> l_start (lg s) = Z.of_nat st -> length (l_block (lg s)) = LOGSIZE ->
  brep me (bc s) a -> held a = ∅ -> dirty a = ∅ -> content a !! st = Some hb -> Z.of_nat (length (disk a)) < 2 ^ 31 ->
  0 <= i32 (get32 hb 0) <= Z.of_nat LOGSIZE ->
  wp read_head (fun _ s' => brep me (bc s') a /\
    lg s' = set_l_block (head_blocks hb ++ drop (length (head_blocks hb)) (l_block (lg s)))
              (set_l_n (i32 (get32 hb 0)) (lg s))) s.
Proof.
  intros Hdev Hst Hlen Hr Hh Hd Hhb Hsm Hn. destruct (brep_lt _ _ _ _ _ Hr Hhb) as [Hlt Hbl].
  unfold read_head. wp_steps. rewrite Hdev, Hst. change (u32 1) with 1. rewrite (u32_nat _ st) by lia.
  eapply bread_first; try done. { rewrite Hd, size_empty. unfold NBUF. lia. }
  intros i s1 Hr1. wp_steps. cbn [bc lg].
  eapply (bdata_spec me s1 _ i st _ Hr1); [cbn; by rewrite lookup_insert_eq|]. cbn [content sp_bread].
  intros y Hy _. assert (y = hb) as -> by congruence. unfold upd. wp_steps. cbn [bc lg l_n set_l_n].
  set (vs := head_blocks hb). assert (length vs = Z.to_nat (i32 (get32 hb 0))) as Hvs
    by (unfold vs, head_blocks; by rewrite length_fmap, length_seq).
  eapply wp_mono; [apply (wp_for_seq (fun t s' => bc s' = s1 /\
    lg s' = set_l_block (take t vs ++ drop t (l_block (lg s))) (set_l_n (i32 (get32 hb 0)) (lg s))))|].
  - split; [done|]. rewrite take_0, drop_0. by destruct (lg s).
  - intros t s' Ht [Hb Hl]. destruct (lookup_lt_is_Some_2 vs t) as [v Hv]; [lia|].
    destruct (lookup_lt_is_Some_2 (l_block (lg s)) t) as [w Hw]; [lia|].
    assert (v = i32 (get32 hb (4 + 4 * t))) as <-.
    { unfold vs, head_blocks in Hv. rewrite list_lookup_fmap, lookup_seq_lt in Hv by lia. by injection Hv. }
    assert (length (take t vs) = t) as Htl by (rewrite length_take; lia).
    unfold set_blockof, upd. rewrite wp_bind. eapply wp_blockof.
    { rewrite Hl. cbn. rewrite lookup_app_r, Htl, lookup_drop, Nat.sub_diag, Nat.add_0_r by lia. exact Hw. }
    wp_steps. split; [done|]. cbn [lg]. rewrite Hl. unfold set_l_block. cbn. f_equal.
    rewrite insert_app_r_alt, Htl, Nat.sub_diag by lia. rewrite (drop_S _ _ _ Hw), (take_S_r _ _ _ Hv). cbn.
    by rewrite <- app_assoc.
  - cbn beta. intros [] s2 [Hb Hl]. wp_steps. cbn [bc lg]. rewrite Hb.
    eapply wp_mono; [apply (brelse_spec me _ _ i st Hr1); [cbn; by rewrite lookup_insert_eq|]|].
    { by apply (brep_settled me (bc s) a st). }
    cbn beta. intros [] s3 Hr3. cbn [bc lg]. split; [|by rewrite Hl, Hvs, take_ge by lia].
    unfold sp_brelse, sp_bread in Hr3. cbn in Hr3. rewrite Hh in Hr3. rewrite delete_insert_id in Hr3 by done.
    rewrite <- Hh in Hr3. by destruct a.
Qed.

Definition recover_writes (st : nat) (c : list (list Z)) ks : list (nat * list Z) :=
  home_writes st c ks ++ [(st, put32 0 0 (c !!! st))].

Lemma home_writes_keys st c ks : (home_writes st c ks).*1 = ks.
Proof.
  apply list_eq. intros i. unfold home_writes. rewrite list_lookup_fmap, list_lookup_imap. by destruct (ks !! i).
Qed.

Lemma recover_spec me st s a hb ks :
  l_dev (lg s) = 1 -> l_start (lg s) = Z.of_nat st -> length (l_block (lg s)) = LOGSIZE ->
  brep me (bc s) a -> held a = ∅ -> dirty a = ∅ -> content a !! st = Some hb ->
  i32 (get32 hb 0) = Z.of_nat (length ks) -> (length ks <= LOGSIZE)%nat ->
  head_blocks hb = Z.of_nat <$> ks -> logdisk st (length (disk a)) ks ->
  wp recover_from_log (fun _ s' => brep me (bc s') (after (recover_writes st (content a) ks) ∅ a) /\
    l_dev (lg s') = 1 /\ l_start (lg s') = Z.of_nat st /\ l_n (lg s') = 0 /\ length (l_block (lg s')) = LOGSIZE /\
    l_size (lg s') = l_size (lg s) /\ l_outstanding (lg s') = l_outstanding (lg s) /\
    l_committing (lg s') = l_committing (lg s)) s.
Proof.
  intros Hdev Hst Hlen Hr Hh Hd Hhb Hn HLS Hks Hld. pose proof (ld_small _ _ _ Hld). pose proof (ld_in _ _ _ Hld).
  destruct (brep_lt _ _ _ _ _ Hr Hhb) as [Hlt Hbl]. unfold recover_from_log. rewrite wp_bind.
  eapply wp_mono; [apply (read_head_spec me st s a hb); try done|].
  { rewrite Hn. lia. }
  cbn beta. intros [] s1 [Hr1 Hl1].
  rewrite wp_bind. eapply wp_mono; [apply (install_trans_spec me st s1 a ks); try done|].
  { rewrite Hl1. constructor; [done|done|done|]. intros i k Hk. cbn. rewrite Hks.
    rewrite lookup_app_l by (rewrite length_fmap; by eapply lookup_lt_Some). by rewrite list_lookup_fmap, Hk. }
  { rewrite Hd, size_empty. unfold NBUF. lia. }
  { intros t k _. right. rewrite Hd, size_empty. unfold NBUF. lia. }
  cbn beta. rewrite Hd, difference_empty_L || rewrite Hd. intros [] s2 [Hl2 Hr2].
  replace (∅ ∖ list_to_set ks) with (∅ : gset nat) in Hr2 by set_solver.
  assert (length (l_block (lg s2)) = LOGSIZE) as Hlen2.
  { rewrite Hl2, Hl1. cbn [l_block set_l_block]. rewrite length_app, length_drop, Hks, length_fmap. cbn [l_block set_l_n]. lia. }
  unfold upd. rewrite wp_bind, wp_modify.
  eapply wp_mono; [eapply (write_head_spec me st (mklst (bc s2) (set_l_n 0 (lg s2))) _)|];
    [| | |exact Hr2|..]; cbn [lg l_dev l_start set_l_n l_n l_block after content disk dirty held]; try done.
  { by rewrite Hl2, Hl1. }
  { by rewrite Hl2, Hl1. }
  { cbn. lia. }
  { by rewrite length_apply_writes. }
  { by rewrite length_apply_writes. }
  { rewrite size_empty. unfold NBUF. lia. }
  intros [] s3 [-> Hr3]. rewrite after_after in Hr3. rewrite apply_writes_total in Hr3.
  2: { rewrite home_writes_keys. intros Hin. destruct (ld_home _ _ _ Hld st Hin). lia. }
  split; [exact Hr3|]. repeat split; try done; cbn [lg set_l_n l_dev l_start l_block l_size l_outstanding l_committing];
    try done; by rewrite Hl2, Hl1.
Qed.
