(* ===== verification/LogProps.v ===== *)
(** Crash safety of the log: the theorems. *)

From S2P Require Import Prelude CString Mem Bio BioSpec Log LogSpec.
Import Bio Log.

Implicit Types (a : bspec) (ks : list nat) (d : list (list Z)) (W w : list (nat * list Z)).

(** ** Booting on a disk *)

Definition lst0 (me : Z) d : lst := mklst (bst0 d me) log0.
Definition boot : M lst unit := do! bio binit; initlog 1.

(** Block 1 says where the log is. *)
Definition sb_block (st sz : nat) (x : list Z) : Prop :=
  get32 x 16 = Z.of_nat st /\ get32 x 12 = Z.of_nat sz.
Record disk_ok (st sz : nat) d : Prop := {
  dk_blocks : blocks_ok d;
  dk_sb : exists x, d !! 1%nat = Some x /\ sb_block st sz x;
  dk_sz : (0 < sz <= LOGSIZE)%nat;
  dk_in : (st + sz <= length d)%nat;
  dk_one : (1 < st)%nat;
  dk_small : Z.of_nat (length d) < 2 ^ 31
}.

(** The header block lists [ks]. *)
Definition lists (hb : list Z) ks : Prop :=
  i32 (get32 hb 0) = Z.of_nat (length ks) /\ head_blocks hb = Z.of_nat <$> ks.

Lemma readsb_spec me s a x :
  brep me (bc s) a -> held a = ∅ -> dirty a = ∅ -> content a !! 1%nat = Some x ->
  wp (readsb 1) (fun sb s' => brep me (bc s') a /\ lg s' = lg s /\
    sb_nlog sb = get32 x 12 /\ sb_logstart sb = get32 x 16) s.
Proof.
  intros Hr Hh Hd Hx. destruct (brep_lt _ _ _ _ _ Hr Hx) as [Hlt Hxl]. unfold readsb. wp_steps. change (u32 1) with 1.
  apply (bread_first me (bc s) a 1); try done. { rewrite Hd, size_empty. unfold NBUF. lia. }
  intros i s1 Hr1. wp_steps. cbn [bc lg].
  eapply (bdata_spec me s1 _ i 1 _ Hr1); [cbn; by rewrite lookup_insert_eq|]. cbn [content sp_bread].
  intros y Hy _. assert (y = x) as -> by congruence. wp_steps. cbn [bc lg].
  eapply wp_mono; [apply (brelse_spec me _ _ i 1 Hr1); [cbn; by rewrite lookup_insert_eq|]|].
  { by apply (brep_settled me (bc s) a 1). }
  cbn beta. intros [] s3 Hr3. wp_steps. cbn [bc lg]. split; [|done].
  unfold sp_brelse, sp_bread in Hr3. cbn in Hr3. rewrite Hh in Hr3. rewrite delete_insert_id in Hr3 by done.
  rewrite <- Hh in Hr3. by destruct a.
Qed.

Lemma boot_spec me st sz d hb ks :
  disk_ok st sz d -> d !! st = Some hb -> lists hb ks -> (length ks < sz)%nat ->
  (forall k, k ∈ ks -> (k < length d)%nat /\ ~ (st <= k < st + sz)%nat) ->
  wp boot (fun _ s => logrep me st sz s (after (recover_writes st d ks) ∅ (bspec0 d)) [] /\
    l_outstanding (lg s) = 0 /\ l_committing (lg s) = 0) (lst0 me d).
Proof.
  intros [Hb (x & Hx & Hsb1 & Hsb2) Hsz Hin Hone Hsm] Hhb [Hn Hks] Hlen Hhome.
  unfold boot. rewrite wp_bind, wp_bio. eapply wp_mono; [by apply (binit_brep me d)|]. cbn beta. intros [] s1 Hr1.
  unfold initlog. change (BSIZE <=? 4 + 4 * LOGSIZE)%nat with false. cbn iota. rewrite wp_bind.
  eapply wp_mono; [by apply (readsb_spec me _ (bspec0 d) x)|]. cbn beta. intros sb s2 (Hr2 & Hl2 & Hnl & Hls).
  unfold upd. rewrite wp_bind, wp_modify, Hnl, Hls, Hsb1, Hsb2, !i32_small by lia.
  eapply wp_mono; [apply (recover_spec me st _ (bspec0 d) hb ks)|]; try done.
  { by rewrite Hl2. }
  { lia. }
  { cbn. constructor; [lia|done|]. intros k Hk. destruct (Hhome k Hk). split; [done|lia]. }
  cbn beta. intros [] s3 (Hr3 & H1 & H2 & H3 & H4 & H5 & H6 & H7). cbn [lg l_size set_l_where] in H5.
  cbn [lg] in *. rewrite Hl2 in *. split; [|done]. constructor; try done.
  - by apply NoDup_nil.
  - intros k Hk%elem_of_nil. done.
  - cbn. by rewrite length_apply_writes.
  - cbn. by rewrite length_apply_writes.
Qed.

(** ** What recovery makes of a crash *)

Definition outside (st sz b : nat) : Prop := ~ (st <= b < st + sz)%nat.
Definition same_outside (st sz : nat) d1 d2 : Prop := forall b, outside st sz b -> d1 !! b = d2 !! b.

(** Recovery leaves the contents [f] when the log lists blocks of [f] and the rest of the disk is [f]. *)
Lemma recovered st sz d f ks :
  (forall t k, ks !! t = Some k -> d !! (st + 1 + t)%nat = f !! k) ->
  (forall k, k ∈ ks -> (k < length d)%nat) -> length f = length d -> (length ks < sz)%nat ->
  (forall b, outside st sz b -> b ∉ ks -> d !! b = f !! b) ->
  same_outside st sz (apply_writes (recover_writes st d ks) d) f.
Proof.
  intros Hlog Hk Hlen Hsz Hrest b Hb. unfold recover_writes.
  rewrite apply_writes_app, apply_writes_other by (cbn; unfold outside in Hb; set_solver by lia).
  rewrite (apply_writes_agree _ _ f).
  - rewrite home_writes_keys. case_decide; [done|]. by apply Hrest.
  - apply Forall_lookup. intros t wr Hw. unfold home_writes in Hw. rewrite list_lookup_imap in Hw.
    destruct (ks !! t) as [k|] eqn:Ek; [|done]. injection Hw as <-. cbn. rewrite <- (Hlog t k Ek).
    destruct (d !! (st + 1 + t)%nat) as [y|] eqn:Hy; [by rewrite (list_lookup_total_correct _ _ _ Hy)|].
    rewrite (Hlog t k Ek) in Hy. apply lookup_ge_None in Hy.
    assert (k < length d)%nat by (apply Hk; by eapply list_elem_of_lookup_2). lia.
  - done.
Qed.

(** The header a commit writes lists the blocks of the transaction. *)
Lemma head_of_lists st l ks hb :
  logmem st l ks -> (length ks <= LOGSIZE)%nat -> (LOGSIZE <= length (l_block l))%nat -> length hb = BSIZE ->
  (forall k, k ∈ ks -> Z.of_nat k < 2 ^ 31) -> lists (head_of l hb) ks.
Proof.
  intros Hm Hlen Hbl Hhb Hk. unfold head_of, lists. rewrite (lm_n _ _ _ Hm), Nat2Z.id.
  assert (length (take (length ks) (l_block l)) = length ks) as Htl by (rewrite length_take; lia).
  assert (4 + 4 * length ks <= length hb)%nat as Hroom by (rewrite Hhb; unfold BSIZE, LOGSIZE, MAXOPBLOCKS in *; lia).
  assert (i32 (get32 (put_head (Z.of_nat (length ks)) (take (length ks) (l_block l)) hb) 0) = Z.of_nat (length ks)) as Hn.
  { rewrite put_head_n by lia. rewrite i32_u32, i32_small; [done|]. unfold LOGSIZE, MAXOPBLOCKS in Hlen. lia. }
  split; [done|]. unfold head_blocks. rewrite Hn, Nat2Z.id. apply list_eq. intros i. rewrite !list_lookup_fmap.
  destruct (ks !! i) as [k|] eqn:Ek.
  - pose proof (lookup_lt_Some _ _ _ Ek). rewrite lookup_seq_lt by done. cbn.
    rewrite (put_head_block _ _ _ i (Z.of_nat k)).
    + rewrite i32_u32, i32_small; [done|]. specialize (Hk k (list_elem_of_lookup_2 _ _ _ Ek)). lia.
    + lia.
    + rewrite lookup_take_lt by done. by apply Hm.
  - apply lookup_ge_None in Ek. by rewrite lookup_seq_ge.
Qed.

Lemma clear_lists x : (4 <= length x)%nat -> lists (put32 0 0 x) [].
Proof. intros Hx. unfold lists, head_blocks. by rewrite get32_put32. Qed.

Lemma prefix_app_or {A} (l l1 l2 : list A) :
  l `prefix_of` l1 ++ l2 -> l `prefix_of` l1 \/ exists l', l = l1 ++ l' /\ l' `prefix_of` l2.
Proof.
  revert l. induction l1 as [|x l1 IH]; intros l Hl; cbn in *.
  - right. by exists l.
  - destruct l as [|y l]; [left; apply prefix_nil|]. pose proof (prefix_cons_inv_1 _ _ _ _ Hl) as ->.
    apply prefix_cons_inv_2, IH in Hl as [Hl|(l' & -> & Hl)].
    + left. by apply prefix_cons.
    + right. by exists l'.
Qed.

Lemma prefix_elem {A} (l l' : list A) x : l `prefix_of` l' -> x ∈ l -> x ∈ l'.
Proof. intros [k ->] Hx. set_solver. Qed.

Section crash.
Context (me me' : Z) (st sz : nat) (s : lst) (a : bspec) (ks : list nat).
Hypothesis (H : logrep me st sz s a ks) (Hh : held a = ∅).
Hypothesis (Hd : disk_ok st sz (disk a)) (Hc : exists x, content a !! 1%nat = Some x /\ sb_block st sz x).
Hypothesis (Hhd : forall x, disk a !! st = Some x -> lists x []).

Let WL := log_writes st (content a) ks.
Let h := head_of (lg s) (content a !!! st).
Let WH := (fun k => (k, content a !!! k)) <$> ks.

(** A disk between the old contents and the new ones still has the superblock. *)
Lemma crash_disk_ok d :
  length d = length (disk a) -> blocks_ok d ->
  (d !! 1%nat = disk a !! 1%nat \/ d !! 1%nat = content a !! 1%nat) -> disk_ok st sz d.
Proof.
  intros Hlen Hb H1. destruct Hd as [_ Hsb Hsz Hin Hone Hsm]. constructor; try done; try lia.
  destruct H1 as [->| ->]; done.
Qed.

Lemma crash_settled b : outside st sz b -> b ∉ ks -> disk a !! b = content a !! b.
Proof.
  intros Hb Hk. symmetry. apply (br_clean _ _ _ (lr_brep _ _ _ _ _ _ H)).
  - rewrite (lr_dirty _ _ _ _ _ _ H). by rewrite elem_of_list_to_set.
  - intros j. by rewrite Hh, lookup_empty.
Qed.

Lemma content_block k : (k < length (disk a))%nat -> content a !! k = Some (content a !!! k) /\ length (content a !!! k) = BSIZE.
Proof.
  pose proof (lr_brep _ _ _ _ _ _ H) as Hr. rewrite <- (br_size _ _ _ Hr). intros [x Hx]%lookup_lt_is_Some_2.
  rewrite (list_lookup_total_correct _ _ _ Hx). split; [done|]. by eapply brep_lt.
Qed.

Lemma length_h : length h = BSIZE.
Proof.
  unfold h, head_of. rewrite length_put_head. apply content_block. pose proof (lr_in _ _ _ _ _ _ H).
  pose proof (lr_room _ _ _ _ _ _ H). lia.
Qed.

Lemma log_writes_ok w : w `prefix_of` WL ->
  Forall (fun x => length x.2 = BSIZE) w /\ forall b, b ∈ w.*1 -> (st < b < st + sz)%nat.
Proof.
  intros Hw. pose proof (lr_room _ _ _ _ _ _ H). split.
  - apply Forall_forall. intros x Hx. apply (prefix_elem _ _ _ Hw) in Hx. apply list_elem_of_lookup in Hx as [t Ht].
    unfold WL, log_writes in Ht. rewrite list_lookup_imap in Ht. destruct (ks !! t) as [k|] eqn:Hk; [|done].
    injection Ht as <-. cbn. apply content_block. apply (lr_home _ _ _ _ _ _ H). by eapply list_elem_of_lookup_2.
  - intros b Hb. assert (b ∈ WL.*1) as Hb'.
    { apply list_elem_of_fmap in Hb as (x & -> & Hx). apply list_elem_of_fmap_2. by eapply prefix_elem. }
    unfold WL in Hb'. rewrite log_writes_keys, elem_of_seq in Hb'. lia.
Qed.

Lemma home_writes_ok w : w `prefix_of` WH ->
  Forall (fun x => content a !! x.1 = Some x.2) w /\ Forall (fun x => length x.2 = BSIZE) w /\ forall b, b ∈ w.*1 -> b ∈ ks.
Proof.
  intros Hw. assert (forall x, x ∈ w -> exists k, x = (k, content a !!! k) /\ k ∈ ks) as He.
  { intros x Hx. apply (prefix_elem _ _ _ Hw) in Hx. by apply list_elem_of_fmap in Hx. }
  split_and!.
  - apply Forall_forall. intros x (k & -> & Hk)%He. cbn. apply content_block. by apply (lr_home _ _ _ _ _ _ H).
  - apply Forall_forall. intros x (k & -> & Hk)%He. cbn. apply content_block. by apply (lr_home _ _ _ _ _ _ H).
  - intros b (x & -> & (k & -> & Hk)%He)%list_elem_of_fmap. done.
Qed.

(** Booting on a disk whose header lists [ks']. *)
Lemma reboot d f ks' :
  disk_ok st sz d -> (exists hb, d !! st = Some hb /\ lists hb ks') -> length f = length d ->
  (length ks' < sz)%nat -> (forall k, k ∈ ks' -> (k < length d)%nat /\ outside st sz k) ->
  (forall t k, ks' !! t = Some k -> d !! (st + 1 + t)%nat = f !! k) ->
  (forall b, outside st sz b -> b ∉ ks' -> d !! b = f !! b) ->
  wp boot (fun _ s' => same_outside st sz (memdisk (bc s')) f) (lst0 me' d).
Proof.
  intros Hok (hb & Hhb & Hl) Hlen Hks Hhome Hlog Hrest.
  eapply wp_mono; [by eapply (boot_spec me' st sz d hb ks')|]. cbn beta. intros [] s' [Hrep _].
  rewrite (br_disk _ _ _ (lr_brep _ _ _ _ _ _ Hrep)). cbn. apply recovered; try done. intros k Hk. by apply Hhome.
Qed.

Lemma crash_before w :
  w `prefix_of` WL ->
  wp boot (fun _ s' => same_outside st sz (memdisk (bc s')) (disk a)) (lst0 me' (apply_writes w (disk a))).
Proof.
  intros Hw. destruct (log_writes_ok w Hw) as [Hsz Hin]. pose proof (dk_in _ _ _ Hd). pose proof (dk_sz _ _ _ Hd).
  pose proof (dk_one _ _ _ Hd). apply (reboot _ _ []).
  - apply crash_disk_ok; [apply length_apply_writes|by apply blocks_ok_apply; [apply Hd|]|left].
    apply apply_writes_other. intros Hb%Hin. lia.
  - destruct (lookup_lt_is_Some_2 (disk a) st) as [x Hx]; [lia|]. exists x.
    rewrite apply_writes_other by (intros Hb%Hin; lia). auto.
  - by rewrite length_apply_writes.
  - cbn. lia.
  - intros k Hk%elem_of_nil. done.
  - done.
  - intros b Hb _. apply apply_writes_other. intros Hbw%Hin. unfold outside in Hb. lia.
Qed.

Lemma crash_after w :
  w `prefix_of` WH ->
  wp boot (fun _ s' => same_outside st sz (memdisk (bc s')) (content a)) (lst0 me' (apply_writes (WL ++ [(st, h)] ++ w) (disk a))).
Proof.
  intros Hw. destruct (log_writes_ok WL) as [HszL HinL]; [done|]. destruct (home_writes_ok w Hw) as (Hag & HszW & HinW).
  pose proof (dk_in _ _ _ Hd). pose proof (dk_sz _ _ _ Hd). pose proof (dk_one _ _ _ Hd). pose proof (lr_room _ _ _ _ _ _ H).
  pose proof (br_size _ _ _ (lr_brep _ _ _ _ _ _ H)) as Hlen. pose proof (lr_home _ _ _ _ _ _ H) as Hhome.
  set (d1 := apply_writes (WL ++ [(st, h)]) (disk a)).
  assert (forall b, apply_writes (WL ++ [(st, h)] ++ w) (disk a) !! b = if decide (b ∈ w.*1) then content a !! b else d1 !! b) as Hlook.
  { intros b. rewrite app_assoc, apply_writes_app. apply apply_writes_agree; [done|]. unfold d1. by rewrite length_apply_writes. }
  assert (forall b, outside st sz b -> d1 !! b = disk a !! b) as Hd1.
  { intros b Hb. unfold d1, outside in *. apply apply_writes_other. rewrite fmap_app. cbn. intros [Hb'%HinL|Hb']%elem_of_app; [lia|set_solver by lia]. }
  assert (forall b, (st <= b < st + sz)%nat -> apply_writes (WL ++ [(st, h)] ++ w) (disk a) !! b = d1 !! b) as Hlog.
  { intros b Hb. rewrite Hlook, decide_False; [done|]. intros Hbw%HinW. destruct (Hhome b Hbw). lia. }
  apply (reboot _ _ ks).
  - apply crash_disk_ok; [apply length_apply_writes| |].
    + apply blocks_ok_apply; [apply Hd|]. rewrite !Forall_app, Forall_singleton. cbn. split; [done|]. split; [apply length_h|done].
    + rewrite Hlook. case_decide; [by right|left]. apply Hd1. unfold outside. lia.
  - exists h. split.
    + rewrite Hlog by lia. unfold d1. rewrite apply_writes_app. cbn. apply list_lookup_insert_eq. rewrite length_apply_writes. lia.
    + apply (head_of_lists st); [apply H|lia|rewrite (lr_len _ _ _ _ _ _ H); lia|apply content_block; lia|].
      intros k Hk. destruct (Hhome k Hk). pose proof (lr_small _ _ _ _ _ _ H). lia.
  - rewrite length_apply_writes. done.
  - lia.
  - rewrite length_apply_writes. done.
  - intros t k Hk. pose proof (lookup_lt_Some _ _ _ Hk). rewrite Hlog by lia. unfold d1. rewrite apply_writes_app, apply_writes_other by (cbn; set_solver by lia).
    unfold WL. rewrite (log_writes_at _ _ _ _ t k) by (try done; lia). symmetry. apply content_block.
    apply Hhome. by eapply list_elem_of_lookup_2.
  - intros b Hb Hbk. rewrite Hlook, decide_False by (intros ?%HinW; done). rewrite Hd1 by done. by apply crash_settled.
Qed.

(** The disk when the commit is complete. *)
Lemma commit_disk b :
  outside st sz b -> apply_writes (commit_writes st (lg s) (content a) ks) (disk a) !! b = content a !! b.
Proof.
  intros Hb. destruct (log_writes_ok WL) as [_ HinL]; [done|]. destruct (home_writes_ok WH) as (Hag & _ & _); [done|].
  pose proof (br_size _ _ _ (lr_brep _ _ _ _ _ _ H)) as Hlen. pose proof (dk_sz _ _ _ Hd). unfold outside in Hb.
  unfold commit_writes. fold h WL WH. rewrite !app_assoc, apply_writes_app, apply_writes_other by (cbn; set_solver by lia).
  rewrite apply_writes_app, (apply_writes_agree _ _ (content a)) by (try done; by rewrite length_apply_writes).
  assert (WH.*1 = ks) as -> by (unfold WH; rewrite <- list_fmap_compose; apply list_fmap_id).
  case_decide as Hk; [done|]. rewrite apply_writes_other.
  - by apply crash_settled.
  - rewrite fmap_app. cbn. intros [Hb'%HinL|Hb']%elem_of_app; [lia|set_solver by lia].
Qed.

Lemma commit_content b :
  outside st sz b -> apply_writes (commit_writes st (lg s) (content a) ks) (content a) !! b = content a !! b.
Proof.
  intros Hb. destruct (log_writes_ok WL) as [_ HinL]; [done|]. destruct (home_writes_ok WH) as (Hag & _ & _); [done|].
  pose proof (dk_sz _ _ _ Hd). unfold outside in Hb.
  unfold commit_writes. fold h WL WH. rewrite !app_assoc, apply_writes_app, apply_writes_other by (cbn; set_solver by lia).
  rewrite apply_writes_app, (apply_writes_agree _ _ (content a)) by (try done; by rewrite length_apply_writes).
  case_decide as Hk; [done|]. rewrite apply_writes_other; [done|].
  rewrite fmap_app. cbn. intros [Hb'%HinL|Hb']%elem_of_app; [lia|set_solver by lia].
Qed.

Lemma commit_head d :
  length d = length (disk a) -> apply_writes (commit_writes st (lg s) (content a) ks) d !! st = Some (put32 0 0 h).
Proof.
  intros Hlen. pose proof (dk_in _ _ _ Hd). pose proof (dk_sz _ _ _ Hd).
  unfold commit_writes. fold h WL WH. rewrite !app_assoc, apply_writes_app. cbn. apply list_lookup_insert_eq.
  rewrite length_apply_writes. lia.
Qed.

Lemma commit_disk_ok : disk_ok st sz (apply_writes (commit_writes st (lg s) (content a) ks) (disk a)).
Proof.
  pose proof (dk_one _ _ _ Hd). apply crash_disk_ok; [apply length_apply_writes| |].
  - apply blocks_ok_apply; [apply Hd|]. unfold commit_writes. fold h WL WH. rewrite !Forall_app, !Forall_singleton. cbn [snd].
    split; [by apply log_writes_ok|]. split; [apply length_h|]. split; [by apply home_writes_ok|].
    rewrite length_put32. apply length_h.
  - right. apply commit_disk. unfold outside. lia.
Qed.

Lemma clear_h : lists (put32 0 0 h) [].
Proof. apply clear_lists. rewrite length_h. unfold BSIZE. lia. Qed.

Lemma crash_done :
  wp boot (fun _ s' => same_outside st sz (memdisk (bc s')) (content a))
    (lst0 me' (apply_writes (commit_writes st (lg s) (content a) ks) (disk a))).
Proof.
  pose proof (dk_in _ _ _ Hd). pose proof (dk_sz _ _ _ Hd). pose proof (dk_one _ _ _ Hd).
  apply (reboot _ _ []).
  - apply commit_disk_ok.
  - exists (put32 0 0 h). split; [by apply commit_head|apply clear_h].
  - rewrite length_apply_writes. apply (br_size _ _ _ (lr_brep _ _ _ _ _ _ H)).
  - cbn. lia.
  - intros k Hk%elem_of_nil. done.
  - done.
  - intros b Hb _. by apply commit_disk.
Qed.

(** The disk writes of [commit], cut anywhere. *)
Lemma crash_cut w :
  w `prefix_of` commit_writes st (lg s) (content a) ks ->
  wp boot (fun _ s' => same_outside st sz (memdisk (bc s'))
    (if decide (length w <= length ks)%nat then disk a else content a)) (lst0 me' (apply_writes w (disk a))).
Proof.
  assert (length WL = length ks) as HL by (unfold WL, log_writes; by rewrite length_imap).
  unfold commit_writes. fold h WL WH. rewrite (app_assoc WL). intros [Hw|(w2 & -> & Hw)]%prefix_app_or.
  - apply prefix_app_or in Hw as [Hw|(w1 & -> & Hw)].
    + rewrite decide_True by (rewrite <- HL; by apply prefix_length). by apply crash_before.
    + destruct w1 as [|x w1].
      * rewrite app_nil_r, decide_True by lia. by apply crash_before.
      * assert (w1 = [] /\ x = (st, h)) as [-> ->].
        { pose proof (prefix_cons_inv_1 _ _ _ _ Hw) as ->. by apply prefix_cons_inv_2, prefix_nil_inv in Hw. }
        rewrite decide_False by (rewrite length_app; cbn; lia). apply (crash_after []). apply prefix_nil.
  - rewrite decide_False by (rewrite !length_app; cbn; lia).
    apply prefix_app_or in Hw as [Hw|(w3 & -> & Hw)].
    + rewrite <- app_assoc. by apply crash_after.
    + destruct w3 as [|x w3].
      * rewrite app_nil_r, <- app_assoc. by apply crash_after.
      * assert (w3 = [] /\ x = (st, put32 0 0 h)) as [-> ->].
        { pose proof (prefix_cons_inv_1 _ _ _ _ Hw) as ->. by apply prefix_cons_inv_2, prefix_nil_inv in Hw. }
        pose proof crash_done as Hcd. unfold commit_writes in Hcd. fold h WL WH in Hcd.
        rewrite <- app_assoc. done.
Qed.
End crash.

(** ** The log between and in transactions *)

Record log_inv (me : Z) (st sz : nat) (s : lst) a ks : Prop := {
  li_rep : logrep me st sz s a ks;
  li_disk : disk_ok st sz (disk a);
  li_sb : exists x, content a !! 1%nat = Some x /\ sb_block st sz x;
  li_clear : forall x, disk a !! st = Some x -> lists x [];
  li_head : content a !! st = disk a !! st;
  li_idle : l_committing (lg s) = 0
}.

Lemma absorb_spec (vs : list Z) ks b i :
  vs = Z.of_nat <$> ks -> Forall (fun k => Z.of_nat k < 2 ^ 31) ks ->
  absorb vs (Z.of_nat b) i = (i + match list_find (.= b) ks with Some (j, _) => j | None => length ks end)%nat.
Proof.
  intros ->. revert i. induction ks as [|k ks IH]; intros i Hk; cbn [fmap list_fmap absorb list_find length]; [lia|].
  apply Forall_cons in Hk as [Hk Hks]. rewrite u32_small by lia. case_decide as E.
  - rewrite E, Z.eqb_refl. lia.
  - destruct (Z.eqb_spec (Z.of_nat k) (Z.of_nat b)); [lia|]. rewrite IH by done.
    destruct (list_find _ _) as [[j y]|]; cbn; lia.
Qed.

Lemma logmem_take st l ks : logmem st l ks -> take (Z.to_nat (l_n l)) (l_block l) = Z.of_nat <$> ks.
Proof.
  intros Hm. rewrite (lm_n _ _ _ Hm), Nat2Z.id. apply list_eq. intros i. rewrite list_lookup_fmap.
  destruct (ks !! i) as [k|] eqn:Hk.
  - rewrite lookup_take_lt by (by eapply lookup_lt_Some). by rewrite (lm_blk _ _ _ Hm i k Hk).
  - apply lookup_ge_None in Hk. by rewrite lookup_take_ge.
Qed.

Definition logged (b : nat) ks : list nat := if decide (b ∈ ks) then ks else ks ++ [b].

Definition log_index (b : nat) ks : nat :=
  match list_find (.= b) ks with Some (j, _) => j | None => length ks end.

Lemma log_index_spec b ks :
  (b ∈ ks -> ks !! log_index b ks = Some b) /\ (b ∉ ks -> log_index b ks = length ks).
Proof.
  unfold log_index. destruct (list_find (.= b) ks) as [[j k]|] eqn:Ef.
  - apply list_find_Some in Ef as (Hk & -> & _). split; [done|]. intros []. by eapply list_elem_of_lookup_2.
  - apply list_find_None in Ef. split; [|done]. intros Hbk. rewrite Forall_forall in Ef. by destruct (Ef b Hbk).
Qed.

(** The slot [log_write] fills, and the count after it. *)
Lemma logmem_logged st l ks b :
  logmem st l ks -> (length ks < length (l_block l))%nat ->
  logmem st (set_l_n (Z.of_nat (length (logged b ks))) (set_l_block (<[log_index b ks := Z.of_nat b]> (l_block l)) l)) (logged b ks).
Proof.
  intros Hm Hlen. destruct (log_index_spec b ks) as [H1 H2]. constructor; [apply Hm|apply Hm|done|].
  intros i k. cbn. unfold logged. case_decide as Hb.
  - intros Hk. specialize (H1 Hb). destruct (decide (i = log_index b ks)) as [->|Hne].
    + pose proof (lookup_lt_Some _ _ _ H1). rewrite list_lookup_insert_eq by lia. congruence.
    + rewrite list_lookup_insert_ne by done. by apply Hm.
  - rewrite (H2 Hb). intros [Hk|[Hi Hk]]%lookup_app_Some.
    + pose proof (lookup_lt_Some _ _ _ Hk). rewrite list_lookup_insert_ne by lia. by apply Hm.
    + apply list_lookup_singleton_Some in Hk as [Hi' <-]. replace i with (length ks) by lia. by apply list_lookup_insert_eq.
Qed.

Lemma logged_elem b ks k : k ∈ logged b ks <-> k ∈ ks \/ k = b.
Proof. unfold logged. case_decide; set_solver. Qed.

Lemma logrep_logged me st sz s a ks b bs :
  logrep me st sz s a ks -> outside st sz b -> (b < length (disk a))%nat -> (S (length ks) < sz)%nat ->
  brep me bs (sp_dirty b a) ->
  logrep me st sz (mklst bs (set_l_n (Z.of_nat (length (logged b ks)))
    (set_l_block (<[log_index b ks := Z.of_nat b]> (l_block (lg s))) (lg s)))) (sp_dirty b a) (logged b ks).
Proof.
  intros [Hr Hm Hlsz Hlen Hnd Hhome Hdty Hrm Hin Hsm] Hb Hlt Hroom Hr'. constructor; try done; cbn [bc lg].
  - apply logmem_logged; [done|lia].
  - cbn [l_block set_l_n set_l_block]. by rewrite length_insert.
  - unfold logged. case_decide; [done|]. apply NoDup_app. split; [done|]. split; [set_solver|apply NoDup_singleton].
  - intros k [Hk| ->]%logged_elem; [by apply Hhome|]. done.
  - cbn [dirty sp_dirty]. rewrite Hdty. apply set_eq. intros k. rewrite elem_of_union, !elem_of_list_to_set, logged_elem. set_solver.
  - unfold logged. case_decide; [lia|]. rewrite length_app. cbn [length]. lia.
Qed.

Lemma log_write_spec me st sz s a ks i b :
  log_inv me st sz s a ks -> held a !! i = Some b -> outside st sz b ->
  (S (length ks) < sz)%nat -> 1 <= l_outstanding (lg s) ->
  wp (log_write i) (fun _ s' => log_inv me st sz s' (sp_dirty b a) (logged b ks) /\
    l_outstanding (lg s') = l_outstanding (lg s)) s.
Proof.
  intros [H Hdk Hsb Hcl Hhd Hid] Hi Hb Hroom Hout. pose proof H as [Hr Hm Hlsz Hlen Hnd Hhome Hdty Hrm Hin Hsm].
  destruct (brep_held _ _ _ _ _ Hr Hi) as (x & Hx & Hxd & Hxb & _). pose proof (brep_held_lt _ _ _ _ _ Hr Hi) as Hlt.
  pose proof (lm_n _ _ _ Hm) as Hn. unfold log_write. rewrite wp_bind, wp_gets, Hn, Hlsz, i32_small by lia.
  destruct (_ || _) eqn:E1; [exfalso; apply orb_true_iff in E1 as [?|?]; zb; lia|].
  destruct (l_outstanding (lg s) <? 1) eqn:E2; zb; [lia|]. rewrite wp_bind, wp_bio, wp_get_buf. exists x. split; [done|].
  rewrite <- Hn, (logmem_take _ _ _ Hm), Hxb, i32_small by lia.
  rewrite (absorb_spec _ ks) by (try done; apply Forall_forall; intros k Hk; destruct (Hhome k Hk); lia).
  fold (log_index b ks). rewrite Nat.add_0_l. destruct (log_index_spec b ks) as [Hj1 Hj2].
  assert (log_index b ks <= length ks)%nat as Hj.
  { destruct (decide (b ∈ ks)) as [Hbk|Hbk]; [specialize (Hj1 Hbk); apply lookup_lt_Some in Hj1; lia|by rewrite Hj2]. }
  destruct (lookup_lt_is_Some_2 (l_block (lg s)) (log_index b ks)) as [v Hv]; [lia|].
  unfold set_blockof, upd. rewrite !wp_bind. eapply wp_blockof; [exact Hv|]. rewrite wp_modify, wp_bind. cbn [bc lg].
  eapply (wp_mono _ (fun _ s' => s' = mklst (bc s) (set_l_n (Z.of_nat (length (logged b ks)))
    (set_l_block (<[log_index b ks := Z.of_nat b]> (l_block (lg s))) (lg s))))).
  - unfold logged. case_decide as Hbk.
    + specialize (Hj1 Hbk). apply lookup_lt_Some in Hj1. destruct (Z.eqb_spec (Z.of_nat (log_index b ks)) (l_n (lg s))); [lia|].
      cbn [when]. rewrite wp_ret. rewrite <- Hn. by destruct (lg s).
    + rewrite (Hj2 Hbk), Hn, Z.eqb_refl. cbn [when]. rewrite wp_modify. cbn [bc lg l_n set_l_block].
      rewrite Hn, i32_small, length_app by (unfold LOGSIZE, MAXOPBLOCKS in *; lia). cbn [length]. repeat f_equal. lia.
  - intros [] s' ->. rewrite wp_bio. eapply wp_mono; [by apply (mark_dirty_spec me (bc s) a i b)|].
    cbn beta. intros [] bs Hr'. split; [|done]. constructor; [|done..]. by apply logrep_logged.
Qed.

Lemma logrep_log me st sz s a ks l :
  logrep me st sz s a ks -> l_dev l = l_dev (lg s) -> l_start l = l_start (lg s) -> l_size l = l_size (lg s) ->
  l_n l = l_n (lg s) -> l_block l = l_block (lg s) -> logrep me st sz (mklst (bc s) l) a ks.
Proof.
  intros [Hr [Hm1 Hm2 Hm3 Hm4] Hlsz Hlen Hnd Hhome Hdty Hrm Hin Hsm] H1 H2 H3 H4 H5.
  constructor; try done; cbn [lg]; rewrite ?H1, ?H2, ?H3, ?H4, ?H5; try done.
  constructor; rewrite ?H1, ?H2, ?H3, ?H4, ?H5; done.
Qed.

Lemma begin_op_spec me st sz s a :
  log_inv me st sz s a [] -> l_outstanding (lg s) = 0 ->
  wp begin_op (fun _ s' => log_inv me st sz s' a [] /\ l_outstanding (lg s') = 1) s.
Proof.
  intros [H Hdk Hsb Hcl Hhd Hid] Ho. unfold begin_op, begin_op_try, upd. wp_steps.
  rewrite Hid, Ho, (lm_n _ _ _ (lr_mem _ _ _ _ _ _ H)). cbn [Z.eqb negb length Z.of_nat].
  change (i32 (Z.of_nat 0 + (0 + 1) * Z.of_nat MAXOPBLOCKS) >? Z.of_nat LOGSIZE) with false. cbn iota. wp_steps.
  split; [|cbn; by rewrite Ho]. constructor; try done. by apply logrep_log.
Qed.

(** The writes of [end_op] when it commits. *)
Lemma end_op_spec me st sz s a ks :
  log_inv me st sz s a ks -> held a = ∅ -> l_outstanding (lg s) = 1 ->
  let W := if decide (ks = []) then [] else commit_writes st (lg s) (content a) ks in
  wp end_op (fun _ s' => log_inv me st sz s' (after W ∅ a) [] /\ l_outstanding (lg s') = 0) s.
Proof.
  intros [H Hdk Hsb Hcl Hhd Hid] Hh Ho W. pose proof H as [Hr Hm Hlsz Hlen Hnd Hhome Hdty Hrm Hin Hsm].
  unfold end_op, upd. wp_steps. cbn [lg bc]. rewrite Ho. change (i32 (1 - 1)) with 0. cbn [l_committing set_l_outstanding l_outstanding].
  rewrite Hid. cbn [negb Z.eqb]. wp_steps. cbn [lg bc].
  set (l1 := set_l_committing 1 _). assert (logrep me st sz (mklst (bc s) l1) a ks) as H1 by (by apply logrep_log).
  eapply wp_mono; [by eapply (commit_spec me st sz _ a ks H1)|]. cbn beta. cbn [lg].
  change (commit_writes st l1 (content a) ks) with (commit_writes st (lg s) (content a) ks). fold W.
  intros [] s1 [Hl1 Hr1]. wp_steps. split; [|cbn; by rewrite Hl1]. constructor.
  - apply (logrep_log _ _ _ (mklst (bc s1) (lg s1))); try (by rewrite Hl1). rewrite Hl1.
    constructor; try done; cbn [lg l_n l_block set_l_n].
    + constructor; [apply Hm|apply Hm|done|]. done.
    + by apply NoDup_nil.
    + intros k Hk%elem_of_nil. done.
    + cbn [length]. lia.
    + cbn. by rewrite length_apply_writes.
    + cbn. by rewrite length_apply_writes.
  - unfold W. case_decide; [done|]. by eapply commit_disk_ok.
  - pose proof Hsb as (x & Hx & Hxs). exists x. split; [|done]. unfold W. case_decide; [done|]. cbn.
    rewrite (commit_content me st sz s a ks); try done. unfold outside. pose proof (dk_one _ _ _ Hdk). lia.
  - unfold W. case_decide; [done|]. cbn. intros x. rewrite (commit_head st sz) by done. intros [= <-]. by eapply clear_h.
  - unfold W. case_decide; [done|]. cbn. rewrite !(commit_head st sz); try done. apply (br_size _ _ _ Hr).
  - done.
Qed.

(** Booting from a disk whose log is empty changes nothing. *)
Lemma boot_clean me st sz d hb :
  disk_ok st sz d -> d !! st = Some hb -> lists hb [] -> put32 0 0 hb = hb ->
  wp boot (fun _ s => log_inv me st sz s (mkbspec d d ∅ ∅ [(st, hb)]) [] /\ l_outstanding (lg s) = 0) (lst0 me d).
Proof.
  intros Hd Hh Hl Hp. eapply wp_mono; [eapply (boot_spec me st sz d hb []); [done|done|done|cbn; apply Hd|]|].
  { intros k Hk%elem_of_nil. done. }
  cbn beta. intros [] s (H & Ho & Hc). split; [|done].
  assert (after (recover_writes st d []) ∅ (bspec0 d) = mkbspec d d ∅ ∅ [(st, hb)]) as He.
  { unfold recover_writes. rewrite (list_lookup_total_correct _ _ _ Hh), Hp. unfold after, bspec0. cbn. by rewrite list_insert_id. }
  rewrite He in H. constructor; [exact H|done|apply Hd| |done|exact Hc].
  cbn. intros x Hx. by assert (x = hb) as -> by congruence.
Qed.

(** ** A transaction of one block, for the witnesses *)

Definition demo_sb : list Z := put32 16 2 (put32 12 30 (replicate BSIZE 0)).
Definition demo_disk : list (list Z) := <[1%nat := demo_sb]> (replicate 40 (replicate BSIZE 0)).
Definition demo_block : list Z := replicate BSIZE 7.

Lemma demo_disk_ok : disk_ok 2 30 demo_disk.
Proof.
  assert (length demo_disk = 40%nat) as Hlen by reflexivity.
  constructor; rewrite ?Hlen; try (unfold LOGSIZE, MAXOPBLOCKS; lia).
  - apply Forall_insert; [|reflexivity]. apply Forall_replicate. reflexivity.
  - exists demo_sb. split; [reflexivity|]. split; reflexivity.
Qed.

Lemma demo_boot : wp boot (fun _ s => exists a, log_inv 1 2 30 s a [] /\ held a = ∅ /\ l_outstanding (lg s) = 0 /\
  length (disk a) = 40%nat) (lst0 1 demo_disk).
Proof.
  eapply wp_mono; [apply (boot_clean 1 2 30 demo_disk (replicate BSIZE 0)); [apply demo_disk_ok|reflexivity|split; reflexivity|reflexivity]|].
  cbn beta. intros [] s [H Ho]. eexists. split_and!; [exact H|reflexivity|exact Ho|reflexivity].
Qed.

(** Storing into a held block keeps the log as it is. *)
Lemma log_inv_store me st sz s a ks i b x :
  log_inv me st sz s a ks -> held a !! i = Some b -> length x = BSIZE -> b <> 1%nat -> outside st sz b ->
  wp (bio (set_bdata i x)) (fun _ s' => log_inv me st sz s' (sp_store b x a) ks /\ lg s' = lg s) s.
Proof.
  intros [H Hdk Hsb Hcl Hhd Hid] Hi Hx Hb1 Hb. rewrite wp_bio. pose proof (dk_sz _ _ _ Hdk). unfold outside in Hb.
  eapply wp_mono; [apply (set_bdata_spec me (bc s) a i b x); [apply H|done|done]|]. cbn beta. intros [] bs Hr. split; [|done].
  destruct H as [_ Hm Hlsz Hlen Hnd Hhome Hdty Hrm Hin Hsm]. constructor; try done.
  - cbn. by rewrite list_lookup_insert_ne.
  - cbn. rewrite list_lookup_insert_ne by lia. done.
Qed.

Lemma log_inv_brep me st sz s a a' ks bs :
  log_inv me st sz s a ks -> brep me bs a' -> content a' = content a -> disk a' = disk a -> dirty a' = dirty a ->
  log_inv me st sz (mklst bs (lg s)) a' ks.
Proof.
  intros [[_ Hm Hlsz Hlen Hnd Hhome Hdty Hrm Hin Hsm] Hdk Hsb Hcl Hhd Hid] Hr Hc Hd Hdt.
  constructor; rewrite ?Hc, ?Hd; try done. constructor; rewrite ?Hc, ?Hd, ?Hdt; done.
Qed.

Definition demo_txn : M lst unit :=
  do! boot;
  do! begin_op;
  let! b := bio (bread 1 35) in
  do! bio (set_bdata b demo_block);
  do! log_write b;
  bio (brelse b).

Lemma demo_txn_spec :
  wp demo_txn (fun _ s => exists a, log_inv 1 2 30 s a [35%nat] /\ held a = ∅ /\ l_outstanding (lg s) = 1) (lst0 1 demo_disk).
Proof.
  unfold demo_txn. rewrite wp_bind. eapply wp_mono; [apply demo_boot|]. cbn beta. intros [] s (a & Hi & Hh & Ho & Hlen).
  rewrite wp_bind. eapply wp_mono; [by eapply (begin_op_spec 1 2 30 s a)|]. cbn beta. intros [] s1 [Hi1 Ho1].
  assert (dirty a = ∅) as Hd by apply (lr_dirty _ _ _ _ _ _ (li_rep _ _ _ _ _ _ Hi1)).
  assert (outside 2 30 35) as Hout by (unfold outside; lia).
  rewrite wp_bind, wp_bio. apply (bread_first 1 (bc s1) a 35); try done.
  { apply Hi1. }
  { lia. }
  { rewrite Hd, size_empty. unfold NBUF. lia. }
  intros i b Hr2. pose proof (log_inv_brep _ _ _ _ _ _ _ _ Hi1 Hr2 eq_refl eq_refl eq_refl) as Hi2.
  rewrite wp_bind. eapply wp_mono; [apply (log_inv_store 1 2 30 _ _ [] i 35 demo_block Hi2); [cbn; by rewrite lookup_insert_eq|done..]|].
  cbn beta. intros [] s3 [Hi3 Hl3].
  rewrite wp_bind. eapply wp_mono; [apply (log_write_spec 1 2 30 s3 _ [] i 35 Hi3); [cbn; by rewrite lookup_insert_eq|done|cbn; lia|rewrite Hl3; cbn; lia]|].
  cbn beta. intros [] s4 [Hi4 Ho4]. rewrite wp_bio.
  eapply wp_mono; [apply (brelse_spec 1 _ _ i 35 (lr_brep _ _ _ _ _ _ (li_rep _ _ _ _ _ _ Hi4)))|].
  { cbn. by rewrite lookup_insert_eq. }
  { left. cbn. set_solver. }
  cbn beta. intros [] b5 Hr5. eexists. split_and!; [exact (log_inv_brep _ _ _ _ _ _ _ _ Hi4 Hr5 eq_refl eq_refl eq_refl)| |].
  - cbn. rewrite Hh, delete_insert_id; done.
  - cbn. rewrite Ho4, Hl3. done.
Qed.

Lemma demo_state : exists s a, log_inv 1 2 30 s a [35%nat] /\ held a = ∅ /\ l_outstanding (lg s) = 1.
Proof.
  pose proof (proj1 (wp_Ok demo_txn _ (lst0 1 demo_disk)) demo_txn_spec) as Hx. generalize dependent (lst0 1 demo_disk).
  intros s0 (r & s & _ & Ha). by exists s.
Qed.

(** ** Theorems *)

(** C2: A transaction is atomic.  [end_op] of the last system call outstanding writes
    some blocks [W] to the disk and leaves there the contents the cache showed.  If the
    machine stops after any prefix [w] of those writes and boots again, [initlog] puts the
    disk, outside the log itself, in the state before the transaction when the header
    block was not written yet, and in the state after it otherwise. *)
Theorem log_crash_atomic me me' st sz s a ks :
  log_inv me st sz s a ks -> held a = ∅ -> l_outstanding (lg s) = 1 ->
  exists W,
    wp end_op (fun _ s' => writes (bc s') = writes (bc s) ++ W /\
      same_outside st sz (memdisk (bc s')) (content a)) s /\
    forall w, w `prefix_of` W ->
      wp boot (fun _ s' => same_outside st sz (memdisk (bc s'))
          (if decide (length w <= length ks)%nat then memdisk (bc s) else content a))
        (lst0 me' (apply_writes w (memdisk (bc s)))).
Proof.
  intros Hi Hh Ho. pose proof Hi as [H Hdk Hsb Hcl Hhd Hid]. pose proof (lr_brep _ _ _ _ _ _ H) as Hr.
  rewrite (br_disk _ _ _ Hr), (br_hist _ _ _ Hr).
  exists (if decide (ks = []) then [] else commit_writes st (lg s) (content a) ks). split.
  - eapply wp_mono; [by apply (end_op_spec me st sz s a ks)|]. cbn beta. intros [] s' [Hi' _].
    pose proof (lr_brep _ _ _ _ _ _ (li_rep _ _ _ _ _ _ Hi')) as Hr'. rewrite (br_hist _ _ _ Hr'), (br_disk _ _ _ Hr').
    split; [done|]. intros b Hb. case_decide as Hks; cbn.
    + eapply (crash_settled me st sz s a ks); try done. rewrite Hks. apply not_elem_of_nil.
    + by eapply commit_disk.
  - intros w Hw. case_decide as Hks.
    + apply prefix_nil_inv in Hw as ->. rewrite decide_True by (cbn; lia).
      by eapply (crash_before me me' st sz s a ks); [..|apply prefix_nil].
    + by eapply crash_cut.
Qed.

Lemma log_crash_atomic_witness :
  exists s a W, log_inv 1 2 30 s a [35%nat] /\
    wp end_op (fun _ s' => writes (bc s') = writes (bc s) ++ W /\
      same_outside 2 30 (memdisk (bc s')) (content a)) s /\
    forall w, w `prefix_of` W ->
      wp boot (fun _ s' => same_outside 2 30 (memdisk (bc s'))
          (if decide (length w <= 1)%nat then memdisk (bc s) else content a))
        (lst0 1 (apply_writes w (memdisk (bc s)))).
Proof.
  destruct demo_state as (s & a & Hi & Hh & Ho).
  destruct (log_crash_atomic 1 1 2 30 s a [35%nat] Hi Hh Ho) as [W HW]. exists s, a, W. exact (conj Hi HW).
Defined.

Section restart.
Context (me' : Z) (st sz : nat) (d : list (list Z)) (hb : list Z) (ks : list nat).
Hypothesis (Hd : disk_ok st sz d) (Hhb : d !! st = Some hb) (Hl : lists hb ks) (Hnd : NoDup ks).
Hypothesis (Hlen : (length ks < sz)%nat) (Hks : forall k, k ∈ ks -> (1 < k < length d)%nat /\ outside st sz k).

Lemma restart_log_block t k :
  ks !! t = Some k -> exists x, d !! (st + 1 + t)%nat = Some x /\ d !!! (st + 1 + t)%nat = x /\ length x = BSIZE.
Proof.
  intros Hk%lookup_lt_Some. pose proof (dk_in _ _ _ Hd). destruct (lookup_lt_is_Some_2 d (st + 1 + t)) as [x Hx]; [lia|].
  exists x. split; [done|]. split; [by apply list_lookup_total_correct|].
  exact (Forall_lookup_1 _ _ _ _ (dk_blocks _ _ _ Hd) Hx).
Qed.

Lemma restart_sizes w : w `prefix_of` recover_writes st d ks -> Forall (fun x => length x.2 = BSIZE) w.
Proof.
  intros Hw. apply Forall_forall. intros x Hx%(prefix_elem _ _ _ Hw). unfold recover_writes in Hx.
  apply elem_of_app in Hx as [Hx|Hx].
  - apply list_elem_of_lookup in Hx as [t Ht]. unfold home_writes in Ht. rewrite list_lookup_imap in Ht.
    destruct (ks !! t) as [k|] eqn:Hk; [|done]. injection Ht as <-. cbn. by destruct (restart_log_block t k Hk) as (y & _ & -> & ?).
  - apply list_elem_of_singleton in Hx as ->. cbn [snd]. rewrite length_put32, (list_lookup_total_correct _ _ _ Hhb).
    exact (Forall_lookup_1 _ _ _ _ (dk_blocks _ _ _ Hd) Hhb).
Qed.

Lemma restart_home t k : ks !! t = Some k -> d !! (st + 1 + t)%nat = apply_writes (recover_writes st d ks) d !! k.
Proof.
  intros Hk. destruct (restart_log_block t k Hk) as (x & Hx & Hxt & _). rewrite Hx. symmetry.
  pose proof (list_elem_of_lookup_2 _ _ _ Hk) as Hin. pose proof (dk_sz _ _ _ Hd). apply apply_writes_in.
  - unfold recover_writes. rewrite fmap_app, home_writes_keys. apply NoDup_app. split; [done|]. split; [|apply NoDup_singleton].
    intros b Hb ->%list_elem_of_singleton. destruct (Hks _ Hb) as [_ Ho]. unfold outside in Ho. cbn in Ho. lia.
  - unfold recover_writes, home_writes. apply elem_of_app. left. apply list_elem_of_lookup. exists t.
    by rewrite list_lookup_imap, Hk, <- Hxt.
  - by apply Hks.
Qed.

Lemma restart_other b : outside st sz b -> b ∉ ks -> apply_writes (recover_writes st d ks) d !! b = d !! b.
Proof.
  intros Hb Hk. pose proof (dk_sz _ _ _ Hd). unfold outside in Hb. apply apply_writes_other. unfold recover_writes.
  rewrite fmap_app, home_writes_keys. cbn. intros [?|?]%elem_of_app; [done|set_solver by lia].
Qed.

Lemma restart_disk_ok w : w `prefix_of` recover_writes st d ks -> disk_ok st sz (apply_writes w d).
Proof.
  intros Hw. pose proof Hd as [Hb Hsb Hsz Hin Hone Hsm]. constructor; rewrite ?length_apply_writes; try done.
  - apply blocks_ok_apply; [done|]. by apply restart_sizes.
  - destruct Hsb as (x & Hx & Hs). exists x. split; [|done]. rewrite apply_writes_other; [done|].
    intros Hin1. assert (1%nat ∈ (recover_writes st d ks).*1) as H1.
    { apply list_elem_of_fmap in Hin1 as (y & He & Hy). rewrite He. apply list_elem_of_fmap_2. by eapply prefix_elem. }
    unfold recover_writes in H1. rewrite fmap_app, home_writes_keys in H1. cbn in H1.
    apply elem_of_app in H1 as [H1|H1%list_elem_of_singleton]; [destruct (Hks _ H1); lia|lia].
Qed.

Lemma restart_partial w :
  w `prefix_of` home_writes st d ks ->
  wp boot (fun _ s => same_outside st sz (memdisk (bc s)) (apply_writes (recover_writes st d ks) d)) (lst0 me' (apply_writes w d)).
Proof.
  intros Hw. pose proof (dk_sz _ _ _ Hd). pose proof (dk_in _ _ _ Hd).
  assert (forall b, b ∈ w.*1 -> b ∈ ks) as Hin.
  { intros b (x & -> & Hx)%list_elem_of_fmap. rewrite <- (home_writes_keys st d ks). apply list_elem_of_fmap_2. by eapply prefix_elem. }
  assert (forall b, (st <= b < st + sz)%nat -> apply_writes w d !! b = d !! b) as Hlog.
  { intros b Hb. apply apply_writes_other. intros [_ Ho]%Hin%Hks. unfold outside in Ho. lia. }
  apply (reboot me' st sz _ _ ks).
  - apply restart_disk_ok. unfold recover_writes. by apply prefix_app_r.
  - exists hb. rewrite Hlog by lia. done.
  - by rewrite !length_apply_writes.
  - done.
  - intros k Hk. rewrite length_apply_writes. destruct (Hks k Hk). split; [lia|done].
  - intros t k Hk. pose proof (lookup_lt_Some _ _ _ Hk). rewrite Hlog by lia. by apply restart_home.
  - intros b Hb Hbk. rewrite restart_other by done. apply apply_writes_other. by intros ?%Hin.
Qed.

Lemma restart_full :
  wp boot (fun _ s => same_outside st sz (memdisk (bc s)) (apply_writes (recover_writes st d ks) d))
    (lst0 me' (apply_writes (recover_writes st d ks) d)).
Proof.
  pose proof (dk_sz _ _ _ Hd). pose proof (dk_in _ _ _ Hd). apply (reboot me' st sz _ _ []).
  - by apply restart_disk_ok.
  - exists (put32 0 0 hb). split.
    + unfold recover_writes. rewrite apply_writes_app, (list_lookup_total_correct _ _ _ Hhb). cbn.
      apply list_lookup_insert_eq. rewrite length_apply_writes. lia.
    + apply clear_lists. rewrite (Forall_lookup_1 _ _ _ _ (dk_blocks _ _ _ Hd) Hhb). unfold BSIZE. lia.
  - done.
  - cbn. lia.
  - intros k Hk%elem_of_nil. done.
  - done.
  - done.
Qed.

Lemma restart_cut w :
  w `prefix_of` recover_writes st d ks ->
  wp boot (fun _ s => same_outside st sz (memdisk (bc s)) (apply_writes (recover_writes st d ks) d)) (lst0 me' (apply_writes w d)).
Proof.
  intros Hw. pose proof Hw as Hw0. unfold recover_writes in Hw. apply prefix_app_or in Hw as [Hw|(w2 & -> & Hw2)].
  - by apply restart_partial.
  - destruct w2 as [|x w2]; [rewrite app_nil_r; by apply restart_partial|].
    pose proof (prefix_cons_inv_1 _ _ _ _ Hw2) as ->. apply prefix_cons_inv_2, prefix_nil_inv in Hw2 as ->.
    apply restart_full.
Qed.
End restart.

(** C17: Recovery may itself be cut short.  On a disk whose log header lists blocks, booting
    writes some blocks [W]; if the machine stops after any prefix of them and boots once
    more, the disk outside the log ends in the same state as when the first recovery had
    run to its end. *)
Theorem recovery_restartable me me' st sz d hb ks :
  disk_ok st sz d -> d !! st = Some hb -> lists hb ks -> NoDup ks -> (length ks < sz)%nat ->
  (forall k, k ∈ ks -> (1 < k < length d)%nat /\ outside st sz k) ->
  exists W,
    wp boot (fun _ s => writes (bc s) = W /\ memdisk (bc s) = apply_writes W d) (lst0 me d) /\
    forall w, w `prefix_of` W ->
      wp boot (fun _ s => same_outside st sz (memdisk (bc s)) (apply_writes W d)) (lst0 me' (apply_writes w d)).
Proof.
  intros Hd Hhb Hl Hnd Hlen Hks. exists (recover_writes st d ks). split.
  - eapply wp_mono; [apply (boot_spec me st sz d hb ks); try done|].
    + intros k Hk. destruct (Hks k Hk) as [? ?]. split; [lia|done].
    + cbn beta. intros [] s [H _]. pose proof (lr_brep _ _ _ _ _ _ H) as Hr.
      by rewrite (br_hist _ _ _ Hr), (br_disk _ _ _ Hr).
  - intros w Hw. by eapply restart_cut.
Qed.

(** A disk on which a transaction of one block had committed: the header lists block 35
    and its log block holds the new contents. *)
Definition demo_crashed : list (list Z) :=
  <[3%nat := demo_block]> (<[2%nat := put32 4 35 (put32 0 1 (replicate BSIZE 0))]> demo_disk).

Lemma demo_crashed_ok : disk_ok 2 30 demo_crashed.
Proof.
  assert (length demo_crashed = 40%nat) as Hlen by reflexivity.
  constructor; rewrite ?Hlen; try (unfold LOGSIZE, MAXOPBLOCKS; lia).
  - apply Forall_insert; [|reflexivity]. apply Forall_insert; [apply demo_disk_ok|reflexivity].
  - exists demo_sb. split; [reflexivity|]. split; reflexivity.
Qed.

Lemma recovery_restartable_witness :
  exists W,
    wp boot (fun _ s => writes (bc s) = W /\ memdisk (bc s) = apply_writes W demo_crashed) (lst0 1 demo_crashed) /\
    forall w, w `prefix_of` W ->
      wp boot (fun _ s => same_outside 2 30 (memdisk (bc s)) (apply_writes W demo_crashed)) (lst0 1 (apply_writes w demo_crashed)).
Proof.
  apply (recovery_restartable 1 1 2 30 demo_crashed (put32 4 35 (put32 0 1 (replicate BSIZE 0))) [35%nat]).
  - apply demo_crashed_ok.
  - reflexivity.
  - split; reflexivity.
  - apply NoDup_singleton.
  - cbn. lia.
  - intros k ->%list_elem_of_singleton. assert (length demo_crashed = 40%nat) as -> by reflexivity.
    unfold outside. lia.
Defined.
