(* ===== verification/Fs.v ===== *)
(** The file system ([fs.c]): block allocator, inodes, directories and path names.

    [fsst] is the log and the cache below, the inode cache, the superblock, the
    current directory of the calling process and the state of the devices.  The
    entry of [devsw] for a major number is an operation of the class [DevOps].
    Buffers the code fills or reads through a pointer are byte lists: [readi] returns
    the bytes it would store at [dst], [writei] takes those at [src].  A sleep lock
    found locked is held by the calling process itself and the wait would never end:
    [NoFuel], as in [Bio.v].  The fuel of each loop is a bound on its number of turns,
    computed from the sizes it runs over. *)

From S2P Require Import Prelude CString Mem Bio Log.
Import Bio Log.

Module Fs.

Definition NINODE : nat := 50.
Definition NDEV : Z := 10.
Definition ROOTDEV : Z := 1.
Definition ROOTINO : Z := 1.
Definition NDIRECT : nat := 12.
Definition NINDIRECT : nat := BSIZE / 4.
Definition MAXFILE : nat := NDIRECT + NINDIRECT.
Definition T_DIR : Z := 1.
Definition T_FILE : Z := 2.
Definition T_DEV : Z := 3.
Definition DINODE : nat := 64.
Definition IPB : Z := Z.of_nat BSIZE / 64.
Definition IBLOCK (i : Z) (sb : superblock) : Z := u32 (i / IPB + sb_inodestart sb).
Definition BPB : Z := Z.of_nat BSIZE * 8.
Definition BBLOCK (b : Z) (sb : superblock) : Z := u32 (b / BPB + sb_bmapstart sb).
Definition DIRSIZ : nat := 14.
Definition DIRENT : nat := 16.

(** [struct inode]; [i_locked] and [i_pid] are its sleep lock. *)
Record inode : Type := mkinode {
  i_dev : Z;
  i_inum : Z;
  i_ref : Z;
  i_locked : Z;
  i_pid : Z;
  i_valid : Z;
  i_type : Z;
  i_major : Z;
  i_minor : Z;
  i_nlink : Z;
  i_size : Z;
  i_addrs : list Z
}.
Definition inode0 : inode := mkinode 0 0 0 0 0 0 0 0 0 0 0 (replicate (S NDIRECT) 0).
Definition set_i_id dev inum ref valid i := mkinode dev inum ref (i_locked i) (i_pid i) valid (i_type i) (i_major i) (i_minor i) (i_nlink i) (i_size i) (i_addrs i).
Definition set_i_ref v i := mkinode (i_dev i) (i_inum i) v (i_locked i) (i_pid i) (i_valid i) (i_type i) (i_major i) (i_minor i) (i_nlink i) (i_size i) (i_addrs i).
Definition set_i_lock l p i := mkinode (i_dev i) (i_inum i) (i_ref i) l p (i_valid i) (i_type i) (i_major i) (i_minor i) (i_nlink i) (i_size i) (i_addrs i).
Definition set_i_valid v i := mkinode (i_dev i) (i_inum i) (i_ref i) (i_locked i) (i_pid i) v (i_type i) (i_major i) (i_minor i) (i_nlink i) (i_size i) (i_addrs i).
Definition set_i_type v i := mkinode (i_dev i) (i_inum i) (i_ref i) (i_locked i) (i_pid i) (i_valid i) v (i_major i) (i_minor i) (i_nlink i) (i_size i) (i_addrs i).
Definition set_i_dn t ma mi nl sz ad i := mkinode (i_dev i) (i_inum i) (i_ref i) (i_locked i) (i_pid i) (i_valid i) t ma mi nl sz ad.
Definition set_i_nlink v i := mkinode (i_dev i) (i_inum i) (i_ref i) (i_locked i) (i_pid i) (i_valid i) (i_type i) (i_major i) (i_minor i) v (i_size i) (i_addrs i).
Definition set_i_size v i := mkinode (i_dev i) (i_inum i) (i_ref i) (i_locked i) (i_pid i) (i_valid i) (i_type i) (i_major i) (i_minor i) (i_nlink i) v (i_addrs i).
Definition set_i_addrs v i := mkinode (i_dev i) (i_inum i) (i_ref i) (i_locked i) (i_pid i) (i_valid i) (i_type i) (i_major i) (i_minor i) (i_nlink i) (i_size i) v.

Record stat : Type := mkstat { st_type : Z; st_dev : Z; st_ino : Z; st_nlink : Z; st_size : Z }.

Record fsst (D : Type) : Type := mkfsst {
  fl : lst;
  icache : list inode;
  fsb : superblock;
  fcwd : nat;
  fdev : D
}.
Arguments mkfsst {D} fl icache fsb fcwd fdev.
Arguments fl {D} f.
Arguments icache {D} f.
Arguments fsb {D} f.
Arguments fcwd {D} f.
Arguments fdev {D} f.

(** [devsw[major].read] and [devsw[major].write], for the majors that have them. *)
Class DevOps (D : Type) : Type := {
  devsw_read : Z -> option (nat -> Z -> M (fsst D) (Z * list Z));
  devsw_write : Z -> option (nat -> list Z -> Z -> M (fsst D) Z)
}.

Section fs.
Context {D : Type}.
Abbreviation F := (M (fsst D)).

Definition on_log {A} (m : M lst A) : F A :=
  zoom fl (fun l s => mkfsst l (icache s) (fsb s) (fcwd s) (fdev s)) m.
Definition on_bio {A} (m : M bst A) : F A := on_log (bio m).
Definition get_ip (ip : nat) : F inode := let! s := get in deref (icache s !! ip).
Definition set_ip (ip : nat) (f : inode -> inode) : F unit :=
  do! get_ip ip;
  modify (fun s => mkfsst (fl s) (alter f ip (icache s)) (fsb s) (fcwd s) (fdev s)).
Definition getsb : F superblock := gets fsb.
Definition mypid : F Z := gets (fun s => Bio.mypid (bc (fl s))).

(** ** Blocks *)

Definition bzero (dev bno : Z) : F unit :=
  let! bp := on_bio (bread (u32 dev) (u32 bno)) in
  do! on_bio (set_bdata bp (replicate BSIZE 0));
  do! on_log (log_write bp);
  on_bio (brelse bp).

(** [1 << (bi % 8)] and the byte it is in. *)
Definition bmask (bi : Z) : Z := Z.shiftl 1 (bi mod 8).
Definition bbyte (bi : Z) : nat := Z.to_nat (bi / 8).

(** The inner loop of [balloc]: the first free bit of a bitmap block. *)
Fixpoint balloc_scan (n : nat) (d : list Z) (b bi size : Z) : option Z :=
  match n with
  | O => None
  | S n =>
      if negb (b + bi <? size) then None
      else if Z.land (byte_at d (bbyte bi)) (bmask bi) =? 0 then Some bi
      else balloc_scan n d b (bi + 1) size
  end.

Fixpoint balloc_loop (fuel : nat) (dev b : Z) : F Z :=
  match fuel with
  | O => nofuel
  | S fuel =>
      let! sb := getsb in
      if negb (b <? sb_size sb) then panic "balloc: out of blocks" else
      let! bp := on_bio (bread dev (BBLOCK b sb)) in
      let! d := on_bio (bdata bp) in
      match balloc_scan (Z.to_nat BPB) d b 0 (sb_size sb) with
      | Some bi =>
          do! on_bio (set_bdata bp (<[bbyte bi := u8 (Z.lor (byte_at d (bbyte bi)) (bmask bi))]> d));
          do! on_log (log_write bp);
          do! on_bio (brelse bp);
          do! bzero dev (b + bi);
          ret (u32 (b + bi))
      | None =>
          do! on_bio (brelse bp);
          balloc_loop fuel dev (b + BPB)
      end
  end.
Definition balloc (dev : Z) : F Z :=
  let! sb := getsb in balloc_loop (S (S (Z.to_nat (sb_size sb / BPB)))) dev 0.

Definition bfree (dev b : Z) : F unit :=
  let! sb := getsb in
  let! bp := on_bio (bread (u32 dev) (BBLOCK b sb)) in
  let! d := on_bio (bdata bp) in
  let bi := b mod BPB in
  if Z.land (byte_at d (bbyte bi)) (bmask bi) =? 0 then panic "freeing free block" else
  do! on_bio (set_bdata bp (<[bbyte bi := u8 (Z.land (byte_at d (bbyte bi)) (Z.lnot (bmask bi)))]> d));
  do! on_log (log_write bp);
  on_bio (brelse bp).

(** ** Inodes *)

Definition iinit (dev : Z) : F unit :=
  do! for_each (seq 0 NINODE) (fun i => set_ip i (set_i_lock 0 0));
  let! sb := on_log (readsb dev) in
  modify (fun s => mkfsst (fl s) (icache s) sb (fcwd s) (fdev s)).

(** The loop of [iget]: the entry for the inode, and the first one that is free. *)
Fixpoint iget_scan (l : list inode) (i : nat) (dev inum : Z) (empty : option nat) : option nat * option nat :=
  match l with
  | [] => (None, empty)
  | x :: l =>
      if (i_ref x >? 0) && (i_dev x =? dev) && (i_inum x =? inum) then (Some i, empty)
      else iget_scan l (S i) dev inum
             (match empty with Some e => Some e | None => if i_ref x =? 0 then Some i else None end)
  end.

Definition iget (dev inum : Z) : F nat :=
  let! l := gets icache in
  match iget_scan l 0 dev inum None with
  | (Some ip, _) => do! set_ip ip (fun x => set_i_ref (i32 (i_ref x + 1)) x); ret ip
  | (None, None) => panic "iget: no inodes"
  | (None, Some ip) => do! set_ip ip (set_i_id dev inum 1 0); ret ip
  end.

Definition dinode_at (inum : Z) : nat := DINODE * Z.to_nat (inum mod IPB).

Fixpoint ialloc_loop (fuel : nat) (dev inum type : Z) : F nat :=
  match fuel with
  | O => nofuel
  | S fuel =>
      let! sb := getsb in
      if negb (inum <? sb_ninodes sb) then panic "ialloc: no inodes" else
      let! bp := on_bio (bread dev (IBLOCK inum sb)) in
      let! d := on_bio (bdata bp) in
      let o := dinode_at inum in
      if get16 d o =? 0 then
        do! on_bio (set_bdata bp (put16 o type (splice o (replicate DINODE 0) d)));
        do! on_log (log_write bp);
        do! on_bio (brelse bp);
        iget dev inum
      else
        do! on_bio (brelse bp);
        ialloc_loop fuel dev (inum + 1) type
  end.
Definition ialloc (dev type : Z) : F nat :=
  let! sb := getsb in ialloc_loop (S (Z.to_nat (sb_ninodes sb))) dev 1 type.

(** The fields of a [struct dinode] stored at byte [o] of a block. *)
Fixpoint put_addrs (o : nat) (l : list Z) (d : list Z) : list Z :=
  match l with
  | [] => d
  | a :: l => put_addrs (o + 4) l (put32 o a d)
  end.
Definition put_dinode (o : nat) (x : inode) (d : list Z) : list Z :=
  put_addrs (o + 12) (i_addrs x)
    (put32 (o + 8) (i_size x)
      (put16 (o + 6) (i_nlink x) (put16 (o + 4) (i_minor x) (put16 (o + 2) (i_major x) (put16 o (i_type x) d))))).
Definition get_addrs (o n : nat) (d : list Z) : list Z := (fun i => get32 d (o + 4 * i)) <$> seq 0 n.
Definition get_dinode (o : nat) (d : list Z) (x : inode) : inode :=
  set_i_dn (i16 (get16 d o)) (i16 (get16 d (o + 2))) (i16 (get16 d (o + 4))) (i16 (get16 d (o + 6)))
    (get32 d (o + 8)) (get_addrs (o + 12) (S NDIRECT) d) x.

Definition iupdate (ip : nat) : F unit :=
  let! x := get_ip ip in
  let! sb := getsb in
  let! bp := on_bio (bread (i_dev x) (IBLOCK (i_inum x) sb)) in
  let! d := on_bio (bdata bp) in
  do! on_bio (set_bdata bp (put_dinode (dinode_at (i_inum x)) x d));
  do! on_log (log_write bp);
  on_bio (brelse bp).

Definition idup (ip : nat) : F nat :=
  do! set_ip ip (fun x => set_i_ref (i32 (i_ref x + 1)) x);
  ret ip.

Definition acquiresleep (ip : nat) : F unit :=
  let! x := get_ip ip in
  if negb (i_locked x =? 0) then nofuel
  else let! me := mypid in set_ip ip (set_i_lock 1 me).
Definition releasesleep (ip : nat) : F unit := set_ip ip (set_i_lock 0 0).
Definition holdingsleep (ip : nat) : F bool :=
  let! x := get_ip ip in
  let! me := mypid in
  ret (negb (i_locked x =? 0) && (i_pid x =? me)).

Definition ilock (ip : nat) : F unit :=
  let! x := get_ip ip in
  if i_ref x <? 1 then panic "ilock" else
  do! acquiresleep ip;
  let! x := get_ip ip in
  when (i_valid x =? 0)
    (let! sb := getsb in
     let! bp := on_bio (bread (i_dev x) (IBLOCK (i_inum x) sb)) in
     let! d := on_bio (bdata bp) in
     do! set_ip ip (get_dinode (dinode_at (i_inum x)) d);
     do! on_bio (brelse bp);
     do! set_ip ip (set_i_valid 1);
     let! x := get_ip ip in
     if i_type x =? 0 then panic "ilock: no type" else ret tt).

Definition iunlock (ip : nat) : F unit :=
  let! h := holdingsleep ip in
  let! x := get_ip ip in
  if negb h || (i_ref x <? 1) then panic "iunlock" else releasesleep ip.

(** ** Inode content *)

Definition set_addr (ip : nat) (n : nat) (v : Z) : F unit :=
  set_ip ip (fun x => set_i_addrs (<[n := v]> (i_addrs x)) x).
Definition get_addr (ip : nat) (n : nat) : F Z :=
  let! x := get_ip ip in deref (i_addrs x !! n).

Definition bmap (ip : nat) (bn : Z) : F Z :=
  let! x := get_ip ip in
  if bn <? Z.of_nat NDIRECT then
    let! addr := get_addr ip (Z.to_nat bn) in
    if addr =? 0 then
      let! addr := balloc (i_dev x) in
      do! set_addr ip (Z.to_nat bn) addr;
      ret addr
    else ret addr
  else
  let bn := bn - Z.of_nat NDIRECT in
  if bn <? Z.of_nat NINDIRECT then
    let! addr := get_addr ip NDIRECT in
    let! addr := (if addr =? 0 then
                    let! addr := balloc (i_dev x) in
                    do! set_addr ip NDIRECT addr;
                    ret addr
                  else ret addr) in
    let! bp := on_bio (bread (i_dev x) addr) in
    let! a := on_bio (bdata bp) in
    let addr := get32 a (4 * Z.to_nat bn) in
    let! addr := (if addr =? 0 then
                    let! addr := balloc (i_dev x) in
                    let! a := on_bio (bdata bp) in
                    do! on_bio (set_bdata bp (put32 (4 * Z.to_nat bn) addr a));
                    do! on_log (log_write bp);
                    ret addr
                  else ret addr) in
    do! on_bio (brelse bp);
    ret addr
  else panic "bmap: out of range".

Definition itrunc (ip : nat) : F unit :=
  let! x := get_ip ip in
  do! for_each (seq 0 NDIRECT) (fun i =>
    let! a := get_addr ip i in
    if a =? 0 then ret tt
    else do! bfree (i_dev x) a; set_addr ip i 0);
  let! ind := get_addr ip NDIRECT in
  do! when (negb (ind =? 0))
    (let! bp := on_bio (bread (i_dev x) ind) in
     do! for_each (seq 0 NINDIRECT) (fun j =>
       let! a := on_bio (bdata bp) in
       let aj := get32 a (4 * j) in
       if aj =? 0 then ret tt else bfree (i_dev x) aj);
     do! on_bio (brelse bp);
     let! ind := get_addr ip NDIRECT in
     do! bfree (i_dev x) ind;
     set_addr ip NDIRECT 0);
  do! set_ip ip (set_i_size 0);
  iupdate ip.

Definition iput (ip : nat) : F unit :=
  do! acquiresleep ip;
  let! x := get_ip ip in
  do! when (negb (i_valid x =? 0) && (i_nlink x =? 0))
    (let! x := get_ip ip in
     when (i_ref x =? 1)
       (do! itrunc ip;
        do! set_ip ip (set_i_type 0);
        do! iupdate ip;
        set_ip ip (set_i_valid 0)));
  do! releasesleep ip;
  set_ip ip (fun x => set_i_ref (i32 (i_ref x - 1)) x).

Definition iunlockput (ip : nat) : F unit := do! iunlock ip; iput ip.

Definition stati (ip : nat) : F stat :=
  let! x := get_ip ip in
  ret (mkstat (i_type x) (i32 (i_dev x)) (i_inum x) (i_nlink x) (i_size x)).

Context `{DevOps D}.

(** The loops of [readi] and [writei]; [acc] is what was read so far. *)
Definition chunk (n tot off : Z) : Z := Z.min (n - tot) (Z.of_nat BSIZE - off mod Z.of_nat BSIZE).

Fixpoint readi_loop (fuel : nat) (ip : nat) (tot off n : Z) (acc : list Z) : F (list Z) :=
  match fuel with
  | O => nofuel
  | S fuel =>
      if negb (tot <? n) then ret acc else
      let! x := get_ip ip in
      let! addr := bmap ip (off / Z.of_nat BSIZE) in
      let! bp := on_bio (bread (i_dev x) addr) in
      let m := chunk n tot off in
      let! d := on_bio (bdata bp) in
      let acc := acc ++ slice (Z.to_nat (off mod Z.of_nat BSIZE)) (Z.to_nat m) d in
      do! on_bio (brelse bp);
      readi_loop fuel ip (tot + m) (u32 (off + m)) n acc
  end.

Definition io_fuel (n : Z) : nat := S (S (Z.to_nat (n / Z.of_nat BSIZE) + 1)).

Definition readi (ip : nat) (off n : Z) : F (Z * list Z) :=
  let! x := get_ip ip in
  if i_type x =? T_DEV then
    if (i_major x <? 0) || (i_major x >=? NDEV) then ret (-1, []) else
    match devsw_read (i_major x) with
    | None => ret (-1, [])
    | Some rd => rd ip n
    end
  else if (off >? i_size x) || (u32 (off + n) <? off) then ret (-1, [])
  else
    let n := if u32 (off + n) >? i_size x then u32 (i_size x - off) else n in
    let! l := readi_loop (io_fuel n) ip 0 off n [] in
    ret (i32 n, l).

Fixpoint writei_loop (fuel : nat) (ip : nat) (src : list Z) (tot off n : Z) : F Z :=
  match fuel with
  | O => nofuel
  | S fuel =>
      if negb (tot <? n) then ret off else
      let! x := get_ip ip in
      let! addr := bmap ip (off / Z.of_nat BSIZE) in
      let! bp := on_bio (bread (i_dev x) addr) in
      let m := chunk n tot off in
      let! d := on_bio (bdata bp) in
      do! on_bio (set_bdata bp (splice (Z.to_nat (off mod Z.of_nat BSIZE)) (slice (Z.to_nat tot) (Z.to_nat m) src) d));
      do! on_log (log_write bp);
      do! on_bio (brelse bp);
      writei_loop fuel ip src (tot + m) (u32 (off + m)) n
  end.

Definition writei (ip : nat) (src : list Z) (off n : Z) : F Z :=
  let! x := get_ip ip in
  if i_type x =? T_DEV then
    if (i_major x <? 0) || (i_major x >=? NDEV) then ret (-1) else
    match devsw_write (i_major x) with
    | None => ret (-1)
    | Some wr => wr ip src n
    end
  else if (off >? i_size x) || (u32 (off + n) <? off) then ret (-1)
  else if u32 (off + n) >? Z.of_nat (MAXFILE * BSIZE) then ret (-1)
  else
    let! off := writei_loop (io_fuel n) ip src 0 off n in
    let! x := get_ip ip in
    do! when ((n >? 0) && (off >? i_size x))
      (do! set_ip ip (set_i_size off); iupdate ip);
    ret (i32 n).

(** ** Directories *)

Definition namecmp (s t : list Z) : Z := lstrncmp DIRSIZ s t.

(** [struct dirent] *)
Definition de_inum (de : list Z) : Z := get16 de 0.
Definition de_name (de : list Z) : list Z := slice 2 DIRSIZ de.

(** The loop of [dirlookup]; the offset of the entry comes with the inode. *)
Fixpoint dirlookup_loop (fuel : nat) (dp : nat) (name : list Z) (off : Z) : F (option (nat * Z)) :=
  match fuel with
  | O => nofuel
  | S fuel =>
      let! x := get_ip dp in
      if negb (off <? i_size x) then ret None else
      let! r := readi dp off (Z.of_nat DIRENT) in
      let '(n, de) := r in
      if negb (n =? Z.of_nat DIRENT) then panic "dirlookup read" else
      if de_inum de =? 0 then dirlookup_loop fuel dp name (u32 (off + Z.of_nat DIRENT))
      else if namecmp name (de_name de) =? 0 then
        let! ip := iget (i_dev x) (de_inum de) in ret (Some (ip, off))
      else dirlookup_loop fuel dp name (u32 (off + Z.of_nat DIRENT))
  end.
Definition dir_fuel (size : Z) : nat := S (Z.to_nat (size / Z.of_nat DIRENT) + 1).

Definition dirlookup (dp : nat) (name : list Z) : F (option (nat * Z)) :=
  let! x := get_ip dp in
  if negb (i_type x =? T_DIR) then panic "dirlookup not DIR" else
  dirlookup_loop (dir_fuel (i_size x)) dp name 0.

(** The second loop of [dirlink]: the offset of the first free entry, or the end. *)
Fixpoint dirlink_loop (fuel : nat) (dp : nat) (off : Z) : F Z :=
  match fuel with
  | O => nofuel
  | S fuel =>
      let! x := get_ip dp in
      if negb (off <? i_size x) then ret off else
      let! r := readi dp off (Z.of_nat DIRENT) in
      let '(n, de) := r in
      if negb (n =? Z.of_nat DIRENT) then panic "dirlink read" else
      if de_inum de =? 0 then ret off
      else dirlink_loop fuel dp (off + Z.of_nat DIRENT)
  end.

Definition mkdirent (inum : Z) (name : list Z) : list Z :=
  put16 0 inum (replicate 2 0) ++ lstrncpy DIRSIZ name.

Definition dirlink (dp : nat) (name : list Z) (inum : Z) : F Z :=
  let! r := dirlookup dp name in
  match r with
  | Some (ip, _) => do! iput ip; ret (-1)
  | None =>
      let! x := get_ip dp in
      let! off := dirlink_loop (dir_fuel (i_size x)) dp 0 in
      let! r := writei dp (mkdirent inum name) off (Z.of_nat DIRENT) in
      if negb (r =? Z.of_nat DIRENT) then panic "dirlink" else ret 0
  end.

(** ** Paths

    A path is the bytes of a C string without the final zero; [name] is the buffer of
    [DIRSIZ] bytes that [skipelem] fills. *)

Definition slash : Z := 47.
Fixpoint skip_slashes (path : list Z) : list Z :=
  match path with
  | c :: path' => if c =? slash then skip_slashes path' else path
  | [] => []
  end.
Fixpoint split_elem (path : list Z) : list Z * list Z :=
  match path with
  | [] => ([], [])
  | c :: path' =>
      if c =? slash then ([], path)
      else let '(s, rest) := split_elem path' in (c :: s, rest)
  end.

Definition skipelem (path name : list Z) : option (list Z * list Z) :=
  match skip_slashes path with
  | [] => None
  | path =>
      let '(s, path) := split_elem path in
      let len := length s in
      let name := if (DIRSIZ <=? len)%nat then splice 0 (take DIRSIZ s) name
                  else <[len := 0]> (splice 0 s name) in
      Some (skip_slashes path, name)
  end.

(** Each element takes a character off the path: its length bounds the loop. *)
Fixpoint namex_loop (fuel : nat) (ip : nat) (path : list Z) (nameiparent : bool) (name : list Z) : F (option nat * list Z) :=
  match fuel with
  | O => nofuel
  | S fuel =>
      match skipelem path name with
      | None =>
          if nameiparent then do! iput ip; ret (None, name) else ret (Some ip, name)
      | Some (path, name) =>
          do! ilock ip;
          let! x := get_ip ip in
          if negb (i_type x =? T_DIR) then do! iunlockput ip; ret (None, name) else
          if nameiparent && match path with [] => true | _ => false end then
            do! iunlock ip; ret (Some ip, name)
          else
          let! r := dirlookup ip name in
          match r with
          | None => do! iunlockput ip; ret (None, name)
          | Some (next, _) => do! iunlockput ip; namex_loop fuel next path nameiparent name
          end
      end
  end.

Definition namex (path : list Z) (nameiparent : bool) (name : list Z) : F (option nat * list Z) :=
  let! ip := (if hd 0 path =? slash then iget ROOTDEV ROOTINO
              else let! c := gets fcwd in idup c) in
  namex_loop (S (length path)) ip path nameiparent name.

Definition namei (path : list Z) : F (option nat) :=
  let! r := namex path false (replicate DIRSIZ 0) in ret r.1.
Definition nameiparent (path name : list Z) : F (option nat * list Z) := namex path true name.

End fs.
End Fs.
