(* ===== verification/Dinode.v ===== *)
(** The on-disk inode: [put_dinode] (the stores of [iupdate]) and [get_dinode] (the loads
    of [ilock]) are inverse, and storing one inode leaves the other inodes of the
    block as they are. *)

From S2P Require Import Prelude CString Mem Bio Log Fs.
Import Bio Log Fs.

Implicit Types (d : list Z) (o j : nat) (x y : inode).

(** Only the bytes from [lo] to [hi] may differ. *)
Definition only (lo hi : nat) d d' : Prop :=
  length d' = length d /\ forall j, (j < lo \/ hi <= j)%nat -> byte_at d' j = byte_at d j.

Lemma only_trans lo hi lo' hi' m m' d d' d'' :
  only lo hi d d' -> only lo' hi' d' d'' -> (m <= lo)%nat -> (m <= lo')%nat -> (hi <= m')%nat -> (hi' <= m')%nat -> only m m' d d''.
Proof. intros [L1 H1] [L2 H2] ? ? ? ?. split; [congruence|]. intros j Hj. rewrite H2, H1; [done|lia|lia]. Qed.
Lemma only_after lo hi m m' d d' d'' : only m m' d d' -> only lo hi d' d'' -> (m <= lo)%nat -> (hi <= m')%nat -> only m m' d d''.
Proof. intros H1 H2 ? ?. by eapply only_trans. Qed.
Lemma only_refl lo hi d : only lo hi d d.
Proof. done. Qed.

Lemma only_put16 o v d : (o + 2 <= length d)%nat -> only o (o + 2) d (put16 o v d).
Proof.
  intros Ho. split; [apply length_put16|]. intros j Hj. unfold put16. rewrite !byte_at_insert by (rewrite ?length_insert; lia).
  repeat case_decide; try lia; done.
Qed.
Lemma only_put32 o v d : (o + 4 <= length d)%nat -> only o (o + 4) d (put32 o v d).
Proof.
  intros Ho. split; [apply length_put32|]. intros j Hj. unfold put32. rewrite !byte_at_insert by (rewrite ?length_insert; lia).
  repeat case_decide; try lia; done.
Qed.
Lemma get16_only lo hi d d' o : only lo hi d d' -> (o + 2 <= lo \/ hi <= o)%nat -> get16 d' o = get16 d o.
Proof. intros [_ H] Ho. unfold get16. rewrite !H by lia. done. Qed.
Lemma get32_only lo hi d d' o : only lo hi d d' -> (o + 4 <= lo \/ hi <= o)%nat -> get32 d' o = get32 d o.
Proof. intros [_ H] Ho. unfold get32. rewrite !H by lia. done. Qed.

Lemma only_put_addrs o (l : list Z) d : (o + 4 * length l <= length d)%nat -> only o (o + 4 * length l) d (put_addrs o l d).
Proof.
  revert o d. induction l as [|v l IH]; intros o d Hl; cbn [put_addrs length] in *; [apply only_refl|].
  eapply only_trans; [apply (only_put32 o v); lia|apply IH; rewrite length_put32; lia|lia..].
Qed.

Lemma get_put_addrs o (l : list Z) d :
  (o + 4 * length l <= length d)%nat -> Forall (fun v => 0 <= v < 2 ^ 32) l -> get_addrs o (length l) (put_addrs o l d) = l.
Proof.
  revert o d. induction l as [|v l IH]; intros o d Hl Hv; cbn [put_addrs length] in *; [done|].
  apply Forall_cons_1 in Hv as [Hv Hvs]. unfold get_addrs. cbn [seq fmap list_fmap]. f_equal.
  - replace (o + 4 * 0)%nat with o by lia.
    rewrite (get32_only (o + 4) (o + 4 + 4 * length l) (put32 o v d)); [|apply only_put_addrs; rewrite length_put32; lia|lia].
    rewrite get32_put32 by lia. by apply u32_small.
  - rewrite <- fmap_S_seq, <- list_fmap_compose. rewrite <- (IH (o + 4)%nat (put32 o v d)) at 2; [|rewrite length_put32; lia|done].
    unfold get_addrs. apply list_fmap_ext. intros i k _. cbn [compose]. f_equal. lia.
Qed.

Lemma only_put_dinode o x d : length (i_addrs x) = S NDIRECT -> (o + DINODE <= length d)%nat -> only o (o + DINODE) d (put_dinode o x d).
Proof.
  intros Hl Ho. unfold put_dinode. assert (4 * S NDIRECT = 52)%nat as HN by done. assert (DINODE = 64%nat) as HD by done.
  eapply only_after; [|apply only_put_addrs; rewrite ?length_put32, ?length_put16; lia|lia..].
  eapply only_after; [|apply only_put32; rewrite ?length_put16; lia|lia..].
  do 4 (eapply only_after; [|apply only_put16; rewrite ?length_put16; lia|lia..]). apply only_refl.
Qed.

(** Fields within the range of their C type. *)
Record dn_ok x : Prop := {
  dn_type : - 2 ^ 15 <= i_type x < 2 ^ 15;
  dn_major : - 2 ^ 15 <= i_major x < 2 ^ 15;
  dn_minor : - 2 ^ 15 <= i_minor x < 2 ^ 15;
  dn_nlink : - 2 ^ 15 <= i_nlink x < 2 ^ 15;
  dn_size : 0 <= i_size x < 2 ^ 32;
  dn_len : length (i_addrs x) = S NDIRECT;
  dn_addrs : Forall (fun v => 0 <= v < 2 ^ 32) (i_addrs x)
}.

Lemma i16_u16 v : - 2 ^ 15 <= v < 2 ^ 15 -> i16 (u16 v) = v.
Proof.
  intros Hv. unfold i16, u16. rewrite Z.add_mod_idemp_l by lia. rewrite Z.mod_small; lia.
Qed.

Ltac field_len := rewrite ?length_put32, ?length_put16; lia.
Ltac peel :=
  repeat first
    [ erewrite get16_only; [|first [apply only_put_addrs | apply only_put32 | apply only_put16]; field_len|lia]
    | erewrite get32_only; [|first [apply only_put_addrs | apply only_put32 | apply only_put16]; field_len|lia] ].

(** Reading back what was stored. *)
Lemma get_put_dinode o x y d : dn_ok x -> (o + DINODE <= length d)%nat ->
  get_dinode o (put_dinode o x d) y = set_i_dn (i_type x) (i_major x) (i_minor x) (i_nlink x) (i_size x) (i_addrs x) y.
Proof.
  intros [T Ma Mi Nl Sz Ln Ad] Ho. assert (4 * S NDIRECT = 52)%nat as HN by done. assert (DINODE = 64%nat) as HD by done.
  unfold get_dinode, put_dinode. f_equal.
  1-4: peel; rewrite get16_put16 by field_len; by apply i16_u16.
  - peel. rewrite get32_put32 by field_len. by apply u32_small.
  - rewrite <- Ln. apply get_put_addrs; [field_len|done].
Qed.

(** The other inodes of the block. *)
Lemma get_dinode_only lo hi d d' o y :
  only lo hi d d' -> (o + DINODE <= lo \/ hi <= o)%nat -> get_dinode o d' y = get_dinode o d y.
Proof.
  intros Hd Ho. assert (4 * S NDIRECT = 52)%nat as HN by done. assert (DINODE = 64%nat) as HD by done.
  unfold get_dinode. rewrite !(get16_only _ _ _ _ _ Hd), (get32_only _ _ _ _ _ Hd) by lia. f_equal.
  unfold get_addrs. apply list_fmap_ext. intros i k Hk. apply lookup_seq in Hk as [-> Hk]. apply (get32_only _ _ _ _ _ Hd). lia.
Qed.
