(* ===== verification/FsSpec.v ===== *)
(** The file system inside a transaction: the block layer as [fs.c] uses it.

    [txn] is the log invariant with [q] system calls outstanding.  The lemmas of this file
    are the block operations of [fs.c] in continuation form, the allocator, and the
    files as byte arrays: [fbyte] is the byte of a file at an offset, 0 in a hole. *)

From S2P Require Import Prelude CString Mem Bio BioSpec Log LogSpec LogProps Fs.
Import Bio Log Fs.

Implicit Types (a : bspec) (ks : list nat) (l : lst) (d : list Z).

Record txn (q me : Z) (st sz : nat) (l : lst) a ks : Prop := {
  tx_inv : log_inv me st sz l a ks;
  tx_out : l_outstanding (lg l) = q
}.

Definition set_fl {D} (l : lst) (s : fsst D) : fsst D := mkfsst l (icache s) (fsb s) (fcwd s) (fdev s).

Lemma set_fl_set_fl {D} l l' (s : fsst D) : set_fl l (set_fl l' s) = set_fl l s.
Proof. done. Qed.
Lemma set_fl_id {D} (s : fsst D) : set_fl (fl s) s = s.
Proof. by destruct s. Qed.

(** Block [b] changed to [x] in the transaction. *)
Definition sp_upd (b : nat) (x : list Z) a : bspec :=
  mkbspec (<[b := x]> (content a)) (disk a) ({[b]} ∪ dirty a) (held a) (hist a).

Section blocks.
Context {D : Type} (q me : Z) (st sz : nat).
Implicit Types s : fsst D.

Lemma wp_on_log {A} (m : M lst A) (Q : A -> fsst D -> Prop) s :
  wp (on_log m) Q s <-> wp m (fun r l => Q r (set_fl l s)) (fl s).
Proof. apply (wp_zoom fl (fun l s => mkfsst l (icache s) (fsb s) (fcwd s) (fdev s))). Qed.
Lemma wp_on_bio {A} (m : M bst A) (Q : A -> fsst D -> Prop) s :
  wp (on_bio m) Q s <-> wp m (fun r b => Q r (set_fl (mklst b (lg (fl s))) s)) (bc (fl s)).
Proof. unfold on_bio. rewrite wp_on_log. apply wp_bio. Qed.

Lemma txn_brep l a ks : txn q me st sz l a ks -> brep me (bc l) a.
Proof. intros H. apply H. Qed.
Lemma txn_dirty l a ks : txn q me st sz l a ks -> dirty a = list_to_set ks /\ size (dirty a) = length ks.
Proof.
  intros [[H _ _ _ _ _] _]. rewrite (lr_dirty _ _ _ _ _ _ H). split; [done|]. apply size_list_to_set, H.
Qed.
Lemma txn_sz l a ks : txn q me st sz l a ks -> (sz <= 30)%nat.
Proof. intros [[H _ _ _ _ _] _]. pose proof (lr_room _ _ _ _ _ _ H). unfold LOGSIZE, MAXOPBLOCKS in *. lia. Qed.

Lemma txn_block l a ks b : txn q me st sz l a ks -> (b < length (disk a))%nat ->
  content a !! b = Some (content a !!! b) /\ length (content a !!! b) = BSIZE.
Proof.
  intros H Hb. pose proof (txn_brep _ _ _ H) as Hr. rewrite <- (br_size _ _ _ Hr) in Hb.
  apply lookup_lt_is_Some_2 in Hb as [x Hx]. rewrite (list_lookup_total_correct _ _ _ Hx). split; [done|].
  by eapply brep_lt.
Qed.

Lemma F_bread s a ks b z Q :
  txn q me st sz (fl s) a ks -> z = Z.of_nat b -> (b < length (disk a))%nat -> (forall j, held a !! j <> Some b) ->
  (size (held a) <= 1)%nat -> (S (length ks) < sz)%nat ->
  (forall i l, held a !! i = None -> txn q me st sz l (sp_bread i b a) ks -> Q i (set_fl l s)) ->
  wp (on_bio (bread 1 z)) Q s.
Proof.
  intros Ht -> Hb Hn Hh Hk HQ. rewrite wp_on_bio. pose proof (txn_sz _ _ _ Ht). destruct (txn_dirty _ _ _ Ht) as [_ Hd].
  eapply wp_mono; [apply (bread_spec me _ a b); [apply Ht|done|done|]|].
  { right. rewrite Hd. unfold NBUF. lia. }
  cbn beta. intros i bs [Hi Hr]. apply HQ; [done|]. constructor; [|apply Ht].
  by eapply log_inv_brep; [apply Ht|..].
Qed.

Lemma F_data s a ks i b Q :
  txn q me st sz (fl s) a ks -> held a !! i = Some b -> Q (content a !!! b) s -> wp (on_bio (bdata i)) Q s.
Proof.
  intros Ht Hi HQ. rewrite wp_on_bio. eapply (bdata_spec me _ a i b); [apply Ht|done|]. intros x Hx _.
  rewrite <- (list_lookup_total_correct _ _ _ Hx). replace (set_fl _ s) with s by (destruct s as [[] ? ? ? ?]; done). done.
Qed.

Lemma F_store s a ks i b x Q :
  txn q me st sz (fl s) a ks -> held a !! i = Some b -> b <> 1%nat -> outside st sz b -> length x = BSIZE ->
  (forall l, txn q me st sz l (sp_store b x a) ks -> Q tt (set_fl l s)) ->
  wp (on_bio (set_bdata i x)) Q s.
Proof.
  intros Ht Hi Hb1 Hb Hx HQ. unfold on_bio. rewrite wp_on_log.
  eapply wp_mono; [by apply (log_inv_store me st sz (fl s) a ks i b x); [apply Ht|..]|].
  cbn beta. intros [] l' [Hi' Hl']. apply HQ. constructor; [done|]. rewrite Hl'. apply Ht.
Qed.

Lemma F_logw s a ks i b Q :
  1 <= q -> txn q me st sz (fl s) a ks -> held a !! i = Some b -> outside st sz b -> (S (length ks) < sz)%nat ->
  (forall l, txn q me st sz l (sp_dirty b a) (logged b ks) -> Q tt (set_fl l s)) ->
  wp (on_log (log_write i)) Q s.
Proof.
  intros Hq Ht Hi Hb Hk HQ. rewrite wp_on_log. pose proof (tx_out _ _ _ _ _ _ _ Ht).
  eapply wp_mono; [by apply (log_write_spec me st sz (fl s) a ks i b); [apply Ht|..|lia]|].
  cbn beta. intros [] l' [Hi' Hl']. apply HQ. constructor; [done|]. rewrite Hl'. apply Ht.
Qed.

Lemma F_brelse s a ks i b Q :
  txn q me st sz (fl s) a ks -> held a !! i = Some b -> b ∈ dirty a \/ content a !! b = disk a !! b ->
  (forall l, txn q me st sz l (sp_brelse i a) ks -> Q tt (set_fl l s)) ->
  wp (on_bio (brelse i)) Q s.
Proof.
  intros Ht Hi Hc HQ. rewrite wp_on_bio. eapply wp_mono; [by apply (brelse_spec me _ a i b); [apply Ht|..]|].
  cbn beta. intros [] bs Hr. apply HQ. constructor; [|apply Ht]. by eapply log_inv_brep; [apply Ht|..].
Qed.

Lemma sp_release i b a : held a !! i = None -> sp_brelse i (sp_bread i b a) = a.
Proof. intros Hi. unfold sp_brelse, sp_bread. cbn. rewrite delete_insert_id by done. by destruct a. Qed.
Lemma sp_update i b x a : held a !! i = None -> sp_brelse i (sp_dirty b (sp_store b x (sp_bread i b a))) = sp_upd b x a.
Proof. intros Hi. unfold sp_brelse, sp_dirty, sp_store, sp_bread, sp_upd. cbn. by rewrite delete_insert_id. Qed.

(** A block not held is settled: dirty, or on the disk as it is in the cache. *)
Lemma txn_settled l a ks b : txn q me st sz l a ks -> (forall j, held a !! j <> Some b) ->
  b ∈ dirty a \/ content a !! b = disk a !! b.
Proof.
  intros Ht Hn. destruct (decide (b ∈ dirty a)); [by left|right]. by apply (br_clean _ _ _ (txn_brep _ _ _ Ht)).
Qed.

(** Reading a block: [bread], the data, [brelse]. *)
Lemma F_read {B} s a ks b z (k : list Z -> M (fsst D) B) Q :
  txn q me st sz (fl s) a ks -> z = Z.of_nat b -> (b < length (disk a))%nat -> (forall j, held a !! j <> Some b) ->
  (size (held a) <= 1)%nat -> (S (length ks) < sz)%nat ->
  (forall l, txn q me st sz l a ks -> wp (k (content a !!! b)) Q (set_fl l s)) ->
  wp (let! bp := on_bio (bread 1 z) in
      let! d := on_bio (bdata bp) in
      do! on_bio (brelse bp);
      k d) Q s.
Proof.
  intros Ht Hz Hb Hn Hh Hk HQ. rewrite wp_bind. eapply (F_bread s a ks b); try done. intros i l Hi Ht1.
  rewrite wp_bind. eapply (F_data _ _ ks i b); [done|cbn; by rewrite lookup_insert_eq|]. cbn [content sp_bread].
  rewrite wp_bind. eapply (F_brelse _ _ ks i b); [done|cbn; by rewrite lookup_insert_eq| |].
  { exact (txn_settled (fl s) a ks b Ht Hn). }
  intros l2 Ht2. rewrite sp_release in Ht2 by done. rewrite set_fl_set_fl. by apply HQ.
Qed.

Lemma wp_seq3 {S A B C T} (m1 : M S A) (m2 : M S B) (m3 : M S C) (k : M S T) Q (s : S) :
  wp (do! m1; do! m2; do! m3; k) Q s <-> wp (do! m1; do! m2; m3) (fun _ => wp k Q) s.
Proof. unfold wp, bind. destruct (m1 s) as [[? s1]| | |]; [|done..]. destruct (m2 s1) as [[? s2]| | |]; [|done..]. by destruct (m3 s2) as [[? s3]| | |]. Qed.

(** Storing [x] into a buffer just read, [log_write], [brelse]. *)
Lemma F_write s a ks i b x Q :
  1 <= q -> held a !! i = None -> txn q me st sz (fl s) (sp_bread i b a) ks -> (S (length ks) < sz)%nat ->
  b <> 1%nat -> outside st sz b -> length x = BSIZE ->
  (forall l, txn q me st sz l (sp_upd b x a) (logged b ks) -> Q tt (set_fl l s)) ->
  wp (do! on_bio (set_bdata i x); do! on_log (log_write i); on_bio (brelse i)) Q s.
Proof.
  intros Hq Hi Ht Hk Hb1 Hbo Hx HQ.
  assert (held (sp_bread i b a) !! i = Some b) as Hib by (cbn; by rewrite lookup_insert_eq).
  rewrite wp_bind. eapply (F_store _ _ ks i b); try done. intros l2 Ht2.
  rewrite wp_bind. eapply (F_logw _ _ ks i b); [done|exact Ht2|done..|]. intros l3 Ht3.
  eapply (F_brelse _ _ _ i b); [exact Ht3|done| |].
  { left. cbn. set_solver. }
  intros l4 Ht4. rewrite sp_update in Ht4 by done. rewrite !set_fl_set_fl. by apply HQ.
Qed.

(** Changing a block: [bread], storing [f] of the data, [log_write], [brelse]. *)
Lemma F_update s a ks b z (f : list Z -> list Z) Q :
  1 <= q -> txn q me st sz (fl s) a ks -> z = Z.of_nat b -> (b < length (disk a))%nat -> (forall j, held a !! j <> Some b) ->
  (size (held a) <= 1)%nat -> (S (length ks) < sz)%nat -> b <> 1%nat -> outside st sz b ->
  length (f (content a !!! b)) = BSIZE ->
  (forall l, txn q me st sz l (sp_upd b (f (content a !!! b)) a) (logged b ks) -> Q tt (set_fl l s)) ->
  wp (let! bp := on_bio (bread 1 z) in
      let! d := on_bio (bdata bp) in
      do! on_bio (set_bdata bp (f d));
      do! on_log (log_write bp);
      on_bio (brelse bp)) Q s.
Proof.
  intros Hq Ht Hz Hb Hn Hh Hk Hb1 Hbo Hf HQ. rewrite wp_bind. eapply (F_bread s a ks b); try done. intros i l Hi Ht1.
  rewrite wp_bind. eapply (F_data _ _ ks i b); [done|cbn; by rewrite lookup_insert_eq|]. cbn [content sp_bread].
  by eapply (F_write _ a ks i b).
Qed.
End blocks.

(** * The layout of the disk and the bitmap *)

Record geo (st sz : nat) (sb : superblock) (n : nat) : Prop := {
  g_log : (1 < st)%nat;
  g_ino : Z.of_nat (st + sz) <= sb_inodestart sb;
  g_bm : sb_inodestart sb + sb_ninodes sb / IPB + 1 <= sb_bmapstart sb;
  g_data : sb_bmapstart sb + sb_size sb / BPB + 1 <= sb_size sb;
  g_size : sb_size sb <= Z.of_nat n;
  g_small : Z.of_nat n < 2 ^ 31;
  g_nino : 0 < sb_ninodes sb;
  g_pos : 0 <= sb_size sb
}.
(** The first block after the bitmap. *)
Definition dstart (sb : superblock) : nat := Z.to_nat (sb_bmapstart sb + sb_size sb / BPB + 1).

Definition bm_block (sb : superblock) (b : nat) : nat := Z.to_nat (sb_bmapstart sb + Z.of_nat b / BPB).
Definition bit (d : list Z) (bi : Z) : bool := Z.testbit (byte_at d (bbyte bi)) (bi mod 8).
Definition used (sb : superblock) (c : list (list Z)) (b : nat) : bool :=
  bit (c !!! bm_block sb b) (Z.of_nat b mod BPB).

Lemma land_bit x k : 0 <= k -> (Z.land x (Z.shiftl 1 k) =? 0) = negb (Z.testbit x k).
Proof.
  intros Hk. rewrite Z.shiftl_1_l. destruct (Z.testbit x k) eqn:E; cbn.
  - apply Z.eqb_neq. intros H. assert (Z.testbit (Z.land x (2 ^ k)) k = true) as H1
      by (rewrite Z.land_spec, E, Z.pow2_bits_true; done). rewrite H, Z.bits_0 in H1. done.
  - apply Z.eqb_eq. apply Z.bits_inj'. intros j Hj. rewrite Z.land_spec, Z.bits_0.
    destruct (decide (k = j)) as [->|Hne]; [by rewrite E|]. rewrite Z.pow2_bits_false by done. apply andb_false_r.
Qed.

Lemma bit_clear d bi : (Z.land (byte_at d (bbyte bi)) (bmask bi) =? 0) = negb (bit d bi).
Proof. apply land_bit. apply Z.mod_pos_bound. lia. Qed.

Lemma testbit_u8 x k : 0 <= k < 8 -> Z.testbit (u8 x) k = Z.testbit x k.
Proof. intros Hk. unfold u8. apply Z.mod_pow2_bits_low. lia. Qed.

Definition set_bit (bi : Z) (d : list Z) : list Z := <[bbyte bi := u8 (Z.lor (byte_at d (bbyte bi)) (bmask bi))]> d.
Definition clear_bit (bi : Z) (d : list Z) : list Z := <[bbyte bi := u8 (Z.land (byte_at d (bbyte bi)) (Z.lnot (bmask bi)))]> d.

Lemma bbyte_lt d bi : length d = BSIZE -> 0 <= bi < BPB -> (bbyte bi < length d)%nat.
Proof.
  intros -> Hbi. unfold bbyte, BPB, BSIZE in *. assert (bi / 8 < 512) by (apply Z.div_lt_upper_bound; lia).
  assert (0 <= bi / 8) by (apply Z.div_pos; lia). lia.
Qed.
Lemma bit_same bi bj : 0 <= bi -> 0 <= bj -> bbyte bi = bbyte bj -> bi mod 8 = bj mod 8 -> bi = bj.
Proof.
  intros Hi Hj Hb Hm. unfold bbyte in Hb. pose proof (Z.div_mod bi 8). pose proof (Z.div_mod bj 8).
  assert (0 <= bi / 8) by (apply Z.div_pos; lia). assert (0 <= bj / 8) by (apply Z.div_pos; lia). lia.
Qed.

Lemma bit_set d bi bj :
  length d = BSIZE -> 0 <= bi < BPB -> 0 <= bj < BPB -> bit (set_bit bi d) bj = (bi =? bj) || bit d bj.
Proof.
  intros Hd Hi Hj. unfold bit, set_bit. rewrite byte_at_insert by (by apply bbyte_lt).
  pose proof (Z.mod_pos_bound bi 8). pose proof (Z.mod_pos_bound bj 8). case_decide as Hb.
  - rewrite testbit_u8, Z.lor_spec by lia. unfold bmask. rewrite Z.shiftl_1_l, Hb.
    destruct (Z.eqb_spec bi bj) as [->|Hne]; [rewrite Z.pow2_bits_true by lia; by rewrite orb_true_r|].
    rewrite Z.pow2_bits_false; [by rewrite orb_false_r|]. intros Hm. apply Hne. apply bit_same; [lia|lia|done|done].
  - destruct (Z.eqb_spec bi bj) as [->|]; done.
Qed.
Lemma bit_clear_bit d bi bj :
  length d = BSIZE -> 0 <= bi < BPB -> 0 <= bj < BPB -> bit (clear_bit bi d) bj = negb (bi =? bj) && bit d bj.
Proof.
  intros Hd Hi Hj. unfold bit, clear_bit. rewrite byte_at_insert by (by apply bbyte_lt).
  pose proof (Z.mod_pos_bound bi 8). pose proof (Z.mod_pos_bound bj 8). case_decide as Hb.
  - rewrite testbit_u8, Z.land_spec, Z.lnot_spec by lia. unfold bmask. rewrite Z.shiftl_1_l, Hb.
    destruct (Z.eqb_spec bi bj) as [->|Hne]; [rewrite Z.pow2_bits_true by lia; by rewrite andb_false_r|].
    rewrite Z.pow2_bits_false; [by rewrite andb_true_r|]. intros Hm. apply Hne. apply bit_same; [lia|lia|done|done].
  - destruct (Z.eqb_spec bi bj) as [->|]; done.
Qed.

(** The scan of one bitmap block. *)
Lemma balloc_scan_spec n d b bi size :
  match balloc_scan n d b bi size with
  | Some bj => bi <= bj < bi + Z.of_nat n /\ b + bj < size /\ bit d bj = false
  | None => forall bj, bi <= bj < bi + Z.of_nat n -> b + bj < size -> bit d bj = true
  end.
Proof.
  revert bi. induction n as [|n IH]; intros bi; cbn [balloc_scan]; [intros bj ?; lia|].
  destruct (b + bi <? size) eqn:E1; zb; cbn [negb]; [|intros bj ? ?; lia].
  rewrite bit_clear. destruct (bit d bi) eqn:E2; cbn [negb].
  - specialize (IH (bi + 1)). destruct (balloc_scan n d b (bi + 1) size) as [bj|].
    + split; [lia|]. apply IH.
    + intros bj Hbj Hs. destruct (decide (bj = bi)) as [->|]; [done|]. apply IH; lia.
  - split; [lia|]. done.
Qed.

(** * The block allocator *)

Record fsok (q me : Z) (st sz : nat) (sb : superblock) (l : lst) a ks : Prop := {
  fo_txn : txn q me st sz l a ks;
  fo_geo : geo st sz sb (length (disk a));
  fo_meta : forall b, (b < dstart sb)%nat -> used sb (content a) b = true;
  (** Buffers are held across calls for data blocks only. *)
  fo_held : forall j b, held a !! j = Some b -> (dstart sb <= b)%nat /\ Z.of_nat b < sb_size sb /\ used sb (content a) b = true
}.

Section geo.
Context (st sz : nat) (sb : superblock) (n : nat).
Hypothesis Hg : geo st sz sb n.

Lemma BPB_pos : 0 < BPB.
Proof. unfold BPB, BSIZE. lia. Qed.

Lemma geo_bm b : Z.of_nat b < sb_size sb ->
  Z.of_nat (bm_block sb b) = sb_bmapstart sb + Z.of_nat b / BPB /\ (bm_block sb b < dstart sb)%nat /\
  (dstart sb <= n)%nat /\ outside st sz (bm_block sb b) /\ bm_block sb b <> 1%nat /\ Z.of_nat (dstart sb) <= sb_size sb.
Proof.
  intros Hb. destruct Hg. pose proof BPB_pos. assert (0 <= Z.of_nat b / BPB) by (apply Z.div_pos; lia).
  assert (Z.of_nat b / BPB <= sb_size sb / BPB) by (apply Z.div_le_mono; lia).
  assert (0 <= sb_ninodes sb / IPB) by (apply Z.div_pos; [lia|done]).
  unfold bm_block, dstart, outside. split_and!; lia.
Qed.

Lemma geo_data b : (dstart sb <= b)%nat -> outside st sz b /\ b <> 1%nat.
Proof.
  intros Hb. destruct Hg. pose proof BPB_pos. assert (0 <= sb_size sb / BPB) by (apply Z.div_pos; lia).
  assert (0 <= sb_ninodes sb / IPB) by (apply Z.div_pos; [lia|done]). unfold dstart, outside in *. split; lia.
Qed.

Lemma geo_BBLOCK b : Z.of_nat b < sb_size sb -> BBLOCK (Z.of_nat b) sb = Z.of_nat (bm_block sb b).
Proof.
  intros Hb. destruct (geo_bm b Hb) as (H1 & H2 & H3 & _). destruct Hg. unfold BBLOCK.
  rewrite Z.add_comm, <- H1. apply u32_small. lia.
Qed.
End geo.

(** The bit of one block changed. *)
Lemma used_upd sb (c : list (list Z)) b b' (f : list Z -> list Z) (v : bool -> bool) :
  0 <= sb_bmapstart sb -> (bm_block sb b < length c)%nat ->
  (forall bj, 0 <= bj < BPB -> bit (f (c !!! bm_block sb b)) bj =
     if Z.of_nat b mod BPB =? bj then v (bit (c !!! bm_block sb b) bj) else bit (c !!! bm_block sb b) bj) ->
  used sb (<[bm_block sb b := f (c !!! bm_block sb b)]> c) b' = if decide (b = b') then v (used sb c b') else used sb c b'.
Proof.
  intros Hbm Hlen Hf. unfold used. pose proof BPB_pos. pose proof (Z.mod_pos_bound (Z.of_nat b') BPB).
  destruct (decide (bm_block sb b = bm_block sb b')) as [Heq|Hne].
  - rewrite <- Heq, list_lookup_total_insert_eq by done. rewrite Hf by lia.
    destruct (Z.eqb_spec (Z.of_nat b mod BPB) (Z.of_nat b' mod BPB)) as [Hm|Hm].
    + rewrite decide_True; [done|]. unfold bm_block in Heq. pose proof (Z.div_mod (Z.of_nat b) BPB).
      pose proof (Z.div_mod (Z.of_nat b') BPB). assert (0 <= Z.of_nat b / BPB) by (apply Z.div_pos; lia).
      assert (0 <= Z.of_nat b' / BPB) by (apply Z.div_pos; lia).
      assert (Z.of_nat b / BPB = Z.of_nat b' / BPB) as Hq by lia. rewrite Hq in *. lia.
    + rewrite decide_False; [done|]. intros ->. done.
  - rewrite list_lookup_total_insert_ne by done. rewrite decide_False; [done|]. congruence.
Qed.

Definition zeros : list Z := replicate BSIZE 0.

(** What [balloc] does to the blocks. *)
Definition sp_balloc (sb : superblock) (b : nat) a : bspec :=
  sp_upd b zeros (sp_upd (bm_block sb b) (set_bit (Z.of_nat b mod BPB) (content a !!! bm_block sb b)) a).

Lemma length_logged b ks : (length (logged b ks) <= S (length ks))%nat.
Proof. unfold logged. case_decide; [lia|]. rewrite length_app. cbn. lia. Qed.

Section alloc.
Context {D : Type} (q me : Z) (st sz : nat) (sb : superblock).
Implicit Types s : fsst D.

Lemma fsok_bm l a ks b : fsok q me st sz sb l a ks -> Z.of_nat b < sb_size sb ->
  (bm_block sb b < length (disk a))%nat /\ (bm_block sb b < length (content a))%nat /\ length (content a !!! bm_block sb b) = BSIZE /\
  forall j, held a !! j <> Some (bm_block sb b).
Proof.
  intros Ho Hb. destruct (geo_bm _ _ _ _ (fo_geo _ _ _ _ _ _ _ _ Ho) b Hb) as (_ & H2 & H3 & _).
  assert (bm_block sb b < length (disk a))%nat as H by lia. split; [done|].
  rewrite (br_size _ _ _ (txn_brep _ _ _ _ _ _ _ (fo_txn _ _ _ _ _ _ _ _ Ho))). split; [done|].
  split; [by eapply txn_block; [apply Ho|]|]. intros j Hj. destruct (fo_held _ _ _ _ _ _ _ _ Ho _ _ Hj). lia.
Qed.

(** The bitmap does not depend on data blocks. *)
Lemma used_data n (c : list (list Z)) b b' x :
  geo st sz sb n -> (dstart sb <= b)%nat -> Z.of_nat b' < sb_size sb -> used sb (<[b := x]> c) b' = used sb c b'.
Proof.
  intros Hg Hb Hb'. destruct (geo_bm _ _ _ _ Hg b' Hb') as (_ & H & _). unfold used.
  by rewrite list_lookup_total_insert_ne by lia.
Qed.

Lemma geo_bmapstart n : geo st sz sb n -> 0 <= sb_bmapstart sb.
Proof. intros []. assert (0 <= sb_ninodes sb / IPB) by (apply Z.div_pos; [lia|done]). lia. Qed.

(** After [balloc], the block is used and nothing else changed in the bitmap. *)
Lemma used_balloc l a ks b b' :
  fsok q me st sz sb l a ks -> Z.of_nat b < sb_size sb -> (dstart sb <= b)%nat -> Z.of_nat b' < sb_size sb ->
  used sb (content (sp_balloc sb b a)) b' = bool_decide (b = b') || used sb (content a) b'.
Proof.
  intros Ho Hb Hd Hb'. destruct (fsok_bm _ _ _ b Ho Hb) as (H1 & H2 & H3 & _). pose proof BPB_pos.
  pose proof (fo_geo _ _ _ _ _ _ _ _ Ho) as Hg. cbn [sp_balloc sp_upd content]. rewrite (used_data _ _ _ _ _ Hg) by done.
  rewrite (used_upd _ _ _ _ (set_bit (Z.of_nat b mod BPB)) (fun _ => true)).
  - case_decide as He; [by rewrite bool_decide_eq_true_2|by rewrite bool_decide_eq_false_2].
  - by eapply geo_bmapstart.
  - done.
  - intros bj Hbj. rewrite bit_set; [|done|apply Z.mod_pos_bound; lia|done]. by destruct (_ =? bj).
Qed.

Lemma balloc_fsok l l' a ks b :
  fsok q me st sz sb l a ks -> Z.of_nat b < sb_size sb -> (dstart sb <= b)%nat ->
  txn q me st sz l' (sp_balloc sb b a) (logged b (logged (bm_block sb b) ks)) ->
  fsok q me st sz sb l' (sp_balloc sb b a) (logged b (logged (bm_block sb b) ks)).
Proof.
  intros Ho Hb Hd Ht. pose proof (fo_geo _ _ _ _ _ _ _ _ Ho) as Hg. destruct (geo_bm _ _ _ _ Hg b Hb) as (_ & _ & _ & _ & _ & Hds).
  constructor; [done|done| |].
  - intros b' Hb'. rewrite (used_balloc l a ks) by (try done; lia). apply orb_true_iff. right. by apply Ho.
  - intros j b' Hj. destruct (fo_held _ _ _ _ _ _ _ _ Ho j b' Hj) as (H1 & H2 & H3). split_and!; try done.
    rewrite (used_balloc l a ks) by done. by rewrite H3, orb_true_r.
Qed.

Lemma bzero_spec s a ks b Q :
  1 <= q -> fsb s = sb -> txn q me st sz (fl s) a ks -> geo st sz sb (length (disk a)) -> (dstart sb <= b)%nat -> Z.of_nat b < sb_size sb ->
  (forall j, held a !! j <> Some b) -> (size (held a) <= 1)%nat -> (S (length ks) < sz)%nat ->
  (forall l, txn q me st sz l (sp_upd b zeros a) (logged b ks) -> Q tt (set_fl l s)) ->
  wp (bzero 1 (Z.of_nat b)) Q s.
Proof.
  intros Hq Hs Ht Hg Hd Hb Hn Hh Hk HQ. destruct (geo_data _ _ _ _ Hg b Hd) as [Ho H1]. pose proof Hg as [? ? ? ? ? ? ? ?].
  unfold bzero. change (u32 1) with 1. rewrite (u32_nat _ b) by lia. rewrite wp_bind.
  eapply (F_bread _ _ _ _ s a ks b); try done; [lia|]. intros i l Hi Ht1. by eapply (F_write _ _ _ _ _ a ks i b).
Qed.

Lemma bm_index j bi : 0 <= bi < BPB -> let b := Z.to_nat (Z.of_nat (j * Z.to_nat BPB) + bi) in
  bm_block sb b = bm_block sb (j * Z.to_nat BPB) /\ Z.of_nat b mod BPB = bi.
Proof.
  intros Hb. cbn. unfold bm_block. rewrite !Nat2Z.inj_mul, !Z2Nat.id by lia.
  rewrite Z.div_add_l, Z.div_small, Z.div_mul, Z.add_0_r by lia. split; [done|].
  rewrite Z.add_comm, Z.mod_add, Z.mod_small by lia. done.
Qed.

Lemma balloc_loop_spec fuel s a ks j Q :
  1 <= q -> fsb s = sb -> fsok q me st sz sb (fl s) a ks -> (size (held a) <= 1)%nat -> (S (S (length ks)) < sz)%nat ->
  (exists fb, (j * Z.to_nat BPB <= fb)%nat /\ Z.of_nat fb < sb_size sb /\ used sb (content a) fb = false) ->
  sb_size sb / BPB < Z.of_nat (fuel + j) ->
  (forall b l, Z.of_nat b < sb_size sb -> (dstart sb <= b)%nat -> used sb (content a) b = false ->
     fsok q me st sz sb l (sp_balloc sb b a) (logged b (logged (bm_block sb b) ks)) -> Q (Z.of_nat b) (set_fl l s)) ->
  wp (balloc_loop fuel 1 (Z.of_nat (j * Z.to_nat BPB))) Q s.
Proof.
  revert s j. induction fuel as [|fuel IH]; intros s j Hq Hs Ho Hh Hk Hfree Hfuel HQ.
  { destruct Hfree as (fb & H1 & H2 & _). exfalso. pose proof BPB_pos.
    assert (Z.of_nat j <= sb_size sb / BPB); [|lia]. apply Z.div_le_lower_bound; lia. }
  pose proof BPB_pos as HB. destruct Hfree as (fb & Hf1 & Hf2 & Hf3).
  assert (Z.of_nat (j * Z.to_nat BPB) < sb_size sb) as Hj by lia.
  destruct (fsok_bm _ _ _ _ Ho Hj) as (H1 & H2 & H3 & H4).
  pose proof (fo_geo _ _ _ _ _ _ _ _ Ho) as Hg. destruct (geo_bm _ _ _ _ Hg _ Hj) as (Hbz & _ & _ & Hout & Hone & _).
  cbn [balloc_loop]. unfold getsb. rewrite wp_bind, wp_gets, Hs.
  destruct (Z.of_nat (j * Z.to_nat BPB) <? sb_size sb) eqn:E; zb; [|lia]. cbn [negb].
  rewrite (geo_BBLOCK _ _ _ _ Hg) by done. set (bb := bm_block sb (j * Z.to_nat BPB)) in *.
  rewrite wp_bind. eapply (F_bread _ _ _ _ s a ks bb); try done; [apply Ho|lia|]. intros i l Hi Ht1.
  rewrite wp_bind. eapply (F_data _ _ _ _ _ _ ks i bb); [done|cbn; by rewrite lookup_insert_eq|]. cbn [content sp_bread].
  pose proof (balloc_scan_spec (Z.to_nat BPB) (content a !!! bb) (Z.of_nat (j * Z.to_nat BPB)) 0 (sb_size sb)) as Hsc.
  destruct (balloc_scan _ _ _ _ _) as [bi|].
  - destruct Hsc as (Hbi & Hbs & Hbit). rewrite Z2Nat.id in Hbi by lia. destruct (bm_index j bi Hbi) as [Hbb Hbm]. fold bb in Hbb.
    set (b := Z.to_nat (Z.of_nat (j * Z.to_nat BPB) + bi)) in *.
    assert (Z.of_nat b = Z.of_nat (j * Z.to_nat BPB) + bi) as Hbz' by lia. rewrite <- Hbz' in *.
    assert (used sb (content a) b = false) as Hub by (unfold used; by rewrite Hbb, Hbm).
    assert (dstart sb <= b)%nat as Hds.
    { destruct (decide (dstart sb <= b)%nat); [done|]. rewrite (fo_meta _ _ _ _ _ _ _ _ Ho b) in Hub by lia. done. }
    assert (forall j, held a !! j <> Some b) as Hnb.
    { intros j' Hj'. destruct (fo_held _ _ _ _ _ _ _ _ Ho _ _ Hj') as (_ & _ & Hu). congruence. }
    change (<[bbyte bi := u8 (Z.lor (byte_at (content a !!! bb) (bbyte bi)) (bmask bi))]> (content a !!! bb))
      with (set_bit bi (content a !!! bb)).
    rewrite wp_seq3. eapply (F_write _ _ _ _ _ a ks i bb); try done; [lia|unfold set_bit; by rewrite length_insert|].
    intros l2 Ht2. rewrite wp_bind. rewrite !set_fl_set_fl. pose proof (length_logged bb ks).
    eapply (bzero_spec _ (sp_upd bb (set_bit bi (content a !!! bb)) a)); try done; [cbn; lia|].
    intros l3 Ht3. rewrite wp_ret, u32_small by (pose proof Hg as [? ? ? ? ? ? ? ?]; lia). rewrite set_fl_set_fl.
    apply HQ; [done..|]. eapply balloc_fsok; try done. unfold sp_balloc. by rewrite Hbb, Hbm.
  - rewrite wp_bind. eapply (F_brelse _ _ _ _ _ _ ks i bb); [done|cbn; by rewrite lookup_insert_eq| |].
    { exact (txn_settled _ _ _ _ (fl s) a ks bb (fo_txn _ _ _ _ _ _ _ _ Ho) H4). }
    intros l2 Ht2. rewrite sp_release in Ht2 by done. rewrite set_fl_set_fl.
    replace (Z.of_nat (j * Z.to_nat BPB) + BPB) with (Z.of_nat (S j * Z.to_nat BPB)) by lia.
    apply IH; try done.
    + destruct Ho. by constructor.
    + exists fb. split_and!; try done. destruct (decide (S j * Z.to_nat BPB <= fb)%nat); [done|]. exfalso.
      set (bi := Z.of_nat fb - Z.of_nat (j * Z.to_nat BPB)). assert (0 <= bi < BPB) as Hbi by lia.
      destruct (bm_index j bi Hbi) as [Hbb Hbm]. replace (Z.to_nat (Z.of_nat (j * Z.to_nat BPB) + bi)) with fb in * by lia.
      unfold used in Hf3. rewrite Hbb, Hbm in Hf3. fold bb in Hf3. rewrite Hsc in Hf3; [done|lia|lia].
    + lia.
Qed.

(** Some block of the disk is free. *)
Definition has_free a : Prop := exists fb, Z.of_nat fb < sb_size sb /\ used sb (content a) fb = false.

Lemma balloc_spec s a ks Q :
  1 <= q -> fsb s = sb -> fsok q me st sz sb (fl s) a ks -> (size (held a) <= 1)%nat -> (S (S (length ks)) < sz)%nat -> has_free a ->
  (forall b l, Z.of_nat b < sb_size sb -> (dstart sb <= b)%nat -> used sb (content a) b = false ->
     fsok q me st sz sb l (sp_balloc sb b a) (logged b (logged (bm_block sb b) ks)) -> Q (Z.of_nat b) (set_fl l s)) ->
  wp (balloc 1) Q s.
Proof.
  intros Hq Hs Ho Hh Hk (fb & Hf1 & Hf2) HQ. unfold balloc, getsb. rewrite wp_bind, wp_gets, Hs.
  pose proof BPB_pos. change 0 with (Z.of_nat (0 * Z.to_nat BPB)). eapply balloc_loop_spec; try done.
  - exists fb. split_and!; [lia|done|done].
  - assert (0 <= sb_size sb / BPB) by (apply Z.div_pos; [apply Ho|lia]). lia.
Qed.
End alloc.
