(* ===== verification/FsFile.v ===== *)
(** Files as byte arrays: [bmap], [readi], [writei].

    [amap] is the block that holds a block of a file, 0 for a hole, and [fbyte] the
    byte at an offset, 0 in a hole.  [ino_ok] says that the blocks of an inode are
    allocated data blocks, each with one place in one file.  [cost] bounds the blocks a
    transaction has in the log, counting the bitmap block and the indirect block of
    the file as if they were there already: each block of data then adds one. *)

From S2P Require Import Prelude CString Mem Bio BioSpec Log LogSpec LogProps Fs FsSpec.
Import Bio Log Fs.

Implicit Types (a : bspec) (ks : list nat) (l : lst) (c : list (list Z)) (d : list Z) (x : inode) (bn o : nat).

Definition indirect x : Z := default 0 (i_addrs x !! NDIRECT).
Definition amap c x bn : Z :=
  if (bn <? NDIRECT)%nat then default 0 (i_addrs x !! bn)
  else if indirect x =? 0 then 0
  else get32 (c !!! Z.to_nat (indirect x)) (4 * (bn - NDIRECT)).
Definition fbyte c x o : Z :=
  let ad := amap c x (o / BSIZE) in
  if ad =? 0 then 0 else byte_at (c !!! Z.to_nat ad) (o mod BSIZE).

(** [ad] is the number of an allocated data block. *)
Definition dblk (sb : superblock) c (ad : Z) : Prop :=
  Z.of_nat (dstart sb) <= ad < sb_size sb /\ used sb c (Z.to_nat ad) = true.

Record ino_ok (sb : superblock) c x : Prop := {
  io_dev : i_dev x = 1;
  io_len : length (i_addrs x) = S NDIRECT;
  io_ind : indirect x <> 0 -> dblk sb c (indirect x);
  io_blk : forall bn, (bn < MAXFILE)%nat -> amap c x bn <> 0 -> dblk sb c (amap c x bn);
  io_inj : forall bn bn', (bn < MAXFILE)%nat -> (bn' < MAXFILE)%nat -> amap c x bn = amap c x bn' -> amap c x bn <> 0 -> bn = bn';
  io_ne : forall bn, (bn < MAXFILE)%nat -> amap c x bn <> 0 -> amap c x bn <> indirect x
}.

Definition put {D} (ip : nat) (l : lst) x (s : fsst D) : fsst D :=
  mkfsst l (<[ip := x]> (icache s)) (fsb s) (fcwd s) (fdev s).

Section inode.
Context {D : Type}.
Implicit Types s : fsst D.

Lemma wp_get_ip ip x s (Q : inode -> fsst D -> Prop) : icache s !! ip = Some x -> Q x s -> wp (get_ip ip) Q s.
Proof. intros Hx HQ. unfold get_ip. wp_steps. by exists x. Qed.
Lemma wp_set_ip ip f x s (Q : unit -> fsst D -> Prop) :
  icache s !! ip = Some x -> Q tt (put ip (fl s) (f x) s) -> wp (set_ip ip f) Q s.
Proof.
  intros Hx HQ. unfold set_ip. rewrite wp_bind. eapply wp_get_ip; [done|]. rewrite wp_modify.
  by rewrite (list_alter_insert _ _ _ x Hx).
Qed.
Lemma wp_get_addr ip n v x s (Q : Z -> fsst D -> Prop) :
  icache s !! ip = Some x -> i_addrs x !! n = Some v -> Q v s -> wp (get_addr ip n) Q s.
Proof. intros Hx Hv HQ. unfold get_addr. rewrite wp_bind. eapply wp_get_ip; [done|]. wp_steps. by exists v. Qed.

Lemma put_put ip l x l' x' s : put ip l x (put ip l' x' s) = put ip l x s.
Proof. unfold put. cbn. by rewrite list_insert_insert_eq. Qed.
Lemma put_set_fl ip l x l' s : put ip l x (set_fl l' s) = put ip l x s.
Proof. done. Qed.
Lemma set_fl_put ip l x l' s : set_fl l (put ip l' x s) = put ip l x s.
Proof. done. Qed.
Lemma put_id ip l x s : icache s !! ip = Some x -> set_fl l s = put ip l x s.
Proof. intros Hx. unfold set_fl, put. by rewrite list_insert_id. Qed.
Lemma icache_put ip l x s : (ip < length (icache s))%nat -> icache (put ip l x s) !! ip = Some x.
Proof. intros H. cbn. by apply list_lookup_insert_eq. Qed.
End inode.

(** ** The contents of a file under changes of blocks *)

(** A block that is none of the file's. *)
Definition foreign c x (b : nat) : Prop :=
  indirect x <> Z.of_nat b /\ forall bn, (bn < MAXFILE)%nat -> amap c x bn <> Z.of_nat b.

Lemma amap_foreign c x b d bn :
  indirect x <> Z.of_nat b -> (indirect x = 0 \/ 0 < indirect x) -> amap (<[b := d]> c) x bn = amap c x bn.
Proof.
  intros Hi Hp. unfold amap. destruct (bn <? NDIRECT)%nat; [done|]. destruct (Z.eqb_spec (indirect x) 0); [done|].
  rewrite list_lookup_total_insert_ne; [done|]. lia.
Qed.

Section content.
Context (sb : superblock).

(** The blocks of the file keep their contents and stay allocated. *)
Lemma ino_ok_keep c c' x :
  ino_ok sb c x -> (forall bn, (bn < MAXFILE)%nat -> amap c' x bn = amap c x bn) ->
  (forall ad, dblk sb c ad -> dblk sb c' ad) -> ino_ok sb c' x.
Proof.
  intros [Hdev Hlen Hind Hblk Hinj Hne] Hmap Hd. constructor; try done.
  - auto.
  - intros bn Hbn. rewrite Hmap by done. auto.
  - intros bn bn' Hbn Hbn'. rewrite !Hmap by done. auto.
  - intros bn Hbn. rewrite Hmap by done. auto.
Qed.

Lemma fbyte_keep c c' x o :
  (o < MAXFILE * BSIZE)%nat -> (forall bn, (bn < MAXFILE)%nat -> amap c' x bn = amap c x bn) ->
  (forall bn, (bn < MAXFILE)%nat -> amap c x bn <> 0 -> c' !!! Z.to_nat (amap c x bn) = c !!! Z.to_nat (amap c x bn)) ->
  fbyte c' x o = fbyte c x o.
Proof.
  intros Ho Hmap Hc. unfold fbyte. assert (o / BSIZE < MAXFILE)%nat as Hlt.
  { apply Nat.Div0.div_lt_upper_bound. lia. }
  rewrite Hmap by done. destruct (Z.eqb_spec (amap c x (o / BSIZE)) 0); [done|]. by rewrite Hc.
Qed.

(** A data block [b] new to the file put at [bn], which was a hole. *)
Lemma assign c c' x x' b bn :
  ino_ok sb c x -> i_dev x' = 1 -> length (i_addrs x') = S NDIRECT -> indirect x' = indirect x ->
  (bn < MAXFILE)%nat -> amap c x bn = 0 -> foreign c x b -> dblk sb c' (Z.of_nat b) -> c' !!! b = zeros ->
  (forall bn', (bn' < MAXFILE)%nat -> amap c' x' bn' = if decide (bn' = bn) then Z.of_nat b else amap c x bn') ->
  (forall bn', (bn' < MAXFILE)%nat -> amap c x bn' <> 0 -> c' !!! Z.to_nat (amap c x bn') = c !!! Z.to_nat (amap c x bn')) ->
  (forall ad, dblk sb c ad -> dblk sb c' ad) ->
  ino_ok sb c' x' /\ forall o, (o < MAXFILE * BSIZE)%nat -> fbyte c' x' o = fbyte c x o.
Proof.
  intros [Hdev Hlen Hind Hblk Hinj Hne] Hdev' Hlen' Hi' Hbn H0 [Hf1 Hf2] Hdb Hz Hmap Hc Hd. split.
  - constructor; try done; rewrite ?Hi'.
    + auto.
    + intros bn' Hb'. rewrite Hmap by done. case_decide; [done|]. auto.
    + intros b1 b2 H1 H2. rewrite !Hmap by done. repeat case_decide; subst; try done.
      * intros Heq _. by destruct (Hf2 b2 H2).
      * intros Heq _. by destruct (Hf2 b1 H1).
      * auto.
    + intros bn' Hb'. rewrite Hmap by done. case_decide; [congruence|]. auto.
  - intros o Ho. assert (o / BSIZE < MAXFILE)%nat as Hlt by (apply Nat.Div0.div_lt_upper_bound; lia).
    unfold fbyte. rewrite Hmap by done. case_decide as He.
    + rewrite He, H0. destruct (Z.eqb_spec (Z.of_nat b) 0) as [|_]; [done|]. rewrite Nat2Z.id, Hz, Z.eqb_refl.
      unfold byte_at, zeros. rewrite lookup_replicate_2; [done|]. apply Nat.mod_upper_bound. done.
    + destruct (Z.eqb_spec (amap c x (o / BSIZE)) 0); [done|]. by rewrite Hc.
Qed.

Lemma amap_set_direct c x bn v bn' :
  length (i_addrs x) = S NDIRECT -> (bn < NDIRECT)%nat ->
  amap c (set_i_addrs (<[bn := v]> (i_addrs x)) x) bn' = if decide (bn' = bn) then v else amap c x bn'.
Proof.
  intros Hlen Hbn. unfold amap, indirect. cbn [i_addrs set_i_addrs].
  rewrite (list_lookup_insert_ne _ bn NDIRECT) by lia. case_decide as He.
  - subst. destruct (Nat.ltb_spec bn NDIRECT); [|lia]. rewrite list_lookup_insert_eq by lia. done.
  - destruct (Nat.ltb_spec bn' NDIRECT); [|done]. by rewrite list_lookup_insert_ne.
Qed.
Lemma indirect_set_direct x bn v : (bn < NDIRECT)%nat -> indirect (set_i_addrs (<[bn := v]> (i_addrs x)) x) = indirect x.
Proof. intros H. unfold indirect. cbn. rewrite list_lookup_insert_ne by lia. done. Qed.
End content.

(** ** The blocks in the log *)

Definition bmb (sb : superblock) : nat := bm_block sb 0.
Definition cost (sb : superblock) x ks : nat :=
  length ks + (if decide (bmb sb ∈ ks) then 0 else 1) +
    (if decide (indirect x <> 0 /\ Z.to_nat (indirect x) ∈ ks) then 0 else 1).

Section cost.
Context (sb : superblock).

Lemma length_cost x ks : (length ks <= cost sb x ks)%nat.
Proof. unfold cost. lia. Qed.
Lemma cost_logged x b ks : (cost sb x (logged b ks) <= S (cost sb x ks))%nat.
Proof.
  unfold cost. pose proof (length_logged b ks).
  repeat case_decide; try lia; exfalso; rewrite !logged_elem in *; naive_solver.
Qed.
Lemma cost_logged_in x b ks : b ∈ ks -> cost sb x (logged b ks) = cost sb x ks.
Proof. intros Hb. unfold logged. by rewrite decide_True. Qed.
Lemma cost_logged_bm x ks : (cost sb x (logged (bmb sb) ks) <= cost sb x ks)%nat.
Proof.
  unfold cost. pose proof (length_logged (bmb sb) ks). destruct (decide (bmb sb ∈ ks)) as [Hin|Hin].
  - unfold logged. rewrite !decide_True by done. lia.
  - rewrite (decide_True (P := bmb sb ∈ logged (bmb sb) ks)) by (apply logged_elem; by right).
    repeat case_decide; try lia. exfalso. rewrite !logged_elem in *. naive_solver.
Qed.
Lemma cost_logged_ind x i ks : indirect x = Z.of_nat i -> i <> 0%nat -> (cost sb x (logged i ks) <= cost sb x ks)%nat.
Proof.
  intros Hi H0. unfold cost. rewrite Hi, Nat2Z.id. pose proof (length_logged i ks). destruct (decide (i ∈ ks)) as [Hin|Hin].
  - unfold logged. rewrite !(decide_True (P := i ∈ ks)) by done. lia.
  - rewrite (decide_True (P := Z.of_nat i <> 0 /\ i ∈ logged i ks)) by (rewrite logged_elem; lia).
    repeat case_decide; try lia; exfalso; rewrite !logged_elem in *; naive_solver.
Qed.
Lemma cost_ext x x' ks : indirect x' = indirect x -> cost sb x' ks = cost sb x ks.
Proof. intros H. unfold cost. by rewrite H. Qed.
(** The indirect block itself is paid for. *)
Lemma cost_new_ind x x' b ks :
  indirect x = 0 -> indirect x' = Z.of_nat b -> b <> 0%nat ->
  (cost sb x' (logged b (logged (bmb sb) ks)) <= cost sb x ks)%nat.
Proof.
  intros H0 Hb Hnz. unfold cost. rewrite H0, Hb, Nat2Z.id.
  pose proof (length_logged b (logged (bmb sb) ks)). pose proof (length_logged (bmb sb) ks).
  rewrite (decide_True (P := bmb sb ∈ logged b _)) by (rewrite !logged_elem; tauto).
  rewrite (decide_True (P := _ /\ b ∈ _)) by (rewrite !logged_elem; split; [lia|tauto]).
  rewrite (decide_False (P := 0 <> 0 /\ _)) by naive_solver.
  destruct (decide (bmb sb ∈ ks)) as [Hin|Hin]; [|lia].
  assert (length (logged (bmb sb) ks) = length ks) by (unfold logged; by rewrite decide_True). lia.
Qed.
End cost.

(** At least [n] blocks are free. *)
Definition room (sb : superblock) (n : nat) a : Prop :=
  exists fbs, NoDup fbs /\ (n <= length fbs)%nat /\ forall b, b ∈ fbs -> Z.of_nat b < sb_size sb /\ used sb (content a) b = false.

Lemma room_has_free sb n a : room sb (S n) a -> has_free sb a.
Proof. intros (fbs & _ & Hlen & Hf). destruct fbs as [|b fbs]; [cbn in Hlen; lia|]. exists b. apply Hf. left. Qed.

Lemma room_mono sb n a a' b :
  room sb (S n) a -> (forall b', Z.of_nat b' < sb_size sb -> b' <> b -> used sb (content a') b' = used sb (content a) b') ->
  room sb n a'.
Proof.
  intros (fbs & Hnd & Hlen & Hf) Hu. exists (List.filter (fun k => negb (bool_decide (k = b))) fbs). split_and!.
  - by apply NoDup_ListNoDup, List.NoDup_filter, NoDup_ListNoDup.
  - clear Hf Hu. assert (length (List.filter (fun k => bool_decide (k = b)) fbs) <= 1)%nat as H1.
    { clear Hlen. induction Hnd as [|k fbs Hk Hnd IH]; cbn; [lia|]. case_bool_decide as He; [|lia]. subst. cbn.
      replace (List.filter _ fbs) with (@nil nat); [cbn; lia|]. symmetry. clear IH Hnd.
      induction fbs as [|j fbs IH]; cbn; [done|]. rewrite bool_decide_eq_false_2 by set_solver. apply IH. set_solver. }
    pose proof (List.filter_length (fun k => bool_decide (k = b)) fbs). lia.
  - intros k Hk. apply list_elem_of_In, filter_In in Hk as [Hk He]. apply negb_true_iff, bool_decide_eq_false in He.
    destruct (Hf k) as [H1 H2]; [by apply list_elem_of_In|]. split; [done|]. by rewrite Hu.
Qed.

Section bmap.
Context {D : Type} (q me : Z) (st sz : nat) (sb : superblock) (Hone : sb_size sb <= BPB).
Implicit Types s : fsst D.
Abbreviation ok := (fsok q me st sz sb).

Lemma one_bm b : Z.of_nat b < sb_size sb -> bm_block sb b = bmb sb.
Proof. intros Hb. unfold bmb, bm_block. rewrite Z.div_small by lia. by rewrite Z.div_small by (pose proof BPB_pos; lia). Qed.

Lemma ok_dstart l a ks : ok l a ks -> (1 < dstart sb)%nat /\ Z.of_nat (dstart sb) <= sb_size sb /\ (dstart sb <= length (disk a))%nat.
Proof.
  intros Ho. destruct (fo_geo _ _ _ _ _ _ _ _ Ho) as [? ? ? ? ? ? ? ?]. pose proof BPB_pos.
  assert (0 <= sb_ninodes sb / IPB) by (apply Z.div_pos; [lia|done]).
  assert (0 <= sb_size sb / BPB) by (apply Z.div_pos; lia). unfold dstart. lia.
Qed.

Lemma ok_dblk l a ks ad : ok l a ks -> dblk sb (content a) ad ->
  exists b, ad = Z.of_nat b /\ Z.to_nat ad = b /\ b <> 0%nat /\ (dstart sb <= b)%nat /\ (b < length (disk a))%nat /\ Z.of_nat b < sb_size sb /\
    outside st sz b /\ b <> 1%nat /\ b <> bmb sb /\ content a !! b = Some (content a !!! b) /\ length (content a !!! b) = BSIZE.
Proof.
  intros Ho [H1 H2]. pose proof (fo_geo _ _ _ _ _ _ _ _ Ho) as Hg. destruct (ok_dstart _ _ _ Ho) as (Hd1 & Hd2 & _).
  assert (Z.of_nat 0 < sb_size sb) as Hz by lia. destruct (geo_bm _ _ _ _ Hg 0 Hz) as (_ & Hbm & _).
  destruct (geo_data _ _ _ _ Hg (Z.to_nat ad)) as [Ho1 Ho2]; [lia|]. pose proof (g_size _ _ _ _ Hg).
  destruct (txn_block _ _ _ _ _ _ _ (Z.to_nat ad) (fo_txn _ _ _ _ _ _ _ _ Ho)) as [Hc1 Hc2]; [lia|].
  exists (Z.to_nat ad). unfold bmb. split_and!; try done; lia.
Qed.

(** What allocating a block leaves alone. *)
Lemma balloc_keep l a ks b :
  ok l a ks -> Z.of_nat b < sb_size sb -> (dstart sb <= b)%nat -> used sb (content a) b = false ->
  let c := content a in let c' := content (sp_balloc sb b a) in
  c' !!! b = zeros /\ dblk sb c' (Z.of_nat b) /\
  (forall ad, dblk sb c ad -> dblk sb c' ad /\ c' !!! Z.to_nat ad = c !!! Z.to_nat ad /\ ad <> Z.of_nat b) /\
  (forall n, room sb (S n) a -> room sb n (sp_balloc sb b a)) /\ length c' = length c /\
  (forall b', (b' < dstart sb)%nat -> b' <> bmb sb -> c' !!! b' = c !!! b').
Proof.
  intros Ho Hb Hd Hu c c'. pose proof (fo_geo _ _ _ _ _ _ _ _ Ho) as Hg. destruct (geo_bm _ _ _ _ Hg b Hb) as (_ & Hbm & _).
  pose proof (br_size _ _ _ (txn_brep _ _ _ _ _ _ _ (fo_txn _ _ _ _ _ _ _ _ Ho))) as Hlen. pose proof (g_size _ _ _ _ Hg).
  assert (forall b', Z.of_nat b' < sb_size sb -> used sb c' b' = bool_decide (b = b') || used sb c b') as Hused
    by (intros b' Hb'; by eapply used_balloc).
  split_and!.
  - unfold c'. cbn. rewrite list_lookup_total_insert_eq; [done|]. rewrite length_insert. lia.
  - split; [lia|]. rewrite Nat2Z.id, Hused by done. by rewrite bool_decide_eq_true_2.
  - intros ad [H1 H2]. assert (ad <> Z.of_nat b) as Hne.
    { intros ->. rewrite Nat2Z.id in H2. unfold c in H2. congruence. }
    split_and!; [| |done].
    + split; [done|]. rewrite Hused by lia. rewrite H2. apply orb_true_r.
    + unfold c'. cbn. by rewrite !list_lookup_total_insert_ne by lia.
  - intros n Hr. eapply (room_mono _ _ _ _ b Hr). intros b' Hb' Hne. fold c'. rewrite Hused by done.
    by rewrite bool_decide_eq_false_2.
  - unfold c'. cbn. by rewrite !length_insert.
  - intros b' Hb' Hne. unfold c'. cbn. rewrite one_bm by done. by rewrite !list_lookup_total_insert_ne by lia.
Qed.

(** What [bmap] promises: [addr] holds block [bn], the file reads the same, and the
    other allocated blocks are untouched; [r] free blocks are enough. *)
Record bmapped (r : nat) x a ks bn (addr : nat) x' a' ks' : Prop := {
  bm_x : x' = set_i_addrs (i_addrs x') x;
  bm_ino : ino_ok sb (content a') x';
  bm_at : amap (content a') x' bn = Z.of_nat addr;
  bm_nz : addr <> 0%nat;
  bm_fbyte : forall o, (o < MAXFILE * BSIZE)%nat -> fbyte (content a') x' o = fbyte (content a) x o;
  bm_held : held a' = held a;
  bm_disk : disk a' = disk a;
  bm_cost : (cost sb x' (logged addr ks') <= S (cost sb x ks))%nat;
  bm_len : (cost sb x' ks' <= S (cost sb x ks))%nat;
  bm_room : forall n, room sb (r + n) a -> room sb n a';
  bm_frame : forall ad, dblk sb (content a) ad -> dblk sb (content a') ad /\
    (ad <> indirect x -> content a' !!! Z.to_nat ad = content a !!! Z.to_nat ad);
  bm_map : forall bn', (bn' < MAXFILE)%nat -> bn' <> bn -> amap (content a') x' bn' = amap (content a) x bn';
  bm_new : forall b, dblk sb (content a) (Z.of_nat b) -> foreign (content a) x b -> foreign (content a') x' b;
  bm_low : forall b, (b < dstart sb)%nat -> b <> bmb sb -> content a' !!! b = content a !!! b
}.

Lemma room_weaken n n' a : (n' <= n)%nat -> room sb n a -> room sb n' a.
Proof. intros Hn (fbs & ? & ? & ?). exists fbs. split_and!; try done. lia. Qed.

Lemma bmapped_refl r x a ks bn addr :
  ino_ok sb (content a) x -> amap (content a) x bn = Z.of_nat addr -> addr <> 0%nat -> bmapped r x a ks bn addr x a ks.
Proof.
  intros Hi Ha Hz. constructor; try done.
  - by destruct x.
  - apply cost_logged.
  - lia.
  - intros n. apply room_weaken. lia.
Qed.

(** A hole among the direct blocks is filled. *)
Lemma bmapped_direct l x a ks bn b :
  ok l a ks -> ino_ok sb (content a) x -> (bn < NDIRECT)%nat -> amap (content a) x bn = 0 ->
  Z.of_nat b < sb_size sb -> (dstart sb <= b)%nat -> used sb (content a) b = false ->
  bmapped 1 x a ks bn b (set_i_addrs (<[bn := Z.of_nat b]> (i_addrs x)) x) (sp_balloc sb b a) (logged b (logged (bm_block sb b) ks)).
Proof.
  intros Ho Hi Hbn H0 Hb Hd Hu. destruct (balloc_keep _ _ _ _ Ho Hb Hd Hu) as (Hz & Hdb & Hk & Hr & Hlen & Hlow).
  destruct (ok_dstart _ _ _ Ho) as (Hd1 & _).
  assert (forall bn', (bn' < MAXFILE)%nat -> amap (content (sp_balloc sb b a)) x bn' = amap (content a) x bn') as Hmap.
  { intros bn' Hb'. unfold amap. destruct (bn' <? NDIRECT)%nat; [done|]. destruct (Z.eqb_spec (indirect x) 0) as [|Hin]; [done|].
    destruct (Hk _ (io_ind _ _ _ Hi Hin)) as (_ & -> & _). done. }
  assert (foreign (content a) x b) as Hf.
  { split.
    - destruct (decide (indirect x = 0)) as [->|Hin]; [lia|]. by destruct (Hk _ (io_ind _ _ _ Hi Hin)) as (_ & _ & ?).
    - intros bn' Hb'. destruct (decide (amap (content a) x bn' = 0)) as [->|Hin]; [lia|].
      by destruct (Hk _ (io_blk _ _ _ Hi bn' Hb' Hin)) as (_ & _ & ?). }
  assert (bn < MAXFILE)%nat as Hbm by (unfold MAXFILE; lia).
  assert (MAXFILE > 0)%nat by (unfold MAXFILE, NDIRECT; lia).
  destruct (assign sb (content a) (content (sp_balloc sb b a)) x (set_i_addrs (<[bn := Z.of_nat b]> (i_addrs x)) x) b bn) as [Hi' Hfb];
    try done.
  { apply Hi. }
  { cbn. rewrite length_insert. apply Hi. }
  { by apply indirect_set_direct. }
  { intros bn' Hb'. rewrite amap_set_direct by (try done; apply Hi). case_decide; [done|]. by apply Hmap. }
  { intros bn' Hb' Hnz. by apply Hk, (io_blk _ _ _ Hi). }
  { intros ad Had. by apply Hk. }
  assert (cost sb (set_i_addrs (<[bn := Z.of_nat b]> (i_addrs x)) x) (logged b (logged (bm_block sb b) ks)) <= S (cost sb x ks))%nat as Hcost.
  { rewrite one_bm by done. rewrite (cost_ext _ x) by (by apply indirect_set_direct).
    pose proof (cost_logged sb x b (logged (bmb sb) ks)). pose proof (cost_logged_bm sb x ks). lia. }
  constructor; try done.
  - rewrite amap_set_direct by (try done; apply Hi). by rewrite decide_True.
  - lia.
  - rewrite cost_logged_in; [done|]. apply logged_elem. by right.
  - intros ad Had. destruct (Hk ad Had) as (? & ? & _). done.
  - intros bn' Hb' Hne. rewrite amap_set_direct by (try done; apply Hi). rewrite decide_False by done. by apply Hmap.
  - intros b' Hb' [Hf1 Hf2]. destruct (Hk _ Hb') as (_ & _ & Hne). split; [by rewrite indirect_set_direct|].
    intros bn' Hbn'. rewrite amap_set_direct by (try done; apply Hi). case_decide; [done|]. rewrite Hmap by done. by apply Hf2.
Qed.

(** The indirect block allocated: the file does not change. *)
Record ind_made x a ks x' a' ks' : Prop := {
  im_x : x' = set_i_addrs (i_addrs x') x;
  im_ino : ino_ok sb (content a') x';
  im_ind : indirect x' <> 0;
  im_map : forall bn, (bn < MAXFILE)%nat -> amap (content a') x' bn = amap (content a) x bn;
  im_fbyte : forall o, (o < MAXFILE * BSIZE)%nat -> fbyte (content a') x' o = fbyte (content a) x o;
  im_held : held a' = held a;
  im_disk : disk a' = disk a;
  im_cost : (cost sb x' ks' <= cost sb x ks)%nat;
  im_room : forall n, room sb (S n) a -> room sb n a';
  im_frame : forall ad, dblk sb (content a) ad -> dblk sb (content a') ad /\
    (ad <> indirect x -> ad <> indirect x' /\ content a' !!! Z.to_nat ad = content a !!! Z.to_nat ad);
  im_low : forall b, (b < dstart sb)%nat -> b <> bmb sb -> content a' !!! b = content a !!! b
}.

Lemma ind_made_refl x a ks : ino_ok sb (content a) x -> indirect x <> 0 -> ind_made x a ks x a ks.
Proof.
  intros Hi Hn. constructor; try done.
  - by destruct x.
  - intros n. apply room_weaken. lia.
Qed.

Lemma get32_zeros o : get32 zeros o = 0.
Proof.
  assert (forall i, byte_at zeros i = 0) as Hz.
  { intros i. unfold byte_at, zeros. destruct (replicate BSIZE 0 !! i) as [v|] eqn:E; [|done]. by apply lookup_replicate in E as [-> _]. }
  unfold get32. by rewrite !Hz.
Qed.

Lemma ind_made_new l x a ks b :
  ok l a ks -> ino_ok sb (content a) x -> indirect x = 0 ->
  Z.of_nat b < sb_size sb -> (dstart sb <= b)%nat -> used sb (content a) b = false ->
  ind_made x a ks (set_i_addrs (<[NDIRECT := Z.of_nat b]> (i_addrs x)) x) (sp_balloc sb b a) (logged b (logged (bm_block sb b) ks)).
Proof.
  intros Ho Hi H0 Hb Hd Hu. destruct (balloc_keep _ _ _ _ Ho Hb Hd Hu) as (Hz & Hdb & Hk & Hr & Hlen & Hlow).
  destruct (ok_dstart _ _ _ Ho) as (Hd1 & _). set (x' := set_i_addrs _ x).
  assert (indirect x' = Z.of_nat b) as Hix.
  { unfold indirect, x'. cbn. rewrite list_lookup_insert_eq; [done|]. rewrite (io_len _ _ _ Hi). lia. }
  assert (forall bn, (bn < MAXFILE)%nat -> amap (content (sp_balloc sb b a)) x' bn = amap (content a) x bn) as Hmap.
  { intros bn Hbn. unfold amap. rewrite Hix, H0, Z.eqb_refl. destruct (Nat.ltb_spec bn NDIRECT).
    - unfold x'. cbn [i_addrs set_i_addrs]. by rewrite list_lookup_insert_ne by lia.
    - destruct (Z.eqb_spec (Z.of_nat b) 0); [done|]. rewrite Nat2Z.id, Hz. apply get32_zeros. }
  assert (forall bn, (bn < MAXFILE)%nat -> amap (content a) x bn <> 0 ->
    dblk sb (content (sp_balloc sb b a)) (amap (content a) x bn) /\ amap (content a) x bn <> Z.of_nat b /\
    content (sp_balloc sb b a) !!! Z.to_nat (amap (content a) x bn) = content a !!! Z.to_nat (amap (content a) x bn)) as Hb'.
  { intros bn Hbn Hnz. destruct (Hk _ (io_blk _ _ _ Hi bn Hbn Hnz)) as (? & ? & ?). done. }
  constructor; try done.
  - constructor; rewrite ?Hix; try done.
    + apply Hi.
    + unfold x'. cbn. rewrite length_insert. apply Hi.
    + intros bn Hbn. rewrite Hmap by done. intros Hnz. by apply Hb'.
    + intros bn bn' H1 H2. rewrite !Hmap by done. by apply (io_inj _ _ _ Hi).
    + intros bn Hbn. rewrite Hmap by done. intros Hnz. by apply Hb'.
  - lia.
  - intros o Ho'. unfold fbyte. assert (o / BSIZE < MAXFILE)%nat as Hlt by (apply Nat.Div0.div_lt_upper_bound; lia).
    rewrite Hmap by done. destruct (Z.eqb_spec (amap (content a) x (o / BSIZE)) 0); [done|].
    destruct (Hb' _ Hlt) as (_ & _ & ->); done.
  - rewrite one_bm by done. apply cost_new_ind; [done|done|lia].
  - intros ad Had. destruct (Hk ad Had) as (? & ? & ?). split; [done|]. rewrite Hix. done.
Qed.

Lemma get32_put32_at (k k' : nat) v d :
  length d = BSIZE -> (k < NINDIRECT)%nat -> (k' < NINDIRECT)%nat -> 0 <= v < 2 ^ 32 ->
  get32 (put32 (4 * k) v d) (4 * k') = if decide (k' = k) then v else get32 d (4 * k').
Proof.
  intros Hd Hk Hk' Hv. assert (NINDIRECT = 128%nat) as HN by done. assert (BSIZE = 512%nat) as HB by done. case_decide as He.
  - subst. rewrite get32_put32 by lia. by apply u32_small.
  - apply get32_put32_ne; lia.
Qed.

Lemma dblk_upd n c i d ad :
  geo st sz sb n -> (dstart sb <= i)%nat -> dblk sb c ad -> dblk sb (<[i := d]> c) ad.
Proof. intros Hg Hi [H1 H2]. split; [done|]. rewrite (used_data st sz sb n) by (try done; lia). done. Qed.

(** A hole behind the indirect block is filled. *)
Lemma bmapped_entry l x a ks bn i b :
  ok l a ks -> ino_ok sb (content a) x -> indirect x = Z.of_nat i -> i <> 0%nat ->
  (NDIRECT <= bn < MAXFILE)%nat -> amap (content a) x bn = 0 ->
  Z.of_nat b < sb_size sb -> (dstart sb <= b)%nat -> used sb (content a) b = false ->
  bmapped 1 x a ks bn b x
    (sp_upd i (put32 (4 * (bn - NDIRECT)) (Z.of_nat b) (content (sp_balloc sb b a) !!! i)) (sp_balloc sb b a))
    (logged i (logged b (logged (bm_block sb b) ks))).
Proof.
  intros Ho Hi Hix Hnz Hbn H0 Hb Hd Hu. destruct (balloc_keep _ _ _ _ Ho Hb Hd Hu) as (Hz & Hdb & Hk & Hr & Hlen & Hlow).
  pose proof (fo_geo _ _ _ _ _ _ _ _ Ho) as Hg. destruct (ok_dstart _ _ _ Ho) as (Hd1 & _).
  assert (dblk sb (content a) (Z.of_nat i)) as Hdi by (rewrite <- Hix; apply (io_ind _ _ _ Hi); lia).
  destruct (ok_dblk _ _ _ _ Ho Hdi) as (i' & Hi' & _ & _ & Hids & Hil & _ & _ & _ & _ & _ & Hcl).
  assert (i' = i) as -> by lia. destruct (Hk _ Hdi) as (_ & Hci & Hib). rewrite Nat2Z.id in Hci.
  set (c1 := content (sp_balloc sb b a)) in *. rewrite Hci.
  set (c2 := <[i := put32 (4 * (bn - NDIRECT)) (Z.of_nat b) (content a !!! i)]> c1).
  assert (i < length c1)%nat as Hi1.
  { rewrite Hlen, (br_size _ _ _ (txn_brep _ _ _ _ _ _ _ (fo_txn _ _ _ _ _ _ _ _ Ho))). done. }
  assert (forall ad, dblk sb c1 ad -> dblk sb c2 ad) as Hd2 by (intros ad; by eapply dblk_upd).
  assert (MAXFILE = 140%nat /\ NDIRECT = 12%nat /\ NINDIRECT = 128%nat) as (HM & HN & HI) by done.
  assert (forall bn', (bn' < MAXFILE)%nat -> amap c2 x bn' = if decide (bn' = bn) then Z.of_nat b else amap (content a) x bn') as Hmap.
  { intros bn' Hb'. unfold amap. rewrite Hix. destruct (Nat.ltb_spec bn' NDIRECT); [case_decide; [lia|done]|].
    destruct (Z.eqb_spec (Z.of_nat i) 0); [lia|]. rewrite Nat2Z.id. unfold c2. rewrite list_lookup_total_insert_eq by done.
    rewrite get32_put32_at; [|done|lia|lia|destruct Hg; lia]. repeat case_decide; try done; lia. }
  assert (forall bn', (bn' < MAXFILE)%nat -> amap (content a) x bn' <> 0 ->
    amap (content a) x bn' <> Z.of_nat b /\ c2 !!! Z.to_nat (amap (content a) x bn') = content a !!! Z.to_nat (amap (content a) x bn')) as Hkeep.
  { intros bn' Hb' Hn'. pose proof (io_blk _ _ _ Hi bn' Hb' Hn') as Hdbk. destruct (Hk _ Hdbk) as (_ & He & Hne). split; [done|].
    pose proof (io_ne _ _ _ Hi bn' Hb' Hn') as Hni. rewrite Hix in Hni. destruct Hdbk as [? _].
    unfold c2. rewrite list_lookup_total_insert_ne by lia. done. }
  destruct (assign sb (content a) c2 x x b bn) as [Hi2 Hfb]; try done; try apply Hi.
  { lia. }
  { split; [congruence|]. intros bn' Hb' He. destruct (decide (amap (content a) x bn' = 0)) as [E|E]; [lia|].
    by destruct (Hkeep bn' Hb' E). }
  { by apply Hd2. }
  { unfold c2. rewrite list_lookup_total_insert_ne by lia. done. }
  { intros bn' Hb' Hn'. by apply Hkeep. }
  { intros ad Had. apply Hd2. by apply Hk. }
  assert (cost sb x (logged i (logged b (logged (bm_block sb b) ks))) <= S (cost sb x ks))%nat as Hcost.
  { rewrite one_bm by done. pose proof (cost_logged_ind sb x i (logged b (logged (bmb sb) ks)) Hix Hnz).
    pose proof (cost_logged sb x b (logged (bmb sb) ks)). pose proof (cost_logged_bm sb x ks). lia. }
  constructor; try done.
  - by destruct x.
  - rewrite Hmap by lia. by rewrite decide_True.
  - lia.
  - rewrite cost_logged_in; [done|]. rewrite !logged_elem. tauto.
  - intros n Hn. apply Hr in Hn as (fbs & ? & ? & Hfr). exists fbs. split_and!; try done. intros b' Hb'.
    destruct (Hfr b' Hb'). split; [done|]. cbn [sp_upd content]. fold c1 c2. unfold c2. rewrite (used_data st sz sb (length (disk a))) by done. done.
  - intros ad Had. destruct (Hk ad Had) as (? & He & _). split; [by apply Hd2|]. rewrite Hix. intros Hne.
    destruct Had as [? _]. cbn [sp_upd content]. fold c1 c2. unfold c2. rewrite list_lookup_total_insert_ne by lia. done.
  - intros bn' Hb' Hne. cbn [sp_upd content]. fold c1 c2. rewrite Hmap by done. by rewrite decide_False.
  - intros b' Hb' [Hf1 Hf2]. destruct (Hk _ Hb') as (_ & _ & Hne). split; [done|]. cbn [sp_upd content]. fold c1 c2.
    intros bn' Hbn'. rewrite Hmap by done. case_decide; [done|]. by apply Hf2.
  - intros b' Hb' Hne. cbn [sp_upd content]. rewrite list_lookup_total_insert_ne by lia. by apply Hlow.
Qed.

Lemma bmapped_trans r x a ks x1 a1 ks1 bn addr x2 a2 ks2 :
  ind_made x a ks x1 a1 ks1 -> bmapped r x1 a1 ks1 bn addr x2 a2 ks2 -> bmapped (S r) x a ks bn addr x2 a2 ks2.
Proof.
  intros [] []. constructor; try done; try congruence; try lia.
  - etransitivity; [exact bm_x0|]. rewrite im_x0 at 1. done.
  - intros o Ho. rewrite bm_fbyte0, im_fbyte0; done.
  - intros n Hn. apply bm_room0, im_room0, Hn.
  - intros ad Had. destruct (im_frame0 ad Had) as [H1 H2]. destruct (bm_frame0 ad H1) as [H3 H4]. split; [done|].
    intros Hne. destruct (H2 Hne) as [H5 H6]. by rewrite H4, H6.
  - intros bn' Hb' Hne. by rewrite bm_map0, im_map0.
  - intros b Hb [Hf1 Hf2]. destruct (im_frame0 _ Hb) as [H1 H2]. apply bm_new0; [done|]. split.
    + destruct H2; [|done]. congruence.
    + intros bn' Hb'. rewrite im_map0 by done. by apply Hf2.
  - intros b Hb Hne. by rewrite bm_low0, im_low0.
Qed.

Lemma ok_release l l' a ks i b : ok l a ks -> held a !! i = None -> txn q me st sz l' (sp_brelse i (sp_bread i b a)) ks -> ok l' a ks.
Proof. intros [Ht Hg Hm Hh] Hi Ht'. rewrite sp_release in Ht' by done. by constructor. Qed.

Lemma ok_hold l l' a ks i b :
  ok l a ks -> dblk sb (content a) (Z.of_nat b) -> txn q me st sz l' (sp_bread i b a) ks -> ok l' (sp_bread i b a) ks.
Proof.
  intros [Ht Hg Hm Hh] [Hb1 Hb2] Ht'. constructor; try done. intros j b' Hj. cbn in Hj. rewrite Nat2Z.id in Hb2.
  apply lookup_insert_Some in Hj as [[_ <-]|[_ Hj]]; [split_and!; [lia|lia|done]|by apply (Hh j)].
Qed.

(** A data block that was held is changed and released. *)
Lemma ok_upd l l' a ks ks' j i d :
  ok l (sp_bread j i a) ks -> held a !! j = None -> (dstart sb <= i)%nat ->
  txn q me st sz l' (sp_upd i d a) ks' -> ok l' (sp_upd i d a) ks'.
Proof.
  intros [Ht Hg Hm Hh] Hj Hi Ht'. cbn [disk content sp_bread held] in *.
  constructor; [done|done|..]; cbn [content sp_upd held].
  - intros b Hb. rewrite (used_data st sz sb (length (disk a))); [by apply Hm|done|done|].
    destruct Hg. pose proof BPB_pos. assert (0 <= sb_ninodes sb / IPB) by (apply Z.div_pos; [lia|done]).
    assert (0 <= sb_size sb / BPB) by (apply Z.div_pos; lia). unfold dstart in *. lia.
  - intros j' b Hj'. destruct (Hh j' b) as (H1 & H2 & H3).
    { rewrite lookup_insert_ne; [done|]. intros <-. congruence. }
    split_and!; [done|done|]. by rewrite (used_data st sz sb (length (disk a))).
Qed.

Lemma bmap_direct s a ks ip x bn Q :
  icache s !! ip = Some x -> fsb s = sb -> ok (fl s) a ks -> ino_ok sb (content a) x -> (bn < NDIRECT)%nat ->
  held a = ∅ -> (cost sb x ks + 2 < sz)%nat -> (amap (content a) x bn = 0 -> 1 <= q /\ room sb 1 a) ->
  (forall r addr x' a' ks' l, (r <= 2)%nat -> ok l a' ks' -> bmapped r x a ks bn addr x' a' ks' ->
     (amap (content a) x bn <> 0 -> x' = x /\ a' = a /\ ks' = ks) -> Q (Z.of_nat addr) (put ip l x' s)) ->
  wp (bmap ip (Z.of_nat bn)) Q s.
Proof.
  intros Hx Hs Ho Hi Hbn Hh Hc Hr HQ. pose proof (lookup_lt_Some _ _ _ Hx) as Hip. pose proof (length_cost sb x ks).
  unfold bmap. rewrite wp_bind. eapply wp_get_ip; [done|]. destruct (Z.of_nat bn <? Z.of_nat NDIRECT) eqn:E; zb; [|lia].
  rewrite Nat2Z.id. destruct (lookup_lt_is_Some_2 (i_addrs x) bn) as [v Hv]; [rewrite (io_len _ _ _ Hi); lia|].
  rewrite wp_bind. eapply wp_get_addr; [done|done|].
  assert (amap (content a) x bn = v) as Ham.
  { unfold amap. destruct (Nat.ltb_spec bn NDIRECT); [|lia]. by rewrite Hv. }
  destruct (Z.eqb_spec v 0) as [Hz|Hz].
  - destruct (Hr ltac:(congruence)) as [Hq Hr']. rewrite (io_dev _ _ _ Hi), wp_bind. eapply (balloc_spec q me st sz sb); try done; [rewrite Hh, map_size_empty; lia|lia|by eapply room_has_free|].
    intros b l Hb1 Hb2 Hb3 Ho'. unfold set_addr. rewrite wp_bind. eapply wp_set_ip; [done|]. rewrite wp_ret.
    change (put ip (fl (set_fl l s)) ?y (set_fl l s)) with (put ip l y s).
    eapply (HQ 1%nat); [lia|exact Ho'|..]. 2: congruence. eapply bmapped_direct; try done. by rewrite Ham.
  - rewrite wp_ret. assert (dblk sb (content a) v) as Hdv.
    { rewrite <- Ham. apply (io_blk _ _ _ Hi); [unfold MAXFILE; lia|by rewrite Ham]. }
    destruct (ok_dblk _ _ _ _ Ho Hdv) as (b & -> & _ & Hbz & _).
    rewrite <- (set_fl_id s), (put_id ip _ x) by done. eapply (HQ 0%nat); [lia|exact Ho|by apply bmapped_refl|done].
Qed.

(** The first half of the indirect case: the indirect block is there. *)
Lemma bmap_ind s a ks ip x (k : Z -> M (fsst D) Z) Q :
  icache s !! ip = Some x -> fsb s = sb -> ok (fl s) a ks -> ino_ok sb (content a) x ->
  held a = ∅ -> (cost sb x ks + 2 < sz)%nat -> (indirect x = 0 -> 1 <= q /\ room sb 1 a) ->
  (forall x' a' ks' l, ok l a' ks' -> ind_made x a ks x' a' ks' ->
     (indirect x <> 0 -> x' = x /\ a' = a /\ ks' = ks) -> wp (k (indirect x')) Q (put ip l x' s)) ->
  wp (let! addr := get_addr ip NDIRECT in
      let! addr := (if addr =? 0 then
                      let! addr := balloc (i_dev x) in
                      do! set_addr ip NDIRECT addr;
                      ret addr
                    else ret addr) in k addr) Q s.
Proof.
  intros Hx Hs Ho Hi Hh Hc Hr HQ. pose proof (length_cost sb x ks).
  destruct (lookup_lt_is_Some_2 (i_addrs x) NDIRECT) as [v Hv]; [rewrite (io_len _ _ _ Hi); lia|].
  assert (indirect x = v) as Hiv by (unfold indirect; by rewrite Hv).
  rewrite wp_bind. eapply wp_get_addr; [done|done|]. rewrite wp_bind. destruct (Z.eqb_spec v 0) as [Hz|Hz].
  - destruct (Hr ltac:(congruence)) as [Hq Hr']. rewrite (io_dev _ _ _ Hi), wp_bind. eapply (balloc_spec q me st sz sb); try done; [rewrite Hh, map_size_empty; lia|lia|by eapply room_has_free|].
    intros b l Hb1 Hb2 Hb3 Ho'. unfold set_addr. rewrite wp_bind. eapply wp_set_ip; [done|]. rewrite wp_ret.
    change (put ip (fl (set_fl l s)) ?y (set_fl l s)) with (put ip l y s).
    assert (indirect (set_i_addrs (<[NDIRECT := Z.of_nat b]> (i_addrs x)) x) = Z.of_nat b) as Hib.
    { unfold indirect. cbn. rewrite list_lookup_insert_eq; [done|]. rewrite (io_len _ _ _ Hi). lia. }
    rewrite <- Hib at 1. eapply HQ; [exact Ho'| |congruence]. eapply ind_made_new; try done. by rewrite Hiv.
  - rewrite wp_ret, <- Hiv. rewrite <- (set_fl_id s), (put_id ip _ x) by done. eapply HQ; [exact Ho| |done].
    apply ind_made_refl; [done|]. by rewrite Hiv.
Qed.

(** The second half: the entry of the indirect block. *)
Lemma bmap_entry s a ks ip x bn Q :
  icache s !! ip = Some x -> fsb s = sb -> ok (fl s) a ks -> ino_ok sb (content a) x -> indirect x <> 0 ->
  (NDIRECT <= bn < MAXFILE)%nat -> held a = ∅ -> (cost sb x ks + 2 < sz)%nat ->
  (amap (content a) x bn = 0 -> 1 <= q /\ room sb 1 a) ->
  (forall addr a' ks' l, ok l a' ks' -> bmapped 1 x a ks bn addr x a' ks' ->
     (amap (content a) x bn <> 0 -> a' = a /\ ks' = ks) -> Q (Z.of_nat addr) (set_fl l s)) ->
  wp (let! bp := on_bio (bread (i_dev x) (indirect x)) in
      let! d := on_bio (bdata bp) in
      let addr := get32 d (4 * (bn - NDIRECT)) in
      let! addr := (if addr =? 0 then
                      let! addr := balloc (i_dev x) in
                      let! d := on_bio (bdata bp) in
                      do! on_bio (set_bdata bp (put32 (4 * (bn - NDIRECT)) addr d));
                      do! on_log (log_write bp);
                      ret addr
                    else ret addr) in
      do! on_bio (brelse bp);
      ret addr) Q s.
Proof.
  intros Hx Hs Ho Hi Hnz Hbn Hh Hc Hr HQ. pose proof (length_cost sb x ks).
  destruct (ok_dblk _ _ _ _ Ho (io_ind _ _ _ Hi Hnz)) as (i & Hix & _ & Hi0 & Hids & Hil & His & Hout & Hone1 & Hbm & Hic & Hicl).
  assert (dblk sb (content a) (Z.of_nat i)) as Hdi by (rewrite <- Hix; by apply (io_ind _ _ _ Hi)).
  rewrite (io_dev _ _ _ Hi), Hix, wp_bind. eapply (F_bread q me st sz s a ks i); try done; [apply Ho|intros j; by rewrite Hh, lookup_empty|rewrite Hh, map_size_empty; lia|lia|].
  intros j l1 Hj Ht1. pose proof (ok_hold _ _ _ _ _ _ Ho Hdi Ht1) as Ho1.
  assert (held (sp_bread j i a) !! j = Some i) as Hji by (cbn; by rewrite lookup_insert_eq).
  rewrite wp_bind. eapply (F_data q me st sz _ _ ks j i); [done|done|]. cbn [content sp_bread]. cbn zeta.
  assert (amap (content a) x bn = get32 (content a !!! i) (4 * (bn - NDIRECT))) as Ham.
  { unfold amap. destruct (Nat.ltb_spec bn NDIRECT); [lia|]. rewrite Hix. destruct (Z.eqb_spec (Z.of_nat i) 0); [lia|]. by rewrite Nat2Z.id. }
  rewrite wp_bind. rewrite <- Ham. destruct (Z.eqb_spec (amap (content a) x bn) 0) as [Hz|Hz].
  - destruct (Hr Hz) as [Hq Hr']. rewrite wp_bind. eapply (balloc_spec q me st sz sb); try done; [cbn; rewrite Hh, map_size_insert_None, map_size_empty by done; lia|lia|by eapply room_has_free|].
    intros b l2 Hb1 Hb2 Hb3 Ho2. change (sp_balloc sb b (sp_bread j i a)) with (sp_bread j i (sp_balloc sb b a)) in Ho2.
    rewrite wp_bind. eapply (F_data q me st sz _ _ _ j i); [apply Ho2|done|]. cbn [content sp_bread].
    destruct (balloc_keep _ _ _ _ Ho Hb1 Hb2 Hb3) as (_ & _ & Hk & _). destruct (Hk _ Hdi) as (_ & Hci & _). rewrite Nat2Z.id in Hci.
    rewrite wp_bind. eapply (F_store q me st sz _ _ _ j i); [apply Ho2|done|done|done|by rewrite length_put32, Hci|]. intros l3 Ht3.
    pose proof (length_logged b (logged (bm_block sb b) ks)). pose proof (length_logged (bm_block sb b) ks).
    rewrite wp_bind. eapply (F_logw q me st sz _ _ _ j i); [done|exact Ht3|done|done| |].
    { rewrite one_bm by done. pose proof (cost_logged sb x b (logged (bmb sb) ks)). pose proof (cost_logged_bm sb x ks).
      pose proof (length_cost sb x (logged b (logged (bmb sb) ks))). lia. }
    intros l4 Ht4. rewrite wp_ret. rewrite wp_bind. eapply (F_brelse q me st sz _ _ _ j i); [exact Ht4|done|left; cbn; set_solver|].
    intros l5 Ht5. rewrite wp_ret. rewrite !set_fl_set_fl. rewrite sp_update in Ht5 by done. eapply HQ.
    + eapply ok_upd; [exact Ho2|done|done|exact Ht5].
    + by eapply bmapped_entry.
    + done.
  - rewrite wp_ret, wp_bind. eapply (F_brelse q me st sz _ _ ks j i); [exact Ht1|done| |].
    { refine (txn_settled q me st sz (fl s) a ks i (fo_txn _ _ _ _ _ _ _ _ Ho) _). intros j'. by rewrite Hh, lookup_empty. }
    intros l2 Ht2. rewrite wp_ret, set_fl_set_fl. pose proof (ok_release _ _ _ _ _ _ Ho Hj Ht2) as Ho2.
    destruct (ok_dblk _ _ _ _ Ho (io_blk _ _ _ Hi bn ltac:(lia) Hz)) as (b & Hb & _ & Hb0 & _). rewrite Hb.
    eapply HQ; [exact Ho2|by apply bmapped_refl|done].
Qed.

Lemma bmap_spec s a ks ip x bn Q :
  icache s !! ip = Some x -> fsb s = sb -> ok (fl s) a ks -> ino_ok sb (content a) x -> (bn < MAXFILE)%nat ->
  held a = ∅ -> (cost sb x ks + 2 < sz)%nat -> (amap (content a) x bn = 0 -> 1 <= q /\ room sb 2 a) ->
  (forall r addr x' a' ks' l, (r <= 2)%nat -> ok l a' ks' -> bmapped r x a ks bn addr x' a' ks' ->
     (amap (content a) x bn <> 0 -> x' = x /\ a' = a /\ ks' = ks) -> Q (Z.of_nat addr) (put ip l x' s)) ->
  wp (bmap ip (Z.of_nat bn)) Q s.
Proof.
  intros Hx Hs Ho Hi Hbn Hh Hc Hr HQ. pose proof (lookup_lt_Some _ _ _ Hx) as Hip.
  destruct (decide (bn < NDIRECT)%nat) as [Hd|Hd].
  { eapply bmap_direct; try done. intros Hz. destruct (Hr Hz). split; [done|]. eapply (room_weaken 2); [lia|done]. }
  assert (indirect x = 0 -> amap (content a) x bn = 0) as Hi0.
  { intros Hz. unfold amap. rewrite Hz. destruct (Nat.ltb_spec bn NDIRECT); [lia|done]. }
  unfold bmap. rewrite wp_bind. eapply wp_get_ip; [done|]. destruct (Z.of_nat bn <? Z.of_nat NDIRECT) eqn:E; zb; [lia|]. cbn zeta.
  destruct (Z.of_nat bn - Z.of_nat NDIRECT <? Z.of_nat NINDIRECT) eqn:E2; zb; [|unfold MAXFILE in *; lia].
  replace (Z.to_nat (Z.of_nat bn - Z.of_nat NDIRECT)) with (bn - NDIRECT)%nat by lia.
  eapply (bmap_ind s a ks ip x); try done. { intros Hz. destruct (Hr (Hi0 Hz)). split; [done|]. eapply (room_weaken 2); [lia|done]. }
  intros x1 a1 ks1 l1 Ho1 Hm Hsame. assert (i_dev x = i_dev x1) as -> by (rewrite (im_x _ _ _ _ _ _ Hm); done).
  eapply (bmap_entry (put ip l1 x1 s) a1 ks1 ip x1 bn).
  - by apply icache_put.
  - done.
  - done.
  - apply Hm.
  - apply Hm.
  - lia.
  - rewrite (im_held _ _ _ _ _ _ Hm). done.
  - pose proof (im_cost _ _ _ _ _ _ Hm). lia.
  - intros Hz1. destruct (decide (amap (content a) x bn = 0)) as [Hz|Hz].
    + destruct (Hr Hz). split; [done|]. by apply (im_room _ _ _ _ _ _ Hm).
    + destruct Hsame as (-> & -> & _); [naive_solver|]. by apply Hz in Hz1.
  - intros addr a2 ks2 l2 Ho2 Hb2 Hs2. rewrite set_fl_put. eapply (HQ 2%nat); [lia|exact Ho2|by eapply bmapped_trans|].
    intros Hz. destruct Hsame as (-> & -> & ->); [naive_solver|]. destruct (Hs2 Hz). done.
Qed.
End bmap.
