(* ===== verification/FsIo.v ===== *)
(** Files as lists of bytes: [readi], [writei] and [iupdate].

    [fdata] is the contents of a file.  [readi] returns a slice of it and changes
    nothing; [writei] splices its argument in, and the files that share no block with it
    keep their contents.  [file_ok] is the invariant: the blocks of the file are its own
    and allocated, there is no hole below the size, and the inode on the disk (in the
    cache of the transaction) agrees with the one in memory. *)

From S2P Require Import Prelude CString Mem Bio BioSpec Log LogSpec LogProps Fs FsSpec.
From S2P Require Import FsFile Dinode.
Import Bio Log Fs.

Implicit Types (a : bspec) (ks : list nat) (l : lst) (c : list (list Z)) (p : list Z) (x : inode) (bn o : nat).

Definition fbytes c x (o n : nat) : list Z := fbyte c x <$> seq o n.
Definition fdata c x : list Z := fbytes c x 0 (Z.to_nat (i_size x)).

Record dense c x : Prop := {
  de_size : 0 <= i_size x <= Z.of_nat (MAXFILE * BSIZE);
  de_map : forall bn, (bn < MAXFILE)%nat -> Z.of_nat (bn * BSIZE) < i_size x -> amap c x bn <> 0
}.

(** ** Bytes *)

Lemma length_fbytes c x o n : length (fbytes c x o n) = n.
Proof. unfold fbytes. by rewrite length_fmap, length_seq. Qed.
Lemma length_fdata c x : length (fdata c x) = Z.to_nat (i_size x).
Proof. apply length_fbytes. Qed.
Lemma fbytes_app c x o n m : fbytes c x o (n + m) = fbytes c x o n ++ fbytes c x (o + n) m.
Proof. unfold fbytes. by rewrite seq_app, fmap_app. Qed.
Lemma fbytes_lookup c x o n i : (i < n)%nat -> fbytes c x o n !! i = Some (fbyte c x (o + i)).
Proof. intros Hi. unfold fbytes. rewrite list_lookup_fmap, lookup_seq_lt by done. done. Qed.
Lemma slice_fdata c x o n : (o + n <= Z.to_nat (i_size x))%nat -> slice o n (fdata c x) = fbytes c x o n.
Proof.
  intros Hn. unfold slice, fdata. replace (Z.to_nat (i_size x)) with (o + (n + (Z.to_nat (i_size x) - o - n)))%nat by lia.
  rewrite fbytes_app, drop_app_length' by (by rewrite length_fbytes). rewrite fbytes_app, take_app_length' by (by rewrite length_fbytes). done.
Qed.

Lemma lookup_slice o n (d : list Z) i : (i < n)%nat -> slice o n d !! i = d !! (o + i)%nat.
Proof. intros Hi. unfold slice. rewrite lookup_take_lt by done. apply lookup_drop. Qed.
Lemma byte_at_splice i p (d : list Z) j : (i + length p <= length d)%nat ->
  byte_at (splice i p d) j = if decide (i <= j < i + length p)%nat then byte_at p (j - i) else byte_at d j.
Proof.
  intros Hl. unfold byte_at, splice. case_decide as Hj.
  - rewrite lookup_app_r; rewrite length_take_le by lia; [|lia]. by rewrite lookup_app_l by lia.
  - destruct (decide (j < i)%nat).
    + rewrite lookup_app_l by (rewrite length_take; lia). by rewrite lookup_take_lt.
    + rewrite lookup_app_r; rewrite length_take_le by lia; [|lia]. rewrite lookup_app_r by lia. rewrite lookup_drop. do 2 f_equal. lia.
Qed.

(** A slice of one block is bytes of the file. *)
Lemma slice_block c x o m b :
  amap c x (o / BSIZE) = Z.of_nat b -> b <> 0%nat -> length (c !!! b) = BSIZE -> (o mod BSIZE + m <= BSIZE)%nat ->
  slice (o mod BSIZE) m (c !!! b) = fbytes c x o m.
Proof.
  intros Ha Hb Hl Hm. apply (list_eq_same_length _ _ m).
  - by rewrite length_fbytes.
  - rewrite length_slice by lia. done.
  - intros i u v Hi Hu Hv. rewrite fbytes_lookup in Hv by done. rewrite lookup_slice in Hu by done.
    injection Hv as <-. assert ((o + i) / BSIZE = o / BSIZE /\ (o + i) mod BSIZE = o mod BSIZE + i)%nat as [H1 H2].
    { pose proof (Nat.div_mod_eq o BSIZE). assert (BSIZE <> 0)%nat by done. split.
      - symmetry. apply (Nat.div_unique _ _ _ (o mod BSIZE + i)); [unfold BSIZE in *; lia|lia].
      - symmetry. apply (Nat.mod_unique _ _ (o / BSIZE)); [unfold BSIZE in *; lia|lia]. }
    unfold fbyte. rewrite H1, H2, Ha. destruct (Z.eqb_spec (Z.of_nat b) 0); [lia|]. rewrite Nat2Z.id. unfold byte_at. by rewrite Hu.
Qed.

Lemma MAXBYTES : Z.of_nat (MAXFILE * BSIZE) = 71680.
Proof. by vm_compute. Qed.
Lemma div_MAXFILE o : (o < MAXFILE * BSIZE)%nat -> (o / BSIZE < MAXFILE)%nat.
Proof. intros Ho. apply Nat.Div0.div_lt_upper_bound. lia. Qed.

(** The piece of one block, in [nat]. *)
Definition piece (r o : nat) : nat := Nat.min r (BSIZE - o mod BSIZE).
Lemma chunk_nat (n t o : nat) : (t <= n)%nat -> chunk (Z.of_nat n) (Z.of_nat t) (Z.of_nat o) = Z.of_nat (piece (n - t) o).
Proof.
  intros Ht. unfold chunk, piece. rewrite <- Nat2Z.inj_mod. pose proof (Nat.mod_upper_bound o BSIZE ltac:(done)). lia.
Qed.
Lemma piece_pos r o : (0 < r)%nat -> (0 < piece r o /\ piece r o <= r /\ o mod BSIZE + piece r o <= BSIZE)%nat.
Proof. unfold piece. pose proof (Nat.mod_upper_bound o BSIZE ltac:(done)). lia. Qed.
(** What is left after a piece needs one block less. *)
Lemma piece_next r o k : (o mod BSIZE + r <= BSIZE * S k)%nat ->
  r = piece r o \/ ((o + piece r o) mod BSIZE + (r - piece r o) <= BSIZE * k)%nat.
Proof.
  intros Hk. unfold piece. pose proof (Nat.mod_upper_bound o BSIZE ltac:(done)).
  destruct (decide (r <= BSIZE - o mod BSIZE)%nat); [left; lia|right].
  rewrite Nat.min_r by lia. replace ((o + _) mod BSIZE)%nat with 0%nat; [lia|].
  symmetry. apply Nat.Div0.mod_divides. exists (S (o / BSIZE)). pose proof (Nat.div_mod_eq o BSIZE). lia.
Qed.

Section io.
Context `{DevOps D} (q me : Z) (st sz : nat) (sb : superblock) (Hone : sb_size sb <= BPB).
Implicit Types s : fsst D.
Abbreviation ok := (fsok q me st sz sb).

Lemma readi_loop_spec k fuel s a ks ip x (t o n : nat) p Q :
  icache s !! ip = Some x -> fsb s = sb -> ok (fl s) a ks -> ino_ok sb (content a) x -> dense (content a) x ->
  held a = ∅ -> (cost sb x ks + 2 < sz)%nat -> (k < fuel)%nat -> (t <= n)%nat -> Z.of_nat (o + (n - t)) <= i_size x ->
  t = n \/ (o mod BSIZE + (n - t) <= BSIZE * k)%nat ->
  (forall l, ok l a ks -> Q (p ++ fbytes (content a) x o (n - t)) (set_fl l s)) ->
  wp (readi_loop fuel ip (Z.of_nat t) (Z.of_nat o) (Z.of_nat n) p) Q s.
Proof.
  intros Hx Hs Ho Hi Hd Hh Hc. revert k s Hx Hs Ho t o p. induction fuel as [|fuel IH]; intros k s Hx Hs Ho t o p Hk Ht Hsz Hr HQ; [lia|].
  cbn [readi_loop]. destruct (Z.of_nat t <? Z.of_nat n) eqn:E; zb; cbn [negb].
  2: { assert (t = n) as -> by lia. rewrite wp_ret. rewrite <- (set_fl_id s). replace p with (p ++ fbytes (content a) x o (n - n)); [by apply HQ|].
    rewrite Nat.sub_diag. apply app_nil_r. }
  destruct Hr as [Hr|Hr]; [lia|]. destruct k as [|k]; [lia|].
  destruct (piece_pos (n - t) o) as (Hp1 & Hp2 & Hp3); [lia|]. rewrite chunk_nat by lia.
  destruct Hd as [Hsz0 Hmap]. assert (BSIZE = 512%nat) as HB by done. pose proof MAXBYTES as HMB.
  assert (o / BSIZE < MAXFILE)%nat as Hbn by (apply div_MAXFILE; lia).
  rewrite <- Nat2Z.inj_div, <- Nat2Z.inj_mod. rewrite wp_bind. eapply wp_get_ip; [done|]. rewrite wp_bind.
  assert (amap (content a) x (o / BSIZE) <> 0) as Hnz.
  { apply Hmap; [done|]. pose proof (Nat.div_mod_eq o BSIZE). lia. }
  eapply (bmap_spec q me st sz sb Hone s a ks ip x); [done..|].
  intros r b x' a' ks' l _ Ho' Hb Heq. destruct (Heq Hnz) as (-> & -> & ->). rewrite <- put_id by done.
  pose proof (bm_at _ _ _ _ _ _ _ _ _ _ Hb) as Hat. pose proof (bm_nz _ _ _ _ _ _ _ _ _ _ Hb) as Hb0.
  destruct (ok_dblk _ _ _ _ _ _ _ _ _ Ho (io_blk _ _ _ Hi _ Hbn Hnz)) as (b' & Hb' & _ & _ & _ & Hbl & _ & _ & _ & _ & _ & Hcl).
  assert (b' = b) as -> by lia. cbn zeta. rewrite !Nat2Z.id.
  rewrite (io_dev _ _ _ Hi).
  eapply (F_read q me st sz _ a ks b (Z.of_nat b) (fun d => readi_loop fuel ip _ _ _ (p ++ slice _ _ d)));
    [apply Ho'|done|done|intros j; by rewrite Hh, lookup_empty|rewrite Hh, map_size_empty; lia|pose proof (length_cost sb x ks); lia|].
  intros l2 Ht2. rewrite slice_block with (x := x) by (try done; lia).
  rewrite <- !Nat2Z.inj_add. rewrite u32_small by lia. rewrite set_fl_set_fl.
  apply (IH k); try done; try lia.
  - by destruct Ho'.
  - destruct (piece_next (n - t) o k Hr); [left; lia|right]. by replace (n - (t + piece (n - t) o))%nat with (n - t - piece (n - t) o)%nat by lia.
  - intros l3 Ho3. rewrite <- app_assoc, <- fbytes_app. replace (_ + _)%nat with (n - t)%nat by lia. rewrite set_fl_set_fl. by apply HQ.
Qed.

(** What [readi] returns of a file that holds [f]. *)
Definition read_result (f : list Z) (off n : Z) : Z * list Z :=
  if (off >? Z.of_nat (length f)) || (off + n >=? 2 ^ 32) then (-1, [])
  else let r := slice (Z.to_nat off) (Z.to_nat n) f in (Z.of_nat (length r), r).

Lemma io_fuel_enough (o n : nat) : (o mod BSIZE + n <= BSIZE * (n / BSIZE + 2))%nat /\ (n / BSIZE + 2 < io_fuel (Z.of_nat n))%nat.
Proof.
  pose proof (Nat.mod_upper_bound o BSIZE ltac:(done)). pose proof (Nat.mod_upper_bound n BSIZE ltac:(done)).
  pose proof (Nat.div_mod_eq n BSIZE). unfold io_fuel. rewrite <- Nat2Z.inj_div, Nat2Z.id. lia.
Qed.

(** The test for wrap-around of [off + n]. *)
Lemma u32_wraps off n : 0 <= off < 2 ^ 32 -> 0 <= n < 2 ^ 32 -> (u32 (off + n) <? off) = (off + n >=? 2 ^ 32).
Proof.
  intros Ho Hn. destruct (off + n >=? 2 ^ 32) eqn:E; zb; apply Z.geb_leb in E || idtac.
  - apply Z.ltb_lt. unfold u32. replace (off + n) with (off + n - 2 ^ 32 + 1 * 2 ^ 32) by lia. rewrite Z.mod_add, Z.mod_small by lia. lia.
  - apply Z.ltb_ge. rewrite u32_small; lia.
Qed.

Lemma readi_spec s a ks ip x off n Q :
  icache s !! ip = Some x -> fsb s = sb -> ok (fl s) a ks -> ino_ok sb (content a) x -> dense (content a) x ->
  held a = ∅ -> (cost sb x ks + 2 < sz)%nat -> i_type x <> T_DEV -> 0 <= off < 2 ^ 32 -> 0 <= n < 2 ^ 32 ->
  (forall l, ok l a ks -> Q (read_result (fdata (content a) x) off n) (set_fl l s)) ->
  wp (readi ip off n) Q s.
Proof.
  intros Hx Hs Ho Hi Hd Hh Hc Hty Hoff Hn HQ. pose proof (de_size _ _ Hd) as Hsz. pose proof MAXBYTES as HMB.
  unfold read_result in HQ. rewrite length_fdata, Z2Nat.id in HQ by lia.
  unfold readi. rewrite wp_bind. eapply wp_get_ip; [done|]. destruct (Z.eqb_spec (i_type x) T_DEV); [done|].
  rewrite u32_wraps by done. destruct (off >? i_size x) eqn:E1; cbn [orb] in *.
  { rewrite wp_ret, <- (set_fl_id s). by apply HQ. }
  destruct (off + n >=? 2 ^ 32) eqn:E2; cbn [orb] in *.
  { rewrite wp_ret, <- (set_fl_id s). by apply HQ. }
  zb. rewrite (u32_small (off + n)) by lia.
  set (m := Z.min n (i_size x - off)).
  assert ((if off + n >? i_size x then u32 (i_size x - off) else n) = Z.of_nat (Z.to_nat m)) as ->.
  { destruct (off + n >? i_size x) eqn:E3; zb; [rewrite u32_small by lia|]; lia. }
  rewrite wp_bind. change 0 with (Z.of_nat 0). rewrite <- (Z2Nat.id off) at 1 by lia.
  destruct (io_fuel_enough (Z.to_nat off) (Z.to_nat m)) as [Hf1 Hf2].
  eapply (readi_loop_spec (Z.to_nat m / BSIZE + 2) _ s a ks ip x 0 (Z.to_nat off) (Z.to_nat m)); try done; try lia.
  intros l Ho'. rewrite wp_ret, Nat.sub_0_r. cbn [app]. rewrite i32_small by lia.
  assert (slice (Z.to_nat off) (Z.to_nat n) (fdata (content a) x) = fbytes (content a) x (Z.to_nat off) (Z.to_nat m)) as Heq.
  { rewrite <- slice_fdata by lia. unfold slice. destruct (decide (n <= i_size x - off)); [by replace m with n by lia|].
    rewrite !take_ge; [done|rewrite length_drop, length_fdata; lia..]. }
  specialize (HQ l Ho'). rewrite Heq, length_fbytes in HQ. done.
Qed.

(** ** Writing *)

(** [p] was written at [off], at most [k] blocks of it. *)
Record wrote (k : nat) (off : nat) p x a ks x' a' ks' : Prop := {
  wr_x : x' = set_i_addrs (i_addrs x') x;
  wr_ino : ino_ok sb (content a') x';
  wr_byte : forall o, (o < MAXFILE * BSIZE)%nat ->
    fbyte (content a') x' o = if decide (off <= o < off + length p)%nat then byte_at p (o - off) else fbyte (content a) x o;
  wr_map : forall bn, (bn < MAXFILE)%nat -> amap (content a) x bn <> 0 -> amap (content a') x' bn <> 0;
  wr_new : forall o, (off <= o < off + length p)%nat -> amap (content a') x' (o / BSIZE) <> 0;
  wr_held : held a' = held a;
  wr_disk : disk a' = disk a;
  wr_cost : (cost sb x' ks' <= k + cost sb x ks)%nat;
  wr_room : forall n, room sb (2 * k + n) a -> room sb n a';
  wr_dblk : forall b, dblk sb (content a) (Z.of_nat b) -> dblk sb (content a') (Z.of_nat b);
  wr_other : forall b, dblk sb (content a) (Z.of_nat b) -> foreign (content a) x b ->
    foreign (content a') x' b /\ content a' !!! b = content a !!! b;
  wr_low : forall b, (b < dstart sb)%nat -> b <> bmb sb -> content a' !!! b = content a !!! b;
  wr_same : (forall o, (off <= o < off + length p)%nat -> amap (content a) x (o / BSIZE) <> 0) -> x' = x
}.

Lemma wrote_refl k off x a ks : ino_ok sb (content a) x -> wrote k off [] x a ks x a ks.
Proof.
  intros Hi. constructor; try done; cbn [length].
  - by destruct x.
  - intros o Ho. rewrite decide_False by lia. done.
  - intros o Ho. lia.
  - lia.
  - intros n. apply room_weaken. lia.
Qed.

Lemma byte_at_app p p' i : byte_at (p ++ p') i = if decide (i < length p)%nat then byte_at p i else byte_at p' (i - length p).
Proof.
  unfold byte_at. case_decide; [by rewrite lookup_app_l|]. by rewrite lookup_app_r by lia.
Qed.

Lemma wrote_trans k1 k2 off p1 p2 x a ks x1 a1 ks1 x2 a2 ks2 :
  (off + length p1 + length p2 <= MAXFILE * BSIZE)%nat ->
  wrote k1 off p1 x a ks x1 a1 ks1 -> wrote k2 (off + length p1) p2 x1 a1 ks1 x2 a2 ks2 ->
  wrote (k1 + k2) off (p1 ++ p2) x a ks x2 a2 ks2.
Proof.
  intros Hmax [X1 I1 B1 M1 N1 H1 D1 C1 R1 K1 F1 L1 S1] [X2 I2 B2 M2 N2 H2 D2 C2 R2 K2 F2 L2 S2].
  constructor; rewrite ?length_app; try done; try congruence; try lia.
  - etransitivity; [exact X2|]. rewrite X1 at 1. done.
  - intros o Ho. rewrite B2, byte_at_app by done. repeat case_decide; try lia.
    + f_equal. lia.
    + rewrite B1 by done. rewrite decide_True by lia. done.
    + rewrite B1 by done. by rewrite decide_False by lia.
  - intros bn Hbn Hnz. by apply M2, M1.
  - intros o Ho. destruct (decide (o < off + length p1)%nat); [|apply N2; lia]. apply M2; [apply div_MAXFILE; lia|]. apply N1. lia.
  - intros n Hn. apply R2, R1. eapply room_weaken; [|exact Hn]. lia.
  - intros b Hb. by apply K2, K1.
  - intros b Hb Hf. destruct (F1 b Hb Hf) as [Hf' He]. destruct (F2 b (K1 b Hb) Hf') as [Hf'' He']. split; [done|congruence].
  - intros b Hb Hne. by rewrite L2, L1.
  - intros Hall. rewrite S2.
    + apply S1. intros o Ho. apply Hall. lia.
    + intros o Ho. apply M1; [apply div_MAXFILE; lia|]. apply Hall. lia.
Qed.

(** A block of the file overwritten. *)
Lemma fbyte_splice c x off p b o :
  ino_ok sb c x -> (off < MAXFILE * BSIZE)%nat -> amap c x (off / BSIZE) = Z.of_nat b -> b <> 0%nat ->
  (b < length c)%nat -> length (c !!! b) = BSIZE -> (off mod BSIZE + length p <= BSIZE)%nat -> (o < MAXFILE * BSIZE)%nat ->
  fbyte (<[b := splice (off mod BSIZE) p (c !!! b)]> c) x o =
    if decide (off <= o < off + length p)%nat then byte_at p (o - off) else fbyte c x o.
Proof.
  intros Hi Hoff Ha Hb Hbl Hl Hm Ho. pose proof (div_MAXFILE _ Hoff) as Hbn. pose proof (div_MAXFILE _ Ho) as Hbo.
  unfold fbyte. rewrite amap_foreign.
  2: { rewrite <- Ha. intros Heq. refine (io_ne _ _ _ Hi _ Hbn _ _); [lia|congruence]. }
  2: { destruct (decide (indirect x = 0)) as [|Hn]; [by left|right]. destruct (io_ind _ _ _ Hi Hn). lia. }
  pose proof (Nat.div_mod_eq o BSIZE) as Eo. pose proof (Nat.div_mod_eq off BSIZE) as Eoff.
  pose proof (Nat.mod_upper_bound o BSIZE ltac:(done)). assert (BSIZE = 512%nat) as HB by done.
  destruct (decide (o / BSIZE = off / BSIZE)%nat) as [He|He].
  - rewrite He, Ha. destruct (Z.eqb_spec (Z.of_nat b) 0); [lia|]. rewrite Nat2Z.id, list_lookup_total_insert_eq by done.
    rewrite byte_at_splice by lia. rewrite He in Eo. repeat case_decide; try lia; try done. f_equal. lia.
  - rewrite (decide_False (P := (off <= o < off + length p)%nat)).
    2: { intros Hr. apply He. symmetry. apply (Nat.div_unique _ _ _ (o - BSIZE * (off / BSIZE))); lia. }
    destruct (Z.eqb_spec (amap c x (o / BSIZE)) 0) as [|Hnz]; [done|]. rewrite list_lookup_total_insert_ne; [done|].
    intros Hbe. apply He. apply (io_inj _ _ _ Hi); [done..| |done]. destruct (io_blk _ _ _ Hi _ Hbo Hnz). lia.
Qed.

Lemma amap_own_block c x bn b d bn' :
  ino_ok sb c x -> (bn < MAXFILE)%nat -> amap c x bn = Z.of_nat b -> b <> 0%nat -> amap (<[b := d]> c) x bn' = amap c x bn'.
Proof.
  intros Hi Hbn Ha Hb. apply amap_foreign.
  - rewrite <- Ha. intros Heq. refine (io_ne _ _ _ Hi _ Hbn _ _); [lia|congruence].
  - destruct (decide (indirect x = 0)) as [|Hn]; [by left|right]. destruct (io_ind _ _ _ Hi Hn). lia.
Qed.

(** One block of a write: [bmap], then the block is overwritten. *)
Lemma wrote_one l r off p x a ks b x1 a1 ks1 :
  ok l a1 ks1 -> (r <= 2)%nat -> (off < MAXFILE * BSIZE)%nat -> (off mod BSIZE + length p <= BSIZE)%nat ->
  bmapped sb r x a ks (off / BSIZE) b x1 a1 ks1 -> (amap (content a) x (off / BSIZE) <> 0 -> x1 = x) -> (0 < length p)%nat ->
  wrote 1 off p x a ks x1 (sp_upd b (splice (off mod BSIZE) p (content a1 !!! b)) a1) (logged b ks1).
Proof.
  intros Ho Hr Hoff Hp [X I At Nz B Hd Dk C Ln R F M Nw Low] Hsame Hp0. pose proof (div_MAXFILE _ Hoff) as Hbn.
  assert (amap (content a1) x1 (off / BSIZE) <> 0) as Hnz by (rewrite At; lia).
  pose proof (io_blk _ _ _ I _ Hbn Hnz) as Hdb. rewrite At in Hdb.
  destruct (ok_dblk _ _ _ _ _ _ _ _ _ Ho Hdb) as (b' & Hb' & _ & _ & Hds & Hbl & Hsz & _ & _ & _ & _ & Hcl).
  assert (b' = b) as -> by lia. pose proof (fo_geo _ _ _ _ _ _ _ _ Ho) as Hg.
  pose proof (fun d bn' => amap_own_block (content a1) x1 _ b d bn' I Hbn At Nz) as Hmap.
  pose proof (br_size _ _ _ (txn_brep _ _ _ _ _ _ _ (fo_txn _ _ _ _ _ _ _ _ Ho))) as Hlen.
  assert (forall bn', (bn' < MAXFILE)%nat -> amap (content a) x bn' <> 0 -> amap (content a1) x1 bn' <> 0) as Hm1.
  { intros bn' Hb1 Hn1. destruct (decide (bn' = off / BSIZE)%nat) as [->|Hne]; [done|]. by rewrite M. }
  constructor; cbn [sp_upd content held disk]; try done; try lia.
  - eapply ino_ok_keep; [exact I|by intros|]. intros ad. by eapply dblk_upd.
  - intros o Ho'. rewrite fbyte_splice by (try done; lia). by rewrite B.
  - intros bn' Hb1 Hn1. rewrite Hmap. by apply Hm1.
  - intros o Ho'. rewrite Hmap. replace (o / BSIZE)%nat with (off / BSIZE)%nat; [done|].
    pose proof (Nat.div_mod_eq off BSIZE). apply (Nat.div_unique _ _ _ (o - BSIZE * (off / BSIZE))); lia.
  - intros n Hn. destruct (R n) as (fbs & H1 & H2 & H3). { eapply room_weaken; [|exact Hn]. lia. }
    exists fbs. split_and!; [done|done|]. intros b1 Hb1. destruct (H3 b1 Hb1). split; [done|]. cbn [content sp_upd].
    by rewrite (used_data st sz sb _ _ _ _ _ Hg).
  - intros b1 Hb1. eapply dblk_upd; [done|done|]. by apply F.
  - intros b1 Hb1 Hf. pose proof (Nw b1 Hb1 Hf) as [Hf1 Hf2]. destruct (F _ Hb1) as [_ Hc]. split.
    + split; [done|]. intros bn' Hb2. rewrite Hmap. by apply Hf2.
    + rewrite list_lookup_total_insert_ne; [|intros ->; by apply (Hf2 _ Hbn)]. rewrite <- (Nat2Z.id b1). apply Hc.
      intros He. by apply (proj1 Hf).
  - intros b1 Hb1 Hne. rewrite list_lookup_total_insert_ne by lia. by apply Low.
  - intros Hall. apply Hsame, Hall. lia.
Qed.

Lemma slice_add o n m p : slice o (n + m) p = slice o n p ++ slice (o + n) m p.
Proof. unfold slice. by rewrite <- drop_drop, take_take_drop. Qed.

Lemma writei_loop_spec k fuel s a ks ip x p (t o n : nat) Q :
  icache s !! ip = Some x -> fsb s = sb -> ok (fl s) a ks -> ino_ok sb (content a) x -> 1 <= q ->
  held a = ∅ -> (k + cost sb x ks + 1 < sz)%nat -> room sb (2 * k) a -> (k < fuel)%nat -> (t <= n)%nat -> (n <= length p)%nat ->
  (o + (n - t) <= MAXFILE * BSIZE)%nat ->
  t = n \/ (o mod BSIZE + (n - t) <= BSIZE * k)%nat ->
  (forall x' a' ks' l, ok l a' ks' -> wrote k o (slice t (n - t) p) x a ks x' a' ks' -> Q (Z.of_nat (o + (n - t))) (put ip l x' s)) ->
  wp (writei_loop fuel ip p (Z.of_nat t) (Z.of_nat o) (Z.of_nat n)) Q s.
Proof.
  revert k s a ks x t o. induction fuel as [|fuel IH]; intros k s a ks x t o Hx Hs Ho Hi Hq Hh Hc Hroom Hk Ht Hp Hsz Hr HQ; [lia|].
  pose proof (lookup_lt_Some _ _ _ Hx) as Hip.
  cbn [writei_loop]. destruct (Z.of_nat t <? Z.of_nat n) eqn:E; zb; cbn [negb].
  2: { assert (t = n) as -> by lia. rewrite wp_ret. rewrite <- (set_fl_id s), (put_id ip _ x) by done.
    replace (Z.of_nat o) with (Z.of_nat (o + (n - n))) by lia. eapply HQ; [done|]. rewrite Nat.sub_diag. by apply wrote_refl. }
  destruct Hr as [Hr|Hr]; [lia|]. destruct k as [|k]; [lia|].
  destruct (piece_pos (n - t) o) as (Hp1 & Hp2 & Hp3); [lia|]. rewrite chunk_nat by lia. set (m := piece (n - t) o) in *.
  pose proof MAXBYTES as HMB. assert (o < MAXFILE * BSIZE)%nat as Hom by lia. pose proof (div_MAXFILE _ Hom) as Hbn.
  rewrite <- Nat2Z.inj_div, <- Nat2Z.inj_mod. rewrite wp_bind. eapply wp_get_ip; [done|]. rewrite wp_bind.
  eapply (bmap_spec q me st sz sb Hone s a ks ip x); [done..|lia| |].
  { intros _. split; [done|]. eapply room_weaken; [|exact Hroom]. lia. }
  intros r b x1 a1 ks1 l1 Hr2 Ho1 Hb Hsame. cbn zeta. rewrite !Nat2Z.id.
  assert (length (slice t m p) = m) as Hlm by (apply length_slice; lia).
  assert (wrote 1 o (slice t m p) x a ks x1 (sp_upd b (splice (o mod BSIZE) (slice t m p) (content a1 !!! b)) a1) (logged b ks1)) as Hw
    by (eapply wrote_one; try done; [rewrite Hlm; lia|intros Hnz; by destruct (Hsame Hnz)|lia]).
  assert (held a1 = ∅) as Hh1 by (by rewrite (bm_held _ _ _ _ _ _ _ _ _ _ Hb)).
  pose proof (bm_len _ _ _ _ _ _ _ _ _ _ Hb) as Hln. pose proof (length_cost sb x1 ks1).
  pose proof (bm_at _ _ _ _ _ _ _ _ _ _ Hb) as Hat. pose proof (bm_nz _ _ _ _ _ _ _ _ _ _ Hb) as Hb0.
  pose proof (bm_ino _ _ _ _ _ _ _ _ _ _ Hb) as Hi1.
  assert (dblk sb (content a1) (Z.of_nat b)) as Hdb by (rewrite <- Hat; apply (io_blk _ _ _ Hi1); [done|lia]).
  destruct (ok_dblk _ _ _ _ _ _ _ _ _ Ho1 Hdb) as (b' & Hb' & _ & _ & Hds & Hbl & Hbs & Hout & Hb1 & _ & _ & Hcl).
  assert (b' = b) as -> by lia. rewrite (io_dev _ _ _ Hi), wp_bind.
  eapply (F_bread q me st sz _ a1 ks1 b); [apply Ho1|done|done|intros j; by rewrite Hh1, lookup_empty|rewrite Hh1, map_size_empty; lia|lia|].
  intros j l2 Hj Ht2. rewrite wp_bind. eapply (F_data q me st sz _ _ ks1 j b); [exact Ht2|cbn; by rewrite lookup_insert_eq|]. cbn [content sp_bread].
  rewrite wp_seq3. eapply (F_write q me st sz _ a1 ks1 j b); [done|done|exact Ht2|lia|done|done| |].
  { rewrite length_splice; rewrite ?Hlm, ?Hcl; [done|lia]. }
  intros l3 Ht3. pose proof (ok_upd _ _ _ _ _ _ _ _ _ _ _ _ _ (ok_hold _ _ _ _ _ _ _ _ _ _ _ Ho1 Hdb Ht2) Hj Hds Ht3) as Ho3.
  change (set_fl l3 (set_fl l2 (put ip l1 x1 s))) with (put ip l3 x1 s). rewrite <- !Nat2Z.inj_add, u32_small by lia.
  eapply (IH k); try done; try lia.
  - by apply icache_put.
  - apply Hw.
  - pose proof (wr_cost _ _ _ _ _ _ _ _ _ Hw). lia.
  - apply (wr_room _ _ _ _ _ _ _ _ _ Hw). eapply room_weaken; [|exact Hroom]. lia.
  - destruct (piece_next (n - t) o k Hr) as [He|He]; fold m in He; [left; lia|right].
    by replace (n - (t + m))%nat with (n - t - m)%nat by lia.
  - intros x2 a2 ks2 l4 Ho4 Hw2. rewrite put_put. replace (o + m + (n - (t + m)))%nat with (o + (n - t))%nat by lia.
    eapply HQ; [exact Ho4|]. replace (n - t)%nat with (m + (n - t - m))%nat by lia. rewrite slice_add.
    replace (n - t - m)%nat with (n - (t + m))%nat by lia. change (S k) with (1 + k)%nat.
    eapply wrote_trans; [|exact Hw|by rewrite Hlm]. rewrite Hlm, length_slice by lia. lia.
Qed.

(** ** Inodes on the disk *)

Definition iblk (inum : Z) : nat := Z.to_nat (sb_inodestart sb + inum / IPB).

Lemma iblk_geo n inum : geo st sz sb n -> 0 <= inum < sb_ninodes sb ->
  IBLOCK inum sb = Z.of_nat (iblk inum) /\ (iblk inum < dstart sb)%nat /\ (dstart sb <= n)%nat /\ outside st sz (iblk inum) /\
  iblk inum <> 1%nat /\ Z.of_nat (iblk inum) < sb_bmapstart sb /\ (dinode_at inum + DINODE <= BSIZE)%nat.
Proof.
  intros [] Hin. assert (IPB = 8) as HI by done. assert (0 <= inum / IPB) by (apply Z.div_pos; lia).
  assert (inum / IPB <= sb_ninodes sb / IPB) by (apply Z.div_le_mono; lia). pose proof BPB_pos.
  assert (0 <= sb_size sb / BPB) by (apply Z.div_pos; lia). pose proof (Z.mod_pos_bound inum IPB ltac:(lia)).
  unfold IBLOCK. rewrite u32_small by lia. unfold iblk, dstart, outside, dinode_at, DINODE, BSIZE. split_and!; lia.
Qed.

(** Two inodes of one block do not overlap. *)
Lemma dinode_slots i j : 0 <= i < sb_ninodes sb -> 0 <= j < sb_ninodes sb -> iblk j = iblk i -> i <> j -> 0 <= sb_inodestart sb ->
  (dinode_at j + DINODE <= dinode_at i \/ dinode_at i + DINODE <= dinode_at j)%nat.
Proof.
  intros Hi Hj He Hne Hs. assert (IPB = 8) as HI by done. pose proof (Z.div_mod i IPB). pose proof (Z.div_mod j IPB).
  pose proof (Z.mod_pos_bound i IPB). pose proof (Z.mod_pos_bound j IPB).
  assert (0 <= i / IPB) by (apply Z.div_pos; lia). assert (0 <= j / IPB) by (apply Z.div_pos; lia).
  unfold iblk in He. assert (i / IPB = j / IPB) as Hq by lia. rewrite Hq in *. unfold dinode_at, DINODE. lia.
Qed.

Lemma used_low c ib b d n :
  geo st sz sb n -> Z.of_nat ib < sb_bmapstart sb -> used sb (<[ib := d]> c) b = used sb c b.
Proof.
  intros Hg Hi. unfold used. rewrite list_lookup_total_insert_ne; [done|]. pose proof BPB_pos. pose proof (geo_bmapstart _ _ _ _ Hg).
  assert (0 <= Z.of_nat b / BPB) by (apply Z.div_pos; lia). unfold bm_block. lia.
Qed.

(** Changing a block below the bitmap. *)
Lemma ok_low l l' a ks ks' ib d :
  ok l a ks -> Z.of_nat ib < sb_bmapstart sb -> txn q me st sz l' (sp_upd ib d a) ks' -> ok l' (sp_upd ib d a) ks'.
Proof.
  intros [Ht Hg Hm Hh] Hi Ht'. constructor; cbn [content sp_upd held disk]; [done|done|..].
  - intros b Hb. rewrite (used_low _ _ _ _ _ Hg) by done. by apply Hm.
  - intros j b Hj. destruct (Hh j b Hj) as (? & ? & ?). rewrite (used_low _ _ _ _ _ Hg) by done. done.
Qed.

Lemma iupdate_spec s a ks ip x Q :
  icache s !! ip = Some x -> fsb s = sb -> ok (fl s) a ks -> i_dev x = 1 -> 0 <= i_inum x < sb_ninodes sb ->
  length (i_addrs x) = S NDIRECT -> 1 <= q -> held a = ∅ -> (S (length ks) < sz)%nat ->
  (forall l, let ib := iblk (i_inum x) in let a' := sp_upd ib (put_dinode (dinode_at (i_inum x)) x (content a !!! ib)) a in
     ok l a' (logged ib ks) -> Q tt (set_fl l s)) ->
  wp (iupdate ip) Q s.
Proof.
  intros Hx Hs Ho Hdev Hin Hln Hq Hh Hk HQ. destruct (iblk_geo _ _ (fo_geo _ _ _ _ _ _ _ _ Ho) Hin) as (H1 & H2 & H3 & H4 & H5 & H6 & H7).
  unfold iupdate, getsb. rewrite wp_bind. eapply wp_get_ip; [done|]. rewrite wp_bind, wp_gets, Hs, Hdev, H1.
  set (ib := iblk (i_inum x)) in *.
  destruct (txn_block _ _ _ _ _ _ _ ib (fo_txn _ _ _ _ _ _ _ _ Ho)) as [_ Hcl]; [lia|].
  eapply (F_update q me st sz s a ks ib _ (put_dinode (dinode_at (i_inum x)) x));
    [done|apply Ho|done|lia|intros j; by rewrite Hh, lookup_empty|rewrite Hh, map_size_empty; lia|done|done|done| |].
  - rewrite <- Hcl. apply only_put_dinode; [done|lia].
  - intros l Ht. apply HQ. by eapply ok_low.
Qed.

(** The invariant of an inode in memory that is valid. *)
Record file_ok c x : Prop := {
  fk_ino : ino_ok sb c x;
  fk_dense : dense c x;
  fk_inum : 0 <= i_inum x < sb_ninodes sb;
  fk_type : - 2 ^ 15 <= i_type x < 2 ^ 15;
  fk_major : - 2 ^ 15 <= i_major x < 2 ^ 15;
  fk_minor : - 2 ^ 15 <= i_minor x < 2 ^ 15;
  fk_nlink : - 2 ^ 15 <= i_nlink x < 2 ^ 15;
  fk_sync : get_dinode (dinode_at (i_inum x)) (c !!! iblk (i_inum x)) x = x
}.

Lemma ino_addrs n c x : geo st sz sb n -> ino_ok sb c x -> Forall (fun v => 0 <= v < 2 ^ 32) (i_addrs x).
Proof.
  intros Hg Hi. apply Forall_lookup. intros i v Hv. pose proof (lookup_lt_Some _ _ _ Hv) as Hlt. rewrite (io_len _ _ _ Hi) in Hlt.
  destruct Hg. assert (v = 0 \/ dblk sb c v) as [->|[? _]]; [|lia..].
  destruct (decide (i = NDIRECT)) as [->|Hne].
  - assert (indirect x = v) as He by (unfold indirect; by rewrite Hv). destruct (decide (v = 0)); [by left|right].
    rewrite <- He. apply (io_ind _ _ _ Hi). congruence.
  - assert (amap c x i = v) as He by (unfold amap; destruct (Nat.ltb_spec i NDIRECT); [by rewrite Hv|lia]).
    destruct (decide (v = 0)); [by left|right]. rewrite <- He. apply (io_blk _ _ _ Hi); [unfold MAXFILE; lia|congruence].
Qed.

Lemma dn_ok_file n c x : geo st sz sb n -> ino_ok sb c x -> 0 <= i_size x <= Z.of_nat (MAXFILE * BSIZE) ->
  - 2 ^ 15 <= i_type x < 2 ^ 15 -> - 2 ^ 15 <= i_major x < 2 ^ 15 -> - 2 ^ 15 <= i_minor x < 2 ^ 15 ->
  - 2 ^ 15 <= i_nlink x < 2 ^ 15 -> dn_ok x.
Proof. intros Hg Hi Hs. pose proof MAXBYTES. constructor; try done; [lia|apply Hi|by eapply ino_addrs]. Qed.

(** ** Other files *)

(** [b] is a block of the file. *)
Definition own c x (b : nat) : Prop :=
  b <> 0%nat /\ (indirect x = Z.of_nat b \/ exists bn, (bn < MAXFILE)%nat /\ amap c x bn = Z.of_nat b).
(** Two files with different inodes and no block in common. *)
Definition apart c x y : Prop := i_inum x <> i_inum y /\ forall b, own c y b -> foreign c x b.

Lemma own_dblk c x b : ino_ok sb c x -> own c x b -> dblk sb c (Z.of_nat b).
Proof.
  intros Hi [Hb [He|(bn & Hbn & He)]]; rewrite <- He.
  - apply (io_ind _ _ _ Hi). lia.
  - apply (io_blk _ _ _ Hi); [done|lia].
Qed.
Lemma dblk_nat c ad : dblk sb c ad -> exists b, ad = Z.of_nat b /\ (dstart sb <= b)%nat.
Proof. intros [? _]. exists (Z.to_nat ad). lia. Qed.

(** A file whose blocks keep their contents does not change. *)
Lemma file_frame c c' x :
  (0 < dstart sb)%nat -> ino_ok sb c x -> (forall b, own c x b -> c' !!! b = c !!! b) -> (forall ad, dblk sb c ad -> dblk sb c' ad) ->
  ino_ok sb c' x /\ (forall bn, (bn < MAXFILE)%nat -> amap c' x bn = amap c x bn) /\
  (forall o, (o < MAXFILE * BSIZE)%nat -> fbyte c' x o = fbyte c x o).
Proof.
  intros Hds Hi Hc Hd. assert (forall bn, (bn < MAXFILE)%nat -> amap c' x bn = amap c x bn) as Hmap.
  { intros bn Hbn. unfold amap. destruct (bn <? NDIRECT)%nat; [done|]. destruct (Z.eqb_spec (indirect x) 0) as [|Hn]; [done|].
    destruct (dblk_nat _ _ (io_ind _ _ _ Hi Hn)) as (i & Hix & ?). rewrite Hix, Nat2Z.id, Hc; [done|]. split; [lia|]. by left. }
  split_and!; [by eapply ino_ok_keep|done|]. intros o Ho. apply fbyte_keep; [done..|]. intros bn Hbn Hn.
  destruct (dblk_nat _ _ (io_blk _ _ _ Hi _ Hbn Hn)) as (i & Hix & ?). rewrite Hix, Nat2Z.id. apply Hc. split; [lia|].
  right. by exists bn.
Qed.

Lemma dense_keep c c' x : dense c x -> (forall bn, (bn < MAXFILE)%nat -> amap c' x bn = amap c x bn) -> dense c' x.
Proof. intros [H1 H2] Hm. constructor; [done|]. intros bn Hbn. rewrite Hm by done. auto. Qed.
Lemma fbytes_keep c c' x x' o n :
  (o + n <= MAXFILE * BSIZE)%nat -> (forall o, (o < MAXFILE * BSIZE)%nat -> fbyte c' x' o = fbyte c x o) -> fbytes c' x' o n = fbytes c x o n.
Proof.
  intros Hn Hb. unfold fbytes. apply list_fmap_ext. intros i k Hk. apply lookup_seq in Hk as [-> Hk]. apply Hb. lia.
Qed.
Lemma own_keep c c' x b : (forall bn, (bn < MAXFILE)%nat -> amap c' x bn = amap c x bn) -> own c' x b <-> own c x b.
Proof.
  intros Hm. unfold own. split; intros [Hb [He|(bn & Hbn & He)]]; (split; [done|]); [by left| |by left|];
    right; exists bn; (rewrite Hm by done) || (rewrite Hm in He by done); done.
Qed.

(** The contents after a write, with the new size. *)
Lemma wrote_data k off p x a ks x' a' ks' :
  wrote k off p x a ks x' a' ks' -> dense (content a) x -> Z.of_nat off <= i_size x -> (off + length p <= MAXFILE * BSIZE)%nat ->
  fdata (content a') (set_i_size (Z.max (i_size x) (Z.of_nat (off + length p))) x') = splice off p (fdata (content a) x).
Proof.
  intros Hw Hd Hoff Hmax. pose proof (de_size _ _ Hd) as Hsz. set (n := Z.to_nat (Z.max (i_size x) (Z.of_nat (off + length p)))).
  assert (length (splice off p (fdata (content a) x)) = n) as Hlen.
  { unfold splice. rewrite !length_app, length_take, length_drop, length_fdata. lia. }
  apply (list_eq_same_length _ _ n); [done|by rewrite length_fdata|]. intros i u v Hi Hu Hv.
  unfold fdata in Hu. cbn [i_size set_i_size] in Hu. fold n in Hu. rewrite fbytes_lookup in Hu by done. injection Hu as <-. cbn [Nat.add].
  change (fbyte (content a') (set_i_size _ x') i) with (fbyte (content a') x' i). rewrite (wr_byte _ _ _ _ _ _ _ _ _ Hw) by lia.
  assert (v = byte_at (splice off p (fdata (content a) x)) i) as -> by (unfold byte_at; by rewrite Hv). clear Hv.
  unfold splice, byte_at. case_decide as Hr.
  - rewrite lookup_app_r; rewrite length_take_le by (rewrite length_fdata; lia); [|lia]. by rewrite lookup_app_l by lia.
  - destruct (decide (i < off)%nat).
    + rewrite lookup_app_l by (rewrite length_take, length_fdata; lia). rewrite lookup_take_lt by done.
      unfold fdata. rewrite fbytes_lookup by lia. done.
    + rewrite lookup_app_r; rewrite length_take_le by (rewrite length_fdata; lia); [|lia]. rewrite lookup_app_r by lia.
      rewrite lookup_drop. unfold fdata. rewrite fbytes_lookup by lia. cbn [default Nat.add id from_option]. unfold id. f_equal. lia.
Qed.

(** What [writei] promises.  [k] is the number of blocks the range touches. *)
Record written (k off : nat) p x a ks x' a' ks' : Prop := {
  wn_x : x' = set_i_size (Z.max (i_size x) (Z.of_nat (off + length p))) (set_i_addrs (i_addrs x') x);
  wn_ok : file_ok (content a') x';
  wn_data : fdata (content a') x' = splice off p (fdata (content a) x);
  wn_held : held a' = ∅;
  wn_disk : disk a' = disk a;
  wn_log : (length ks' <= S (k + cost sb x ks))%nat;
  wn_room : forall n, room sb (2 * k + n) a -> room sb n a';
  wn_other : forall y, file_ok (content a) y -> apart (content a) x y ->
    file_ok (content a') y /\ apart (content a') x' y /\ fdata (content a') y = fdata (content a) y
}.

Section after_write.
Context (k off : nat) p (l l' : lst) x a ks x1 a1 ks1.
Hypothesis Hfk : file_ok (content a) x.
Hypothesis Hoff : Z.of_nat off <= i_size x.
Hypothesis Hmax : (off + length p <= MAXFILE * BSIZE)%nat.
Hypothesis Hw : wrote k off p x a ks x1 a1 ks1.
Hypothesis Hh : held a = ∅.
Hypothesis Hok : ok l a ks.
Hypothesis Hok1 : ok l' a1 ks1.

Let x2 : inode := set_i_size (Z.max (i_size x) (Z.of_nat (off + length p))) x1.

Lemma after_dense : dense (content a1) x2.
Proof.
  destruct Hfk as [_ [Hsz Hd] _ _ _ _ _ _]. constructor; cbn [x2 i_size set_i_size]; [lia|]. intros bn Hbn Hlt.
  change (amap (content a1) x2 bn) with (amap (content a1) x1 bn). destruct (decide (Z.of_nat (bn * BSIZE) < i_size x)) as [Hl|Hl].
  - apply (wr_map _ _ _ _ _ _ _ _ _ Hw); [done|]. by apply Hd.
  - assert (BSIZE <> 0)%nat by done. pose proof (wr_new _ _ _ _ _ _ _ _ _ Hw (bn * BSIZE)) as Hn. rewrite Nat.div_mul in Hn by done. apply Hn. lia.
Qed.

Lemma after_ino : ino_ok sb (content a1) x2.
Proof. destruct (wr_ino _ _ _ _ _ _ _ _ _ Hw) as [H1 H2 H3 H4 H5 H6]. by constructor. Qed.

Lemma same_inum : i_inum x1 = i_inum x.
Proof. rewrite (wr_x _ _ _ _ _ _ _ _ _ Hw). done. Qed.

Lemma ok_ds : (0 < dstart sb)%nat.
Proof. destruct (ok_dstart _ _ _ _ _ _ _ _ Hok). lia. Qed.

(** Blocks of another file during the write. *)
Lemma after_other c2 y :
  file_ok (content a) y -> apart (content a) x y ->
  (forall b, (dstart sb <= b)%nat -> c2 !!! b = content a1 !!! b) -> (forall ad, dblk sb (content a1) ad -> dblk sb c2 ad) ->
  (forall bn, (bn < MAXFILE)%nat -> amap c2 x2 bn = amap (content a1) x1 bn) ->
  get_dinode (dinode_at (i_inum y)) (c2 !!! iblk (i_inum y)) y = get_dinode (dinode_at (i_inum y)) (content a !!! iblk (i_inum y)) y ->
  file_ok c2 y /\ apart c2 x2 y /\ fdata c2 y = fdata (content a) y.
Proof.
  intros Hy [Hne Hap] Hc2 Hd2 Hm2 Hdn.
  destruct (file_frame (content a) c2 y ok_ds (fk_ino _ _ Hy)) as (Hi & Hm & Hb).
  - intros b Hb. pose proof (own_dblk _ _ _ (fk_ino _ _ Hy) Hb) as Hdb. rewrite Hc2 by (destruct Hdb; lia).
    by apply (wr_other _ _ _ _ _ _ _ _ _ Hw); [|apply Hap].
  - intros ad Had. apply Hd2. destruct (dblk_nat _ _ Had) as (b & -> & _). by apply (wr_dblk _ _ _ _ _ _ _ _ _ Hw).
  - split_and!.
    + destruct Hy. constructor; try done; [by eapply dense_keep|congruence].
    + split; [cbn; by rewrite same_inum|]. intros b Hob. apply (own_keep _ _ _ _ Hm) in Hob.
      pose proof (own_dblk _ _ _ (fk_ino _ _ Hy) Hob) as Hdb. destruct (wr_other _ _ _ _ _ _ _ _ _ Hw b Hdb (Hap b Hob)) as [[H1 H2] _].
      split; [done|]. intros bn Hbn. rewrite Hm2 by done. by apply H2.
    + apply fbytes_keep; [|done]. pose proof (de_size _ _ (fk_dense _ _ Hy)). lia.
Qed.

Lemma after_iblk y : 0 <= i_inum y < sb_ninodes sb -> content a1 !!! iblk (i_inum y) = content a !!! iblk (i_inum y).
Proof.
  intros Hin. pose proof (fo_geo _ _ _ _ _ _ _ _ Hok) as Hg. destruct (iblk_geo _ _ Hg Hin) as (_ & H2 & _ & _ & _ & H6 & _).
  destruct (ok_dstart _ _ _ _ _ _ _ _ Hok) as (? & ? & _). destruct (geo_bm _ _ _ _ Hg 0) as (Hb & _); [lia|].
  apply (wr_low _ _ _ _ _ _ _ _ _ Hw); [done|]. unfold bmb. pose proof BPB_pos. rewrite Z.div_0_l in Hb by lia. lia.
Qed.

(** The file did not grow: the inode is the one it was. *)
Lemma written_in : Z.of_nat (off + length p) <= i_size x -> written k off p x a ks x1 a1 ks1.
Proof.
  intros Hle. pose proof (after_iblk x (fk_inum _ _ Hfk)) as Hib. assert (x1 = x) as Heq.
  { apply (wr_same _ _ _ _ _ _ _ _ _ Hw). intros o Ho. apply (de_map _ _ (fk_dense _ _ Hfk)); [apply div_MAXFILE; lia|].
    pose proof (Nat.div_mod_eq o BSIZE). lia. }
  assert (x2 = x1) as Hx2. { unfold x2. rewrite Z.max_l by lia. rewrite Heq. by destruct x. }
  pose proof after_ino as Hi. pose proof after_dense as Hd. pose proof (wrote_data _ _ _ _ _ _ _ _ _ Hw (fk_dense _ _ Hfk) Hoff Hmax) as Hdata.
  fold x2 in Hdata. rewrite Hx2 in Hi, Hd, Hdata. constructor.
  - rewrite <- Hx2 at 1. unfold x2. rewrite (wr_x _ _ _ _ _ _ _ _ _ Hw) at 1. done.
  - rewrite Heq in Hi, Hd |- *. destruct Hfk. constructor; try done. by rewrite Hib.
  - done.
  - by rewrite (wr_held _ _ _ _ _ _ _ _ _ Hw).
  - apply Hw.
  - pose proof (wr_cost _ _ _ _ _ _ _ _ _ Hw). pose proof (length_cost sb x1 ks1). lia.
  - apply Hw.
  - intros y Hy Hap. rewrite <- Hx2. apply after_other; try done. by rewrite after_iblk by apply Hy.
Qed.

(** The file grew: the inode is written too. *)
Lemma written_out : let ib := iblk (i_inum x2) in
  written k off p x a ks x2 (sp_upd ib (put_dinode (dinode_at (i_inum x2)) x2 (content a1 !!! ib)) a1) (logged ib ks1).
Proof.
  assert (i_inum x2 = i_inum x) as Hin by apply same_inum. cbv zeta. rewrite Hin. set (ib := iblk (i_inum x)).
  pose proof (fo_geo _ _ _ _ _ _ _ _ Hok) as Hg. pose proof (fo_geo _ _ _ _ _ _ _ _ Hok1) as Hg1.
  destruct (iblk_geo _ _ Hg1 (fk_inum _ _ Hfk)) as (_ & Hlow & Hdl & _ & _ & Hbm & Hdi). fold ib in Hlow, Hbm.
  destruct (txn_block _ _ _ _ _ _ _ ib (fo_txn _ _ _ _ _ _ _ _ Hok1)) as [_ Hcl]; [lia|].
  pose proof (br_size _ _ _ (txn_brep _ _ _ _ _ _ _ (fo_txn _ _ _ _ _ _ _ _ Hok1))) as Hlen.
  pose proof after_ino as Hi. pose proof after_dense as Hd. pose proof (wrote_data _ _ _ _ _ _ _ _ _ Hw (fk_dense _ _ Hfk) Hoff Hmax) as Hdata.
  set (d := put_dinode (dinode_at (i_inum x)) x2 (content a1 !!! ib)).
  assert (forall b, b <> ib -> <[ib := d]> (content a1) !!! b = content a1 !!! b) as Hc2 by (intros; by apply list_lookup_total_insert_ne).
  assert (forall ad, dblk sb (content a1) ad -> dblk sb (<[ib := d]> (content a1)) ad) as Hd2.
  { intros ad [H1 H2]. split; [done|]. by rewrite (used_low _ _ _ _ _ Hg1). }
  destruct (file_frame (content a1) (<[ib := d]> (content a1)) x2 ok_ds Hi) as (Hi' & Hm' & Hb').
  { intros b Hb. apply Hc2. pose proof (own_dblk _ _ _ Hi Hb) as [? _]. lia. }
  { done. }
  assert (dn_ok x2) as Hdn.
  { eapply dn_ok_file; [exact Hg|exact Hi|apply Hd|..]; cbn; rewrite (wr_x _ _ _ _ _ _ _ _ _ Hw); apply Hfk. }
  constructor; cbn [content sp_upd held disk].
  - unfold x2. rewrite (wr_x _ _ _ _ _ _ _ _ _ Hw) at 1. done.
  - constructor; try (cbn; rewrite (wr_x _ _ _ _ _ _ _ _ _ Hw); apply Hfk); [done|by eapply dense_keep|].
    rewrite Hin. fold ib. rewrite list_lookup_total_insert_eq by lia. unfold d. rewrite get_put_dinode by (try done; lia). by destruct x2.
  - rewrite <- Hdata. apply fbytes_keep; [|done]. pose proof (de_size _ _ Hd). fold x2. lia.
  - by rewrite (wr_held _ _ _ _ _ _ _ _ _ Hw).
  - apply Hw.
  - pose proof (wr_cost _ _ _ _ _ _ _ _ _ Hw). pose proof (length_cost sb x1 ks1). pose proof (length_logged ib ks1). lia.
  - intros n Hn. apply (wr_room _ _ _ _ _ _ _ _ _ Hw) in Hn as (fbs & ? & ? & Hf). exists fbs. split_and!; [done|done|].
    intros b Hb. cbn [content sp_upd]. rewrite (used_low _ _ _ _ _ Hg1) by done. by apply Hf.
  - intros y Hy Hap. apply after_other; try done.
    + intros b Hb. apply Hc2. lia.
    + rewrite <- after_iblk by apply Hy. destruct (decide (iblk (i_inum y) = ib)) as [He|He]; [|by rewrite Hc2].
      rewrite He, list_lookup_total_insert_eq by lia. unfold d.
      eapply get_dinode_only; [apply only_put_dinode; [apply Hi|lia]|]. apply dinode_slots; [apply Hfk|apply Hy|done|apply Hap|destruct Hg; lia].
Qed.
End after_write.

(** The number of blocks that [n] bytes at [off] touch. *)
Definition nblk (off n : nat) : nat := (off mod BSIZE + n + (BSIZE - 1)) / BSIZE.
Lemma nblk_enough off n : (off mod BSIZE + n <= BSIZE * nblk off n)%nat /\ (nblk off n < io_fuel (Z.of_nat n))%nat.
Proof.
  destruct (io_fuel_enough off n) as [_ Hf]. pose proof (Nat.mod_upper_bound off BSIZE ltac:(done)).
  pose proof (Nat.mod_upper_bound n BSIZE ltac:(done)). pose proof (Nat.div_mod_eq n BSIZE).
  set (u := (off mod BSIZE + n + (BSIZE - 1))%nat). assert (nblk off n = u / BSIZE)%nat as -> by done.
  pose proof (Nat.div_mod_eq u BSIZE). pose proof (Nat.mod_upper_bound u BSIZE ltac:(done)). split; [unfold BSIZE in *; lia|].
  assert (u / BSIZE < n / BSIZE + 3)%nat; [|lia]. apply Nat.Div0.div_lt_upper_bound. unfold BSIZE in *. lia.
Qed.

Lemma writei_spec s a ks ip x src off n Q :
  let p := take n src in
  icache s !! ip = Some x -> fsb s = sb -> ok (fl s) a ks -> file_ok (content a) x -> i_type x <> T_DEV -> 1 <= q ->
  held a = ∅ -> (nblk off n + cost sb x ks + 1 < sz)%nat -> room sb (2 * nblk off n) a -> (n <= length src)%nat ->
  Z.of_nat off <= i_size x -> (off + n <= MAXFILE * BSIZE)%nat ->
  (forall x' a' ks' l, ok l a' ks' -> written (nblk off n) off p x a ks x' a' ks' -> Q (Z.of_nat n) (put ip l x' s)) ->
  wp (writei ip src (Z.of_nat off) (Z.of_nat n)) Q s.
Proof.
  intros p Hx Hs Ho Hfk Hty Hq Hh Hc Hroom Hsrc Hoff Hmax HQ. assert (length p = n) as Hpn by (apply length_take_le; lia). pose proof MAXBYTES as HMB. pose proof (de_size _ _ (fk_dense _ _ Hfk)) as Hsz.
  pose proof (lookup_lt_Some _ _ _ Hx) as Hip.
  unfold writei. rewrite wp_bind. eapply wp_get_ip; [done|]. destruct (Z.eqb_spec (i_type x) T_DEV); [done|].
  rewrite <- Nat2Z.inj_add. rewrite (u32_small (Z.of_nat (off + n))) by lia.
  destruct (Z.of_nat off >? i_size x) eqn:E1; zb; [lia|]. destruct (Z.of_nat (off + n) <? Z.of_nat off) eqn:E2; zb; [lia|]. cbn [orb].
  destruct (Z.of_nat (off + n) >? Z.of_nat (MAXFILE * BSIZE)) eqn:E3; zb; [lia|].
  rewrite wp_bind. destruct (nblk_enough off (n)) as [Hk Hf]. set (k := nblk off (n)) in *.
  eapply (writei_loop_spec k _ s a ks ip x src 0 off n); try done; try lia; [apply Hfk|].
  intros x1 a1 ks1 l1 Ho1 Hw. rewrite Nat.sub_0_r in Hw |- *. change (slice 0 n src) with p in Hw.
  rewrite wp_bind. eapply wp_get_ip; [by apply icache_put|]. rewrite wp_bind, i32_small by lia.
  assert (i_size x1 = i_size x) as Hs1 by (rewrite (wr_x _ _ _ _ _ _ _ _ _ Hw); done). rewrite Hs1.
  destruct ((Z.of_nat (n) >? 0) && (Z.of_nat (off + n) >? i_size x)) eqn:E4; cbn [when].
  - apply andb_true_iff in E4 as [E4 E5]. zb. set (x2 := set_i_size (Z.of_nat (off + n)) x1).
    rewrite wp_bind. eapply wp_set_ip; [by apply icache_put|]. rewrite put_put. fold x2.
    assert (x2 = set_i_size (Z.max (i_size x) (Z.of_nat (off + n))) x1) as Hx2 by (unfold x2; by rewrite Z.max_r by lia).
    pose proof (wr_cost _ _ _ _ _ _ _ _ _ Hw). pose proof (length_cost sb x1 ks1).
    eapply (iupdate_spec _ a1 ks1 ip x2); [by apply icache_put|done|exact Ho1|..].
    + apply (wr_ino _ _ _ _ _ _ _ _ _ Hw).
    + cbn. rewrite (wr_x _ _ _ _ _ _ _ _ _ Hw). apply Hfk.
    + apply (wr_ino _ _ _ _ _ _ _ _ _ Hw).
    + done.
    + by rewrite (wr_held _ _ _ _ _ _ _ _ _ Hw).
    + lia.
    + intros l2. cbv zeta. intros Ho2. rewrite wp_ret, set_fl_put. eapply HQ; [exact Ho2|]. rewrite Hx2, <- Hpn. eapply (written_out k off p (fl s) l1); try done; by rewrite Hpn.
  - rewrite !wp_ret. eapply HQ; [exact Ho1|]. eapply (written_in k off p (fl s)); try done; rewrite Hpn; [done|].
    apply andb_false_iff in E4 as [E4|E4]; zb; lia.
Qed.
End io.
