(* ===== verification/File.v ===== *)
(** Open files ([file.c]) and [pipealloc] of [pipe.c].

    [fist] is the file system with the file table, the pipes and the free pages a
    pipe is made of.  A file points to an inode by its index in the inode cache and to
    a pipe by its index in [pipes].  A process runs one call at a time here: a pipe
    that makes it sleep has nobody to wake it, [NoFuel]; the interleaving of several
    processes on a pipe is in [Pipe.v]. *)

From S2P Require Import Prelude CString Mem Bio Log Fs Pipe.
Import Bio Log Fs.

Module File.

Definition NFILE : nat := 100.

Inductive ftype := FD_NONE | FD_PIPE | FD_INODE.
#[export] Instance ftype_eq_dec : EqDecision ftype.
Proof. solve_decision. Defined.

Record file : Type := mkfile {
  f_type : ftype;
  f_ref : Z;
  f_readable : Z;
  f_writable : Z;
  f_pipe : nat;
  f_ip : nat;
  f_off : Z
}.
Definition file0 : file := mkfile FD_NONE 0 0 0 0 0 0.
Definition set_f_type v f := mkfile v (f_ref f) (f_readable f) (f_writable f) (f_pipe f) (f_ip f) (f_off f).
Definition set_f_ref v f := mkfile (f_type f) v (f_readable f) (f_writable f) (f_pipe f) (f_ip f) (f_off f).
Definition set_f_off v f := mkfile (f_type f) (f_ref f) (f_readable f) (f_writable f) (f_pipe f) (f_ip f) v.
Definition set_f_pipe r w p f := mkfile FD_PIPE (f_ref f) r w p (f_ip f) (f_off f).
Definition set_f_inode r w ip f := mkfile FD_INODE (f_ref f) r w (f_pipe f) ip 0.

(** [pages]: what [kalloc] has to give, the part of each page that [p->data] covers. *)
Record fist (D : Type) : Type := mkfist {
  fs : fsst D;
  ftable : list file;
  pipes : list Pipe.psys;
  pages : list (list Z);
  fkilled : bool
}.
Arguments mkfist {D} fs ftable pipes pages fkilled.
Arguments fs {D} f.
Arguments ftable {D} f.
Arguments pipes {D} f.
Arguments pages {D} f.
Arguments fkilled {D} f.

Section file.
Context {D : Type} `{DevOps D}.
Abbreviation G := (M (fist D)).

Definition on_fs {A} (m : M (fsst D) A) : G A :=
  zoom fs (fun x s => mkfist x (ftable s) (pipes s) (pages s) (fkilled s)) m.
Definition begin_op : G unit := on_fs (on_log Log.begin_op).
Definition end_op : G unit := on_fs (on_log Log.end_op).
Definition get_file (f : nat) : G file := let! s := get in deref (ftable s !! f).
Definition set_file (f : nat) (g : file -> file) : G unit :=
  do! get_file f;
  modify (fun s => mkfist (fs s) (alter g f (ftable s)) (pipes s) (pages s) (fkilled s)).

(** Running a call of [pipe.c] on the pipe at index [p]. *)
Definition on_pipe {A} (p : nat) (m : M Pipe.psys A) : G A :=
  let! s := get in
  let! x := deref (pipes s !! p) in
  zoom (fun _ => x) (fun x s => mkfist (fs s) (ftable s) (<[p := x]> (pipes s)) (pages s) (fkilled s)) m.

Definition filealloc : G (option nat) :=
  let! l := gets ftable in
  match first_from (fun f => f_ref f =? 0) l 0 with
  | Some f => do! set_file f (set_f_ref 1); ret (Some f)
  | None => ret None
  end.

Definition filedup (f : nat) : G nat :=
  let! x := get_file f in
  if f_ref x <? 1 then panic "filedup" else
  do! set_file f (set_f_ref (i32 (f_ref x + 1)));
  ret f.

(** [kfree] of a pipe's page fills it with ones. *)
Definition kfree_page : G unit :=
  modify (fun s => mkfist (fs s) (ftable s) (pipes s) (replicate (Z.to_nat Pipe.PIPESIZE) 1 :: pages s) (fkilled s)).
Definition kalloc_page : G (option (list Z)) :=
  let! s := get in
  match pages s with
  | [] => ret None
  | pg :: rest => do! modify (fun s => mkfist (fs s) (ftable s) (pipes s) rest (fkilled s)); ret (Some pg)
  end.

Definition pipeclose (p : nat) (writable : Z) : G unit :=
  do! on_pipe p (Pipe.pipeclose (negb (writable =? 0)));
  let! s := get in
  let! x := deref (pipes s !! p) in
  match Pipe.pp x with Some _ => ret tt | None => kfree_page end.

Definition fileclose (f : nat) : G unit :=
  let! x := get_file f in
  if f_ref x <? 1 then panic "fileclose" else
  do! set_file f (set_f_ref (i32 (f_ref x - 1)));
  if i32 (f_ref x - 1) >? 0 then ret tt else
  let! ff := get_file f in
  do! set_file f (fun x => set_f_type FD_NONE (set_f_ref 0 x));
  match f_type ff with
  | FD_PIPE => pipeclose (f_pipe ff) (f_writable ff)
  | FD_INODE => do! begin_op; do! on_fs (iput (f_ip ff)); end_op
  | FD_NONE => ret tt
  end.

Definition filestat (f : nat) : G (option stat) :=
  let! x := get_file f in
  match f_type x with
  | FD_INODE =>
      do! on_fs (ilock (f_ip x));
      let! st := on_fs (stati (f_ip x)) in
      do! on_fs (iunlock (f_ip x));
      ret (Some st)
  | _ => ret None
  end.

(** The bytes read come with the return value. *)
Definition fileread (f : nat) (n : Z) : G (Z * list Z) :=
  let! x := get_file f in
  if f_readable x =? 0 then ret (-1, []) else
  match f_type x with
  | FD_PIPE =>
      let! k := gets fkilled in
      let! r := on_pipe (f_pipe x) (Pipe.piperead k (Z.to_nat n)) in
      match r with
      | (Pipe.Returned z, l) => ret (z, l)
      | (Pipe.Slept _, _) => nofuel
      end
  | FD_INODE =>
      do! on_fs (ilock (f_ip x));
      let! r := on_fs (readi (f_ip x) (f_off x) (u32 n)) in
      do! when (r.1 >? 0) (set_file f (fun x => set_f_off (u32 (f_off x + r.1)) x));
      do! on_fs (iunlock (f_ip x));
      ret r
  | FD_NONE => panic "fileread"
  end.

(** The bytes [writei] is given at a time. *)
Definition WRITE_MAX : Z := (Z.of_nat MAXOPBLOCKS - 1 - 1 - 2) / 2 * 512.

Fixpoint filewrite_loop (fuel : nat) (f : nat) (addr : list Z) (i n : Z) : G Z :=
  match fuel with
  | O => nofuel
  | S fuel =>
      if negb (i <? n) then ret (if i =? n then n else -1) else
      let n1 := if n - i >? WRITE_MAX then WRITE_MAX else n - i in
      do! begin_op;
      let! x := get_file f in
      do! on_fs (ilock (f_ip x));
      let! r := on_fs (writei (f_ip x) (drop (Z.to_nat i) addr) (f_off x) n1) in
      do! when (r >? 0) (set_file f (fun x => set_f_off (u32 (f_off x + r)) x));
      do! on_fs (iunlock (f_ip x));
      do! end_op;
      if r <? 0 then ret (if i =? n then n else -1)
      else if negb (r =? n1) then panic "short filewrite"
      else filewrite_loop fuel f addr (i + r) n
  end.

Definition filewrite (f : nat) (addr : list Z) (n : Z) : G Z :=
  let! x := get_file f in
  if f_writable x =? 0 then ret (-1) else
  match f_type x with
  | FD_PIPE =>
      let! k := gets fkilled in
      let! r := on_pipe (f_pipe x) (Pipe.pipewrite k n (take (Z.to_nat n) addr)) in
      match r with
      | Pipe.Returned z => ret z
      | Pipe.Slept _ => nofuel
      end
  | FD_INODE => filewrite_loop (S (S (Z.to_nat (n / WRITE_MAX)))) f addr 0 n
  | FD_NONE => panic "filewrite"
  end.

(** A pipe whose page has been freed leaves its index in [pipes] unused; a new pipe
    gets a new one. *)
Definition pipealloc : G (option (nat * nat)) :=
  let! f0 := filealloc in
  match f0 with
  | None => ret None
  | Some f0 =>
      let! f1 := filealloc in
      match f1 with
      | None => do! fileclose f0; ret None
      | Some f1 =>
          let! p := kalloc_page in
          match p with
          | None => do! fileclose f0; do! fileclose f1; ret None
          | Some junk =>
              let! p := gets (fun s => length (pipes s)) in
              do! modify (fun s => mkfist (fs s) (ftable s) (pipes s ++ [Pipe.psys0 junk 0]) (pages s) (fkilled s));
              do! set_file f0 (set_f_pipe 1 0 p);
              do! set_file f1 (set_f_pipe 0 1 p);
              ret (Some (f0, f1))
          end
      end
  end.

End file.
End File.
