(* ===== verification/FileSpec.v ===== *)
(** [filewrite] and [fileread] on an inode.

    Between system calls the log is empty and nobody holds a buffer ([idle]).
    [filewrite] runs one transaction per piece of [WRITE_MAX] bytes; each is small enough
    for the log, and together they splice the bytes into the file at the offset of
    the open file. *)

From S2P Require Import Prelude CString Mem Bio BioSpec Log LogSpec LogProps Fs FsSpec.
From S2P Require Import FsFile Dinode FsIo File.
Import Bio Log Fs.

Implicit Types (a : bspec) (ks : list nat) (l : lst) (c : list (list Z)) (p : list Z) (x y : inode).

(** ** Blocks outside the log *)

Section outside.
Context (q q' me : Z) (st sz : nat) (sb : superblock).

Definition agree c c' : Prop := length c' = length c /\ forall b, outside st sz b -> c' !! b = c !! b.

Lemma agree_total c c' b : agree c c' -> outside st sz b -> c' !!! b = c !!! b.
Proof. intros [_ H] Hb. rewrite !list_lookup_total_alt. by rewrite H. Qed.
Lemma agree_used n c c' b : geo st sz sb n -> agree c c' -> Z.of_nat b < sb_size sb -> used sb c' b = used sb c b.
Proof. intros Hg Ha Hb. unfold used. destruct (geo_bm _ _ _ _ Hg b Hb) as (_ & _ & _ & Ho & _). by rewrite (agree_total _ _ _ Ha). Qed.
Lemma agree_dblk n c c' ad : geo st sz sb n -> agree c c' -> dblk sb c ad -> dblk sb c' ad.
Proof. intros Hg Ha [H1 H2]. split; [done|]. by rewrite (agree_used n c) by (try done; lia). Qed.
Lemma agree_data n c c' b : geo st sz sb n -> agree c c' -> (dstart sb <= b)%nat -> c' !!! b = c !!! b.
Proof. intros Hg Ha Hb. apply (agree_total _ _ _ Ha). by eapply geo_data. Qed.

Lemma agree_file n c c' x : geo st sz sb n -> agree c c' -> file_ok sb c x ->
  file_ok sb c' x /\ fdata c' x = fdata c x /\ (forall bn, (bn < MAXFILE)%nat -> amap c' x bn = amap c x bn).
Proof.
  intros Hg Ha Hx. assert (0 < dstart sb)%nat as Hds.
  { destruct Hg. assert (0 <= sb_ninodes sb / IPB) by (apply Z.div_pos; [lia|done]). pose proof BPB_pos.
    assert (0 <= sb_size sb / BPB) by (apply Z.div_pos; lia). unfold dstart. lia. }
  destruct (file_frame sb c c' x Hds (fk_ino _ _ _ Hx)) as (Hi & Hm & Hb).
  - intros b Hb. apply (agree_data _ _ _ _ Hg Ha). destruct (own_dblk _ _ _ _ (fk_ino _ _ _ Hx) Hb). lia.
  - intros ad. by eapply agree_dblk.
  - split_and!; [|apply fbytes_keep; [|done]|done].
    + destruct Hx. constructor; try done; [by eapply dense_keep|]. rewrite (agree_total _ _ _ Ha); [done|].
      by eapply iblk_geo.
    + pose proof (de_size _ _ (fk_dense _ _ _ Hx)). lia.
Qed.

Lemma agree_apart c c' x y : (forall bn, (bn < MAXFILE)%nat -> amap c' x bn = amap c x bn) ->
  (forall bn, (bn < MAXFILE)%nat -> amap c' y bn = amap c y bn) -> apart c x y -> apart c' x y.
Proof.
  intros Hx Hy [Hn Ha]. split; [done|]. intros b Hb. apply (own_keep _ _ _ _ Hy) in Hb. destruct (Ha b Hb) as [H1 H2].
  split; [done|]. intros bn Hbn. rewrite Hx by done. by apply H2.
Qed.

Lemma agree_room n k a a' : geo st sz sb n -> agree (content a) (content a') -> room sb k a -> room sb k a'.
Proof.
  intros Hg Ha (fbs & H1 & H2 & H3). exists fbs. split_and!; [done|done|]. intros b Hb. destruct (H3 b Hb). split; [done|].
  by rewrite (agree_used n (content a)).
Qed.

Lemma agree_ok l l' a a' ks ks' : fsok q me st sz sb l a ks -> agree (content a) (content a') -> held a' = ∅ -> length (disk a') = length (disk a) ->
  txn q' me st sz l' a' ks' -> fsok q' me st sz sb l' a' ks'.
Proof.
  intros Ho Ha Hh Hl Ht. pose proof (fo_geo _ _ _ _ _ _ _ _ Ho) as Hg. constructor; [done|by rewrite Hl| |].
  - intros b Hb. rewrite (agree_used (length (disk a)) (content a)); [by apply Ho|exact Hg|done|].
    destruct (ok_dstart _ _ _ _ _ _ _ _ Ho). lia.
  - intros j b. by rewrite Hh, lookup_empty.
Qed.
End outside.

(** ** Transactions *)

Section ops.
Context `{DevOps D} (me : Z) (st sz : nat) (sb : superblock).
Implicit Types s : fsst D.

(** Between system calls. *)
Record idle s a : Prop := {
  id_ok : fsok 0 me st sz sb (fl s) a [];
  id_held : held a = ∅;
  id_sb : fsb s = sb
}.

Lemma F_begin s a Q : idle s a ->
  (forall l, fsok 1 me st sz sb l a [] -> Q tt (set_fl l s)) -> wp (on_log begin_op) Q s.
Proof.
  intros [Ho Hh Hs] HQ. rewrite wp_on_log. eapply wp_mono; [apply (begin_op_spec me st sz _ a); apply Ho|]. cbn beta.
  intros [] l [Hi Hl]. apply HQ. destruct Ho as [Ht Hg Hm Hd]. by constructor.
Qed.

Lemma F_end s a ks Q :
  fsok 1 me st sz sb (fl s) a ks -> held a = ∅ -> fsb s = sb ->
  (forall l a', idle (set_fl l s) a' -> agree st sz (content a) (content a') -> Q tt (set_fl l s)) -> wp (on_log end_op) Q s.
Proof.
  intros Ho Hh Hs HQ. rewrite wp_on_log. pose proof (fo_txn _ _ _ _ _ _ _ _ Ho) as [Hi Hn].
  eapply wp_mono; [by apply (end_op_spec me st sz (fl s) a ks)|]. cbn beta. intros [] l [Hi' Hl'].
  set (a' := after _ _ _) in Hi'. assert (agree st sz (content a) (content a')) as Ha.
  { split; [cbn; apply length_apply_writes|]. intros b Hb. cbn. case_decide as Hk; [done|]. apply (commit_content me st sz (fl s) a ks); try done; apply Hi. }
  apply (HQ _ a'); [|done]. constructor; [|done|done].
  eapply (agree_ok 1 0); [exact Ho|exact Ha|done|cbn; by rewrite length_apply_writes|by constructor].
Qed.

(** ** The sleep lock of an inode *)

(** The inode is referenced, valid and not locked. *)
Record ready x : Prop := { rd_ref : 1 <= i_ref x; rd_lock : i_locked x = 0; rd_pid : i_pid x = 0; rd_valid : i_valid x <> 0; rd_type : i_type x <> T_DEV }.

Lemma file_ok_lock c x v w : file_ok sb c x -> file_ok sb c (set_i_lock v w x).
Proof.
  intros [[] [] ? ? ? ? ? Hsync]. constructor; try done; [by constructor..|]. exact (f_equal (set_i_lock v w) Hsync).
Qed.

Lemma unlock_lock x v w : ready x -> set_i_lock 0 0 (set_i_lock v w x) = x.
Proof. intros [_ Hl Hp _ _]. destruct x. cbn in *. by subst. Qed.

Lemma ilock_ready s ip x Q : icache s !! ip = Some x -> ready x ->
  Q tt (put ip (fl s) (set_i_lock 1 (Bio.mypid (bc (fl s))) x) s) -> wp (ilock ip) Q s.
Proof.
  intros Hx [Hr Hl _ Hv _] HQ. pose proof (lookup_lt_Some _ _ _ Hx). unfold ilock. rewrite wp_bind. eapply wp_get_ip; [done|].
  destruct (i_ref x <? 1) eqn:E; zb; [lia|]. unfold acquiresleep, Fs.mypid. rewrite !wp_bind. eapply wp_get_ip; [done|].
  rewrite Hl. cbn [negb Z.eqb]. rewrite wp_bind, wp_gets. eapply wp_set_ip; [done|]. rewrite wp_bind.
  eapply wp_get_ip; [by apply icache_put|]. cbn [i_valid set_i_lock]. destruct (Z.eqb_spec (i_valid x) 0); [done|]. cbn [when].
  by rewrite wp_ret.
Qed.

Lemma iunlock_spec s ip x Q : icache s !! ip = Some x -> 1 <= i_ref x -> i_locked x <> 0 -> i_pid x = Bio.mypid (bc (fl s)) ->
  Q tt (put ip (fl s) (set_i_lock 0 0 x) s) -> wp (iunlock ip) Q s.
Proof.
  intros Hx Hr Hl Hp HQ. unfold iunlock, holdingsleep, Fs.mypid. rewrite !wp_bind. eapply wp_get_ip; [done|]. rewrite wp_bind, wp_gets, wp_ret.
  rewrite wp_bind. eapply wp_get_ip; [done|]. destruct (Z.eqb_spec (i_locked x) 0); [done|]. rewrite Hp, Z.eqb_refl.
  destruct (i_ref x <? 1) eqn:E; zb; [lia|]. cbn [negb andb orb]. unfold releasesleep. by eapply wp_set_ip.
Qed.
End ops.

(** ** Open files *)

Import File.

Lemma splice_splice off p1 p2 (f : list Z) : (off <= length f)%nat ->
  splice (off + length p1) p2 (splice off p1 f) = splice off (p1 ++ p2) f.
Proof.
  intros Hf. unfold splice. set (h := take off f ++ p1). assert (length h = off + length p1)%nat as Hh
    by (unfold h; rewrite length_app, length_take_le; lia).
  rewrite (app_assoc (take off f) p1). fold h. rewrite take_app_length' by done. rewrite drop_app_ge by lia.
  rewrite drop_drop, Hh, length_app. unfold h. rewrite <- !app_assoc. do 4 f_equal. lia.
Qed.
Lemma length_splice_ge off p (f : list Z) : (off <= length f)%nat -> (off + length p <= length (splice off p f))%nat.
Proof. intros Hf. unfold splice. rewrite !length_app, length_take_le by lia. lia. Qed.
Lemma splice_nil off (f : list Z) : splice off [] f = f.
Proof. unfold splice. cbn [length app]. rewrite Nat.add_0_r. apply take_drop. Qed.

Section files.
Context `{DevOps D} (me : Z) (st sz : nat) (sb : superblock) (Hone : sb_size sb <= BPB).
Implicit Types s : fist D.

Definition set_fs (u : fsst D) s : fist D := mkfist u (ftable s) (pipes s) (pages s) (fkilled s).

Lemma wp_on_fs {A} (m : M (fsst D) A) (Q : A -> fist D -> Prop) s :
  wp (on_fs m) Q s <-> wp m (fun r u => Q r (set_fs u s)) (fs s).
Proof. apply (wp_zoom fs (fun u s => mkfist u (ftable s) (pipes s) (pages s) (fkilled s))). Qed.
Lemma wp_get_file f fx s (Q : file -> fist D -> Prop) : ftable s !! f = Some fx -> Q fx s -> wp (get_file f) Q s.
Proof. intros Hf HQ. unfold get_file. wp_steps. by exists fx. Qed.
Lemma wp_set_file f g fx s (Q : unit -> fist D -> Prop) : ftable s !! f = Some fx ->
  Q tt (mkfist (fs s) (<[f := g fx]> (ftable s)) (pipes s) (pages s) (fkilled s)) -> wp (set_file f g) Q s.
Proof.
  intros Hf HQ. unfold set_file. rewrite wp_bind. eapply wp_get_file; [done|]. rewrite wp_modify. by rewrite (list_alter_insert _ _ _ fx Hf).
Qed.

(** What transactions that write [p] at [off] promise. *)
Record fwrote (off : nat) p x a x' a' : Prop := {
  fw_ok : file_ok sb (content a') x';
  fw_data : fdata (content a') x' = splice off p (fdata (content a) x);
  fw_ready : ready x';
  fw_inum : i_inum x' = i_inum x;
  fw_other : forall y, file_ok sb (content a) y -> apart (content a) x y ->
    file_ok sb (content a') y /\ apart (content a') x' y /\ fdata (content a') y = fdata (content a) y
}.

Lemma fwrote_refl off x a : file_ok sb (content a) x -> ready x -> fwrote off [] x a x a.
Proof. intros Hx Hr. constructor; try done. by rewrite splice_nil. Qed.
Lemma fwrote_trans off p1 p2 x a x1 a1 x2 a2 : Z.of_nat off <= i_size x ->
  fwrote off p1 x a x1 a1 -> fwrote (off + length p1) p2 x1 a1 x2 a2 -> fwrote off (p1 ++ p2) x a x2 a2.
Proof.
  intros Hoff [K1 D1 R1 I1 O1] [K2 D2 R2 I2 O2]. constructor; [exact K2| |exact R2|congruence|].
  - rewrite D2, D1. apply splice_splice. rewrite length_fdata. lia.
  - intros y Hy Ha. destruct (O1 y Hy Ha) as (Hy1 & Ha1 & Hd1). destruct (O2 y Hy1 Ha1) as (Hy2 & Ha2 & Hd2).
    split_and!; [done|done|congruence].
Qed.

Lemma apart_lock c x v w y : apart c (set_i_lock v w x) y <-> apart c x y.
Proof. done. Qed.

(** The state with the open file, the inode and the log changed. *)
Definition fput (f : nat) (fx : file) (ip : nat) l x s : fist D :=
  mkfist (put ip l x (fs s)) (<[f := fx]> (ftable s)) (pipes s) (pages s) (fkilled s).

(** One transaction of [filewrite]. *)
Lemma write_txn {B} s a f fx x src n (k : Z -> M (fist D) B) Q :
  let off := Z.to_nat (f_off fx) in let p := take n src in
  idle me st sz sb (fs s) a -> ftable s !! f = Some fx -> icache (fs s) !! f_ip fx = Some x -> file_ok sb (content a) x -> ready x ->
  (0 < n <= length src)%nat -> 0 <= f_off fx <= i_size x -> (off + n <= MAXFILE * BSIZE)%nat ->
  (nblk off n + 3 < sz)%nat -> room sb (2 * nblk off n) a ->
  (forall x' a' l, idle me st sz sb (put (f_ip fx) l x' (fs s)) a' -> fwrote off p x a x' a' ->
     (forall m, room sb (2 * nblk off n + m) a -> room sb m a') ->
     wp (k (Z.of_nat n)) Q (fput f (set_f_off (f_off fx + Z.of_nat n) fx) (f_ip fx) l x' s)) ->
  wp (do! File.begin_op;
      let! fx := get_file f in
      do! on_fs (ilock (f_ip fx));
      let! r := on_fs (writei (f_ip fx) src (f_off fx) (Z.of_nat n)) in
      do! when (r >? 0) (set_file f (fun g => set_f_off (u32 (f_off g + r)) g));
      do! on_fs (iunlock (f_ip fx));
      do! File.end_op;
      k r) Q s.
Proof.
  intros off p Hid Hf Hx Hfk Hrd Hn Hoff Hmax Hsz Hroom HQ. set (ip := f_ip fx) in *.
  pose proof (lookup_lt_Some _ _ _ Hx) as Hip. pose proof (lookup_lt_Some _ _ _ Hf) as Hfl. pose proof MAXBYTES.
  assert (length p = n) as Hpn by (apply length_take_le; lia).
  unfold File.begin_op, File.end_op. rewrite wp_bind, wp_on_fs. eapply (F_begin me st sz sb); [exact Hid|]. intros l1 Ho1.
  rewrite wp_bind. eapply wp_get_file; [exact Hf|]. fold ip. rewrite wp_bind, wp_on_fs. eapply ilock_ready; [exact Hx|done|].
  set (x1 := set_i_lock 1 _ x). cbn [fs set_fs fl set_fl]. change (put ip l1 x1 (set_fl l1 (fs s))) with (put ip l1 x1 (fs s)).
  rewrite wp_bind, wp_on_fs. cbn [fs set_fs]. replace (f_off fx) with (Z.of_nat off) by lia.
  assert (cost sb x1 [] = 2)%nat as Hc.
  { unfold cost. rewrite !decide_False by (rewrite ?elem_of_nil; naive_solver). done. }
  eapply (writei_spec 1 me st sz sb Hone _ a [] ip x1 src off n); [by apply icache_put|apply Hid|exact Ho1|by apply file_ok_lock|apply Hrd|done|apply Hid|lia|done|lia|cbn; lia|done|].
  fold p. intros x2 a2 ks2 l2 Ho2 Hw. rewrite put_put. unfold set_fs at 2. cbn [fs ftable pipes pages fkilled set_fs].
  rewrite wp_bind. destruct (Z.of_nat n >? 0) eqn:E; zb; [|lia]. cbn [when].
  eapply wp_set_file; [exact Hf|]. cbn [fs ftable pipes pages fkilled set_fs]. rewrite u32_small by lia.
  assert (Bio.mypid (bc l2) = me) as Hme2 by (apply (br_me _ _ _ (txn_brep _ _ _ _ _ _ _ (fo_txn _ _ _ _ _ _ _ _ Ho2)))).
  assert (Bio.mypid (bc l1) = me) as Hme1 by (apply (br_me _ _ _ (txn_brep _ _ _ _ _ _ _ (fo_txn _ _ _ _ _ _ _ _ Ho1)))).
  pose proof (wn_x _ _ _ _ _ _ _ _ _ _ Hw) as Hx2. rewrite Hpn in Hx2.
  rewrite wp_bind, wp_on_fs. eapply (iunlock_spec _ _ x2); [by apply icache_put|rewrite Hx2; apply Hrd|by rewrite Hx2|rewrite Hx2; cbn; congruence|].
  set (x3 := set_i_lock 0 0 x2). cbn [fs]. rewrite put_put. change (fl (put ip l2 x2 (fs s))) with l2.
  rewrite wp_bind, wp_on_fs. eapply (F_end me st sz sb _ a2 ks2); [exact Ho2|apply Hw|apply Hid|].
  intros l3 a3 Hid3 Hag. cbn [fs set_fs] in Hid3 |- *. rewrite set_fl_put in Hid3 |- *.
  pose proof (fo_geo _ _ _ _ _ _ _ _ Ho2) as Hg. pose proof (file_ok_lock sb _ _ 0 0 (wn_ok _ _ _ _ _ _ _ _ _ _ Hw)) as Hk3. fold x3 in Hk3.
  destruct (agree_file st sz sb _ _ _ x3 Hg Hag Hk3) as (Hk4 & Hd4 & Hm4).
  apply (HQ x3 a3 l3); [exact Hid3| |].
  - constructor; [done| | |unfold x3; by rewrite Hx2|].
    + rewrite Hd4. apply (wn_data _ _ _ _ _ _ _ _ _ _ Hw).
    + destruct Hrd. unfold x3. rewrite Hx2. by constructor.
    + intros y Hy Ha. destruct (wn_other _ _ _ _ _ _ _ _ _ _ Hw y Hy Ha) as (Hy2 & Ha2 & Hd2).
      destruct (agree_file st sz sb _ _ _ y Hg Hag Hy2) as (Hy3 & Hd3 & Hm3). split_and!; [done| |congruence].
      by eapply (agree_apart (content a2)).
  - intros m Hm. eapply agree_room; [exact Hg|exact Hag|]. by apply (wn_room _ _ _ _ _ _ _ _ _ _ Hw).
Qed.

Lemma nblk_small off n : (n <= 1536)%nat -> (nblk off n <= 4)%nat.
Proof.
  intros Hn. unfold nblk. pose proof (Nat.mod_upper_bound off BSIZE ltac:(done)). assert (BSIZE = 512%nat) as HB by done.
  apply Nat.lt_succ_r. apply Nat.Div0.div_lt_upper_bound. rewrite HB in *. lia.
Qed.

Lemma room_le k m a : (m <= k)%nat -> room sb k a -> room sb m a.
Proof. intros Hm (fbs & ? & ? & ?). exists fbs. split_and!; try done. lia. Qed.

Lemma fput_fput f fx fx' ip l l' x x' s : fput f fx ip l x (fput f fx' ip l' x' s) = fput f fx ip l x s.
Proof. unfold fput. cbn. by rewrite put_put, list_insert_insert_eq. Qed.
Lemma fput_id f fx ip x s : ftable s !! f = Some fx -> icache (fs s) !! ip = Some x -> fput f fx ip (fl (fs s)) x s = s.
Proof. intros Hf Hx. unfold fput, put. rewrite !list_insert_id by done. by destruct s as [[]]. Qed.

Lemma filewrite_loop_spec m fuel s a f fx x src (i n : nat) Q :
  let off := Z.to_nat (f_off fx) in
  idle me st sz sb (fs s) a -> ftable s !! f = Some fx -> icache (fs s) !! f_ip fx = Some x -> file_ok sb (content a) x -> ready x ->
  (i <= n <= length src)%nat -> 0 <= f_off fx <= i_size x -> (off + (n - i) <= MAXFILE * BSIZE)%nat ->
  (7 < sz)%nat -> (n - i <= 1536 * m)%nat -> (m < fuel)%nat -> room sb (8 * m) a ->
  (forall x' a' l, idle me st sz sb (put (f_ip fx) l x' (fs s)) a' -> fwrote off (slice i (n - i) src) x a x' a' ->
     Q (Z.of_nat n) (fput f (set_f_off (f_off fx + Z.of_nat (n - i)) fx) (f_ip fx) l x' s)) ->
  wp (filewrite_loop fuel f src (Z.of_nat i) (Z.of_nat n)) Q s.
Proof.
  cbv zeta. revert m s a fx x i. induction fuel as [|fuel IH]; intros m s a fx x i Hid Hf Hx Hfk Hrd Hi Hoff Hmax Hsz Hm Hfu Hroom HQ; [lia|].
  pose proof (lookup_lt_Some _ _ _ Hx) as Hip. pose proof (lookup_lt_Some _ _ _ Hf) as Hfl. pose proof MAXBYTES.
  cbn [filewrite_loop]. destruct (Z.of_nat i <? Z.of_nat n) eqn:E; zb; cbn [negb].
  2: { assert (i = n) as -> by lia. rewrite Z.eqb_refl, wp_ret. specialize (HQ x a (fl (fs s))). rewrite Nat.sub_diag in HQ. cbn [Z.of_nat] in HQ.
    rewrite Z.add_0_r in HQ. replace (set_f_off (f_off fx) fx) with fx in HQ by (by destruct fx). rewrite fput_id in HQ by done.
    apply HQ; [|by apply fwrote_refl]. rewrite <- put_id by done. by rewrite set_fl_id. }
  destruct m as [|m]; [lia|]. change WRITE_MAX with 1536. set (n1 := Nat.min (n - i) 1536).
  assert ((if Z.of_nat n - Z.of_nat i >? 1536 then 1536 else Z.of_nat n - Z.of_nat i) = Z.of_nat n1) as ->
    by (destruct (Z.of_nat n - Z.of_nat i >? 1536) eqn:E1; zb; lia).
  set (off := Z.to_nat (f_off fx)) in *. pose proof (nblk_small off n1 ltac:(lia)) as Hnb. rewrite Nat2Z.id. cbv zeta.
  eapply (write_txn s a f fx x (drop i src) n1); try done; fold off; [rewrite length_drop; lia|lia|lia|eapply room_le; [|exact Hroom]; lia|].
  intros x1 a1 l1 Hid1 Hw1 Hr1. assert (take n1 (drop i src) = slice i n1 src) as Hp by done. rewrite Hp in Hw1.
  assert (length (slice i n1 src) = n1) as Hlp by (apply length_slice; lia).
  destruct (Z.of_nat n1 <? 0) eqn:E2; zb; [lia|]. rewrite Z.eqb_refl. cbn [negb]. rewrite <- Nat2Z.inj_add.
  set (fx1 := set_f_off (f_off fx + Z.of_nat n1) fx). assert (Z.to_nat (f_off fx1) = off + n1)%nat as Hoff1 by (cbn; lia).
  assert (Z.of_nat (off + n1) <= i_size x1) as Hs1.
  { pose proof (f_equal length (fw_data _ _ _ _ _ _ Hw1)) as Hl. rewrite !length_fdata in Hl.
    pose proof (length_splice_ge off (slice i n1 src) (fdata (content a) x)) as Hg. rewrite length_fdata, Hlp in Hg. lia. }
  eapply (IH m (fput f fx1 (f_ip fx) l1 x1 s) a1 fx1 x1 (i + n1)%nat); [done| | |apply Hw1|apply Hw1|lia|cbn; lia| |done|lia|lia| |].
  - cbn. by rewrite list_lookup_insert_eq.
  - by apply icache_put.
  - rewrite Hoff1. lia.
  - apply Hr1. eapply room_le; [|exact Hroom]. lia.
  - intros x2 a2 l2 Hid2 Hw2. rewrite fput_fput. cbn [fs fput] in Hid2. cbn [f_ip set_f_off fx1] in Hid2 |- *. rewrite put_put in Hid2.
    replace (set_f_off _ fx1) with (set_f_off (f_off fx + Z.of_nat (n - i)) fx) by (unfold fx1, set_f_off; cbn; f_equal; lia).
    apply (HQ x2 a2 l2); [done|]. replace (n - i)%nat with (n1 + (n - (i + n1)))%nat by lia. rewrite slice_add.
    rewrite Hoff1 in Hw2. eapply fwrote_trans; [lia|exact Hw1|by rewrite Hlp].
Qed.

Lemma fileread_inode s a f fx x n Q :
  idle me st sz sb (fs s) a -> ftable s !! f = Some fx -> f_type fx = FD_INODE -> f_readable fx <> 0 -> icache (fs s) !! f_ip fx = Some x ->
  file_ok sb (content a) x -> ready x -> (4 < sz)%nat -> 0 <= f_off fx < 2 ^ 31 -> 0 <= n < 2 ^ 31 ->
  (forall l, let r := read_result (fdata (content a) x) (f_off fx) n in
     idle me st sz sb (put (f_ip fx) l x (fs s)) a ->
     Q r (fput f (set_f_off (f_off fx + Z.max 0 r.1) fx) (f_ip fx) l x s)) ->
  wp (fileread f n) Q s.
Proof.
  intros Hid Hf Hty Hrw Hx Hfk Hrd Hsz Hoff Hn HQ. set (ip := f_ip fx) in *.
  pose proof (lookup_lt_Some _ _ _ Hx) as Hip. pose proof (de_size _ _ (fk_dense _ _ _ Hfk)). pose proof MAXBYTES.
  unfold fileread. rewrite wp_bind. eapply wp_get_file; [exact Hf|]. destruct (Z.eqb_spec (f_readable fx) 0); [done|]. rewrite Hty.
  fold ip. rewrite wp_bind, wp_on_fs. eapply ilock_ready; [exact Hx|done|]. set (x1 := set_i_lock 1 _ x).
  rewrite u32_small by lia. rewrite wp_bind, wp_on_fs. cbn [fs set_fs].
  eapply (readi_spec 0 me st sz sb Hone _ a [] ip x1); [by apply icache_put|apply Hid|apply Hid| | |apply Hid| |apply Hrd|lia|lia|].
  { by apply (file_ok_lock sb _ _ 1). }
  { by apply (file_ok_lock sb _ _ 1). }
  { unfold cost. rewrite !decide_False by (rewrite ?elem_of_nil; naive_solver). cbn. lia. }
  change (fdata (content a) x1) with (fdata (content a) x). intros l Ho. set (r := read_result _ _ _).
  assert (-1 <= r.1 <= 71680) as Hr.
  { unfold r, read_result. destruct (_ || _); cbn [fst]; [lia|]. unfold slice. rewrite length_take, length_drop, length_fdata. lia. }
  rewrite set_fl_put. rewrite wp_bind. cbn [fst set_fs fs].
  assert (wp (when (r.1 >? 0) (set_file f (fun g => set_f_off (u32 (f_off g + r.1)) g)))
    (fun _ s' => s' = fput f (set_f_off (f_off fx + Z.max 0 r.1) fx) ip l x1 s) (set_fs (put ip l x1 (fs s)) s)) as Hwhen.
  { destruct (r.1 >? 0) eqn:E; zb; cbn [when].
    - eapply wp_set_file; [exact Hf|]. rewrite u32_small, Z.max_r by lia. done.
    - rewrite wp_ret, Z.max_l by lia. rewrite Z.add_0_r. replace (set_f_off (f_off fx) fx) with fx by (by destruct fx).
      unfold fput, set_fs. by rewrite list_insert_id. }
  eapply wp_mono; [exact Hwhen|]. cbn beta. intros [] s' ->.
  assert (Bio.mypid (bc l) = me) as Hme by (apply (br_me _ _ _ (txn_brep _ _ _ _ _ _ _ (fo_txn _ _ _ _ _ _ _ _ Ho)))).
  assert (Bio.mypid (bc (fl (fs s))) = me) as Hme1 by (apply (br_me _ _ _ (txn_brep _ _ _ _ _ _ _ (fo_txn _ _ _ _ _ _ _ _ (id_ok _ _ _ _ _ _ Hid))))).
  rewrite wp_bind, wp_on_fs. eapply (iunlock_spec _ _ x1); [by apply icache_put|apply Hrd|done|cbn; congruence|].
  rewrite wp_ret. cbn [fs fput]. rewrite put_put. change (fl (put ip l x1 (fs s))) with l.
  assert (set_i_lock 0 0 x1 = x) as -> by (by apply unlock_lock).
  specialize (HQ l). cbv zeta in HQ. fold r in HQ. unfold set_fs, fput in HQ |- *. cbn [ftable pipes pages fkilled]. apply HQ.
  constructor; [exact Ho|apply Hid|apply Hid].
Qed.
End files.
