(* ===== verification/FsProps.v ===== *)
(** What the file system promises: theorems on [balloc], the inode on the disk,
    [readi], [writei], [fileread] and [filewrite], with a small disk they apply to. *)

From S2P Require Import Prelude CString Mem Bio BioSpec Log LogSpec LogProps Fs FsSpec.
From S2P Require Import FsFile Dinode FsIo File FileSpec.
Import Bio Log Fs File.

Implicit Types (a : bspec) (ks : list nat) (l : lst) (c : list (list Z)) (p : list Z) (x y : inode).

(** ** A disk of 64 blocks

    The log is in blocks 2 to 31, the inodes from 32, the bitmap is block 34.  Inode 1
    is an empty file. *)

Definition d_sb : superblock := mksb 64 29 8 30 2 32 34.
Definition d_ino : inode := mkinode 1 1 1 0 0 1 2 0 0 1 0 (replicate (S NDIRECT) 0).
Definition d_disk : list (list Z) :=
  <[1%nat := put32 24 34 (put32 20 32 (put32 16 2 (put32 12 30 (put32 8 8 (put32 4 29 (put32 0 64 zeros))))))]>
  (<[32%nat := put_dinode 64 d_ino zeros]>
  (<[34%nat := [255; 255; 255; 255; 7] ++ replicate (BSIZE - 5) 0]> (replicate 64 zeros))).

#[local] Instance no_devices : DevOps unit := { devsw_read _ := None; devsw_write _ := None }.

Definition d_file : file := mkfile FD_INODE 1 1 1 0 0 0.
Definition d_fs l : fsst unit := mkfsst l [d_ino] d_sb 0 tt.
Definition d_state l : fist unit := mkfist (d_fs l) [d_file] [] [] false.

Lemma d_disk_ok : disk_ok 2 30 d_disk.
Proof.
  assert (length d_disk = 64%nat) as Hlen by reflexivity. constructor; rewrite ?Hlen; try (unfold LOGSIZE, MAXOPBLOCKS; lia).
  - do 3 (apply Forall_insert; [|reflexivity]). apply Forall_replicate. reflexivity.
  - eexists. split; [reflexivity|]. split; reflexivity.
Qed.

Lemma d_used : forall b, (b < 64)%nat -> used d_sb d_disk b = bool_decide (b < 35)%nat.
Proof.
  assert (forallb (fun b => Bool.eqb (used d_sb d_disk b) (bool_decide (b < 35)%nat)) (seq 0 64) = true) as H by (vm_compute; reflexivity).
  intros b Hb. rewrite forallb_forall in H. apply Bool.eqb_prop, H. apply in_seq. lia.
Qed.
Lemma d_geo : geo 2 30 d_sb 64.
Proof. constructor; cbn; try lia; done. Qed.

Lemma d_amap c bn : amap c d_ino bn = 0.
Proof.
  assert (forall i, default 0 (replicate (S NDIRECT) 0 !! i) = 0) as Hr.
  { intros i. destruct (replicate (S NDIRECT) 0 !! i) as [v|] eqn:E; [|done]. by apply lookup_replicate in E as [-> _]. }
  unfold amap. destruct (bn <? NDIRECT)%nat; [apply Hr|]. assert (indirect d_ino = 0) as -> by apply Hr. done.
Qed.

Lemma d_file_ok : file_ok d_sb d_disk d_ino.
Proof.
  constructor; try (cbn; lia).
  - constructor; try done; intros; rewrite ?d_amap in *; done.
  - pose proof MAXBYTES. constructor; change (i_size d_ino) with 0; [lia|]. intros bn _ ?. lia.
  - vm_compute. reflexivity.
Qed.

(** The state after booting, before any system call. *)
Lemma d_boot : exists l a, idle 1 2 30 d_sb (d_fs l) a /\ content a = d_disk /\ disk a = d_disk.
Proof.
  assert (wp boot (fun _ l => exists a, log_inv 1 2 30 l a [] /\ l_outstanding (lg l) = 0 /\ a = mkbspec d_disk d_disk ∅ ∅ [(2%nat, zeros)]) (lst0 1 d_disk)) as H.
  { eapply wp_mono; [apply (boot_clean 1 2 30 d_disk zeros); [apply d_disk_ok|reflexivity|split; reflexivity|reflexivity]|].
    cbn beta. intros [] l [Hi Ho]. by eexists. }
  pose proof (proj1 (wp_Ok boot _ (lst0 1 d_disk)) H) as Hx. clear H. generalize dependent (lst0 1 d_disk).
  intros s0 (r & l & _ & a & Hi & Ho & ->). exists l, (mkbspec d_disk d_disk ∅ ∅ [(2%nat, zeros)]). split; [|done].
  constructor; [|done|done]. constructor; [by constructor|exact d_geo| |done].
  cbn [content]. intros b Hb. change (dstart d_sb) with 35%nat in Hb. rewrite d_used by lia. by apply bool_decide_eq_true_2.
Qed.

(** The state inside a transaction. *)
Lemma d_begin : exists l a, fsok 1 1 2 30 d_sb l a [] /\ held a = ∅ /\ content a = d_disk.
Proof.
  destruct d_boot as (l & a & Hid & Hc & _).
  assert (wp (on_log Log.begin_op) (fun _ s => fsok 1 1 2 30 d_sb (fl s) a []) (d_fs l)) as Hb by (by eapply F_begin).
  apply wp_Ok in Hb as (r & s & _ & Ho). exists (fl s), a. split_and!; [done|apply Hid|done].
Qed.

Lemma d_room n a : content a = d_disk -> (n <= 29)%nat -> room d_sb n a.
Proof.
  intros Hc Hn. exists (seq 35 29). split_and!.
  - apply NoDup_seq.
  - by rewrite length_seq.
  - intros b [Hb1 Hb2]%elem_of_seq. cbn. split; [lia|]. rewrite Hc, d_used by lia. apply bool_decide_eq_false_2. lia.
Qed.
Lemma d_ready : ready d_ino.
Proof. by constructor. Qed.

(** ** Theorems *)

(** C4: [filewrite] on an inode writes all [n] bytes, whatever their number: one
    transaction after the other, none of which overflows the log, it splices them into the
    file at the offset of the open file, which moves by [n].  Every other file keeps its
    contents, and the log is empty again.  It needs free blocks on the disk and a file that
    stays below [MAXFILE] blocks. *)
Theorem filewrite_splices `{DevOps D} me st sz sb (s : fist D) a f fx x src (n : nat) :
  sb_size sb <= BPB -> (7 < sz)%nat -> idle me st sz sb (fs s) a ->
  ftable s !! f = Some fx -> f_type fx = FD_INODE -> f_writable fx <> 0 ->
  icache (fs s) !! f_ip fx = Some x -> file_ok sb (content a) x -> ready x ->
  (n <= length src)%nat -> 0 <= f_off fx <= i_size x -> f_off fx + Z.of_nat n <= Z.of_nat (MAXFILE * BSIZE) ->
  room sb (8 * (n / 1536 + 1)) a ->
  wp (filewrite f src (Z.of_nat n)) (fun r s' => r = Z.of_nat n /\ exists x' a' l,
    s' = fput f (set_f_off (f_off fx + Z.of_nat n) fx) (f_ip fx) l x' s /\
    idle me st sz sb (fs s') a' /\ ready x' /\ file_ok sb (content a') x' /\
    fdata (content a') x' = splice (Z.to_nat (f_off fx)) (take n src) (fdata (content a) x) /\
    forall y, file_ok sb (content a) y -> apart (content a) x y ->
      file_ok sb (content a') y /\ apart (content a') x' y /\ fdata (content a') y = fdata (content a) y) s.
Proof.
  intros Hone Hsz Hid Hf Hty Hw Hx Hfk Hrd Hn Hoff Hmax Hroom. unfold filewrite. rewrite wp_bind. eapply wp_get_file; [exact Hf|].
  destruct (Z.eqb_spec (f_writable fx) 0); [done|]. rewrite Hty. change WRITE_MAX with (Z.of_nat 1536). rewrite <- Nat2Z.inj_div, Nat2Z.id.
  change 0 with (Z.of_nat 0) at 1. pose proof (Nat.div_mod_eq n 1536). pose proof (Nat.mod_upper_bound n 1536 ltac:(done)).
  eapply (filewrite_loop_spec me st sz sb Hone (n / 1536 + 1) _ s a f fx x src 0 n); try done; try lia.
  rewrite Nat.sub_0_r. change (slice 0 n src) with (take n src). intros x' a' l Hid' []. split; [done|].
  exists x', a', l. done.
Qed.

Lemma filewrite_splices_witness : exists l a,
  wp (filewrite 0 (replicate 2000 7) (Z.of_nat 2000)) (fun r s' => r = 2000 /\ exists x' a' l',
    s' = fput 0 (set_f_off (0 + Z.of_nat 2000) d_file) 0 l' x' (d_state l) /\
    idle 1 2 30 d_sb (fs s') a' /\ ready x' /\ file_ok d_sb (content a') x' /\
    fdata (content a') x' = splice 0 (take 2000 (replicate 2000 7)) (fdata (content a) d_ino) /\
    forall y, file_ok d_sb (content a) y -> apart (content a) d_ino y ->
      file_ok d_sb (content a') y /\ apart (content a') x' y /\ fdata (content a') y = fdata (content a) y) (d_state l).
Proof.
  destruct d_boot as (l & a & Hid & Hc & _). exists l, a.
  apply (filewrite_splices 1 2 30 d_sb (d_state l) a 0 d_file d_ino (replicate 2000 7) 2000); try done.
  - lia.
  - rewrite Hc. apply d_file_ok.
  - apply d_room; [done|]. cbn. lia.
Defined.

(** C30: [fileread] on an inode returns the bytes of the file from the offset of the open
    file on, as many as were asked for or as there are; past the end it fails.  The
    offset moves by what was read; the disk, the log and the inode stay as they were. *)
Theorem fileread_slices `{DevOps D} me st sz sb (s : fist D) a f fx x n :
  sb_size sb <= BPB -> (4 < sz)%nat -> idle me st sz sb (fs s) a ->
  ftable s !! f = Some fx -> f_type fx = FD_INODE -> f_readable fx <> 0 ->
  icache (fs s) !! f_ip fx = Some x -> file_ok sb (content a) x -> ready x -> 0 <= f_off fx < 2 ^ 31 -> 0 <= n < 2 ^ 31 ->
  let bytes := slice (Z.to_nat (f_off fx)) (Z.to_nat n) (fdata (content a) x) in
  let r := if f_off fx >? i_size x then (-1, []) else (Z.of_nat (length bytes), bytes) in
  wp (fileread f n) (fun r' s' => r' = r /\ exists l,
    s' = fput f (set_f_off (f_off fx + Z.max 0 r.1) fx) (f_ip fx) l x s /\ idle me st sz sb (fs s') a) s.
Proof.
  intros Hone Hsz Hid Hf Hty Hr Hx Hfk Hrd Hoff Hn. cbv zeta. pose proof (de_size _ _ (fk_dense _ _ _ Hfk)).
  eapply (fileread_inode me st sz sb Hone); [exact Hid|done..|]. intros l. cbv zeta. intros Hid'.
  assert (read_result (fdata (content a) x) (f_off fx) n = if f_off fx >? i_size x then (-1, [])
    else let r := slice (Z.to_nat (f_off fx)) (Z.to_nat n) (fdata (content a) x) in (Z.of_nat (length r), r)) as Heq.
  { unfold read_result. rewrite length_fdata, Z2Nat.id by lia. destruct (f_off fx + n >=? 2 ^ 32) eqn:E; zb; [lia|].
    rewrite orb_false_r. done. }
  rewrite Heq. split; [done|]. exists l. done.
Qed.

Lemma fileread_slices_witness : exists l a,
  wp (fileread 0 100) (fun r' s' => r' = (0, []) /\ exists l',
    s' = fput 0 (set_f_off (0 + Z.max 0 0) d_file) 0 l' d_ino (d_state l) /\ idle 1 2 30 d_sb (fs s') a) (d_state l).
Proof.
  destruct d_boot as (l & a & Hid & Hc & _). exists l, a.
  apply (fileread_slices 1 2 30 d_sb (d_state l) a 0 d_file d_ino 100); try done; [lia|rewrite Hc; apply d_file_ok].
Defined.

Lemma slice_splice off p (f : list Z) : (off <= length f)%nat -> slice off (length p) (splice off p f) = p.
Proof.
  intros Hf. unfold slice, splice. rewrite drop_app_length' by (by rewrite length_take_le). by rewrite take_app_length.
Qed.

(** What [writei] wrote, [readi] at the same offset reads back, in the same
    transaction, for any number of blocks that fits the log. *)
Theorem writei_readi `{DevOps D} q me st sz sb (s : fsst D) a ks ip x p (off : nat) :
  sb_size sb <= BPB -> 1 <= q -> icache s !! ip = Some x -> fsb s = sb -> fsok q me st sz sb (fl s) a ks ->
  file_ok sb (content a) x -> i_type x <> T_DEV -> held a = ∅ -> (nblk off (length p) + cost sb x ks + 5 < sz)%nat ->
  room sb (2 * nblk off (length p)) a -> Z.of_nat off <= i_size x -> (off + length p <= MAXFILE * BSIZE)%nat ->
  wp (let! r := writei ip p (Z.of_nat off) (Z.of_nat (length p)) in
      let! b := readi ip (Z.of_nat off) (Z.of_nat (length p)) in
      ret (r, b)) (fun rb _ => rb = (Z.of_nat (length p), (Z.of_nat (length p), p))) s.
Proof.
  intros Hone Hq Hx Hs Ho Hfk Hty Hh Hc Hr Hoff Hmax. pose proof MAXBYTES. pose proof (de_size _ _ (fk_dense _ _ _ Hfk)).
  pose proof (lookup_lt_Some _ _ _ Hx). rewrite wp_bind. eapply (writei_spec q me st sz sb Hone _ a ks ip x p off); try done; [lia|].
  rewrite firstn_all. intros x' a' ks' l Ho' Hw. rewrite wp_bind. pose proof (wn_ok _ _ _ _ _ _ _ _ _ _ Hw) as Hk.
  pose proof (wn_log _ _ _ _ _ _ _ _ _ _ Hw) as Hl. assert (cost sb x' ks' <= length ks' + 2)%nat as Hc' by (unfold cost; repeat case_decide; lia).
  eapply (readi_spec q me st sz sb Hone _ a' ks' ip x'); [by apply icache_put|done|exact Ho'|apply Hk|apply Hk|apply Hw|lia|..|].
  - by rewrite (wn_x _ _ _ _ _ _ _ _ _ _ Hw).
  - lia.
  - lia.
  - intros l2 _. rewrite wp_ret, (wn_data _ _ _ _ _ _ _ _ _ _ Hw). unfold read_result.
    assert (off <= length (fdata (content a) x))%nat as Hoff' by (rewrite length_fdata; lia).
    pose proof (length_splice_ge off p _ Hoff'). rewrite !Nat2Z.id, slice_splice by done.
    destruct (Z.of_nat off >? _) eqn:E; zb; [lia|]. destruct (Z.of_nat off + _ >=? 2 ^ 32) eqn:E2; zb; [lia|]. done.
Qed.

Lemma writei_readi_witness : exists s,
  wp (let! r := writei 0 (replicate 1000 7) (Z.of_nat 0) (Z.of_nat (length (replicate 1000 7))) in
      let! b := readi 0 (Z.of_nat 0) (Z.of_nat (length (replicate 1000 7))) in
      ret (r, b)) (fun rb _ => rb = (1000, (1000, replicate 1000 7))) (s : fsst unit).
Proof.
  destruct d_begin as (l & a & Ho & Hh & Hc).
  exists (d_fs l). apply (writei_readi 1 1 2 30 d_sb (d_fs l) a [] 0 d_ino (replicate 1000 7) 0); try done.
  - rewrite Hc. apply d_file_ok.
  - rewrite length_replicate. vm_compute. lia.
  - apply d_room; [done|]. rewrite length_replicate. vm_compute. lia.
  - pose proof MAXBYTES. rewrite length_replicate. lia.
Defined.

(** [writei] refuses an offset past the end of the file, a range that wraps around
    [2 ^ 32] and a range that ends above [MAXFILE] blocks: it returns -1 and changes nothing. *)
Theorem writei_rejects `{DevOps D} (s : fsst D) ip x src off n :
  icache s !! ip = Some x -> i_type x <> T_DEV -> 0 <= off < 2 ^ 32 -> 0 <= n < 2 ^ 32 ->
  off > i_size x \/ off + n >= 2 ^ 32 \/ off + n > Z.of_nat (MAXFILE * BSIZE) ->
  writei ip src off n s = Ok (-1, s).
Proof.
  intros Hx Hty Hoff Hn Hbad. enough (wp (writei ip src off n) (fun r s' => r = -1 /\ s' = s) s) as H1
    by (apply wp_Ok in H1 as (? & ? & H1 & -> & ->); exact H1).
  unfold writei. rewrite wp_bind. eapply wp_get_ip; [done|].
  destruct (Z.eqb_spec (i_type x) T_DEV); [done|]. rewrite u32_wraps by done.
  destruct (off >? i_size x) eqn:E1; cbn [orb]; [by rewrite wp_ret|]. destruct (off + n >=? 2 ^ 32) eqn:E2; cbn [orb]; [by rewrite wp_ret|].
  zb. rewrite u32_small by lia. destruct (off + n >? Z.of_nat (MAXFILE * BSIZE)) eqn:E3; zb; [by rewrite wp_ret|lia].
Qed.

Lemma writei_rejects_witness : exists l, writei 0 [] 1 0 (d_fs l) = Ok (-1, d_fs l).
Proof. exists (lst0 1 []). apply (writei_rejects (d_fs (lst0 1 [])) 0 d_ino [] 1 0); [done|done|lia|lia|left; cbn; lia]. Defined.

(** [balloc] finds a free block whenever there is one: a data block that was free, now
    marked in the bitmap and filled with zeros, both changes in the log.  The marks of all other
    blocks and the contents of every other data block stay. *)
Theorem balloc_allocates {D} q me st sz sb (s : fsst D) a ks :
  1 <= q -> fsb s = sb -> fsok q me st sz sb (fl s) a ks -> (size (held a) <= 1)%nat -> (S (S (length ks)) < sz)%nat -> has_free sb a ->
  wp (balloc 1) (fun r s' => exists b l a', r = Z.of_nat b /\ s' = set_fl l s /\
    (dstart sb <= b)%nat /\ Z.of_nat b < sb_size sb /\ used sb (content a) b = false /\
    fsok q me st sz sb l a' (logged b (logged (bm_block sb b) ks)) /\ content a' !!! b = zeros /\
    (forall b', Z.of_nat b' < sb_size sb -> used sb (content a') b' = bool_decide (b = b') || used sb (content a) b') /\
    (forall b', (dstart sb <= b')%nat -> b' <> b -> content a' !!! b' = content a !!! b')) s.
Proof.
  intros Hq Hs Ho Hh Hk Hf. eapply (balloc_spec q me st sz sb); try done. intros b l Hb Hd Hu Ho'.
  exists b, l, (sp_balloc sb b a). split_and!; try done.
  - cbn. rewrite list_lookup_total_insert_eq; [done|]. rewrite length_insert, (br_size _ _ _ (txn_brep _ _ _ _ _ _ _ (fo_txn _ _ _ _ _ _ _ _ Ho))).
    pose proof (g_size _ _ _ _ (fo_geo _ _ _ _ _ _ _ _ Ho)). lia.
  - intros b' Hb'. by eapply used_balloc.
  - intros b' Hb' Hne. destruct (geo_bm _ _ _ _ (fo_geo _ _ _ _ _ _ _ _ Ho) b Hb) as (_ & Hbm & _). cbn.
    by rewrite !list_lookup_total_insert_ne by lia.
Qed.

Lemma balloc_allocates_witness : exists l a,
  wp (balloc 1) (fun r s' => exists b l' a', r = Z.of_nat b /\ s' = set_fl l' (d_fs l) /\
    (dstart d_sb <= b)%nat /\ Z.of_nat b < sb_size d_sb /\ used d_sb (content a) b = false /\
    fsok 1 1 2 30 d_sb l' a' (logged b (logged (bm_block d_sb b) [])) /\ content a' !!! b = zeros /\
    (forall b', Z.of_nat b' < sb_size d_sb -> used d_sb (content a') b' = bool_decide (b = b') || used d_sb (content a) b') /\
    (forall b', (dstart d_sb <= b')%nat -> b' <> b -> content a' !!! b' = content a !!! b')) (d_fs l).
Proof.
  destruct d_begin as (l & a & Ho & Hh & Hc). exists l, a.
  apply (balloc_allocates 1 1 2 30 d_sb (d_fs l) a []); try done.
  - rewrite Hh, map_size_empty. lia.
  - cbn. lia.
  - apply (room_has_free d_sb 0). apply d_room; [done|lia].
Defined.

(** An inode stored by [iupdate] is the inode that [ilock] loads, and the other
    inodes of the block are as they were. *)
Theorem dinode_roundtrip st sz sb n i j x y (d : list Z) :
  geo st sz sb n -> 0 <= i < sb_ninodes sb -> 0 <= j < sb_ninodes sb -> iblk sb j = iblk sb i -> dn_ok x -> length d = BSIZE ->
  get_dinode (dinode_at j) (put_dinode (dinode_at i) x d) y =
    if decide (i = j) then set_i_dn (i_type x) (i_major x) (i_minor x) (i_nlink x) (i_size x) (i_addrs x) y
    else get_dinode (dinode_at j) d y.
Proof.
  intros Hg Hi Hj Hb Hx Hd. destruct (iblk_geo st sz sb n i Hg Hi) as (_ & _ & _ & _ & _ & _ & Hlen).
  case_decide as He; [subst; apply get_put_dinode; [done|lia]|].
  eapply get_dinode_only; [apply only_put_dinode; [apply Hx|lia]|]. apply (dinode_slots sb); try done. destruct Hg. lia.
Qed.

Lemma dinode_roundtrip_witness :
  get_dinode (dinode_at 2) (put_dinode (dinode_at 2) d_ino zeros) inode0 = set_i_dn 2 0 0 1 0 (replicate (S NDIRECT) 0) inode0.
Proof.
  apply (dinode_roundtrip 2 30 d_sb 64 2 2 d_ino inode0 zeros); [apply d_geo|cbn; lia|cbn; lia|done| |done].
  constructor; try (cbn; lia); [done|]. by apply Forall_replicate.
Defined.
