(* ===== verification/DirSpec.v ===== *)
(** Directories and path names: the specification of [dirlookup], [dirlink] and [namex].

    A directory is the list of its entries; [dir_find] is the first one in use with a name.
    A path is the list of its elements ([elems]).  [walk] follows the elements over the
    inodes on the disk.  The inode cache is seen through the number of references to each
    inode ([cache_ok]). *)

From S2P Require Import Prelude CString Mem Bio BioSpec Log LogSpec LogProps Fs FsSpec.
From S2P Require Import FsFile Dinode FsIo FileSpec.
Import Bio Log Fs.

Implicit Types (c : list (list Z)) (x y : inode) (d e name path : list Z).

(** * Entries *)

Definition entry d (i : nat) : list Z := slice (DIRENT * i) DIRENT d.
(** An entry in use, with the name [e]. *)
Definition hits e d (i : nat) : Prop := de_inum (entry d i) <> 0 /\ cprefix (de_name (entry d i)) = e.
#[global] Instance hits_dec e d i : Decision (hits e d i).
Proof. unfold hits. apply _. Defined.

Definition dir_find e d : option nat := fst <$> list_find (hits e d) (seq 0 (length d / DIRENT)).

Lemma dir_find_Some e d i : dir_find e d = Some i <->
  (i < length d / DIRENT)%nat /\ hits e d i /\ forall j, (j < i)%nat -> ~ hits e d j.
Proof.
  unfold dir_find. set (n := (length d / DIRENT)%nat). split.
  - intros H. apply fmap_Some in H as ([k y] & H & ->). apply list_find_Some in H as (Hk & Hp & Hm).
    apply lookup_seq in Hk as [-> Hk]. cbn [Nat.add fst] in *. split; [done|]. split; [done|]. intros j Hj.
    apply (Hm j j); [apply lookup_seq; split; [done|lia]|done].
  - intros (Hi & Hp & Hm). apply fmap_Some. exists (i, i). split; [|done]. apply list_find_Some.
    split; [by apply lookup_seq|]. split; [done|]. intros j y [-> Hj]%lookup_seq Hlt. by apply Hm.
Qed.

Lemma dir_find_None e d : dir_find e d = None <-> forall i, (i < length d / DIRENT)%nat -> ~ hits e d i.
Proof.
  unfold dir_find. rewrite fmap_None, list_find_None, Forall_forall. split.
  - intros H i Hi. apply H, elem_of_seq. lia.
  - intros H i Hi. apply elem_of_seq in Hi. apply H. lia.
Qed.

(** * Paths *)

(** The pieces between slashes, some of which can be empty. *)
Fixpoint parts path : list (list Z) :=
  match path with
  | [] => [[]]
  | ch :: path =>
      if ch =? slash then [] :: parts path
      else match parts path with w :: ws => (ch :: w) :: ws | [] => [[ch]] end
  end.
(** The elements of a path, cut to the length of a name. *)
Definition elems path : list (list Z) := take DIRSIZ <$> filter (fun w => w <> []) (parts path).

Lemma elems_slash path : elems (slash :: path) = elems path.
Proof. done. Qed.

Lemma elems_skip path : elems (skip_slashes path) = elems path.
Proof.
  induction path as [|ch path IH]; [done|]. cbn [skip_slashes]. destruct (Z.eqb_spec ch slash) as [->|]; [|done].
  by rewrite IH, elems_slash.
Qed.

Lemma parts_word s rest : Forall (fun ch => ch <> slash) s ->
  parts (s ++ rest) = match parts rest with w :: ws => (s ++ w) :: ws | [] => [s] end.
Proof.
  induction 1 as [|ch s Hc _ IH]; [cbn; by destruct rest as [|ch rest]; [|cbn; destruct (ch =? slash), (parts rest)]|].
  cbn [app parts]. destruct (Z.eqb_spec ch slash); [done|]. rewrite IH. by destruct (parts rest).
Qed.

Lemma split_elem_spec path s rest : split_elem path = (s, rest) ->
  path = s ++ rest /\ Forall (fun ch => ch <> slash) s /\ (rest = [] \/ exists r, rest = slash :: r).
Proof.
  revert s rest. induction path as [|ch path IH]; intros s rest; cbn [split_elem]; [intros [= <- <-]; auto|].
  destruct (Z.eqb_spec ch slash) as [->|Hne].
  - intros [= <- <-]. split; [done|]. split; [done|]. right. by eexists.
  - destruct (split_elem path) as [s0 r0]. intros [= <- <-]. destruct (IH s0 r0 eq_refl) as (-> & Hs & Hr).
    split; [done|]. split; [by constructor|done].
Qed.

Lemma elems_word s rest : Forall (fun ch => ch <> slash) s -> s <> [] -> (rest = [] \/ exists r, rest = slash :: r) ->
  elems (s ++ rest) = take DIRSIZ s :: elems rest.
Proof.
  intros Hs Hne Hr. unfold elems. rewrite parts_word by done.
  assert (exists ws, parts rest = [] :: ws) as [ws Hw] by (destruct Hr as [->|[r ->]]; by eexists).
  rewrite Hw, app_nil_r, !filter_cons. rewrite decide_True by done. by rewrite (decide_False (P := [] <> [])) by naive_solver.
Qed.

Lemma skip_slashes_hd path ch p : skip_slashes path = ch :: p -> ch <> slash.
Proof.
  induction path as [|a path IH]; [done|]. cbn [skip_slashes]. destruct (Z.eqb_spec a slash); [done|]. by intros [= <- <-].
Qed.
Lemma skip_slashes_suffix path : exists pre, path = pre ++ skip_slashes path.
Proof.
  induction path as [|a path [pre IH]]; [by exists []|]. cbn [skip_slashes]. destruct (a =? slash); [|by exists []].
  exists (a :: pre). cbn. by f_equal.
Qed.

Lemma skip_slashes_nil path : skip_slashes path = [] <-> elems path = [].
Proof.
  rewrite <- (elems_skip path). split; [by intros ->|]. destruct (skip_slashes path) as [|ch p] eqn:E; [done|].
  apply skip_slashes_hd in E. unfold elems. cbn [parts]. destruct (Z.eqb_spec ch slash); [done|].
  by destruct (parts p).
Qed.

Lemma cprefix_word s t : Forall (fun ch => ch <> 0) s -> (t = [] \/ exists r, t = 0 :: r) -> cprefix (s ++ t) = s.
Proof.
  intros Hs Ht. unfold cprefix. induction Hs as [|ch s Hc _ IH]; cbn; [destruct Ht as [->|[r ->]]; done|].
  destruct (Z.eqb_spec ch 0); [done|]. cbn [negb]. cbn. by f_equal.
Qed.

(** The buffer holds the element. *)
Lemma name_buffer s name : Forall (fun ch => ch <> 0) s -> length name = DIRSIZ ->
  let name' := if (DIRSIZ <=? length s)%nat then splice 0 (take DIRSIZ s) name else <[length s := 0]> (splice 0 s name) in
  cprefix name' = take DIRSIZ s /\ length name' = DIRSIZ.
Proof.
  intros Hs Hl. cbn zeta. destruct (Nat.leb_spec DIRSIZ (length s)) as [Hle|Hlt].
  - unfold splice. rewrite take_0, drop_ge by (rewrite Hl, length_take; lia). rewrite app_nil_r. cbn [app].
    split; [|rewrite length_take; lia]. rewrite <- (app_nil_r (take DIRSIZ s)) at 1. apply cprefix_word; [by apply Forall_take|by left].
  - unfold splice. rewrite take_0. cbn [app Nat.add]. rewrite take_ge by lia.
    destruct (drop (length s) name) as [|b r] eqn:E; [apply (f_equal length) in E; rewrite length_drop in E; cbn in E; lia|].
    rewrite insert_app_r_alt, Nat.sub_diag by done. cbn [insert list_insert]. split; [apply cprefix_word; eauto|].
    apply (f_equal length) in E. rewrite length_drop in E. rewrite length_app. cbn in *. lia.
Qed.

(** [skipelem] takes the first element off the path. *)
Lemma skipelem_spec path name : Forall (fun ch => ch <> 0) path -> length name = DIRSIZ ->
  match skipelem path name with
  | None => elems path = []
  | Some (path', name') => elems path = cprefix name' :: elems path' /\ length name' = DIRSIZ /\
      Forall (fun ch => ch <> 0) path' /\ (length path' < length path)%nat /\ (path' = [] <-> elems path' = [])
  end.
Proof.
  intros Hp Hl. unfold skipelem. destruct (skip_slashes path) as [|ch p] eqn:E; [by apply skip_slashes_nil|].
  destruct (skip_slashes_suffix path) as [pre Hpre]. rewrite E in Hpre. pose proof (skip_slashes_hd _ _ _ E) as Hne.
  assert (Forall (fun ch => ch <> 0) (ch :: p)) as Hp' by (rewrite Hpre in Hp; by apply Forall_app in Hp as [_ ?]).
  destruct (split_elem (ch :: p)) as [s rest] eqn:Es. destruct (split_elem_spec _ _ _ Es) as (Hsp & Hs & Hr).
  rewrite Hsp in Hp'. apply Forall_app in Hp' as [Hs0 Hr0]. destruct (name_buffer s name Hs0 Hl) as [Hc Hln]. cbn zeta in Hc, Hln.
  destruct (skip_slashes_suffix rest) as [pre2 Hpre2].
  assert (s <> []) as Hs1 by (intros ->; cbn in Hsp; destruct Hr as [Hr|[r Hr]]; congruence).
  rewrite Hc, Hln. split; [|split; [done|split; [|split]]].
  - by rewrite <- (elems_skip path), E, Hsp, elems_word, elems_skip.
  - rewrite Hpre2 in Hr0. by apply Forall_app in Hr0 as [_ ?].
  - rewrite Hpre, Hsp. rewrite Hpre2 at 2. rewrite !length_app. destruct s; [done|]. cbn [length]. lia.
  - rewrite elems_skip. apply skip_slashes_nil.
Qed.

(** * Inodes on the disk *)

(** The inode without what only the cache has. *)
Definition clean x : inode :=
  mkinode (i_dev x) (i_inum x) 0 0 0 0 (i_type x) (i_major x) (i_minor x) (i_nlink x) (i_size x) (i_addrs x).
Definition din (sb : superblock) c (inum : Z) : inode :=
  get_dinode (dinode_at inum) (c !!! iblk sb inum) (mkinode 1 inum 0 0 0 0 0 0 0 0 0 []).

Lemma file_ok_clean sb c x : file_ok sb c x <-> file_ok sb c (clean x).
Proof.
  split; intros [[I1 I2 I3 I4 I5 I6] [D1 D2] H1 H2 H3 H4 H5 Hs];
    (split; [split; [exact I1|exact I2|exact I3|exact I4|exact I5|exact I6]|split; [exact D1|exact D2]|exact H1|exact H2|exact H3|exact H4|exact H5|]).
  - exact (f_equal clean Hs).
  - destruct x as [dev inum ref lk pid v t ma mi nl sz ad]. unfold get_dinode, set_i_dn, clean in *.
    cbn [i_dev i_inum i_ref i_locked i_pid i_valid i_type i_major i_minor i_nlink i_size i_addrs] in *.
    injection Hs as E1 E2 E3 E4 E5 E6. by rewrite E1, E2, E3, E4, E5, E6.
Qed.

Lemma clean_sync sb c x : i_dev x = 1 -> clean (get_dinode (dinode_at (i_inum x)) (c !!! iblk sb (i_inum x)) x) = din sb c (i_inum x).
Proof. intros Hd. destruct x. cbn in *. by subst. Qed.

(** * The inode cache *)

(** [v] more references to [inum]. *)
Definition bump (r : Z -> Z) (inum v : Z) : Z -> Z := fun k => if decide (k = inum) then r k + v else r k.

Definition spare (l : list inode) : nat := length (filter (fun x => i_ref x = 0) l).

Lemma spare_insert l i x y : l !! i = Some x ->
  (spare (<[i := y]> l) + (if decide (i_ref x = 0%Z) then 1 else 0) = spare l + (if decide (i_ref y = 0%Z) then 1 else 0))%nat.
Proof.
  unfold spare. revert i. induction l as [|z l IH]; intros [|i] Hi; [done|done|..].
  - injection Hi as ->. cbn [insert list_insert]. rewrite !filter_cons. repeat case_decide; cbn [length]; lia.
  - cbn in Hi. specialize (IH i Hi). change (<[S i := y]> (z :: l)) with (z :: <[i := y]> l). rewrite !filter_cons.
    destruct (decide (i_ref z = 0)); cbn [length]; lia.
Qed.

Lemma spare_pos l : (0 < spare l)%nat -> exists i x, l !! i = Some x /\ i_ref x = 0.
Proof.
  unfold spare. intros H. destruct (filter _ l) as [|x l'] eqn:E; [cbn in H; lia|].
  assert (x ∈ filter (fun x => i_ref x = 0) l) as Hx by (rewrite E; apply list_elem_of_here).
  apply list_elem_of_filter in Hx as [Hr Hx]. apply list_elem_of_lookup in Hx as [i Hi]. eauto.
Qed.

(** The cache [l] holds [r inum] references to inode [inum]; what it has of an inode is what is
    on the disk [c]; only the inode at [lk] is locked, by process [me]. *)
Record cache_ok (me : Z) (sb : superblock) c (lk : option nat) (r : Z -> Z) (l : list inode) : Prop := {
  co_ref : forall i x, l !! i = Some x -> 0 <= i_ref x;
  co_lock : forall i x, l !! i = Some x -> i_locked x = if decide (lk = Some i) then 1 else 0;
  co_holder : forall i x, l !! i = Some x -> lk = Some i -> i_pid x = me /\ 0 < i_ref x;
  co_slot : forall i x, l !! i = Some x -> 0 < i_ref x ->
    i_dev x = 1 /\ i_ref x = r (i_inum x) /\ (i_valid x <> 0 -> clean x = din sb c (i_inum x));
  co_inj : forall i j x y, l !! i = Some x -> l !! j = Some y -> 0 < i_ref x -> 0 < i_ref y -> i_inum x = i_inum y -> i = j;
  co_none : forall inum, (forall i x, l !! i = Some x -> 0 < i_ref x -> i_inum x <> inum) -> r inum = 0
}.

Lemma cache_ok_ext me sb c lk r r' l : (forall k, r k = r' k) -> cache_ok me sb c lk r l -> cache_ok me sb c lk r' l.
Proof.
  intros He [H1 H2 H3 H4 H5 H6]. split; try done.
  - intros i x Hi Hr. rewrite <- He. by apply (H4 i x).
  - intros inum Hn. rewrite <- He. by apply H6.
Qed.

Lemma cache_find me sb c lk r l inum : cache_ok me sb c lk r l -> r inum <> 0 ->
  exists i x, l !! i = Some x /\ 0 < i_ref x /\ i_inum x = inum.
Proof.
  intros Hc Hr. destruct (list_find (fun x => 0 < i_ref x /\ i_inum x = inum) l) as [[i x]|] eqn:E.
  - apply list_find_Some in E as (Hi & [Hp Hn] & _). eauto.
  - exfalso. apply Hr, (co_none _ _ _ _ _ _ Hc). intros i x Hi Hp Hn. apply list_find_None in E.
    rewrite Forall_forall in E. apply (E x); [by eapply list_elem_of_lookup_2|done].
Qed.

(** A slot [i] in use or free changes, and no other slot is for the same inode. *)
Lemma cache_update me sb c lk lk' r r' l i x y :
  cache_ok me sb c lk r l -> l !! i = Some x -> 0 <= i_ref y ->
  (forall j z, l !! j = Some z -> j <> i -> 0 < i_ref z -> i_inum z <> i_inum y) ->
  (0 < i_ref x -> i_inum x = i_inum y) ->
  (forall j, j <> i -> lk' = Some j <-> lk = Some j) ->
  i_locked y = (if decide (lk' = Some i) then 1 else 0) -> (lk' = Some i -> i_pid y = me /\ 0 < i_ref y) ->
  (0 < i_ref y -> i_dev y = 1 /\ (i_valid y <> 0 -> clean y = din sb c (i_inum y))) ->
  (forall k, r' k = if decide (k = i_inum y) then i_ref y else r k) ->
  cache_ok me sb c lk' r' (<[i := y]> l).
Proof.
  intros Hc Hi Hy Hne Hsame Hlk Hyl Hyp Hys Hr'. apply lookup_lt_Some in Hi as Hlt.
  assert (forall j z, <[i := y]> l !! j = Some z -> (j = i /\ z = y) \/ (j <> i /\ l !! j = Some z)) as Hcase.
  { intros j z. destruct (decide (j = i)) as [->|]; [rewrite list_lookup_insert_eq by done; intros [= <-]; by left|].
    rewrite list_lookup_insert_ne by done. by right. }
  split.
  - intros j z Hj. destruct (Hcase j z Hj) as [[_ ->]|[_ Hz]]; [done|by apply (co_ref _ _ _ _ _ _ Hc j)].
  - intros j z Hj. destruct (Hcase j z Hj) as [[-> ->]|[Hn Hz]]; [done|]. rewrite (co_lock _ _ _ _ _ _ Hc j z Hz).
    specialize (Hlk j Hn). repeat case_decide; naive_solver.
  - intros j z Hj Hl. destruct (Hcase j z Hj) as [[-> ->]|[Hn Hz]]; [by apply Hyp|]. apply (co_holder _ _ _ _ _ _ Hc j z Hz). by apply Hlk.
  - intros j z Hj Hp. destruct (Hcase j z Hj) as [[-> ->]|[Hn Hz]].
    + destruct (Hys Hp) as [Hd Hv]. rewrite Hr', decide_True by done. done.
    + destruct (co_slot _ _ _ _ _ _ Hc j z Hz Hp) as (Hd & Hr & Hv). rewrite Hr', decide_False; [done|]. by apply (Hne j).
  - intros j k z w Hj Hk Hp Hq He. destruct (Hcase j z Hj) as [[-> ->]|[Hn Hz]], (Hcase k w Hk) as [[-> ->]|[Hm Hw]]; [done|..].
    + exfalso. by apply (Hne k w Hw Hm Hq).
    + exfalso. by apply (Hne j z Hz Hn Hp).
    + by apply (co_inj _ _ _ _ _ _ Hc j k z w).
  - intros inum Hn. rewrite Hr'. destruct (decide (inum = i_inum y)) as [Hk|Hk].
    + destruct (decide (0 < i_ref y)) as [Hp|]; [|lia]. exfalso. apply (Hn i y); [by apply list_lookup_insert_eq|done|done].
    + apply (co_none _ _ _ _ _ _ Hc). intros j z Hz Hp He. destruct (decide (j = i)) as [->|Hj].
      * simplify_eq. rewrite Hsame in Hk; done.
      * apply (Hn j z); [by rewrite list_lookup_insert_ne|done|done].
Qed.

(** ** [iget] *)

Lemma iget_scan_spec l i inum free :
  match iget_scan l i 1 inum free with
  | (Some ip, _) => exists k x, ip = (i + k)%nat /\ l !! k = Some x /\ 0 < i_ref x /\ i_dev x = 1 /\ i_inum x = inum
  | (None, e) => (forall k x, l !! k = Some x -> 0 < i_ref x -> i_dev x = 1 -> i_inum x <> inum) /\
      match free, e with
      | Some j, Some j' => j' = j
      | None, Some j => exists k x, j = (i + k)%nat /\ l !! k = Some x /\ i_ref x = 0
      | None, None => forall k x, l !! k = Some x -> i_ref x <> 0
      | Some _, None => False
      end
  end.
Proof.
  revert i free. induction l as [|x l IH]; intros i free; [cbn; split; [done|by destruct free]|]. cbn [iget_scan].
  destruct ((i_ref x >? 0) && (i_dev x =? 1) && (i_inum x =? inum)) eqn:E.
  - exists 0%nat, x. rewrite Nat.add_0_r. apply andb_true_iff in E as [[E1 E2]%andb_true_iff E3]. zb. split_and!; (done || lia).
  - specialize (IH (S i) (match free with Some e => Some e | None => if i_ref x =? 0 then Some i else None end)).
    destruct (iget_scan l (S i) 1 inum _) as [[ip|] e].
    + destruct IH as (k & y & -> & Hy & Hr). exists (S k), y. split; [lia|done].
    + destruct IH as [Hn He]. split.
      * intros [|k] y Hy Hp Hd Hin; [|by apply (Hn k y)]. injection Hy as <-.
        assert ((i_ref x >? 0) && (i_dev x =? 1) && (i_inum x =? inum) = true); [|congruence].
        rewrite !andb_true_iff, Z.gtb_lt, !Z.eqb_eq. done.
      * destruct free as [j|]; [done|]. destruct (Z.eqb_spec (i_ref x) 0) as [Hr|Hr].
        -- destruct e as [j'|]; [|done]. subst j'. exists 0%nat, x. split; [lia|done].
        -- destruct e as [j|]; [destruct He as (k & y & -> & Hy & Hr'); exists (S k), y; split; [lia|done]|].
           intros [|k] y Hy; [by injection Hy as <-|by apply (He k)].
Qed.

Section cache.
Context `{DevOps D} (q me : Z) (st sz : nat) (sb : superblock).
Implicit Types s : fsst D.
Abbreviation ok := (fsok q me st sz sb).

(** The caller gets a reference to [inum]. *)
Record got c lk (r : Z -> Z) (inum : Z) (l : list inode) (ip : nat) x : Prop := {
  gt_lt : (ip < length l)%nat;
  gt_cache : cache_ok me sb c lk (bump r inum 1) (<[ip := x]> l);
  gt_inum : i_inum x = inum;
  gt_ref : 0 < i_ref x;
  gt_slot : forall y, l !! ip = Some y -> 0 < i_ref y -> i_inum y = inum;
  gt_spare : (spare (<[ip := x]> l) + (if decide (r inum = 0%Z) then 1 else 0) = spare l)%nat
}.

Lemma iget_spec s c lk r inum Q :
  cache_ok me sb c lk r (icache s) -> r inum + 1 < 2 ^ 31 -> r inum <> 0 \/ (0 < spare (icache s))%nat ->
  (forall ip x, got c lk r inum (icache s) ip x -> Q ip (put ip (fl s) x s)) -> wp (iget 1 inum) Q s.
Proof.
  intros Hc Hmax Hfree HQ. unfold iget. rewrite wp_bind, wp_gets. pose proof (iget_scan_spec (icache s) 0 inum None) as Hs.
  destruct (iget_scan _ 0 1 inum None) as [[ip|] e].
  - destruct Hs as (k & x & -> & Hx & Hp & Hd & Hin). cbn [Nat.add]. rewrite wp_bind. eapply wp_set_ip; [done|]. rewrite wp_ret.
    destruct (co_slot _ _ _ _ _ _ Hc k x Hx Hp) as (_ & Hr & Hv). rewrite Hin in Hr. rewrite i32_small by lia.
    apply HQ. apply lookup_lt_Some in Hx as Hlt. split; [done| |done|cbn; lia|intros y; by rewrite Hx; intros [= <-]|].
    + eapply (cache_update _ _ _ lk lk r _ _ k x); try done; cbn [set_i_ref i_ref i_inum i_dev i_locked i_pid i_valid]; try lia.
      * intros j z Hz Hne Hzp He. apply Hne. by apply (co_inj _ _ _ _ _ _ Hc j k z x).
      * by apply (co_lock _ _ _ _ _ _ Hc).
      * intros Hl. destruct (co_holder _ _ _ _ _ _ Hc k x Hx Hl). split; [done|lia].
      * intros j. unfold bump. rewrite Hin. case_decide; [|done]. subst. lia.
    + pose proof (spare_insert (icache s) k x (set_i_ref (i_ref x + 1) x) Hx) as Hsp. cbn [i_ref set_i_ref] in Hsp.
      rewrite !decide_False in Hsp by lia. rewrite decide_False by lia. lia.
  - destruct Hs as [Hn He]. assert (r inum = 0) as Hr0.
    { apply (co_none _ _ _ _ _ _ Hc). intros j x Hj Hp. apply (Hn j x Hj Hp). by apply (co_slot _ _ _ _ _ _ Hc j x). }
    destruct e as [j|].
    + destruct He as (k & x & -> & Hx & Hx0). cbn [Nat.add]. rewrite wp_bind. eapply wp_set_ip; [done|]. rewrite wp_ret. apply HQ.
      apply lookup_lt_Some in Hx as Hlt. split; [done| |done|cbn; lia|intros y; rewrite Hx; intros [= <-]; lia|].
      * eapply (cache_update _ _ _ lk lk r _ _ k x); try done; cbn [set_i_id i_ref i_inum i_dev i_locked i_pid i_valid]; try lia.
        -- intros j z Hz _ Hp. apply (Hn j z Hz Hp). by apply (co_slot _ _ _ _ _ _ Hc j z).
        -- by apply (co_lock _ _ _ _ _ _ Hc).
        -- intros Hl. destruct (co_holder _ _ _ _ _ _ Hc k x Hx Hl). lia.
        -- intros j. unfold bump. case_decide; [|done]. subst. lia.
      * pose proof (spare_insert (icache s) k x (set_i_id 1 inum 1 0 x) Hx) as Hsp. cbn [i_ref set_i_id] in Hsp.
        rewrite decide_True in Hsp by done. rewrite decide_False in Hsp by lia. rewrite decide_True by done. lia.
    + destruct Hfree as [|Hf]; [done|]. apply spare_pos in Hf as (j & x & Hx & Hx0). by apply He in Hx.
Qed.

(** A slot in use stays the slot of its inode. *)
Lemma cache_same c lk lk' r l ip x y :
  cache_ok me sb c lk r l -> l !! ip = Some x -> 0 < i_ref x -> i_inum y = i_inum x -> i_ref y = i_ref x -> i_dev y = 1 ->
  (forall j, j <> ip -> lk' = Some j <-> lk = Some j) -> i_locked y = (if decide (lk' = Some ip) then 1 else 0) ->
  (lk' = Some ip -> i_pid y = me) -> (i_valid y <> 0 -> clean y = din sb c (i_inum y)) ->
  cache_ok me sb c lk' r (<[ip := y]> l).
Proof.
  intros Hc Hx Hp Hin Hr Hd Hlk Hl Hpid Hv. eapply cache_update; try done; rewrite ?Hr, ?Hin; try lia.
  - intros j z Hz Hne Hzp He. apply Hne. by apply (co_inj _ _ _ _ _ _ Hc j ip z x).
  - intros Hs. split; [by apply Hpid|done].
  - intros k. destruct (decide (k = i_inum x)) as [->|]; [|done]. symmetry. by apply (co_slot _ _ _ _ _ _ Hc ip x).
Qed.

Lemma spare_same l ip x y : l !! ip = Some x -> i_ref y = i_ref x -> spare (<[ip := y]> l) = spare l.
Proof. intros Hx Hr. pose proof (spare_insert l ip x y Hx) as Hs. rewrite Hr in Hs. lia. Qed.

(** ** [iput] and [iunlockput], while the inode has links *)

Record dropped c (r : Z -> Z) (inum : Z) (l l' : list inode) : Prop := {
  dp_len : length l' = length l;
  dp_cache : cache_ok me sb c None (bump r inum (-1)) l';
  dp_spare : spare l' = (spare l + (if decide (r inum = 1%Z) then 1 else 0))%nat
}.

Lemma iput_spec s c r ip x Q :
  cache_ok me sb c None r (icache s) -> icache s !! ip = Some x -> 0 < i_ref x < 2 ^ 31 -> i_nlink (din sb c (i_inum x)) <> 0 ->
  (forall y, dropped c r (i_inum x) (icache s) (<[ip := y]> (icache s)) -> Q tt (put ip (fl s) y s)) -> wp (iput ip) Q s.
Proof.
  intros Hc Hx Hp Hnl HQ. apply lookup_lt_Some in Hx as Hlt. unfold iput, acquiresleep, Fs.mypid. rewrite !wp_bind.
  eapply wp_get_ip; [done|]. rewrite (co_lock _ _ _ _ _ _ Hc ip x Hx), decide_False by done. cbn [Z.eqb negb].
  rewrite wp_bind, wp_gets. eapply wp_set_ip; [done|]. rewrite wp_bind. eapply wp_get_ip; [by apply icache_put|].
  cbn [i_valid i_nlink set_i_lock]. destruct (co_slot _ _ _ _ _ _ Hc ip x Hx) as (Hd & Hr & Hv); [lia|].
  assert (negb (i_valid x =? 0) && (i_nlink x =? 0) = false) as ->.
  { destruct (Z.eqb_spec (i_valid x) 0) as [|Hvv]; [done|]. cbn [negb andb]. apply Z.eqb_neq. intros E. apply Hnl.
    rewrite <- (Hv Hvv). exact E. }
  cbn [when]. rewrite wp_bind, wp_ret, wp_bind. unfold releasesleep. eapply wp_set_ip; [by apply icache_put|]. rewrite put_put.
  eapply wp_set_ip; [by apply icache_put|]. rewrite put_put. cbn [i_ref set_i_lock]. rewrite i32_small by lia. cbn [fl put].
  apply HQ. split; [by rewrite length_insert| |].
  - eapply (cache_update _ _ _ None None r _ _ ip x); try done; cbn [set_i_ref set_i_lock i_ref i_inum i_dev i_locked i_pid i_valid]; try lia.
    + intros j z Hz Hne Hzp He. apply Hne. apply (co_inj _ _ _ _ _ _ Hc j ip z x); try done. lia.
    + intros k. unfold bump. case_decide; [|done]. subst. lia.
  - pose proof (spare_insert (icache s) ip x (set_i_ref (i_ref x - 1) (set_i_lock 0 0 (set_i_lock 1 (Bio.mypid (bc (fl s))) x))) Hx) as Hs.
    cbn [i_ref set_i_ref set_i_lock] in Hs. rewrite (decide_False (P := i_ref x = 0)) in Hs by lia.
    destruct (decide (i_ref x - 1 = 0)), (decide (r (i_inum x) = 1)); lia.
Qed.

Lemma iunlockput_spec s c r ip x Q :
  cache_ok me sb c (Some ip) r (icache s) -> icache s !! ip = Some x -> i_ref x < 2 ^ 31 -> Bio.mypid (bc (fl s)) = me ->
  i_nlink (din sb c (i_inum x)) <> 0 ->
  (forall y, dropped c r (i_inum x) (icache s) (<[ip := y]> (icache s)) -> Q tt (put ip (fl s) y s)) -> wp (iunlockput ip) Q s.
Proof.
  intros Hc Hx Hmax Hme Hnl HQ. apply lookup_lt_Some in Hx as Hlt. destruct (co_holder _ _ _ _ _ _ Hc ip x Hx eq_refl) as [Hpid Hp].
  destruct (co_slot _ _ _ _ _ _ Hc ip x Hx Hp) as (Hd & Hr & Hv).
  unfold iunlockput. rewrite wp_bind. eapply (iunlock_spec s ip x); [done|lia| |congruence|].
  { rewrite (co_lock _ _ _ _ _ _ Hc ip x Hx), decide_True by done. done. }
  eapply (iput_spec _ c r ip (set_i_lock 0 0 x)); [|by apply icache_put|cbn; lia|done|].
  - cbn [icache put]. eapply (cache_same c (Some ip)); try done. intros j Hj. split; [done|]. by intros [= ->].
  - cbn [icache put i_inum set_i_lock]. intros y [D1 D2 D3]. rewrite put_put. rewrite list_insert_insert_eq in *. rewrite length_insert in D1.
    rewrite (spare_same _ ip x (set_i_lock 0 0 x)) in D3 by done. apply HQ. split; [by rewrite length_insert|done|done].
Qed.

(** ** [ilock] *)

Lemma ilock_spec s a ks r ip x Q :
  let c := content a in
  cache_ok me sb c None r (icache s) -> icache s !! ip = Some x -> 0 < i_ref x ->
  fsb s = sb -> ok (fl s) a ks -> held a = ∅ -> (S (length ks) < sz)%nat -> 0 <= i_inum x < sb_ninodes sb ->
  i_type (din sb c (i_inum x)) <> 0 ->
  (forall l y, ok l a ks -> cache_ok me sb c (Some ip) r (<[ip := y]> (icache s)) -> clean y = din sb c (i_inum x) -> i_ref y = i_ref x ->
     Q tt (put ip l y s)) ->
  wp (ilock ip) Q s.
Proof.
  intros c Hc Hx Hp Hs Ho Hh Hk Hin Hty HQ. apply lookup_lt_Some in Hx as Hlt.
  destruct (co_slot _ _ _ _ _ _ Hc ip x Hx Hp) as (Hd & Hr & Hv).
  assert (Bio.mypid (bc (fl s)) = me) as Hme by (apply (br_me _ _ _ (txn_brep _ _ _ _ _ _ _ (fo_txn _ _ _ _ _ _ _ _ Ho)))).
  assert (forall y, i_inum y = i_inum x -> i_ref y = i_ref x -> i_dev y = 1 -> i_locked y = 1 -> i_pid y = me ->
    (i_valid y <> 0 -> clean y = din sb c (i_inum y)) -> cache_ok me sb c (Some ip) r (<[ip := y]> (icache s))) as Hlocked.
  { intros y E1 E2 E3 E4 E5 E6. eapply (cache_same c None); try done; [|by rewrite decide_True].
    intros j Hj. split; [|done]. by intros [= ->]. }
  unfold ilock, acquiresleep, Fs.mypid. rewrite wp_bind. eapply wp_get_ip; [done|]. destruct (i_ref x <? 1) eqn:E; zb; [lia|].
  rewrite !wp_bind. eapply wp_get_ip; [done|]. rewrite (co_lock _ _ _ _ _ _ Hc ip x Hx), decide_False by done. cbn [Z.eqb negb].
  rewrite wp_bind, wp_gets. eapply wp_set_ip; [done|]. rewrite Hme. set (x1 := set_i_lock 1 me x). rewrite wp_bind.
  eapply wp_get_ip; [by apply icache_put|]. cbn [i_valid x1 set_i_lock]. destruct (Z.eqb_spec (i_valid x) 0) as [Hv0|Hv0]; cbn [when].
  2: { rewrite wp_ret. apply (HQ (fl s) x1); [done|by apply Hlocked|by apply Hv|done]. }
  destruct (iblk_geo _ _ _ _ _ (fo_geo _ _ _ _ _ _ _ _ Ho) Hin) as (Eb & Hb1 & Hb2 & _).
  unfold getsb. rewrite wp_bind, wp_gets. cbn [fsb put]. rewrite Hs. cbn [i_dev i_inum x1 set_i_lock]. rewrite Hd, Eb, wp_bind.
  set (b := iblk sb (i_inum x)) in *. assert (forall j, held a !! j <> Some b) as Hnh by (intros j; by rewrite Hh, lookup_empty).
  eapply (F_bread q me st sz _ a ks b); [apply Ho|done|lia|done|rewrite Hh, map_size_empty; lia|done|]. intros i l1 Hi Ht1.
  rewrite wp_bind. eapply (F_data q me st sz _ _ ks i b); [exact Ht1|cbn; by rewrite lookup_insert_eq|]. cbn [content sp_bread]. fold c.
  rewrite set_fl_put, wp_bind. eapply wp_set_ip; [by apply icache_put|]. set (x2 := get_dinode _ _ x1).
  rewrite wp_bind, put_put. eapply (F_brelse q me st sz _ _ ks i b); [exact Ht1|cbn; by rewrite lookup_insert_eq| |].
  { exact (txn_settled q me st sz (fl s) a ks b (fo_txn _ _ _ _ _ _ _ _ Ho) Hnh). }
  intros l2 Ht2. rewrite sp_release in Ht2 by done. rewrite set_fl_put, wp_bind.
  eapply wp_set_ip; [by apply icache_put|]. rewrite put_put, wp_bind. eapply wp_get_ip; [by apply icache_put|].
  assert (clean x2 = din sb c (i_inum x)) as Hcl by (exact (clean_sync sb c x1 Hd)).
  assert (i_type (set_i_valid 1 x2) <> 0) as Hty2 by (change (i_type (clean x2) <> 0); by rewrite Hcl).
  destruct (Z.eqb_spec (i_type (set_i_valid 1 x2)) 0); [done|]. rewrite wp_ret. cbn [fl put].
  apply HQ; [by destruct Ho| |done|done]. apply Hlocked; done.
Qed.
End cache.

(** * [dirlookup] *)

Lemma cost_le sb x ks : (cost sb x ks <= length ks + 2)%nat.
Proof. unfold cost. repeat case_decide; lia. Qed.

Lemma length_entry d i : (length d mod DIRENT = 0)%nat -> (i < length d / DIRENT)%nat -> length (entry d i) = DIRENT.
Proof.
  intros Hm Hi. apply length_slice. pose proof (Nat.div_mod_eq (length d) DIRENT). rewrite Hm in *. nia.
Qed.

Lemma hits_namecmp e d i name :
  (length d mod DIRENT = 0)%nat -> (i < length d / DIRENT)%nat -> length name = DIRSIZ -> cprefix name = e ->
  hits e d i <-> de_inum (entry d i) <> 0 /\ namecmp name (de_name (entry d i)) = 0.
Proof.
  intros Hm Hi Hl <-. unfold hits, namecmp. rewrite lstrncmp_0; [|done|]; [by rewrite (eq_comm (cprefix name))|].
  unfold de_name. apply length_slice. by rewrite length_entry.
Qed.

(** An inode that is a directory. *)
Record dir_ok (sb : superblock) c x : Prop := {
  do_file : file_ok sb c x;
  do_type : i_type x = T_DIR;
  do_len : (length (fdata c x) mod DIRENT = 0)%nat
}.

Section dirs.
Context `{DevOps D} (q me : Z) (st sz : nat) (sb : superblock) (Hone : sb_size sb <= BPB).
Implicit Types s : fsst D.
Abbreviation ok := (fsok q me st sz sb).

Lemma entry_read s a ks dp x i Q :
  icache s !! dp = Some x -> fsb s = sb -> ok (fl s) a ks -> dir_ok sb (content a) x -> held a = ∅ -> (length ks + 4 < sz)%nat ->
  (i < length (fdata (content a) x) / DIRENT)%nat ->
  (forall l, ok l a ks -> Q (Z.of_nat DIRENT, entry (fdata (content a) x) i) (set_fl l s)) ->
  wp (readi dp (Z.of_nat (DIRENT * i)) (Z.of_nat DIRENT)) Q s.
Proof.
  intros Hx Hs Ho [Hf Ht Hm] Hh Hk Hi HQ. pose proof (cost_le sb x ks). pose proof (de_size _ _ (fk_dense _ _ _ Hf)) as Hsz.
  pose proof MAXBYTES. pose proof (length_fdata (content a) x) as Hl. pose proof (Nat.div_mod_eq (length (fdata (content a) x)) DIRENT) as Hdm.
  rewrite Hm in Hdm. assert (DIRENT = 16%nat) as HD by done. assert (DIRENT * i + DIRENT <= length (fdata (content a) x))%nat by nia.
  eapply (readi_spec q me st sz sb Hone s a ks dp x); [done|done|done|apply Hf|apply Hf|done|lia|by rewrite Ht|lia|lia|].
  intros l Hl'. specialize (HQ l Hl'). unfold read_result. rewrite !Nat2Z.id.
  destruct (Z.gtb_spec (Z.of_nat (DIRENT * i)) (Z.of_nat (length (fdata (content a) x)))); [lia|].
  destruct (Z.geb_spec (Z.of_nat (DIRENT * i) + Z.of_nat DIRENT) (2 ^ 32)); [lia|]. cbn [orb].
  rewrite length_slice by done. exact HQ.
Qed.

Lemma dirlookup_loop_spec fuel s a ks dp x name i Q :
  let d := fdata (content a) x in let e := cprefix name in
  icache s !! dp = Some x -> fsb s = sb -> ok (fl s) a ks -> dir_ok sb (content a) x -> held a = ∅ -> (length ks + 4 < sz)%nat ->
  length name = DIRSIZ -> (i <= length d / DIRENT)%nat -> (length d / DIRENT - i < fuel)%nat -> (forall j, (j < i)%nat -> ~ hits e d j) ->
  (forall l, ok l a ks -> dir_find e d = None -> Q None (set_fl l s)) ->
  (forall l j, ok l a ks -> dir_find e d = Some j ->
     wp (let! ip := iget 1 (de_inum (entry d j)) in ret (Some (ip, Z.of_nat (DIRENT * j)))) Q (set_fl l s)) ->
  wp (dirlookup_loop fuel dp name (Z.of_nat (DIRENT * i))) Q s.
Proof.
  intros d e Hx Hs Ho Hd Hh Hk Hl. pose proof (do_file _ _ _ Hd) as Hf. pose proof (de_size _ _ (fk_dense _ _ _ Hf)) as Hsz.
  pose proof MAXBYTES as HMB. pose proof (length_fdata (content a) x) as Hld. fold d in Hld. pose proof (Nat.div_mod_eq (length d) DIRENT) as Hdm.
  pose proof (do_len _ _ _ Hd) as Hm. fold d in Hm. rewrite Hm in Hdm. assert (DIRENT = 16%nat) as HD by done.
  revert s i Hx Hs Ho. induction fuel as [|fuel IH]; intros s i Hx Hs Ho Hi Hfuel Hno HN HS; [lia|]. cbn [dirlookup_loop].
  rewrite wp_bind. eapply wp_get_ip; [done|]. destruct (Z.ltb_spec (Z.of_nat (DIRENT * i)) (i_size x)) as [Hlt|Hge]; cbn [negb].
  2: { rewrite wp_ret, <- (set_fl_id s). apply HN; [done|]. apply dir_find_None. fold d. intros j Hj. apply Hno. nia. }
  assert (i < length d / DIRENT)%nat as Hin by nia. rewrite wp_bind.
  eapply (entry_read s a ks dp x i); try done. intros l Hl1. rewrite Z.eqb_refl. cbn [negb]. fold d.
  assert (~ hits e d i -> wp (dirlookup_loop fuel dp name (u32 (Z.of_nat (DIRENT * i) + Z.of_nat DIRENT))) Q (set_fl l s)) as Hnext.
  { intros Hn. rewrite u32_small by lia. replace (Z.of_nat (DIRENT * i) + Z.of_nat DIRENT) with (Z.of_nat (DIRENT * S i)) by lia.
    apply IH; [done|done|done|lia|lia| |by intros; rewrite set_fl_set_fl; apply HN|by intros; rewrite set_fl_set_fl; apply HS].
    intros j Hj. destruct (decide (j = i)) as [->|]; [done|]. apply Hno. lia. }
  pose proof (hits_namecmp e d i name Hm Hin Hl eq_refl) as Hhit.
  destruct (Z.eqb_spec (de_inum (entry d i)) 0) as [E|E]; [apply Hnext; tauto|].
  destruct (Z.eqb_spec (namecmp name (de_name (entry d i))) 0) as [E2|E2]; [|apply Hnext; tauto].
  rewrite (io_dev _ _ _ (fk_ino _ _ _ Hf)). apply HS; [done|]. apply dir_find_Some. tauto.
Qed.

Lemma dirlookup_spec s a ks dp x name Q :
  let d := fdata (content a) x in let e := cprefix name in
  icache s !! dp = Some x -> fsb s = sb -> ok (fl s) a ks -> dir_ok sb (content a) x -> held a = ∅ -> (length ks + 4 < sz)%nat ->
  length name = DIRSIZ ->
  (forall l, ok l a ks -> dir_find e d = None -> Q None (set_fl l s)) ->
  (forall l j, ok l a ks -> dir_find e d = Some j ->
     wp (let! ip := iget 1 (de_inum (entry d j)) in ret (Some (ip, Z.of_nat (DIRENT * j)))) Q (set_fl l s)) ->
  wp (dirlookup dp name) Q s.
Proof.
  intros d e Hx Hs Ho Hd Hh Hk Hl HN HS. unfold dirlookup. rewrite wp_bind. eapply wp_get_ip; [done|].
  destruct (Z.eqb_spec (i_type x) T_DIR) as [_|Hn]; [|by destruct Hd]. cbn [negb]. change 0 with (Z.of_nat (DIRENT * 0)).
  pose proof (length_fdata (content a) x) as Hld. fold d in Hld. pose proof (de_size _ _ (fk_dense _ _ _ (do_file _ _ _ Hd))).
  apply (dirlookup_loop_spec _ s a ks dp x name 0); try done; [lia| |lia].
  fold d. rewrite Hld. unfold dir_fuel. rewrite Z2Nat.inj_div by lia. rewrite Nat2Z.id. lia.
Qed.

(** * Path names *)

(** A set of inodes on the disk that is closed under the entries of directories. *)
Record tree c (I : Z -> Prop) : Prop := {
  tr_ino : forall inum, I inum -> file_ok sb c (din sb c inum) /\ i_type (din sb c inum) <> 0 /\ i_nlink (din sb c inum) <> 0;
  tr_dir : forall inum, I inum -> i_type (din sb c inum) = T_DIR -> (length (fdata c (din sb c inum)) mod DIRENT = 0)%nat;
  tr_entry : forall inum i, I inum -> i_type (din sb c inum) = T_DIR -> let d := fdata c (din sb c inum) in
    (i < length d / DIRENT)%nat -> de_inum (entry d i) <> 0 -> I (de_inum (entry d i))
}.

(** Where the elements of a path lead from [inum]; with [par], to the directory of the last one. *)
Fixpoint walk c (par : bool) (inum : Z) (es : list (list Z)) : option Z :=
  match es with
  | [] => if par then None else Some inum
  | e :: es =>
      let x := din sb c inum in
      if negb (i_type x =? T_DIR) then None else
      if par && match es with [] => true | _ => false end then Some inum else
      match dir_find e (fdata c x) with
      | None => None
      | Some i => walk c par (de_inum (entry (fdata c x) i)) es
      end
  end.

Definition upd_fs (l : lst) (cache : list inode) s : fsst D := mkfsst l cache (fsb s) (fcwd s) (fdev s).

Section namex.
Context (a : bspec) (ks : list nat) (I : Z -> Prop) (r0 : Z -> Z) (S0 : nat) (par : bool).
Hypothesis Hh : held a = ∅.
Hypothesis Hk : (length ks + 4 < sz)%nat.
Hypothesis Htree : tree (content a) I.
Hypothesis Hr0 : forall inum, 0 <= r0 inum /\ r0 inum + 2 < 2 ^ 31.
Hypothesis HS0 : (2 <= S0)%nat.
Abbreviation c := (content a).

(** The caller holds one reference, to the inode in slot [ip]. *)
Record at_ino (cache : list inode) (ip : nat) (inum : Z) : Prop := {
  ai_cache : cache_ok me sb c None (bump r0 inum 1) cache;
  ai_slot : exists x, cache !! ip = Some x /\ 0 < i_ref x /\ i_inum x = inum;
  ai_spare : (spare cache + (if decide (r0 inum = 0%Z) then 1 else 0) = S0)%nat
}.
(** The caller holds none. *)
Record at_none (cache : list inode) : Prop := {
  an_cache : cache_ok me sb c None r0 cache;
  an_spare : spare cache = S0
}.

Lemma bump_at r inum v : bump r inum v inum = r inum + v.
Proof. unfold bump. by rewrite decide_True. Qed.

Lemma bump_down r inum k : bump (bump r inum 1) inum (-1) k = r k.
Proof. unfold bump. case_decide; lia. Qed.

(** The reference is given up. *)
Lemma dropped_none cache cache' inum :
  (spare cache + (if decide (r0 inum = 0%Z) then 1 else 0) = S0)%nat -> dropped me sb c (bump r0 inum 1) inum cache cache' -> at_none cache'.
Proof.
  intros Hs [_ Hc Hd]. split; [eapply cache_ok_ext; [|exact Hc]; apply bump_down|]. rewrite Hd, bump_at.
  destruct (decide (r0 inum = 0)), (decide (r0 inum + 1 = 1)); lia.
Qed.

(** The reference is exchanged for one to [next]. *)
Lemma dropped_next cache ip jp z w inum next :
  (spare cache + (if decide (r0 inum = 0%Z) then 1 else 0) = S0)%nat ->
  got me sb c (Some ip) (bump r0 inum 1) next cache jp z ->
  dropped me sb c (bump (bump r0 inum 1) next 1) inum (<[jp := z]> cache) (<[ip := w]> (<[jp := z]> cache)) ->
  at_ino (<[ip := w]> (<[jp := z]> cache)) jp next.
Proof.
  intros Hs [Hlt Hc2 Hz Hzp _ Hs2] [_ Hc3 Hs3]. pose proof (Hr0 inum). pose proof (Hr0 next).
  assert (forall k, bump (bump (bump r0 inum 1) next 1) inum (-1) k = bump r0 next 1 k) as He.
  { intros k. unfold bump. repeat case_decide; lia. }
  apply (cache_ok_ext _ _ _ _ _ _ _ He) in Hc3. split; [done| |].
  - destruct (cache_find _ _ _ _ _ _ next Hc3) as (i & x & Hi & Hp & Hn); [rewrite bump_at; lia|].
    assert (i = jp) as ->; [|eauto]. assert (<[jp := z]> cache !! jp = Some z) as Hj by by apply list_lookup_insert_eq.
    destruct (decide (jp = ip)) as [->|Hne].
    + destruct (decide (i = ip)) as [|Hi']; [done|]. rewrite list_lookup_insert_ne in Hi by done.
      by apply (co_inj _ _ _ _ _ _ Hc2 i ip x z); [..|congruence].
    + apply (co_inj _ _ _ _ _ _ Hc3 i jp x z); [done|by rewrite list_lookup_insert_ne|done|done|congruence].
  - unfold bump in Hs2, Hs3. repeat case_decide; subst; lia.
Qed.
(** What [namex] promises for [path] from [inum], with the name it leaves. *)
Definition named inum es (res : option nat) (name : list Z) (cache : list inode) : Prop :=
  match res with
  | None => walk c par inum es = None /\ at_none cache
  | Some ip => exists dest, walk c par inum es = Some dest /\ I dest /\ at_ino cache ip dest /\
      (par = true -> last es = Some (cprefix name))
  end.

Lemma at_ino_slot cache ip inum : at_ino cache ip inum -> exists x, cache !! ip = Some x /\ 0 < i_ref x < 2 ^ 31 /\ i_inum x = inum.
Proof.
  intros [Hc (x & Hx & Hp & Hn) _]. exists x. destruct (co_slot _ _ _ _ _ _ Hc ip x Hx Hp) as (_ & Hr & _).
  rewrite Hn, bump_at in Hr. pose proof (Hr0 inum). split; [done|]. split; [lia|done].
Qed.

Lemma locked_dir y inum : clean y = din sb c inum -> I inum -> i_type y = T_DIR -> dir_ok sb c y.
Proof.
  intros Hy Hi Ht. assert (i_type (din sb c inum) = T_DIR) as Hdt by (rewrite <- Hy; exact Ht). split; [|done|].
  - apply file_ok_clean. rewrite Hy. by apply (tr_ino _ _ Htree).
  - change (fdata c y) with (fdata c (clean y)). rewrite Hy. by apply (tr_dir _ _ Htree).
Qed.

(** The inode in slot [ip] is locked, to look at its type and entries. *)
Record in_ino (cache : list inode) (ip : nat) (inum : Z) y : Prop := {
  ii_cache : cache_ok me sb c (Some ip) (bump r0 inum 1) cache;
  ii_slot : cache !! ip = Some y;
  ii_disk : clean y = din sb c inum;
  ii_spare : (spare cache + (if decide (r0 inum = 0%Z) then 1 else 0) = S0)%nat
}.

Lemma in_ino_facts cache ip inum y : in_ino cache ip inum y -> 0 < i_ref y < 2 ^ 31 /\ i_inum y = inum /\ (ip < length cache)%nat.
Proof.
  intros [Hc Hy Hd _]. destruct (co_holder _ _ _ _ _ _ Hc ip y Hy eq_refl) as [_ Hp]. destruct (co_slot _ _ _ _ _ _ Hc ip y Hy Hp) as (_ & Hr & _).
  assert (i_inum y = inum) as Hn by (change (i_inum (clean y) = inum); by rewrite Hd). rewrite Hn, bump_at in Hr. pose proof (Hr0 inum).
  split; [lia|]. split; [done|]. by eapply lookup_lt_Some.
Qed.

Lemma ok_me l : ok l a ks -> Bio.mypid (bc l) = me.
Proof. intros Ho. apply (br_me _ _ _ (txn_brep _ _ _ _ _ _ _ (fo_txn _ _ _ _ _ _ _ _ Ho))). Qed.

Lemma namex_enter s ip inum Q :
  at_ino (icache s) ip inum -> I inum -> fsb s = sb -> ok (fl s) a ks ->
  (forall l cache y, ok l a ks -> in_ino cache ip inum y -> Q tt (upd_fs l cache s)) -> wp (ilock ip) Q s.
Proof.
  intros Hat Hi Hs Ho HQ. destruct (at_ino_slot _ _ _ Hat) as (x & Hx & Hxp & Hxn). destruct (tr_ino _ _ Htree inum Hi) as (Hfile & Hty0 & Hnl).
  eapply (ilock_spec q me st sz sb s a ks _ ip x); [apply Hat|done|lia|done|done|done|lia|rewrite Hxn; apply Hfile|by rewrite Hxn|].
  rewrite Hxn. intros l y Hl Hc Hy Hyr. apply lookup_lt_Some in Hx as Hlt. apply (HQ l (<[ip := y]> (icache s)) y); [done|].
  split; [done|by apply list_lookup_insert_eq|done|]. rewrite (spare_same _ ip x) by done. apply Hat.
Qed.

Lemma namex_leave s ip inum y Q :
  in_ino (icache s) ip inum y -> I inum -> ok (fl s) a ks ->
  (forall cache, at_none cache -> Q tt (upd_fs (fl s) cache s)) -> wp (iunlockput ip) Q s.
Proof.
  intros Hin Hi Ho HQ. destruct (in_ino_facts _ _ _ _ Hin) as (Hp & Hn & _). destruct Hin as [Hc Hy Hd Hs].
  eapply (iunlockput_spec me sb s c _ ip y); [done|done|lia|by apply ok_me|rewrite Hn; by apply (tr_ino _ _ Htree)|].
  rewrite Hn. intros w Hw. apply HQ. by eapply dropped_none.
Qed.

Lemma namex_stop s ip inum y Q :
  in_ino (icache s) ip inum y -> ok (fl s) a ks ->
  (forall cache, at_ino cache ip inum -> Q tt (upd_fs (fl s) cache s)) -> wp (iunlock ip) Q s.
Proof.
  intros Hin Ho HQ. destruct (in_ino_facts _ _ _ _ Hin) as (Hp & Hn & Hlt). destruct Hin as [Hc Hy Hd Hs].
  destruct (co_holder _ _ _ _ _ _ Hc ip y Hy eq_refl) as [Hpid _]. destruct (co_slot _ _ _ _ _ _ Hc ip y Hy) as (Hdev & _ & Hv); [lia|].
  eapply (iunlock_spec s ip y); [done|lia|by rewrite (co_lock _ _ _ _ _ _ Hc ip y Hy), decide_True|by rewrite (ok_me _ Ho)|].
  apply (HQ (<[ip := set_i_lock 0 0 y]> (icache s))). split.
  - eapply (cache_same me sb c (Some ip)); try done; [lia|]. intros j Hj. split; [done|]. by intros [= ->].
  - exists (set_i_lock 0 0 y). split; [by apply list_lookup_insert_eq|]. split; [cbn; lia|done].
  - by rewrite (spare_same _ ip y).
Qed.

(** The reference to the next inode is taken before the directory is let go. *)
Lemma namex_next {B} s ip inum y next (k : nat -> M (fsst D) B) Q :
  in_ino (icache s) ip inum y -> I inum -> ok (fl s) a ks ->
  (forall cache jp, at_ino cache jp next -> wp (k jp) Q (upd_fs (fl s) cache s)) ->
  wp (iget 1 next) (fun jp => wp (do! iunlockput ip; k jp) Q) s.
Proof.
  intros Hin Hi Ho HQ. destruct (in_ino_facts _ _ _ _ Hin) as (Hp & Hn & Hlt). destruct Hin as [Hc Hy Hd Hs]. pose proof (Hr0 inum). pose proof (Hr0 next).
  eapply (iget_spec me sb s c (Some ip) (bump r0 inum 1)); [done|unfold bump; destruct (decide (next = inum)); lia| |].
  { unfold bump. destruct (decide (next = inum)); [left; lia|]. destruct (decide (r0 next = 0)); [right|by left]. destruct (decide (r0 inum = 0)); lia. }
  intros jp z Hg. set (cache2 := <[jp := z]> (icache s)) in *.
  assert (exists w, cache2 !! ip = Some w /\ i_inum w = inum) as (w & Hw & Hwn).
  { destruct (decide (jp = ip)) as [->|Hne]; [exists z|exists y].
    - split; [by apply list_lookup_insert_eq|]. rewrite (gt_inum _ _ _ _ _ _ _ _ _ Hg). rewrite <- Hn. symmetry. apply (gt_slot _ _ _ _ _ _ _ _ _ Hg y); [done|lia].
    - unfold cache2. by rewrite list_lookup_insert_ne. }
  pose proof (gt_cache _ _ _ _ _ _ _ _ _ Hg) as Hc2. fold cache2 in Hc2.
  destruct (co_holder _ _ _ _ _ _ Hc2 ip w Hw eq_refl) as [_ Hwp]. destruct (co_slot _ _ _ _ _ _ Hc2 ip w Hw Hwp) as (_ & Hwr & _).
  rewrite wp_bind. eapply (iunlockput_spec me sb _ c _ ip w); [exact Hc2|exact Hw| |by apply ok_me|rewrite Hwn; by apply (tr_ino _ _ Htree)|].
  { rewrite Hwr, Hwn. unfold bump. destruct (decide (inum = next)), (decide (inum = inum)); lia. }
  rewrite Hwn. intros v Hv. apply (HQ (<[ip := v]> cache2)). by apply dropped_next with inum.
Qed.

Lemma namex_loop_spec fuel s ip inum path name Q :
  at_ino (icache s) ip inum -> I inum -> fsb s = sb -> ok (fl s) a ks ->
  Forall (fun ch => ch <> 0) path -> length name = DIRSIZ -> (length path < fuel)%nat ->
  (forall l cache res name', ok l a ks -> named inum (elems path) res name' cache -> Q (res, name') (upd_fs l cache s)) ->
  wp (namex_loop fuel ip path par name) Q s.
Proof.
  revert s ip inum path name. induction fuel as [|fuel IH]; intros s ip inum path name Hat Hi Hs Ho Hp Hn Hf HQ; [lia|].
  destruct (tr_ino _ _ Htree inum Hi) as (Hfile & _ & Hnl).
  cbn [namex_loop]. pose proof (skipelem_spec path name Hp Hn) as Hsk. destruct (skipelem path name) as [[path' name']|].
  2: { rewrite Hsk in HQ. unfold named, walk in HQ. destruct par.
    - destruct (at_ino_slot _ _ _ Hat) as (x & Hx & Hxp & Hxn).
      rewrite wp_bind. eapply (iput_spec me sb s c _ ip x); [apply Hat|done|lia|by rewrite Hxn|]. rewrite Hxn. intros y Hd. rewrite wp_ret.
      apply (HQ (fl s) (<[ip := y]> (icache s)) None); [done|]. split; [done|]. eapply dropped_none; [apply Hat|exact Hd].
    - rewrite wp_ret. replace s with (upd_fs (fl s) (icache s) s) by by destruct s. apply (HQ _ _ (Some ip)); [done|]. by exists inum. }
  destruct Hsk as (He & Hn' & Hp' & Hlen & Hnil). rewrite He in HQ. rewrite wp_bind. eapply namex_enter; [done..|].
  intros l1 cache1 y Ho1 Hin. pose proof (ii_slot _ _ _ _ Hin) as Hy. rewrite wp_bind. eapply wp_get_ip; [exact Hy|].
  assert (i_type y = i_type (din sb c inum)) as Hty by (by rewrite <- (ii_disk _ _ _ _ Hin)).
  assert (fdata c y = fdata c (din sb c inum)) as Hdat by (by rewrite <- (ii_disk _ _ _ _ Hin)).
  assert (forall l, ok l a ks -> walk c par inum (cprefix name' :: elems path') = None ->
    wp (do! iunlockput ip; ret (None, name')) Q (upd_fs l cache1 s)) as Hfail.
  { intros l Hl Hw. rewrite wp_bind. eapply namex_leave; [exact Hin|done|done|]. intros cache Hnone. rewrite wp_ret. by apply (HQ l cache None). }
  unfold named in HQ. cbn [walk] in Hfail, HQ. destruct (Z.eqb_spec (i_type y) T_DIR) as [Hdir|Hdir]; cbn [negb].
  2: { apply Hfail; [done|]. rewrite <- Hty. by destruct (Z.eqb_spec (i_type y) T_DIR). }
  rewrite <- Hty, Hdir, Z.eqb_refl in Hfail, HQ. cbn [negb] in Hfail, HQ.
  assert (match path' with [] => true | _ => false end = match elems path' with [] => true | _ => false end) as Hlast.
  { destruct path'; [done|]. destruct (elems (z :: path')); [|done]. destruct Hnil as [_ Hnil]. by specialize (Hnil eq_refl). }
  rewrite Hlast. destruct (par && match elems path' with [] => true | _ => false end) eqn:Estop.
  { rewrite wp_bind. eapply namex_stop; [exact Hin|done|]. intros cache Hc. rewrite wp_ret. apply (HQ l1 cache (Some ip)); [done|].
    exists inum. split; [done|]. split; [done|]. split; [done|]. intros _. apply andb_true_iff in Estop as [_ Es]. by destruct (elems path'). }
  pose proof (locked_dir y inum (ii_disk _ _ _ _ Hin) Hi Hdir) as Hd. rewrite wp_bind.
  eapply (dirlookup_spec _ a ks ip y); [exact Hy|done|exact Ho1|exact Hd|done|done|done|..].
  - rewrite Hdat. intros l Hl Hnone. apply Hfail; [done|]. by rewrite Hnone.
  - rewrite Hdat. intros l j Hl Hsome. rewrite Hsome in HQ. apply dir_find_Some in Hsome as (Hj & [Hj0 _] & _).
    set (next := de_inum _) in *. assert (I next) as Hnext by (apply (tr_entry _ _ Htree inum j); [done|congruence|done|done]).
    rewrite wp_bind. eapply (wp_mono _ (fun jp => wp (do! iunlockput ip; namex_loop fuel jp path' par name') Q));
      [|intros jp s' Hw; by rewrite wp_ret]. eapply namex_next; [exact Hin|done|exact Hl|]. intros cache jp Hat'.
    apply (IH _ jp next path' name'); [exact Hat'|done|done|exact Hl|done|done|lia|]. intros l2 cache2 res name2 Hl2 Hnm.
    apply (HQ l2 cache2 res); [done|]. destruct res as [ip2|]; [|done]. destruct Hnm as (dest & Hw & Hi2 & Ha2 & Hlst).
    exists dest. split; [done|]. split; [done|]. split; [done|]. intros Hpar. rewrite last_cons, (Hlst Hpar). done.
Qed.
(** ** The start of a path *)

Lemma idup_spec s ip x Q :
  at_none (icache s) -> icache s !! ip = Some x -> 0 < i_ref x ->
  (forall cache, at_ino cache ip (i_inum x) -> Q ip (upd_fs (fl s) cache s)) -> wp (idup ip) Q s.
Proof.
  intros [Hc Hs] Hx Hp HQ. apply lookup_lt_Some in Hx as Hlt. destruct (co_slot _ _ _ _ _ _ Hc ip x Hx Hp) as (Hd & Hr & Hv). pose proof (Hr0 (i_inum x)).
  unfold idup. rewrite wp_bind. eapply wp_set_ip; [done|]. rewrite wp_ret, i32_small by lia.
  apply (HQ (<[ip := set_i_ref (i_ref x + 1) x]> (icache s))). split.
  - eapply (cache_update _ _ _ None None r0 _ _ ip x); try done; cbn [set_i_ref i_ref i_inum i_dev i_locked i_pid i_valid]; try lia.
    + intros j z Hz Hne Hzp He. apply Hne. by apply (co_inj _ _ _ _ _ _ Hc j ip z x).
    + by apply (co_lock _ _ _ _ _ _ Hc).
    + intros k. unfold bump. case_decide; [|done]. subst. lia.
  - exists (set_i_ref (i_ref x + 1) x). split; [by apply list_lookup_insert_eq|]. split; [cbn; lia|done].
  - pose proof (spare_insert (icache s) ip x (set_i_ref (i_ref x + 1) x) Hx) as Hsp. cbn [i_ref set_i_ref] in Hsp.
    rewrite !decide_False in Hsp by lia. rewrite decide_False by lia. lia.
Qed.

Lemma iget_root s Q :
  at_none (icache s) -> (forall cache ip, at_ino cache ip ROOTINO -> Q ip (upd_fs (fl s) cache s)) -> wp (iget ROOTDEV ROOTINO) Q s.
Proof.
  intros [Hc Hs] HQ. pose proof (Hr0 ROOTINO). eapply (iget_spec me sb s c None r0); [done|lia|right; lia|].
  intros ip x [Hlt Hc' Hn Hp _ Hs']. apply (HQ (<[ip := x]> (icache s))). split; [done| |lia].
  exists x. split; [by apply list_lookup_insert_eq|done].
Qed.

(** The inode a path starts from: the root or the current directory. *)
Definition starts s path (inum : Z) : Prop :=
  if hd 0 path =? slash then inum = ROOTINO
  else exists w, icache s !! fcwd s = Some w /\ 0 < i_ref w /\ i_inum w = inum.

Lemma namex_spec s path name inum Q :
  at_none (icache s) -> fsb s = sb -> ok (fl s) a ks -> Forall (fun ch => ch <> 0) path -> length name = DIRSIZ ->
  starts s path inum -> I inum ->
  (forall l cache res name', ok l a ks -> named inum (elems path) res name' cache -> Q (res, name') (upd_fs l cache s)) ->
  wp (namex path par name) Q s.
Proof.
  intros Hnone Hs Ho Hp Hn Hst Hi HQ. unfold namex, starts in *. rewrite wp_bind. destruct (hd 0 path =? slash).
  - subst inum. eapply iget_root; [done|]. intros cache ip Hat. apply (namex_loop_spec _ _ _ ROOTINO); [exact Hat|done|done|exact Ho|done|done|lia|].
    intros l cache2 res name' Hl Hnm. by apply (HQ l cache2).
  - destruct Hst as (w & Hw & Hwp & <-). rewrite wp_bind, wp_gets. eapply idup_spec; [done|done|done|]. intros cache Hat.
    apply (namex_loop_spec _ _ _ (i_inum w)); [exact Hat|done|done|exact Ho|done|done|lia|].
    intros l cache2 res name' Hl Hnm. by apply (HQ l cache2).
Qed.
End namex.
End dirs.
