(* ===== verification/DirProps.v ===== *)
(** Directories and path names: adding an entry, finding it again, and resolving a path. *)

From S2P Require Import Prelude CString Mem Bio BioSpec Log LogSpec LogProps Fs FsSpec.
From S2P Require Import FsFile Dinode FsIo FileSpec FsProps DirSpec.
Import Bio Log Fs.

Implicit Types (c : list (list Z)) (x y : inode) (d e name path : list Z).

(** * The entries after a store *)

(** The inode a directory has for a name. *)
Definition dir_inum e d : option Z := (fun i => de_inum (entry d i)) <$> dir_find e d.

Lemma entry_splice d p i j :
  length p = DIRENT -> (DIRENT * i <= length d)%nat -> entry (splice (DIRENT * i) p d) j = if decide (j = i) then p else entry d j.
Proof.
  intros Hp Hi. unfold entry. case_decide as Hj; [subst j; rewrite <- Hp at 2; by apply slice_splice|].
  apply list_eq. intros k. destruct (decide (k < DIRENT)%nat) as [Hk|Hk].
  - rewrite !lookup_slice by done. unfold splice. assert (DIRENT = 16%nat) as HD by done.
    destruct (decide (j < i)%nat).
    + rewrite lookup_app_l by (rewrite length_take; nia). apply lookup_take_lt. nia.
    + rewrite lookup_app_r; rewrite length_take_le by done; [|nia]. rewrite lookup_app_r by nia. rewrite lookup_drop. f_equal. nia.
  - unfold slice. rewrite !lookup_take_ge by lia. done.
Qed.

(** The entry in slot [i], which was free or at the end, is [p]. *)
Lemma dir_inum_add d p i e e0 :
  (length d mod DIRENT = 0)%nat -> length p = DIRENT -> (i <= length d / DIRENT)%nat ->
  ((i < length d / DIRENT)%nat -> de_inum (entry d i) = 0) ->
  de_inum p <> 0 -> cprefix (de_name p) = e0 -> dir_find e0 d = None ->
  dir_inum e (splice (DIRENT * i) p d) = if decide (e = e0) then Some (de_inum p) else dir_inum e d.
Proof.
  intros Hm Hp Hi Hfree Hp0 Hpe Hnone. pose proof (Nat.div_mod_eq (length d) DIRENT) as Hdm. rewrite Hm in Hdm.
  assert (DIRENT * i <= length d)%nat as Hil by nia. pose proof (fun j => entry_splice d p i j Hp Hil) as He.
  set (d' := splice (DIRENT * i) p d) in *. set (n := (length d / DIRENT)%nat) in *.
  assert (length d' / DIRENT = Nat.max n (S i))%nat as Hn'.
  { assert (length d' = DIRENT * Nat.max n (S i))%nat as ->; [|by rewrite Nat.mul_comm, Nat.div_mul].
    unfold d', splice. rewrite !length_app, length_take_le, length_drop, Hp by done. assert (DIRENT = 16%nat) as HD by done. lia. }
  assert (forall j, hits e d' j <-> if decide (j = i) then e = e0 else hits e d j) as Hh.
  { intros j. unfold hits. rewrite He. case_decide; [|done]. rewrite Hpe. naive_solver. }
  rewrite dir_find_None in Hnone. fold n in Hnone. unfold dir_inum. destruct (decide (e = e0)) as [->|Hne].
  - assert (dir_find e0 d' = Some i) as ->; [|change (Some (de_inum (entry d' i)) = Some (de_inum p)); by rewrite He, decide_True].
    apply dir_find_Some. rewrite Hn'. split; [lia|]. split; [apply Hh; by rewrite decide_True|].
    intros j Hj. rewrite Hh, decide_False by lia. apply Hnone. lia.
  - destruct (dir_find e d) as [j|] eqn:Ed.
    + apply dir_find_Some in Ed as (Hj & Hit & Hmin). fold n in Hj.
      assert (j <> i) as Hji by (intros ->; destruct Hit as [H0 _]; by apply H0, Hfree).
      assert (dir_find e d' = Some j) as ->; [|change (Some (de_inum (entry d' j)) = Some (de_inum (entry d j))); by rewrite He, decide_False].
      apply dir_find_Some. rewrite Hn', Hh, decide_False by done. split; [lia|]. split; [done|].
      intros k Hk. rewrite Hh. case_decide; [done|]. by apply Hmin.
    + assert (dir_find e d' = None) as ->; [|done]. apply dir_find_None. intros j. rewrite Hn', Hh. intros Hj.
      case_decide; [done|]. rewrite dir_find_None in Ed. apply Ed. fold n. lia.
Qed.

(** What [dirlink] writes. *)
Lemma mkdirent_spec inum name : 0 < inum < 2 ^ 16 -> length name = DIRSIZ ->
  length (mkdirent inum name) = DIRENT /\ de_inum (mkdirent inum name) = inum /\ cprefix (de_name (mkdirent inum name)) = cprefix name.
Proof.
  intros Hi Hl. unfold mkdirent. split; [by rewrite length_app, length_put16, length_lstrncpy|]. split.
  - unfold de_inum, get16, byte_at. rewrite !lookup_app_l by (rewrite length_put16; cbn; lia).
    change (get16 (put16 0 inum (replicate 2 0)) 0 = inum). rewrite get16_put16 by (cbn; lia). unfold u16. apply Z.mod_small. lia.
  - unfold de_name, slice. rewrite drop_app_length' by (by rewrite length_put16). rewrite take_ge by (by rewrite length_lstrncpy).
    by apply cprefix_lstrncpy.
Qed.

(** * [dirlink] *)

Section link.
Context `{DevOps D} (q me : Z) (st sz : nat) (sb : superblock) (Hone : sb_size sb <= BPB).
Implicit Types s : fsst D.
Abbreviation ok := (fsok q me st sz sb).

(** The first entry that is not in use, or the end. *)
Definition free_slot d (i : nat) : Prop :=
  (i <= length d / DIRENT)%nat /\ ((i < length d / DIRENT)%nat -> de_inum (entry d i) = 0).

Lemma dirlink_loop_spec fuel s a ks dp x i Q :
  let d := fdata (content a) x in
  icache s !! dp = Some x -> fsb s = sb -> ok (fl s) a ks -> dir_ok sb (content a) x -> held a = ∅ -> (length ks + 4 < sz)%nat ->
  (i <= length d / DIRENT)%nat -> (length d / DIRENT - i < fuel)%nat ->
  (forall l j, ok l a ks -> free_slot d j -> Q (Z.of_nat (DIRENT * j)) (set_fl l s)) ->
  wp (dirlink_loop fuel dp (Z.of_nat (DIRENT * i))) Q s.
Proof.
  intros d Hx Hs Ho Hd Hh Hk. pose proof (length_fdata (content a) x) as Hld. fold d in Hld. pose proof (Nat.div_mod_eq (length d) DIRENT) as Hdm.
  pose proof (do_len _ _ _ Hd) as Hm. fold d in Hm. rewrite Hm in Hdm. pose proof (de_size _ _ (fk_dense _ _ _ (do_file _ _ _ Hd))) as Hsz.
  assert (DIRENT = 16%nat) as HD by done.
  revert s i Hx Hs Ho. induction fuel as [|fuel IH]; intros s i Hx Hs Ho Hi Hf HQ; [lia|]. cbn [dirlink_loop].
  rewrite wp_bind. eapply wp_get_ip; [done|]. destruct (Z.ltb_spec (Z.of_nat (DIRENT * i)) (i_size x)) as [Hlt|Hge]; cbn [negb].
  2: { rewrite wp_ret, <- (set_fl_id s). apply HQ; [done|]. split; [done|]. nia. }
  assert (i < length d / DIRENT)%nat as Hin by nia. rewrite wp_bind.
  eapply (entry_read q me st sz sb Hone s a ks dp x i); try done. intros l Hl. rewrite Z.eqb_refl. cbn [negb]. fold d.
  destruct (Z.eqb_spec (de_inum (entry d i)) 0) as [E|E].
  - rewrite wp_ret. by apply HQ.
  - replace (Z.of_nat (DIRENT * i) + Z.of_nat DIRENT) with (Z.of_nat (DIRENT * S i)) by lia.
    apply IH; [done|done|done|lia|lia|]. intros l2 j Hl2 Hj. rewrite set_fl_set_fl. by apply HQ.
Qed.

Lemma nblk_entry i : nblk (DIRENT * i) DIRENT = 1%nat.
Proof.
  unfold nblk. assert (BSIZE = 32 * DIRENT)%nat as HB by done. rewrite HB, (Nat.mul_comm 32), Nat.Div0.mul_mod_distr_l.
  pose proof (Nat.mod_upper_bound i 32 ltac:(lia)). assert (DIRENT = 16%nat) as HD by done. rewrite HD.
  symmetry. apply (Nat.div_unique _ _ _ (16 * (i mod 32) + 15)); lia.
Qed.

Lemma dirlink_spec s a ks dp x name inum Q :
  let d := fdata (content a) x in let e := cprefix name in
  icache s !! dp = Some x -> fsb s = sb -> ok (fl s) a ks -> dir_ok sb (content a) x -> held a = ∅ -> (length ks + 4 < sz)%nat ->
  1 <= q -> room sb 2 a -> i_size x + 16 <= Z.of_nat (MAXFILE * BSIZE) -> length name = DIRSIZ -> 0 < inum < 2 ^ 16 ->
  dir_find e d = None ->
  (forall l x' a' ks' i, ok l a' ks' -> free_slot d i ->
     written sb 1 (DIRENT * i) (mkdirent inum name) x a ks x' a' ks' -> Q 0 (put dp l x' s)) ->
  wp (dirlink dp name inum) Q s.
Proof.
  intros d e Hx Hs Ho Hd Hh Hk Hq Hr Hmax Hl Hin Hnone HQ. pose proof (length_fdata (content a) x) as Hld. fold d in Hld.
  pose proof (de_size _ _ (fk_dense _ _ _ (do_file _ _ _ Hd))) as Hsz. destruct (mkdirent_spec inum name Hin Hl) as (Hpl & _ & _).
  unfold dirlink. rewrite wp_bind. eapply (dirlookup_spec q me st sz sb Hone s a ks dp x); try done; [|intros l j _ Hj; change (dir_find e d = Some j) in Hj; congruence].
  intros l1 Ho1 _. rewrite wp_bind. eapply wp_get_ip; [exact Hx|]. rewrite wp_bind. change 0 with (Z.of_nat (DIRENT * 0)).
  eapply (dirlink_loop_spec _ _ a ks dp x 0); try done; [lia| |].
  { fold d. rewrite Hld. unfold dir_fuel. rewrite Z2Nat.inj_div by lia. rewrite Nat2Z.id. lia. }
  fold d. intros l2 i Ho2 Hi. rewrite set_fl_set_fl, wp_bind. pose proof (cost_le sb x ks). pose proof Hi as [Hi1 _].
  pose proof (Nat.Div0.mul_div_le (length d) DIRENT). assert (DIRENT = 16%nat) as HD by done.
  assert (DIRENT * i <= length d)%nat by (etransitivity; [apply Nat.mul_le_mono_l; exact Hi1|done]).
  eapply (writei_spec q me st sz sb Hone _ a ks dp x (mkdirent inum name) (DIRENT * i) DIRENT); rewrite ?nblk_entry; try done; try lia.
  - apply Hd.
  - by rewrite (do_type _ _ _ Hd).
  - rewrite take_ge by lia. intros x' a' ks' l3 Ho3 Hw. rewrite Z.eqb_refl. cbn [negb]. rewrite wp_ret, put_set_fl.
    apply (HQ l3 x' a' ks' i); [done|done|]. exact Hw.
Qed.
End link.

(** * The claims *)


(** C18: A path name leads where it says.  [namex] follows the elements of the path, cut to the
    length of a name, from the root or the current directory over the directories on the disk.
    If one of them is missing or not a directory, it answers 0 and every reference count is as
    before; otherwise it answers a slot of the inode cache for the inode at the end (for
    [nameiparent] the directory of the last element, with that element in [name]), and exactly
    that inode has one reference more.  The disk is not changed.  It needs inodes whose
    directories are well-formed and two free slots in the cache. *)
Theorem namex_resolves `{DevOps D} q me st sz sb (s : fsst D) a ks (I : Z -> Prop) (r0 : Z -> Z) par path name inum :
  sb_size sb <= BPB -> fsb s = sb -> fsok q me st sz sb (fl s) a ks -> held a = ∅ -> (length ks + 4 < sz)%nat ->
  tree sb (content a) I -> cache_ok me sb (content a) None r0 (icache s) -> (2 <= spare (icache s))%nat ->
  (forall k, 0 <= r0 k /\ r0 k + 2 < 2 ^ 31) -> Forall (fun ch => ch <> 0) path -> length name = DIRSIZ ->
  starts s path inum -> I inum ->
  exists res name' l cache, namex path par name s = Ok ((res, name'), upd_fs l cache s) /\ fsok q me st sz sb l a ks /\
    match walk sb (content a) par inum (elems path) with
    | None => res = None /\ cache_ok me sb (content a) None r0 cache
    | Some dest => exists ip x, res = Some ip /\ cache !! ip = Some x /\ i_inum x = dest /\ 0 < i_ref x /\
        cache_ok me sb (content a) None (bump r0 dest 1) cache /\ (par = true -> last (elems path) = Some (cprefix name'))
    end.
Proof.
  intros Hone Hs Ho Hh Hk Ht Hc Hsp Hr0 Hp Hn Hst Hi.
  assert (wp (namex path par name) (fun r s' => exists l cache, s' = upd_fs l cache s /\ fsok q me st sz sb l a ks /\
    named me sb a I r0 (spare (icache s)) par inum (elems path) r.1 r.2 cache) s) as Hwp.
  { eapply (namex_spec q me st sz sb Hone a ks I r0 (spare (icache s)) par); try done. intros l cache res name' Hl Hnm. by exists l, cache. }
  apply wp_Ok in Hwp as ([res name'] & s' & E & l & cache & -> & Hl & Hnm). exists res, name', l, cache. split; [done|]. split; [done|].
  destruct res as [ip|]; cbn [fst snd named] in Hnm.
  - destruct Hnm as (dest & -> & _ & [Hc' (x & Hx & Hxp & Hxn) _] & Hlast). by exists ip, x.
  - destruct Hnm as [-> [Hc' _]]. done.
Qed.

(** [dirlink] lets go of an inode it finds under the name with [iput], which takes the sleep lock of
    that inode.  If it is the directory itself, which the caller of [dirlink] has locked, the
    process waits for its own lock: [link(old, ".")] never returns. *)
Lemma dirlink_self_deadlock `{DevOps D} q me st sz sb (s : fsst D) a ks (r : Z -> Z) dp x name inum :
  let d := fdata (content a) x in
  sb_size sb <= BPB -> icache s !! dp = Some x -> fsb s = sb -> fsok q me st sz sb (fl s) a ks -> dir_ok sb (content a) x ->
  held a = ∅ -> (length ks + 4 < sz)%nat -> length name = DIRSIZ -> cache_ok me sb (content a) (Some dp) r (icache s) ->
  i_ref x + 1 < 2 ^ 31 -> dir_inum (cprefix name) d = Some (i_inum x) -> dirlink dp name inum s = NoFuel.
Proof.
  intros d Hone Hx Hs Ho Hd Hh Hk Hl Hc Hmax Hfind. apply fmap_Some in Hfind as (j & Hj & Hjn).
  destruct (co_holder _ _ _ _ _ _ Hc dp x Hx eq_refl) as [_ Hp]. destruct (co_slot _ _ _ _ _ _ Hc dp x Hx Hp) as (_ & Hr & _).
  assert (wp (dirlookup dp name) (fun o s' => exists off y, o = Some (dp, off) /\ icache s' !! dp = Some y /\ i_locked y = 1) s) as Hwp.
  { eapply (dirlookup_spec q me st sz sb Hone s a ks dp x); try done; [intros l _ Hn; change (dir_find (cprefix name) d = None) in Hn; congruence|].
    intros l i _ Hi. change (dir_find (cprefix name) d = Some i) in Hi. assert (i = j) as -> by congruence. fold d.
    rewrite wp_bind, <- Hjn. eapply (iget_spec me sb (set_fl l s) (content a) (Some dp) r); [exact Hc|lia|left; lia|].
    intros ip y [Hlt Hc' Hyn Hyp _ _]. rewrite wp_ret. cbn [icache set_fl] in *.
    assert (ip = dp) as ->.
    { destruct (decide (ip = dp)) as [|Hne]; [done|]. apply (co_inj _ _ _ _ _ _ Hc' ip dp y x); [by apply list_lookup_insert_eq|by rewrite list_lookup_insert_ne|done..]. }
    exists (Z.of_nat (DIRENT * j)), y. split; [done|]. assert (<[dp := y]> (icache s) !! dp = Some y) as Hy by by apply list_lookup_insert_eq.
    split; [exact Hy|]. by rewrite (co_lock _ _ _ _ _ _ Hc' dp y Hy), decide_True. }
  apply wp_Ok in Hwp as (o & s' & E & off & y & -> & Hy & Hlk). unfold dirlink, bind at 1. rewrite E.
  unfold bind at 1, iput, acquiresleep, get_ip. unfold bind at 1, bind at 1, bind at 1, bind at 1. cbn [get]. rewrite Hy. cbn [deref ret]. rewrite Hlk. done.
Qed.
