(* ===== verification/Mkfs.v ===== *)
(** The program that builds the disk image ([mkfs.c]).

    The image is the list of its blocks; [wsect] behind its end extends it, as [lseek] and
    [write] do, and [rsect] there finds nothing.  The calls of the build host on the image
    succeed otherwise.  A file to be copied is its name and the pieces in which [read] delivers
    its contents, or [None] if it cannot be opened.  An [exit(1)] and a failed [assert] are
    [Panic].  The fields of a [struct dinode] are those of the kernel's [inode] that
    [put_dinode] stores, little-endian as [xint] and [xshort] make them. *)

From S2P Require Import Prelude CString Mem Bio Log Fs.
Import Bio Log Fs.

Record hostfile := mkhost { h_name : list Z; h_read : option (list (list Z)) }.

Record mst := mkmst { img : list (list Z); freeinode : Z; freeblock : Z }.

Module Mkfs.

Definition NINODES : Z := 200.
Definition FSSIZE : Z := 1000.

Definition nbitmap : Z := FSSIZE / (Z.of_nat BSIZE * 8) + 1.
Definition ninodeblocks : Z := NINODES / IPB + 1.
Definition nlog : Z := Z.of_nat LOGSIZE.
Definition nmeta : Z := 2 + nlog + ninodeblocks + nbitmap.
Definition nblocks : Z := FSSIZE - nmeta.

Definition sb : superblock :=
  mksb FSSIZE nblocks NINODES nlog 2 (2 + nlog) (2 + nlog + ninodeblocks).

Definition zeroes : list Z := replicate BSIZE 0.

Definition wsect (sec : Z) (buf : list Z) : M mst unit :=
  modify (fun s =>
    let n := Z.to_nat sec in
    mkmst (if (n <? length (img s))%nat then <[n := buf]> (img s)
           else img s ++ replicate (n - length (img s)) zeroes ++ [buf]) (freeinode s) (freeblock s)).

Definition rsect (sec : Z) : M mst (list Z) :=
  let! s := get in
  match img s !! Z.to_nat sec with Some b => ret b | None => panic "read" end.

(** A [struct dinode] of zeros, with the number of the inode it is for. *)
Definition din0 (inum : Z) : inode := mkinode 1 inum 0 0 0 0 0 0 0 0 0 (replicate (S NDIRECT) 0).

Definition winode (inum : Z) (ip : inode) : M mst unit :=
  let bn := IBLOCK inum sb in
  let! buf := rsect bn in
  wsect bn (put_dinode (dinode_at inum) ip buf).

Definition rinode (inum : Z) : M mst inode :=
  let! buf := rsect (IBLOCK inum sb) in
  ret (get_dinode (dinode_at inum) buf (din0 inum)).

Definition ialloc (type : Z) : M mst Z :=
  let! inum := gets freeinode in
  do! modify (fun s => mkmst (img s) (u32 (freeinode s + 1)) (freeblock s));
  do! winode inum (set_i_nlink 1 (set_i_type type (din0 inum)));
  ret inum.

(** [freeblock++] *)
Definition next_block : M mst Z :=
  let! b := gets freeblock in
  do! modify (fun s => mkmst (img s) (freeinode s) (u32 (freeblock s + 1)));
  ret b.

(** [buf[i/8] = buf[i/8] | (0x1 << (i%8))] *)
Definition mark (buf : list Z) (i : nat) : list Z :=
  let i := Z.of_nat i in
  <[Z.to_nat (i / 8) := u8 (Z.lor (byte_at buf (Z.to_nat (i / 8))) (Z.shiftl 1 (i mod 8)))]> buf.

Definition balloc (used : Z) : M mst unit :=
  if negb (used <? Z.of_nat BSIZE * 8) then panic "used < BSIZE*8" else
  wsect (sb_bmapstart sb) (foldl mark zeroes (seq 0 (Z.to_nat used))).

(** The block [x] of [iappend] that holds block [fbn] of the file. *)
Definition file_block (din : inode) (fbn : nat) : M mst (inode * Z) :=
  if (fbn <? NDIRECT)%nat then
    let! din := (if default 0 (i_addrs din !! fbn) =? 0
                 then let! b := next_block in ret (set_i_addrs (<[fbn := b]> (i_addrs din)) din)
                 else ret din) in
    ret (din, default 0 (i_addrs din !! fbn))
  else
    let! din := (if default 0 (i_addrs din !! NDIRECT) =? 0
                 then let! b := next_block in ret (set_i_addrs (<[NDIRECT := b]> (i_addrs din)) din)
                 else ret din) in
    let ind := default 0 (i_addrs din !! NDIRECT) in
    let! indirect := rsect ind in
    let o := (4 * (fbn - NDIRECT))%nat in
    let! indirect := (if get32 indirect o =? 0
                      then let! b := next_block in
                           do! wsect ind (put32 o b indirect);
                           ret (put32 o b indirect)
                      else ret indirect) in
    ret (din, get32 indirect o).

Fixpoint iappend_loop (fuel : nat) (din : inode) (off : nat) (p : list Z) : M mst (inode * nat) :=
  match fuel with
  | O => nofuel
  | S fuel =>
      match p with
      | [] => ret (din, off)
      | _ =>
          let fbn := (off / BSIZE)%nat in
          if negb (fbn <? MAXFILE)%nat then panic "fbn < MAXFILE" else
          let! (din, x) := file_block din fbn in
          let n1 := Nat.min (length p) ((fbn + 1) * BSIZE - off) in
          let! buf := rsect x in
          do! wsect x (splice (off - fbn * BSIZE) (take n1 p) buf);
          iappend_loop fuel din (off + n1) (drop n1 p)
      end
  end.

Definition iappend (inum : Z) (p : list Z) : M mst unit :=
  let! din := rinode inum in
  let! (din, off) := iappend_loop (length p / BSIZE + 3) din (Z.to_nat (i_size din)) p in
  winode inum (set_i_size (Z.of_nat off) din).

Definition dirent (inum : Z) (name : list Z) : list Z := put16 0 inum (replicate 2 0) ++ lstrncpy DIRSIZ name.

Definition sb_block : list Z :=
  put32 24 (sb_bmapstart sb) (put32 20 (sb_inodestart sb) (put32 16 (sb_logstart sb) (put32 12 (sb_nlog sb)
    (put32 8 (sb_ninodes sb) (put32 4 (sb_nblocks sb) (put32 0 (sb_size sb) zeroes)))))).

(** The loop of [main] for one file; 47 is the slash and 95 the underscore. *)
Definition add_file (rootino : Z) (f : hostfile) : M mst unit :=
  if bool_decide (47 ∈ h_name f) then panic "index(argv[i], '/') == 0" else
  match h_read f with
  | None => panic "open"
  | Some pieces =>
      let name := match h_name f with c :: name => if c =? 95 then name else h_name f | [] => [] end in
      let! inum := ialloc T_FILE in
      do! iappend rootino (dirent inum name);
      for_each pieces (iappend inum)
  end.

Definition main (files : list hostfile) : M mst unit :=
  do! modify (fun s => mkmst [] 1 nmeta);
  do! for_each (seq 0 (Z.to_nat FSSIZE)) (fun i => wsect (Z.of_nat i) zeroes);
  do! wsect 1 sb_block;
  let! rootino := ialloc T_DIR in
  if negb (rootino =? ROOTINO) then panic "rootino == ROOTINO" else
  do! iappend rootino (dirent rootino [46]);
  do! iappend rootino (dirent rootino [46; 46]);
  do! for_each files (add_file rootino);
  let! din := rinode rootino in
  let off := (i_size din / Z.of_nat BSIZE + 1) * Z.of_nat BSIZE in
  do! winode rootino (set_i_size off din);
  let! used := gets freeblock in
  balloc used.

End Mkfs.
