(* ===== verification/MkfsProps.v ===== *)
(** The image that [mkfs] builds is a file system in the sense of the kernel's invariant:
    the files are there with their contents, no block is in two places, and the bitmap marks
    exactly the blocks in use. *)

From S2P Require Import Prelude CString Mem Bio BioSpec Log LogSpec LogProps Fs FsSpec.
From S2P Require Import FsFile Dinode FsIo Mkfs.
Import Bio Log Fs Mkfs.

Implicit Types (im c : list (list Z)) (x y : inode) (fb b bn o : nat) (p : list Z).

(** * The bitmap *)

Definition bits (n : nat) : list Z := foldl mark zeroes (seq 0 n).

Lemma bits_S n : bits (S n) = set_bit (Z.of_nat n) (bits n).
Proof. unfold bits. by rewrite seq_S, foldl_app. Qed.

Lemma bits_spec n : (n <= 4096)%nat ->
  length (bits n) = BSIZE /\ forall b, (b < 4096)%nat -> bit (bits n) (Z.of_nat b) = (b <? n)%nat.
Proof.
  assert (BPB = 4096) as HB by done. induction n as [|n IH]; intros Hn.
  - split; [done|]. intros b _. unfold bit. change (bits 0) with zeros. unfold byte_at, zeros.
    destruct (replicate BSIZE 0 !! bbyte (Z.of_nat b)) as [v|] eqn:E; [apply lookup_replicate in E as [-> _]|]; apply Z.bits_0.
  - destruct IH as [Hl Hb]; [lia|]. rewrite bits_S. split; [unfold set_bit; by rewrite length_insert|].
    intros b Hb'. rewrite bit_set by (done || lia). rewrite Hb by done.
    destruct (Z.eqb_spec (Z.of_nat n) (Z.of_nat b)), (Nat.ltb_spec b n), (Nat.ltb_spec b (S n)); cbn; lia || done.
Qed.

Lemma mk_geo : geo 2 30 sb 1000.
Proof. split; vm_compute; try done; lia. Qed.

(** ** The image as it will be with its bitmap *)

Definition vc im fb : list (list Z) := <[58%nat := bits fb]> im.

Lemma dstart_mk : dstart sb = 59%nat.
Proof. by vm_compute. Qed.
Lemma bm_block_mk b : (b < 1000)%nat -> bm_block sb b = 58%nat.
Proof.
  intros Hb. unfold bm_block. replace (Z.of_nat b / BPB) with 0; [by vm_compute|]. symmetry. apply Z.div_small.
  change BPB with 4096. lia.
Qed.

Lemma used_vc im fb b : length im = 1000%nat -> (fb <= 1000)%nat -> (b < 1000)%nat -> used sb (vc im fb) b = (b <? fb)%nat.
Proof.
  intros Hl Hf Hb. unfold used, vc. rewrite bm_block_mk by done. rewrite list_lookup_total_insert_eq by lia.
  rewrite Z.mod_small by (change BPB with 4096; lia). apply bits_spec; lia.
Qed.

Lemma dblk_vc im fb ad : length im = 1000%nat -> (fb <= 1000)%nat -> dblk sb (vc im fb) ad <-> 59 <= ad < Z.of_nat fb.
Proof.
  intros Hl Hf. unfold dblk. rewrite dstart_mk. change (sb_size sb) with 1000. split.
  - intros [Hr Hu]. rewrite used_vc in Hu by lia. apply Nat.ltb_lt in Hu. lia.
  - intros Hr. split; [lia|]. rewrite used_vc by lia. apply Nat.ltb_lt. lia.
Qed.

Lemma vc_insert im fb b d : b <> 58%nat -> vc (<[b := d]> im) fb = <[b := d]> (vc im fb).
Proof. intros Hb. unfold vc. by rewrite list_insert_insert_ne. Qed.
Lemma vc_lookup im fb b : b <> 58%nat -> vc im fb !!! b = im !!! b.
Proof. intros Hb. unfold vc. by rewrite list_lookup_total_insert_ne. Qed.

(** * Adding a block to a file *)

(** An image with its first free block. *)
Record layout im fb : Prop := {
  ly_len : length im = 1000%nat;
  ly_blk : forall b, (b < 1000)%nat -> length (im !!! b) = BSIZE;
  ly_fb : (59 <= fb <= 1000)%nat;
  ly_free : forall b, (fb <= b < 1000)%nat -> im !!! b = zeroes
}.

Abbreviation iok im fb x := (ino_ok sb (vc im fb) x).

Section block.
Context im fb x.
Hypothesis Hly : layout im fb.
Hypothesis Hx : iok im fb x.

Lemma dblk_here ad : dblk sb (vc im fb) ad <-> 59 <= ad < Z.of_nat fb.
Proof. apply dblk_vc; [apply Hly|apply Hly]. Qed.

Lemma ind_range : indirect x = 0 \/ 59 <= indirect x < Z.of_nat fb.
Proof. destruct (decide (indirect x = 0)); [by left|right]. apply dblk_here. by apply (io_ind _ _ _ Hx). Qed.
Lemma blk_range bn : (bn < MAXFILE)%nat -> amap (vc im fb) x bn = 0 \/ 59 <= amap (vc im fb) x bn < Z.of_nat fb.
Proof. intros Hb. destruct (decide (amap (vc im fb) x bn = 0)); [by left|right]. apply dblk_here. by apply (io_blk _ _ _ Hx). Qed.

(** The blocks of the file look the same with another bitmap. *)
Lemma amap_next fb' bn : amap (vc im fb') x bn = amap (vc im fb) x bn.
Proof.
  unfold amap. destruct (bn <? NDIRECT)%nat; [done|]. destruct (Z.eqb_spec (indirect x) 0); [done|].
  destruct ind_range as [|Hr]; [done|]. by rewrite !vc_lookup by lia.
Qed.

Lemma foreign_new b : (fb <= b)%nat -> foreign (vc im fb) x b.
Proof.
  intros Hb. pose proof (ly_fb _ _ Hly). split.
  - destruct ind_range; lia.
  - intros bn Hbn. destruct (blk_range bn Hbn); lia.
Qed.

Lemma dblk_next fb' ad : (fb <= fb' <= 1000)%nat -> dblk sb (vc im fb) ad -> dblk sb (vc im fb') ad.
Proof. intros Hf Had. apply dblk_here in Had. apply dblk_vc; [apply Hly|lia|lia]. Qed.
End block.

(** A file keeps its blocks as long as it keeps the numbers in use. *)
Lemma own_more c c' x x' b :
  (indirect x <> 0 -> indirect x' = indirect x) ->
  (forall bn, (bn < MAXFILE)%nat -> amap c x bn <> 0 -> amap c' x' bn = amap c x bn) -> own c x b -> own c' x' b.
Proof.
  intros Hi Ha [H0 [E|(bn & Hbn & E)]]; (split; [done|]).
  - left. rewrite Hi; [done|lia].
  - right. exists bn. split; [done|]. rewrite Ha; [done|done|lia].
Qed.
Lemma own_at c x bn b : (bn < MAXFILE)%nat -> amap c x bn = Z.of_nat b -> b <> 0%nat -> own c x b.
Proof. intros Hbn E H0. split; [done|]. right. by exists bn. Qed.

(** What [file_block] did for block [bn] of the file. *)
Record mapped x im fb bn (addr : nat) x' im' fb' : Prop := {
  mp_x : x' = set_i_addrs (i_addrs x') x;
  mp_ly : layout im' fb';
  mp_ino : iok im' fb' x';
  mp_at : amap (vc im' fb') x' bn = Z.of_nat addr;
  mp_range : (59 <= addr < fb')%nat;
  mp_map : forall bn', (bn' < MAXFILE)%nat -> bn' <> bn -> amap (vc im' fb') x' bn' = amap (vc im fb) x bn';
  mp_ind : indirect x' <> 0 <-> indirect x <> 0 \/ (NDIRECT <= bn)%nat;
  mp_byte : forall o, (o < MAXFILE * BSIZE)%nat -> fbyte (vc im' fb') x' o = fbyte (vc im fb) x o;
  mp_fb : (fb <= fb')%nat;
  mp_own : forall b, own (vc im fb) x b \/ (fb <= b < fb')%nat -> own (vc im' fb') x' b;
  mp_old : forall b, (59 <= b < fb)%nat -> foreign (vc im fb) x b -> foreign (vc im' fb') x' b /\ im' !!! b = im !!! b;
  mp_low : forall b, (b < 59)%nat -> im' !!! b = im !!! b
}.

Section add.
Context im fb x.
Hypothesis Hly : layout im fb.
Hypothesis Hx : iok im fb x.
Hypothesis Hfb : (fb < 1000)%nat.

Lemma layout_next : layout im (S fb).
Proof. destruct Hly as [L B F Z']. split; [done|done|lia|]. intros b Hb. apply Z'. lia. Qed.

Lemma mapped_direct bn :
  (bn < NDIRECT)%nat -> amap (vc im fb) x bn = 0 ->
  mapped x im fb bn fb (set_i_addrs (<[bn := Z.of_nat fb]> (i_addrs x)) x) im (S fb).
Proof.
  intros Hbn H0. pose proof (ly_fb _ _ Hly) as Hfr. pose proof (ly_len _ _ Hly) as Hlen.
  assert (bn < MAXFILE)%nat as Hbm by (unfold MAXFILE; lia). pose proof (foreign_new im fb x Hly Hx) as Hfor.
  assert (forall bn', amap (vc im (S fb)) (set_i_addrs (<[bn := Z.of_nat fb]> (i_addrs x)) x) bn' =
    if decide (bn' = bn) then Z.of_nat fb else amap (vc im fb) x bn') as Hmap.
  { intros bn'. rewrite amap_set_direct by (done || apply Hx). case_decide; [done|]. by apply amap_next. }
  destruct (assign sb (vc im fb) (vc im (S fb)) x (set_i_addrs (<[bn := Z.of_nat fb]> (i_addrs x)) x) fb bn) as [Hi' Hb']; try done.
  { apply Hx. }
  { cbn. rewrite length_insert. apply Hx. }
  { by apply indirect_set_direct. }
  { by apply Hfor. }
  { apply dblk_vc; [done|lia|lia]. }
  { rewrite vc_lookup by lia. apply (ly_free _ _ Hly). lia. }
  { intros bn' Hbn' Hn. destruct (blk_range im fb x Hly Hx bn' Hbn') as [|Hr]; [done|]. by rewrite !vc_lookup by lia. }
  { intros ad. apply dblk_next; [done|lia]. }
  split; try done; try lia.
  - apply layout_next.
  - rewrite Hmap. by rewrite decide_True.
  - intros bn' _ Hne. rewrite Hmap. by rewrite decide_False.
  - rewrite indirect_set_direct by done. split; [by left|]. intros [|]; [done|lia].
  - intros b [Ho|Hb].
    + apply (own_more (vc im fb) _ x); [intros _; by apply indirect_set_direct|intros bn' _ Hn; rewrite Hmap|exact Ho]. case_decide; [by subst|done].
    + apply (own_at _ _ bn); [done|rewrite Hmap, decide_True by done; lia|lia].
  - intros b Hb [F1 F2]. split; [|done]. split; [by rewrite indirect_set_direct|]. intros bn' Hbn'. rewrite Hmap. case_decide; [lia|by apply F2].
Qed.

(** A new indirect block is a block of zeros: the file does not change. *)
Lemma indirect_new : indirect x = 0 ->
  let x' := set_i_addrs (<[NDIRECT := Z.of_nat fb]> (i_addrs x)) x in
  iok im (S fb) x' /\ indirect x' = Z.of_nat fb /\
  (forall bn, (bn < MAXFILE)%nat -> amap (vc im (S fb)) x' bn = amap (vc im fb) x bn) /\
  (forall o, (o < MAXFILE * BSIZE)%nat -> fbyte (vc im (S fb)) x' o = fbyte (vc im fb) x o) /\
  (forall b, (b < fb)%nat -> foreign (vc im fb) x b -> foreign (vc im (S fb)) x' b).
Proof.
  intros H0. cbn zeta. set (x' := set_i_addrs _ x). pose proof (ly_fb _ _ Hly) as Hfr. pose proof (ly_len _ _ Hly) as Hlen.
  assert (indirect x' = Z.of_nat fb) as Hix.
  { unfold indirect, x'. cbn. rewrite list_lookup_insert_eq; [done|]. rewrite (io_len _ _ _ Hx). lia. }
  assert (forall bn, (bn < MAXFILE)%nat -> amap (vc im (S fb)) x' bn = amap (vc im fb) x bn) as Hmap.
  { intros bn Hbn. unfold amap. rewrite Hix, H0, Z.eqb_refl. destruct (Nat.ltb_spec bn NDIRECT).
    - unfold x'. cbn [i_addrs set_i_addrs]. by rewrite list_lookup_insert_ne by lia.
    - destruct (Z.eqb_spec (Z.of_nat fb) 0); [done|]. rewrite Nat2Z.id, vc_lookup, (ly_free _ _ Hly) by lia. apply get32_zeros. }
  pose proof (fun bn Hbn => blk_range im fb x Hly Hx bn Hbn) as Hr.
  split; [|split; [done|split; [done|split]]].
  - split; rewrite ?Hix.
    + apply Hx.
    + unfold x'. cbn. rewrite length_insert. apply Hx.
    + intros _. apply dblk_vc; [done|lia|lia].
    + intros bn Hbn. rewrite Hmap by done. intros Hn. eapply dblk_next; [done|lia|]. by apply (io_blk _ _ _ Hx).
    + intros bn bn' H1 H2. rewrite !Hmap by done. by apply (io_inj _ _ _ Hx).
    + intros bn Hbn. rewrite Hmap by done. destruct (Hr bn Hbn); [done|lia].
  - intros o Ho. apply div_MAXFILE in Ho as Hbn. unfold fbyte. rewrite Hmap by done.
    destruct (Z.eqb_spec (amap (vc im fb) x (o / BSIZE)) 0); [done|]. destruct (Hr _ Hbn) as [|Hrr]; [done|]. by rewrite !vc_lookup by lia.
  - intros b Hb [F1 F2]. split; [rewrite Hix; lia|]. intros bn Hbn. rewrite Hmap by done. by apply F2.
Qed.

(** An entry of the indirect block is filled. *)
Lemma mapped_entry bn i :
  indirect x = Z.of_nat i -> i <> 0%nat -> (NDIRECT <= bn < MAXFILE)%nat -> amap (vc im fb) x bn = 0 ->
  mapped x im fb bn fb x (<[i := put32 (4 * (bn - NDIRECT)) (Z.of_nat fb) (im !!! i)]> im) (S fb).
Proof.
  intros Hix Hi0 Hbn H0. pose proof (ly_fb _ _ Hly) as Hfr. pose proof (ly_len _ _ Hly) as Hlen.
  assert (59 <= i < fb)%nat as Hi by (destruct (ind_range im fb x Hly Hx); lia).
  assert (MAXFILE = 140%nat /\ NDIRECT = 12%nat /\ NINDIRECT = 128%nat) as (HM & HN & HI) by done.
  set (d := put32 _ _ _). assert (length d = BSIZE) as Hd by (subst d; rewrite length_put32; apply (ly_blk _ _ Hly); lia).
  pose proof (foreign_new im fb x Hly Hx) as Hfor. pose proof (fun bn' Hb => blk_range im fb x Hly Hx bn' Hb) as Hr.
  assert (forall bn', (bn' < MAXFILE)%nat -> amap (vc (<[i := d]> im) (S fb)) x bn' =
    if decide (bn' = bn) then Z.of_nat fb else amap (vc im fb) x bn') as Hmap.
  { intros bn' Hb'. unfold amap. rewrite Hix. destruct (Nat.ltb_spec bn' NDIRECT); [case_decide; [lia|done]|].
    destruct (Z.eqb_spec (Z.of_nat i) 0); [lia|]. rewrite Nat2Z.id, !vc_lookup by lia. rewrite list_lookup_total_insert_eq by lia.
    subst d. rewrite get32_put32_at; [|apply (ly_blk _ _ Hly); lia|lia|lia|lia]. repeat case_decide; try done; lia. }
  assert (forall b', (b' < 1000)%nat -> b' <> i -> vc (<[i := d]> im) (S fb) !!! b' = vc im (S fb) !!! b') as Hother.
  { intros b' Hb' Hne. rewrite vc_insert by lia. by rewrite list_lookup_total_insert_ne. }
  destruct (assign sb (vc im fb) (vc (<[i := d]> im) (S fb)) x x fb bn) as [Hi' Hb']; try done; try apply Hx.
  { lia. }
  { by apply Hfor. }
  { apply dblk_vc; [by rewrite length_insert|lia|lia]. }
  { rewrite Hother, vc_lookup by lia. apply (ly_free _ _ Hly). lia. }
  { intros bn' Hbn' Hn. destruct (Hr bn' Hbn') as [|Hrr]; [done|]. pose proof (io_ne _ _ _ Hx bn' Hbn' Hn).
    rewrite Hother by lia. by rewrite !vc_lookup by lia. }
  { intros ad Had. apply dblk_here in Had; [|done]. apply dblk_vc; [by rewrite length_insert|lia|lia]. }
  split; try done; try lia.
  - by destruct x.
  - split; [by rewrite length_insert| |lia|].
    + intros b Hb. destruct (decide (b = i)) as [->|]; [by rewrite list_lookup_total_insert_eq by lia|].
      rewrite list_lookup_total_insert_ne by done. by apply (ly_blk _ _ Hly).
    + intros b Hb. rewrite list_lookup_total_insert_ne by lia. apply (ly_free _ _ Hly). lia.
  - rewrite Hmap by lia. by rewrite decide_True.
  - intros bn' Hb Hne. rewrite Hmap by done. by rewrite decide_False.
  - intros b [Ho|Hb].
    + apply (own_more (vc im fb) _ x); [done|intros bn' Hbn' Hn; rewrite Hmap by done|exact Ho]. case_decide; [by subst|done].
    + apply (own_at _ _ bn); [lia|rewrite Hmap, decide_True by (done || lia); lia|lia].
  - intros b Hb [F1 F2]. split; [|rewrite list_lookup_total_insert_ne by (rewrite Hix in F1; lia); done].
    split; [done|]. intros bn' Hbn'. rewrite Hmap by done. case_decide; [lia|by apply F2].
  - intros b Hb. by rewrite list_lookup_total_insert_ne by lia.
Qed.
End add.

Lemma mapped_refl x im fb bn addr :
  layout im fb -> iok im fb x -> (bn < MAXFILE)%nat -> amap (vc im fb) x bn = Z.of_nat addr -> addr <> 0%nat ->
  ((NDIRECT <= bn)%nat -> indirect x <> 0) -> mapped x im fb bn addr x im fb.
Proof.
  intros Hly Hx Hbn Ha Hn Hi. split; try done.
  - by destruct x.
  - destruct (blk_range im fb x Hly Hx bn Hbn); lia.
  - split; [by left|]. intros [|]; auto.
  - intros b [|]; [done|lia].
Qed.

(** The indirect block and then the entry. *)
Lemma mapped_after_indirect x im fb bn addr x2 im2 fb2 :
  layout im fb -> iok im fb x -> (fb < 1000)%nat -> indirect x = 0 -> (NDIRECT <= bn)%nat ->
  mapped (set_i_addrs (<[NDIRECT := Z.of_nat fb]> (i_addrs x)) x) im (S fb) bn addr x2 im2 fb2 ->
  mapped x im fb bn addr x2 im2 fb2.
Proof.
  intros Hly Hx Hfb H0 Hbn [X L I At R Mp In By F Own Old Low]. pose proof (ly_fb _ _ Hly).
  destruct (indirect_new im fb x Hly Hx Hfb H0) as (I1 & Hi1 & M1 & B1 & F1). split; try done; try lia.
  - intros bn' Hb Hne. by rewrite Mp, M1.
  - intros o Ho. by rewrite By, B1.
  - intros b Hb. apply Own. destruct (decide (b = fb)) as [->|Hne]; [left; split; [lia|by left]|].
    destruct Hb as [Hb|Hb]; [left|right; lia]. apply (own_more (vc im fb) _ x); [done|intros bn' Hb' _; by apply M1|exact Hb].
  - intros b Hb Hf. apply Old; [lia|]. apply F1; [lia|done].
Qed.

(** ** The code *)

Lemma wp_next_block im fi fb (Q : Z -> mst -> Prop) :
  (fb < 1000)%nat -> Q (Z.of_nat fb) (mkmst im fi (Z.of_nat (S fb))) -> wp next_block Q (mkmst im fi (Z.of_nat fb)).
Proof.
  intros Hf HQ. unfold next_block. wp_steps. cbn [img freeinode freeblock]. rewrite u32_small by lia. replace (Z.of_nat fb + 1) with (Z.of_nat (S fb)) by lia. done.
Qed.
Lemma wp_rsect im fi f b (Q : list Z -> mst -> Prop) :
  (b < length im)%nat -> Q (im !!! b) (mkmst im fi f) -> wp (rsect (Z.of_nat b)) Q (mkmst im fi f).
Proof.
  intros Hb HQ. unfold rsect. wp_steps. cbn [img]. rewrite Nat2Z.id, list_lookup_lookup_total_lt by done. by apply wp_ret.
Qed.
Lemma wp_wsect im fi f b d (Q : unit -> mst -> Prop) :
  (b < length im)%nat -> Q tt (mkmst (<[b := d]> im) fi f) -> wp (wsect (Z.of_nat b) d) Q (mkmst im fi f).
Proof.
  intros Hb HQ. unfold wsect. wp_steps. cbn [img freeinode freeblock]. rewrite Nat2Z.id.
  destruct (Nat.ltb_spec b (length im)); [done|lia].
Qed.

(** The file has blocks exactly up to [n] bytes. *)
Record tight im fb x (n : nat) : Prop := {
  ti_map : forall bn, (bn < MAXFILE)%nat -> amap (vc im fb) x bn <> 0 <-> (bn * BSIZE < n)%nat;
  ti_ind : indirect x <> 0 <-> (NDIRECT * BSIZE < n)%nat
}.

(** Blocks that the next byte needs. *)
Definition grows (off : nat) : nat :=
  if (off mod BSIZE =? 0)%nat then if (off =? NDIRECT * BSIZE)%nat then 2%nat else 1%nat else 0%nat.

Lemma at_block off : (off mod BSIZE = 0)%nat -> (off / BSIZE * BSIZE = off)%nat.
Proof. intros H. pose proof (Nat.div_mod_eq off BSIZE). lia. Qed.
Lemma in_block off : (off mod BSIZE <> 0)%nat -> (off / BSIZE * BSIZE < off)%nat.
Proof. intros H. pose proof (Nat.div_mod_eq off BSIZE). lia. Qed.

Lemma tight_at im fb x off : tight im fb x off -> (off < MAXFILE * BSIZE)%nat ->
  amap (vc im fb) x (off / BSIZE) = 0 <-> (off mod BSIZE = 0)%nat.
Proof.
  intros [Tm _] Hoff. specialize (Tm _ (div_MAXFILE _ Hoff)). destruct (decide (off mod BSIZE = 0)%nat) as [E|E].
  - pose proof (at_block _ E). split; [done|]. intros _. destruct (decide (amap (vc im fb) x (off / BSIZE) = 0)) as [|Hn]; [done|].
    apply Tm in Hn. lia.
  - pose proof (in_block _ E). split; [|done]. intros E0. exfalso. by apply Tm.
Qed.

(** The entry of the indirect block at [i], which is free. *)
Lemma entry_spec im fb fi x bn i :
  layout im fb -> iok im fb x -> indirect x = Z.of_nat i -> i <> 0%nat -> (fb < 1000)%nat ->
  (NDIRECT <= bn < MAXFILE)%nat -> amap (vc im fb) x bn = 0 ->
  wp (let! ind := rsect (Z.of_nat i) in
      let o := (4 * (bn - NDIRECT))%nat in
      let! ind := (if get32 ind o =? 0
                   then let! v := next_block in
                        do! wsect (Z.of_nat i) (put32 o v ind);
                        ret (put32 o v ind)
                   else ret ind) in
      ret (x, get32 ind o)) (fun r s' => exists addr x' im',
    r = (x', Z.of_nat addr) /\ s' = mkmst im' fi (Z.of_nat (S fb)) /\ mapped x im fb bn addr x' im' (S fb))
    (mkmst im fi (Z.of_nat fb)).
Proof.
  intros Hly Hx Hi1 Hi0 Hfb Hbn Ha. pose proof (ly_fb _ _ Hly). pose proof (ly_len _ _ Hly).
  assert (59 <= i < fb)%nat as Hir by (destruct (ind_range im fb x Hly Hx); lia).
  wp_steps. apply wp_rsect; [lia|]. assert (get32 (im !!! i) (4 * (bn - NDIRECT)) = 0) as E1.
  { rewrite <- Ha. unfold amap. rewrite Hi1. destruct (Nat.ltb_spec bn NDIRECT); [lia|].
    destruct (Z.eqb_spec (Z.of_nat i) 0); [lia|]. by rewrite Nat2Z.id, vc_lookup by lia. }
  rewrite E1. cbn [Z.eqb]. wp_steps. apply wp_next_block; [done|]. wp_steps. apply wp_wsect; [lia|]. wp_steps.
  eexists fb, x, _. split; [|split; [done|by apply mapped_entry]]. f_equal.
  assert (MAXFILE = 140%nat /\ NDIRECT = 12%nat /\ BSIZE = 512%nat) as (HM & HN & HB) by done.
  rewrite get32_put32, u32_small; [done|lia|]. rewrite (ly_blk _ _ Hly) by lia. lia.
Qed.

Lemma file_block_spec im fb fi x off :
  layout im fb -> iok im fb x -> tight im fb x off -> (off < MAXFILE * BSIZE)%nat -> (fb + grows off <= 1000)%nat ->
  wp (file_block x (off / BSIZE)) (fun r s' => exists addr x' im',
    r = (x', Z.of_nat addr) /\ s' = mkmst im' fi (Z.of_nat (fb + grows off)) /\
    mapped x im fb (off / BSIZE) addr x' im' (fb + grows off)) (mkmst im fi (Z.of_nat fb)).
Proof.
  intros Hly Hx Ht Hoff Hroom. pose proof (div_MAXFILE _ Hoff) as Hbn. pose proof (tight_at _ _ _ _ Ht Hoff) as Hz.
  pose proof (ly_len _ _ Hly) as Hlen. pose proof (ly_fb _ _ Hly) as Hfr. pose proof (io_len _ _ _ Hx) as Hal.
  set (bn := (off / BSIZE)%nat) in *. unfold file_block, grows in *.
  assert (MAXFILE = 140%nat /\ NDIRECT = 12%nat /\ BSIZE = 512%nat) as (HM & HN & HB) by done.
  assert (off = 512 * bn + off mod BSIZE /\ off mod BSIZE < 512)%nat as [Hdm Hmod].
  { split; [apply (Nat.div_mod_eq off BSIZE)|apply Nat.mod_upper_bound; lia]. }
  clearbody bn.
  assert (forall addr, amap (vc im fb) x bn = Z.of_nat addr -> addr <> 0%nat -> mapped x im fb bn addr x im fb) as Hrefl.
  { intros addr Ha Hn. apply mapped_refl; try done. intros Hge. apply (ti_ind _ _ _ _ Ht). apply (ti_map _ _ _ _ Ht) in Hbn as Hm.
    rewrite HN, HB in *. assert (amap (vc im fb) x bn <> 0) by lia. apply Hm in H. lia. }
  destruct (Nat.ltb_spec bn NDIRECT) as [Hd|Hd].
  - assert (default 0 (i_addrs x !! bn) = amap (vc im fb) x bn) as Ha.
    { unfold amap. destruct (Nat.ltb_spec bn NDIRECT); [done|lia]. }
    assert ((off =? NDIRECT * BSIZE)%nat = false) as Hne by (apply Nat.eqb_neq; rewrite HN, HB; lia). rewrite Hne in *.
    rewrite Ha. destruct (Nat.eqb_spec (off mod BSIZE) 0) as [E0|E0].
    + rewrite (proj2 Hz E0). cbn [Z.eqb]. wp_steps. apply wp_next_block; [lia|]. wp_steps.
      exists fb, (set_i_addrs (<[bn := Z.of_nat fb]> (i_addrs x)) x), im. rewrite Nat.add_1_r.
      split; [cbn [i_addrs set_i_addrs]; by rewrite list_lookup_insert_eq by lia|]. split; [done|].
      apply mapped_direct; try done; [lia|by apply Hz].
    + destruct (Z.eqb_spec (amap (vc im fb) x bn) 0) as [E|E]; [by apply Hz in E|]. wp_steps. rewrite Nat.add_0_r, Ha.
      destruct (blk_range im fb x Hly Hx bn Hbn) as [|Hr]; [done|].
      exists (Z.to_nat (amap (vc im fb) x bn)), x, im. rewrite Z2Nat.id by lia. split; [done|]. split; [done|]. apply Hrefl; lia.
  - pose proof (ti_ind _ _ _ _ Ht) as Hti. rewrite HN, HB in Hti. change (default 0 (i_addrs x !! NDIRECT)) with (indirect x).
    destruct (decide (indirect x = 0)) as [Hi0|Hi0].
    + assert (off = NDIRECT * BSIZE)%nat as -> by (rewrite HN, HB; destruct (decide (12 * 512 < off)%nat) as [Hlt|]; [by apply Hti in Hlt|lia]).
      rewrite Hi0. cbn [Z.eqb]. change ((NDIRECT * BSIZE) mod BSIZE)%nat with 0%nat in *. rewrite !Nat.eqb_refl in *.
      rewrite !wp_bind. apply wp_next_block; [lia|]. rewrite wp_ret. destruct (indirect_new im fb x Hly Hx ltac:(lia) Hi0) as (I1 & Hi1 & M1 & _).
      set (x1 := set_i_addrs _ x) in *. change (default 0 (i_addrs x1 !! NDIRECT)) with (indirect x1). rewrite Hi1.
      eapply wp_mono; [apply (entry_spec im (S fb) fi x1 bn fb); [apply layout_next; [done|lia]|exact I1|exact Hi1|lia|lia|lia|]|].
      * rewrite M1 by done. by apply Hz.
      * cbn beta. intros r s' (addr & x2 & im2 & -> & -> & Hm). exists addr, x2, im2. replace (fb + 2)%nat with (S (S fb)) by lia.
        split; [done|]. split; [done|]. by apply mapped_after_indirect; [..|lia|done|lia|].
    + assert ((off =? NDIRECT * BSIZE)%nat = false) as Hne by (apply Nat.eqb_neq; rewrite HN, HB; apply Hti in Hi0; lia). rewrite Hne in *.
      destruct (ind_range im fb x Hly Hx) as [|Hir]; [done|]. destruct (Z.eqb_spec (indirect x) 0); [done|]. rewrite wp_bind, wp_ret.
      change (default 0 (i_addrs x !! NDIRECT)) with (indirect x). assert (indirect x = Z.of_nat (Z.to_nat (indirect x))) as Hii by lia.
      set (i := Z.to_nat (indirect x)) in *. rewrite Hii.
      destruct (Nat.eqb_spec (off mod BSIZE) 0) as [E0|E0].
      * eapply wp_mono; [apply (entry_spec im fb fi x bn i); [done|done|done|lia|lia|lia|by apply Hz]|]. cbn beta. rewrite Nat.add_1_r. done.
      * wp_steps. apply wp_rsect; [lia|]. assert (get32 (im !!! i) (4 * (bn - NDIRECT)) = amap (vc im fb) x bn) as E1.
        { unfold amap. destruct (Nat.ltb_spec bn NDIRECT); [lia|]. destruct (Z.eqb_spec (indirect x) 0); [done|].
          fold i. by rewrite vc_lookup by lia. }
        rewrite E1. destruct (Z.eqb_spec (amap (vc im fb) x bn) 0) as [E|E]; [by apply Hz in E|]. wp_steps. rewrite E1, Nat.add_0_r.
        destruct (blk_range im fb x Hly Hx bn Hbn) as [|Hr]; [done|].
        exists (Z.to_nat (amap (vc im fb) x bn)), x, im. rewrite Z2Nat.id by lia. split; [done|]. split; [done|]. apply Hrefl; lia.
Qed.

(** * Appending *)

(** Blocks of a file of [n] bytes, with its indirect block. *)
Definition nblk (n : nat) : nat := (n + 511) / 512 + (if ((12 * 512) <? n)%nat then 1 else 0).

Lemma nblk_mono n m : (n <= m)%nat -> (nblk n <= nblk m)%nat.
Proof.
  intros H. unfold nblk. pose proof (Nat.Div0.div_le_mono (n + 511) (m + 511) 512 ltac:(lia)).
  destruct (Nat.ltb_spec (12 * 512) n), (Nat.ltb_spec (12 * 512) m); lia.
Qed.

(** A piece within one block. *)
Lemma nblk_grows off n :
  (0 < n)%nat -> (off mod BSIZE + n <= BSIZE)%nat -> (nblk off + grows off = nblk (off + n))%nat.
Proof.
  intros Hn Hm. unfold nblk, grows. change (NDIRECT * BSIZE)%nat with (12 * 512)%nat. change BSIZE with 512%nat in *.
  pose proof (Nat.div_mod_eq off 512) as E. set (q := (off / 512)%nat) in *. set (r := (off mod 512)%nat) in *.
  assert (((off + 511) / 512 = if (r =? 0) then q else S q) /\ (off + n + 511) / 512 = S q)%nat as [-> ->].
  { destruct (Nat.eqb_spec r 0); split; symmetry.
    - apply (Nat.div_unique _ _ _ 511); lia.
    - apply (Nat.div_unique _ _ _ (n - 1)); lia.
    - apply (Nat.div_unique _ _ _ (r - 1)); lia.
    - apply (Nat.div_unique _ _ _ (r + n - 1)); lia. }
  destruct (Nat.eqb_spec r 0), (Nat.eqb_spec off (12 * 512)), (Nat.ltb_spec (12 * 512) off), (Nat.ltb_spec (12 * 512) (off + n)); lia.
Qed.

(** [p] was appended to a file of [off] bytes. *)
Record appended (off : nat) p x im fb x' im' fb' : Prop := {
  ap_x : x' = set_i_addrs (i_addrs x') x;
  ap_ly : layout im' fb';
  ap_ino : iok im' fb' x';
  ap_tight : tight im' fb' x' (off + length p);
  ap_byte : forall o, (o < MAXFILE * BSIZE)%nat -> fbyte (vc im' fb') x' o =
    if decide (off <= o < off + length p)%nat then byte_at p (o - off) else fbyte (vc im fb) x o;
  ap_fb : (nblk off + fb' = nblk (off + length p) + fb)%nat;
  ap_own : forall b, own (vc im fb) x b \/ (fb <= b < fb')%nat -> own (vc im' fb') x' b;
  ap_old : forall b, (59 <= b < fb)%nat -> foreign (vc im fb) x b -> foreign (vc im' fb') x' b /\ im' !!! b = im !!! b;
  ap_low : forall b, (b < 59)%nat -> im' !!! b = im !!! b
}.

Lemma appended_refl off x im fb : layout im fb -> iok im fb x -> tight im fb x off -> appended off [] x im fb x im fb.
Proof.
  intros Hly Hx Ht. split; try done; cbn [length]; rewrite ?Nat.add_0_r; try done.
  - by destruct x.
  - intros o _. rewrite decide_False by lia. done.
  - intros b [|]; [done|lia].
Qed.

Lemma appended_trans off p1 p2 x im fb x1 im1 fb1 x2 im2 fb2 :
  appended off p1 x im fb x1 im1 fb1 -> appended (off + length p1) p2 x1 im1 fb1 x2 im2 fb2 ->
  appended off (p1 ++ p2) x im fb x2 im2 fb2.
Proof.
  intros [X1 L1 I1 T1 B1 F1 N1 O1 W1] [X2 L2 I2 T2 B2 F2 N2 O2 W2]. rewrite <- Nat.add_assoc in *.
  assert (fb <= fb1)%nat by (pose proof (nblk_mono off (off + length p1) ltac:(lia)); lia).
  split; rewrite ?length_app; try done; try lia.
  - etransitivity; [exact X2|]. rewrite X1 at 1. done.
  - intros o Ho. rewrite B2, byte_at_app by done. repeat case_decide; try lia.
    + f_equal. lia.
    + rewrite B1 by done. rewrite decide_True by lia. done.
    + rewrite B1 by done. by rewrite decide_False by lia.
  - intros b Hb. apply N2. destruct (decide (fb1 <= b < fb2)%nat); [by right|left]. apply N1. destruct Hb; [by left|right; lia].
  - intros b Hb Hf. destruct (O1 b Hb Hf) as [Hf' He]. destruct (O2 b ltac:(lia) Hf') as [Hf'' He']. split; [done|congruence].
  - intros b Hb. by rewrite W2, W1.
Qed.

Lemma tight_one im fb x off n addr x1 im1 fb1 :
  tight im fb x off -> (off < MAXFILE * BSIZE)%nat -> (0 < n)%nat -> (off mod BSIZE + n <= BSIZE)%nat ->
  mapped x im fb (off / BSIZE) addr x1 im1 fb1 -> tight im1 fb1 x1 (off + n).
Proof.
  intros [Tm Ti] Hoff Hn Hm Hmp. pose proof (Nat.div_mod_eq off BSIZE) as E. change BSIZE with 512%nat in *.
  set (q := (off / 512)%nat) in *. split.
  - intros bn Hbn. change BSIZE with 512%nat in *. destruct (decide (bn = q)) as [->|Hne].
    + rewrite (mp_at _ _ _ _ _ _ _ _ Hmp). pose proof (mp_range _ _ _ _ _ _ _ _ Hmp). lia.
    + rewrite (mp_map _ _ _ _ _ _ _ _ Hmp) by done. rewrite Tm by done. change BSIZE with 512%nat. lia.
  - rewrite (mp_ind _ _ _ _ _ _ _ _ Hmp), Ti. change (NDIRECT * BSIZE)%nat with (12 * 512)%nat. change NDIRECT with 12%nat. lia.
Qed.

Lemma appended_one off p x im fb addr x1 im1 fb1 :
  tight im fb x off -> (off < MAXFILE * BSIZE)%nat -> (0 < length p)%nat -> (off mod BSIZE + length p <= BSIZE)%nat ->
  mapped x im fb (off / BSIZE) addr x1 im1 fb1 -> fb1 = (fb + grows off)%nat ->
  appended off p x im fb x1 (<[addr := splice (off mod BSIZE) p (im1 !!! addr)]> im1) fb1.
Proof.
  intros Ht Hoff Hp0 Hp Hmp Hfb. pose proof (tight_one _ _ _ _ _ _ _ _ _ Ht Hoff Hp0 Hp Hmp) as [Tm Ti].
  destruct Hmp as [X L I At R Mp In By F Own Old Low]. pose proof (div_MAXFILE _ Hoff) as Hbn. destruct L as [Ll Lb Lf Lz].
  assert (addr <> 58 /\ addr <> 0 /\ addr < 1000)%nat as (H58 & H0 & Hlt) by lia.
  set (d := splice _ _ _). assert (length d = BSIZE) as Hd by (subst d; rewrite length_splice; rewrite ?Lb; lia).
  assert (vc im1 fb1 !!! addr = im1 !!! addr) as Hva by by apply vc_lookup.
  pose proof (fun d' bn' => amap_own_block sb (vc im1 fb1) x1 _ addr d' bn' I Hbn At H0) as Hmap.
  split; try done.
  - split; [by rewrite length_insert| |lia|].
    + intros b Hb. destruct (decide (b = addr)) as [->|]; [by rewrite list_lookup_total_insert_eq by lia|].
      rewrite list_lookup_total_insert_ne by done. by apply Lb.
    + intros b Hb. rewrite list_lookup_total_insert_ne by lia. by apply Lz.
  - rewrite vc_insert by done. eapply ino_ok_keep; [exact I|by intros|]. intros ad. eapply dblk_upd; [apply mk_geo|].
    rewrite dstart_mk. lia.
  - split; [|done]. intros bn' Hb'. rewrite vc_insert, Hmap by done. by apply Tm.
  - intros o Ho. rewrite vc_insert by done. subst d. rewrite <- Hva, (fbyte_splice sb); try done; [by rewrite By| |by rewrite Hva, Lb].
    unfold vc. rewrite length_insert. lia.
  - rewrite <- nblk_grows by done. lia.
  - intros b Hb. apply (own_more (vc im1 fb1) _ x1); [done|intros bn' _ _; rewrite vc_insert, Hmap by done; done|by apply Own].
  - intros b Hb Hf. destruct (Old b Hb Hf) as [[F1 F2] He]. split.
    + split; [done|]. intros bn' Hb'. rewrite vc_insert, Hmap by done. by apply F2.
    + rewrite list_lookup_total_insert_ne; [done|]. intros ->. by apply (F2 _ Hbn).
  - intros b Hb. rewrite list_lookup_total_insert_ne by lia. by apply Low.
Qed.

Lemma iappend_loop_spec fuel im fb fi x off p :
  layout im fb -> iok im fb x -> tight im fb x off -> (off + length p <= MAXFILE * BSIZE)%nat ->
  (nblk (off + length p) + fb <= 1000 + nblk off)%nat -> ((0 < length p)%nat -> (off mod BSIZE + length p <= BSIZE * fuel)%nat) ->
  wp (iappend_loop (S fuel) x off p) (fun r s' => exists x' im' fb',
    r = (x', (off + length p)%nat) /\ s' = mkmst im' fi (Z.of_nat fb') /\ appended off p x im fb x' im' fb')
    (mkmst im fi (Z.of_nat fb)).
Proof.
  revert im fb x off p. induction fuel as [|fuel IH]; intros im fb x off p Hly Hx Ht Hmax Hroom Hfuel.
  { destruct p; [|cbn in Hfuel; specialize (Hfuel ltac:(lia)); lia]. cbn [iappend_loop]. apply wp_ret. exists x, im, fb. cbn [length]. rewrite Nat.add_0_r.
    split; [done|]. split; [done|]. by apply appended_refl. }
  assert (length p = 0 \/ 0 < length p)%nat as [E|Hp0] by lia.
  { destruct p; [|done]. cbn [iappend_loop]. apply wp_ret. exists x, im, fb. cbn [length]. rewrite Nat.add_0_r.
    split; [done|]. split; [done|]. by apply appended_refl. }
  specialize (Hfuel Hp0). assert (off < MAXFILE * BSIZE)%nat as Hoff by lia. pose proof (div_MAXFILE _ Hoff) as Hbn.
  pose proof (Nat.div_mod_eq off BSIZE) as E. pose proof (Nat.mod_upper_bound off BSIZE ltac:(done)) as Hm.
  set (n1 := Nat.min (length p) ((off / BSIZE + 1) * BSIZE - off)). assert (BSIZE = 512%nat) as HB by done.
  assert (0 < n1 /\ off mod BSIZE + n1 <= BSIZE /\ n1 <= length p)%nat as (Hn0 & Hn1 & Hnl) by (unfold n1; rewrite HB in *; lia).
  assert (length (take n1 p) = n1) as Hlt by (rewrite length_take; lia).
  pose proof (nblk_grows off n1 Hn0 Hn1) as Hgr. pose proof (nblk_mono (off + n1) (off + length p) ltac:(lia)).
  destruct p as [|v p]; [cbn in Hp0; lia|]. set (p' := v :: p) in *. change (iappend_loop (S (S fuel)) x off p') with
    (if negb (off / BSIZE <? MAXFILE)%nat then panic "fbn < MAXFILE" else
     let! (din, x) := file_block x (off / BSIZE) in
     let n1 := Nat.min (length p') ((off / BSIZE + 1) * BSIZE - off) in
     let! buf := rsect x in
     do! wsect x (splice (off - off / BSIZE * BSIZE) (take n1 p') buf);
     iappend_loop (S fuel) din (off + n1) (drop n1 p')).
  destruct (Nat.ltb_spec (off / BSIZE) MAXFILE); [|lia]. cbn [negb]. rewrite wp_bind.
  eapply wp_mono; [apply (file_block_spec im fb fi x off); try done; lia|]. cbn beta.
  intros r s1 (addr & x1 & im1 & -> & -> & Hmp). cbn zeta. fold n1. pose proof (mp_range _ _ _ _ _ _ _ _ Hmp) as Hr.
  pose proof (mp_ly _ _ _ _ _ _ _ _ Hmp) as Hly1. pose proof (ly_len _ _ Hly1). pose proof (ly_fb _ _ Hly1).
  rewrite wp_bind. apply wp_rsect; [lia|]. rewrite wp_bind. apply wp_wsect; [lia|].
  replace (off - off / BSIZE * BSIZE)%nat with (off mod BSIZE)%nat by lia.
  pose proof (appended_one off (take n1 p') x im fb addr x1 im1 _ Ht Hoff ltac:(lia) ltac:(lia) Hmp eq_refl) as Ha1.
  rewrite <- (take_drop n1 p') in Hmax, Hroom, Hfuel. rewrite length_app, Hlt in Hmax, Hroom, Hfuel. rewrite Nat.add_assoc in Hroom.
  eapply wp_mono; [apply IH|].
  - apply Ha1.
  - apply Ha1.
  - pose proof (ap_tight _ _ _ _ _ _ _ _ Ha1) as Ht1. by rewrite Hlt in Ht1.
  - lia.
  - lia.
  - intros Hd0. assert (n1 = (off / BSIZE + 1) * BSIZE - off)%nat as En by (rewrite length_drop in Hd0; unfold n1 in *; lia).
    replace ((off + n1) mod BSIZE)%nat with 0%nat; [rewrite HB in *; lia|].
    apply (Nat.mod_unique _ _ (off / BSIZE + 1)); rewrite HB in *; lia.
  - cbn beta. intros r s2 (x2 & im2 & fb2 & -> & -> & Ha2). exists x2, im2, fb2. rewrite <- Hlt in Ha2 at 1.
    pose proof (appended_trans _ _ _ _ _ _ _ _ _ _ _ _ Ha1 Ha2) as Ha. rewrite take_drop in Ha.
    split; [f_equal; rewrite length_drop; lia|]. done.
Qed.

(** * The image *)

(** The file with inode [x], of type [ty] and contents [d]. *)
Record has im fb (inum : Z) x (ty : Z) (d : list Z) : Prop := {
  ha_id : x = set_i_dn ty 0 0 1 (Z.of_nat (length d)) (i_addrs x) (din0 inum);
  ha_ok : file_ok sb (vc im fb) x;
  ha_tight : tight im fb x (length d);
  ha_data : fdata (vc im fb) x = d;
  ha_zero : forall o, (length d <= o < MAXFILE * BSIZE)%nat -> fbyte (vc im fb) x o = 0
}.

Lemma ha_inum im fb inum x ty d : has im fb inum x ty d -> i_inum x = inum.
Proof. intros H. by rewrite (ha_id _ _ _ _ _ _ H). Qed.
Lemma ha_size im fb inum x ty d : has im fb inum x ty d -> i_size x = Z.of_nat (length d).
Proof. intros H. by rewrite (ha_id _ _ _ _ _ _ H). Qed.

Lemma iblk_mk inum : 0 <= inum < 200 -> (32 <= iblk sb inum < 58)%nat /\ IBLOCK inum sb = Z.of_nat (iblk sb inum) /\
  (dinode_at inum + DINODE <= BSIZE)%nat.
Proof.
  intros Hi. destruct (iblk_geo 2 30 sb 1000 inum mk_geo Hi) as (E & _ & _ & Ho & _ & Hb & Hd).
  split; [|done]. change (sb_bmapstart sb) with 58 in Hb. split; [|lia]. unfold iblk. change (sb_inodestart sb) with 32.
  pose proof (Z.div_pos inum IPB ltac:(lia) ltac:(done)). lia.
Qed.

Lemma has_rinode im fb inum x ty d : has im fb inum x ty d -> 0 <= inum < 200 ->
  get_dinode (dinode_at inum) (im !!! iblk sb inum) (din0 inum) = x.
Proof.
  intros Hh Hi. destruct (iblk_mk inum Hi) as (Hib & _ & _). pose proof (fk_sync _ _ _ (ha_ok _ _ _ _ _ _ Hh)) as Hs.
  rewrite (ha_inum _ _ _ _ _ _ Hh), vc_lookup in Hs by lia. rewrite <- Hs. by rewrite (ha_id _ _ _ _ _ _ Hh).
Qed.

Lemma own_range im fb x b : layout im fb -> iok im fb x -> own (vc im fb) x b -> (59 <= b < fb)%nat.
Proof. intros Hly Hx Ho. pose proof (own_dblk _ _ _ _ Hx Ho) as Hd. apply dblk_here in Hd; [|done]. lia. Qed.

(** A file of which nothing changed. *)
Lemma has_frame im fb im' fb' inum x ty d :
  layout im fb -> layout im' fb' -> (fb <= fb')%nat -> has im fb inum x ty d ->
  (forall b, own (vc im fb) x b -> im' !!! b = im !!! b) ->
  get_dinode (dinode_at inum) (im' !!! iblk sb inum) x = get_dinode (dinode_at inum) (im !!! iblk sb inum) x ->
  has im' fb' inum x ty d /\ (forall b, own (vc im' fb') x b <-> own (vc im fb) x b).
Proof.
  intros Hly Hly' Hfb H Hown Hsync. pose proof (ha_inum _ _ _ _ _ _ H) as Hin. destruct H as [Hid Hok [Tm Ti] Hda Hz].
  pose proof (fk_ino _ _ _ Hok) as Hx. pose proof (fk_inum _ _ _ Hok) as Hr. change (sb_ninodes sb) with 200 in Hr. rewrite Hin in Hr.
  destruct (iblk_mk inum Hr) as (Hib & _ & _).
  destruct (file_frame sb (vc im fb) (vc im' fb') x) as (Hx' & Hmap & Hby); [rewrite dstart_mk; lia|done| | |].
  { intros b Hb. pose proof (own_range _ _ _ _ Hly Hx Hb). rewrite !vc_lookup by lia. by apply Hown. }
  { intros ad Had. apply dblk_here in Had; [|done]. apply dblk_here; [done|lia]. }
  pose proof (de_size _ _ (fk_dense _ _ _ Hok)) as Hsz. split.
  - split; [done| |split; [|done]| |intros o Ho; rewrite Hby by lia; by apply Hz].
    + destruct Hok as [_ D In T1 T2 T3 T4 Sy]. split; try done; [by eapply dense_keep|].
      rewrite Hin, vc_lookup in * by lia. by rewrite Hsync.
    + intros bn Hbn. rewrite Hmap by done. by apply Tm.
    + rewrite <- Hda. unfold fdata. by apply fbytes_keep; [lia|].
  - intros b. by apply own_keep.
Qed.

(** The inodes [xs] on the image hold the files [fs], inode [i + 1] the [i]-th. *)
Record image (xs : list inode) (fs : list (Z * list Z)) im fb : Prop := {
  ig_ly : layout im fb;
  ig_len : length xs = length fs;
  ig_max : (length fs < 200)%nat;
  ig_fb : fb = (59 + sum_list ((fun f => nblk (length f.2)) <$> fs))%nat;
  ig_low : im !!! 1%nat = sb_block /\ forall b, (b = 0 \/ 2 <= b < 32 \/ b = 58)%nat -> im !!! b = zeroes;
  ig_file : forall i x f, xs !! i = Some x -> fs !! i = Some f -> has im fb (Z.of_nat (S i)) x f.1 f.2;
  ig_apart : forall i j x y b, xs !! i = Some x -> xs !! j = Some y -> own (vc im fb) x b -> own (vc im fb) y b -> i = j;
  ig_cover : forall b, (59 <= b < fb)%nat -> exists i x, xs !! i = Some x /\ own (vc im fb) x b
}.

(** A store into another inode of the block. *)
Lemma sync_put inum k d d' x :
  0 <= inum < 200 -> 0 <= k < 200 -> k <> inum -> length (i_addrs x) = S NDIRECT -> length d = BSIZE -> iblk sb inum = iblk sb k ->
  get_dinode (dinode_at k) (put_dinode (dinode_at inum) x d) d' = get_dinode (dinode_at k) d d'.
Proof.
  intros Hi Hk Hne Hl Hd He. destruct (iblk_mk inum Hi) as (_ & _ & Ho).
  eapply get_dinode_only; [apply only_put_dinode; [done|lia]|].
  destruct (dinode_slots sb inum k) as [|]; try done; auto.
Qed.

Lemma foreign_own c x b : b <> 0%nat -> foreign c x b <-> ~ own c x b.
Proof.
  intros Hb. split.
  - intros [F1 F2] [_ [E|(bn & Hbn & E)]]; [done|]. by apply (F2 bn).
  - intros Hn. split; [intros E; apply Hn; split; auto|]. intros bn Hbn E. apply Hn. split; [done|]. right. eauto.
Qed.

Lemma sum_insert {A} (g : A -> nat) (l : list A) i f f' :
  l !! i = Some f -> (sum_list (g <$> <[i := f']> l) + g f = sum_list (g <$> l) + g f')%nat.
Proof.
  revert i. induction l as [|a l IH]; intros [|i] Hi; cbn in Hi; simplify_eq; [cbn; lia|]. specialize (IH i Hi). change (<[S i := f']> (a :: l)) with (a :: <[i := f']> l). rewrite !fmap_cons. cbn [sum_list]. lia.
Qed.

Section after_append.
Context (xs : list inode) (fs : list (Z * list Z)) im fb (i : nat) x (ty : Z) (d : list Z) p x1 im1 fb1.
Hypothesis Hig : image xs fs im fb.
Hypothesis Hxi : xs !! i = Some x.
Hypothesis Hfi : fs !! i = Some (ty, d).
Hypothesis Hap : appended (length d) p x im fb x1 im1 fb1.
Hypothesis Hmax : (length d + length p <= MAXFILE * BSIZE)%nat.

Let inum : Z := Z.of_nat (S i).
Let x2 : inode := set_i_size (Z.of_nat (length d + length p)) x1.
Let im2 : list (list Z) := <[iblk sb inum := put_dinode (dinode_at inum) x2 (im1 !!! iblk sb inum)]> im1.

Lemma aa_inum : 0 <= inum < 200.
Proof. apply lookup_lt_Some in Hfi. pose proof (ig_max _ _ _ _ Hig). unfold inum. lia. Qed.
Lemma aa_has : has im fb inum x ty d.
Proof. by apply (ig_file _ _ _ _ Hig _ _ _ Hxi Hfi). Qed.
Lemma aa_fb : (fb <= fb1)%nat.
Proof. pose proof (ap_fb _ _ _ _ _ _ _ _ Hap). pose proof (nblk_mono (length d) (length d + length p) ltac:(lia)). lia. Qed.

Lemma aa_layout : layout im2 fb1.
Proof.
  destruct (iblk_mk inum aa_inum) as (Hib & _ & _). destruct (ap_ly _ _ _ _ _ _ _ _ Hap) as [L B F Z']. unfold im2.
  split; [by rewrite length_insert| |done|].
  - intros b Hb. destruct (decide (b = iblk sb inum)) as [->|]; [|rewrite list_lookup_total_insert_ne by done; by apply B].
    rewrite list_lookup_total_insert_eq by lia. rewrite <- (B (iblk sb inum)) by lia.
    destruct (iblk_mk inum aa_inum) as (_ & _ & Ho). apply only_put_dinode; [|rewrite B; lia].
    apply (io_len _ _ _ (ap_ino _ _ _ _ _ _ _ _ Hap)).
  - intros b Hb. rewrite list_lookup_total_insert_ne by lia. by apply Z'.
Qed.

(** The data blocks after the inode was stored. *)
Lemma aa_data b : (59 <= b)%nat -> im2 !!! b = im1 !!! b.
Proof. intros Hb. destruct (iblk_mk inum aa_inum) as (Hib & _ & _). unfold im2. by rewrite list_lookup_total_insert_ne by lia. Qed.

Lemma aa_frame : ino_ok sb (vc im2 fb1) x1 /\ (forall bn, (bn < MAXFILE)%nat -> amap (vc im2 fb1) x1 bn = amap (vc im1 fb1) x1 bn) /\
  (forall o, (o < MAXFILE * BSIZE)%nat -> fbyte (vc im2 fb1) x1 o = fbyte (vc im1 fb1) x1 o).
Proof.
  pose proof (ap_ino _ _ _ _ _ _ _ _ Hap) as Hx1. pose proof (ap_ly _ _ _ _ _ _ _ _ Hap) as Hly1.
  apply file_frame; [rewrite dstart_mk; lia|done| |].
  - intros b Hb. pose proof (own_range _ _ _ _ Hly1 Hx1 Hb). rewrite !vc_lookup by lia. apply aa_data. lia.
  - intros ad Had. apply dblk_here in Had; [|done]. by apply dblk_here; [apply aa_layout|].
Qed.

Lemma aa_has2 : has im2 fb1 inum x2 ty (d ++ p).
Proof.
  destruct aa_frame as (Hx2 & Hmap & Hby). pose proof aa_has as [Hid Hok Ht Hda Hz]. pose proof aa_inum as Hin.
  pose proof (ap_x _ _ _ _ _ _ _ _ Hap) as Hx1. pose proof (ap_tight _ _ _ _ _ _ _ _ Hap) as [Tm Ti].
  pose proof (ap_ly _ _ _ _ _ _ _ _ Hap) as Hly1. pose proof MAXBYTES as HMB.
  assert (x2 = set_i_dn ty 0 0 1 (Z.of_nat (length (d ++ p))) (i_addrs x2) (din0 inum)) as Hid2.
  { unfold x2. rewrite Hx1, Hid, length_app. done. }
  destruct (iblk_mk inum Hin) as (Hib & _ & Hdo). pose proof (ly_len _ _ Hly1) as Hl1.
  assert (ino_ok sb (vc im2 fb1) x2) as Hi2 by (destruct Hx2; by split).
  assert (forall bn, amap (vc im2 fb1) x2 bn = amap (vc im2 fb1) x1 bn) as Hm2 by done.
  assert (i_size x2 = Z.of_nat (length d + length p)) as Hs2 by done. pose proof Hmax as Hmax2. rewrite <- length_app in Hmax2.
  assert (forall o, (o < MAXFILE * BSIZE)%nat -> fbyte (vc im2 fb1) x2 o =
    if decide (length d <= o < length d + length p)%nat then byte_at p (o - length d) else fbyte (vc im fb) x o) as Hb2.
  { intros o Ho. change (fbyte (vc im2 fb1) x2 o) with (fbyte (vc im2 fb1) x1 o). rewrite Hby by done.
    by apply (ap_byte _ _ _ _ _ _ _ _ Hap). }
  split; [exact Hid2| | | |].
  - assert (dense (vc im2 fb1) x2) as Hde.
    { split; rewrite ?Hs2; [lia|]. intros bn Hbn Hlt. rewrite Hm2, Hmap by done. apply Tm; [done|lia]. }
    assert (i_inum x2 = inum) as Hin2 by (by rewrite Hid2).
    assert (i_type x2 = i_type x /\ i_major x2 = i_major x /\ i_minor x2 = i_minor x /\ i_nlink x2 = i_nlink x) as (T1 & T2 & T3 & T4)
      by (unfold x2; by rewrite Hx1).
    destruct Hok as [_ _ _ K1 K2 K3 K4 _]. split; try done; rewrite ?T1, ?T2, ?T3, ?T4, ?Hin2; try done.
    rewrite vc_lookup by lia. unfold im2. rewrite list_lookup_total_insert_eq by lia.
    rewrite get_put_dinode; [by destruct x2| |rewrite (ly_blk _ _ Hly1); lia].
    eapply dn_ok_file; [apply mk_geo|exact Hi2|..]; rewrite ?T1, ?T2, ?T3, ?T4, ?Hs2; try done. lia.
  - split; [|rewrite length_app; exact Ti]. intros bn Hbn. rewrite Hm2, Hmap, length_app by done. by apply Tm.
  - apply (list_eq_same_length _ _ (length (d ++ p))); [done|rewrite length_fdata, Hs2, length_app; lia|]. intros o u v Ho Hu Hv.
    unfold fdata in Hu. rewrite Hs2, fbytes_lookup in Hu by (rewrite length_app in Ho; lia). injection Hu as <-. cbn [Nat.add].
    rewrite Hb2 by lia. case_decide as Hr.
    + rewrite lookup_app_r in Hv by lia. unfold byte_at. by rewrite Hv.
    + rewrite length_app in Ho. rewrite lookup_app_l in Hv by lia. rewrite <- Hda in Hv. unfold fdata in Hv.
      rewrite fbytes_lookup in Hv by (rewrite (ha_size _ _ _ _ _ _ aa_has); lia). by injection Hv.
  - intros o Ho. rewrite length_app in Ho. rewrite Hb2, decide_False by lia. apply Hz. lia.
Qed.

Lemma aa_other j y f : xs !! j = Some y -> fs !! j = Some f -> j <> i ->
  has im2 fb1 (Z.of_nat (S j)) y f.1 f.2 /\ forall b, own (vc im2 fb1) y b <-> own (vc im fb) y b.
Proof.
  intros Hyj Hfj Hne. pose proof (ig_file _ _ _ _ Hig _ _ _ Hyj Hfj) as Hy. pose proof (ig_ly _ _ _ _ Hig) as Hly.
  pose proof (fk_ino _ _ _ (ha_ok _ _ _ _ _ _ Hy)) as Hyi. pose proof (ig_max _ _ _ _ Hig). pose proof aa_inum as Hin.
  apply lookup_lt_Some in Hfj as Hlt. destruct (iblk_mk (Z.of_nat (S j)) ltac:(lia)) as (Hjb & _ & _).
  pose proof (ap_ly _ _ _ _ _ _ _ _ Hap) as Hly1. pose proof (ly_len _ _ Hly1).
  apply (has_frame im fb); [done|apply aa_layout|apply aa_fb|done| |].
  - intros b Hb. pose proof (own_range _ _ _ _ Hly Hyi Hb) as Hr. rewrite aa_data by lia.
    apply (ap_old _ _ _ _ _ _ _ _ Hap b Hr). apply foreign_own; [lia|]. intros Ho. by destruct (ig_apart _ _ _ _ Hig j i y x b).
  - unfold im2. destruct (decide (iblk sb inum = iblk sb (Z.of_nat (S j)))) as [He|He].
    + rewrite He, list_lookup_total_insert_eq by lia. rewrite sync_put; [|done|lia|unfold inum; lia| |apply (ly_blk _ _ Hly1); lia|done].
      * by rewrite (ap_low _ _ _ _ _ _ _ _ Hap) by lia.
      * apply (io_len _ _ _ (ap_ino _ _ _ _ _ _ _ _ Hap)).
    + rewrite list_lookup_total_insert_ne by done. by rewrite (ap_low _ _ _ _ _ _ _ _ Hap) by lia.
Qed.

(** The file that grew keeps away from the others. *)
Lemma aa_apart j y f b : xs !! j = Some y -> fs !! j = Some f -> j <> i -> own (vc im2 fb1) y b -> own (vc im2 fb1) x2 b -> False.
Proof.
  intros Hyj Hfj Hne Hy Hx. destruct (aa_other j y f Hyj Hfj Hne) as [_ Ho]. apply Ho in Hy. destruct aa_frame as (_ & Hmap & _).
  pose proof (ig_file _ _ _ _ Hig _ _ _ Hyj Hfj) as Hyh.
  pose proof (own_range _ _ _ _ (ig_ly _ _ _ _ Hig) (fk_ino _ _ _ (ha_ok _ _ _ _ _ _ Hyh)) Hy) as Hr.
  assert (foreign (vc im fb) x b) as Hf by (apply foreign_own; [lia|]; intros Hxo; by destruct (ig_apart _ _ _ _ Hig j i y x b)).
  apply (ap_old _ _ _ _ _ _ _ _ Hap b Hr) in Hf as [Hf _]. apply (foreign_own (vc im1 fb1) x1 b) in Hf; [|lia]. apply Hf.
  change (own (vc im2 fb1) x1 b) in Hx. by apply (own_keep (vc im1 fb1)) in Hx.
Qed.

Lemma append_image : image (<[i := x2]> xs) (<[i := (ty, d ++ p)]> fs) im2 fb1.
Proof.
  destruct (iblk_mk inum aa_inum) as (Hib & _ & _). pose proof (ig_len _ _ _ _ Hig) as Hlen. apply lookup_lt_Some in Hfi as Hlt.
  assert (forall j y, <[i := x2]> xs !! j = Some y -> (j = i /\ y = x2) \/ (j <> i /\ xs !! j = Some y)) as Hcase.
  { intros j y. destruct (decide (j = i)) as [->|Hne]; [rewrite list_lookup_insert_eq by lia; intros [= <-]; by left|].
    rewrite list_lookup_insert_ne by done. by right. }
  assert (forall j y, xs !! j = Some y -> exists f, fs !! j = Some f) as Hf.
  { intros j y Hj. apply lookup_lt_is_Some_2. rewrite <- Hlen. by eapply lookup_lt_Some. }
  split; try (rewrite !length_insert; apply Hig).
  - apply aa_layout.
  - pose proof (sum_insert (fun f => nblk (length f.2)) fs i (ty, d) (ty, d ++ p) Hfi) as Hs. cbn beta in Hs. cbn [snd] in Hs.
    rewrite length_app in Hs. pose proof (ap_fb _ _ _ _ _ _ _ _ Hap). pose proof (ig_fb _ _ _ _ Hig). lia.
  - destruct (ig_low _ _ _ _ Hig) as [H1 H2]. unfold im2. split.
    + rewrite list_lookup_total_insert_ne by lia. by rewrite (ap_low _ _ _ _ _ _ _ _ Hap) by lia.
    + intros b Hb. rewrite list_lookup_total_insert_ne by lia. rewrite (ap_low _ _ _ _ _ _ _ _ Hap) by lia. by apply H2.
  - intros j y f Hy. destruct (Hcase j y Hy) as [[-> ->]|[Hne Hyj]].
    + rewrite list_lookup_insert_eq by done. intros [= <-]. apply aa_has2.
    + rewrite list_lookup_insert_ne by done. intros Hfj. by apply aa_other.
  - intros j k y z b Hy Hz Oy Oz. destruct (Hcase j y Hy) as [[-> ->]|[Hj Hyj]], (Hcase k z Hz) as [[-> ->]|[Hk Hzk]]; [done|..].
    + destruct (Hf k z Hzk) as [f Hfk]. destruct (aa_apart k z f b Hzk Hfk Hk Oz Oy).
    + destruct (Hf j y Hyj) as [f Hfj]. destruct (aa_apart j y f b Hyj Hfj Hj Oy Oz).
    + destruct (Hf j y Hyj) as [f Hfj], (Hf k z Hzk) as [g Hgk]. apply (aa_other j y f) in Oy; [|done..].
      apply (aa_other k z g) in Oz; [|done..]. by apply (ig_apart _ _ _ _ Hig j k y z b).
  - intros b Hb. assert (own (vc im fb) x b \/ (fb <= b < fb1)%nat -> exists k z, <[i := x2]> xs !! k = Some z /\ own (vc im2 fb1) z b) as Hgrown.
    { intros Ho. exists i, x2. rewrite list_lookup_insert_eq by lia. split; [done|]. destruct aa_frame as (_ & Hmap & _).
      apply (own_more (vc im1 fb1) _ x1); [done|intros bn Hbn _; by apply Hmap|]. by apply (ap_own _ _ _ _ _ _ _ _ Hap). }
    destruct (decide (fb <= b)%nat) as [Hge|Hlo]; [apply Hgrown; right; lia|].
    destruct (ig_cover _ _ _ _ Hig b) as (j & y & Hy & Oy); [lia|]. destruct (decide (j = i)) as [->|Hne].
    { apply Hgrown. left. by simplify_eq. }
    exists j, y. rewrite list_lookup_insert_ne by done. split; [done|]. destruct (Hf j y Hy) as [f Hfj]. by apply (aa_other j y f).
Qed.
End after_append.

Lemma iappend_spec xs fs im fb fi i ty d p :
  image xs fs im fb -> fs !! i = Some (ty, d) -> (length d + length p <= MAXFILE * BSIZE)%nat ->
  (nblk (length d + length p) + fb <= 1000 + nblk (length d))%nat ->
  wp (iappend (Z.of_nat (S i)) p) (fun _ s' => exists xs' im' fb',
    s' = mkmst im' fi (Z.of_nat fb') /\ image xs' (<[i := (ty, d ++ p)]> fs) im' fb') (mkmst im fi (Z.of_nat fb)).
Proof.
  intros Hig Hfi Hmax Hroom. pose proof (ig_ly _ _ _ _ Hig) as Hly. pose proof (ly_len _ _ Hly) as Hl.
  pose proof (ig_max _ _ _ _ Hig) as Hm. apply lookup_lt_Some in Hfi as Hlt.
  destruct (lookup_lt_is_Some_2 xs i) as [x Hxi]; [rewrite (ig_len _ _ _ _ Hig); lia|].
  pose proof (ig_file _ _ _ _ Hig _ _ _ Hxi Hfi) as Hhas. cbn [fst snd] in Hhas. pose proof (ha_inum _ _ _ _ _ _ Hhas) as Hin.
  set (inum := Z.of_nat (S i)) in *. destruct (iblk_mk inum ltac:(lia)) as (Hib & Eib & _).
  unfold iappend, rinode. rewrite !wp_bind, Eib. apply wp_rsect; [lia|]. rewrite wp_ret.
  rewrite (has_rinode _ _ _ _ _ _ Hhas), wp_bind by lia. rewrite (ha_size _ _ _ _ _ _ Hhas), Nat2Z.id, Nat.add_succ_r.
  eapply wp_mono; [apply (iappend_loop_spec (length p / BSIZE + 2) im fb fi x (length d) p)|]; try done.
  - apply Hhas.
  - apply Hhas.
  - intros _. pose proof (Nat.mod_upper_bound (length d) BSIZE ltac:(done)). pose proof (Nat.div_mod_eq (length p) BSIZE).
    pose proof (Nat.mod_upper_bound (length p) BSIZE ltac:(done)). change BSIZE with 512%nat in *. lia.
  - cbn beta. intros r s1 (x1 & im1 & fb1 & -> & -> & Hap). unfold winode. rewrite Eib, wp_bind.
    pose proof (ly_len _ _ (ap_ly _ _ _ _ _ _ _ _ Hap)). apply wp_rsect; [lia|]. apply wp_wsect; [lia|].
    eexists _, _, fb1. split; [done|]. by apply (append_image xs fs im fb i x).
Qed.

(** ** A store into the inode blocks *)

Section put_inode.
Context im fb (inum : Z) x'.
Hypothesis Hly : layout im fb.
Hypothesis Hin : 0 <= inum < 200.
Hypothesis Hx' : length (i_addrs x') = S NDIRECT.

Let im' : list (list Z) := <[iblk sb inum := put_dinode (dinode_at inum) x' (im !!! iblk sb inum)]> im.

Lemma put_layout : layout im' fb.
Proof.
  destruct (iblk_mk inum Hin) as (Hib & _ & Ho). destruct Hly as [L B F Z']. unfold im'.
  split; [by rewrite length_insert| |done|].
  - intros b Hb. destruct (decide (b = iblk sb inum)) as [->|]; [|rewrite list_lookup_total_insert_ne by done; by apply B].
    rewrite list_lookup_total_insert_eq by lia. rewrite <- (B (iblk sb inum)) by lia. apply only_put_dinode; [done|rewrite B; lia].
  - intros b Hb. rewrite list_lookup_total_insert_ne by lia. by apply Z'.
Qed.

Lemma put_data b : (59 <= b \/ b < 32)%nat -> im' !!! b = im !!! b.
Proof. intros Hb. destruct (iblk_mk inum Hin) as (Hib & _ & _). unfold im'. by rewrite list_lookup_total_insert_ne by lia. Qed.

Lemma put_sync : dn_ok x' -> get_dinode (dinode_at inum) (vc im' fb !!! iblk sb inum) x' = x'.
Proof.
  intros Hd. destruct (iblk_mk inum Hin) as (Hib & _ & Ho). pose proof (ly_len _ _ Hly).
  rewrite vc_lookup by lia. unfold im'. rewrite list_lookup_total_insert_eq by lia.
  rewrite get_put_dinode; [by destruct x'|done|rewrite (ly_blk _ _ Hly); lia].
Qed.

Lemma put_other k y ty d : has im fb k y ty d -> 0 <= k < 200 -> k <> inum ->
  has im' fb k y ty d /\ forall b, own (vc im' fb) y b <-> own (vc im fb) y b.
Proof.
  intros Hh Hk Hne. pose proof (ly_len _ _ Hly). destruct (iblk_mk inum Hin) as (Hib & _ & _), (iblk_mk k Hk) as (Hkb & _ & _).
  apply (has_frame im fb); [done|apply put_layout|done|done| |].
  - intros b Hb. pose proof (own_range _ _ _ _ Hly (fk_ino _ _ _ (ha_ok _ _ _ _ _ _ Hh)) Hb). apply put_data. lia.
  - unfold im'. destruct (decide (iblk sb inum = iblk sb k)) as [He|He]; [|by rewrite list_lookup_total_insert_ne].
    rewrite He, list_lookup_total_insert_eq by lia. rewrite sync_put; [done|done|done|done|done|apply (ly_blk _ _ Hly); lia|done].
Qed.
End put_inode.

(** ** A new inode *)

Lemma fresh_amap c inum ty bn : amap c (set_i_nlink 1 (set_i_type ty (din0 inum))) bn = 0.
Proof.
  unfold amap. destruct (bn <? NDIRECT)%nat; [|done]. cbn [i_addrs set_i_nlink set_i_type din0].
  destruct (replicate (S NDIRECT) 0 !! bn) as [v|] eqn:E; [|done]. by apply lookup_replicate in E as [-> _].
Qed.

Section fresh.
Context (xs : list inode) (fs : list (Z * list Z)) im fb (ty : Z).
Hypothesis Hig : image xs fs im fb.
Hypothesis Hmax : (length fs < 199)%nat.
Hypothesis Hty : - 2 ^ 15 <= ty < 2 ^ 15.

Let inum : Z := Z.of_nat (S (length fs)).
Let x0 : inode := set_i_nlink 1 (set_i_type ty (din0 inum)).
Let im' : list (list Z) := <[iblk sb inum := put_dinode (dinode_at inum) x0 (im !!! iblk sb inum)]> im.

Lemma fr_inum : 0 <= inum < 200.
Proof. unfold inum. lia. Qed.

Lemma fr_layout : layout im' fb.
Proof. apply put_layout; [apply Hig|apply fr_inum|done]. Qed.

Lemma fr_has : has im' fb inum x0 ty [].
Proof.
  destruct (iblk_mk inum fr_inum) as (Hib & _ & Ho). pose proof (ig_ly _ _ _ _ Hig) as Hly. pose proof (ly_len _ _ Hly).
  pose proof (fun bn => fresh_amap (vc im' fb) inum ty bn) as Ha. fold x0 in Ha.
  assert (i_size x0 = 0) as Hs by done. assert (indirect x0 = 0) as Hn by done.
  assert (ino_ok sb (vc im' fb) x0) as Hi.
  { split; [done|done| | |..]; try (intros *; rewrite Ha; lia); by rewrite ?Hn. }
  assert (dense (vc im' fb) x0) as Hd by (split; [rewrite Hs; lia|]; intros bn _ Hlt; lia).
  split; [done| | |done|intros o _; unfold fbyte; rewrite Ha; done].
  - split; try done; try (cbn; lia); [apply fr_inum|]. change (i_inum x0) with inum.
    apply (put_sync im fb inum x0 Hly fr_inum); [done|]. eapply dn_ok_file; [apply mk_geo|exact Hi|rewrite Hs; lia|..]; cbn; lia.
  - split; [intros bn _; rewrite Ha|rewrite Hn]; cbn [length]; split; done || lia.
Qed.

Lemma fr_own b : ~ own (vc im' fb) x0 b.
Proof. intros [Hb [E|(bn & _ & E)]]; [cbn in E; lia|]. unfold x0 in E. rewrite fresh_amap in E. lia. Qed.

Lemma fr_other j y f : xs !! j = Some y -> fs !! j = Some f ->
  has im' fb (Z.of_nat (S j)) y f.1 f.2 /\ forall b, own (vc im' fb) y b <-> own (vc im fb) y b.
Proof.
  intros Hy Hf. apply lookup_lt_Some in Hf as Hlt.
  apply put_other; [apply Hig|apply fr_inum|done|by apply (ig_file _ _ _ _ Hig)|lia|unfold inum; lia].
Qed.

Lemma fresh_image : image (xs ++ [x0]) (fs ++ [(ty, [])]) im' fb.
Proof.
  pose proof (ig_len _ _ _ _ Hig) as Hlen. destruct (iblk_mk inum fr_inum) as (Hib & _ & _).
  assert (forall j y, (xs ++ [x0]) !! j = Some y ->
    (exists f, xs !! j = Some y /\ fs !! j = Some f /\ (fs ++ [(ty, [])]) !! j = Some f) \/
    (j = length fs /\ y = x0 /\ (fs ++ [(ty, [])]) !! j = Some (ty, []))) as Hcase.
  { intros j y Hj. apply lookup_snoc_Some in Hj as [[Hlt Hj]|[-> <-]].
    - rewrite Hlen in Hlt. destruct (lookup_lt_is_Some_2 fs j Hlt) as [f Hf]. left. exists f. split; [done|]. split; [done|].
      by apply lookup_app_l_Some.
    - right. rewrite Hlen. split; [done|]. split; [done|]. by apply list_lookup_middle. }
  split; rewrite ?length_app; cbn [length]; try lia.
  - apply fr_layout.
  - etransitivity; [apply (ig_fb _ _ _ _ Hig)|]. rewrite fmap_app, sum_list_with_app, <- (Nat.add_0_r (59 + _)), <- Nat.add_assoc. done.
  - destruct (ig_low _ _ _ _ Hig) as [H1 H2]. unfold im'. split; [by rewrite list_lookup_total_insert_ne by lia|].
    intros b Hb. rewrite list_lookup_total_insert_ne by lia. by apply H2.
  - intros j y f Hy Hf. destruct (Hcase j y Hy) as [(g & Hy' & Hg & Hg')|(-> & -> & Hg')]; rewrite Hg' in Hf; injection Hf as <-.
    + by apply fr_other.
    + apply fr_has.
  - intros j k y z b Hy Hz Oy Oz. destruct (Hcase j y Hy) as [(g & Hy' & Hg & _)|(-> & -> & _)]; [|by apply fr_own in Oy].
    destruct (Hcase k z Hz) as [(h & Hz' & Hh & _)|(-> & -> & _)]; [|by apply fr_own in Oz].
    apply (fr_other j y g) in Oy; [|done..]. apply (fr_other k z h) in Oz; [|done..]. by apply (ig_apart _ _ _ _ Hig j k y z b).
  - intros b Hb. destruct (ig_cover _ _ _ _ Hig b Hb) as (j & y & Hy & Oy). exists j, y.
    destruct (lookup_lt_is_Some_2 fs j) as [f Hf]; [rewrite <- Hlen; by eapply lookup_lt_Some|].
    split; [by apply lookup_app_l_Some|]. by apply (fr_other j y f).
Qed.
End fresh.

Lemma ialloc_spec xs fs im fb ty :
  image xs fs im fb -> (length fs < 199)%nat -> - 2 ^ 15 <= ty < 2 ^ 15 ->
  wp (ialloc ty) (fun r s' => r = Z.of_nat (S (length fs)) /\ exists xs' im',
    s' = mkmst im' (Z.of_nat (S (S (length fs)))) (Z.of_nat fb) /\ image xs' (fs ++ [(ty, [])]) im' fb)
    (mkmst im (Z.of_nat (S (length fs))) (Z.of_nat fb)).
Proof.
  intros Hig Hm Hty. unfold ialloc, winode. destruct (iblk_mk (Z.of_nat (S (length fs))) ltac:(lia)) as (Hib & Eib & _).
  pose proof (ly_len _ _ (ig_ly _ _ _ _ Hig)). rewrite wp_bind, wp_gets, wp_bind, wp_modify. cbn [img freeinode freeblock].
  rewrite u32_small by lia. replace (Z.of_nat (S (length fs)) + 1) with (Z.of_nat (S (S (length fs)))) by lia.
  rewrite !wp_bind, Eib. apply wp_rsect; [lia|]. apply wp_wsect; [lia|]. rewrite wp_ret. split; [done|].
  eexists _, _. split; [done|]. by apply fresh_image.
Qed.

(** * The files *)

(** The name in the directory, the contents, the entries of the root directory, and all files. *)
Definition stored (f : hostfile) : list Z :=
  match h_name f with c :: name => if c =? 95 then name else h_name f | [] => [] end.
Definition hcontent (f : hostfile) : list Z := concat (default [] (h_read f)).
Definition root (files : list hostfile) : list Z :=
  dirent 1 [46] ++ dirent 1 [46; 46] ++ concat (imap (fun i f => dirent (Z.of_nat (2 + i)) (stored f)) files).
Definition contents (files : list hostfile) : list (Z * list Z) :=
  (T_DIR, root files) :: ((fun f => (T_FILE, hcontent f)) <$> files).
(** The first block behind the files. *)
Definition blocks (fs : list (Z * list Z)) : nat := 59 + sum_list ((fun f => nblk (length f.2)) <$> fs).

Record accepted (files : list hostfile) : Prop := {
  ac_name : forall f, f ∈ files -> 47 ∉ h_name f;
  ac_open : forall f, f ∈ files -> h_read f <> None;
  ac_count : (length files <= 198)%nat;
  ac_size : forall f, f ∈ files -> (length (hcontent f) <= MAXFILE * BSIZE)%nat;
  ac_room : (blocks (contents files) <= 1000)%nat
}.

Lemma length_dirent inum name : length (dirent inum name) = 16%nat.
Proof. unfold dirent. by rewrite length_app, length_put16, length_lstrncpy. Qed.

Lemma root_snoc files f : root (files ++ [f]) = root files ++ dirent (Z.of_nat (S (S (length files)))) (stored f).
Proof. unfold root. rewrite imap_app, concat_app. cbn [imap concat compose]. by rewrite app_nil_r, Nat.add_0_r, !app_assoc. Qed.

Lemma length_root files : length (root files) = (16 * (2 + length files))%nat.
Proof.
  induction files as [|f files IH] using rev_ind; [by vm_compute|].
  rewrite root_snoc, !length_app, IH, length_dirent. cbn [length]. lia.
Qed.

Lemma contents_snoc files f :
  contents (files ++ [f]) = <[length (contents files) := (T_FILE, hcontent f)]>
    (<[0%nat := (T_DIR, root files ++ dirent (Z.of_nat (S (S (length files)))) (stored f))]> (contents files ++ [(T_FILE, [])])).
Proof.
  unfold contents. rewrite root_snoc, fmap_app. set (l := _ <$> files). set (r := root files ++ _).
  transitivity ((T_DIR, r) :: <[length l := (T_FILE, hcontent f)]> (l ++ [(T_FILE, [])])); [|done].
  by rewrite insert_app_r_alt, Nat.sub_diag by done.
Qed.

(** Files copied early need no more room than all. *)
Lemma blocks_contents files more : (blocks (contents files) <= blocks (contents (files ++ more)))%nat.
Proof.
  unfold blocks, contents. rewrite !fmap_cons, fmap_app, fmap_app. cbn [sum_list_with id snd].
  rewrite sum_list_with_app. pose proof (nblk_mono (length (root files)) (length (root (files ++ more)))) as Hm.
  rewrite !length_root, length_app in Hm. rewrite !length_root, length_app. lia.
Qed.

Lemma blocks_insert fs i f f' : fs !! i = Some f ->
  (blocks (<[i := f']> fs) + nblk (length f.2) = blocks fs + nblk (length f'.2))%nat.
Proof. intros Hf. unfold blocks. pose proof (sum_insert (fun f => nblk (length f.2)) fs i f f' Hf). lia. Qed.

(** ** The code *)

Lemma pieces_spec ps xs fs im fb fi i ty d :
  image xs fs im fb -> fs !! i = Some (ty, d) -> (length d + length (concat ps) <= MAXFILE * BSIZE)%nat ->
  (blocks (<[i := (ty, d ++ concat ps)]> fs) <= 1000)%nat ->
  wp (for_each ps (iappend (Z.of_nat (S i)))) (fun _ s' => exists xs' im' fb',
    s' = mkmst im' fi (Z.of_nat fb') /\ image xs' (<[i := (ty, d ++ concat ps)]> fs) im' fb') (mkmst im fi (Z.of_nat fb)).
Proof.
  revert xs fs im fb d. induction ps as [|p ps IH]; intros xs fs im fb d Hig Hfi Hmax Hroom.
  - cbn [for_each concat] in *. apply wp_ret. exists xs, im, fb. split; [done|]. by rewrite app_nil_r, list_insert_id.
  - cbn [for_each concat] in *. rewrite length_app in Hmax. rewrite wp_bind. apply lookup_lt_Some in Hfi as Hlt.
    pose proof (blocks_insert fs i (ty, d) (ty, d ++ p ++ concat ps) Hfi) as Hb. cbn [snd] in Hb. rewrite !length_app in Hb.
    pose proof (ig_fb _ _ _ _ Hig) as Hfb. fold (blocks fs) in Hfb.
    pose proof (nblk_mono (length d + length p) (length d + (length p + length (concat ps))) ltac:(lia)).
    eapply wp_mono; [apply (iappend_spec xs fs im fb fi i ty d p Hig Hfi); lia|]. cbn beta.
    intros _ s' (xs1 & im1 & fb1 & -> & Hig1). eapply wp_mono; [apply (IH _ _ _ _ (d ++ p) Hig1)|].
    + by apply list_lookup_insert_eq.
    + rewrite length_app. lia.
    + by rewrite list_insert_insert_eq, <- app_assoc.
    + cbn beta. intros _ s' (xs2 & im2 & fb2 & -> & Hig2). rewrite list_insert_insert_eq, <- app_assoc in Hig2. eauto.
Qed.

Lemma length_contents files : length (contents files) = S (length files).
Proof. unfold contents. cbn [length]. by rewrite length_fmap. Qed.

Lemma add_file_spec pre f more xs im fb :
  accepted (pre ++ f :: more) -> image xs (contents pre) im fb ->
  wp (add_file 1 f) (fun _ s' => exists xs' im' fb',
    s' = mkmst im' (Z.of_nat (S (S (length (pre ++ [f]))))) (Z.of_nat fb') /\ image xs' (contents (pre ++ [f])) im' fb')
    (mkmst im (Z.of_nat (S (S (length pre)))) (Z.of_nat fb)).
Proof.
  intros [Hn Ho Hc Hs Hr] Hig. assert (f ∈ pre ++ f :: more) as Hin by (apply elem_of_app; right; apply list_elem_of_here).
  specialize (Hn f Hin). specialize (Ho f Hin). specialize (Hs f Hin). rewrite length_app in Hc. cbn [length] in Hc.
  pose proof (blocks_contents (pre ++ [f]) more) as Hb. rewrite <- app_assoc in Hb. cbn [app] in Hb. rewrite contents_snoc in Hb.
  unfold add_file. rewrite bool_decide_eq_false_2 by done. rewrite contents_snoc.
  destruct (h_read f) as [ps|] eqn:Er; [|done]. assert (hcontent f = concat ps) as Ec by (unfold hcontent; by rewrite Er).
  rewrite Ec in *. fold (stored f).
  pose proof (length_contents pre) as Hl. rewrite !wp_bind, <- Hl.
  eapply wp_mono; [apply (ialloc_spec xs (contents pre) im fb T_FILE); [done|lia|done]|]. cbn beta.
  intros r s' (-> & xs1 & im1 & -> & Hig1). rewrite Hl in *. set (de := dirent _ _) in *.
  set (fs1 := contents pre ++ [(T_FILE, [])]) in *. assert (fs1 !! 0%nat = Some (T_DIR, root pre)) as H0 by done.
  assert (length fs1 = S (S (length pre))) as Hl1 by (unfold fs1; rewrite length_app, Hl; cbn; lia).
  assert (<[0%nat := (T_DIR, root pre ++ de)]> fs1 !! S (length pre) = Some (T_FILE, [])) as Hnew.
  { rewrite list_lookup_insert_ne by done. unfold fs1. rewrite <- Hl. by apply list_lookup_middle. }
  pose proof (blocks_insert fs1 0 _ (T_DIR, root pre ++ de) H0) as Hb1. pose proof (blocks_insert _ _ _ (T_FILE, concat ps) Hnew) as Hb2.
  pose proof (ig_fb _ _ _ _ Hig1) as Hfb1. fold (blocks fs1) in Hfb1. cbn [snd length] in Hb1, Hb2. change (nblk 0) with 0%nat in Hb2.
  rewrite length_app in Hb1. rewrite wp_bind. change 1 with (Z.of_nat 1) at 1.
  eapply wp_mono; [apply (iappend_spec xs1 fs1 im1 fb _ 0 T_DIR (root pre) de Hig1 H0)|].
  - rewrite length_root. unfold de. rewrite length_dirent. change (MAXFILE * BSIZE)%nat with (140 * 512)%nat. lia.
  - lia.
  - cbn beta. intros _ s' (xs2 & im2 & fb2 & -> & Hig2).
    eapply wp_mono; [apply (pieces_spec ps xs2 _ im2 fb2 _ (S (length pre)) T_FILE [] Hig2 Hnew)|]; [done|cbn [app]; lia|].
    cbn beta. intros _ s' (xs3 & im3 & fb3 & -> & Hig3). exists xs3, im3, fb3.
    split; [|done]. do 3 f_equal. rewrite length_app. cbn [length]. lia.
Qed.

(** ** The whole program *)

Definition empty_image : list (list Z) := <[1%nat := sb_block]> (replicate 1000 zeroes).

Lemma wipe_spec fi f :
  wp (for_each (seq 0 (Z.to_nat FSSIZE)) (fun i => wsect (Z.of_nat i) zeroes))
    (fun _ s => s = mkmst (replicate 1000 zeroes) fi f) (mkmst [] fi f).
Proof.
  change (Z.to_nat FSSIZE) with 1000%nat.
  eapply (wp_for_seq (fun j s => s = mkmst (replicate j zeroes) fi f)); [done|].
  intros j s' _ ->. unfold wsect. apply wp_modify. cbn [img freeinode freeblock].
  rewrite Nat2Z.id, length_replicate, Nat.ltb_irrefl, Nat.sub_diag. f_equal. by rewrite replicate_S_end.
Qed.

Lemma empty_spec : image [] [] empty_image 59.
Proof.
  assert (forall b, b <> 1%nat -> (b < 1000)%nat -> empty_image !!! b = zeroes) as Hz.
  { intros b Hne Hb. unfold empty_image. rewrite list_lookup_total_insert_ne by done. apply lookup_total_replicate_2. lia. }
  split; try done; try lia.
  - split; [done| |lia|intros b Hb; apply Hz; lia]. intros b Hb. destruct (decide (b = 1%nat)) as [->|]; [by vm_compute|by rewrite Hz].
  - cbn; lia.
  - split; [by vm_compute|]. intros b Hb. apply Hz; lia.
Qed.

Lemma copy_spec files xs im fb :
  accepted files -> image xs (contents []) im fb ->
  wp (for_each files (add_file 1)) (fun _ s => exists xs' im' fb' fi,
    s = mkmst im' fi (Z.of_nat fb') /\ image xs' (contents files) im' fb') (mkmst im 2 (Z.of_nat fb)).
Proof.
  intros Hac Hig. eapply wp_mono.
  - apply (wp_for_each (fun l s => exists pre xs' im' fb', files = pre ++ l /\
      s = mkmst im' (Z.of_nat (S (S (length pre)))) (Z.of_nat fb') /\ image xs' (contents pre) im' fb')).
    + exists [], xs, im, fb. done.
    + intros f l s' (pre & xs' & im' & fb' & -> & -> & Hig'). eapply wp_mono; [by apply (add_file_spec pre f l xs')|].
      cbn beta. intros _ s' (xs1 & im1 & fb1 & -> & Hig1). exists (pre ++ [f]), xs1, im1, fb1. by rewrite <- app_assoc.
  - cbn beta. intros _ s' (pre & xs' & im' & fb' & -> & -> & Hig'). rewrite app_nil_r. eauto 10.
Qed.

(** The root inode is stored again with its size rounded, and the bitmap is written. *)
Lemma finish_spec files xs im fb fi :
  image xs (contents files) im fb ->
  exists x, xs !! 0%nat = Some x /\ has im fb 1 x T_DIR (root files) /\
  wp (let! din := rinode 1 in
      let off := (i_size din / Z.of_nat BSIZE + 1) * Z.of_nat BSIZE in
      do! winode 1 (set_i_size off din);
      let! used := gets freeblock in
      balloc used) (fun _ s => img s = vc (<[iblk sb 1 := put_dinode (dinode_at 1)
        (set_i_size ((i_size x / Z.of_nat BSIZE + 1) * Z.of_nat BSIZE) x) (im !!! iblk sb 1)]> im) fb)
    (mkmst im fi (Z.of_nat fb)).
Proof.
  intros Hig. pose proof (ig_len _ _ _ _ Hig) as Hl. rewrite length_contents in Hl.
  destruct (lookup_lt_is_Some_2 xs 0%nat) as [x Hx]; [lia|]. exists x. split; [done|].
  pose proof (ig_file _ _ _ _ Hig 0%nat x _ Hx eq_refl) as Hh. cbn [fst snd] in Hh. change (Z.of_nat 1) with 1 in Hh. split; [done|].
  pose proof (ig_ly _ _ _ _ Hig) as [L _ F _]. destruct (iblk_mk 1 ltac:(lia)) as (Hib & Eib & _).
  unfold rinode, winode. rewrite !wp_bind, Eib. apply wp_rsect; [lia|]. rewrite wp_ret, wp_bind.
  rewrite (has_rinode _ _ _ _ _ _ Hh) by lia. rewrite wp_bind. apply wp_rsect; [lia|]. apply wp_wsect; [lia|].
  rewrite wp_bind, wp_gets. cbn [freeblock]. unfold balloc. change (Z.of_nat BSIZE * 8) with 4096.
  destruct (Z.ltb_spec (Z.of_nat fb) 4096); [|lia]. cbn [negb]. change (sb_bmapstart sb) with (Z.of_nat 58).
  apply wp_wsect; [rewrite length_insert; lia|]. cbn [img]. by rewrite Nat2Z.id.
Qed.

(** [struct superblock] as the kernel reads it from block 1. *)
Definition super (d : list Z) : superblock :=
  mksb (get32 d 0) (get32 d 4) (get32 d 8) (get32 d 12) (get32 d 16) (get32 d 20) (get32 d 24).

(** The root directory on the disk [c]: all its entries, zeros behind them, and a size that is a
    multiple of the block size.  It has a block for all of that size unless the entries fill
    their last block. *)
Record root_built (files : list hostfile) c x : Prop := {
  ro_inum : i_inum x = 1;
  ro_type : i_type x = T_DIR;
  ro_nlink : i_nlink x = 1;
  ro_ino : ino_ok sb c x;
  ro_sync : get_dinode (dinode_at 1) (c !!! iblk sb 1) x = x;
  ro_size : i_size x = Z.of_nat ((length (root files) / BSIZE + 1) * BSIZE);
  ro_data : fbytes c x 0 (length (root files)) = root files;
  ro_zero : forall o, (length (root files) <= o < MAXFILE * BSIZE)%nat -> fbyte c x o = 0;
  ro_dense : dense c x <-> ((2 + length files) mod 32 <> 0)%nat
}.

Record file_built c (inum : Z) (d : list Z) x : Prop := {
  fi_inum : i_inum x = inum;
  fi_type : i_type x = T_FILE;
  fi_nlink : i_nlink x = 1;
  fi_ok : file_ok sb c x;
  fi_data : fdata c x = d
}.

(** A disk with its inodes [xs]. *)
Record built (files : list hostfile) c (xs : list inode) : Prop := {
  bu_len : length c = 1000%nat;
  bu_blk : forall b, (b < 1000)%nat -> length (c !!! b) = BSIZE;
  bu_super : super (c !!! 1%nat) = sb;
  bu_log : forall b, (2 <= b < 32)%nat -> c !!! b = zeroes;
  bu_count : length xs = S (length files);
  bu_root : forall x, xs !! 0%nat = Some x -> root_built files c x;
  bu_file : forall i f x, files !! i = Some f -> xs !! S i = Some x -> file_built c (Z.of_nat (2 + i)) (hcontent f) x;
  bu_apart : forall i j x y b, xs !! i = Some x -> xs !! j = Some y -> own c x b -> own c y b -> i = j;
  bu_used : forall b, (b < 1000)%nat -> used sb c b = true <-> (b < 59)%nat \/ exists i x, xs !! i = Some x /\ own c x b;
  bu_free : forall b, (blocks (contents files) <= b < 1000)%nat -> used sb c b = false
}.

Section finish.
Context (files : list hostfile) (xs : list inode) im fb x.
Hypothesis Hig : image xs (contents files) im fb.
Hypothesis Hx : xs !! 0%nat = Some x.

Let x' : inode := set_i_size ((i_size x / Z.of_nat BSIZE + 1) * Z.of_nat BSIZE) x.
Let im' : list (list Z) := <[iblk sb 1 := put_dinode (dinode_at 1) x' (im !!! iblk sb 1)]> im.

Lemma fn_has : has im fb 1 x T_DIR (root files).
Proof. exact (ig_file _ _ _ _ Hig 0%nat x _ Hx eq_refl). Qed.
Lemma fn_one : 0 <= 1 < 200.
Proof. lia. Qed.
Lemma fn_addrs : length (i_addrs x') = S NDIRECT.
Proof. apply (fk_ino _ _ _ (ha_ok _ _ _ _ _ _ fn_has)). Qed.
Lemma fn_layout : layout im' fb.
Proof. apply put_layout; [apply Hig|apply fn_one|apply fn_addrs]. Qed.

Lemma fn_frame : ino_ok sb (vc im' fb) x /\ (forall bn, (bn < MAXFILE)%nat -> amap (vc im' fb) x bn = amap (vc im fb) x bn) /\
  (forall o, (o < MAXFILE * BSIZE)%nat -> fbyte (vc im' fb) x o = fbyte (vc im fb) x o).
Proof.
  pose proof (fk_ino _ _ _ (ha_ok _ _ _ _ _ _ fn_has)) as Hi. pose proof (ig_ly _ _ _ _ Hig) as Hly.
  apply file_frame; [rewrite dstart_mk; lia|done| |].
  - intros b Hb. pose proof (own_range _ _ _ _ Hly Hi Hb). rewrite !vc_lookup by lia. apply put_data; [apply fn_one|apply fn_addrs|lia].
  - intros ad Had. apply dblk_here in Had; [|done]. by apply dblk_here; [apply fn_layout|].
Qed.

Lemma fn_size : i_size x' = Z.of_nat ((length (root files) / BSIZE + 1) * BSIZE).
Proof.
  unfold x'. cbn [i_size set_i_size]. rewrite (ha_size _ _ _ _ _ _ fn_has), <- Nat2Z.inj_div, (Nat2Z.inj_mul _ BSIZE), Nat2Z.inj_add. done.
Qed.

(** The rounded size reaches into a block that the file does not have, if the last one is full. *)
Lemma fn_dense : dense (vc im' fb) x' <-> ((2 + length files) mod 32 <> 0)%nat.
Proof.
  destruct fn_frame as (_ & Hm & _). pose proof (ti_map _ _ _ _ (ha_tight _ _ _ _ _ _ fn_has)) as Ht.
  pose proof fn_size as Hs. pose proof (ig_max _ _ _ _ Hig) as Hmax. rewrite length_contents in Hmax.
  set (n := (2 + length files)%nat) in *. assert (length (root files) = 16 * n)%nat as Hr by apply length_root.
  pose proof (Nat.div_mod_eq n 32) as En. pose proof (Nat.mod_upper_bound n 32 ltac:(lia)) as Hmod.
  assert (length (root files) / BSIZE = n / 32)%nat as Hq.
  { rewrite Hr. change BSIZE with (16 * 32)%nat. apply Nat.Div0.div_mul_cancel_l. lia. }
  rewrite Hq in Hs. set (q := (n / 32)%nat) in *. assert (q < 139)%nat as Hqm by lia.
  assert (MAXFILE = 140%nat /\ BSIZE = 512%nat) as [HM HB] by done. split.
  - intros Hd E. apply (de_map _ _ Hd q); [lia|rewrite Hs; lia|]. change (amap (vc im' fb) x' q) with (amap (vc im' fb) x q).
    rewrite Hm by lia. destruct (decide (amap (vc im fb) x q = 0)) as [|Hn]; [done|]. apply Ht in Hn; lia.
  - intros E. split; rewrite Hs; [lia|]. intros bn Hbn Hlt. change (amap (vc im' fb) x' bn) with (amap (vc im' fb) x bn).
    rewrite Hm by done. apply Ht; lia.
Qed.

Lemma fn_root : root_built files (vc im' fb) x'.
Proof.
  destruct fn_frame as (Hi & Hm & Hby). pose proof fn_has as Hh. pose proof (ha_size _ _ _ _ _ _ Hh) as Hs.
  pose proof (de_size _ _ (fk_dense _ _ _ (ha_ok _ _ _ _ _ _ Hh))) as Hsz.
  assert (ino_ok sb (vc im' fb) x') as Hi' by (destruct Hi; by split).
  assert (i_inum x' = 1 /\ i_type x' = T_DIR /\ i_nlink x' = 1 /\ i_major x' = 0 /\ i_minor x' = 0) as (H1 & H2 & H3 & H4 & H5)
    by (unfold x'; by rewrite (ha_id _ _ _ _ _ _ Hh)).
  split; try done.
  - apply put_sync; [apply Hig|apply fn_one|apply fn_addrs|]. eapply dn_ok_file; [apply mk_geo|exact Hi'|..]; rewrite ?H2, ?H3, ?H4, ?H5; try done.
    rewrite fn_size. pose proof (ig_max _ _ _ _ Hig) as Hmax. rewrite length_contents in Hmax. rewrite length_root.
    pose proof (Nat.Div0.div_le_mono (16 * (2 + length files)) (16 * 201) BSIZE ltac:(lia)) as Hq.
    change (16 * 201 / BSIZE)%nat with 6%nat in Hq. change MAXFILE with 140%nat. change BSIZE with 512%nat in *. lia.
  - apply fn_size.
  - rewrite <- (ha_data _ _ _ _ _ _ Hh) at 2. unfold fdata. rewrite Hs, Nat2Z.id.
    change (fbytes (vc im' fb) x') with (fbytes (vc im' fb) x). apply fbytes_keep; [lia|done].
  - intros o Ho. change (fbyte (vc im' fb) x' o) with (fbyte (vc im' fb) x o). rewrite Hby by lia. by apply (ha_zero _ _ _ _ _ _ Hh).
  - apply fn_dense.
Qed.

Let ys : list inode := <[0%nat := x']> xs.

Lemma fn_case i y : ys !! i = Some y -> (i = 0%nat /\ y = x') \/ (i <> 0%nat /\ xs !! i = Some y).
Proof.
  unfold ys. apply lookup_lt_Some in Hx as Hlt. destruct (decide (i = 0%nat)) as [->|Hne].
  - rewrite list_lookup_insert_eq by done. intros [= <-]. by left.
  - rewrite list_lookup_insert_ne by done. by right.
Qed.

Lemma fn_other i y f : xs !! i = Some y -> contents files !! i = Some f -> i <> 0%nat ->
  has im' fb (Z.of_nat (S i)) y f.1 f.2 /\ forall b, own (vc im' fb) y b <-> own (vc im fb) y b.
Proof.
  intros Hy Hf Hne. apply lookup_lt_Some in Hf as Hlt. pose proof (ig_max _ _ _ _ Hig).
  apply put_other; [apply Hig|apply fn_one|apply fn_addrs|by apply (ig_file _ _ _ _ Hig)|lia|lia].
Qed.

(** Every inode has the blocks it had. *)
Lemma fn_own i y y' b : ys !! i = Some y' -> xs !! i = Some y -> own (vc im' fb) y' b <-> own (vc im fb) y b.
Proof.
  intros Hy' Hy. destruct (fn_case i y' Hy') as [[-> ->]|[Hne Hyy]].
  - simplify_eq. change (own (vc im' fb) x' b) with (own (vc im' fb) x b). destruct fn_frame as (_ & Hm & _). by apply own_keep.
  - simplify_eq. destruct (lookup_lt_is_Some_2 (contents files) i) as [f Hf].
    + rewrite <- (ig_len _ _ _ _ Hig). by eapply lookup_lt_Some.
    + by apply (fn_other i y f).
Qed.

Lemma fn_old i y' : ys !! i = Some y' -> exists y, xs !! i = Some y.
Proof. intros Hy. apply lookup_lt_is_Some_2. apply lookup_lt_Some in Hy. unfold ys in Hy. by rewrite length_insert in Hy. Qed.

Lemma fn_low b : (b < 32)%nat -> vc im' fb !!! b = im !!! b.
Proof. intros Hb. rewrite vc_lookup by lia. apply put_data; [apply fn_one|apply fn_addrs|lia]. Qed.

Lemma fn_built : built files (vc im' fb) ys.
Proof.
  pose proof fn_layout as Hly. destruct (ig_low _ _ _ _ Hig) as [Hsb Hz]. pose proof (ig_len _ _ _ _ Hig) as Hl. rewrite length_contents in Hl.
  split.
  - unfold vc. rewrite length_insert. apply Hly.
  - intros b Hb. destruct (decide (b = 58%nat)) as [->|]; [|rewrite vc_lookup by done; by apply Hly].
    unfold vc. rewrite list_lookup_total_insert_eq by (rewrite (ly_len _ _ Hly); lia). apply bits_spec. pose proof (ly_fb _ _ Hly). lia.
  - rewrite fn_low by lia. rewrite Hsb. by vm_compute.
  - intros b Hb. rewrite fn_low by lia. apply Hz. lia.
  - unfold ys. by rewrite length_insert.
  - intros y Hy. destruct (fn_case _ _ Hy) as [[_ ->]|[]]; [apply fn_root|done].
  - intros i f y Hf Hy. destruct (fn_case _ _ Hy) as [[]|[Hne Hyy]]; [done|].
    destruct (fn_other (S i) y (T_FILE, hcontent f)) as [Hh _]; [done| |done|].
    + change (contents files !! S i) with (((fun f => (T_FILE, hcontent f)) <$> files) !! i). by rewrite list_lookup_fmap, Hf.
    + replace (Z.of_nat (2 + i)) with (Z.of_nat (S (S i))) by lia. destruct Hh as [Hid Hok _ Hd _]. split; try done; by rewrite Hid.
  - intros i j y z b Hy Hz' Oy Oz. destruct (fn_old i y Hy) as [y0 Hy0], (fn_old j z Hz') as [z0 Hz0].
    apply (fn_own i y0) in Oy; [|done..]. apply (fn_own j z0) in Oz; [|done..]. by apply (ig_apart _ _ _ _ Hig i j y0 z0 b).
  - intros b Hb. pose proof (ly_fb _ _ Hly). rewrite used_vc; [|apply Hly|lia|done]. rewrite Nat.ltb_lt. split.
    + intros Hlt. destruct (decide (b < 59)%nat); [by left|right].
      destruct (ig_cover _ _ _ _ Hig b) as (i & y & Hy & Oy); [lia|]. apply lookup_lt_Some in Hy as Hi.
      destruct (lookup_lt_is_Some_2 ys i) as [y' Hy']; [unfold ys; by rewrite length_insert|]. exists i, y'. split; [done|]. by apply (fn_own i y).
    + intros [|(i & y & Hy & Oy)]; [lia|]. destruct (fn_old i y Hy) as [y0 Hy0]. apply (fn_own i y0) in Oy; [|done..].
      destruct (lookup_lt_is_Some_2 (contents files) i) as [f Hf]; [rewrite length_contents, <- Hl; by eapply lookup_lt_Some|].
      pose proof (ig_file _ _ _ _ Hig _ _ _ Hy0 Hf) as Hh.
      apply (own_range _ _ _ _ (ig_ly _ _ _ _ Hig) (fk_ino _ _ _ (ha_ok _ _ _ _ _ _ Hh)) Oy).
  - intros b Hb. pose proof (ly_fb _ _ Hly). rewrite used_vc; [|apply Hly|lia|lia]. apply Nat.ltb_ge.
    pose proof (ig_fb _ _ _ _ Hig) as Hfb. unfold blocks in Hb. lia.
Qed.
End finish.

Lemma nblk_one n : (0 < n <= 512)%nat -> nblk n = 1%nat.
Proof.
  intros Hn. unfold nblk. replace ((n + 511) / 512)%nat with 1%nat; [|apply (Nat.div_unique _ _ _ (n - 1)); lia].
  destruct (Nat.ltb_spec (12 * 512) n); lia.
Qed.

(** The root directory gets its two first entries. *)
Lemma dots_spec xs im (Q : unit -> mst -> Prop) :
  image xs [(T_DIR, [])] im 59 ->
  (forall xs' im' fb', image xs' (contents []) im' fb' -> Q tt (mkmst im' 2 (Z.of_nat fb'))) ->
  wp (iappend 1 (dirent 1 [46])) (fun _ => wp (iappend 1 (dirent 1 [46; 46])) Q) (mkmst im 2 (Z.of_nat 59)).
Proof.
  intros Hig HQ. pose proof (length_dirent 1 [46]) as Hl. pose proof (length_dirent 1 [46; 46]) as Hl2.
  assert ([(T_DIR, dirent 1 [46] ++ dirent 1 [46; 46])] = contents []) as Hc by by unfold contents, root; rewrite app_nil_r.
  set (de := dirent 1 [46]) in *. set (de2 := dirent 1 [46; 46]) in *. clearbody de de2. change 1 with (Z.of_nat 1).
  eapply wp_mono; [apply (iappend_spec xs [(T_DIR, [])] im 59 2 0 T_DIR [] de Hig eq_refl)|].
  { rewrite Hl. change (MAXFILE * BSIZE)%nat with (140 * 512)%nat. cbn [length]. lia. }
  { rewrite Hl. cbn [length Nat.add]. rewrite (nblk_one 16) by lia. lia. }
  cbn beta. intros _ s (xs1 & im1 & fb1 & -> & Hig1). rewrite app_nil_l in Hig1.
  pose proof (ig_fb _ _ _ _ Hig1) as Hf1. cbn [insert list_insert fmap list_fmap snd sum_list_with id] in Hf1.
  rewrite Hl, (nblk_one 16) in Hf1 by lia.
  eapply wp_mono; [apply (iappend_spec xs1 [(T_DIR, de)] im1 fb1 2 0 T_DIR de de2 Hig1 eq_refl)|].
  { rewrite Hl, Hl2. change (MAXFILE * BSIZE)%nat with (140 * 512)%nat. lia. }
  { rewrite Hl, Hl2. rewrite !nblk_one by lia. lia. }
  cbn beta. intros [] s (xs2 & im2 & fb2 & -> & Hig2). apply (HQ xs2). by rewrite <- Hc.
Qed.

(** The first inode is that of the root directory. *)
Lemma root_spec (Q : Z -> mst -> Prop) :
  (forall xs im, image xs [(T_DIR, [])] im 59 -> Q 1 (mkmst im 2 (Z.of_nat 59))) ->
  wp (ialloc T_DIR) Q (mkmst empty_image 1 (Z.of_nat 59)).
Proof.
  intros HQ. eapply wp_mono; [apply (ialloc_spec [] [] empty_image 59 T_DIR empty_spec); [|done]|].
  - apply Nat.ltb_lt. reflexivity.
  - cbn beta. intros r s (-> & xs & im & -> & Hig). apply (HQ xs im Hig).
Qed.

Lemma super_spec (Q : unit -> mst -> Prop) :
  Q tt (mkmst empty_image 1 (Z.of_nat 59)) -> wp (wsect 1 sb_block) Q (mkmst (replicate 1000 zeroes) 1 (Z.of_nat 59)).
Proof. intros HQ. apply (wp_wsect _ _ _ 1 sb_block Q); [rewrite length_replicate; lia|exact HQ]. Qed.

Lemma main_spec files s0 : accepted files -> wp (main files) (fun _ s => exists xs, built files (img s) xs) s0.
Proof.
  intros Hac. assert (nmeta = Z.of_nat 59) as Hn by done. assert (1 =? ROOTINO = true) as Hr by done.
  unfold main. rewrite wp_bind, wp_modify, wp_bind, Hn.
  eapply wp_mono; [apply wipe_spec|]. cbn beta. intros _ s ->. rewrite wp_bind. apply super_spec. rewrite wp_bind.
  apply root_spec. intros xs im Hig. rewrite Hr. cbn [negb]. rewrite wp_bind.
  eapply wp_mono; [apply (dots_spec xs im (fun _ s => exists xs' im' fb', s = mkmst im' 2 (Z.of_nat fb') /\ image xs' (contents []) im' fb') Hig); eauto 10|].
  cbn beta. intros _ s1 Hd. rewrite wp_bind. eapply wp_mono; [exact Hd|].
  cbn beta. intros _ s2 (xs2 & im2 & fb2 & -> & Hig2). rewrite wp_bind.
  eapply wp_mono; [apply (copy_spec files xs2 im2 fb2 Hac Hig2)|]. cbn beta.
  intros _ s3 (xs3 & im3 & fb3 & fi & -> & Hig3). destruct (finish_spec files xs3 im3 fb3 fi Hig3) as (x & Hx & _ & Hfin).
  eapply wp_mono; [exact Hfin|]. cbn beta. intros _ s4 ->. eexists. by apply (fn_built files xs3 im3 fb3 x).
Qed.

(** C13: [mkfs], given files with plain names that can be opened, that are not too large, and for
    which there are inodes and blocks, succeeds, and the image it leaves is a file system in the
    sense of the kernel's invariant: the superblock reads back, the log is empty, file [i] has inode
    [i + 2] with exactly its contents, the root directory holds the entries in order and zeros
    behind them, no block belongs to two files, and the bitmap marks exactly the metadata and the
    blocks that some file owns.  (The root directory has a hole at its end exactly if its entries
    fill their last block.) *)
Theorem mkfs_builds files s0 :
  accepted files -> exists s xs, main files s0 = Ok (tt, s) /\ built files (img s) xs.
Proof.
  intros Hac. destruct (proj1 (wp_Ok (main files) _ s0) (main_spec files s0 Hac)) as ([] & s & E & xs & H).
  exists s, xs. split; [exact E|exact H].
Qed.

Definition one_file : list hostfile := [mkhost [95; 99; 97; 116] (Some [[7; 8]; [9]])].

Lemma one_file_accepted : accepted one_file.
Proof.
  split.
  - intros f ->%list_elem_of_singleton. by apply (bool_decide_unpack _).
  - intros f ->%list_elem_of_singleton. discriminate.
  - cbn. lia.
  - intros f ->%list_elem_of_singleton. change (hcontent _) with [7; 8; 9]. change (MAXFILE * BSIZE)%nat with (140 * 512)%nat. cbn [length]. lia.
  - change (blocks (contents one_file)) with 61%nat. lia.
Qed.

Lemma mkfs_builds_witness : exists s xs, main one_file (mkmst [] 0 0) = Ok (tt, s) /\ built one_file (img s) xs.
Proof. apply (mkfs_builds one_file (mkmst [] 0 0)). exact one_file_accepted. Defined.
