(* ===== verification/ImageProps.v ===== *)
(** The image that [mkfs] makes and the kernel that reads it: the kernel boots from the image and
    finds every file by its name. *)

From S2P Require Import Prelude CString Mem Bio BioSpec Log LogSpec LogProps Fs FsSpec.
From S2P Require Import FsFile Dinode FsIo FileSpec DirSpec DirProps Mkfs MkfsProps.
Import Bio Log Fs.

Implicit Types (c : list (list Z)) (x y : inode) (d e : list Z) (files : list hostfile).

(** * The entries of the root directory *)

Definition root_entries files : list (list Z) :=
  Mkfs.dirent 1 [46] :: Mkfs.dirent 1 [46; 46] :: imap (fun i f => Mkfs.dirent (Z.of_nat (2 + i)) (stored f)) files.

Lemma root_entries_tail files k :
  root_entries files !! S (S k) = (fun f => Mkfs.dirent (Z.of_nat (2 + k)) (stored f)) <$> files !! k.
Proof.
  change (root_entries files !! S (S k)) with (imap (fun i f => Mkfs.dirent (Z.of_nat (2 + i)) (stored f)) files !! k).
  by rewrite list_lookup_imap.
Qed.

Lemma root_concat files : root files = concat (root_entries files).
Proof. done. Qed.

Lemma entry_concat (ls : list (list Z)) d k l :
  Forall (fun l => length l = DIRENT) ls -> ls !! k = Some l -> entry (concat ls ++ d) k = l.
Proof.
  intros Hls. revert k. induction Hls as [|l0 ls Hl0 _ IH]; intros [|k] Hk; [done|done|..].
  - injection Hk as ->. unfold entry, slice. rewrite Nat.mul_0_r, drop_0. cbn [concat]. rewrite <- app_assoc. by rewrite <- Hl0, take_app_length.
  - cbn in Hk. rewrite <- (IH k Hk). unfold entry, slice. cbn [concat]. rewrite <- app_assoc.
    rewrite Nat.mul_succ_r, Nat.add_comm, <- drop_drop. f_equal. f_equal. by rewrite <- Hl0, drop_app_length.
Qed.

Lemma cprefix_lstrncpy_word n d : Forall (fun ch => ch <> 0) d -> cprefix (lstrncpy n d) = take n d.
Proof.
  intros Hd. revert n. induction Hd as [|ch d Hc _ IH]; intros [|n]; try done.
  cbn [lstrncpy]. unfold lstrncpy, cprefix in *. cbn. destruct (Z.eqb_spec ch 0); [done|]. cbn. destruct (Z.eqb_spec ch 0); [done|].
  cbn. f_equal. apply IH.
Qed.

Lemma dirent_name inum d : Forall (fun ch => ch <> 0) d -> cprefix (de_name (Mkfs.dirent inum d)) = take DIRSIZ d.
Proof.
  intros Hd. unfold Mkfs.dirent, de_name, slice. rewrite drop_app_length' by (by rewrite length_put16).
  rewrite take_ge by (by rewrite length_lstrncpy). by apply cprefix_lstrncpy_word.
Qed.
Lemma dirent_inum inum d : 0 <= inum < 2 ^ 16 -> de_inum (Mkfs.dirent inum d) = inum.
Proof.
  intros Hi. unfold Mkfs.dirent, de_inum, get16, byte_at. rewrite !lookup_app_l by (rewrite length_put16; cbn; lia).
  change (get16 (put16 0 inum (replicate 2 0)) 0 = inum). rewrite get16_put16 by (cbn; lia). unfold u16. apply Z.mod_small. lia.
Qed.

Section image.
Context files c (xs : list inode).
Hypothesis Hbu : built files c xs.
Hypothesis Hcount : (length files <= 198)%nat.
Hypothesis Hfull : ((2 + length files) mod 32 <> 0)%nat.
Abbreviation sb := Mkfs.sb.

(** ** Every inode is on the disk *)

Lemma im_din k x : xs !! k = Some x -> i_dev x = 1 -> i_inum x = Z.of_nat (S k) ->
  get_dinode (dinode_at (i_inum x)) (c !!! iblk sb (i_inum x)) x = x -> clean x = din sb c (Z.of_nat (S k)).
Proof. intros Hx Hd Hn Hs. rewrite <- Hn, <- (clean_sync sb c x Hd). by rewrite Hs. Qed.

Lemma im_root_ok x : xs !! 0%nat = Some x -> file_ok sb c x.
Proof.
  intros Hx. destruct (bu_root _ _ _ Hbu x Hx) as [Hn Ht Hl Hi Hs Hsz _ _ Hd].
  assert (exists ty ma mi nl sz ad, get_dinode (dinode_at 1) (c !!! iblk sb 1) x = set_i_dn (i16 ty) (i16 ma) (i16 mi) (i16 nl) sz ad x)
    as (ty & ma & mi & nl & sz & ad & Eg) by (unfold get_dinode; eauto 10).
  assert (forall v, - 2 ^ 15 <= i16 v < 2 ^ 15) as H16 by (intros v; unfold i16; pose proof (Z.mod_pos_bound (v + 2 ^ 15) (2 ^ 16) ltac:(lia)); lia).
  rewrite Eg in Hs. split; [done|by apply Hd|rewrite Hn; change (sb_ninodes sb) with 200; lia|rewrite <- Hs; apply H16..|by rewrite Hn, Eg].
Qed.

Lemma im_root : exists x, xs !! 0%nat = Some x /\ clean x = din sb c 1 /\ root_built files c x.
Proof.
  destruct (lookup_lt_is_Some_2 xs 0%nat) as [x Hx]; [rewrite (bu_count _ _ _ Hbu); lia|]. exists x. pose proof (bu_root _ _ _ Hbu x Hx) as Hr.
  split; [done|]. split; [|done]. apply (im_din 0 x Hx); [apply Hr|apply Hr|]. rewrite (ro_inum _ _ _ Hr). apply Hr.
Qed.
Lemma im_file i f : files !! i = Some f -> exists x, xs !! S i = Some x /\ clean x = din sb c (Z.of_nat (2 + i)) /\
  file_built c (Z.of_nat (2 + i)) (hcontent f) x.
Proof.
  intros Hf. apply lookup_lt_Some in Hf as Hlt. destruct (lookup_lt_is_Some_2 xs (S i)) as [x Hx]; [rewrite (bu_count _ _ _ Hbu); lia|].
  exists x. pose proof (bu_file _ _ _ Hbu i f x Hf Hx) as Hb. split; [done|]. split; [|done].
  apply (im_din (S i) x Hx); [apply Hb|rewrite (fi_inum _ _ _ _ Hb); lia|apply Hb].
Qed.

(** ** The root directory *)

Lemma im_data : exists z, fdata c (din sb c 1) = concat (root_entries files) ++ replicate z 0 /\
  (length (fdata c (din sb c 1)) mod DIRENT = 0)%nat.
Proof.
  destruct im_root as (x & Hx & Hc & [_ _ _ _ _ Hsz Hd Hz _]). rewrite <- Hc. change (fdata c (clean x)) with (fdata c x).
  set (m := length (root files)) in *. set (k := ((m / BSIZE + 1) * BSIZE)%nat) in *.
  assert (m <= k)%nat as Hmk by (pose proof (Nat.div_mod_eq m BSIZE); pose proof (Nat.mod_upper_bound m BSIZE ltac:(done)); unfold k; nia).
  assert (k <= MAXFILE * BSIZE)%nat as Hk.
  { unfold k, m. rewrite length_root. apply Nat.mul_le_mono_r. change MAXFILE with 140%nat.
    pose proof (Nat.Div0.div_le_mono (16 * (2 + length files)) (16 * 200) BSIZE ltac:(lia)) as H. change (16 * 200 / BSIZE)%nat with 6%nat in H. lia. }
  assert (k mod DIRENT = 0)%nat as Hkd.
  { unfold k. change BSIZE with (32 * DIRENT)%nat at 2. rewrite Nat.mul_assoc. apply Nat.Div0.mod_mul. }
  assert (m = length (root files)) as Em by done. clearbody k m.
  assert (fdata c x = root files ++ replicate (k - m) 0) as Hf.
  { unfold fdata. rewrite Hsz, Nat2Z.id. assert (k = m + (k - m))%nat as Ek by lia. rewrite Ek at 1. rewrite fbytes_app, Hd. f_equal. cbn [Nat.add].
    apply (list_eq_same_length _ _ (k - m)); [by rewrite length_replicate|by rewrite length_fbytes|].
    intros i u v Hi Hu Hv. apply lookup_replicate in Hv as [-> _]. rewrite fbytes_lookup in Hu by lia. injection Hu as <-. apply Hz. lia. }
  exists (k - m)%nat. rewrite Hf, root_concat. split; [done|]. rewrite <- root_concat, length_app, length_replicate, <- Em.
  by replace (m + (k - m))%nat with k by lia.
Qed.

Lemma root_entries_len : length (root_entries files) = (2 + length files)%nat.
Proof. unfold root_entries. cbn [length]. by rewrite length_imap. Qed.
Lemma root_entries_16 : Forall (fun l => length l = DIRENT) (root_entries files).
Proof.
  apply Forall_lookup. intros k l Hk.
  destruct k as [|[|k]]; [injection Hk as <-; apply length_dirent..|]. rewrite root_entries_tail in Hk.
  apply fmap_Some in Hk as (f & _ & ->). apply length_dirent.
Qed.
Lemma root_entries_at k l : root_entries files !! k = Some l ->
  (k = 0%nat /\ l = Mkfs.dirent 1 [46]) \/ (k = 1%nat /\ l = Mkfs.dirent 1 [46; 46]) \/
  exists i f, k = (2 + i)%nat /\ files !! i = Some f /\ l = Mkfs.dirent (Z.of_nat (2 + i)) (stored f).
Proof.
  destruct k as [|[|k]]; [intros [= <-]; auto..|]. intros Hk. right. right. exists k. rewrite root_entries_tail in Hk. apply fmap_Some in Hk as (f & Hf & ->). by exists f.
Qed.

(** Behind the entries there are zeros. *)
Lemma im_entry k : let d := fdata c (din sb c 1) in
  match root_entries files !! k with Some l => entry d k = l | None => de_inum (entry d k) = 0 end.
Proof.
  cbn zeta. destruct im_data as (z & -> & _). destruct (root_entries files !! k) as [l|] eqn:E; [by apply entry_concat; [apply root_entries_16|]|].
  apply lookup_ge_None in E. rewrite <- root_concat. pose proof (length_root files) as Hl. rewrite root_entries_len in E.
  assert (forall o, byte_at (entry (root files ++ replicate z 0) k) o = 0) as Hb; [|unfold de_inum, get16; by rewrite !Hb].
  intros o. unfold byte_at. destruct (decide (o < DIRENT)%nat) as [Ho|Ho].
  - unfold entry. rewrite lookup_slice by done. rewrite lookup_app_r by (change DIRENT with 16%nat; lia).
    destruct (replicate z 0 !! _) as [v|] eqn:Ev; [|done]. by apply lookup_replicate in Ev as [-> _].
  - unfold entry, slice. by rewrite lookup_take_ge by lia.
Qed.

Lemma im_slots k : (k < 2 + length files)%nat -> (k < length (fdata c (din sb c 1)) / DIRENT)%nat.
Proof.
  intros Hk. destruct im_data as (z & Hd & Hm). pose proof (Nat.div_mod_eq (length (fdata c (din sb c 1))) DIRENT) as E. rewrite Hm, Hd in E.
  rewrite length_app, <- root_concat, length_root in E. rewrite Hd, length_app, <- root_concat, length_root. change DIRENT with 16%nat in *. lia.
Qed.

(** ** The tree *)

Definition on_image (inum : Z) : Prop := 1 <= inum <= Z.of_nat (S (length files)).

Lemma im_node inum : on_image inum -> exists x, clean x = din sb c inum /\ file_ok sb c x /\ (i_type x = T_DIR <-> inum = 1) /\
  (i_type x = T_DIR \/ i_type x = T_FILE) /\ i_nlink x = 1.
Proof.
  intros [H1 H2]. destruct (decide (inum = 1)) as [->|Hne].
  - destruct im_root as (x & Hx & Hc & [_ Ht Hl _ _ _ _ _ _]). exists x. split; [done|]. split; [by apply im_root_ok|]. split; [done|]. auto.
  - destruct (lookup_lt_is_Some_2 files (Z.to_nat (inum - 2))) as [f Hf]; [lia|].
    destruct (im_file _ _ Hf) as (x & _ & Hc & [Hn Ht Hl Hok _]). rewrite Nat2Z.inj_add, Z2Nat.id in Hc by lia.
    replace (Z.of_nat 2 + (inum - 2)) with inum in Hc by lia. exists x. split; [done|]. split; [done|].
    rewrite Ht. split; [split; [discriminate|lia]|]. auto.
Qed.

Lemma im_tree : tree sb c on_image.
Proof.
  split.
  - intros inum Hi. destruct (im_node inum Hi) as (x & Hc & Hok & _ & Ht & Hl). rewrite <- Hc. split; [by apply (proj1 (file_ok_clean sb c x))|].
    change (i_type x <> 0 /\ i_nlink x <> 0). rewrite Hl. split; [|done]. destruct Ht as [Ht|Ht]; rewrite Ht; discriminate.
  - intros inum Hi Ht. destruct (im_node inum Hi) as (x & Hc & _ & H1 & _). rewrite <- Hc in Ht. apply H1 in Ht as ->. by destruct im_data as (z & _ & Hm).
  - intros inum k Hi Ht d Hk H0. destruct (im_node inum Hi) as (x & Hc & _ & H1 & _). rewrite <- Hc in Ht. apply H1 in Ht as ->.
    pose proof (im_entry k) as He. cbn zeta in He. fold d in He. destruct (root_entries files !! k) as [l|] eqn:El; [|done]. rewrite He.
    destruct (root_entries_at k l El) as [[_ ->]|[[_ ->]|(i & f & _ & Hf & ->)]]; [rewrite dirent_inum by lia; unfold on_image; lia..|].
    apply lookup_lt_Some in Hf. rewrite dirent_inum by lia. unfold on_image. lia.
Qed.

(** File [i] is the first with its name, which is that of a file and not a dot. *)
Record has_name (i : nat) (f : hostfile) : Prop := {
  hn_file : files !! i = Some f;
  hn_first : forall j g, files !! j = Some g -> (j < i)%nat -> take DIRSIZ (stored g) <> take DIRSIZ (stored f);
  hn_bytes : forall g, g ∈ files -> Forall (fun ch => ch <> 0) (stored g);
  hn_dots : take DIRSIZ (stored f) <> [46] /\ take DIRSIZ (stored f) <> [46; 46];
  hn_some : stored f <> []
}.

Lemma im_find i f : has_name i f -> dir_find (take DIRSIZ (stored f)) (fdata c (din sb c 1)) = Some (2 + i)%nat /\
  entry (fdata c (din sb c 1)) (2 + i) = Mkfs.dirent (Z.of_nat (2 + i)) (stored f).
Proof.
  intros [Hf Hfirst Hnz [Hd1 Hd2] _]. apply lookup_lt_Some in Hf as Hlt. set (d := fdata c (din sb c 1)).
  assert (forall j g, files !! j = Some g -> Forall (fun ch => ch <> 0) (stored g)) as Hnz' by (intros j g Hg; apply Hnz; by eapply list_elem_of_lookup_2).
  assert (entry d (2 + i) = Mkfs.dirent (Z.of_nat (2 + i)) (stored f)) as He.
  { pose proof (im_entry (2 + i)) as He. cbn zeta in He. change (2 + i)%nat with (S (S i)) in He at 1. rewrite root_entries_tail, Hf in He. exact He. }
  split; [|done]. apply dir_find_Some. split; [apply im_slots; lia|]. split.
  - split; rewrite He; [rewrite dirent_inum by lia; lia|]. apply dirent_name. by apply (Hnz' i).
  - intros k Hk [H0 Hn]. pose proof (im_entry k) as Hek. cbn zeta in Hek. fold d in Hek.
    destruct (root_entries files !! k) as [l|] eqn:El; [|done]. rewrite Hek in Hn.
    destruct (root_entries_at k l El) as [[_ ->]|[[_ ->]|(j & g & -> & Hg & ->)]].
    + apply Hd1. rewrite <- Hn. rewrite dirent_name; [done|]. by repeat constructor.
    + apply Hd2. rewrite <- Hn. rewrite dirent_name; [done|]. by repeat constructor.
    + apply (Hfirst j g Hg); [lia|]. rewrite <- Hn. symmetry. apply dirent_name. by apply (Hnz' j).
Qed.

Lemma im_walk i f : has_name i f -> walk sb c false ROOTINO [take DIRSIZ (stored f)] = Some (Z.of_nat (2 + i)).
Proof.
  intros Hn. destruct (im_find i f Hn) as [Hfind He]. pose proof (hn_file _ _ Hn) as Hf. apply lookup_lt_Some in Hf.
  cbn [walk]. change ROOTINO with 1. destruct im_root as (x & _ & Hc & Hr).
  assert (i_type (din sb c 1) = T_DIR) as Ht by (rewrite <- Hc; apply Hr). rewrite Ht, Z.eqb_refl. cbn [negb andb].
  rewrite Hfind, He, dirent_inum by lia. done.
Qed.

(** ** Booting *)

Lemma im_disk_ok : disk_ok 2 30 c.
Proof.
  pose proof (bu_len _ _ _ Hbu) as Hl. split; rewrite ?Hl; try (unfold LOGSIZE, MAXOPBLOCKS; lia).
  - apply Forall_lookup. intros b d Hd. apply lookup_lt_Some in Hd as Hb. rewrite <- (list_lookup_total_correct _ _ _ Hd).
    apply (bu_blk _ _ _ Hbu). lia.
  - exists (c !!! 1%nat). split; [apply list_lookup_lookup_total_lt; lia|]. pose proof (bu_super _ _ _ Hbu) as Hs.
    assert (get32 (c !!! 1%nat) 12 = 30 /\ get32 (c !!! 1%nat) 16 = 2) as [H1 H2] by (by injection Hs). split; done.
Qed.

Lemma im_used b : (b < 59)%nat -> used sb c b = true.
Proof. intros Hb. apply (bu_used _ _ _ Hbu); [lia|by left]. Qed.

Lemma im_boot me : exists l a, boot (lst0 me c) = Ok (tt, l) /\ content a = c /\ held a = ∅ /\ fsok 0 me 2 30 sb l a [].
Proof.
  pose proof (bu_len _ _ _ Hbu) as Hl.
  assert (wp boot (fun _ l => log_inv me 2 30 l (mkbspec c c ∅ ∅ [(2%nat, zeros)]) [] /\ l_outstanding (lg l) = 0) (lst0 me c)) as H.
  { apply (boot_clean me 2 30 c zeros); [apply im_disk_ok| |split; reflexivity|reflexivity].
    rewrite list_lookup_lookup_total_lt by lia. f_equal. apply (bu_log _ _ _ Hbu). lia. }
  destruct (proj1 (wp_Ok boot _ (lst0 me c)) H) as ([] & l & E & Hi & Ho). exists l, (mkbspec c c ∅ ∅ [(2%nat, zeros)]).
  split; [exact E|]. clear E H. split; [done|]. split; [done|]. split; [by split| | |done].
  - cbn [disk]. rewrite Hl. apply mk_geo.
  - cbn [content]. rewrite dstart_mk. apply im_used.
Qed.
End image.

(** * Reading a file by its name *)

(** What [exec] and [open] do to get at the bytes of a file. *)
Definition read_file `{DevOps D} (path : list Z) : M (fsst D) (Z * list Z) :=
  do! on_log begin_op;
  let! r := namei path in
  match r with
  | None => ret (-1, [])
  | Some ip => do! ilock ip; let! x := get_ip ip in readi ip 0 (i_size x)
  end.

(** The state of the file system after booting: an empty inode cache. *)
Definition fs0 {D} (l : lst) (dev : D) : fsst D := mkfsst l (replicate NINODE inode0) Mkfs.sb 0 dev.

Lemma empty_cache me c : cache_ok me Mkfs.sb c None (fun _ => 0) (replicate NINODE inode0) /\ (2 <= spare (replicate NINODE inode0))%nat.
Proof.
  assert (forall i x, replicate NINODE inode0 !! i = Some x -> x = inode0) as H by (intros i x Hx; by apply lookup_replicate in Hx as [-> _]).
  split; [|vm_compute; lia]. split; intros *.
  - by intros ->%H.
  - by intros ->%H.
  - done.
  - by intros ->%H.
  - by intros ->%H.
  - done.
Qed.

Lemma plain_path f files : accepted files -> f ∈ files -> stored f <> [] -> elems (slash :: stored f) = [take DIRSIZ (stored f)].
Proof.
  intros Hac Hf Hne. rewrite elems_slash. rewrite <- (app_nil_r (stored f)) at 1. rewrite elems_word; [done| |done|by left].
  pose proof (ac_name _ Hac f Hf) as Hs. apply Forall_forall. intros ch Hch ->. apply Hs. unfold stored in Hch. destruct (h_name f) as [|a n]; [done|].
  destruct (a =? 95); [by apply list_elem_of_further|done].
Qed.

Section read.
Context `{DevOps D} (me : Z) (dev : D) (files : list hostfile) (c : list (list Z)) (xs : list inode).
Hypothesis Hac : accepted files.
Hypothesis Hbu : built files c xs.
Hypothesis Hfull : ((2 + length files) mod 32 <> 0)%nat.
Abbreviation sb := Mkfs.sb.

Lemma read_file_spec i f l a :
  has_name files i f -> content a = c -> held a = ∅ -> fsok 0 me 2 30 sb l a [] ->
  wp (read_file (slash :: stored f)) (fun r _ => r = (Z.of_nat (length (hcontent f)), hcontent f)) (fs0 l dev).
Proof.
  intros Hn Hca Hh Ho. pose proof (ac_count _ Hac) as Hcount. pose proof (hn_file _ _ _ Hn) as Hf. apply list_elem_of_lookup_2 in Hf as Hin. apply lookup_lt_Some in Hf as Hlt.
  destruct (empty_cache me c) as [Hcache Hspare]. destruct (im_file files c xs Hbu Hcount Hfull i f Hf) as (x & _ & Hcx & Hfb).
  unfold read_file, namei. rewrite wp_bind. eapply (F_begin me 2 30 sb (fs0 l dev) a); [by split|]. intros l1 Ho1. rewrite wp_bind, wp_bind.
  assert (sb_size sb <= BPB) as Hone by done. assert (tree sb (content a) (on_image files)) as Htree by (rewrite Hca; by eapply im_tree).
  assert (forall k : Z, 0 <= 0 /\ 0 + 2 < 2 ^ 31) as Hr0 by lia. assert (length (@nil nat) + 4 < 30)%nat as Hk by (cbn; lia).
  eapply (namex_spec 1 me 2 30 sb Hone a [] (on_image files) (fun _ => 0) _ false Hh Hk Htree Hr0 Hspare _ _ _ ROOTINO);
    [by split; [rewrite Hca|]|done|exact Ho1| |done|done|unfold on_image; change ROOTINO with 1; lia|].
  { constructor; [done|]. by apply (hn_bytes _ _ _ Hn). }
  rewrite (plain_path f files Hac Hin (hn_some _ _ _ Hn)). intros l2 cache res name' Ho2 Hnm. rewrite wp_ret. unfold named in Hnm.
  rewrite Hca, (im_walk files c xs Hbu Hcount Hfull i f Hn) in Hnm. destruct res as [ip|]; [|by destruct Hnm]. cbn [fst].
  destruct Hnm as (dest & E & Hdest & Hat & _). apply (inj Some) in E as <-. rewrite wp_bind.
  eapply (namex_enter 1 me 2 30 sb a [] (on_image files) (fun _ => 0) _ Hh Hk Htree Hr0 Hspare); [exact Hat|done|done|exact Ho2|].
  intros l3 cache3 y Ho3 Hii. rewrite wp_bind. eapply wp_get_ip; [apply (ii_slot _ _ _ _ _ _ _ _ _ Hii)|].
  pose proof (ii_disk _ _ _ _ _ _ _ _ _ Hii) as Hcy. rewrite Hca, <- Hcx in Hcy.
  assert (file_ok sb c y) as Hok by (apply file_ok_clean; rewrite Hcy; apply (proj1 (file_ok_clean sb c x)), Hfb).
  assert (i_type y = T_FILE) as Hty by (change (i_type (clean y) = T_FILE); rewrite Hcy; apply Hfb).
  assert (fdata c y = hcontent f) as Hdat by (change (fdata c (clean y) = hcontent f); rewrite Hcy; apply Hfb).
  pose proof (de_size _ _ (fk_dense _ _ _ Hok)) as Hsz. pose proof MAXBYTES. pose proof (length_fdata c y) as Hl. rewrite Hdat in Hl. pose proof (cost_le sb y []) as Hcost.
  cbn [length] in Hcost.
  eapply (readi_spec 1 me 2 30 sb Hone _ a [] ip y); [apply (ii_slot _ _ _ _ _ _ _ _ _ Hii)|done|exact Ho3|rewrite Hca; apply Hok|rewrite Hca; apply Hok|done|lia|by rewrite Hty|lia|lia|].
  intros l4 _. rewrite Hca, Hdat. unfold read_result. rewrite Hl, Z2Nat.id by lia.
  destruct (Z.gtb_spec 0 (i_size y)); [lia|]. destruct (Z.geb_spec (0 + i_size y) (2 ^ 32)); [lia|]. cbn [orb].
  unfold slice. rewrite drop_0, take_ge by lia. rewrite Hl, Z2Nat.id by lia. done.
Qed.
End read.


#[local] Instance no_dev : DevOps unit := { devsw_read _ := None; devsw_write _ := None }.


(** ** The theorems on directories apply to the image *)

(** The image of one file, as the kernel sees it after booting. *)
Lemma one_image : exists xs l a, built one_file (content a) xs /\ held a = ∅ /\ fsok 0 1 2 30 Mkfs.sb l a [].
Proof.
  destruct (proj1 (wp_Ok (Mkfs.main one_file) _ (mkmst [] 0 0)) (main_spec one_file (mkmst [] 0 0) one_file_accepted)) as ([] & s & _ & xs & Hbu).
  destruct (im_boot one_file (img s) xs Hbu ltac:(cbn; lia) ltac:(discriminate) 1) as (l & a & _ & Hc & Hh & Ho).
  exists xs, l, a. by rewrite Hc.
Qed.

Lemma namex_resolves_witness : exists l a,
  exists res name' l' cache, namex [47; 99; 97; 116] false (replicate DIRSIZ 0) (fs0 l tt) = Ok ((res, name'), upd_fs l' cache (fs0 l tt)) /\
    fsok 0 1 2 30 Mkfs.sb l' a [] /\
    match walk Mkfs.sb (content a) false ROOTINO (elems [47; 99; 97; 116]) with
    | None => res = None /\ cache_ok 1 Mkfs.sb (content a) None (fun _ => 0) cache
    | Some dest => exists ip x, res = Some ip /\ cache !! ip = Some x /\ i_inum x = dest /\ 0 < i_ref x /\
        cache_ok 1 Mkfs.sb (content a) None (bump (fun _ => 0) dest 1) cache /\
        (false = true -> last (elems [47; 99; 97; 116]) = Some (cprefix name'))
    end.
Proof.
  destruct one_image as (xs & l & a & Hbu & Hh & Ho). destruct (empty_cache 1 (content a)) as [Hc Hs]. exists l, a.
  apply (namex_resolves 0 1 2 30 Mkfs.sb (fs0 l tt) a [] (on_image one_file)).
  - discriminate.
  - reflexivity.
  - exact Ho.
  - exact Hh.
  - cbn. lia.
  - apply (im_tree one_file (content a) xs Hbu); [cbn; lia|discriminate].
  - exact Hc.
  - exact Hs.
  - lia.
  - by repeat constructor.
  - reflexivity.
  - reflexivity.
  - unfold on_image. change ROOTINO with 1. cbn [length one_file]. lia.
Defined.

