(* ===== verification/Sysfile.v ===== *)
(** The file system calls ([sysfile.c]).

    [sfst] is a process table with the memory of the calling process, as the system
    calls of [Syscall.v] see them, and the file system of [File.v].  The current
    directory, the process id and the [killed] flag that the file system looks up in
    [myproc()] come from the entry [cur] of the process table.  [sys_exec] is in
    [Exec.v]. *)

From S2P Require Import Prelude CString Mem ProcDefs Proc KProc Syscall Bio Log Fs.
From S2P Require Import Queue Sched ProcInv SchedInv Trap Ledger System SystemProps File.
Import Proc Syscall Bio Log Fs File.

Module Sysfile.

Definition O_RDONLY : Z := 0.
Definition O_WRONLY : Z := 1.
Definition O_RDWR : Z := 2.
Definition O_CREATE : Z := 512.

Record sfst (R D : Type) : Type := mksfst { us : ust R; fi : fist D }.
Arguments mksfst {R D} us fi.
Arguments us {R D} s.
Arguments fi {R D} s.

Section sysfile.
Context {R D : Type} `{!ProcOps R} `{!DevOps D}.
Abbreviation S := (M (sfst R D)).
Variable cur : nat.

Definition on_u {A} (m : M (ust R) A) : S A := zoom us (fun u s => mksfst u (fi s)) m.
Definition myproc : S proc := on_u (curproc cur).

(** The file system as the current process sees it. *)
Definition set_me (pid : Z) (b : bst) : bst :=
  mkbst (bufs b) (nexts b) (prevs b) (memdisk b) pid (writes b).
Definition seen_by (p : proc) (x : fist D) : fist D :=
  mkfist (mkfsst (mklst (set_me (p_pid p) (bc (fl (fs x)))) (lg (fl (fs x)))) (icache (fs x)) (fsb (fs x))
            (default NINODE (p_cwd p)) (fdev (fs x)))
    (ftable x) (pipes x) (pages x) (negb (p_killed p =? 0)).
Definition on_f {A} (m : M (fist D) A) : S A :=
  let! p := myproc in
  zoom (fun s => seen_by p (fi s)) (fun x s => mksfst (us s) x) m.
Definition on_fs {A} (m : M (fsst D) A) : S A := on_f (File.on_fs m).
Definition begin_op : S unit := on_f File.begin_op.
Definition end_op : S unit := on_f File.end_op.

Definition set_ofile (fd : nat) (v : option nat) : S unit :=
  on_u (on_k (setp cur (fun p => set_p_ofile (<[fd := v]> (p_ofile p)) p))).
(** The bytes of user memory at [a], and storing bytes there. *)
Definition peek (a n : Z) : S (list Z) := let! s := get in ret (bytes (u_mem (us s)) a (Z.to_nat n)).
Fixpoint store_bytes (a : Z) (l : list Z) (m : mem) : mem :=
  match l with
  | [] => m
  | b :: l => store_bytes (a + 1) l (<[a := b]> m)
  end.
Definition poke (a : Z) (l : list Z) : S unit :=
  on_u (modify (fun u => mkust (u_k u) (store_bytes a l (u_mem u)))).

(** ** Descriptors *)

Definition argfd (n : Z) : S (option (nat * nat)) :=
  let! o := on_u (argint cur n) in
  match o with
  | None => ret None
  | Some fd =>
      if (fd <? 0) || (fd >=? Z.of_nat NOFILE) then ret None else
      let! p := myproc in
      match p_ofile p !! Z.to_nat fd with
      | Some (Some f) => ret (Some (Z.to_nat fd, f))
      | _ => ret None
      end
  end.

Definition fdalloc (f : nat) : S (option nat) :=
  let! p := myproc in
  match first_from (fun o => match o with None => true | Some _ => false end) (p_ofile p) 0 with
  | Some fd => do! set_ofile fd (Some f); ret (Some fd)
  | None => ret None
  end.

Definition fd_result (fd : option nat) : Z := match fd with Some fd => Z.of_nat fd | None => -1 end.

Definition sys_dup : S Z :=
  let! o := argfd 0 in
  match o with
  | None => ret (-1)
  | Some (_, f) =>
      let! fd := fdalloc f in
      match fd with
      | None => ret (-1)
      | Some fd => do! on_f (filedup f); ret (Z.of_nat fd)
      end
  end.

(** The arguments of [sys_read] and [sys_write]: file, buffer and length. *)
Definition rw_args : S (option (nat * Z * Z)) :=
  let! o := argfd 0 in
  match o with
  | None => ret None
  | Some (_, f) =>
      let! n := on_u (argint cur 2) in
      match n with
      | None => ret None
      | Some n =>
          let! p := on_u (argptr cur 1 n) in
          match p with
          | None => ret None
          | Some p => ret (Some (f, p, n))
          end
      end
  end.

Definition sys_read : S Z :=
  let! a := rw_args in
  match a with
  | None => ret (-1)
  | Some (f, p, n) =>
      let! r := on_f (fileread f n) in
      do! poke p r.2;
      ret r.1
  end.

Definition sys_write : S Z :=
  let! a := rw_args in
  match a with
  | None => ret (-1)
  | Some (f, p, n) =>
      let! l := peek p n in
      on_f (filewrite f l n)
  end.

Definition sys_close : S Z :=
  let! o := argfd 0 in
  match o with
  | None => ret (-1)
  | Some (fd, f) =>
      do! set_ofile fd None;
      do! on_f (fileclose f);
      ret 0
  end.

(** [struct stat] in memory: [short type] at 0, [int dev] at 4, [uint ino] at 8, [short nlink] at
    12, [uint size] at 16; [stati] leaves the padding alone. *)
Definition sys_fstat : S Z :=
  let! o := argfd 0 in
  match o with
  | None => ret (-1)
  | Some (_, f) =>
      let! p := on_u (argptr cur 1 20) in
      match p with
      | None => ret (-1)
      | Some st =>
          let! r := on_f (filestat f) in
          match r with
          | None => ret (-1)
          | Some x =>
              do! poke (st + 4) (put32 0 (st_dev x) (replicate 4 0));
              do! poke (st + 8) (put32 0 (st_ino x) (replicate 4 0));
              do! poke st (put16 0 (st_type x) (replicate 2 0));
              do! poke (st + 12) (put16 0 (st_nlink x) (replicate 2 0));
              do! poke (st + 16) (put32 0 (st_size x) (replicate 4 0));
              ret 0
          end
      end
  end.

(** ** Names *)

(** [argstr], the string read from user memory. *)
Definition argpath (n : Z) : S (option (list Z)) :=
  let! o := on_u (argstr cur n) in
  match o with
  | None => ret None
  | Some (a, len) => let! l := peek a len in ret (Some l)
  end.

(** The [bad:] exit of [sys_link]. *)
Definition link_bad (ip : nat) : S Z :=
  do! on_fs (ilock ip);
  do! on_fs (set_ip ip (fun x => set_i_nlink (i16 (i_nlink x - 1)) x));
  do! on_fs (iupdate ip);
  do! on_fs (iunlockput ip);
  do! end_op;
  ret (-1).

Definition sys_link : S Z :=
  let! old := argpath 0 in
  match old with
  | None => ret (-1)
  | Some old =>
  let! new := argpath 1 in
  match new with
  | None => ret (-1)
  | Some new =>
  do! begin_op;
  let! ip := on_fs (namei old) in
  match ip with
  | None => do! end_op; ret (-1)
  | Some ip =>
  do! on_fs (ilock ip);
  let! x := on_fs (get_ip ip) in
  if i_type x =? T_DIR then
    do! on_fs (iunlockput ip); do! end_op; ret (-1)
  else
  do! on_fs (set_ip ip (fun x => set_i_nlink (i16 (i_nlink x + 1)) x));
  do! on_fs (iupdate ip);
  do! on_fs (iunlock ip);
  let! r := on_fs (nameiparent new (replicate DIRSIZ 0)) in
  match r with
  | (None, _) => link_bad ip
  | (Some dp, name) =>
  do! on_fs (ilock dp);
  let! y := on_fs (get_ip dp) in
  let! x := on_fs (get_ip ip) in
  let! bad := (if negb (i_dev y =? i_dev x) then ret true
               else let! r := on_fs (dirlink dp name (i_inum x)) in ret (r <? 0)) in
  if (bad : bool) then do! on_fs (iunlockput dp); link_bad ip
  else
  do! on_fs (iunlockput dp);
  do! on_fs (iput ip);
  do! end_op;
  ret 0
  end end end end.

Fixpoint isdirempty_loop (fuel : nat) (dp : nat) (off : Z) : M (fsst D) bool :=
  match fuel with
  | O => nofuel
  | Datatypes.S fuel =>
      let! x := get_ip dp in
      if negb (off <? i_size x) then ret true else
      let! r := readi dp off (Z.of_nat DIRENT) in
      let '(n, de) := r in
      if negb (n =? Z.of_nat DIRENT) then panic "isdirempty: readi" else
      if negb (de_inum de =? 0) then ret false
      else isdirempty_loop fuel dp (off + Z.of_nat DIRENT)
  end.
Definition isdirempty (dp : nat) : M (fsst D) bool :=
  let! x := get_ip dp in isdirempty_loop (dir_fuel (i_size x)) dp (2 * Z.of_nat DIRENT).

Definition dot : list Z := [46].
Definition dotdot : list Z := [46; 46].

Definition sys_unlink : S Z :=
  let! path := argpath 0 in
  match path with
  | None => ret (-1)
  | Some path =>
  do! begin_op;
  let! r := on_fs (nameiparent path (replicate DIRSIZ 0)) in
  match r with
  | (None, _) => do! end_op; ret (-1)
  | (Some dp, name) =>
  do! on_fs (ilock dp);
  let bad := (do! on_fs (iunlockput dp); do! end_op; ret (-1)) in
  if (namecmp name dot =? 0) || (namecmp name dotdot =? 0) then bad else
  let! r := on_fs (dirlookup dp name) in
  match r with
  | None => bad
  | Some (ip, off) =>
  do! on_fs (ilock ip);
  let! x := on_fs (get_ip ip) in
  if i_nlink x <? 1 then panic "unlink: nlink < 1" else
  let! full := (if i_type x =? T_DIR then let! e := on_fs (isdirempty ip) in ret (negb e) else ret false) in
  if (full : bool) then do! on_fs (iunlockput ip); bad else
  let! w := on_fs (writei dp (replicate DIRENT 0) off (Z.of_nat DIRENT)) in
  if negb (w =? Z.of_nat DIRENT) then panic "unlink: writei" else
  do! when (i_type x =? T_DIR)
    (do! on_fs (set_ip dp (fun y => set_i_nlink (i16 (i_nlink y - 1)) y));
     on_fs (iupdate dp));
  do! on_fs (iunlockput dp);
  do! on_fs (set_ip ip (fun x => set_i_nlink (i16 (i_nlink x - 1)) x));
  do! on_fs (iupdate ip);
  do! on_fs (iunlockput ip);
  do! end_op;
  ret 0
  end end end.

Definition create (path : list Z) (type major minor : Z) : S (option nat) :=
  let! r := on_fs (nameiparent path (replicate DIRSIZ 0)) in
  match r with
  | (None, _) => ret None
  | (Some dp, name) =>
  do! on_fs (ilock dp);
  let! r := on_fs (dirlookup dp name) in
  match r with
  | Some (ip, _) =>
      do! on_fs (iunlockput dp);
      do! on_fs (ilock ip);
      let! x := on_fs (get_ip ip) in
      if (type =? T_FILE) && (i_type x =? T_FILE) then ret (Some ip)
      else do! on_fs (iunlockput ip); ret None
  | None =>
      let! y := on_fs (get_ip dp) in
      let! ip := on_fs (ialloc (i_dev y) type) in
      do! on_fs (ilock ip);
      do! on_fs (set_ip ip (fun x => set_i_dn (i_type x) major minor 1 (i_size x) (i_addrs x) x));
      do! on_fs (iupdate ip);
      do! when (type =? T_DIR)
        (do! on_fs (set_ip dp (fun y => set_i_nlink (i16 (i_nlink y + 1)) y));
         do! on_fs (iupdate dp);
         let! x := on_fs (get_ip ip) in
         let! r1 := on_fs (dirlink ip dot (i_inum x)) in
         if r1 <? 0 then panic "create dots" else
         let! y := on_fs (get_ip dp) in
         let! r2 := on_fs (dirlink ip dotdot (i_inum y)) in
         if r2 <? 0 then panic "create dots" else ret tt);
      let! x := on_fs (get_ip ip) in
      let! r := on_fs (dirlink dp name (i_inum x)) in
      if r <? 0 then panic "create: dirlink" else
      do! on_fs (iunlockput dp);
      ret (Some ip)
  end end.

(** The inode [sys_open] opens, locked. *)
Definition open_inode (path : list Z) (omode : Z) : S (option nat) :=
  if negb (Z.land omode O_CREATE =? 0) then create path T_FILE 0 0
  else
    let! ip := on_fs (namei path) in
    match ip with
    | None => ret None
    | Some ip =>
        do! on_fs (ilock ip);
        let! x := on_fs (get_ip ip) in
        if (i_type x =? T_DIR) && negb (omode =? O_RDONLY) then do! on_fs (iunlockput ip); ret None
        else ret (Some ip)
    end.

Definition c_bool (b : bool) : Z := if b then 1 else 0.

Definition sys_open : S Z :=
  let! path := argpath 0 in
  match path with
  | None => ret (-1)
  | Some path =>
  let! omode := on_u (argint cur 1) in
  match omode with
  | None => ret (-1)
  | Some omode =>
  do! begin_op;
  let! ip := open_inode path omode in
  match ip with
  | None => do! end_op; ret (-1)
  | Some ip =>
  let! f := on_f filealloc in
  match f with
  | None => do! on_fs (iunlockput ip); do! end_op; ret (-1)
  | Some f =>
  let! fd := fdalloc f in
  match fd with
  | None => do! on_f (fileclose f); do! on_fs (iunlockput ip); do! end_op; ret (-1)
  | Some fd =>
  do! on_fs (iunlock ip);
  do! end_op;
  do! on_f (set_file f (set_f_inode (c_bool (Z.land omode O_WRONLY =? 0))
        (c_bool (negb (Z.land omode O_WRONLY =? 0) || negb (Z.land omode O_RDWR =? 0))) ip));
  ret (Z.of_nat fd)
  end end end end end.

Definition sys_mkdir : S Z :=
  do! begin_op;
  let! path := argpath 0 in
  let! ip := (match path with None => ret None | Some path => create path T_DIR 0 0 end) in
  match ip with
  | None => do! end_op; ret (-1)
  | Some ip => do! on_fs (iunlockput ip); do! end_op; ret 0
  end.

Definition sys_mknod : S Z :=
  do! begin_op;
  let! path := argpath 0 in
  let! ip := (match path with
    | None => ret None
    | Some path =>
        let! major := on_u (argint cur 1) in
        match major with
        | None => ret None
        | Some major =>
            let! minor := on_u (argint cur 2) in
            match minor with
            | None => ret None
            | Some minor => create path T_DEV (i16 major) (i16 minor)
            end
        end
    end) in
  match ip with
  | None => do! end_op; ret (-1)
  | Some ip => do! on_fs (iunlockput ip); do! end_op; ret 0
  end.

Definition sys_chdir : S Z :=
  do! begin_op;
  let! path := argpath 0 in
  let! ip := (match path with None => ret None | Some path => on_fs (namei path) end) in
  match ip with
  | None => do! end_op; ret (-1)
  | Some ip =>
  do! on_fs (ilock ip);
  let! x := on_fs (get_ip ip) in
  if negb (i_type x =? T_DIR) then do! on_fs (iunlockput ip); do! end_op; ret (-1) else
  do! on_fs (iunlock ip);
  let! p := myproc in
  do! on_fs (iput (default NINODE (p_cwd p)));
  do! end_op;
  do! on_u (on_k (setp cur (set_p_cwd (Some ip))));
  ret 0
  end.

Definition sys_pipe : S Z :=
  let! fd := on_u (argptr cur 0 8) in
  match fd with
  | None => ret (-1)
  | Some fd =>
  let! r := on_f pipealloc in
  match r with
  | None => ret (-1)
  | Some (rf, wf) =>
  let! fd0 := fdalloc rf in
  match fd0 with
  | None => do! on_f (fileclose rf); do! on_f (fileclose wf); ret (-1)
  | Some fd0 =>
  let! fd1 := fdalloc wf in
  match fd1 with
  | None =>
      do! set_ofile fd0 None;
      do! on_f (fileclose rf); do! on_f (fileclose wf); ret (-1)
  | Some fd1 =>
      do! on_u (store_word fd (Z.of_nat fd0));
      do! on_u (store_word (fd + 4) (Z.of_nat fd1));
      ret 0
  end end end end.

End sysfile.
End Sysfile.
