(* ===== verification/Kalloc.v ===== *)
(** The physical page allocator ([kalloc.c]).

    [kmst] is memory, by kernel virtual address, with [kmem].  The free pages are a
    linked list through their first words, in that memory.  [kend] is the linker's
    symbol [end].  The spin lock is taken around the list operations, which are one
    step each here. *)

From stdpp Require Import functions.
From S2P Require Import Prelude CString Mem.

Module Kalloc.

Definition EXTMEM : Z := 0x100000.
Definition PHYSTOP : Z := 0xE000000.
Definition DEVSPACE : Z := 0xFE000000.
Definition KERNLINK : Z := KERNBASE + EXTMEM.

Record kmst : Type := mkkmst { km : mem; freelist : Z; use_lock : Z }.

Abbreviation K := (M kmst).

Definition load (a : Z) : K Z := gets (fun s => load32 (km s) a).
Definition store (a v : Z) : K unit := modify (fun s => mkkmst (store32 a v (km s)) (freelist s) (use_lock s)).
Definition on_mem (f : mem -> mem) : K unit := modify (fun s => mkkmst (f (km s)) (freelist s) (use_lock s)).
Definition set_freelist (v : Z) : K unit := modify (fun s => mkkmst (km s) v (use_lock s)).
Definition set_use_lock (v : Z) : K unit := modify (fun s => mkkmst (km s) (freelist s) v).

Section kalloc.
Variable kend : Z.

Definition kfree (v : Z) : K unit :=
  if negb (v mod PGSIZE =? 0) || (v <? kend) || (V2P v >=? PHYSTOP) then panic "kfree" else
  do! on_mem (CString.memset v 1 PGSIZE);
  let! f := gets freelist in
  do! store v f;
  set_freelist v.

(** 0 when there is no page. *)
Definition kalloc : K Z :=
  let! r := gets freelist in
  do! when (negb (r =? 0)) (let! n := load r in set_freelist n);
  ret r.

Fixpoint freerange_loop (fuel : nat) (p vend : Z) : K unit :=
  match fuel with
  | O => nofuel
  | S fuel =>
      if u32 (p + PGSIZE) <=? vend then do! kfree p; freerange_loop fuel (u32 (p + PGSIZE)) vend
      else ret tt
  end.
Definition freerange (vstart vend : Z) : K unit :=
  let p := PGROUNDUP vstart in freerange_loop (S (Z.to_nat ((vend - p) / PGSIZE))) p vend.

Definition kinit1 (vstart vend : Z) : K unit :=
  do! set_use_lock 0;
  freerange vstart vend.
Definition kinit2 (vstart vend : Z) : K unit :=
  do! freerange vstart vend;
  set_use_lock 1.
End kalloc.

End Kalloc.
