(* ===== verification/KallocSpec.v ===== *)
(** The page allocator refined to a free set of pages.

    [ow] says who owns each physical page: nobody ([Free]), a page directory, one of its
    page tables, or one page of its user memory.  It is ghost state: the code keeps the
    free list only.  [kr] says that the list runs through exactly the free pages, each
    once.  A write to a page that is not free cannot break the list. *)

From stdpp Require Import functions.
From S2P Require Import Prelude CString Mem Kalloc.
Import Kalloc.

(** The owner of a page; address spaces are named by their page directory. *)
Inductive owner := Free | Dir (d : Z) | Tab (d i : Z) | User (d vp : Z) | Other.
#[export] Instance owner_eq_dec : EqDecision owner.
Proof. solve_decision. Defined.

Implicit Types (m : mem) (p a : Z) (fr : list Z) (ow : Z -> owner) (s : kmst).

(** ** Pages *)

Definition samepage p m m' : Prop := forall a, p <= a < p + PGSIZE -> m' a = m a.

Section pages.
Variable kend : Z.

Record kpage p : Prop := {
  kp_al : p mod PGSIZE = 0;
  kp_lo : kend <= p;
  kp_base : KERNBASE <= p;
  kp_hi : p < KERNBASE + PHYSTOP
}.

Lemma kpage_disjoint p p' : kpage p -> kpage p' -> p <> p' -> p + PGSIZE <= p' \/ p' + PGSIZE <= p.
Proof.
  intros [H1 _ _ _] [H2 _ _ _] Hne. unfold PGSIZE in *. pose proof (Z.div_mod p 4096). pose proof (Z.div_mod p' 4096). lia.
Qed.
Lemma kpage_pos p : kpage p -> 0 < p /\ p + PGSIZE < 2 ^ 32.
Proof. intros [_ _ H1 H2]. unfold PGSIZE, KERNBASE, PHYSTOP in *. lia. Qed.
Lemma kpage_V2P p : kpage p -> V2P p = p - KERNBASE /\ 0 <= V2P p < PHYSTOP /\ V2P p mod PGSIZE = 0 /\ P2V (V2P p) = p.
Proof.
  intros [H1 _ H2 H3]. assert (V2P p = p - KERNBASE) as He by (unfold V2P; apply u32_small; unfold KERNBASE, PHYSTOP in *; lia).
  rewrite He. split_and!; try lia.
  - rewrite Zminus_mod, H1. done.
  - unfold P2V. rewrite u32_small; unfold KERNBASE, PHYSTOP in *; lia.
Qed.

Lemma samepage_refl p m : samepage p m m.
Proof. done. Qed.
Lemma samepage_trans p m1 m2 m3 : samepage p m1 m2 -> samepage p m2 m3 -> samepage p m1 m3.
Proof. intros H1 H2 a Ha. rewrite H2, H1; done. Qed.
Lemma samepage_load p m m' o : samepage p m m' -> 0 <= o -> o + 4 <= PGSIZE -> load32 m' (p + o) = load32 m (p + o).
Proof. intros H H0 H1. apply load32_ext. intros i Hi. apply H. lia. Qed.

(** Writes inside one page. *)
Definition inside p m m' : Prop := forall a, ~ (p <= a < p + PGSIZE) -> m' a = m a.
Lemma inside_other p p' m m' : kpage p -> kpage p' -> p <> p' -> inside p m m' -> samepage p' m m'.
Proof. intros Hp Hp' Hne H a Ha. apply H. destruct (kpage_disjoint p p' Hp Hp' Hne); lia. Qed.
Lemma inside_store p o v m : 0 <= o -> o + 4 <= PGSIZE -> inside p m (store32 (p + o) v m).
Proof. intros H0 H1 a Ha. apply store32_other. lia. Qed.
Lemma inside_memset p c m : inside p m (CString.memset p c PGSIZE m).
Proof. intros a Ha. rewrite memset_spec by (unfold PGSIZE; lia). by rewrite decide_False. Qed.
Lemma inside_trans p m1 m2 m3 : inside p m1 m2 -> inside p m2 m3 -> inside p m1 m3.
Proof. intros H1 H2 a Ha. rewrite H2, H1; done. Qed.

(** ** The free list *)

Fixpoint runs m p fr : Prop :=
  match fr with
  | [] => p = 0
  | r :: fr => p = r /\ runs m (load32 m r) fr
  end.

Record kr ow s fr : Prop := {
  kr_runs : runs (km s) (freelist s) fr;
  kr_nodup : NoDup fr;
  kr_free : forall p, p ∈ fr <-> kpage p /\ ow p = Free
}.

Lemma runs_frame m m' p fr : (forall r, r ∈ fr -> samepage r m m') -> runs m p fr -> runs m' p fr.
Proof.
  revert p. induction fr as [|r fr IH]; intros p Hs; cbn; [done|]. intros [-> Hr]. split; [done|].
  rewrite (load32_ext m' m) by (intros i Hi; apply (Hs r); [set_solver|unfold PGSIZE; lia]). apply IH; [|done]. intros r' Hr'. apply Hs. set_solver.
Qed.

(** Memory outside the free pages changes. *)
Lemma kr_mem ow s fr m' : kr ow s fr -> (forall p, kpage p -> ow p = Free -> samepage p (km s) m') ->
  kr ow (mkkmst m' (freelist s) (use_lock s)) fr.
Proof.
  intros [Hr Hn Hf] Hm. constructor; try done. cbn. eapply runs_frame; [|exact Hr]. intros r Hr'. apply Hf in Hr' as [? ?]. by apply Hm.
Qed.
Lemma kr_inside ow s fr p m' : kr ow s fr -> kpage p -> ow p <> Free -> inside p (km s) m' ->
  kr ow (mkkmst m' (freelist s) (use_lock s)) fr.
Proof. intros H Hp Hne Hi. apply (kr_mem _ _ _ _ H). intros p' Hp' Hf. eapply (inside_other p); try done. congruence. Qed.

Lemma kalloc_spec ow s fr : kr ow s fr ->
  wp kalloc (fun r s' => match fr with
    | [] => r = 0 /\ s' = s
    | p :: fr' => r = p /\ kpage p /\ ow p = Free /\ r <> 0 /\ km s' = km s /\ forall o, o <> Free -> kr (<[p := o]> ow) s' fr'
    end) s.
Proof.
  intros [Hr Hn Hf]. unfold kalloc, load, set_freelist. wp_steps. destruct fr as [|p fr]; cbn in Hr.
  - rewrite Hr. cbn. by wp_steps.
  - destruct Hr as [Hp Hr]. assert (kpage p /\ ow p = Free) as [Hk Ho] by (apply Hf; set_solver).
    pose proof (kpage_pos p Hk). rewrite Hp. destruct (Z.eqb_spec p 0); [lia|]. cbn [negb when]. wp_steps. split_and!; try done.
    intros o Hne. apply NoDup_cons in Hn as [Hnp Hn]. constructor; [done|done|]. intros p'. destruct (decide (p = p')) as [<-|Hpp].
    + rewrite fn_lookup_insert. naive_solver.
    + rewrite fn_lookup_insert_ne by done. rewrite <- Hf. set_solver.
Qed.

Lemma kfree_spec ow s fr v : kr ow s fr -> kpage v -> ow v <> Free ->
  wp (kfree kend v) (fun _ s' => kr (<[v := Free]> ow) s' (v :: fr) /\ inside v (km s) (km s')) s.
Proof.
  intros H Hv Ho. pose proof Hv as [H1 H2 H3 H4]. destruct (kpage_V2P v Hv) as (Hvp & Hrange & _). unfold kfree, on_mem, store, set_freelist.
  rewrite H1. destruct (v <? kend) eqn:E1; zb; [lia|]. destruct (V2P v >=? PHYSTOP) eqn:E2; zb; [lia|]. cbn [negb orb Z.eqb]. wp_steps. cbn [km freelist].
  set (m' := store32 v (freelist s) (CString.memset v 1 PGSIZE (km s))).
  assert (inside v (km s) m') as Hin.
  { intros a Ha. unfold m'. rewrite store32_other by (unfold PGSIZE in *; lia). by apply inside_memset. }
  split; [|done]. pose proof (kr_inside _ _ _ _ _ H Hv Ho Hin) as [Hr Hn Hf]. cbn [km freelist] in Hr. constructor; cbn [km freelist].
  - split; [done|]. assert (load32 m' v = u32 (freelist s)) as -> by apply load32_store32. destruct fr as [|r fr]; cbn in Hr.
    + by rewrite Hr.
    + assert (kpage r) as Hk by (apply Hf; set_solver). pose proof (kpage_pos r Hk). destruct Hr as [Hr ?]. rewrite Hr, u32_small by (unfold PGSIZE in *; lia). done.
  - apply NoDup_cons. split; [|done]. rewrite Hf. naive_solver.
  - intros p. destruct (decide (v = p)) as [<-|Hne].
    + rewrite fn_lookup_insert. split; [done|]. intros _. set_solver.
    + rewrite fn_lookup_insert_ne by done. rewrite <- Hf. set_solver.
Qed.

Lemma kr_ext ow ow' s fr : kr ow s fr -> (forall p, kpage p -> ow p = Free <-> ow' p = Free) -> kr ow' s fr.
Proof. intros [Hr Hn Hf] He. constructor; [done|done|]. intros p. rewrite Hf. naive_solver. Qed.

(** The pages of a range become free, those that fit it entirely. *)
Definition release (lo hi : Z) ow : Z -> owner := fun p => if decide (lo <= p /\ p + PGSIZE <= hi) then Free else ow p.

Lemma freerange_loop_spec fuel ow s fr p hi :
  kr ow s fr -> p mod PGSIZE = 0 -> kend <= p -> KERNBASE <= p -> hi <= KERNBASE + PHYSTOP ->
  (forall r, kpage r -> p <= r -> r + PGSIZE <= hi -> ow r <> Free) -> (0 < fuel)%nat -> (hi - p) / PGSIZE < Z.of_nat fuel -> 0 <= hi -> p < 2 ^ 32 - PGSIZE ->
  wp (freerange_loop kend fuel p hi) (fun _ s' => exists fr', kr (release p hi ow) s' fr' /\
    forall a, ~ (p <= a < hi) -> km s' a = km s a) s.
Proof.
  revert ow s fr p. induction fuel as [|fuel IH]; intros ow s fr p H Hal Hlo Hb Hhi Hown Hf0 Hf H0 Hp; [lia|].
  assert (PGSIZE = 4096) as HP by done. assert (KERNBASE = 2147483648) as HK by done. assert (PHYSTOP = 234881024) as HS by done.
  cbn [freerange_loop]. rewrite u32_small by lia. destruct (p + PGSIZE <=? hi) eqn:E; zb.
  - assert (kpage p) as Hk by (constructor; try done; lia). rewrite wp_bind.
    assert ((hi - (p + PGSIZE)) / PGSIZE = (hi - p) / PGSIZE - 1) as Hq by (replace (hi - (p + PGSIZE)) with (hi - p + (-1) * PGSIZE) by lia; rewrite Z.div_add by lia; lia).
    assert (1 <= (hi - p) / PGSIZE) as Hq1 by (apply Z.div_le_lower_bound; lia).
    eapply wp_mono; [apply (kfree_spec ow s fr p H Hk); apply Hown; [done|lia|lia]|]. cbn beta. intros [] s1 [H1 Hin].
    eapply wp_mono; [eapply (IH (<[p := Free]> ow) s1 (p :: fr) (p + PGSIZE) H1); try done; try lia|].
    + rewrite <- Z.add_mod_idemp_r, Z.mod_same, Z.add_0_r by lia. done.
    + intros r Hr H2 H3. rewrite fn_lookup_insert_ne by lia. apply Hown; [done|lia|lia].
    + cbn beta. intros [] s2 (fr' & H2 & Hm). exists fr'. split.
      * eapply kr_ext; [exact H2|]. intros r Hr. unfold release. destruct (decide (p = r)) as [<-|Hne].
        { rewrite fn_lookup_insert. rewrite (decide_True (P := p <= p /\ _)) by lia. by case_decide. }
        rewrite fn_lookup_insert_ne by done. destruct (kpage_disjoint p r Hk Hr Hne); repeat case_decide; try done; lia.
      * intros a Ha. rewrite Hm by lia. apply Hin. lia.
  - rewrite wp_ret. exists fr. split; [|done]. eapply kr_ext; [exact H|]. intros r Hr. unfold release. case_decide; [lia|done].
Qed.

Lemma freerange_spec ow s fr lo hi :
  kr ow s fr -> kend <= lo -> KERNBASE <= lo -> lo <= KERNBASE + PHYSTOP -> 0 <= hi <= KERNBASE + PHYSTOP ->
  (forall r, kpage r -> lo <= r -> r + PGSIZE <= hi -> ow r <> Free) ->
  wp (freerange kend lo hi) (fun _ s' => exists fr', kr (release (PGROUNDUP lo) hi ow) s' fr' /\
    forall a, ~ (lo <= a < hi) -> km s' a = km s a) s.
Proof.
  intros H Hlo Hb Ht Hhi Hown. assert (PGSIZE = 4096) as HP by done. assert (KERNBASE = 2147483648) as HK by done. assert (PHYSTOP = 234881024) as HS by done.
  unfold freerange. cbv zeta. rewrite PGROUNDUP_eq by lia. pose proof (Z.div_mod (lo + PGSIZE - 1) PGSIZE). pose proof (Z.mod_pos_bound (lo + PGSIZE - 1) PGSIZE).
  set (p := lo + PGSIZE - 1 - (lo + PGSIZE - 1) mod PGSIZE) in *. assert (lo <= p < lo + PGSIZE) as Hp by lia.
  eapply wp_mono; [apply (freerange_loop_spec _ ow s fr p hi H); try lia|].
  - replace p with ((lo + PGSIZE - 1) / PGSIZE * PGSIZE) by lia. apply Z.mod_mul. lia.
  - intros r Hr Hr1 Hr2. apply Hown; [done|lia|lia].
  - cbn beta. intros [] s' (fr' & Hk & Hm). exists fr'. split; [done|]. intros a Ha. apply Hm. lia.
Qed.
End pages.
