(* ===== verification/Vm.v ===== *)
(** Page tables and user address spaces ([vm.c]).

    Page directories and page tables are pages of the memory of [Kalloc.v], walked word by
    word as the code does; a pointer is its address and 0 is null.  [kdata] is the
    linker's symbol [data].  [cprintf] of the out-of-memory messages is left out. *)

From S2P Require Import Prelude CString Mem Kalloc.
Import Kalloc.

Module Vm.

Definition PTXSHIFT : Z := 12.
Definition PDXSHIFT : Z := 22.
Definition PDX (va : Z) : Z := Z.land (Z.shiftr va PDXSHIFT) 0x3FF.
Definition PTX (va : Z) : Z := Z.land (Z.shiftr va PTXSHIFT) 0x3FF.
Definition PGADDR (d t o : Z) : Z := u32 (Z.lor (Z.lor (Z.shiftl d PDXSHIFT) (Z.shiftl t PTXSHIFT)) o).
Definition NPDENTRIES : nat := 1024.
Definition PTE_P : Z := 1.
Definition PTE_W : Z := 2.
Definition PTE_U : Z := 4.
Definition PTE_ADDR (pte : Z) : Z := Z.land pte (Z.lnot 0xFFF).
Definition PTE_FLAGS (pte : Z) : Z := Z.land pte 0xFFF.

(** A [PTE_*] bit of an entry. *)
Definition flag (pte f : Z) : bool := negb (Z.land pte f =? 0).

(** [struct kmap] *)
Record kmap_ent : Type := mkkmap { virt : Z; phys_start : Z; phys_end : Z; perm : Z }.

Section vm.
Variables kend kdata : Z.

Definition kmap : list kmap_ent :=
  [ mkkmap KERNBASE 0 EXTMEM PTE_W;
    mkkmap KERNLINK (V2P KERNLINK) (V2P kdata) 0;
    mkkmap kdata (V2P kdata) PHYSTOP PTE_W;
    mkkmap DEVSPACE DEVSPACE 0 PTE_W ].

Definition walkpgdir (pgdir va : Z) (alloc : bool) : K Z :=
  let pde := pgdir + 4 * PDX va in
  let! e := load pde in
  if flag e PTE_P then ret (P2V (PTE_ADDR e) + 4 * PTX va)
  else if negb alloc then ret 0
  else
    let! pgtab := kalloc in
    if pgtab =? 0 then ret 0 else
    do! on_mem (CString.memset pgtab 0 PGSIZE);
    do! store pde (Z.lor (Z.lor (Z.lor (V2P pgtab) PTE_P) PTE_W) PTE_U);
    ret (pgtab + 4 * PTX va).

Fixpoint mappages_loop (fuel : nat) (pgdir a last pa perm : Z) : K Z :=
  match fuel with
  | O => nofuel
  | S fuel =>
      let! pte := walkpgdir pgdir a true in
      if pte =? 0 then ret (-1) else
      let! e := load pte in
      if flag e PTE_P then panic "remap" else
      do! store pte (Z.lor (Z.lor pa perm) PTE_P);
      if a =? last then ret 0
      else mappages_loop fuel pgdir (u32 (a + PGSIZE)) last (u32 (pa + PGSIZE)) perm
  end.

(** [last] is [a] plus a whole number of pages, modulo 2^32. *)
Definition mappages (pgdir va size pa perm : Z) : K Z :=
  let a := PGROUNDDOWN va in
  let last := PGROUNDDOWN (u32 (va + size - 1)) in
  mappages_loop (S (Z.to_nat (u32 (last - a) / PGSIZE))) pgdir a last pa perm.

Fixpoint deallocuvm_loop (fuel : nat) (pgdir a oldsz : Z) : K unit :=
  match fuel with
  | O => nofuel
  | S fuel =>
      if negb (a <? oldsz) then ret tt else
      let! pte := walkpgdir pgdir a false in
      if pte =? 0 then
        let a := u32 (PGADDR (PDX a + 1) 0 0 - PGSIZE) in
        deallocuvm_loop fuel pgdir (u32 (a + PGSIZE)) oldsz
      else
        let! e := load pte in
        do! when (flag e PTE_P)
          (let pa := PTE_ADDR e in
           if pa =? 0 then panic "kfree" else
           do! kfree kend (P2V pa);
           store pte 0);
        deallocuvm_loop fuel pgdir (u32 (a + PGSIZE)) oldsz
  end.

Definition deallocuvm (pgdir oldsz newsz : Z) : K Z :=
  if newsz >=? oldsz then ret (i32 oldsz) else
  do! deallocuvm_loop (S (S (Z.to_nat (oldsz / PGSIZE)))) pgdir (PGROUNDUP newsz) oldsz;
  ret (i32 newsz).

Definition freevm (pgdir : Z) : K unit :=
  if pgdir =? 0 then panic "freevm: no pgdir" else
  do! deallocuvm pgdir KERNBASE 0;
  do! for_each (seq 0 NPDENTRIES) (fun i =>
    let! e := load (pgdir + 4 * Z.of_nat i) in
    when (flag e PTE_P) (kfree kend (P2V (PTE_ADDR e))));
  kfree kend pgdir.

(** The loop over [kmap]: whether every mapping could be made. *)
Fixpoint setupkvm_loop (pgdir : Z) (l : list kmap_ent) : K bool :=
  match l with
  | [] => ret true
  | k :: l =>
      let! r := mappages pgdir (virt k) (u32 (phys_end k - phys_start k)) (phys_start k) (perm k) in
      if r <? 0 then ret false else setupkvm_loop pgdir l
  end.

Definition setupkvm : K Z :=
  let! pgdir := kalloc in
  if pgdir =? 0 then ret 0 else
  do! on_mem (CString.memset pgdir 0 PGSIZE);
  if P2V PHYSTOP >? DEVSPACE then panic "PHYSTOP too high" else
  let! ok := setupkvm_loop pgdir kmap in
  if (ok : bool) then ret pgdir else do! freevm pgdir; ret 0.

(** [kalloc] is not tested for null: clearing the page at address 0 is a fault. *)
Definition inituvm (pgdir init sz : Z) : K unit :=
  if sz >=? PGSIZE then panic "inituvm: more than a page" else
  let! m := kalloc in
  if m =? 0 then fault else
  do! on_mem (CString.memset m 0 PGSIZE);
  do! mappages pgdir 0 PGSIZE (V2P m) (Z.lor PTE_W PTE_U);
  on_mem (CString.memmove m init sz).

Fixpoint allocuvm_loop (fuel : nat) (pgdir a oldsz newsz : Z) : K Z :=
  match fuel with
  | O => nofuel
  | S fuel =>
      if negb (a <? newsz) then ret (i32 newsz) else
      let! m := kalloc in
      if m =? 0 then do! deallocuvm pgdir newsz oldsz; ret 0 else
      do! on_mem (CString.memset m 0 PGSIZE);
      let! r := mappages pgdir a PGSIZE (V2P m) (Z.lor PTE_W PTE_U) in
      if r <? 0 then do! deallocuvm pgdir newsz oldsz; do! kfree kend m; ret 0
      else allocuvm_loop fuel pgdir (u32 (a + PGSIZE)) oldsz newsz
  end.

Definition allocuvm (pgdir oldsz newsz : Z) : K Z :=
  if newsz >=? KERNBASE then ret 0 else
  if newsz <? oldsz then ret (i32 oldsz) else
  allocuvm_loop (S (Z.to_nat (newsz / PGSIZE)) + 1) pgdir (PGROUNDUP oldsz) oldsz newsz.

Definition clearpteu (pgdir uva : Z) : K unit :=
  let! pte := walkpgdir pgdir uva false in
  if pte =? 0 then panic "clearpteu" else
  let! e := load pte in
  store pte (Z.land e (Z.lnot PTE_U)).

(** The loop of [copyuvm]: whether every page could be copied. *)
Fixpoint copyuvm_loop (fuel : nat) (pgdir d i sz : Z) : K bool :=
  match fuel with
  | O => nofuel
  | S fuel =>
      if negb (i <? sz) then ret true else
      let! pte := walkpgdir pgdir i false in
      if pte =? 0 then panic "copyuvm: pte should exist" else
      let! e := load pte in
      if negb (flag e PTE_P) then panic "copyuvm: page not present" else
      let pa := PTE_ADDR e in
      let flags := PTE_FLAGS e in
      let! m := kalloc in
      if m =? 0 then ret false else
      do! on_mem (CString.memmove m (P2V pa) PGSIZE);
      let! r := mappages d i PGSIZE (V2P m) flags in
      if r <? 0 then do! kfree kend m; ret false
      else copyuvm_loop fuel pgdir d (u32 (i + PGSIZE)) sz
  end.

Definition copyuvm (pgdir sz : Z) : K Z :=
  let! d := setupkvm in
  if d =? 0 then ret 0 else
  let! ok := copyuvm_loop (S (Z.to_nat (sz / PGSIZE)) + 1) pgdir d 0 sz in
  if (ok : bool) then ret d else do! freevm d; ret 0.

(** The entry is read without a test for a null [pte]. *)
Definition uva2ka (pgdir uva : Z) : K Z :=
  let! pte := walkpgdir pgdir uva false in
  if pte =? 0 then fault else
  let! e := load pte in
  if negb (flag e PTE_P) then ret 0
  else if negb (flag e PTE_U) then ret 0
  else ret (P2V (PTE_ADDR e)).

(** The bytes copied are given as a list: [p] points to a kernel buffer. *)
Fixpoint put_bytes (a : Z) (l : list Z) (m : mem) : mem :=
  match l with
  | [] => m
  | b :: l => put_bytes (a + 1) l (<[a := b]> m)
  end.

Fixpoint copyout_loop (fuel : nat) (pgdir va : Z) (buf : list Z) : K Z :=
  match fuel with
  | O => nofuel
  | S fuel =>
      match buf with
      | [] => ret 0
      | _ =>
          let va0 := PGROUNDDOWN va in
          let! pa0 := uva2ka pgdir va0 in
          if pa0 =? 0 then ret (-1) else
          let n := Z.min (PGSIZE - (va - va0)) (Z.of_nat (length buf)) in
          do! on_mem (put_bytes (pa0 + (va - va0)) (take (Z.to_nat n) buf));
          copyout_loop fuel pgdir (u32 (va0 + PGSIZE)) (drop (Z.to_nat n) buf)
      end
  end.
Definition copyout (pgdir va : Z) (buf : list Z) : K Z :=
  copyout_loop (S (S (Z.to_nat (Z.of_nat (length buf) / PGSIZE))) + 1) pgdir va buf.

(** ** Segments and the page table register *)

Record segdesc : Type := mkseg {
  lim_15_0 : Z; base_15_0 : Z; base_23_16 : Z; sd_type : Z; sd_s : Z; sd_dpl : Z; sd_p : Z;
  lim_19_16 : Z; sd_db : Z; sd_g : Z; base_31_24 : Z
}.
Definition SEG (type base lim dpl : Z) : segdesc :=
  mkseg (Z.land (Z.shiftr lim 12) 0xffff) (Z.land base 0xffff) (Z.land (Z.shiftr base 16) 0xff) type 1 dpl 1
    (Z.shiftr lim 28) 1 1 (Z.shiftr base 24).
Definition SEG16 (type base lim dpl : Z) : segdesc :=
  mkseg (Z.land lim 0xffff) (Z.land base 0xffff) (Z.land (Z.shiftr base 16) 0xff) type 1 dpl 1
    (Z.shiftr lim 16) 1 0 (Z.shiftr base 24).

(** What [seginit] and [switchuvm] set of a CPU: the segment table, three fields of the
    task state and the page table register; [ts] is the address of the task state. *)
Record cpuhw : Type := mkcpuhw {
  gdt : list segdesc;
  ts_esp0 : Z;
  ts_ss0 : Z;
  ts_iomb : Z;
  cr3 : Z
}.
Definition seg0 : segdesc := mkseg 0 0 0 0 0 0 0 0 0 0 0.

Definition seginit : M cpuhw unit :=
  modify (fun c =>
    mkcpuhw (<[4%nat := SEG 2 0 0xffffffff 3]> (<[3%nat := SEG (Z.lor 8 2) 0 0xffffffff 3]>
      (<[2%nat := SEG 2 0 0xffffffff 0]> (<[1%nat := SEG (Z.lor 8 2) 0 0xffffffff 0]> (gdt c)))))
      (ts_esp0 c) (ts_ss0 c) (ts_iomb c) (cr3 c)).

Definition switchkvm (kpgdir : Z) : M cpuhw unit :=
  modify (fun c => mkcpuhw (gdt c) (ts_esp0 c) (ts_ss0 c) (ts_iomb c) (V2P kpgdir)).

(** [sizeof(struct taskstate)] is 104. *)
Definition switchuvm (ts : Z) (p : option (Z * Z)) : M cpuhw unit :=
  match p with
  | None => panic "switchuvm: no process"
  | Some (kstack, pgdir) =>
      if kstack =? 0 then panic "switchuvm: no kstack" else
      if pgdir =? 0 then panic "switchuvm: no pgdir" else
      modify (fun c =>
        let tss := SEG16 9 ts 103 0 in
        let tss := mkseg (lim_15_0 tss) (base_15_0 tss) (base_23_16 tss) (sd_type tss) 0 (sd_dpl tss) (sd_p tss)
                     (lim_19_16 tss) (sd_db tss) (sd_g tss) (base_31_24 tss) in
        mkcpuhw (<[5%nat := tss]> (gdt c)) (u32 (kstack + 4096)) (Z.shiftl 2 3) 0xFFFF (V2P pgdir))
  end.

(** The kernel page table of the machine; its address goes to [kpgdir]. *)
Definition kvmalloc : M (kmst * Z * cpuhw) unit :=
  let! pg := zoom (fun s => s.1.1) (fun k s => (k, s.1.2, s.2)) setupkvm in
  do! modify (fun s => (s.1.1, pg, s.2));
  zoom snd (fun c s => (s.1, c)) (switchkvm pg).

End vm.
End Vm.
