(* ===== verification/VmSpec.v ===== *)
(** Page tables as maps from page numbers to entries.

    [tabs] gives the page table of each directory entry, [pte] the entry of a page
    number, 0 where there is no table.  [pt] says that the directory at [d] and the
    tables are laid out in memory so.  [chg] is the frame: an operation on one address space
    changes its own pages and takes free ones, and no others. *)

From stdpp Require Import functions gmap.
From S2P Require Import Prelude CString Mem Kalloc KallocSpec Vm.
Import Kalloc Vm.

Implicit Types (m : mem) (p va vp d : Z) (fr : list Z) (ow : Z -> owner) (s : kmst) (tabs : gmap Z Z).

(** ** Bits of entries *)

Lemma PDX_eq va : 0 <= va < 2 ^ 32 -> PDX va = va / PGSIZE / 1024.
Proof.
  intros Hv. unfold PDX, PDXSHIFT, PGSIZE. change 0x3FF with (Z.ones 10). rewrite Z.land_ones, Z.shiftr_div_pow2 by lia.
  rewrite Z.div_div by lia. apply Z.mod_small. split; [apply Z.div_pos; lia|]. apply Z.div_lt_upper_bound; lia.
Qed.
Lemma PTX_eq va : 0 <= va -> PTX va = (va / PGSIZE) mod 1024.
Proof.
  intros Hv. unfold PTX, PTXSHIFT, PGSIZE. change 0x3FF with (Z.ones 10). by rewrite Z.land_ones, Z.shiftr_div_pow2 by lia.
Qed.

Lemma lor_flags a f : a mod PGSIZE = 0 -> 0 <= f < PGSIZE -> Z.lor a f = a + f.
Proof.
  intros Ha Hf. rewrite <- Z.lxor_lor, Z.add_nocarry_lxor; [done|..]; apply Z.bits_inj'; intros j Hj; rewrite Z.land_spec, Z.bits_0.
  all: destruct (decide (j < 12)).
  all: try (assert (Z.testbit a j = false) as -> by (rewrite <- (Z.mod_pow2_bits_low a 12 j) by lia; change (2 ^ 12) with PGSIZE; by rewrite Ha, Z.bits_0); done).
  all: assert (Z.testbit f j = false) as -> by (rewrite <- (Z.mod_small f PGSIZE) by done; apply (Z.mod_pow2_bits_high f 12); lia); apply andb_false_r.
Qed.

Lemma PTE_ADDR_flags a f : a mod PGSIZE = 0 -> 0 <= f < PGSIZE -> PTE_ADDR (a + f) = a.
Proof.
  intros Ha Hf. unfold PTE_ADDR. change 0xFFF with (2 ^ 12 - 1). rewrite land_lnot_pow2 by lia. change (2 ^ 12) with PGSIZE.
  rewrite Z.add_mod, Ha, Z.add_0_l, Z.mod_mod, (Z.mod_small f) by (unfold PGSIZE in *; lia). lia.
Qed.
Lemma PTE_FLAGS_flags a f : a mod PGSIZE = 0 -> 0 <= f < PGSIZE -> PTE_FLAGS (a + f) = f.
Proof.
  intros Ha Hf. unfold PTE_FLAGS. change 0xFFF with (Z.ones 12). rewrite Z.land_ones by lia. change (2 ^ 12) with PGSIZE.
  rewrite Z.add_mod, Ha, Z.add_0_l, Z.mod_mod, (Z.mod_small f) by (unfold PGSIZE in *; lia). done.
Qed.
Lemma flag_low a f k : a mod PGSIZE = 0 -> 0 <= f < PGSIZE -> 0 <= k < 12 -> flag (a + f) (2 ^ k) = Z.testbit f k.
Proof.
  intros Ha Hf Hk. unfold flag. rewrite <- (lor_flags a f) by done. rewrite Z.land_lor_distr_l.
  assert (Z.land a (2 ^ k) = 0) as ->.
  { apply Z.bits_inj'. intros j Hj. rewrite Z.land_spec, Z.bits_0. destruct (decide (k = j)) as [<-|Hne].
    - rewrite <- (Z.mod_pow2_bits_low a 12 k) by lia. change (2 ^ 12) with PGSIZE. by rewrite Ha, Z.bits_0.
    - rewrite Z.pow2_bits_false by done. apply andb_false_r. }
  rewrite Z.lor_0_l. destruct (Z.testbit f k) eqn:E.
  - apply negb_true_iff, Z.eqb_neq. intros H0. assert (Z.testbit (Z.land f (2 ^ k)) k = true) as H1
      by (rewrite Z.land_spec, E, Z.pow2_bits_true; [done|lia]). rewrite H0, Z.bits_0 in H1. done.
  - apply negb_false_iff, Z.eqb_eq. apply Z.bits_inj'. intros j Hj. rewrite Z.land_spec, Z.bits_0.
    destruct (decide (k = j)) as [<-|Hne]; [by rewrite E|]. rewrite Z.pow2_bits_false by done. apply andb_false_r.
Qed.

(** ** The tables of an address space *)

Definition NPAGE : Z := 2 ^ 20.
Definition pte m tabs vp : Z :=
  match tabs !! (vp / 1024) with Some t => load32 m (t + 4 * (vp mod 1024)) | None => 0 end.

(** The pages that hold the tables of [d]. *)
Definition tables d (o : owner) : Prop := o = Dir d \/ exists i, o = Tab d i.
#[export] Instance tables_dec d o : Decision (tables d o).
Proof.
  destruct o as [|d'|d' i| |]; [right|destruct (decide (d' = d)) as [->|]; [left|right]|destruct (decide (d' = d)) as [->|]; [left|right]|right..];
    unfold tables; naive_solver.
Defined.

Section pt.
Variable kend : Z.
Abbreviation kpage := (kpage kend).
Abbreviation kr := (kr kend).

Record pt ow m d tabs : Prop := {
  pt_dir : kpage d /\ ow d = Dir d;
  pt_pde : forall i, 0 <= i < 1024 -> match tabs !! i with
    | Some t => flag (load32 m (d + 4 * i)) PTE_P = true /\ PTE_ADDR (load32 m (d + 4 * i)) = V2P t
    | None => flag (load32 m (d + 4 * i)) PTE_P = false
    end;
  pt_tab : forall i t, tabs !! i = Some t -> 0 <= i < 1024 /\ kpage t /\ ow t = Tab d i
}.

(** Pages that are neither free nor satisfy [P] keep their owner and their contents. *)
Definition chg (P : owner -> Prop) ow m ow' m' : Prop :=
  forall p, kpage p -> ow p <> Free -> ~ P (ow p) -> ow' p = ow p /\ samepage p m m'.

Lemma chg_refl P ow m : chg P ow m ow m.
Proof. done. Qed.
Lemma chg_trans P ow1 m1 ow2 m2 ow3 m3 : chg P ow1 m1 ow2 m2 -> chg P ow2 m2 ow3 m3 -> chg P ow1 m1 ow3 m3.
Proof.
  intros H1 H2 p Hp Hf HP. destruct (H1 p Hp Hf HP) as [He Hs]. destruct (H2 p Hp) as [He2 Hs2]; [congruence|by rewrite He|].
  split; [congruence|]. by eapply samepage_trans.
Qed.
Lemma chg_weaken (P P' : owner -> Prop) ow m ow' m' : (forall o, P o -> P' o) -> chg P ow m ow' m' -> chg P' ow m ow' m'.
Proof. intros HP H p Hp Hf Hn. apply H; auto. Qed.
(** Taking a free page. *)
Lemma chg_alloc P ow m p o : ow p = Free -> chg P ow m (<[p := o]> ow) m.
Proof. intros Hp r Hr Hf _. rewrite fn_lookup_insert_ne; [done|]. congruence. Qed.
(** Writing into a page of [P]. *)
Lemma chg_inside (P : owner -> Prop) ow m m' p : kpage p -> P (ow p) -> inside p m m' -> chg P ow m ow m'.
Proof. intros Hp HP Hi r Hr Hf Hn. split; [done|]. eapply (inside_other kend p); try done. congruence. Qed.

(** The tables depend on their own pages only. *)
Lemma pt_frame ow m ow' m' d tabs :
  pt ow m d tabs -> (forall p, kpage p -> tables d (ow p) -> ow' p = ow p /\ samepage p m m') -> pt ow' m' d tabs /\ forall vp, pte m' tabs vp = pte m tabs vp.
Proof.
  intros [[Hd Hod] Hpde Htab] Hf. split.
  - constructor.
    + split; [done|]. destruct (Hf d Hd); [by left|congruence].
    + intros i Hi. destruct (Hf d Hd) as [_ Hs]; [by left|]. rewrite (samepage_load d m m') by (unfold PGSIZE; try done; lia). by apply Hpde.
    + intros i t Ht. destruct (Htab i t Ht) as (? & Hk & Ho). split; [done|]. split; [done|]. destruct (Hf t Hk) as [-> _]; [right; by exists i|done].
  - intros vp. unfold pte. destruct (tabs !! (vp / 1024)) as [t|] eqn:E; [|done]. destruct (Htab _ _ E) as (_ & Hk & Ho).
    destruct (Hf t Hk) as [_ Hs]; [right; by eexists|]. pose proof (Z.mod_pos_bound vp 1024).
    apply (samepage_load t m m'); [done|unfold PGSIZE; lia..].
Qed.

(** [walkpgdir] finds the entry of a page with a table. *)
Lemma walk_found ow s d tabs va t al Q :
  pt ow (km s) d tabs -> 0 <= va < 2 ^ 32 -> tabs !! (va / PGSIZE / 1024) = Some t ->
  Q (t + 4 * ((va / PGSIZE) mod 1024)) s -> wp (walkpgdir d va al) Q s.
Proof.
  intros H Hva Ht HQ. destruct (pt_tab _ _ _ _ H _ _ Ht) as (Hi & Hk & _). pose proof (pt_pde _ _ _ _ H _ Hi) as Hp. rewrite Ht in Hp. destruct Hp as [Hp1 Hp2].
  unfold walkpgdir, load. rewrite PDX_eq, PTX_eq by lia. rewrite wp_bind, wp_gets, Hp1, wp_ret, Hp2.
  destruct (kpage_V2P kend t Hk) as (_ & _ & _ & ->). done.
Qed.
Lemma walk_none ow s d tabs va Q :
  pt ow (km s) d tabs -> 0 <= va < 2 ^ 32 -> tabs !! (va / PGSIZE / 1024) = None -> Q 0 s -> wp (walkpgdir d va false) Q s.
Proof.
  intros H Hva Ht HQ. assert (0 <= va / PGSIZE / 1024 < 1024) as Hi.
  { unfold PGSIZE. rewrite Z.div_div by lia. split; [apply Z.div_pos; lia|apply Z.div_lt_upper_bound; lia]. }
  pose proof (pt_pde _ _ _ _ H _ Hi) as Hp. rewrite Ht in Hp.
  unfold walkpgdir, load. rewrite PDX_eq by lia. rewrite wp_bind, wp_gets, Hp. cbn [negb]. by rewrite wp_ret.
Qed.

Lemma table_index va : 0 <= va < 2 ^ 32 -> 0 <= va / PGSIZE / 1024 < 1024.
Proof.
  intros Hva. unfold PGSIZE. rewrite Z.div_div by lia. split; [apply Z.div_pos; lia|apply Z.div_lt_upper_bound; lia].
Qed.

(** A directory entry is set to a fresh, cleared page. *)
Lemma pt_add_table ow m d tabs i t :
  pt ow m d tabs -> 0 <= i < 1024 -> tabs !! i = None -> kpage t -> ow t = Free ->
  let m' := store32 (d + 4 * i) (V2P t + 7) (CString.memset t 0 PGSIZE m) in
  pt (<[t := Tab d i]> ow) m' d (<[i := t]> tabs) /\ forall vp, pte m' (<[i := t]> tabs) vp = pte m tabs vp.
Proof.
  intros H Hi Hn Ht Hf m'. pose proof H as [[Hd Hod] Hpde Htab]. assert (t <> d) as Htd by congruence.
  destruct (kpage_V2P kend t Ht) as (_ & Hr & Hal & _). assert (0 <= 7 < PGSIZE) as H7 by (unfold PGSIZE; lia).
  assert (forall o, 0 <= o -> o + 4 <= PGSIZE -> load32 m' (t + o) = 0) as Hz.
  { intros o H0 H1. unfold m'. rewrite load32_other by (unfold PGSIZE in *; destruct (kpage_disjoint kend t d Ht Hd Htd); unfold PGSIZE in *; lia).
    unfold load32. rewrite !memset_spec by (unfold PGSIZE; lia). rewrite !decide_True by lia. done. }
  assert (forall o, 0 <= o -> o + 4 <= PGSIZE -> o + 4 <= 4 * i \/ 4 * i + 4 <= o -> load32 m' (d + o) = load32 m (d + o)) as Hdir.
  { intros o H0 H1 H2. unfold m'. rewrite load32_other by lia. apply (samepage_load d m); [|done..].
    eapply (inside_other kend t); [done..|apply inside_memset]. }
  assert (forall p, kpage p -> p <> d -> p <> t -> samepage p m m') as Hoth.
  { intros p Hp H1 H2. eapply samepage_trans; [eapply (inside_other kend t); [done..|apply inside_memset]|].
    eapply (inside_other kend d); [done..|]. apply inside_store; unfold PGSIZE; lia. }
  split.
  - constructor.
    + split; [done|]. by rewrite fn_lookup_insert_ne.
    + intros j Hj. destruct (decide (i = j)) as [<-|Hne].
      * rewrite lookup_insert_eq. unfold m'. rewrite load32_store32. rewrite u32_small by (unfold PHYSTOP in *; lia).
        split; [|by apply PTE_ADDR_flags]. by apply (flag_low _ 7 0).
      * rewrite lookup_insert_ne by done. rewrite Hdir by (unfold PGSIZE; lia). by apply Hpde.
    + intros j t' Hj. destruct (decide (i = j)) as [<-|Hne].
      * rewrite lookup_insert_eq in Hj. injection Hj as <-. by rewrite fn_lookup_insert.
      * rewrite lookup_insert_ne in Hj by done. destruct (Htab _ _ Hj) as (? & ? & Ho). rewrite fn_lookup_insert_ne by congruence. done.
  - intros vp. unfold pte. pose proof (Z.mod_pos_bound vp 1024). destruct (decide (i = vp / 1024)) as [He|Hne].
    + rewrite <- He, lookup_insert_eq, Hn. apply Hz; unfold PGSIZE; lia.
    + rewrite lookup_insert_ne by done. destruct (tabs !! (vp / 1024)) as [t'|] eqn:E; [|done]. destruct (Htab _ _ E) as (_ & Hk' & Ho).
      apply samepage_load; [apply Hoth; [done|congruence..]|unfold PGSIZE; lia..].
Qed.

(** [walkpgdir] with [alloc]: it fails only when there is no page left. *)
Lemma walk_alloc ow s fr d tabs va Q :
  kr ow s fr -> pt ow (km s) d tabs -> 0 <= va < 2 ^ 32 ->
  (fr = [] -> Q 0 s) ->
  (forall ow' s' fr' tabs' t, kr ow' s' fr' -> pt ow' (km s') d tabs' -> tabs' !! (va / PGSIZE / 1024) = Some t ->
     (forall vp, pte (km s') tabs' vp = pte (km s) tabs vp) -> chg (tables d) ow (km s) ow' (km s') ->
     (length fr' + size tabs' = length fr + size tabs)%nat -> Q (t + 4 * ((va / PGSIZE) mod 1024)) s') ->
  wp (walkpgdir d va true) Q s.
Proof.
  intros Hk H Hva H0 HQ. assert (PGSIZE = 4096) as HP by done. destruct (tabs !! (va / PGSIZE / 1024)) as [t|] eqn:Ht.
  { eapply (walk_found ow s d tabs va t); try done. by eapply HQ. }
  pose proof (table_index va Hva) as Hi. pose proof (pt_pde _ _ _ _ H _ Hi) as Hp. rewrite Ht in Hp.
  unfold walkpgdir, load. rewrite PDX_eq, PTX_eq by lia. rewrite wp_bind, wp_gets, Hp. cbn [negb]. rewrite wp_bind.
  eapply wp_mono; [by apply (kalloc_spec kend ow s fr)|]. cbn beta. destruct fr as [|t fr].
  - intros r s' [-> ->]. rewrite Z.eqb_refl, wp_ret. by apply H0.
  - intros r s' (-> & Hkt & Hf & Hnz & Hm & Hkr). destruct (Z.eqb_spec t 0); [done|]. unfold on_mem, store.
    rewrite wp_bind, wp_modify, wp_bind, wp_modify, wp_ret. cbn [km freelist use_lock].
    destruct (kpage_V2P kend t Hkt) as (_ & Hr & Hal & _).
    assert (Z.lor (Z.lor (Z.lor (V2P t) PTE_P) PTE_W) PTE_U = V2P t + 7) as ->.
    { rewrite <- !Z.lor_assoc. apply lor_flags; [done|unfold PGSIZE; cbn; lia]. }
    pose proof (pt_add_table ow (km s) d tabs _ t H Hi Ht Hkt Hf) as Hadd. cbv zeta in Hadd. destruct Hadd as [H' Hpte]. rewrite Hm.
    set (m' := store32 (d + 4 * (va / PGSIZE / 1024)) (V2P t + 7) (CString.memset t 0 PGSIZE (km s))) in H', Hpte |- *.
    assert (d <> t) as Hdt by (destruct (pt_dir _ _ _ _ H); congruence). destruct (pt_dir _ _ _ _ H) as [Hd Hod].
    eapply (HQ (<[t := Tab d (va / PGSIZE / 1024)]> ow) _ fr (<[va / PGSIZE / 1024 := t]> tabs) t); cbn [km].
    + apply (kr_mem kend _ s' fr); [by apply Hkr|]. intros p Hp' Hfp.
      assert (p <> t) by (intros ->; by rewrite fn_lookup_insert in Hfp).
      assert (p <> d) by (intros ->; rewrite fn_lookup_insert_ne in Hfp by done; congruence).
      rewrite Hm. eapply samepage_trans; [eapply (inside_other kend t); [done..|apply inside_memset]|].
      eapply (inside_other kend d); [done..|]. apply inside_store; lia.
    + done.
    + apply lookup_insert_eq.
    + done.
    + eapply chg_trans; [apply (chg_alloc _ _ _ t (Tab d (va / PGSIZE / 1024))); done|].
      eapply chg_trans; [apply (chg_inside _ _ _ _ t Hkt); [rewrite fn_lookup_insert; right; by eexists|apply inside_memset]|].
      apply (chg_inside _ _ _ _ d Hd); [rewrite fn_lookup_insert_ne by done; by left|]. apply inside_store; lia.
    + rewrite map_size_insert_None by done. cbn. lia.
Qed.

(** An entry is stored. *)
Lemma pt_set ow s fr d tabs vp t e :
  kr ow s fr -> pt ow (km s) d tabs -> tabs !! (vp / 1024) = Some t ->
  let m' := store32 (t + 4 * (vp mod 1024)) e (km s) in
  kr ow (mkkmst m' (freelist s) (use_lock s)) fr /\ pt ow m' d tabs /\ chg (tables d) ow (km s) ow m' /\
  forall vp', pte m' tabs vp' = if decide (vp' = vp) then u32 e else pte (km s) tabs vp'.
Proof.
  intros Hk H Ht m'. pose proof H as [[Hd Hod] Hpde Htab]. destruct (Htab _ _ Ht) as (Hi & Hkt & Ho). assert (PGSIZE = 4096) as HP by done.
  pose proof (Z.mod_pos_bound vp 1024). assert (t <> d) as Htd by congruence.
  assert (inside t (km s) m') as Hin by (apply inside_store; lia).
  split_and!.
  - eapply (kr_inside kend ow s fr t); try done. congruence.
  - constructor; try done. intros i Hi'. rewrite (samepage_load d (km s) m'); [by apply Hpde| |lia..]. by eapply (inside_other kend t).
  - eapply (chg_inside _ _ _ _ t); [done| |done]. rewrite Ho. right. by eexists.
  - intros vp'. unfold pte. pose proof (Z.mod_pos_bound vp' 1024). case_decide as Hv.
    + subst vp'. rewrite Ht. apply load32_store32.
    + destruct (tabs !! (vp' / 1024)) as [t'|] eqn:E; [|done]. destruct (decide (vp' / 1024 = vp / 1024)) as [He|He].
      * assert (t' = t) as -> by congruence. unfold m'. apply load32_other. pose proof (Z.div_mod vp 1024). pose proof (Z.div_mod vp' 1024). lia.
      * destruct (Htab _ _ E) as (_ & Hkt' & Ho'). apply samepage_load; [|lia..]. eapply (inside_other kend t); try done. congruence.
Qed.

(** The entries after [j] pages from [vp] on were mapped to the pages from [pa] on. *)
Definition mapped (j vp pa fl : Z) (f f' : Z -> Z) : Prop :=
  forall v, f' v = if decide (vp <= v < vp + j) then pa + PGSIZE * (v - vp) + fl else f v.

Lemma mappages_loop_spec k fuel ow s fr d tabs vp pa perm Q :
  let fl := Z.lor perm PTE_P in
  kr ow s fr -> pt ow (km s) d tabs -> (0 < k <= fuel)%nat -> 0 <= vp -> vp + Z.of_nat k <= NPAGE ->
  pa mod PGSIZE = 0 -> 0 <= pa -> pa + PGSIZE * Z.of_nat k <= 2 ^ 32 -> 0 <= perm < PGSIZE ->
  (forall v, vp <= v < vp + Z.of_nat k -> flag (pte (km s) tabs v) PTE_P = false) ->
  (forall j ow' s' fr' tabs', (j <= k)%nat -> kr ow' s' fr' -> pt ow' (km s') d tabs' ->
     mapped (Z.of_nat j) vp pa fl (pte (km s) tabs) (pte (km s') tabs') -> chg (tables d) ow (km s) ow' (km s') ->
     (length fr' + size tabs' = length fr + size tabs)%nat -> ((j < k)%nat -> fr' = []) -> Q (if decide (j = k) then 0 else -1) s') ->
  wp (mappages_loop fuel d (PGSIZE * vp) (PGSIZE * (vp + Z.of_nat k - 1)) pa perm) Q s.
Proof.
  intros fl. revert k ow s fr tabs vp pa. induction fuel as [|fuel IH]; intros k ow s fr tabs vp pa Hk H Hkf Hv Hvk Hal Hp0 Hp1 Hpe Hno HQ; [lia|].
  assert (PGSIZE = 4096) as HP by done. assert (NPAGE = 1048576) as HN by done. assert ((PGSIZE * vp) / PGSIZE = vp) as Hdv by (rewrite Z.mul_comm; apply Z.div_mul; lia).
  cbn [mappages_loop]. rewrite wp_bind. eapply (walk_alloc ow s fr d tabs); [done|done|lia| |].
  { intros ->. rewrite Z.eqb_refl, wp_ret. specialize (HQ 0%nat ow s [] tabs). rewrite decide_False in HQ by lia. apply HQ; try done; [lia|].
    intros v. by rewrite decide_False by lia. }
  rewrite Hdv. intros ow1 s1 fr1 tabs1 t Hk1 H1 Ht Hp Hc1 Hcn1. destruct (pt_tab _ _ _ _ H1 _ _ Ht) as (_ & Hkt & _).
  pose proof (kpage_pos kend t Hkt). pose proof (Z.mod_pos_bound vp 1024).
  destruct (Z.eqb_spec (t + 4 * (vp mod 1024)) 0); [lia|]. unfold load. rewrite wp_bind, wp_gets.
  assert (load32 (km s1) (t + 4 * (vp mod 1024)) = pte (km s1) tabs1 vp) as -> by (unfold pte; by rewrite Ht).
  rewrite Hp, Hno by lia. unfold store. rewrite wp_bind, wp_modify.
  assert (0 <= fl < PGSIZE) as Hfl.
  { unfold fl. split; [apply Z.lor_nonneg; unfold PTE_P; lia|]. apply Z.log2_lt_cancel. rewrite Z.log2_lor by (unfold PTE_P; lia). change (Z.log2 PGSIZE) with 12.
    apply Z.max_lub_lt; [|cbn; lia]. destruct (decide (perm = 0)) as [->|]; [cbn; lia|]. apply Z.log2_lt_pow2; [lia|]. lia. }
  assert (Z.lor (Z.lor pa perm) PTE_P = pa + fl) as -> by (rewrite <- Z.lor_assoc; by apply lor_flags).
  destruct (pt_set ow1 s1 fr1 d tabs1 vp t (pa + fl) Hk1 H1 Ht) as (Hk2 & Hpt2 & Hc2 & Hp2). rewrite u32_small in Hp2 by lia.
  set (m2 := store32 _ _ _) in *. destruct (Z.eqb_spec (PGSIZE * vp) (PGSIZE * (vp + Z.of_nat k - 1))) as [He|He].
  - assert (k = 1%nat) as -> by lia. rewrite wp_ret. specialize (HQ 1%nat ow1 (mkkmst m2 (freelist s1) (use_lock s1)) fr1 tabs1). rewrite decide_True in HQ by done.
    apply HQ; try done; [|by eapply chg_trans|lia].
    intros v. cbn [km]. rewrite Hp2. repeat case_decide; subst; try lia. apply Hp.
  - replace (u32 (PGSIZE * vp + PGSIZE)) with (PGSIZE * (vp + 1)) by (rewrite u32_small; lia). rewrite (u32_small (pa + PGSIZE)) by lia.
    replace (PGSIZE * (vp + Z.of_nat k - 1)) with (PGSIZE * (vp + 1 + Z.of_nat (k - 1) - 1)) by lia.
    apply (IH (k - 1)%nat ow1 _ fr1 tabs1); try done; try lia.
    + rewrite <- Z.add_mod_idemp_r, Z.mod_same, Z.add_0_r by lia. done.
    + intros v Hv'. cbn [km]. rewrite Hp2, decide_False, Hp by lia. apply Hno. lia.
    + intros j ow' s' fr' tabs' Hj Hk' H' Hm' Hc' Hcn Hfr. specialize (HQ (S j) ow' s' fr' tabs').
      replace (if decide (j = (k - 1)%nat) then 0 else -1) with (if decide (S j = k) then 0 else -1) by (repeat case_decide; lia).
      apply HQ; try done; try lia.
      * intros v. rewrite Hm'. cbn [km]. rewrite Hp2, Hp. repeat case_decide; try lia.
      * eapply chg_trans; [exact Hc1|]. eapply chg_trans; [exact Hc2|exact Hc'].
      * intros Hlt. apply Hfr. lia.
Qed.

(** [mappages] of whole pages. *)
Lemma mappages_spec k ow s fr d tabs vp n pa perm Q :
  let fl := Z.lor perm PTE_P in
  kr ow s fr -> pt ow (km s) d tabs -> (0 < k)%nat -> n = PGSIZE * Z.of_nat k -> 0 <= vp -> vp + Z.of_nat k <= NPAGE ->
  pa mod PGSIZE = 0 -> 0 <= pa -> pa + n <= 2 ^ 32 -> 0 <= perm < PGSIZE ->
  (forall v, vp <= v < vp + Z.of_nat k -> flag (pte (km s) tabs v) PTE_P = false) ->
  (forall j ow' s' fr' tabs', (j <= k)%nat -> kr ow' s' fr' -> pt ow' (km s') d tabs' ->
     mapped (Z.of_nat j) vp pa fl (pte (km s) tabs) (pte (km s') tabs') -> chg (tables d) ow (km s) ow' (km s') ->
     (length fr' + size tabs' = length fr + size tabs)%nat -> ((j < k)%nat -> fr' = []) -> Q (if decide (j = k) then 0 else -1) s') ->
  wp (mappages d (PGSIZE * vp) n pa perm) Q s.
Proof.
  intros fl Hk H Hk0 -> Hv Hvk Hal Hp0 Hp1 Hpe Hno HQ. assert (PGSIZE = 4096) as HP by done. assert (NPAGE = 1048576) as HN by done.
  unfold mappages. assert (PGROUNDDOWN (PGSIZE * vp) = PGSIZE * vp) as ->.
  { rewrite PGROUNDDOWN_eq, Z.mul_comm, Z.mod_mul by lia. lia. }
  rewrite (u32_small (PGSIZE * vp + _ - 1)) by lia.
  assert (PGROUNDDOWN (PGSIZE * vp + PGSIZE * Z.of_nat k - 1) = PGSIZE * (vp + Z.of_nat k - 1)) as ->.
  { rewrite PGROUNDDOWN_eq. replace (PGSIZE * vp + PGSIZE * Z.of_nat k - 1) with (PGSIZE - 1 + (vp + Z.of_nat k - 1) * PGSIZE) by lia.
    rewrite Z.mod_add, Z.mod_small by lia. lia. }
  rewrite u32_small by lia. replace (PGSIZE * (vp + Z.of_nat k - 1) - PGSIZE * vp) with ((Z.of_nat k - 1) * PGSIZE) by lia.
  rewrite Z.div_mul by lia. eapply (mappages_loop_spec k); try done. lia.
Qed.

(** A directory has at most 1024 tables. *)
Lemma pt_size ow m d tabs : pt ow m d tabs -> (size tabs <= 1024)%nat.
Proof.
  intros H. rewrite <- (size_dom (D := gset Z)). assert (dom tabs ⊆ (list_to_set (seqZ 0 1024) : gset Z)) as Hs.
  { intros i [t Ht]%elem_of_dom. destruct (pt_tab _ _ _ _ H _ _ Ht) as (? & _). apply elem_of_list_to_set, elem_of_seqZ. lia. }
  apply subseteq_size in Hs. rewrite size_list_to_set in Hs by apply NoDup_seqZ. by rewrite length_seqZ in Hs.
Qed.
End pt.
