(* ===== verification/VmUser.v ===== *)
(** Address spaces: user memory and the operations that change it.

    [um] maps the page number of each user page to its physical page and flags.  [sp] is the
    invariant of one address space: the tables, the user pages, which it owns, and
    the kernel half [g].  [allocuvm] adds fresh cleared pages, [deallocuvm] gives pages back,
    [freevm] gives all of them back, [copyuvm] makes a space with the same bytes in other
    pages.  Spaces with other directories are not touched. *)

From stdpp Require Import functions gmap.
From S2P Require Import Prelude CString Mem Kalloc KallocSpec Vm VmSpec.
Import Kalloc Vm.

Implicit Types (m : mem) (p va vp d v lo hi : Z) (fr : list Z) (ow : Z -> owner) (s : kmst) (tabs : gmap Z Z)
  (um : gmap Z (Z * Z)) (g : Z -> Z).

Definition UPAGES : Z := 2 ^ 19.

(** The owners of the pages of [d] that hold its tables or user pages from [lo] up to [hi]. *)
Definition part d lo hi (o : owner) : Prop := tables d o \/ exists v, lo <= v < hi /\ o = User d v.
Definition space d (o : owner) : Prop := part d 0 UPAGES o.

Lemma part_mono d lo hi lo' hi' o : lo' <= lo -> hi <= hi' -> part d lo hi o -> part d lo' hi' o.
Proof. intros Hlo Hhi [H|(v & Hv & ->)]; [by left|right]. exists v. split; [lia|done]. Qed.

Section user.
Context (kend : Z) (Hend : KERNBASE < kend).
Abbreviation kpage := (kpage kend).
Abbreviation kr := (kr kend).
Abbreviation pt := (pt kend).
Abbreviation chg := (chg kend).

Record us ow d (f : Z -> Z) um : Prop := {
  us_pte : forall v, 0 <= v < UPAGES -> match um !! v with
    | Some (p, fl) => f v = V2P p + fl
    | None => flag (f v) PTE_P = false
    end;
  us_page : forall v p fl, um !! v = Some (p, fl) ->
    0 <= v < UPAGES /\ kpage p /\ ow p = User d v /\ 0 <= fl < PGSIZE /\ Z.testbit fl 0 = true
}.

Record sp ow m d tabs g um : Prop := {
  sp_pt : pt ow m d tabs;
  sp_us : us ow d (pte m tabs) um;
  sp_kern : forall v, UPAGES <= v < NPAGE -> pte m tabs v = g v
}.

Lemma us_ext ow d f f' um : (forall v, 0 <= v < UPAGES -> f' v = f v) -> us ow d f um -> us ow d f' um.
Proof. intros He [H1 H2]. constructor; [|done]. intros v Hv. rewrite He by done. by apply H1. Qed.

(** Another operation that leaves the pages of [d] alone. *)
Lemma sp_frame ow m ow' m' d tabs g um :
  sp ow m d tabs g um -> (forall p, kpage p -> space d (ow p) -> ow' p = ow p /\ samepage p m m') ->
  sp ow' m' d tabs g um /\ forall v p fl, um !! v = Some (p, fl) -> samepage p m m'.
Proof.
  intros [Hpt Hus Hk] Hf. destruct (pt_frame kend ow m ow' m' d tabs Hpt) as [Hpt' Hp].
  { intros p Hp Ht. apply Hf; [done|]. by left. }
  assert (forall v p fl, um !! v = Some (p, fl) -> ow' p = ow p /\ samepage p m m') as Hu.
  { intros v p fl Hv. destruct (us_page _ _ _ _ Hus _ _ _ Hv) as (Hr & Hkp & Ho & _). apply Hf; [done|]. right. by exists v. }
  split; [|intros v p fl Hv; by eapply Hu]. constructor; [done| |].
  - eapply us_ext; [by intros; apply Hp|]. destruct Hus as [H1 H2]. constructor; [done|]. intros v p fl Hv.
    destruct (H2 _ _ _ Hv) as (? & ? & Ho & ? & ?). destruct (Hu _ _ _ Hv) as [-> _]. done.
  - intros v Hv. rewrite Hp. by apply Hk.
Qed.

(** Operations on another address space do. *)
Lemma sp_apart ow m ow' m' d d' tabs g um : d <> d' ->
  sp ow m d tabs g um -> chg (space d') ow m ow' m' ->
  sp ow' m' d tabs g um /\ forall v p fl, um !! v = Some (p, fl) -> samepage p m m'.
Proof.
  intros Hne H Hc. apply (sp_frame ow m); [done|]. intros p Hp Hs. apply Hc; [done|..].
  - destruct Hs as [[Hs|[i Hs]]|(v & _ & Hs)]; by rewrite Hs.
  - intros Hs'. destruct Hs as [[Hs|[i Hs]]|(v & _ & Hs)]; rewrite Hs in Hs';
      destruct Hs' as [[Hs'|[j Hs']]|(w & _ & Hs')]; congruence.
Qed.

(** The entry of one user page is stored. *)
Lemma us_set ow d f um v p fl :
  us ow d f um -> 0 <= v < UPAGES -> kpage p -> ow p = User d v -> 0 <= fl < PGSIZE -> Z.testbit fl 0 = true ->
  us ow d (fun v' => if decide (v' = v) then V2P p + fl else f v') (<[v := (p, fl)]> um).
Proof.
  intros [H1 H2] Hv Hp Ho Hfl Hbit. constructor.
  - intros v' Hv'. case_decide as He; [subst; by rewrite lookup_insert_eq|]. rewrite lookup_insert_ne by done. by apply H1.
  - intros v' p' fl' Hl. destruct (decide (v = v')) as [<-|Hne].
    + rewrite lookup_insert_eq in Hl. injection Hl as <- <-. done.
    + rewrite lookup_insert_ne in Hl by done. by apply H2.
Qed.
Lemma us_clear ow d f um v :
  us ow d f um -> 0 <= v < UPAGES -> us ow d (fun v' => if decide (v' = v) then 0 else f v') (delete v um).
Proof.
  intros [H1 H2] Hv. constructor.
  - intros v' Hv'. case_decide as He; [subst; by rewrite lookup_delete_eq|]. rewrite lookup_delete_ne by done. by apply H1.
  - intros v' p' fl' [_ Hl]%lookup_delete_Some. by apply H2.
Qed.
(** Owners of other pages change. *)
Lemma us_owner ow ow' d f um : us ow d f um -> (forall v p fl, um !! v = Some (p, fl) -> ow' p = ow p) -> us ow' d f um.
Proof. intros [H1 H2] He. constructor; [done|]. intros v p fl Hl. rewrite (He _ _ _ Hl). by apply H2. Qed.
Lemma pt_owner ow ow' m d tabs : pt ow m d tabs -> (forall p, tables d (ow p) -> ow' p = ow p) -> pt ow' m d tabs.
Proof.
  intros [[H1 H2] H3 H4] He. constructor; [|done|].
  - split; [done|]. rewrite He; [done|]. by left.
  - intros i t Ht. destruct (H4 i t Ht) as (? & ? & Ho). rewrite He; [done|]. right. by exists i.
Qed.

(** ** Giving pages back *)

Lemma drop_page ow s fr d tabs g um v p fl t Q :
  kr ow s fr -> sp ow (km s) d tabs g um -> um !! v = Some (p, fl) -> tabs !! (v / 1024) = Some t ->
  (forall s', kr (<[p := Free]> ow) s' (p :: fr) -> sp (<[p := Free]> ow) (km s') d tabs g (delete v um) ->
     chg (part d v (v + 1)) ow (km s) (<[p := Free]> ow) (km s') -> Q tt s') ->
  wp (let pa := PTE_ADDR (V2P p + fl) in
      if pa =? 0 then panic "kfree" else
      do! kfree kend (P2V pa);
      store (t + 4 * (v mod 1024)) 0) Q s.
Proof.
  intros Hk [Hpt Hus Hg] Hv Ht HQ. destruct (us_page _ _ _ _ Hus _ _ _ Hv) as (Hr & Hkp & Ho & Hfl & Hbit).
  destruct (kpage_V2P kend p Hkp) as (Hvp & Hrange & Hal & Hback). cbv zeta. rewrite PTE_ADDR_flags, Hback by done.
  destruct (Z.eqb_spec (V2P p) 0) as [Hz|_]; [destruct Hkp; lia|]. rewrite wp_bind.
  eapply wp_mono; [apply (kfree_spec kend ow s fr p Hk Hkp); by rewrite Ho|]. cbn beta. intros [] s1 [Hk1 Hin].
  set (ow1 := <[p := Free]> ow) in *.
  assert (forall q, kpage q -> q <> p -> ow1 q = ow q /\ samepage q (km s) (km s1)) as Hoth.
  { intros q Hq Hne. split; [unfold ow1; by rewrite fn_lookup_insert_ne|]. by eapply (inside_other kend p). }
  destruct (pt_frame kend ow (km s) ow1 (km s1) d tabs Hpt) as [Hpt1 Hp1].
  { intros q Hq Htq. apply Hoth; [done|]. intros ->. rewrite Ho in Htq. destruct Htq as [|[i ?]]; done. }
  unfold store. rewrite wp_modify. destruct (pt_set kend ow1 s1 (p :: fr) d tabs v t 0 Hk1 Hpt1 Ht) as (Hk2 & Hpt2 & Hc2 & Hp2).
  apply HQ; cbn [km]; [exact Hk2| |].
  - constructor; [done| |].
    + apply (us_owner ow).
      * eapply us_ext; [|by apply us_clear]. intros v' _. rewrite Hp2, Hp1. done.
      * intros v' p' fl' [Hne Hl]%lookup_delete_Some. destruct (us_page _ _ _ _ Hus _ _ _ Hl) as (_ & _ & Ho' & _).
        unfold ow1. rewrite fn_lookup_insert_ne; [done|]. intros <-. congruence.
    + intros v' Hv'. rewrite Hp2, decide_False, Hp1 by lia. by apply Hg.
  - eapply chg_trans; [|eapply chg_weaken; [|exact Hc2]; intros; by left].
    intros q Hq Hf Hn. apply Hoth; [done|]. intros ->. apply Hn. rewrite Ho. right. exists v. split; [lia|done].
Qed.

(** The user pages from [lo] up to [hi] were given back, and no page was taken. *)
Definition freed ow um lo hi ow' : Prop :=
  forall q, ow q = Free \/ (exists v fl, lo <= v < hi /\ um !! v = Some (q, fl)) -> ow' q = Free.

Lemma deallocuvm_loop_spec fuel ow s fr d tabs g um vp hi oldsz Q :
  kr ow s fr -> sp ow (km s) d tabs g um -> 0 <= vp -> hi <= UPAGES -> (forall v, PGSIZE * v < oldsz <-> v < hi) ->
  (0 < fuel)%nat -> hi - vp < Z.of_nat fuel ->
  (forall ow' s' fr' um', kr ow' s' fr' -> sp ow' (km s') d tabs g um' ->
     (forall v, um' !! v = if decide (vp <= v < hi) then None else um !! v) ->
     chg (part d vp hi) ow (km s) ow' (km s') -> freed ow um vp hi ow' -> Q tt s') ->
  wp (deallocuvm_loop kend fuel d (PGSIZE * vp) oldsz) Q s.
Proof.
  revert ow s fr um vp. induction fuel as [|fuel IH]; intros ow s fr um vp Hk H Hvp Hhi Hsz Hf0 Hf HQ; [lia|].
  assert (PGSIZE = 4096) as HP by done. assert (UPAGES = 524288) as HU by done.
  assert ((PGSIZE * vp) / PGSIZE = vp) as Hdv by (rewrite Z.mul_comm; apply Z.div_mul; lia).
  cbn [deallocuvm_loop]. destruct (PGSIZE * vp <? oldsz) eqn:E; zb; cbn [negb].
  2: { assert (~ vp < hi) as Hlt by (rewrite <- Hsz; lia). rewrite wp_ret. eapply (HQ ow s fr um); try done.
    - intros v. by rewrite decide_False by lia.
    - intros q [|(v & fl & Hv & _)]; [done|lia]. }
  apply Hsz in E. rewrite wp_bind. destruct (tabs !! (vp / 1024)) as [t|] eqn:Ht.
  - eapply (walk_found kend ow s d tabs _ t); [apply H|lia|by rewrite Hdv|]. rewrite Hdv.
    destruct (pt_tab _ _ _ _ _ (sp_pt _ _ _ _ _ _ H) _ _ Ht) as (_ & Hkt & _). pose proof (kpage_pos kend t Hkt). pose proof (Z.mod_pos_bound vp 1024).
    destruct (Z.eqb_spec (t + 4 * (vp mod 1024)) 0); [lia|]. unfold load. rewrite wp_bind, wp_gets.
    assert (load32 (km s) (t + 4 * (vp mod 1024)) = pte (km s) tabs vp) as -> by (unfold pte; by rewrite Ht).
    pose proof (us_pte _ _ _ _ (sp_us _ _ _ _ _ _ H) vp ltac:(lia)) as Hu. rewrite wp_bind. 
    replace (u32 (PGSIZE * vp + PGSIZE)) with (PGSIZE * (vp + 1)) by (rewrite u32_small; lia).
    destruct (um !! vp) as [[p fl]|] eqn:Hl.
    + rewrite Hu. destruct (us_page _ _ _ _ (sp_us _ _ _ _ _ _ H) _ _ _ Hl) as (_ & Hkp & Ho & Hfl & Hbit).
      destruct (kpage_V2P kend p Hkp) as (_ & _ & Hal & _). change PTE_P with (2 ^ 0). rewrite flag_low, Hbit by (done || lia). cbn [when].
      eapply (drop_page ow s fr d tabs g um vp p fl t); try done. intros s1 Hk1 Hs1 Hc1.
      eapply (IH (<[p := Free]> ow) s1 (p :: fr) (delete vp um) (vp + 1)); try done; try lia.
      intros ow' s' fr' um' Hk' H' Hum Hc' Hfd. eapply (HQ ow' s' fr' um'); try done.
      * intros v. rewrite Hum. destruct (decide (v = vp)) as [->|Hne]; [|rewrite lookup_delete_ne by done; repeat case_decide; done || lia].
        rewrite lookup_delete_eq. repeat case_decide; done || lia.
      * eapply chg_trans; eapply chg_weaken; [|exact Hc1| |exact Hc']; intros o; apply part_mono; lia.
      * intros q Hq. apply Hfd. destruct (decide (p = q)) as [<-|Hne]; [left; by rewrite fn_lookup_insert|].
        rewrite fn_lookup_insert_ne by done. destruct Hq as [|(v & fl' & Hv & Hq)]; [by left|right]. exists v, fl'.
        assert (v <> vp) by (intros ->; congruence). rewrite lookup_delete_ne by done. split; [lia|done].
    + rewrite Hu. cbn [when]. rewrite wp_ret. eapply (IH ow s fr um (vp + 1)); try done; try lia.
      intros ow' s' fr' um' Hk' H' Hum Hc' Hfd. eapply (HQ ow' s' fr' um'); try done.
      * intros v. rewrite Hum. destruct (decide (v = vp)) as [->|Hne]; repeat case_decide; done || lia.
      * eapply chg_weaken; [|exact Hc']. intros o. apply part_mono; lia.
      * intros q Hq. apply Hfd. destruct Hq as [|(v & fl' & Hv & Hq)]; [by left|right]. exists v, fl'.
        assert (v <> vp) by (intros ->; congruence). split; [lia|done].
  - eapply (walk_none kend ow s d tabs); [apply H|lia|by rewrite Hdv|]. rewrite Z.eqb_refl.
    set (nx := 1024 * (vp / 1024 + 1)). assert (vp < nx <= UPAGES) as Hnx by (unfold nx; pose proof (Z.div_mod vp 1024); pose proof (Z.mod_pos_bound vp 1024); lia).
    assert (u32 (u32 (PGADDR (PDX (PGSIZE * vp) + 1) 0 0 - PGSIZE) + PGSIZE) = PGSIZE * nx) as ->.
    { rewrite PDX_eq, Hdv by lia. unfold PGADDR. rewrite Z.shiftl_0_l, !Z.lor_0_r, Z.shiftl_mul_pow2 by (unfold PDXSHIFT; lia).
      change (2 ^ PDXSHIFT) with 4194304. change PGSIZE with 4096. unfold nx in *. rewrite (u32_small ((vp / 1024 + 1) * 4194304)) by lia. rewrite (u32_small (_ - 4096)) by lia. rewrite u32_small by lia. lia. }
    eapply (IH ow s fr um nx); try done; try lia.
    assert (forall v, vp <= v < nx -> v < hi -> um !! v = None) as Hskip.
    { intros v Hv1 Hv2. pose proof (us_pte _ _ _ _ (sp_us _ _ _ _ _ _ H) v ltac:(lia)) as Hu. destruct (um !! v) as [[p fl]|] eqn:Hl; [|done]. exfalso.
      destruct (us_page _ _ _ _ (sp_us _ _ _ _ _ _ H) _ _ _ Hl) as (_ & Hkp & _ & Hfl & Hbit).
      assert (v / 1024 = vp / 1024) as Hd by (unfold nx in *; pose proof (Z.div_mod vp 1024); pose proof (Z.div_mod v 1024);
        pose proof (Z.mod_pos_bound vp 1024); pose proof (Z.mod_pos_bound v 1024); lia).
      unfold pte in Hu. rewrite Hd, Ht in Hu. destruct (kpage_V2P kend p Hkp) as (_ & ? & _). assert (fl = 0) as -> by lia. done. }
    intros ow' s' fr' um' Hk' H' Hum Hc' Hfd. eapply (HQ ow' s' fr' um'); try done.
    + intros v. rewrite Hum. destruct (decide (nx <= v < hi)); [by rewrite decide_True by lia|]. case_decide as Hv; [|done]. apply Hskip; lia.
    + eapply chg_weaken; [|exact Hc']. intros o. apply part_mono; lia.
    + intros q Hq. apply Hfd. destruct Hq as [|(v & fl' & Hv & Hq)]; [by left|right]. exists v, fl'. split; [|done].
      destruct (decide (v < nx)); [|lia]. rewrite Hskip in Hq by lia. done.
Qed.

(** The number of pages of a size. *)
Definition pgs (sz : Z) : Z := (sz + PGSIZE - 1) / PGSIZE.

Lemma pgs_lt sz v : 0 <= sz -> PGSIZE * v < sz <-> v < pgs sz.
Proof.
  intros Hsz. unfold pgs, PGSIZE. pose proof (Z.div_mod (sz + 4096 - 1) 4096). pose proof (Z.mod_pos_bound (sz + 4096 - 1) 4096). lia.
Qed.
Lemma pgs_round sz : 0 <= sz <= KERNBASE -> PGROUNDUP sz = PGSIZE * pgs sz /\ 0 <= pgs sz <= UPAGES.
Proof.
  intros Hsz. assert (PGSIZE = 4096) as HP by done. assert (KERNBASE = 2147483648) as HK by done. assert (UPAGES = 524288) as HU by done.
  rewrite PGROUNDUP_eq by lia. unfold pgs. pose proof (Z.div_mod (sz + PGSIZE - 1) PGSIZE). pose proof (Z.mod_pos_bound (sz + PGSIZE - 1) PGSIZE).
  split; [lia|]. split; [apply Z.div_pos; lia|]. apply Z.lt_succ_r, Z.div_lt_upper_bound; lia.
Qed.

Lemma deallocuvm_spec ow s fr d tabs g um oldsz newsz Q :
  kr ow s fr -> sp ow (km s) d tabs g um -> 0 <= newsz < oldsz -> oldsz <= KERNBASE ->
  (forall ow' s' fr' um', kr ow' s' fr' -> sp ow' (km s') d tabs g um' ->
     (forall v, um' !! v = if decide (pgs newsz <= v < pgs oldsz) then None else um !! v) ->
     chg (part d (pgs newsz) (pgs oldsz)) ow (km s) ow' (km s') -> freed ow um (pgs newsz) (pgs oldsz) ow' -> Q newsz s') ->
  wp (deallocuvm kend d oldsz newsz) Q s.
Proof.
  intros Hk H Hnew Hold HQ. assert (PGSIZE = 4096) as HP by done. assert (KERNBASE = 2147483648) as HK by done.
  unfold deallocuvm. destruct (newsz >=? oldsz) eqn:E; zb; [lia|]. destruct (pgs_round newsz) as [-> Hn]; [lia|].
  destruct (pgs_round oldsz) as [_ Ho]; [lia|]. rewrite wp_bind.
  eapply (deallocuvm_loop_spec _ ow s fr d tabs g um (pgs newsz) (pgs oldsz)); try done; try lia.
  - intros v. apply pgs_lt. lia.
  - unfold pgs at 1. replace (oldsz + PGSIZE - 1) with (oldsz - 1 + 1 * PGSIZE) by lia. rewrite Z.div_add by lia.
    assert ((oldsz - 1) / PGSIZE <= oldsz / PGSIZE) by (apply Z.div_le_mono; lia). assert (0 <= oldsz / PGSIZE) by (apply Z.div_pos; lia). lia.
  - intros ow' s' fr' um' Hk' H' Hum Hc Hfd. rewrite wp_ret, i32_small by lia. by eapply HQ.
Qed.

(** ** Adding pages *)

Definition zeropage p m : Prop := forall a, p <= a < p + PGSIZE -> m a = 0.

(** A page just taken is mapped at [v]. *)
Lemma map_page ow s fr d tabs g um v p perm Q :
  let fl := Z.lor perm PTE_P in
  kr ow s fr -> sp ow (km s) d tabs g um -> 0 <= v < UPAGES -> um !! v = None -> kpage p -> ow p = User d v ->
  0 <= perm -> fl < PGSIZE -> perm < PGSIZE ->
  (forall ow' s' fr' tabs', kr ow' s' fr' -> sp ow' (km s') d tabs' g (<[v := (p, fl)]> um) ->
     chg (tables d) ow (km s) ow' (km s') -> (length fr' + size tabs' = length fr + size tabs)%nat -> Q 0 s') ->
  (forall ow' s' tabs', kr ow' s' [] -> sp ow' (km s') d tabs' g um -> chg (tables d) ow (km s) ow' (km s') ->
     (length fr + size tabs <= 1024)%nat -> Q (-1) s') ->
  wp (mappages d (PGSIZE * v) PGSIZE (V2P p) perm) Q s.
Proof.
  intros fl Hk [Hpt Hus Hg] Hv Hn Hkp Ho Hp0 Hfl Hp1 HQ0 HQ1. assert (PGSIZE = 4096) as HP by done. assert (UPAGES = 524288) as HU by done.
  assert (NPAGE = 1048576) as HN by done. destruct (kpage_V2P kend p Hkp) as (_ & Hr & Hal & _). unfold PHYSTOP in Hr.
  eapply (mappages_spec kend 1 ow s fr d tabs v); try done; try lia.
  { intros v' Hv'. replace v' with v by lia. pose proof (us_pte _ _ _ _ Hus v Hv) as Hu. by rewrite Hn in Hu. }
  fold fl. intros j ow' s' fr' tabs' Hj Hk' Hpt' Hm Hc Hcn Hfr.
  assert (us ow' d (pte (km s) tabs) um) as Hus'.
  { apply (us_owner ow); [done|]. intros v' p' fl' Hl. destruct (us_page _ _ _ _ Hus _ _ _ Hl) as (_ & Hkp' & Ho' & _).
    destruct (Hc p' Hkp') as [? _]; [by rewrite Ho'|rewrite Ho'; intros [|[i ?]]; done|done]. }
  destruct (decide (j = 1%nat)) as [->|Hj1].
  - eapply HQ0; [exact Hk'| |exact Hc|exact Hcn]. constructor; [done| |].
    + eapply us_ext; [|apply (us_set ow' d (pte (km s) tabs) um v p fl)]; try done.
      * intros v' _. rewrite Hm. repeat case_decide; subst; try lia; done.
      * destruct (Hc p Hkp) as [-> _]; [by rewrite Ho|rewrite Ho; intros [|[i ?]]; done|done].
      * split; [apply Z.lor_nonneg; unfold PTE_P; lia|done].
      * unfold fl, PTE_P. rewrite Z.lor_spec. apply orb_true_r.
    + intros v' Hv'. rewrite Hm, decide_False by lia. by apply Hg.
  - eapply HQ1; [|constructor; [exact Hpt'| |]|exact Hc|].
    + rewrite Hfr in Hk' by lia. exact Hk'.
    + eapply us_ext; [|exact Hus']. intros v' _. rewrite Hm, decide_False by lia. done.
    + intros v' Hv'. rewrite Hm, decide_False by lia. by apply Hg.
    + rewrite Hfr in Hcn by lia. cbn in Hcn. pose proof (pt_size _ _ _ _ _ Hpt'). lia.
Qed.

(** Writing to pages that are not tables. *)
Lemma sp_write ow m m' d tabs g um p : sp ow m d tabs g um -> kpage p -> ~ tables d (ow p) -> inside p m m' -> sp ow m' d tabs g um.
Proof.
  intros [Hpt Hus Hg] Hp Hn Hin. destruct (pt_frame kend ow m ow m' d tabs Hpt) as [Hpt' Hp'].
  { intros q Hq Ht. split; [done|]. eapply (inside_other kend p); try done. by intros ->. }
  constructor; [done|eapply us_ext; [by intros; apply Hp'|done]|]. intros v Hv. rewrite Hp'. by apply Hg.
Qed.
(** A free page gets an owner. *)
Lemma sp_take ow m d tabs g um p o : sp ow m d tabs g um -> ow p = Free -> sp (<[p := o]> ow) m d tabs g um.
Proof.
  intros H Hf. apply (sp_frame ow m); [done|]. intros q Hq Hs. split; [|done]. rewrite fn_lookup_insert_ne; [done|]. intros <-.
  rewrite Hf in Hs. destruct Hs as [[|[i ?]]|(v & _ & ?)]; done.
Qed.

Lemma not_tables_user d d' v : ~ tables d (User d' v).
Proof. intros [|[i ?]]; done. Qed.

(** A cleared page is taken from the allocator; [mk] is its owner from then on. *)
Lemma take_cleared {B} ow s fr (mk : Z -> owner) (k0 : M kmst B) (k : Z -> M kmst B) Q :
  kr ow s fr -> (forall p, mk p <> Free) -> (fr = [] -> wp k0 Q s) ->
  (forall p fr' s', fr = p :: fr' -> kpage p -> ow p = Free -> p <> 0 -> kr (<[p := mk p]> ow) s' fr' -> inside p (km s) (km s') ->
     zeropage p (km s') -> wp (k p) Q s') ->
  wp (let! pg := kalloc in if pg =? 0 then k0 else do! on_mem (CString.memset pg 0 PGSIZE); k pg) Q s.
Proof.
  intros Hk Hmk H0 H1. rewrite wp_bind. eapply wp_mono; [by apply (kalloc_spec kend ow s fr)|]. cbn beta. destruct fr as [|p fr].
  - intros r s' [-> ->]. rewrite Z.eqb_refl. by apply H0.
  - intros r s' (-> & Hkp & Hf & Hnz & Hm & Hkr). destruct (Z.eqb_spec p 0); [done|]. unfold on_mem. rewrite wp_bind, wp_modify.
    eapply (H1 p fr); try done; cbn [km]; rewrite ?Hm.
    + rewrite <- Hm. eapply (kr_inside kend _ s' fr p); [by apply Hkr|done|by rewrite fn_lookup_insert|]. apply inside_memset.
    + apply inside_memset.
    + intros a Ha. rewrite memset_spec by (unfold PGSIZE; lia). by rewrite decide_True.
Qed.

(** A page that was taken but never mapped may get another owner. *)
Lemma sp_disown ow m d tabs g um v p o :
  sp ow m d tabs g um -> ow p = User d v -> um !! v = None -> sp (<[p := o]> ow) m d tabs g um.
Proof.
  intros [Hpt Hus Hg] Ho Hn. constructor; [| |done].
  - apply (pt_owner ow); [done|]. intros q Hq. rewrite fn_lookup_insert_ne; [done|]. intros <-. rewrite Ho in Hq. by eapply not_tables_user.
  - apply (us_owner ow); [done|]. intros v' p' fl' Hl. destruct (us_page _ _ _ _ Hus _ _ _ Hl) as (_ & _ & Ho' & _).
    rewrite fn_lookup_insert_ne; [done|]. intros <-. congruence.
Qed.
Lemma kr_relabel ow s fr p o : kr ow s fr -> ow p <> Free -> o <> Free -> kr (<[p := o]> ow) s fr.
Proof.
  intros Hk Ho Hne. eapply kr_ext; [exact Hk|]. intros q Hq. destruct (decide (p = q)) as [<-|]; [by rewrite fn_lookup_insert|by rewrite fn_lookup_insert_ne].
Qed.

(** A page taken from the allocator and given back. *)
Lemma chg_give P ow m ow' m' m'' p :
  chg P ow m ow' m' -> ow p = Free -> kpage p -> inside p m' m'' -> chg P ow m (<[p := Free]> ow') m''.
Proof.
  intros Hc Hf Hp Hin q Hq Hqf Hn. destruct (Hc q Hq Hqf Hn) as [H1 H2]. assert (p <> q) by congruence.
  rewrite fn_lookup_insert_ne by done. split; [done|]. eapply samepage_trans; [exact H2|]. by eapply (inside_other kend p).
Qed.

Lemma samepage_zero p m m' : samepage p m m' -> zeropage p m -> zeropage p m'.
Proof. intros Hs Hz a Ha. rewrite Hs by done. by apply Hz. Qed.

Lemma allocuvm_loop_spec fuel ow s fr d tabs g um vp hi oldsz newsz Q :
  kr ow s fr -> sp ow (km s) d tabs g um -> 0 <= oldsz <= newsz -> newsz < KERNBASE -> pgs oldsz <= vp -> hi = pgs newsz ->
  (forall v, vp <= v < hi -> um !! v = None) -> (0 < fuel)%nat -> hi - vp < Z.of_nat fuel ->
  (forall ow' s' fr' tabs' um', kr ow' s' fr' -> sp ow' (km s') d tabs' g um' ->
     (forall v, ~ (vp <= v < hi) -> um' !! v = um !! v) ->
     (forall v, vp <= v < hi -> exists p, um' !! v = Some (p, 7) /\ zeropage p (km s')) ->
     chg (part d vp hi) ow (km s) ow' (km s') ->
     Z.of_nat (length fr' + size tabs') + Z.max 0 (hi - vp) = Z.of_nat (length fr + size tabs) -> Q newsz s') ->
  (forall ow' s' fr' tabs' um', kr ow' s' fr' -> sp ow' (km s') d tabs' g um' ->
     (forall v, um' !! v = if decide (pgs oldsz <= v < hi) then None else um !! v) ->
     chg (part d (pgs oldsz) hi) ow (km s) ow' (km s') -> Z.of_nat (length fr + size tabs) <= 1024 + (hi - vp) -> Q 0 s') ->
  wp (allocuvm_loop kend fuel d (PGSIZE * vp) oldsz newsz) Q s.
Proof.
  revert ow s fr tabs um vp. induction fuel as [|fuel IH]; intros ow s fr tabs um vp Hk H Hold Hnew Hvp -> Hno Hf0 Hf HQ1 HQ0; [lia|].
  assert (PGSIZE = 4096) as HP by done. assert (UPAGES = 524288) as HU by done. assert (KERNBASE = 2147483648) as HK by done.
  destruct (pgs_round oldsz) as [_ Ho1]; [lia|]. destruct (pgs_round newsz) as [_ Hn1]; [lia|].
  cbn [allocuvm_loop]. pose proof (pgs_lt newsz vp ltac:(lia)) as Hlt. destruct (PGSIZE * vp <? newsz) eqn:E; zb; cbn [negb].
  2: { rewrite wp_ret, i32_small by lia. eapply (HQ1 ow s fr tabs um); try done; [intros v Hv; lia|lia]. }
  assert (oldsz < newsz) as Hlt' by (pose proof (pgs_lt oldsz vp ltac:(lia)); lia).
  eapply (take_cleared ow s fr (fun _ => User d vp) (do! deallocuvm kend d newsz oldsz; ret 0) (fun pg =>
    let! r := mappages d (PGSIZE * vp) PGSIZE (V2P pg) (Z.lor PTE_W PTE_U) in
    if r <? 0 then do! deallocuvm kend d newsz oldsz; do! kfree kend pg; ret 0
    else allocuvm_loop kend fuel d (u32 (PGSIZE * vp + PGSIZE)) oldsz newsz)); [done|done| |].
  { intros ->. rewrite wp_bind. eapply (deallocuvm_spec ow s [] d tabs g um newsz oldsz); try done; try lia.
    intros ow' s' fr' um' Hk' H' Hum Hc _. rewrite wp_ret. eapply HQ0; try done. pose proof (pt_size _ _ _ _ _ (sp_pt _ _ _ _ _ _ H)). cbn. lia. }
  intros p fr1 s1 -> Hkp Hf1 Hnz Hk1 Hin Hz. set (ow1 := <[p := User d vp]> ow) in *.
  assert (ow1 p = User d vp) as Hop by (unfold ow1; by rewrite fn_lookup_insert).
  assert (sp ow1 (km s1) d tabs g um) as H1.
  { eapply (sp_write _ (km s)); [by apply sp_take|exact Hkp|rewrite Hop; apply not_tables_user|done]. }
  assert (chg (part d vp (pgs newsz)) ow (km s) ow1 (km s1)) as Hc1.
  { eapply chg_trans; [by apply (chg_alloc _ _ _ _ p (User d vp))|]. apply (chg_inside _ _ _ _ _ p); [done| |done].
    fold ow1. rewrite Hop. right. exists vp. split; [lia|done]. }
  rewrite wp_bind. eapply (map_page ow1 s1 fr1 d tabs g um vp p); try done; try (cbn; lia); [by apply Hno; lia|..].
  - intros ow2 s2 fr2 tabs2 Hk2 H2 Hc2 Hcn2. cbn [length] in Hf |- *. change (0 <? 0) with false. cbn iota. destruct (Hc2 p Hkp) as [Hop2 Hsp2]; [by rewrite Hop|rewrite Hop; apply not_tables_user|].
    replace (u32 (PGSIZE * vp + PGSIZE)) with (PGSIZE * (vp + 1)) by (rewrite u32_small; lia).
    change (Z.lor _ PTE_P) with 7 in H2.
    assert (chg (part d vp (pgs newsz)) ow (km s) ow2 (km s2)) as Hc12.
    { eapply chg_trans; [exact Hc1|]. eapply chg_weaken; [|exact Hc2]. intros o Ho. by left. }
    eapply (IH ow2 s2 fr2 tabs2 (<[vp := (p, 7)]> um) (vp + 1)); try done; try lia.
    + intros v Hv. rewrite lookup_insert_ne by lia. apply Hno. lia.
    + intros ow' s' fr' tabs' um' Hk' H' Hum Hnew' Hc' Hcn'. eapply (HQ1 ow' s' fr' tabs' um'); try done.
      * intros v Hv. rewrite Hum by lia. rewrite lookup_insert_ne by lia. done.
      * intros v Hv. destruct (decide (v = vp)) as [->|Hne]; [|apply Hnew'; lia]. exists p. rewrite Hum by lia. rewrite lookup_insert_eq.
        split; [done|]. eapply samepage_zero; [|eapply samepage_zero; [exact Hsp2|exact Hz]].
        apply Hc'; [done|by rewrite Hop2, Hop|]. rewrite Hop2, Hop. intros [Ht|(w & Hw & [= <-])]; [by eapply not_tables_user|lia].
      * eapply chg_trans; [exact Hc12|]. eapply chg_weaken; [|exact Hc']. intros o. apply part_mono; lia.
      * cbn [length] in *. lia.
    + intros ow' s' fr' tabs' um' Hk' H' Hum Hc' Hcn'. eapply (HQ0 ow' s' fr' tabs' um'); try done.
      * intros v. rewrite Hum. case_decide; [done|]. rewrite lookup_insert_ne by lia. done.
      * eapply chg_trans; [|exact Hc']. eapply chg_weaken; [|exact Hc12]. intros o. apply part_mono; lia.
      * cbn [length] in *. lia.
  - intros ow2 s2 tabs2 Hk2 H2 Hc2 Hcn2. change (-1 <? 0) with true. cbn iota. destruct (Hc2 p Hkp) as [Hop2 Hsp2]; [by rewrite Hop|rewrite Hop; apply not_tables_user|].
    pose proof (sp_disown ow2 (km s2) d tabs2 g um vp p Other H2 ltac:(congruence) ltac:(apply Hno; lia)) as H2'.
    pose proof (kr_relabel ow2 s2 [] p Other Hk2 ltac:(by rewrite Hop2, Hop) ltac:(done)) as Hk2'.
    rewrite wp_bind. eapply (deallocuvm_spec _ s2 [] d tabs2 g um newsz oldsz _ Hk2' H2'); try done; try lia.
    intros ow3 s3 fr3 um3 Hk3 H3 Hum3 Hc3 _. destruct (Hc3 p Hkp) as [Hop3 _]; rewrite ?fn_lookup_insert; [done|intros [[|[i ?]]|(w & _ & ?)]; done|].
    rewrite fn_lookup_insert in Hop3. rewrite wp_bind. eapply wp_mono; [apply (kfree_spec kend ow3 s3 fr3 p Hk3 Hkp); by rewrite Hop3|].
    cbn beta. intros [] s4 [Hk4 Hin4]. rewrite wp_ret. eapply (HQ0 (<[p := Free]> ow3) s4 (p :: fr3) tabs2 um3); try done.
    + eapply (sp_write _ (km s3)); [|exact Hkp|rewrite fn_lookup_insert; by intros [|[i ?]]|exact Hin4].
      eapply (sp_frame ow3 (km s3)); [done|]. intros q Hq Hs. split; [|done]. rewrite fn_lookup_insert_ne; [done|]. intros <-.
      rewrite Hop3 in Hs. destruct Hs as [[|[i ?]]|(w & _ & ?)]; done.
    + eapply (chg_give _ _ _ ow3 (km s3)); [|exact Hf1|exact Hkp|exact Hin4].
      eapply chg_trans; [eapply chg_weaken; [|exact Hc1]; intros o; apply part_mono; lia|].
      eapply chg_trans; [eapply chg_weaken; [|exact Hc2]; intros o Ho; by left|].
      eapply chg_trans; [|exact Hc3]. intros q Hq Hqf Hqn. split; [|done]. rewrite fn_lookup_insert_ne; [done|]. intros <-.
      apply Hqn. rewrite Hop2, Hop. right. exists vp. split; [lia|done].
    + cbn [length]. lia.
Qed.
End user.
