(* ===== verification/VmSpace.v ===== *)
(** Whole address spaces: [allocuvm], [freevm], [setupkvm] and [copyuvm]. *)

From stdpp Require Import functions gmap.
From S2P Require Import Prelude CString Mem Kalloc KallocSpec Vm VmSpec VmUser.
Import Kalloc Vm.

Implicit Types (m : mem) (p va vp d v lo hi : Z) (fr : list Z) (ow : Z -> owner) (s : kmst) (tabs : gmap Z Z)
  (um : gmap Z (Z * Z)) (g : Z -> Z).

Section space.
Context (kend : Z) (Hend : KERNBASE < kend).
Abbreviation kpage := (kpage kend).
Abbreviation kr := (kr kend).
Abbreviation pt := (pt kend).
Abbreviation chg := (chg kend).
Abbreviation sp := (sp kend).

(** [allocuvm] grows the space to [newsz], or fails and leaves it as it was. *)
Lemma allocuvm_spec ow s fr d tabs g um oldsz newsz Q :
  kr ow s fr -> sp ow (km s) d tabs g um -> 0 <= oldsz <= newsz -> newsz < KERNBASE ->
  (forall v, pgs oldsz <= v < pgs newsz -> um !! v = None) ->
  (forall ow' s' fr' tabs' um', kr ow' s' fr' -> sp ow' (km s') d tabs' g um' ->
     (forall v, ~ (pgs oldsz <= v < pgs newsz) -> um' !! v = um !! v) ->
     (forall v, pgs oldsz <= v < pgs newsz -> exists p, um' !! v = Some (p, 7) /\ zeropage p (km s')) ->
     chg (part d (pgs oldsz) (pgs newsz)) ow (km s) ow' (km s') ->
     Z.of_nat (length fr' + size tabs') + Z.max 0 (pgs newsz - pgs oldsz) = Z.of_nat (length fr + size tabs) -> Q newsz s') ->
  (forall ow' s' fr' tabs', kr ow' s' fr' -> sp ow' (km s') d tabs' g um ->
     chg (part d (pgs oldsz) (pgs newsz)) ow (km s) ow' (km s') ->
     Z.of_nat (length fr + size tabs) <= 1024 + (pgs newsz - pgs oldsz) -> Q 0 s') ->
  wp (allocuvm kend d oldsz newsz) Q s.
Proof.
  intros Hk H Hold Hnew Hno HQ1 HQ0. assert (PGSIZE = 4096) as HP by done. assert (KERNBASE = 2147483648) as HK by done.
  unfold allocuvm. destruct (newsz >=? KERNBASE) eqn:E1; zb; [lia|]. destruct (newsz <? oldsz) eqn:E2; zb; [lia|].
  destruct (pgs_round oldsz) as [-> Ho]; [lia|]. eapply (allocuvm_loop_spec kend Hend _ ow s fr d tabs g um (pgs oldsz) (pgs newsz)); try done; try lia.
  - unfold pgs at 1. replace (newsz + PGSIZE - 1) with (newsz - 1 + 1 * PGSIZE) by lia. rewrite Z.div_add by lia.
    assert ((newsz - 1) / PGSIZE <= newsz / PGSIZE) by (apply Z.div_le_mono; lia). assert (0 <= newsz / PGSIZE) by (apply Z.div_pos; lia). lia.
  - intros ow' s' fr' tabs' um' Hk' H' Hum Hc Hcn. eapply (HQ0 ow' s' fr' tabs'); try done.
    replace um with um'; [done|]. apply map_eq. intros v. rewrite Hum. case_decide; [symmetry; by apply Hno|done].
Qed.

(** [freevm] gives back the user pages, the tables and the directory. *)
Lemma freevm_spec ow s fr d tabs g um Q :
  kr ow s fr -> sp ow (km s) d tabs g um ->
  (forall ow' s' fr', kr ow' s' fr' -> chg (space d) ow (km s) ow' (km s') ->
     (forall p, p = d \/ (exists i, tabs !! i = Some p) \/ (exists v fl, um !! v = Some (p, fl)) -> ow' p = Free) -> Q tt s') ->
  wp (freevm kend d) Q s.
Proof.
  intros Hk H HQ. assert (PGSIZE = 4096) as HP by done. assert (KERNBASE = 2147483648) as HK by done.
  pose proof (sp_pt _ _ _ _ _ _ _ H) as Hpt. destruct (pt_dir _ _ _ _ _ Hpt) as [Hkd Hod]. pose proof (kpage_pos kend d Hkd).
  unfold freevm. destruct (Z.eqb_spec d 0); [lia|]. rewrite wp_bind.
  eapply (deallocuvm_spec kend Hend ow s fr d tabs g um KERNBASE 0); try done; try lia.
  change (pgs 0) with 0. change (pgs KERNBASE) with UPAGES. intros ow1 s1 fr1 um1 Hk1 H1 Hum1 Hc1 Hfd1.
  pose proof (sp_pt _ _ _ _ _ _ _ H1) as Hpt1. destruct (pt_dir _ _ _ _ _ Hpt1) as [_ Hod1]. rewrite wp_bind.
  eapply wp_mono; [apply (wp_for_seq (fun j s' => exists ow' fr', kr ow' s' fr' /\ samepage d (km s1) (km s') /\ ow' d = Dir d /\
    chg (tables d) ow1 (km s1) ow' (km s') /\ (forall q, ow1 q = Free -> ow' q = Free) /\
    (forall i t, tabs !! i = Some t -> ow' t = if decide (i < Z.of_nat j) then Free else Tab d i)))|].
  - exists ow1, fr1. split_and!; try done. intros i t Ht. destruct (pt_tab _ _ _ _ _ Hpt1 _ _ Ht) as (? & _ & Ho). by rewrite decide_False by lia.
  - intros j s' Hj (ow' & fr' & Hk' & Hs' & Ho' & Hc' & Hf' & Ht').
    assert (0 <= Z.of_nat j < 1024) as Hj' by (unfold NPDENTRIES in Hj; lia). unfold load. rewrite wp_bind, wp_gets.
    rewrite (samepage_load d (km s1) (km s')) by (try done; lia). pose proof (pt_pde _ _ _ _ _ Hpt1 _ Hj') as Hp.
    destruct (tabs !! Z.of_nat j) as [t|] eqn:Ht.
    + destruct Hp as [-> ->]. cbn [when]. destruct (pt_tab _ _ _ _ _ Hpt1 _ _ Ht) as (_ & Hkt & Hot1). pose proof (Ht' _ _ Ht) as Hot. rewrite decide_False in Hot by lia.
      destruct (kpage_V2P kend t Hkt) as (_ & _ & _ & ->). eapply wp_mono; [apply (kfree_spec kend ow' s' fr' t Hk' Hkt); by rewrite Hot|]. cbn beta.
      intros [] s2 [Hk2 Hin]. assert (t <> d) as Htd by congruence. exists (<[t := Free]> ow'), (t :: fr'). split_and!; try done.
      * eapply samepage_trans; [exact Hs'|]. by eapply (inside_other kend t).
      * by rewrite fn_lookup_insert_ne.
      * eapply chg_trans; [exact Hc'|]. intros q Hq Hqf Hqn. assert (t <> q) as Hne by (intros <-; apply Hqn; rewrite Hot; right; by eexists).
        rewrite fn_lookup_insert_ne by done. split; [done|]. by eapply (inside_other kend t).
      * intros q Hq. destruct (decide (t = q)) as [<-|]; [by rewrite fn_lookup_insert|]. rewrite fn_lookup_insert_ne by done. by apply Hf'.
      * intros i t' Hi. destruct (decide (t = t')) as [<-|Hne].
        { rewrite fn_lookup_insert. destruct (pt_tab _ _ _ _ _ Hpt1 _ _ Hi) as (_ & _ & Hoi). assert (i = Z.of_nat j) as -> by congruence. by rewrite decide_True by lia. }
        rewrite fn_lookup_insert_ne by done. rewrite (Ht' _ _ Hi). assert (i <> Z.of_nat j) by congruence. repeat case_decide; done || lia.
    + rewrite Hp. cbn [when]. rewrite wp_ret. exists ow', fr'. split_and!; try done. intros i t Hi. rewrite (Ht' _ _ Hi).
      assert (i <> Z.of_nat j) by congruence. repeat case_decide; done || lia.
  - cbn beta. intros [] s2 (ow2 & fr2 & Hk2 & Hs2 & Ho2 & Hc2 & Hf2 & Ht2).
    eapply wp_mono; [apply (kfree_spec kend ow2 s2 fr2 d Hk2 Hkd); by rewrite Ho2|]. cbn beta. intros [] s3 [Hk3 Hin3].
    eapply (HQ (<[d := Free]> ow2) s3 (d :: fr2)); [done| |].
    + eapply chg_trans; [exact Hc1|]. eapply chg_trans; [eapply chg_weaken; [|exact Hc2]; intros o Ho; by left|].
      intros q Hq Hqf Hqn. assert (d <> q) as Hne by (intros <-; apply Hqn; rewrite Ho2; left; by left).
      rewrite fn_lookup_insert_ne by done. split; [done|]. by eapply (inside_other kend d).
    + intros p Hp. destruct (decide (d = p)) as [<-|Hne]; [by rewrite fn_lookup_insert|]. rewrite fn_lookup_insert_ne by done.
      destruct Hp as [->|[[i Hi]|(v & fl & Hv)]]; [done| |].
      * rewrite (Ht2 _ _ Hi). destruct (pt_tab _ _ _ _ _ Hpt1 _ _ Hi) as (? & _ & _). unfold NPDENTRIES. by rewrite decide_True by lia.
      * apply Hf2, Hfd1. right. exists v, fl. split; [|done]. by apply (us_page _ _ _ _ _ (sp_us _ _ _ _ _ _ _ H) _ _ _ Hv).
Qed.

(** ** The kernel half *)

(** The page numbers a row of [kmap] covers, and the entries it makes. *)
Definition ent_vp (e : kmap_ent) : Z := virt e / PGSIZE.
Definition ent_len (e : kmap_ent) : Z := u32 (phys_end e - phys_start e) / PGSIZE.
Definition in_ent (e : kmap_ent) v : Prop := ent_vp e <= v < ent_vp e + ent_len e.
#[local] Instance in_ent_dec e v : Decision (in_ent e v).
Proof. unfold in_ent. apply _. Defined.
Definition kput (e : kmap_ent) (f : Z -> Z) : Z -> Z :=
  fun v => if decide (in_ent e v) then phys_start e + PGSIZE * (v - ent_vp e) + Z.lor (perm e) PTE_P else f v.

Record ent_ok (e : kmap_ent) : Prop := {
  eo_virt : virt e mod PGSIZE = 0;
  eo_phys : phys_start e mod PGSIZE = 0 /\ 0 <= phys_start e;
  eo_len : u32 (phys_end e - phys_start e) mod PGSIZE = 0 /\ 0 < u32 (phys_end e - phys_start e);
  eo_lo : UPAGES <= ent_vp e;
  eo_hi : ent_vp e + ent_len e <= NPAGE;
  eo_phi : phys_start e + u32 (phys_end e - phys_start e) <= 2 ^ 32;
  eo_perm : 0 <= perm e < PGSIZE
}.

Fixpoint ents_apart (l : list kmap_ent) : Prop :=
  match l with
  | [] => True
  | e :: l => (forall e', e' ∈ l -> forall v, in_ent e v -> ~ in_ent e' v) /\ ents_apart l
  end.

Lemma setupkvm_loop_spec l ow s fr d tabs g Q :
  kr ow s fr -> sp ow (km s) d tabs g ∅ -> Forall ent_ok l -> ents_apart l ->
  (forall e v, e ∈ l -> in_ent e v -> flag (g v) PTE_P = false) ->
  (forall ow' s' fr' tabs', kr ow' s' fr' -> sp ow' (km s') d tabs' (foldl (fun f e => kput e f) g l) ∅ ->
     chg (tables d) ow (km s) ow' (km s') -> (length fr' + size tabs' = length fr + size tabs)%nat -> Q true s') ->
  (forall ow' s' fr' tabs' g', kr ow' s' fr' -> sp ow' (km s') d tabs' g' ∅ -> chg (tables d) ow (km s) ow' (km s') ->
     (length fr + size tabs <= 1024)%nat -> Q false s') ->
  wp (setupkvm_loop d l) Q s.
Proof.
  revert ow s fr tabs g. induction l as [|e l IH]; intros ow s fr tabs g Hk H Hok Hap Hfree HQ1 HQ0; cbn [setupkvm_loop].
  { rewrite wp_ret. by eapply HQ1. }
  apply Forall_cons in Hok as [He Hok]. destruct Hap as [Hap1 Hap2]. destruct He as [Hv [Hp Hp0] [Hl Hl0] Hlo Hhi Hphi Hpe].
  assert (PGSIZE = 4096) as HP by done. assert (NPAGE = 1048576) as HN by done. assert (UPAGES = 524288) as HU by done.
  set (n := u32 (phys_end e - phys_start e)) in *. assert (0 < ent_len e) as Hlen.
  { unfold ent_len. fold n. apply Z.div_str_pos. pose proof (Z.div_mod n PGSIZE). pose proof (Z.mod_pos_bound n PGSIZE).
    split; [lia|]. destruct (decide (PGSIZE <= n)); [done|]. rewrite Z.mod_small in Hl by lia. lia. }
  assert (n = PGSIZE * ent_len e) as Hsize by (unfold ent_len; fold n; pose proof (Z.div_mod n PGSIZE); lia).
  assert (virt e = PGSIZE * ent_vp e) as Hvirt by (unfold ent_vp; pose proof (Z.div_mod (virt e) PGSIZE); lia).
  rewrite wp_bind, Hvirt.
  eapply (mappages_spec kend (Z.to_nat (ent_len e)) ow s fr d tabs (ent_vp e) n); try done; try lia; [apply H| |].
  { intros v Hv'. rewrite (sp_kern _ _ _ _ _ _ _ H) by lia. apply (Hfree e); [left|]. unfold in_ent. lia. }
  intros j ow1 s1 fr1 tabs1 Hj Hk1 Hpt1 Hm1 Hc1 Hcn1 Hfr1.
  assert (forall g1, (forall v, UPAGES <= v < NPAGE -> pte (km s1) tabs1 v = g1 v) -> sp ow1 (km s1) d tabs1 g1 ∅) as Hsp1.
  { intros g1 Hg1. constructor; [done| |done]. destruct (sp_us _ _ _ _ _ _ _ H) as [Hu1 _]. constructor; [|done].
    intros v Hv'. rewrite lookup_empty. rewrite Hm1, decide_False by lia. specialize (Hu1 v Hv'). by rewrite lookup_empty in Hu1. }
  case_decide as Hjk; [change (0 <? 0) with false|change (-1 <? 0) with true]; cbn iota.
  - assert (sp ow1 (km s1) d tabs1 (kput e g) ∅) as H1.
    { apply Hsp1. intros v Hv'. rewrite Hm1. unfold kput. subst j. rewrite Z2Nat.id by lia.
      destruct (decide (in_ent e v)) as [Hin|Hin]; unfold in_ent in Hin; [by rewrite decide_True|]. rewrite decide_False by done. by apply H. }
    eapply (IH ow1 s1 fr1 tabs1 (kput e g)); try done.
    + intros e' v He' Hv'. unfold kput. rewrite decide_False; [|intros Hx; by eapply (Hap1 e')]. apply (Hfree e'); [by right|done].
    + intros ow' s' fr' tabs' Hk' H' Hc' Hcn'. eapply HQ1; [done|exact H'|by eapply chg_trans|lia].
    + intros ow' s' fr' tabs' g' Hk' H' Hc' Hcn'. eapply HQ0; [done|exact H'|by eapply chg_trans|lia].
  - rewrite wp_ret. eapply (HQ0 ow1 s1 fr1 tabs1 (pte (km s1) tabs1)); [done|by apply Hsp1|done|].
    rewrite Hfr1 in Hcn1 by lia. cbn in Hcn1. pose proof (pt_size _ _ _ _ _ Hpt1). lia.
Qed.

(** Owners in an address space that does not exist. *)
Definition dead ow (o : owner) : Prop := exists d, ow d <> Dir d /\ space d o.

Lemma space_inj d d' o : space d o -> space d' o -> d = d'.
Proof.
  intros [[->|[i ->]]|(v & _ & ->)] [[H|[j H]]|(w & _ & H)]; congruence.
Qed.

(** Address spaces that exist are not touched. *)
Lemma sp_alive ow m ow' m' d tabs g um : sp ow m d tabs g um -> chg (dead ow) ow m ow' m' ->
  sp ow' m' d tabs g um /\ forall v p fl, um !! v = Some (p, fl) -> samepage p m m'.
Proof.
  intros H Hc. apply (sp_frame kend ow m); [done|]. intros p Hp Hs. destruct (pt_dir _ _ _ _ _ (sp_pt _ _ _ _ _ _ _ H)) as [_ Hod].
  apply Hc; [done|..].
  - destruct Hs as [[Hs|[i Hs]]|(v & _ & Hs)]; by rewrite Hs.
  - intros (d' & Hne & Hs'). pose proof (space_inj _ _ _ Hs Hs'). congruence.
Qed.

Section setup.
Context (kdata : Z) (Hdata : kdata mod PGSIZE = 0) (Hdlo : KERNLINK < kdata) (Hdhi : kdata < KERNBASE + PHYSTOP).

(** The entries of the kernel half. *)
Definition kern : Z -> Z := foldl (fun f e => kput e f) (fun _ => 0) (kmap kdata).

Lemma kdata_pages : kdata = PGSIZE * (kdata / PGSIZE).
Proof. pose proof (Z.div_mod kdata PGSIZE). unfold PGSIZE in *. lia. Qed.

Lemma ent_shape e vp len ps :
  virt e = PGSIZE * vp -> phys_start e = PGSIZE * ps -> u32 (phys_end e - phys_start e) = PGSIZE * len -> 0 <= ps -> 0 < len ->
  UPAGES <= vp -> vp + len <= NPAGE -> ps + len <= NPAGE -> 0 <= perm e < PGSIZE ->
  ent_ok e /\ ent_vp e = vp /\ ent_len e = len.
Proof.
  intros Hv Hp Hl H0 H1 H2 H3 H4 H5. assert (PGSIZE = 4096) as HP by done. assert (NPAGE = 1048576) as HN by done.
  assert (ent_vp e = vp) as Hvp by (unfold ent_vp; rewrite Hv, Z.mul_comm; apply Z.div_mul; lia).
  assert (ent_len e = len) as Hln by (unfold ent_len; rewrite Hl, Z.mul_comm; apply Z.div_mul; lia).
  split; [|done]. constructor; rewrite ?Hvp, ?Hln, ?Hv, ?Hl, ?Hp; try lia.
  - rewrite Z.mul_comm. apply Z.mod_mul. lia.
  - split; [rewrite Z.mul_comm; apply Z.mod_mul; lia|lia].
  - split; [rewrite Z.mul_comm; apply Z.mod_mul; lia|lia].
Qed.

(** The rows of [kmap] in pages. *)
Lemma kmap_rows : exists e1 e2 e3 e4, kmap kdata = [e1; e2; e3; e4] /\ let n := kdata / PGSIZE in
  (ent_ok e1 /\ ent_vp e1 = 524288 /\ ent_len e1 = 256 /\ phys_start e1 = 0 /\ perm e1 = PTE_W) /\
  (ent_ok e2 /\ ent_vp e2 = 524544 /\ ent_len e2 = n - 524544 /\ phys_start e2 = PGSIZE * 256 /\ perm e2 = 0) /\
  (ent_ok e3 /\ ent_vp e3 = n /\ ent_len e3 = 581632 - n /\ phys_start e3 = PGSIZE * (n - 524288) /\ perm e3 = PTE_W) /\
  (ent_ok e4 /\ ent_vp e4 = 1040384 /\ ent_len e4 = 8192 /\ phys_start e4 = PGSIZE * 1040384 /\ perm e4 = PTE_W) /\
  524544 < n < 581632.
Proof.
  assert (V2P kdata = kdata - KERNBASE) as Hv by (unfold V2P; apply u32_small; unfold KERNLINK, KERNBASE, PHYSTOP, EXTMEM in *; lia).
  pose proof kdata_pages as Hk. set (n := kdata / PGSIZE) in *. cbv zeta. unfold KERNLINK, EXTMEM, KERNBASE, PHYSTOP, PGSIZE in Hv, Hk, Hdlo, Hdhi.
  assert (524544 < n < 581632) as Hn by lia. do 4 eexists. split; [reflexivity|]. change (V2P KERNLINK) with 0x100000.
  destruct (ent_shape (mkkmap KERNBASE 0 EXTMEM PTE_W) 524288 256 0) as (O1 & V1 & L1); try done.
  destruct (ent_shape (mkkmap KERNLINK 0x100000 (V2P kdata) 0) 524544 (n - 524544) 256) as (O2 & V2 & L2); try done; try (cbn [phys_end phys_start]; unfold PGSIZE, NPAGE; lia).
  { cbn [phys_end phys_start]. unfold PGSIZE. rewrite u32_small; lia. }
  destruct (ent_shape (mkkmap kdata (V2P kdata) PHYSTOP PTE_W) n (581632 - n) (n - 524288)) as (O3 & V3 & L3); try done; try (cbn [virt phys_end phys_start perm]; unfold PGSIZE, NPAGE, UPAGES, PTE_W; lia).
  { cbn [phys_end phys_start]. unfold PHYSTOP, PGSIZE. rewrite u32_small; lia. }
  destruct (ent_shape (mkkmap DEVSPACE DEVSPACE 0 PTE_W) 1040384 8192 1040384) as (O4 & V4 & L4); try done.
  cbn [phys_start perm]. unfold PGSIZE. split_and!; try done; lia.
Qed.

Lemma kmap_ok : Forall ent_ok (kmap kdata) /\ ents_apart (kmap kdata).
Proof.
  destruct kmap_rows as (e1 & e2 & e3 & e4 & -> & (O1 & V1 & L1 & _) & (O2 & V2 & L2 & _) & (O3 & V3 & L3 & _) & (O4 & V4 & L4 & _) & Hn).
  split; [by rewrite !Forall_cons, Forall_nil|]. cbn [ents_apart]. unfold in_ent.
  split_and!; [..|done]; intros e He v Hv1 Hv2;
    repeat (apply elem_of_cons in He as [->|He]; [lia|]); by apply elem_of_nil in He.
Qed.

(** The kernel half, entry by entry: physical memory from [KERNBASE] on, the text of the kernel
    read-only, and the devices at the top. *)
Lemma kern_eq v :
  kern v =
    if decide (KERNBASE <= PGSIZE * v < KERNBASE + PHYSTOP) then
      PGSIZE * v - KERNBASE + (if decide (KERNLINK <= PGSIZE * v < kdata) then PTE_P else Z.lor PTE_W PTE_P)
    else if decide (DEVSPACE <= PGSIZE * v < 2 ^ 32) then PGSIZE * v + Z.lor PTE_W PTE_P
    else 0.
Proof.
  pose proof kdata_pages as Hk. unfold kern.
  destruct kmap_rows as (e1 & e2 & e3 & e4 & -> & (_ & V1 & L1 & P1 & F1) & (_ & V2 & L2 & P2 & F2) & (_ & V3 & L3 & P3 & F3) & (_ & V4 & L4 & P4 & F4) & Hn).
  set (n := kdata / PGSIZE) in *. cbn [foldl]. unfold kput. rewrite P1, P2, P3, P4, F1, F2, F3, F4.
  change (Z.lor PTE_W PTE_P) with 3. change (Z.lor 0 PTE_P) with 1. change PTE_P with 1.
  repeat case_decide; unfold in_ent in *; unfold KERNLINK, KERNBASE, PHYSTOP, EXTMEM, DEVSPACE, PGSIZE in *; lia.
Qed.

Lemma flag_0 f : flag 0 f = false.
Proof. done. Qed.

(** A cleared directory: no tables, no pages. *)
Lemma sp_empty ow m d : kpage d -> ow d = Dir d -> zeropage d m -> sp ow m d ∅ (fun _ => 0) ∅.
Proof.
  intros Hk Ho Hz. constructor; [|constructor|]; try done.
  constructor; [done| |done]. intros i Hi. rewrite lookup_empty. unfold load32. unfold zeropage, PGSIZE in Hz. rewrite !Hz by lia. done.
Qed.

Lemma setupkvm_spec ow s fr Q :
  kr ow s fr ->
  (forall d ow' s' fr' tabs, kr ow' s' fr' -> kpage d -> ow d = Free -> sp ow' (km s') d tabs kern ∅ ->
     chg (space d) ow (km s) ow' (km s') -> (length fr' + size tabs + 1 = length fr)%nat -> Q d s') ->
  (forall ow' s' fr', kr ow' s' fr' -> chg (dead ow) ow (km s) ow' (km s') -> (length fr <= 1025)%nat -> Q 0 s') ->
  wp (setupkvm kend kdata) Q s.
Proof.
  intros Hk HQ1 HQ0. unfold setupkvm.
  apply (take_cleared kend ow s fr Dir (ret 0) (fun d =>
    if P2V PHYSTOP >? DEVSPACE then panic "PHYSTOP too high" else
    let! ok := setupkvm_loop d (kmap kdata) in
    if (ok : bool) then ret d else do! freevm kend d; ret 0)); [done|done| |].
  { intros ->. rewrite wp_ret. eapply HQ0; [done|done|cbn; lia]. }
  intros d fr1 s1 -> Hkd Hf Hnz Hk1 Hin Hz. change (P2V PHYSTOP >? DEVSPACE) with false. cbn iota.
  set (ow1 := <[d := Dir d]> ow) in *. assert (ow1 d = Dir d) as Ho by (unfold ow1; by rewrite fn_lookup_insert).
  assert (chg (space d) ow (km s) ow1 (km s1)) as Hc1.
  { eapply chg_trans; [by apply (chg_alloc _ _ _ _ d (Dir d))|]. apply (chg_inside _ _ _ _ _ d); [done| |done]. fold ow1. rewrite Ho. left. by left. }
  destruct kmap_ok as [Hok Hap]. rewrite wp_bind. eapply (setupkvm_loop_spec (kmap kdata) ow1 s1 fr1 d ∅ (fun _ => 0)); try done.
  - by apply sp_empty.
  - intros ow2 s2 fr2 tabs2 Hk2 H2 Hc2 Hcn2. cbn iota. rewrite wp_ret. eapply (HQ1 d ow2 s2 fr2 tabs2); try done.
    + eapply chg_trans; [exact Hc1|]. eapply chg_weaken; [|exact Hc2]. intros o Hx. by left.
    + rewrite map_size_empty in Hcn2. cbn [length]. lia.
  - intros ow2 s2 fr2 tabs2 g2 Hk2 H2 Hc2 Hcn2. rewrite map_size_empty in Hcn2. cbn iota. rewrite wp_bind. eapply (freevm_spec ow2 s2 fr2 d tabs2 g2 ∅); try done.
    intros ow3 s3 fr3 Hk3 Hc3 _. rewrite wp_ret. eapply (HQ0 ow3 s3 fr3); [done| |cbn [length]; lia].
    eapply (chg_weaken kend (space d)). { intros o Hx. exists d. split; [by rewrite Hf|done]. }
    eapply chg_trans; [exact Hc1|]. eapply chg_trans; [|exact Hc3]. eapply chg_weaken; [|exact Hc2]. intros o Hx. by left.
Qed.

(** ** Copying an address space *)

Lemma sp_table ow m d tabs g um v p fl : sp ow m d tabs g um -> um !! v = Some (p, fl) ->
  exists t, tabs !! (v / 1024) = Some t /\ kpage t /\ load32 m (t + 4 * (v mod 1024)) = V2P p + fl.
Proof.
  intros H Hl. destruct (us_page _ _ _ _ _ (sp_us _ _ _ _ _ _ _ H) _ _ _ Hl) as (Hv & Hkp & _ & Hfl & Hbit).
  pose proof (us_pte _ _ _ _ _ (sp_us _ _ _ _ _ _ _ H) v Hv) as Hp. rewrite Hl in Hp. unfold pte in Hp.
  destruct (tabs !! (v / 1024)) as [t|] eqn:E.
  - exists t. split; [done|]. split; [|done]. by destruct (pt_tab _ _ _ _ _ (sp_pt _ _ _ _ _ _ _ H) _ _ E) as (_ & ? & _).
  - exfalso. destruct (kpage_V2P kend p Hkp) as (_ & ? & _). assert (fl = 0) as -> by lia. done.
Qed.

Lemma lor_present fl : Z.testbit fl 0 = true -> Z.lor fl PTE_P = fl.
Proof.
  intros Hb. apply Z.bits_inj'. intros j Hj. rewrite Z.lor_spec. unfold PTE_P. change 1 with (2 ^ 0).
  destruct (decide (j = 0)) as [->|]; [by rewrite Hb|]. rewrite Z.pow2_bits_false by lia. apply orb_false_r.
Qed.

Definition samebytes p m p' m' : Prop := forall o, 0 <= o < PGSIZE -> m' (p' + o) = m (p + o).

Lemma copyuvm_loop_spec fuel ow s fr pg tabs g um d tabs' g' um' vp hi sz Q :
  kr ow s fr -> sp ow (km s) pg tabs g um -> sp ow (km s) d tabs' g' um' -> pg <> d -> 0 <= sz <= KERNBASE -> 0 <= vp -> hi = pgs sz ->
  (forall v, vp <= v < hi -> is_Some (um !! v)) -> (forall v, vp <= v < hi -> um' !! v = None) -> (0 < fuel)%nat -> hi - vp < Z.of_nat fuel ->
  (forall ow2 s2 fr2 tabs2 um2, kr ow2 s2 fr2 -> sp ow2 (km s2) d tabs2 g' um2 ->
     (forall v, ~ (vp <= v < hi) -> um2 !! v = um' !! v) ->
     (forall v p fl, vp <= v < hi -> um !! v = Some (p, fl) -> exists p', um2 !! v = Some (p', fl) /\ samebytes p (km s) p' (km s2)) ->
     chg (part d vp hi) ow (km s) ow2 (km s2) -> Q true s2) ->
  (forall ow2 s2 fr2 tabs2 um2, kr ow2 s2 fr2 -> sp ow2 (km s2) d tabs2 g' um2 -> chg (space d) ow (km s) ow2 (km s2) ->
     Z.of_nat (length fr + size tabs') <= 1024 + (hi - vp) -> Q false s2) ->
  wp (copyuvm_loop kend fuel pg d (PGSIZE * vp) sz) Q s.
Proof.
  revert ow s fr tabs' um' vp. induction fuel as [|fuel IH]; intros ow s fr tabs' um' vp Hk H H' Hne Hsz Hvp -> Hhas Hno Hf0 Hf HQ1 HQ0; [lia|].
  assert (PGSIZE = 4096) as HP by done. assert (UPAGES = 524288) as HU by done. assert (KERNBASE = 2147483648) as HK by done.
  destruct (pgs_round sz Hsz) as [_ Hn1]. cbn [copyuvm_loop]. pose proof (pgs_lt sz vp ltac:(lia)) as Hlt.
  destruct (PGSIZE * vp <? sz) eqn:E; zb; cbn [negb].
  2: { rewrite wp_ret. eapply (HQ1 ow s fr tabs' um'); try done. intros v p fl Hv. lia. }
  destruct (Hhas vp) as [[p fl] Hl]; [lia|]. destruct (sp_table _ _ _ _ _ _ _ _ _ H Hl) as (t & Ht & Hkt & He).
  destruct (us_page _ _ _ _ _ (sp_us _ _ _ _ _ _ _ H) _ _ _ Hl) as (Hv & Hkp & Hop & Hfl & Hbit). destruct (kpage_V2P kend p Hkp) as (_ & _ & Hal & Hback).
  assert ((PGSIZE * vp) / PGSIZE = vp) as Hdv by (rewrite Z.mul_comm; apply Z.div_mul; lia). pose proof (kpage_pos kend t Hkt). pose proof (Z.mod_pos_bound vp 1024).
  rewrite wp_bind. eapply (walk_found kend ow s pg tabs _ t); [apply H|lia|by rewrite Hdv|]. rewrite Hdv.
  destruct (Z.eqb_spec (t + 4 * (vp mod 1024)) 0); [lia|]. unfold load at 1. rewrite wp_bind, wp_gets, He.
  change PTE_P with (2 ^ 0). rewrite flag_low, Hbit by (done || lia). cbn [negb]. cbv zeta. rewrite PTE_ADDR_flags, PTE_FLAGS_flags, Hback by done.
  rewrite wp_bind. eapply wp_mono; [by apply (kalloc_spec kend ow s fr)|]. cbn beta. destruct fr as [|q fr].
  { intros r s' [-> ->]. rewrite Z.eqb_refl, wp_ret. eapply (HQ0 ow s [] tabs' um'); try done.
    pose proof (pt_size _ _ _ _ _ (sp_pt _ _ _ _ _ _ _ H')). cbn. lia. }
  intros r s1 (-> & Hkq & Hfq & Hnz & Hm1 & Hkr). destruct (Z.eqb_spec q 0); [done|]. unfold on_mem. rewrite wp_bind, wp_modify, Hm1.
  set (m2 := CString.memmove q p PGSIZE (km s)). set (s2 := mkkmst m2 (freelist s1) (use_lock s1)). set (ow1 := <[q := User d vp]> ow).
  assert (ow1 q = User d vp) as Hoq by (unfold ow1; by rewrite fn_lookup_insert).
  assert (inside q (km s) m2) as Hin by (intros a Ha; unfold m2; rewrite memmove_spec by lia; by rewrite decide_False).
  assert (samebytes p (km s) q m2) as Hb.
  { intros o Ho. unfold m2. rewrite memmove_spec, decide_True by lia. f_equal. lia. }
  assert (kr ow1 s2 fr) as Hk2. { apply (kr_inside kend ow1 s1 fr q); [by apply Hkr|done|by rewrite Hoq|by rewrite Hm1]. }
  assert (forall d0 tabs0 g0 um0, sp ow (km s) d0 tabs0 g0 um0 -> sp ow1 m2 d0 tabs0 g0 um0) as Hsp.
  { intros d0 tabs0 g0 um0 Hd0. eapply (sp_write kend _ (km s)); [by apply sp_take|exact Hkq|fold ow1; rewrite Hoq; apply not_tables_user|done]. }
  assert (chg (part d vp (pgs sz)) ow (km s) ow1 m2) as Hc1.
  { eapply chg_trans; [by apply (chg_alloc _ _ _ _ q (User d vp))|]. apply (chg_inside _ _ _ _ _ q); [done| |done].
    fold ow1. rewrite Hoq. right. exists vp. split; [lia|done]. }
  rewrite wp_bind. eapply (map_page kend ow1 s2 fr d tabs' g' um' vp q fl); try done; try lia; [by apply Hsp|apply Hno; lia|rewrite lor_present by done; lia|..];
    rewrite ?(lor_present fl Hbit).
  - intros ow3 s3 fr3 tabs3 Hk3 H3 Hc3 Hcn3. destruct (Hc3 q Hkq) as [Hoq3 Hsq3]; [by rewrite Hoq|rewrite Hoq; apply not_tables_user|].
    change (0 <? 0) with false. cbn iota. replace (u32 (PGSIZE * vp + PGSIZE)) with (PGSIZE * (vp + 1)) by (rewrite u32_small; lia).
    assert (chg (part d vp (pgs sz)) ow (km s) ow3 (km s3)) as Hc13.
    { eapply chg_trans; [exact Hc1|]. eapply chg_weaken; [|exact Hc3]. intros o Ho. by left. }
    destruct (sp_apart kend ow (km s) ow3 (km s3) pg d tabs g um Hne H) as [Hpar Hsame].
    { eapply chg_weaken; [|exact Hc13]. intros o. apply part_mono; lia. }
    eapply (IH ow3 s3 fr3 tabs3 (<[vp := (q, fl)]> um') (vp + 1)); try done; try lia.
    + intros v Hv'. apply Hhas. lia.
    + intros v Hv'. rewrite lookup_insert_ne by lia. apply Hno. lia.
    + intros ow4 s4 fr4 tabs4 um4 Hk4 H4 Hum4 Hnew4 Hc4. eapply (HQ1 ow4 s4 fr4 tabs4 um4); try done.
      * intros v Hv'. rewrite Hum4 by lia. rewrite lookup_insert_ne by lia. done.
      * intros v p0 fl0 Hv' Hl0. destruct (decide (v = vp)) as [->|Hnv].
        { assert (p0 = p /\ fl0 = fl) as [-> ->] by (split; congruence). exists q. rewrite Hum4 by lia. rewrite lookup_insert_eq. split; [done|].
          intros o Ho. assert (samepage q (km s3) (km s4)) as Hs4.
          { apply Hc4; [done|by rewrite Hoq3, Hoq|]. rewrite Hoq3, Hoq. intros [Hx|(w & Hw & [= <-])]; [by eapply not_tables_user|lia]. }
          rewrite Hs4, Hsq3 by lia. by apply Hb. }
        destruct (Hnew4 v p0 fl0) as (p' & Hp' & Hbs); [lia|done|]. exists p'. split; [done|]. intros o Ho. rewrite Hbs by done. apply (Hsame v p0 fl0 Hl0). lia.
      * eapply chg_trans; [exact Hc13|]. eapply chg_weaken; [|exact Hc4]. intros o. apply part_mono; lia.
    + intros ow4 s4 fr4 tabs4 um4 Hk4 H4 Hc4 Hcn4. eapply (HQ0 ow4 s4 fr4 tabs4 um4); try done; [|cbn [length] in *; lia].
      eapply chg_trans; [|exact Hc4]. eapply chg_weaken; [|exact Hc13]. intros o. apply part_mono; lia.
  - intros ow3 s3 tabs3 Hk3 H3 Hc3 Hcn3. destruct (Hc3 q Hkq) as [Hoq3 Hsq3]; [by rewrite Hoq|rewrite Hoq; apply not_tables_user|].
    change (-1 <? 0) with true. cbn iota. rewrite wp_bind. eapply wp_mono; [apply (kfree_spec kend ow3 s3 [] q Hk3 Hkq); by rewrite Hoq3, Hoq|].
    cbn beta. intros [] s4 [Hk4 Hin4]. rewrite wp_ret. eapply (HQ0 (<[q := Free]> ow3) s4 [q] tabs3 um'); [done| | |cbn [length]; lia].
    + eapply (sp_write kend _ (km s3)); [|exact Hkq|rewrite fn_lookup_insert; by intros [|[i ?]]|exact Hin4].
      eapply (sp_disown kend ow3 _ _ _ _ _ vp); [done|congruence|apply Hno; lia].
    + eapply (chg_give kend); [|exact Hfq|exact Hkq|exact Hin4]. eapply chg_trans; [eapply chg_weaken; [|exact Hc1]; intros o; apply part_mono; lia|].
      eapply chg_weaken; [|exact Hc3]. intros o Ho. by left.
Qed.

Lemma copyuvm_spec ow s fr pg tabs g um sz Q :
  kr ow s fr -> sp ow (km s) pg tabs g um -> 0 <= sz <= KERNBASE -> (forall v, 0 <= v < pgs sz -> is_Some (um !! v)) ->
  (forall d ow' s' fr' tabs' um', kr ow' s' fr' -> chg (dead ow) ow (km s) ow' (km s') -> kpage d -> ow d = Free ->
     sp ow' (km s') d tabs' kern um' -> (forall v, ~ (0 <= v < pgs sz) -> um' !! v = None) ->
     (forall v p fl, 0 <= v < pgs sz -> um !! v = Some (p, fl) -> exists p', um' !! v = Some (p', fl) /\ samebytes p (km s) p' (km s')) ->
     Q d s') ->
  (forall ow' s' fr', kr ow' s' fr' -> chg (dead ow) ow (km s) ow' (km s') -> Z.of_nat (length fr) <= 1025 + pgs sz -> Q 0 s') ->
  wp (copyuvm kend kdata pg sz) Q s.
Proof.
  intros Hk H Hsz Hhas HQ1 HQ0. assert (PGSIZE = 4096) as HP by done. destruct (pgs_round sz Hsz) as [_ Hn1].
  destruct (pt_dir _ _ _ _ _ (sp_pt _ _ _ _ _ _ _ H)) as [_ Hod].
  unfold copyuvm. rewrite wp_bind. eapply (setupkvm_spec ow s fr); [done| |].
  2: { intros ow' s' fr' Hk' Hc Hcn. rewrite Z.eqb_refl, wp_ret. eapply HQ0; [done|done|lia]. }
  intros d ow1 s1 fr1 tabs1 Hk1 Hkd Hfd H1 Hc1 Hcn1. pose proof (kpage_pos kend d Hkd). destruct (Z.eqb_spec d 0); [lia|].
  assert (pg <> d) as Hne by congruence. destruct (sp_apart kend _ _ _ _ _ _ _ _ _ Hne H Hc1) as [Hpar Hsame].
  assert (forall ow' m', chg (space d) ow1 (km s1) ow' m' -> chg (dead ow) ow (km s) ow' m') as Hdead.
  { intros ow' m' Hc'. eapply (chg_weaken kend (space d)); [|by eapply chg_trans]. intros o Ho. exists d. split; [by rewrite Hfd|done]. }
  rewrite wp_bind. change 0 with (PGSIZE * 0) at 2. eapply (copyuvm_loop_spec _ ow1 s1 fr1 pg tabs g um d tabs1 kern ∅ 0 (pgs sz)); try done; try lia.
  - unfold pgs. replace (sz + PGSIZE - 1) with (sz - 1 + 1 * PGSIZE) by lia. rewrite Z.div_add by lia.
    assert ((sz - 1) / PGSIZE <= sz / PGSIZE) by (apply Z.div_le_mono; lia). assert (0 <= sz / PGSIZE) by (apply Z.div_pos; lia). lia.
  - intros ow2 s2 fr2 tabs2 um2 Hk2 H2 Hum2 Hnew2 Hc2. cbn iota. rewrite wp_ret. eapply (HQ1 d ow2 s2 fr2 tabs2 um2); try done.
    + apply Hdead. eapply chg_weaken; [|exact Hc2]. intros o. apply part_mono; lia.
    + intros v p fl Hv Hl. destruct (Hnew2 v p fl Hv Hl) as (p' & Hp' & Hb). exists p'. split; [done|]. intros o Ho. rewrite Hb by done.
      apply (Hsame v p fl Hl). lia.
  - intros ow2 s2 fr2 tabs2 um2 Hk2 H2 Hc2 Hcn2. cbn iota. rewrite wp_bind. eapply (freevm_spec ow2 s2 fr2 d tabs2 kern um2); try done.
    intros ow3 s3 fr3 Hk3 Hc3 _. rewrite wp_ret. eapply (HQ0 ow3 s3 fr3); [done| |lia]. apply Hdead. by eapply chg_trans.
Qed.
End setup.
End space.
