(* ===== verification/VmProps.v ===== *)
(** What the allocator and the address spaces promise, with a state they apply to. *)

From stdpp Require Import functions gmap.
From S2P Require Import Prelude CString Mem Kalloc KallocSpec Vm VmSpec VmUser VmSpace.
Import Kalloc Vm.

Implicit Types (m : mem) (p va vp d v lo hi : Z) (fr : list Z) (ow : Z -> owner) (s : kmst) (tabs : gmap Z Z)
  (um : gmap Z (Z * Z)) (g : Z -> Z).

(** Every address space for which [P] holds is as it was, and so are its bytes. *)
Definition keeps kend (P : Z -> Prop) ow m ow' m' : Prop :=
  forall d tabs g um, P d -> sp kend ow m d tabs g um ->
    sp kend ow' m' d tabs g um /\ forall v p fl, um !! v = Some (p, fl) -> samepage p m m'.

Lemma keeps_others kend d lo hi ow m ow' m' :
  0 <= lo -> hi <= UPAGES -> chg kend (part d lo hi) ow m ow' m' -> keeps kend (.≠ d) ow m ow' m'.
Proof.
  intros Hlo Hhi Hc d' tabs g um Hne H. eapply (sp_apart kend); [exact Hne|done|]. eapply chg_weaken; [|exact Hc]. intros o. by apply part_mono.
Qed.

(** Pages of the space outside the part that changed. *)
Lemma keeps_own kend d lo hi ow m ow' m' tabs g um v p fl :
  chg kend (part d lo hi) ow m ow' m' -> sp kend ow m d tabs g um -> um !! v = Some (p, fl) -> ~ (lo <= v < hi) -> samepage p m m'.
Proof.
  intros Hc H Hl Hv. destruct (us_page _ _ _ _ _ (sp_us _ _ _ _ _ _ _ H) _ _ _ Hl) as (_ & Hkp & Ho & _).
  apply Hc; [done|by rewrite Ho|]. rewrite Ho. intros [Ht|(w & Hw & [= <-])]; [by eapply not_tables_user|done].
Qed.

(** ** A machine with one address space

    The directory is the first page after the kernel; [kinit1] has freed all pages after it. *)

Definition m_end : Z := KERNBASE + 0x110000.
Definition m_data : Z := KERNBASE + 0x108000.
Definition m_ow : Z -> owner := fun p => if decide (p = m_end) then Dir m_end else Other.
Definition m_top : Z := KERNBASE + PHYSTOP.

Lemma wp_run {S A} (c : M S A) (P : S -> Prop) t : wp c (fun _ => P) t -> exists t', P t'.
Proof. unfold wp. destruct (c t) as [[r t']| | |]; [by exists t'|done..]. Qed.

Lemma m_start : kr m_end m_ow (mkkmst (fun _ => 0) 0 0) [].
Proof.
  constructor; [done|by apply NoDup_nil|]. intros p. rewrite elem_of_nil. split; [done|]. unfold m_ow. intros [_ Hf]. by case_decide.
Qed.
Lemma m_boot : exists s fr, kr m_end (release (m_end + PGSIZE) m_top m_ow) s fr /\ zeropage m_end (km s).
Proof.
  eapply (wp_run (freerange m_end (m_end + PGSIZE) m_top)). eapply wp_mono; [apply (freerange_spec m_end m_ow _ [] (m_end + PGSIZE) m_top m_start); try done|].
  - intros r _ _ _. unfold m_ow. by case_decide.
  - cbn beta. intros [] s (fr & Hk & Hm). exists fr. split; [exact Hk|]. intros a Ha. apply Hm. lia.
Qed.

Lemma m_space s ow : ow m_end = Dir m_end -> zeropage m_end (km s) -> sp m_end ow (km s) m_end ∅ (fun _ => 0) ∅.
Proof. intros Ho Hz. by apply sp_empty. Qed.

Lemma m_free s fr : kr m_end (release (m_end + PGSIZE) m_top m_ow) s fr -> (2000 <= length fr)%nat.
Proof.
  intros [_ Hn Hf]. set (l := (fun i => m_end + PGSIZE + PGSIZE * i) <$> seqZ 0 2000).
  assert (length l = 2000%nat) as <- by (unfold l; by rewrite length_fmap, length_seqZ).
  apply NoDup_incl_length; [apply NoDup_ListNoDup, NoDup_fmap_2; [intros i j; unfold PGSIZE; lia|apply NoDup_seqZ]|].
  intros p Hp. apply list_elem_of_In in Hp. apply list_elem_of_In. apply list_elem_of_fmap in Hp as (i & -> & Hi%elem_of_seqZ). apply Hf.
  unfold release, PGSIZE, m_top, m_end, PHYSTOP, KERNBASE. split; [|by rewrite decide_True by lia]. constructor; unfold PGSIZE, KERNBASE, PHYSTOP; try lia.
  replace (2147483648 + 1114112 + 4096 + 4096 * i) with ((524288 + 272 + 1 + i) * 4096) by lia. by apply Z.mod_mul.
Qed.

(** The address space with two pages of user memory. *)
Lemma m_grown : exists s fr ow tabs um, kr m_end ow s fr /\ sp m_end ow (km s) m_end tabs (fun _ => 0) um /\
  (forall v, 0 <= v < pgs 8192 -> is_Some (um !! v)).
Proof.
  destruct m_boot as (s & fr & Hk & Hz). pose proof (m_free s fr Hk) as Hlen.
  pose proof (m_space s (release (m_end + PGSIZE) m_top m_ow) ltac:(done) Hz) as Hsp.
  apply (wp_run (allocuvm m_end m_end 0 8192) (fun s => exists fr ow tabs um, kr m_end ow s fr /\ sp m_end ow (km s) m_end tabs (fun _ => 0) um /\
    (forall v, 0 <= v < pgs 8192 -> is_Some (um !! v))) s).
  eapply (allocuvm_spec m_end ltac:(done) _ s fr m_end ∅ (fun _ => 0) ∅); try done.
  - intros ow' s' fr' tabs' um' Hk' H' _ Hnew _ _. exists fr', ow', tabs', um'. split_and!; [done|done|]. intros v Hv.
    destruct (Hnew v) as (p & -> & _); [exact Hv|done].
  - intros ow' s' fr' tabs' _ _ _ Hc. exfalso. rewrite map_size_empty in Hc. change (pgs 8192 - pgs 0) with 2 in Hc. lia.
Qed.

(** ** Theorems *)

(** C3: [copyuvm], the heart of [fork]: the new address space has the same pages with the
    same flags and the same bytes as the parent's below [sz], and no other user page; its
    pages are its own, so no page of any other space is among them.  The parent and every
    other address space are untouched.  It fails, leaving everything as it was, only when
    memory is nearly exhausted. *)
Theorem copyuvm_isolated kend kdata ow s fr pg tabs g um sz :
  KERNBASE < kend -> kdata mod PGSIZE = 0 -> KERNLINK < kdata < KERNBASE + PHYSTOP ->
  kr kend ow s fr -> sp kend ow (km s) pg tabs g um -> 0 <= sz <= KERNBASE -> (forall v, 0 <= v < pgs sz -> is_Some (um !! v)) ->
  wp (copyuvm kend kdata pg sz) (fun r s' => exists ow' fr', kr kend ow' s' fr' /\ keeps kend (fun _ => True) ow (km s) ow' (km s') /\
    (r = 0 /\ Z.of_nat (length fr) <= 1025 + pgs sz \/
     exists tabs' um', r <> 0 /\ sp kend ow' (km s') r tabs' (kern kdata) um' /\
       (forall v p fl, 0 <= v < pgs sz -> um !! v = Some (p, fl) -> exists p', um' !! v = Some (p', fl) /\ samebytes p (km s) p' (km s')) /\
       (forall v, ~ (0 <= v < pgs sz) -> um' !! v = None) /\
       (forall d tabs0 g0 um0 v0 p0 fl0 v p fl, sp kend ow (km s) d tabs0 g0 um0 -> um0 !! v0 = Some (p0, fl0) -> um' !! v = Some (p, fl) -> p0 <> p))) s.
Proof.
  intros Hend Hd1 [Hd2 Hd3] Hk H Hsz Hhas.
  assert (forall ow' m', chg kend (dead ow) ow (km s) ow' m' -> keeps kend (fun _ => True) ow (km s) ow' m') as Hkeep.
  { intros ow' m' Hc d tabs0 g0 um0 _ H0. by eapply sp_alive. }
  eapply (copyuvm_spec kend Hend kdata Hd1 Hd2 Hd3 ow s fr pg tabs g um sz); try done.
  - intros d ow' s' fr' tabs' um' Hk' Hc Hkd Hfd H' Hnone Hall. exists ow', fr'. split; [done|]. split; [by apply Hkeep|]. right. exists tabs', um'.
    pose proof (kpage_pos kend d Hkd). split; [lia|]. split; [done|]. split; [done|]. split; [done|].
    intros d0 tabs0 g0 um0 v0 p0 fl0 v p fl Hs0 Hl0 Hl ->. destruct (Hkeep _ _ Hc d0 tabs0 g0 um0 I Hs0) as [H0' _].
    destruct (us_page _ _ _ _ _ (sp_us _ _ _ _ _ _ _ H0') _ _ _ Hl0) as (_ & _ & Ho0 & _).
    destruct (us_page _ _ _ _ _ (sp_us _ _ _ _ _ _ _ H') _ _ _ Hl) as (_ & _ & Ho & _).
    destruct (pt_dir _ _ _ _ _ (sp_pt _ _ _ _ _ _ _ Hs0)) as [_ Hod]. congruence.
  - intros ow' s' fr' Hk' Hc Hcn. exists ow', fr'. split; [done|]. split; [by apply Hkeep|]. by left.
Qed.

Lemma copyuvm_isolated_witness : exists s fr ow um,
  wp (copyuvm m_end m_data m_end 8192) (fun r s' => exists ow' fr', kr m_end ow' s' fr' /\ keeps m_end (fun _ => True) ow (km s) ow' (km s') /\
    (r = 0 /\ Z.of_nat (length fr) <= 1025 + pgs 8192 \/
     exists tabs' um', r <> 0 /\ sp m_end ow' (km s') r tabs' (kern m_data) um' /\
       (forall v p fl, 0 <= v < pgs 8192 -> um !! v = Some (p, fl) -> exists p', um' !! v = Some (p', fl) /\ samebytes p (km s) p' (km s')) /\
       (forall v, ~ (0 <= v < pgs 8192) -> um' !! v = None) /\
       (forall d tabs0 g0 um0 v0 p0 fl0 v p fl, sp m_end ow (km s) d tabs0 g0 um0 -> um0 !! v0 = Some (p0, fl0) -> um' !! v = Some (p, fl) -> p0 <> p))) s.
Proof.
  destruct m_grown as (s & fr & ow & tabs & um & Hk & H & Hhas). exists s, fr, ow, um.
  apply (copyuvm_isolated m_end m_data ow s fr m_end tabs (fun _ => 0) um 8192); done.
Defined.

(** C28: [allocuvm] maps a fresh, cleared, writable user page at every page between the
    two sizes and keeps the pages below with their bytes; or it fails and leaves the
    address space as it was, only when there is not enough memory.  No other address
    space is touched. *)
Theorem allocuvm_grows kend ow s fr d tabs g um oldsz newsz :
  KERNBASE < kend -> kr kend ow s fr -> sp kend ow (km s) d tabs g um -> 0 <= oldsz <= newsz -> newsz < KERNBASE ->
  (forall v, pgs oldsz <= v < pgs newsz -> um !! v = None) ->
  wp (allocuvm kend d oldsz newsz) (fun r s' => exists ow' fr' tabs' um', kr kend ow' s' fr' /\ sp kend ow' (km s') d tabs' g um' /\
    keeps kend (.≠ d) ow (km s) ow' (km s') /\ (forall v p fl, um !! v = Some (p, fl) -> samepage p (km s) (km s')) /\
    (r = newsz /\ (forall v, ~ (pgs oldsz <= v < pgs newsz) -> um' !! v = um !! v) /\
       (forall v, pgs oldsz <= v < pgs newsz -> exists p, um' !! v = Some (p, Z.lor (Z.lor PTE_P PTE_W) PTE_U) /\ zeropage p (km s')) \/
     r = 0 /\ um' = um /\ Z.of_nat (length fr + size tabs) <= 1024 + (pgs newsz - pgs oldsz))) s.
Proof.
  intros Hend Hk H Hold Hnew Hno. assert (KERNBASE = 2147483648) as HK by done. destruct (pgs_round oldsz) as [_ Ho]; [lia|]. destruct (pgs_round newsz) as [_ Hn]; [lia|].
  assert (forall ow' m', chg kend (part d (pgs oldsz) (pgs newsz)) ow (km s) ow' m' ->
    keeps kend (.≠ d) ow (km s) ow' m' /\ forall v p fl, um !! v = Some (p, fl) -> samepage p (km s) m') as Hkeep.
  { intros ow' m' Hc. split; [by eapply keeps_others; [| |exact Hc]; lia|]. intros v p fl Hl. eapply keeps_own; [exact Hc|exact H|exact Hl|].
    intros Hv. rewrite (Hno v Hv) in Hl. done. }
  eapply (allocuvm_spec kend Hend ow s fr d tabs g um oldsz newsz); try done.
  - intros ow' s' fr' tabs' um' Hk' H' Hsame Hfresh Hc _. destruct (Hkeep _ _ Hc) as [? ?]. exists ow', fr', tabs', um'.
    split; [done|]. split; [done|]. split; [done|]. split; [done|]. by left.
  - intros ow' s' fr' tabs' Hk' H' Hc Hcn. destruct (Hkeep _ _ Hc) as [? ?]. exists ow', fr', tabs', um.
    split; [done|]. split; [done|]. split; [done|]. split; [done|]. by right.
Qed.

Lemma allocuvm_grows_witness : exists s fr,
  wp (allocuvm m_end m_end 0 8192) (fun r s' => exists ow' fr' tabs' um', kr m_end ow' s' fr' /\ sp m_end ow' (km s') m_end tabs' (fun _ => 0) um' /\
    keeps m_end (.≠ m_end) (release (m_end + PGSIZE) m_top m_ow) (km s) ow' (km s') /\
    (forall v p fl, (∅ : gmap Z (Z * Z)) !! v = Some (p, fl) -> samepage p (km s) (km s')) /\
    (r = 8192 /\ (forall v, ~ (pgs 0 <= v < pgs 8192) -> um' !! v = (∅ : gmap Z (Z * Z)) !! v) /\
       (forall v, pgs 0 <= v < pgs 8192 -> exists p, um' !! v = Some (p, Z.lor (Z.lor PTE_P PTE_W) PTE_U) /\ zeropage p (km s')) \/
     r = 0 /\ um' = ∅ /\ Z.of_nat (length fr + size (∅ : gmap Z Z)) <= 1024 + (pgs 8192 - pgs 0))) s.
Proof.
  destruct m_boot as (s & fr & Hk & Hz). exists s, fr.
  apply (allocuvm_grows m_end (release (m_end + PGSIZE) m_top m_ow) s fr m_end ∅ (fun _ => 0) ∅ 0 8192); try done. by apply m_space.
Defined.

(** [deallocuvm] gives exactly the pages between the two sizes back to the allocator;
    the pages below keep their bytes, and other address spaces are not touched. *)
Theorem deallocuvm_shrinks kend ow s fr d tabs g um oldsz newsz :
  KERNBASE < kend -> kr kend ow s fr -> sp kend ow (km s) d tabs g um -> 0 <= newsz < oldsz -> oldsz <= KERNBASE ->
  wp (deallocuvm kend d oldsz newsz) (fun r s' => r = newsz /\ exists ow' fr' um', kr kend ow' s' fr' /\ sp kend ow' (km s') d tabs g um' /\
    (forall v, um' !! v = if decide (pgs newsz <= v < pgs oldsz) then None else um !! v) /\
    (forall v p fl, um !! v = Some (p, fl) -> if decide (pgs newsz <= v < pgs oldsz) then p ∈ fr' else samepage p (km s) (km s')) /\
    keeps kend (.≠ d) ow (km s) ow' (km s')) s.
Proof.
  intros Hend Hk H Hnew Hold. assert (KERNBASE = 2147483648) as HK by done. destruct (pgs_round oldsz) as [_ Ho]; [lia|]. destruct (pgs_round newsz) as [_ Hn]; [lia|].
  eapply (deallocuvm_spec kend Hend ow s fr d tabs g um oldsz newsz); try done. intros ow' s' fr' um' Hk' H' Hum Hc Hfd. split; [done|].
  exists ow', fr', um'. split; [done|]. split; [done|]. split; [done|]. split.
  - intros v p fl Hl. case_decide as Hv; [|by eapply keeps_own; [exact Hc|exact H|exact Hl|]].
    apply (kr_free _ _ _ _ Hk'). destruct (us_page _ _ _ _ _ (sp_us _ _ _ _ _ _ _ H) _ _ _ Hl) as (_ & Hkp & _). split; [done|].
    apply Hfd. right. by exists v, fl.
  - by eapply keeps_others; [| |exact Hc]; lia.
Qed.

Lemma deallocuvm_shrinks_witness : exists s ow tabs um,
  wp (deallocuvm m_end m_end 8192 100) (fun r s' => r = 100 /\ exists ow' fr' um', kr m_end ow' s' fr' /\ sp m_end ow' (km s') m_end tabs (fun _ => 0) um' /\
    (forall v, um' !! v = if decide (pgs 100 <= v < pgs 8192) then None else um !! v) /\
    (forall v p fl, um !! v = Some (p, fl) -> if decide (pgs 100 <= v < pgs 8192) then p ∈ fr' else samepage p (km s) (km s')) /\
    keeps m_end (.≠ m_end) ow (km s) ow' (km s')) s.
Proof.
  destruct m_grown as (s & fr & ow & tabs & um & Hk & H & Hhas). exists s, ow, tabs, um.
  by apply (deallocuvm_shrinks m_end ow s fr m_end tabs (fun _ => 0) um 8192 100).
Defined.

(** C29: [freevm] gives back every page of the address space: the user pages, the page
    tables and the directory are on the free list afterwards, and other address spaces are not
    touched. *)
Theorem freevm_releases kend ow s fr d tabs g um :
  KERNBASE < kend -> kr kend ow s fr -> sp kend ow (km s) d tabs g um ->
  wp (freevm kend d) (fun _ s' => exists ow' fr', kr kend ow' s' fr' /\ keeps kend (.≠ d) ow (km s) ow' (km s') /\
    d ∈ fr' /\ (forall i t, tabs !! i = Some t -> t ∈ fr') /\ forall v p fl, um !! v = Some (p, fl) -> p ∈ fr') s.
Proof.
  intros Hend Hk H. eapply (freevm_spec kend Hend ow s fr d tabs g um); try done. intros ow' s' fr' Hk' Hc Hfree. exists ow', fr'.
  split; [done|]. split; [by eapply keeps_others; [| |exact Hc]|]. pose proof (kr_free _ _ _ _ Hk') as Hf. split; [|split].
  - apply Hf. split; [apply (pt_dir _ _ _ _ _ (sp_pt _ _ _ _ _ _ _ H))|]. apply Hfree. by left.
  - intros i t Ht. apply Hf. split; [by apply (pt_tab _ _ _ _ _ (sp_pt _ _ _ _ _ _ _ H) i t Ht)|]. apply Hfree. right. left. by exists i.
  - intros v p fl Hl. apply Hf. split; [by apply (us_page _ _ _ _ _ (sp_us _ _ _ _ _ _ _ H) _ _ _ Hl)|]. apply Hfree. right. right. by exists v, fl.
Qed.

Lemma freevm_releases_witness : exists s ow tabs um,
  wp (freevm m_end m_end) (fun _ s' => exists ow' fr', kr m_end ow' s' fr' /\ keeps m_end (.≠ m_end) ow (km s) ow' (km s') /\
    m_end ∈ fr' /\ (forall i t, tabs !! i = Some t -> t ∈ fr') /\ forall v p fl, um !! v = Some (p, fl) -> p ∈ fr') s.
Proof.
  destruct m_grown as (s & fr & ow & tabs & um & Hk & H & Hhas). exists s, ow, tabs, um.
  by apply (freevm_releases m_end ow s fr m_end tabs (fun _ => 0) um).
Defined.

(** The page allocator.  [kalloc] hands out a page that nobody owns, and 0 exactly
    when there is none; memory does not change.  [kfree] puts a page that somebody owns
    back, changing only that page.  [kfree] of anything that is not a page above the kernel
    and below [PHYSTOP] panics. *)
Theorem kalloc_exclusive kend ow s fr o :
  KERNBASE <= kend -> kr kend ow s fr -> o <> Free ->
  wp kalloc (fun r s' => if decide (r = 0) then s' = s /\ forall p, kpage kend p -> ow p <> Free
    else kpage kend r /\ ow r = Free /\ km s' = km s /\ exists fr', kr kend (<[r := o]> ow) s' fr') s /\
  (forall v, kpage kend v -> ow v <> Free ->
     wp (kfree kend v) (fun _ s' => exists fr', kr kend (<[v := Free]> ow) s' fr' /\ inside v (km s) (km s')) s) /\
  (forall v, 0 <= v < 2 ^ 32 -> ~ kpage kend v -> kfree kend v s = Panic "kfree").
Proof.
  intros Hend Hk Ho. split; [|split].
  - eapply wp_mono; [by apply (kalloc_spec kend ow s fr)|]. cbn beta. intros r s'. destruct fr as [|p fr'].
    + intros [-> ->]. rewrite decide_True by done. split; [done|]. intros p Hp Hf.
      assert (p ∈ []) as Hin by (by apply (kr_free _ _ _ _ Hk)). by apply elem_of_nil in Hin.
    + intros (-> & Hkp & Hf & Hnz & Hm & Hkr). rewrite decide_False by done. split_and!; try done. exists fr'. by apply Hkr.
  - intros v Hv Hf. eapply wp_mono; [by apply (kfree_spec kend ow s fr v Hk Hv)|]. cbn beta. intros [] s' [Hk' Hin]. by exists (v :: fr).
  - intros v Hv Hn. unfold kfree. destruct (Z.eqb_spec (v mod PGSIZE) 0) as [Hal|]; [|done]. cbn [negb orb].
    destruct (v <? kend) eqn:E1; zb; [done|]. cbn [orb]. assert (PHYSTOP = 234881024) as HP by done. assert (KERNBASE = 2147483648) as HK by done.
    destruct (V2P v >=? PHYSTOP) eqn:E2; [done|]. zb. exfalso. apply Hn.
    assert (V2P v = v - KERNBASE) as Hv2 by (unfold V2P; apply u32_small; lia). constructor; [done|lia..].
Qed.

Lemma kalloc_exclusive_witness : exists s,
  wp kalloc (fun r s' => if decide (r = 0) then s' = s /\ forall p, kpage m_end p -> release (m_end + PGSIZE) m_top m_ow p <> Free
    else kpage m_end r /\ release (m_end + PGSIZE) m_top m_ow r = Free /\ km s' = km s /\
      exists fr', kr m_end (<[r := Other]> (release (m_end + PGSIZE) m_top m_ow)) s' fr') s /\
  (forall v, kpage m_end v -> release (m_end + PGSIZE) m_top m_ow v <> Free ->
     wp (kfree m_end v) (fun _ s' => exists fr', kr m_end (<[v := Free]> (release (m_end + PGSIZE) m_top m_ow)) s' fr' /\ inside v (km s) (km s')) s) /\
  (forall v, 0 <= v < 2 ^ 32 -> ~ kpage m_end v -> kfree m_end v s = Panic "kfree").
Proof.
  destruct m_boot as (s & fr & Hk & Hz). exists s.
  by apply (kalloc_exclusive m_end (release (m_end + PGSIZE) m_top m_ow) s fr Other).
Defined.

(** C39: [kinit1] and [kinit2] free exactly the whole pages of the range they are given, and
    write nowhere else. *)
Theorem kinit_frees kend ow s fr lo hi :
  KERNBASE < kend -> kr kend ow s fr -> kend <= lo <= KERNBASE + PHYSTOP -> 0 <= hi <= KERNBASE + PHYSTOP ->
  (forall p, kpage kend p -> lo <= p -> p + PGSIZE <= hi -> ow p <> Free) ->
  Forall (fun init => wp init (fun _ s' => exists fr', NoDup fr' /\
      (forall p, p ∈ fr' <-> kpage kend p /\ (ow p = Free \/ lo <= p /\ p + PGSIZE <= hi)) /\
      kr kend (release lo hi ow) s' fr' /\ forall a, ~ (lo <= a < hi) -> km s' a = km s a) s)
    [kinit1 kend lo hi; kinit2 kend lo hi].
Proof.
  intros Hend Hk [Hlo Htop] Hhi Hown. assert (PGSIZE = 4096) as HP by done. assert (KERNBASE = 2147483648) as HK by done. assert (PHYSTOP = 234881024) as HS by done.
  assert (forall s0 s' fr' u, km s0 = km s -> kr kend (release (PGROUNDUP lo) hi ow) s' fr' -> (forall a, ~ (lo <= a < hi) -> km s' a = km s0 a) ->
    exists fr', NoDup fr' /\ (forall p, p ∈ fr' <-> kpage kend p /\ (ow p = Free \/ lo <= p /\ p + PGSIZE <= hi)) /\
      kr kend (release lo hi ow) (mkkmst (km s') (freelist s') u) fr' /\ forall a, ~ (lo <= a < hi) -> km s' a = km s a) as Hpost.
  { intros s0 s' fr' u Hs0 Hk' Hm. exists fr'.
    assert (forall p, kpage kend p -> release (PGROUNDUP lo) hi ow p = Free <-> ow p = Free \/ lo <= p /\ p + PGSIZE <= hi) as Hr.
    { intros p [Hal _ _ _]. rewrite PGROUNDUP_eq by lia. unfold release. pose proof (Z.div_mod (lo + PGSIZE - 1) PGSIZE). pose proof (Z.mod_pos_bound (lo + PGSIZE - 1) PGSIZE).
      pose proof (Z.div_mod p PGSIZE). case_decide; intuition lia. }
    split_and!.
    - apply Hk'.
    - intros p. rewrite (kr_free _ _ _ _ Hk'). split; intros [? ?]; (split; [done|]); by apply Hr.
    - eapply kr_ext; [destruct Hk' as [? ? ?]; by constructor|]. intros p Hp. rewrite Hr by done. unfold release. case_decide; intuition congruence.
    - intros a Ha. rewrite Hm by done. by rewrite Hs0. }
  rewrite !Forall_cons, Forall_nil. split; [|split; [|done]].
  - unfold kinit1, set_use_lock. rewrite wp_bind, wp_modify.
    eapply wp_mono; [apply (freerange_spec kend ow (mkkmst (km s) (freelist s) 0) fr lo hi); [destruct Hk; by constructor|lia..|done]|]. cbn beta.
    intros [] s' (fr' & Hk' & Hm). destruct (Hpost _ _ _ (use_lock s') eq_refl Hk' Hm) as (fr2 & ? & ? & Hk2 & ?). exists fr2. by destruct s'.
  - unfold kinit2, set_use_lock. rewrite wp_bind. eapply wp_mono; [apply (freerange_spec kend ow s fr lo hi); [done|lia..|done]|]. cbn beta.
    intros [] s' (fr' & Hk' & Hm). rewrite wp_modify. destruct (Hpost s _ _ 1 eq_refl Hk' Hm) as (fr2 & ? & ? & Hk2 & ?). by exists fr2.
Qed.

Lemma kinit_frees_witness :
  Forall (fun init => wp init (fun _ s' => exists fr', NoDup fr' /\
      (forall p, p ∈ fr' <-> kpage m_end p /\ (m_ow p = Free \/ m_end + PGSIZE <= p /\ p + PGSIZE <= m_top)) /\
      kr m_end (release (m_end + PGSIZE) m_top m_ow) s' fr' /\ forall a, ~ (m_end + PGSIZE <= a < m_top) -> km s' a = 0) (mkkmst (fun _ => 0) 0 0))
    [kinit1 m_end (m_end + PGSIZE) m_top; kinit2 m_end (m_end + PGSIZE) m_top].
Proof.
  apply (kinit_frees m_end m_ow (mkkmst (fun _ => 0) 0 0) [] (m_end + PGSIZE) m_top); try done; [apply m_start|].
  intros p _ _ _. unfold m_ow. by case_decide.
Defined.

(** [setupkvm] makes an address space without user pages whose kernel half maps
    physical memory from [KERNBASE] on, the kernel text read-only, and the devices at the
    top, none of it accessible to user code.  It fails only when memory is nearly exhausted. *)
Theorem setupkvm_maps kend kdata ow s fr :
  KERNBASE < kend -> kdata mod PGSIZE = 0 -> KERNLINK < kdata < KERNBASE + PHYSTOP -> kr kend ow s fr ->
  wp (setupkvm kend kdata) (fun r s' => exists ow' fr', kr kend ow' s' fr' /\ keeps kend (fun _ => True) ow (km s) ow' (km s') /\
    (r = 0 /\ (length fr <= 1025)%nat \/
     exists tabs g, r <> 0 /\ sp kend ow' (km s') r tabs g ∅ /\ forall v, UPAGES <= v < NPAGE -> pte (km s') tabs v =
       if decide (KERNBASE <= PGSIZE * v < KERNBASE + PHYSTOP) then
         V2P (PGSIZE * v) + (if decide (KERNLINK <= PGSIZE * v < kdata) then PTE_P else Z.lor PTE_W PTE_P)
       else if decide (DEVSPACE <= PGSIZE * v) then PGSIZE * v + Z.lor PTE_W PTE_P
       else 0)) s.
Proof.
  intros Hend Hd1 [Hd2 Hd3] Hk. eapply (setupkvm_spec kend Hend kdata Hd1 Hd2 Hd3 ow s fr); try done.
  - intros d ow' s' fr' tabs Hk' Hkd Hfd H' Hc _. exists ow', fr'. pose proof (kpage_pos kend d Hkd). split; [done|]. split.
    + intros d' tabs' g' um' _ Hs'. eapply sp_alive; [exact Hs'|]. eapply chg_weaken; [|exact Hc]. intros o Ho. exists d. split; [by rewrite Hfd|done].
    + right. exists tabs, (kern kdata). split; [lia|]. split; [done|]. intros v Hv. rewrite (sp_kern _ _ _ _ _ _ _ H') by done. rewrite (kern_eq kdata) by done.
      assert (NPAGE = 1048576) as HN by done. assert (UPAGES = 524288) as HU by done. assert (PGSIZE = 4096) as HP by done.
      repeat case_decide; try lia; unfold V2P; rewrite u32_small; unfold KERNBASE, PHYSTOP in *; lia.
  - intros ow' s' fr' Hk' Hc Hcn. exists ow', fr'. split; [done|]. split; [|by left]. intros d' tabs' g' um' _ Hs'. by eapply sp_alive.
Qed.

Lemma setupkvm_maps_witness : exists s fr,
  wp (setupkvm m_end m_data) (fun r s' => exists ow' fr', kr m_end ow' s' fr' /\ keeps m_end (fun _ => True) (release (m_end + PGSIZE) m_top m_ow) (km s) ow' (km s') /\
    (r = 0 /\ (length fr <= 1025)%nat \/
     exists tabs g, r <> 0 /\ sp m_end ow' (km s') r tabs g ∅ /\ forall v, UPAGES <= v < NPAGE -> pte (km s') tabs v =
       if decide (KERNBASE <= PGSIZE * v < KERNBASE + PHYSTOP) then
         V2P (PGSIZE * v) + (if decide (KERNLINK <= PGSIZE * v < m_data) then PTE_P else Z.lor PTE_W PTE_P)
       else if decide (DEVSPACE <= PGSIZE * v) then PGSIZE * v + Z.lor PTE_W PTE_P
       else 0)) s.
Proof.
  destruct m_boot as (s & fr & Hk & Hz). exists s, fr.
  by apply (setupkvm_maps m_end m_data (release (m_end + PGSIZE) m_top m_ow) s fr).
Defined.
