(* ===== verification/Exec.v ===== *)
(** Loading a program ([exec.c], [loaduvm] of [vm.c], [sys_exec] of [sysfile.c]).

    [exst] puts the page allocator and the page tables of [Vm.v] beside the processes and the
    files of [Sysfile.v].  The argument strings are those [sys_exec] fetched.  The memory a
    process sees is its page table applied to the memory of [Kalloc.v], [uview]; the
    image of the new program becomes visible when [exec] switches to it. *)

From S2P Require Import Prelude CString Mem ProcDefs Queue Proc Sched ProcInv SchedInv.
From S2P Require Import Trap KProc Ledger System SystemProps Syscall Bio Log Fs.
From S2P Require Import File Sysfile Kalloc Vm.
Import Proc Syscall Bio Log Fs File Sysfile Kalloc Vm.

Module Exec.

Definition MAXARG : nat := 32.
Definition ELF_MAGIC : Z := 0x464C457F.
Definition ELF_PROG_LOAD : Z := 1.

(** The fields of [struct elfhdr] and [struct proghdr] that are read. *)
Definition ELFHDR : Z := 52.
Definition elf_magic (h : list Z) : Z := get32 h 0.
Definition elf_entry (h : list Z) : Z := get32 h 24.
Definition elf_phoff (h : list Z) : Z := get32 h 28.
Definition elf_phnum (h : list Z) : Z := get16 h 44.
Definition PROGHDR : Z := 32.
Definition ph_type (h : list Z) : Z := get32 h 0.
Definition ph_off (h : list Z) : Z := get32 h 4.
Definition ph_vaddr (h : list Z) : Z := get32 h 8.
Definition ph_filesz (h : list Z) : Z := get32 h 16.
Definition ph_memsz (h : list Z) : Z := get32 h 20.

Record exst (R D : Type) : Type := mkexst { xk : kmst; xs : sfst R D; xc : cpuhw }.
Arguments mkexst {R D} xk xs xc.
Arguments xk {R D} e.
Arguments xs {R D} e.
Arguments xc {R D} e.

(** Memory as the hardware shows it through a page directory. *)
Definition uview (m : mem) (pgdir : Z) : mem := fun va =>
  let pde := load32 m (pgdir + 4 * PDX va) in
  let pte := load32 m (P2V (PTE_ADDR pde) + 4 * PTX va) in
  m (P2V (PTE_ADDR pte) + va mod PGSIZE).

Section exec.
Context {R D : Type} `{!ProcOps R} `{!DevOps D}.
Abbreviation X := (M (exst R D)).
Variables kend kdata ts : Z.
Variable cur : nat.

Definition on_k {A} (m : K A) : X A := zoom xk (fun k s => mkexst k (xs s) (xc s)) m.
Definition on_s {A} (m : M (sfst R D) A) : X A := zoom xs (fun x s => mkexst (xk s) x (xc s)) m.
Definition on_c {A} (m : M cpuhw A) : X A := zoom xc (fun c s => mkexst (xk s) (xs s) c) m.
Definition fsop {A} (m : M (fsst D) A) : X A := on_s (Sysfile.on_fs cur m).

(** ** [loaduvm] *)

Fixpoint loaduvm_loop (fuel : nat) (pgdir addr : Z) (ip : nat) (offset i sz : Z) : X Z :=
  match fuel with
  | O => nofuel
  | S fuel =>
      if negb (i <? sz) then ret 0 else
      let! pte := on_k (walkpgdir pgdir (u32 (addr + i)) false) in
      if pte =? 0 then panic "loaduvm: address should exist" else
      let! e := on_k (load pte) in
      let pa := PTE_ADDR e in
      let n := if u32 (sz - i) <? PGSIZE then u32 (sz - i) else PGSIZE in
      let! r := fsop (readi ip (u32 (offset + i)) n) in
      do! on_k (on_mem (put_bytes (P2V pa) r.2));
      if negb (u32 r.1 =? n) then ret (-1)
      else loaduvm_loop fuel pgdir addr ip offset (u32 (i + PGSIZE)) sz
  end.

Definition loaduvm (pgdir addr : Z) (ip : nat) (offset sz : Z) : X Z :=
  if negb (addr mod PGSIZE =? 0) then panic "loaduvm: addr must be page aligned" else
  loaduvm_loop (S (Z.to_nat (sz / PGSIZE)) + 1) pgdir addr ip offset 0 sz.

(** ** [exec] *)

(** The loop over the program headers: the size of the image, or [None] for [goto bad]. *)
Fixpoint load_segs (n : nat) (pgdir : Z) (ip : nat) (off sz : Z) : X (option Z) :=
  match n with
  | O => ret (Some sz)
  | S n =>
      let! r := fsop (readi ip (u32 off) PROGHDR) in
      let ph := r.2 in
      if negb (r.1 =? PROGHDR) then ret None else
      if negb (ph_type ph =? ELF_PROG_LOAD) then load_segs n pgdir ip (i32 (off + PROGHDR)) sz else
      if ph_memsz ph <? ph_filesz ph then ret None else
      if u32 (ph_vaddr ph + ph_memsz ph) <? ph_vaddr ph then ret None else
      let! sz := on_k (allocuvm kend pgdir sz (u32 (ph_vaddr ph + ph_memsz ph))) in
      if u32 sz =? 0 then ret None else
      if negb (ph_vaddr ph mod PGSIZE =? 0) then ret None else
      let! r := loaduvm pgdir (ph_vaddr ph) ip (ph_off ph) (ph_filesz ph) in
      if r <? 0 then ret None
      else load_segs n pgdir ip (i32 (off + PROGHDR)) (u32 sz)
  end.

(** The strings pushed on the stack: the stack pointer and the pointers to them. *)
Fixpoint push_args (argc : nat) (argv : list (list Z)) (pgdir sp : Z) (ptrs : list Z) : X (option (Z * list Z)) :=
  match argv with
  | [] => ret (Some (sp, ptrs))
  | s :: argv =>
      if (MAXARG <=? argc)%nat then ret None else
      let sp := Z.land (u32 (sp - (Z.of_nat (length s) + 1))) (Z.lnot 3) in
      let! r := on_k (copyout pgdir sp (s ++ [0])) in
      if r <? 0 then ret None
      else push_args (S argc) argv pgdir sp (ptrs ++ [sp])
  end.

Definition word_bytes_of (v : Z) : list Z := put32 0 v (replicate 4 0).

(** The name of the program, after the last slash. *)
Fixpoint last_elem (path last : list Z) : list Z :=
  match path with
  | [] => last
  | c :: path => last_elem path (if c =? slash then path else last)
  end.

(** [bad:] while the inode is held, and after it was put. *)
Definition bad_ip (pgdir : Z) (ip : nat) : X Z :=
  do! when (negb (pgdir =? 0)) (on_k (freevm kend pgdir));
  do! fsop (iunlockput ip);
  do! on_s (Sysfile.end_op cur);
  ret (-1).
Definition bad_pg (pgdir : Z) : X Z :=
  do! when (negb (pgdir =? 0)) (on_k (freevm kend pgdir));
  ret (-1).

(** From the end of loading on: the user stack, the arguments, and the switch. *)
Definition exec_image (path : list Z) (argv : list (list Z)) (entry pgdir sz : Z) : X Z :=
  let sz := PGROUNDUP sz in
  let! sz := on_k (allocuvm kend pgdir sz (u32 (sz + 2 * PGSIZE))) in
  let sz := u32 sz in
  if sz =? 0 then bad_pg pgdir else
  do! on_k (clearpteu pgdir (u32 (sz - 2 * PGSIZE)));
  let! r := push_args 0 argv pgdir sz [] in
  match r with
  | None => bad_pg pgdir
  | Some (sp, ptrs) =>
      let argc := Z.of_nat (length argv) in
      let ustack := [0xffffffff; argc; u32 (sp - (argc + 1) * 4)] ++ ptrs ++ [0] in
      let sp := u32 (sp - (3 + argc + 1) * 4) in
      let! r := on_k (copyout pgdir sp (mjoin (word_bytes_of <$> ustack))) in
      if r <? 0 then bad_pg pgdir else
      do! on_s (on_u (Syscall.on_k (setp cur (fun p => set_p_name (lsafestrcpy 15 (last_elem path path) (p_name p)) p))));
      let! p := on_s (myproc cur) in
      do! on_s (on_u (Syscall.on_k (setp cur (fun p =>
            set_p_tf (set_tf_esp sp (set_tf_eip entry (p_tf p))) (set_p_sz sz (set_p_pgdir pgdir p))))));
      let! q := on_s (myproc cur) in
      do! on_c (switchuvm ts (Some (p_kstack q, p_pgdir q)));
      let! k := gets xk in
      do! on_s (on_u (modify (fun u => mkust (u_k u) (uview (km k) pgdir))));
      do! on_k (freevm kend (p_pgdir p));
      ret 0
  end.

Definition exec (path : list Z) (argv : list (list Z)) : X Z :=
  do! on_s (Sysfile.begin_op cur);
  let! ip := fsop (namei path) in
  match ip with
  | None => do! on_s (Sysfile.end_op cur); ret (-1)
  | Some ip =>
      do! fsop (ilock ip);
      let! r := fsop (readi ip 0 ELFHDR) in
      let elf := r.2 in
      if negb (r.1 =? ELFHDR) then bad_ip 0 ip else
      if negb (elf_magic elf =? ELF_MAGIC) then bad_ip 0 ip else
      let! pgdir := on_k (setupkvm kend kdata) in
      if pgdir =? 0 then bad_ip 0 ip else
      let! sz := load_segs (Z.to_nat (elf_phnum elf)) pgdir ip (i32 (elf_phoff elf)) 0 in
      match sz with
      | None => bad_ip pgdir ip
      | Some sz =>
          do! fsop (iunlockput ip);
          do! on_s (Sysfile.end_op cur);
          exec_image path argv (elf_entry elf) pgdir sz
      end
  end.

(** ** [sys_exec] *)

(** The argument strings, [None] for the return value -1. *)
Fixpoint fetch_args (n : nat) (uargv i : Z) : X (option (list (list Z))) :=
  match n with
  | O => ret None
  | S n =>
      let! u := on_s (on_u (fetchint cur (u32 (uargv + 4 * i)))) in
      match u with
      | None => ret None
      | Some uarg =>
          if uarg =? 0 then ret (Some []) else
          let! s := on_s (on_u (fetchstr cur (u32 uarg))) in
          match s with
          | None => ret None
          | Some (a, len) =>
              let! l := on_s (peek a len) in
              let! rest := fetch_args n uargv (i + 1) in
              ret (match rest with None => None | Some rest => Some (l :: rest) end)
          end
      end
  end.

Definition sys_exec : X Z :=
  let! path := on_s (argpath cur 0) in
  match path with
  | None => ret (-1)
  | Some path =>
      let! uargv := on_s (on_u (argint cur 1)) in
      match uargv with
      | None => ret (-1)
      | Some uargv =>
          let! argv := fetch_args MAXARG (u32 uargv) 0 in
          match argv with
          | None => ret (-1)
          | Some argv => exec path argv
          end
      end
  end.

End exec.
End Exec.
